(* ===== verification/_CoqProject ===== *)
-Q . S2P
Prelude.v
EspErr.v
Crc.v
Flash.v
Partition.v
PartitionIO.v
OtaData.v
Bootloader.v
EspImage.v
EspLoad.v
OtaOps.v
OtaSelect.v
OtaStream.v
EspTimer.v
LogCache.v
RingBuf.v
RingByte.v
RingItem.v
SplitArgv.v
EventNodes.v
EventLoop.v
GestureApp.v
EspEfuse.v
EfuseFields.v
EfuseApi.v
EfuseCnt.v
EfuseWrite.v
EfuseVersion.v
HttpdUri.v
HttpdTable.v
HttpdSess.v
HttpdServe.v
Vfs.v
VfsPath.v
VfsFd.v
VfsSelect.v
MmuHal.v
MmuMap.v
MmuBlocks.v
MmuState.v
MmuOps.v
MmuInit.v
MmuReach.v
MmuThm.v
MmuExample.v
FlashRun.v
SpiMem.v
SpiHost.v
FlashChip.v
FlashApi.v
FlashInit.v
NorChip.v
HostLaws.v
HostInst.v
ChipWait.v
ChipOps.v
ChipData.v
FlashDrv.v
FlashErase.v
FlashWrite.v
FlashExt.v
FlashThm.v
FlashSim.v
FlashExample.v
