(* ===== verification/Prelude.v ===== *)
(** * Verification of the ESP-IDF core services of this repository

    The repository is a workspace for ESP32 firmware: the sources of ESP-IDF
    under [esp-idf/] and the sketches and programs of its owner. The development
    models services of ESP-IDF ([components/...] below is under
    [src/esp-idf/components/]) and the firmware of the gesture suite.

    ** The parts, and the files that model them

    - Choosing and booting an application.
      [Crc] ([esp_rom/linux/esp_rom_crc.c]): the table-driven CRC functions.
      [Flash]: the flash driver as a class [FlashOps], with its laws [FlashLaws]
      (a read sees what the array holds, an erase and a write change their range
      only) and [FlashReliable] (calls succeed); an instance [NorFlash] shows
      that they can hold. [Partition] ([esp_partition/partition.c]): loading the
      table, the list of partitions, iterators, external registration.
      [PartitionIO] ([esp_partition/partition_target.c]): access to the bytes of
      a partition. [OtaData] ([bootloader_support/src/bootloader_common_loader.c]):
      the two records that choose the application, and the record in RTC memory.
      [Bootloader] ([bootloader_utility.c], [flash_partitions.c]): the check of
      the table, the choice, rollback, anti-rollback, the order of fallback.
      [EspImage] ([bootloader_support/src/esp_image_format.c]): checking and
      loading the image of an application, with the theorem that a load accepts
      the valid images; [EspLoad]: what a load does to RAM, and what is booted.
      [OtaOps] ([app_update/esp_ota_ops.c]): updates and the queries on them.
      [OtaSelect] and [OtaStream] hold the theorems on [OtaOps]: that what it
      stores is what [Bootloader] chooses, and what a stream of writes leaves.
      The calls go [OtaOps] to [PartitionIO] to [Flash], and [OtaOps] and
      [Bootloader] share [OtaData], which uses [Crc].
    - Services of a running application.
      [EspTimer] ([esp_timer/src/esp_timer.c] and its hardware alarm).
      [LogCache] ([log/log.c]): levels of tags, behind a cache that is a heap.
      [RingBuf] ([esp_ringbuf/ringbuf.c]): the three types of ring buffer over
      the bytes of their storage; [RingByte] and [RingItem] hold the theorems on
      byte buffers and on no-split buffers. [EventNodes] and [EventLoop]
      ([esp_event/esp_event.c], [default_event_loop.c]): handlers and loops.
      [SplitArgv] ([console/split_argv.c]): the arguments of a command line.
    - eFuses, for the ESP32-S3. [EspEfuse] ([efuse/src/esp_efuse_utility.c],
      [esp_efuse_api.c], [esp_efuse_fields.c], [esp32s3/esp_efuse_utility.c]):
      fields, batch mode, burning, the secure version, over a class [EfuseHal]
      of the controller. [EfuseFields] and [EfuseCnt] reduce what is done to
      whole fields to single registers, [EfuseApi] states the laws [EfuseLaws]
      of the controller and what preparing and burning do; [EfuseWrite] and
      [EfuseVersion] hold the theorems, and [EfuseWrite.Chip] an instance.
    - The HTTP server. [HttpdUri] ([esp_http_server/src/httpd_uri.c]): the table
      of handlers and the matching of URIs; [HttpdTable] holds the theorems.
      [HttpdSess] ([httpd_sess.c], the loop of [httpd_main.c], the start and end
      of a request of [httpd_parse.c] and [httpd_txrx.c]): the sessions, with a
      log of the calls to the system; [HttpdServe] holds the theorems on every
      state that the loop can reach.
    - The virtual file system ([vfs/vfs.c]). [Vfs]: registration, the table of
      descriptors, and the calls that are passed on to drivers, which are records
      of functions over a state of their own. [VfsPath], [VfsFd]: theorems on
      paths and on descriptors. [VfsSelect]: [select], with its theorem.
    - External memory, for the ESP32-S3. [MmuHal] ([hal/mmu_hal.c],
      [hal/esp32s3/include/hal/mmu_ll.h]): the table of the MMU, with a log of
      what is done to the hardware. [MmuMap] ([esp_mm/esp_mmu_map.c]): the regions
      and their lists of mapped blocks, which are objects of a heap. [MmuBlocks]
      reduces the walks over the lists to lists of records, [MmuState] states the
      invariant, [MmuOps] and [MmuInit] what the calls and the initialization do,
      [MmuReach] the states that calls reach; [MmuThm] holds the theorems and
      [MmuExample] the witnesses.
    - The flash driver, from the calls of applications down to the registers of
      the ESP32-S3. [FlashRun]: programs over a device state that return, abort
      or spin, and total correctness ([wp]). [SpiMem]
      ([hal/esp32s3/include/hal/spimem_flash_ll.h]): the registers of a transaction
      and the wire they stand for. [SpiHost] ([spi_flash/memspi_host_driver.c],
      [hal/spi_flash_hal_common.inc], [spi_flash_hal_iram.c]): the two tables of a
      host. [FlashChip] ([spi_flash/spi_flash_chip_generic.c]): the driver of a
      chip. [FlashApi] and [FlashInit] ([spi_flash/esp_flash_api.c]): the calls.
      Each layer is proved against a class that states what the one below
      promises: [NorChip] (the chip behind the wires, from its data sheet, and the
      functions of the system), [HostLaws] (a host; [HostInst] proves it of both
      tables), [FlashDrv.DrvLaws] (a chip driver; proved in [ChipWait], [ChipOps],
      [ChipData]). [FlashErase] and [FlashWrite] are the calls over such a driver,
      [FlashThm] holds the theorems, [FlashExt] shows that the driver has the laws
      of [Flash], [FlashSim] is a chip to compute with, [FlashExample] holds the
      witnesses.
    - The gesture suite: [GestureApp]
      ([codes/ble_gesture_suite/bleGestureControl/]).

    [Prelude] has machine integers, fields of bytes, notations and tactics,
    [EspErr] the error codes.

    ** How the code is modelled

    State is passed explicitly: a record per C structure or group of static
    variables, a definition per function with the function's name. Pointers
    between objects are addresses or places in a list; where aliasing matters
    (flash, the storage of a ring buffer, a line that is split in place, timers,
    copies of event data) the memory is modelled. Unsigned arithmetic wraps at
    its width, written out with [u32] and the like. Functions that fail return
    an [esp_err_t]; a failed assertion or an access outside an object is [None]
    of the option monad of [abort_scope], so that a theorem that says [Some]
    says that neither happens. What is outside the code (flash, eFuse, clocks,
    allocations, answers of a bus, digests) is a class, a parameter or an
    argument of the operation. Operations that run under a lock are one step;
    interleavings are sequences of steps, and the theorems on reachable states
    hold after every sequence.

    ** Fuel and bounds

    - [LogCache.heap_bubble_down]: 5 turns, as the place at least doubles and
      there are 31 entries; the heap theorem would fail with less.
    - [OtaOps.count_loop]: 17 turns, the loop asserts at 16.
      [OtaOps.seq_loop]: a turn for each multiple of the number of slots below
      the stored sequence number.
    - [RingBuf]: a loop over items passes a header of 8 bytes each turn, so the
      size over 8 and a few turns are enough; the queue theorems say [Some].
    - [SplitArgv.split_loop]: a turn for each character.
    - [EspTimer.timer_process_alarm]: some fuel exists for every state, which is
      the termination theorem; a periodic timer is re-armed after the present.
    - [Bootloader.table_verify_loop]: the number of entries of the table.
    - [EspEfuse.process_run]: 8 turns, the registers of the 256 bits that a run
      has been checked to be in. [EspEfuse.fill_buff_loop] and [fill_reg_loop]: a
      turn sets at least a bit, the fuel is the number of bits.
    - [FlashChip.idle_loop]: a turn for each 20 microseconds of the timeout and
      two more; [FlashThm.waiting_ends] shows that they suffice. [host_wait] looks
      at the controller at most [polls] more times, a parameter: with a controller
      that answers it does not matter, with one that never does no number is
      enough ([FlashExample.busy_controller_spins]). [FlashApi.erase_loop] and the
      other loops of the calls: a turn for each sector, byte or row of the range.
    - [EspImage.segment_loop]: 300 turns, each takes a page of 64 KiB at least
      and a segment is less than 16 MiB; with two free pages the theorems say
      [Some]. With one, [EspLoad.one_page_never_ends] shows that no fuel is
      enough, as the code's loop does not end.
    Other loops recurse on the list they walk.

    ** What is shown

    - Updates: the slot that is set is booted next; an interrupted rewrite of
      the OTA data keeps the old choice; no sequence of calls writes to the
      running application; an image ends in flash as it was given; an
      application that is not confirmed is rolled back, a confirmed one stays;
      boot selection over flash refines a choice on the two records; the image
      loaded is the first that can be booted in the documented order.
    - Images: verification accepts exactly the valid ones and always returns; a
      load leaves each segment in RAM as in flash, never touches the memory the
      bootloader runs from, and only valid images are booted.
    - Partitions: iterators visit what matches, access stays inside, external
      registration keeps partitions disjoint below 2 GiB, a table is loaded only
      with its digest. Where 32-bit sums wrap, a theorem shows the range that
      passes the check.
    - CRC: equal to polynomial division, incremental, and what it detects.
    - Timers: sorted lists and an armed alarm in every reachable state, calls in
      time, termination.
    - Logging: cache and list together are a map with a default, the cache is a
      heap and evicts the least recently used entry.
    - Ring buffers: byte buffers and no-split buffers are bounded queues.
    - Events: a loop is a bounded queue whose events reach handlers in the order
      of their registration, copies of data are owned by one event; the nodes
      stay well formed.
    - Command lines: splitting in place is tokenizing, quoting loses nothing.
    - eFuses: a write sets what it is asked for and nothing else, or refuses and
      changes nothing; what is written is read back; counts are exact; the secure
      version never goes down.
    - HTTP server: matching is what its documentation describes, the table of
      handlers refines a list, a registered handler serves; every socket that is
      accepted is closed once, and the session purged for a new connection is
      the one not used for the longest time.
    - Virtual file system: a path goes to the longest prefix, a descriptor stays
      with the driver that opened it, a range is registered whole or not at all,
      what is read-only is not changed, [select] reports what drivers find.
    - External memory: what is mapped is reached, and only that; unmapping undoes
      mapping; the error codes of mapping mean what they say, the largest free
      size is exact; physical memory is mapped once unless shared; the table is
      written with the caches off only. Coalescing keeps the free addresses.
    - Flash driver: erasing and writing always return, do what they report
      and touch nothing else, and what is stored is read; waiting ends in time;
      the bus is held when it is used and given back once, no command crosses a
      page, the cache is flushed after the last change; both hosts send the same
      commands; an external chip has the laws that partitions and updates need.
    - Gesture controller: samples are complete, spaced, and come with a status
      that tells of no failure; the LED shows the link.
    The modules named [...Example] hold the witnesses, and computations on
    inputs where the code does not do what its documentation says.

    ** Not modelled

    Of the parts above: locks and waiting (a queue of the kernel that is full
    stays full), printing and profiling, cache and MMU set-up before an image is
    started, secure boot, the same RAM at two addresses, handlers that change the
    registrations of the loop that calls them, the contents of the caches of
    external memory, sending and acquiring on
    allow-split buffers beyond their definitions, eFuse keys and virtual eFuses,
    reading and parsing of HTTP requests, responses and websockets, the drivers
    of the virtual file system and the wake-up of [select], the overrides of
    single flash vendors, clocks, pins and suspension of the flash controller, the
    locks of the flash bus (functions of the system, with laws), and what the
    encryption engine puts on the wire (its calls are steps of the model).
    Parts left out are third-party code (FreeRTOS, lwIP, mbedTLS, FatFs,
    Bluetooth and Wi-Fi stacks), drivers and register access, code in other
    languages, and submodules. What could follow: the vendors' flash drivers, the
    keys of [efuse], the event descriptors of [vfs], allow-split buffers as
    queues. *)

From stdpp Require Export prelude list gmap strings.
From Stdlib Require Export ZArith Lia Bool.

#[global] Open Scope Z_scope.

(** Lengths and indices of lists are used as integers. *)
Coercion Z.of_nat : nat >-> Z.

(** ** Machine integers

    A [w]-bit unsigned integer of the C code is a [Z]; [wrap w] is the
    reduction every unsigned C operation performs on its result. *)

Definition wrap (w x : Z) : Z := x mod 2 ^ w.
Abbreviation u8 := (wrap 8).
Abbreviation u16 := (wrap 16).
Abbreviation u32 := (wrap 32).
Abbreviation u64 := (wrap 64).

(** The value of a [w]-bit two's-complement integer with these bits. *)
Definition swrap (w x : Z) : Z := (x + 2 ^ (w - 1)) mod 2 ^ w - 2 ^ (w - 1).
Abbreviation s32 := (swrap 32).
Abbreviation s64 := (swrap 64).

Definition UINT32_MAX : Z := 2 ^ 32 - 1.
Definition UINT64_MAX : Z := 2 ^ 64 - 1.
Definition INT64_MAX : Z := 2 ^ 63 - 1.

(** [in_range w x]: [x] is the value of a [w]-bit unsigned integer. *)
Definition in_range (w x : Z) : Prop := 0 <= x < 2 ^ w.

Create HintDb cint.

Lemma wrap_small w x : in_range w x -> wrap w x = x.
Proof. apply Z.mod_small. Qed.

Lemma wrap_range w x : 0 <= w -> in_range w (wrap w x).
Proof. intros Hw. apply Z.mod_pos_bound. lia. Qed.

Lemma wrap_wrap w x : wrap w (wrap w x) = wrap w x.
Proof. apply Zmod_mod. Qed.

Lemma wrap_add_l w x y : wrap w (wrap w x + y) = wrap w (x + y).
Proof. apply Zplus_mod_idemp_l. Qed.

Lemma in_range_testbit w x i :
  in_range w x -> 0 <= w -> w <= i -> Z.testbit x i = false.
Proof.
  intros Hx Hw Hi. rewrite <- (Z.mod_small x (2 ^ w)) by exact Hx.
  now apply Z.mod_pow2_bits_high.
Qed.

Lemma wrap_testbit w x i :
  0 <= w -> 0 <= i -> Z.testbit (wrap w x) i = (i <? w) && Z.testbit x i.
Proof.
  intros Hw Hi. unfold wrap. destruct (Z.ltb_spec i w).
  - now apply Z.mod_pow2_bits_low.
  - now apply Z.mod_pow2_bits_high.
Qed.

Lemma in_range_bits w x :
  0 <= w -> 0 <= x -> (forall i, w <= i -> Z.testbit x i = false) -> in_range w x.
Proof.
  intros Hw Hx Hb. assert (x = wrap w x) as ->; [|now apply wrap_range].
  apply Z.bits_inj'. intros i Hi. rewrite wrap_testbit by lia.
  destruct (Z.ltb_spec i w); [done|]. cbn. now apply Hb.
Qed.

Lemma lxor_range w x y :
  0 <= w -> in_range w x -> in_range w y -> in_range w (Z.lxor x y).
Proof.
  intros Hw Hx Hy. apply in_range_bits; [done| |].
  - apply Z.lxor_nonneg. unfold in_range in *. lia.
  - intros i Hi. rewrite Z.lxor_spec.
    now rewrite !(in_range_testbit w) by done.
Qed.

Lemma swrap_small w x : 0 < w -> - 2 ^ (w - 1) <= x < 2 ^ (w - 1) -> swrap w x = x.
Proof.
  intros Hw Hx. unfold swrap. rewrite Z.mod_small; [lia|].
  replace w with (Z.succ (w - 1)) at 3 by lia. rewrite Z.pow_succ_r by lia. lia.
Qed.

Lemma s32_small x : - 2 ^ 31 <= x < 2 ^ 31 -> s32 x = x.
Proof. apply (swrap_small 32). lia. Qed.

Lemma u32_small x : 0 <= x < 2 ^ 32 -> u32 x = x.
Proof. apply Z.mod_small. Qed.

Lemma shiftr_range n m x : 0 <= n -> 0 <= m -> in_range (m + n) x -> in_range m (Z.shiftr x n).
Proof.
  intros Hn Hm [Hx0 Hx1]. rewrite Z.shiftr_div_pow2 by lia.
  split; [apply Z.div_pos; lia|]. apply Z.div_lt_upper_bound; [lia|].
  rewrite <- Z.pow_add_r by lia. by rewrite Z.add_comm.
Qed.

Lemma wrap_lxor w x y : 0 <= w -> wrap w (Z.lxor x y) = Z.lxor (wrap w x) (wrap w y).
Proof.
  intros Hw. apply Z.bits_inj'. intros i Hi.
  rewrite wrap_testbit, !Z.lxor_spec, !wrap_testbit by lia.
  by destruct (i <? w).
Qed.

#[export] Hint Resolve wrap_range lxor_range : cint.

(** ** Little-endian fields of packed structures *)

Fixpoint le_bytes (n : nat) (x : Z) : list Z :=
  match n with
  | O => []
  | S n => x mod 256 :: le_bytes n (x / 256)
  end.

Fixpoint le_value (bs : list Z) : Z :=
  match bs with [] => 0 | b :: bs => b + 256 * le_value bs end.

Lemma le_bytes_length n x : length (le_bytes n x) = n.
Proof. revert x. induction n; cbn; auto. Qed.

Lemma le_bytes_range n x : Forall (in_range 8) (le_bytes n x).
Proof.
  revert x. induction n; intros x; cbn [le_bytes]; constructor; auto.
  unfold in_range. change (2 ^ 8) with 256. apply Z.mod_pos_bound. lia.
Qed.

Lemma le_value_bytes n x : le_value (le_bytes n x) = wrap (8 * n) x.
Proof.
  revert x. induction n as [|n IH]; intros x; cbn [le_bytes le_value].
  { unfold wrap. by rewrite Z.mod_1_r. }
  rewrite IH. unfold wrap. replace (8 * S n) with (8 + 8 * n) by lia.
  rewrite Z.pow_add_r by lia. change (2 ^ 8) with 256.
  pose proof (Z.pow_pos_nonneg 2 (8 * n)). rewrite Z.rem_mul_r by lia. lia.
Qed.

Lemma le_value_bytes_4 x : in_range 32 x -> le_value (le_bytes 4 x) = x.
Proof. intros Hx. rewrite le_value_bytes. by apply wrap_small. Qed.

Lemma le_bytes_value bs :
  Forall (in_range 8) bs -> le_bytes (length bs) (le_value bs) = bs.
Proof.
  induction 1 as [|b bs Hb _ IH]; cbn [length le_value le_bytes]; [done|].
  unfold in_range in Hb. change (2 ^ 8) with 256 in Hb.
  replace (b + 256 * le_value bs) with (b + le_value bs * 256) by lia.
  rewrite Z.mod_add, Z.div_add, Z.mod_small, Z.div_small by lia.
  rewrite Z.add_0_l. by rewrite IH.
Qed.

(** [n] bytes from offset [off] of a structure. *)
Definition field (bs : list Z) (off n : nat) : list Z := take n (drop off bs).

Lemma field_skip bs1 bs2 off n :
  (length bs1 <= off)%nat -> field (bs1 ++ bs2) off n = field bs2 (off - length bs1) n.
Proof. intros Hl. unfold field. by rewrite drop_app_ge. Qed.

Lemma field_here bs1 bs2 n : length bs1 = n -> field (bs1 ++ bs2) 0 n = bs1.
Proof. intros <-. unfold field. rewrite drop_0. apply take_app_length. Qed.

(** ** Tactics of the development *)

(** Case analysis on the innermost boolean test or match of the goal or of a
    hypothesis, keeping its equation. *)
Ltac case_test :=
  match goal with
  | |- context [if ?b then _ else _] =>
      lazymatch b with context [if _ then _ else _] => fail | _ => destruct b eqn:? end
  | H : context [if ?b then _ else _] |- _ =>
      lazymatch b with context [if _ then _ else _] => fail | _ => destruct b eqn:? end
  end.

Ltac case_opt :=
  match goal with
  | |- context [match ?o with Some _ => _ | None => _ end] =>
      lazymatch o with context [match _ with _ => _ end] => fail | _ => destruct o eqn:? end
  | H : context [match ?o with Some _ => _ | None => _ end] |- _ =>
      lazymatch o with context [match _ with _ => _ end] => fail | _ => destruct o eqn:? end
  end.

(** Boolean comparisons of the code as propositions. *)
Ltac to_prop :=
  repeat match goal with
  | H : _ && _ = true |- _ => apply andb_true_iff in H as [? ?]
  | H : _ || _ = false |- _ => apply orb_false_iff in H as [? ?]
  | H : negb _ = true |- _ => apply negb_true_iff in H
  | H : negb _ = false |- _ => apply negb_false_iff in H
  | H : (_ =? _) = true |- _ => apply Z.eqb_eq in H
  | H : (_ =? _) = false |- _ => apply Z.eqb_neq in H
  | H : (_ <? _) = true |- _ => apply Z.ltb_lt in H
  | H : (_ <? _) = false |- _ => apply Z.ltb_ge in H
  | H : (_ <=? _) = true |- _ => apply Z.leb_le in H
  | H : (_ <=? _) = false |- _ => apply Z.leb_gt in H
  end.

(** ** Calls that may abort

    A failed [assert]/[configASSERT]/[abort] stops the program: the model
    returns [None]. *)

Declare Scope abort_scope.
Delimit Scope abort_scope with abort.

Definition guard_ (b : bool) : option unit := if b then Some tt else None.

Notation "'assert!' b ;; k" := (if b then k else None)
  (at level 100, b at next level, k at level 200, right associativity) : abort_scope.
Notation "'let!' x := m 'in' k" := (match m with Some x => k | None => None end)
  (at level 100, x pattern, m at next level, k at level 200, right associativity) : abort_scope.
