(* ===== verification/EspErr.v ===== *)
(** * Error codes ([components/esp_common/include/esp_err.h])

    The [esp_err_t] values the modelled components return, with the numeric
    code of each. *)

From S2P Require Import Prelude.

Inductive esp_err_t :=
| ESP_OK
| ESP_FAIL
| ESP_ERR_NO_MEM
| ESP_ERR_INVALID_ARG
| ESP_ERR_INVALID_STATE
| ESP_ERR_INVALID_SIZE
| ESP_ERR_NOT_FOUND
| ESP_ERR_NOT_SUPPORTED
| ESP_ERR_TIMEOUT
| ESP_ERR_NOT_ALLOWED
| ESP_ERR_OTA_PARTITION_CONFLICT
| ESP_ERR_OTA_SELECT_INFO_INVALID
| ESP_ERR_OTA_VALIDATE_FAILED
| ESP_ERR_OTA_SMALL_SEC_VER
| ESP_ERR_OTA_ROLLBACK_FAILED
| ESP_ERR_OTA_ROLLBACK_INVALID_STATE
| ESP_ERR_OTHER (code : Z).   (** a code passed on from another component *)

#[export] Instance esp_err_eq_dec : EqDecision esp_err_t.
Proof. solve_decision. Defined.

Definition err_code (e : esp_err_t) : Z :=
  match e with
  | ESP_OK => 0
  | ESP_FAIL => -1
  | ESP_ERR_NO_MEM => 0x101
  | ESP_ERR_INVALID_ARG => 0x102
  | ESP_ERR_INVALID_STATE => 0x103
  | ESP_ERR_INVALID_SIZE => 0x104
  | ESP_ERR_NOT_FOUND => 0x105
  | ESP_ERR_NOT_SUPPORTED => 0x106
  | ESP_ERR_TIMEOUT => 0x107
  | ESP_ERR_NOT_ALLOWED => 0x10D
  | ESP_ERR_OTA_PARTITION_CONFLICT => 0x1501
  | ESP_ERR_OTA_SELECT_INFO_INVALID => 0x1502
  | ESP_ERR_OTA_VALIDATE_FAILED => 0x1503
  | ESP_ERR_OTA_SMALL_SEC_VER => 0x1504
  | ESP_ERR_OTA_ROLLBACK_FAILED => 0x1505
  | ESP_ERR_OTA_ROLLBACK_INVALID_STATE => 0x1506
  | ESP_ERR_OTHER c => c
  end.

(** [err == ESP_OK] *)
Definition is_ok (e : esp_err_t) : bool := match e with ESP_OK => true | _ => false end.

Lemma is_ok_true e : is_ok e = true <-> e = ESP_OK.
Proof. destruct e; naive_solver. Qed.
