(* ===== verification/Flash.v ===== *)
(** * The flash driver as an interface

    The partition, OTA and bootloader code works on flash chips through the
    driver ([esp_flash_read], [esp_flash_write], [esp_flash_write_encrypted],
    [esp_flash_erase_region], [spi_flash_mmap]) whose effect is the hardware's.
    [FlashOps] lists the driver's operations over a device state [F];
    [FlashLaws] is the driver's documented behaviour: an access changes nothing
    outside its range, whether it succeeds or fails half way; a successful erase
    leaves 0xFF bytes; data written over erased bytes reads back.
    [NorFlash] is a concrete device with these laws; [FlashExt] shows that the
    modelled driver has them. *)

From S2P Require Import Prelude EspErr.

Definition SPI_FLASH_SEC_SIZE : Z := 4096.

Class FlashOps (F : Type) := {
  (** the byte at an address of a chip, as a (decrypting) mapping shows it *)
  flash_byte : F -> Z -> Z -> Z;
  (** [esp_flash_read chip addr len] *)
  esp_flash_read : F -> Z -> Z -> Z -> esp_err_t * list Z;
  (** [esp_flash_write chip addr data] *)
  esp_flash_write : F -> Z -> Z -> list Z -> F * esp_err_t;
  (** [esp_flash_write_encrypted chip addr data] *)
  esp_flash_write_encrypted : F -> Z -> Z -> list Z -> F * esp_err_t;
  (** [esp_flash_erase_region chip start len] *)
  esp_flash_erase_region : F -> Z -> Z -> Z -> F * esp_err_t;
  (** [spi_flash_mmap] of the default chip: whether a range can be mapped *)
  spi_flash_mmap : F -> Z -> Z -> esp_err_t;
}.

(** The [n] bytes from address [a] of chip [c]. *)
Definition flash_bytes {F} `{FlashOps F} (f : F) (c a : Z) (n : nat) : list Z :=
  map (fun i => flash_byte f c (a + Z.of_nat i)) (seq 0 n).

(** [f'] agrees with [f] outside the range [a, a+n) of chip [c]. *)
Definition flash_frame {F} `{FlashOps F} (f f' : F) (c a n : Z) : Prop :=
  forall c' a', c' <> c \/ a' < a \/ a + n <= a' -> flash_byte f' c' a' = flash_byte f c' a'.

Class FlashLaws (F : Type) `{FlashOps F} : Prop := {
  byte_range : forall f c a, in_range 8 (flash_byte f c a);
  read_ok : forall f c a n bs,
    esp_flash_read f c a n = (ESP_OK, bs) -> bs = flash_bytes f c a (Z.to_nat n);
  write_frame : forall f c a bs,
    flash_frame f (fst (esp_flash_write f c a bs)) c a (length bs);
  write_ok : forall f c a bs,
    snd (esp_flash_write f c a bs) = ESP_OK -> Forall (in_range 8) bs ->
    Forall (fun b => b = 0xFF) (flash_bytes f c a (length bs)) ->
    flash_bytes (fst (esp_flash_write f c a bs)) c a (length bs) = bs;
  write_enc_frame : forall f c a bs,
    flash_frame f (fst (esp_flash_write_encrypted f c a bs)) c a (length bs);
  write_enc_ok : forall f c a bs,
    snd (esp_flash_write_encrypted f c a bs) = ESP_OK -> Forall (in_range 8) bs ->
    Forall (fun b => b = 0xFF) (flash_bytes f c a (length bs)) ->
    flash_bytes (fst (esp_flash_write_encrypted f c a bs)) c a (length bs) = bs;
  erase_frame : forall f c a n,
    0 <= n -> flash_frame f (fst (esp_flash_erase_region f c a n)) c a n;
  erase_ok : forall f c a n,
    snd (esp_flash_erase_region f c a n) = ESP_OK ->
    forall a', a <= a' < a + n ->
    flash_byte (fst (esp_flash_erase_region f c a n)) c a' = 0xFF;
}.

(** ** Facts about byte ranges *)

Section Ranges.
  Context {F} `{FlashOps F}.

Lemma flash_bytes_length f c a n : length (flash_bytes f c a n) = n.
  Proof. unfold flash_bytes. by rewrite length_map, length_seq. Qed.

Lemma flash_bytes_ext f f' c a n :
    (forall a', a <= a' < a + Z.of_nat n -> flash_byte f' c a' = flash_byte f c a') ->
    flash_bytes f' c a n = flash_bytes f c a n.
  Proof.
    intros Heq. apply map_ext_in. intros i Hi%in_seq. apply Heq. lia.
  Qed.

Lemma flash_bytes_frame f f' c a n c' a' n' :
    flash_frame f f' c a n ->
    c' <> c \/ a' + Z.of_nat n' <= a \/ a + n <= a' ->
    flash_bytes f' c' a' n' = flash_bytes f c' a' n'.
  Proof. intros Hf Hd. apply flash_bytes_ext. intros x Hx. apply Hf. lia. Qed.

Lemma flash_bytes_forall (P : Z -> Prop) f c a n :
    (forall a', a <= a' < a + Z.of_nat n -> P (flash_byte f c a')) ->
    Forall P (flash_bytes f c a n).
  Proof.
    intros HP. apply Forall_map, Forall_forall. intros i Hi%elem_of_seq. apply HP. lia.
  Qed.

Lemma flash_frame_refl f c a n : flash_frame f f c a n.
  Proof. by intros c' a' _. Qed.

Lemma flash_frame_trans f1 f2 f3 c a n :
    flash_frame f1 f2 c a n -> flash_frame f2 f3 c a n -> flash_frame f1 f3 c a n.
  Proof. intros H1 H2 c' a' Hd. by rewrite H2, H1. Qed.

Lemma flash_frame_sub f f' c a n a' n' :
    flash_frame f f' c a n -> a' <= a -> a + n <= a' + n' -> flash_frame f f' c a' n'.
  Proof. intros Hf Hl Hr c1 a1 Hd. apply Hf. lia. Qed.

Lemma flash_bytes_split f c a n k :
    (k <= n)%nat ->
    flash_bytes f c a n = flash_bytes f c a k ++ flash_bytes f c (a + Z.of_nat k) (n - k).
  Proof.
    intros Hk. unfold flash_bytes.
    assert (seq 0 n = seq 0 k ++ map (Nat.add k) (seq 0 (n - k))) as ->.
    { change (map (Nat.add k)) with (fmap (M:=list) (Nat.add k)). rewrite fmap_add_seq, Nat.add_0_r, <- seq_app.
      f_equal. lia. }
    rewrite map_app, map_map. f_equal. apply map_ext. intros i. f_equal. lia.
  Qed.
End Ranges.

#[export] Hint Resolve flash_frame_refl : core.

(** ** A concrete device: a NOR flash without encryption

    Writing clears bits ([old & data]), erasing sets them; every access
    succeeds. *)

Definition NorFlash : Type := Z -> Z -> Z.

Definition nor_write (f : NorFlash) (c a : Z) (bs : list Z) : NorFlash :=
  fun c' a' =>
    if (c' =? c) && (a <=? a') && (a' <? a + length bs)
    then Z.land (u8 (f c' a')) (nth (Z.to_nat (a' - a)) bs 0)
    else f c' a'.
Definition nor_erase (f : NorFlash) (c a n : Z) : NorFlash :=
  fun c' a' => if (c' =? c) && (a <=? a') && (a' <? a + n) then 0xFF else f c' a'.

#[export] Instance nor_ops : FlashOps NorFlash := {
  flash_byte f c a := u8 (f c a);
  esp_flash_read f c a n :=
    (ESP_OK, map (fun i => u8 (f c (a + Z.of_nat i))) (seq 0 (Z.to_nat n)));
  esp_flash_write f c a bs := (nor_write f c a bs, ESP_OK);
  esp_flash_write_encrypted f c a bs := (nor_write f c a bs, ESP_OK);
  esp_flash_erase_region f c a n := (nor_erase f c a n, ESP_OK);
  spi_flash_mmap f a n := ESP_OK;
}.

Lemma nor_write_byte f c a bs i :
  (i < length bs)%nat ->
  nor_write f c a bs c (a + i) = Z.land (u8 (f c (a + i))) (nth i bs 0).
Proof.
  intros Hi. unfold nor_write. rewrite Z.eqb_refl.
  destruct (Z.leb_spec a (a + i)), (Z.ltb_spec (a + i) (a + length bs)); try lia.
  cbn. do 2 f_equal. lia.
Qed.

Lemma land_ff b : in_range 8 b -> u8 (Z.land 0xFF b) = b.
Proof.
  intros Hb. rewrite Z.land_comm. change 0xFF with (Z.ones 8). rewrite Z.land_ones by lia.
  rewrite (wrap_small 8 b Hb : b mod 2 ^ 8 = b). by apply wrap_small.
Qed.

#[export] Instance nor_laws : FlashLaws NorFlash.
Proof.
  assert (Hframe : forall f c a bs, flash_frame f (nor_write f c a bs) c a (length bs)).
  { intros f c a bs c' a' Hd. cbn. unfold nor_write.
    destruct (Z.eqb_spec c' c), (Z.leb_spec a a'), (Z.ltb_spec a' (a + length bs)); cbn;
      try done; lia. }
  assert (Hok : forall f c a bs, Forall (in_range 8) bs ->
    Forall (fun b => b = 0xFF) (flash_bytes f c a (length bs)) ->
    flash_bytes (nor_write f c a bs) c a (length bs) = bs).
  { intros f c a bs Hbs Hff. apply (nth_ext _ _ 0 0); rewrite flash_bytes_length; [done|].
    intros i Hi. unfold flash_bytes in *.
    rewrite (nth_indep _ 0 (flash_byte (nor_write f c a bs) c (a + Z.of_nat 0)))
      by (by rewrite length_map, length_seq).
    rewrite (map_nth (fun i => flash_byte (nor_write f c a bs) c (a + Z.of_nat i))).
    rewrite seq_nth by done. cbn. rewrite nor_write_byte by done.
    rewrite Forall_map, Forall_forall in Hff. cbn in Hff. rewrite Hff.
    - apply land_ff. rewrite Forall_forall in Hbs. apply Hbs, list_elem_of_In, nth_In. done.
    - apply elem_of_seq. lia. }
  split; cbn; auto.
  - intros. by apply wrap_range.
  - intros f c a n bs [= <-]. done.
  - intros f c a n Hn c' a' Hd. cbn. unfold nor_erase.
    destruct (Z.eqb_spec c' c), (Z.leb_spec a a'), (Z.ltb_spec a' (a + n)); cbn; try done; lia.
  - intros f c a n _ a' Ha'. cbn. unfold nor_erase. rewrite Z.eqb_refl.
    destruct (Z.leb_spec a a'), (Z.ltb_spec a' (a + n)); cbn; (reflexivity || lia).
Qed.

(** Every access succeeds: the hypothesis under which a theorem describes an
    operation that is not interrupted. *)
Class FlashReliable (F : Type) `{FlashOps F} : Prop := {
  rel_read : forall f c a n, fst (esp_flash_read f c a n) = ESP_OK;
  rel_write : forall f c a bs, snd (esp_flash_write f c a bs) = ESP_OK;
  rel_write_enc : forall f c a bs, snd (esp_flash_write_encrypted f c a bs) = ESP_OK;
  rel_erase : forall f c a n, snd (esp_flash_erase_region f c a n) = ESP_OK;
  rel_mmap : forall f a n, spi_flash_mmap f a n = ESP_OK;
}.

#[export] Instance nor_reliable : FlashReliable NorFlash.
Proof. by split. Qed.

Lemma flash_bytes_range {F} `{FlashLaws F} (f : F) c a n :
  Forall (in_range 8) (flash_bytes f c a n).
Proof. apply flash_bytes_forall. intros. apply byte_range. Qed.
