(* ===== verification/Partition.v ===== *)
(** * The partition table service ([components/esp_partition])

    [partition.c]: loading the table from flash, the list of partitions, the
    iterators over it, and external registration; [partition_target.c]: bounded
    access to a partition through the flash driver.

    A [partition_list_item_t *] is the item's address, an integer; the singly
    linked list [s_partition_list] is the list of its items in order, each with
    its address.  C strings are the bytes before the terminating NUL. *)

From S2P Require Import Prelude EspErr Flash.

(** ** Data *)

Definition ESP_PARTITION_TYPE_APP : Z := 0x00.
Definition ESP_PARTITION_TYPE_DATA : Z := 0x01.
Definition ESP_PARTITION_TYPE_ANY : Z := 0xff.
Definition ESP_PARTITION_SUBTYPE_ANY : Z := 0xff.
Definition ESP_PARTITION_SUBTYPE_APP_FACTORY : Z := 0x00.
Definition ESP_PARTITION_SUBTYPE_APP_OTA_MIN : Z := 0x10.
Definition ESP_PARTITION_SUBTYPE_APP_OTA_MAX : Z := 0x20.
Definition ESP_PARTITION_SUBTYPE_APP_TEST : Z := 0x20.
Definition ESP_PARTITION_SUBTYPE_DATA_OTA : Z := 0x00.
Definition ESP_PARTITION_SUBTYPE_DATA_NVS : Z := 0x02.
Definition ESP_PARTITION_SUBTYPE_DATA_NVS_KEYS : Z := 0x04.
Definition ESP_PARTITION_MAGIC : Z := 0x50AA.
Definition ESP_PARTITION_MAGIC_MD5 : Z := 0xEBEB.
Definition ESP_PARTITION_MD5_OFFSET : nat := 16.
Definition PART_FLAG_ENCRYPTED : Z := 1.
Definition PART_FLAG_READONLY : Z := 2.

(** [esp_flash_default_chip] *)
Definition esp_flash_default_chip : Z := 0.

Record esp_partition_t := Part {
  flash_chip : Z;
  type : Z;
  subtype : Z;
  address : Z;
  size : Z;
  erase_size : Z;
  label : list Z;
  encrypted : bool;
  readonly : bool;
}.

Record partition_list_item_t := Item {
  addr : Z;                (** the address of the list item *)
  info : esp_partition_t;
  user_registered : bool;
}.

Abbreviation partition_list := (list partition_list_item_t).

Record esp_partition_iterator := Iter {
  it_type : Z;
  it_subtype : Z;
  it_label : option (list Z);
  next_item : partition_list;            (** the rest of the list *)
  it_info : option partition_list_item_t;
}.

(** An entry of the table in flash. *)
Record esp_partition_info_t := Entry {
  e_magic : Z;
  e_type : Z;
  e_subtype : Z;
  e_offset : Z;
  e_size : Z;
  e_label : list Z;
  e_flags : Z;
}.

(** ** C strings and table entries *)

Fixpoint c_str (bs : list Z) : list Z :=
  match bs with
  | [] => []
  | b :: bs => if b =? 0 then [] else b :: c_str bs
  end.

(** The packed 32-byte [esp_partition_info_t]. *)
Definition decode_entry (bs : list Z) : esp_partition_info_t :=
  {| e_magic := le_value (field bs 0 2);
     e_type := le_value (field bs 2 1);
     e_subtype := le_value (field bs 3 1);
     e_offset := le_value (field bs 4 4);
     e_size := le_value (field bs 8 4);
     e_label := field bs 12 16;
     e_flags := le_value (field bs 28 4) |}.

(** ** Loading the table *)

Record load_env := {
  CONFIG_PARTITION_TABLE_MD5 : bool;
  CONFIG_NVS_COMPATIBLE_PRE_V4_3_ENCRYPTION_FLAG : bool;
  esp_flash_encryption_enabled : bool;
  table_mmap : esp_err_t;                (** result of mapping the table sector *)
  table_entries : list (list Z);         (** its 32-byte entries *)
  md5 : list Z -> list Z;                (** [esp_rom_md5] over a byte string *)
  calloc : nat -> option Z;              (** result of the [n]-th allocation *)
}.

Definition item_of_entry (env : load_env) (a : Z) (entry : esp_partition_info_t)
    : partition_list_item_t :=
  let enc0 := negb (Z.land (e_flags entry) PART_FLAG_ENCRYPTED =? 0) in
  let enc1 :=
    if negb (esp_flash_encryption_enabled env) then false
    else if (e_type entry =? ESP_PARTITION_TYPE_APP)
         || ((e_type entry =? ESP_PARTITION_TYPE_DATA) &&
             (e_subtype entry =? ESP_PARTITION_SUBTYPE_DATA_OTA))
         || ((e_type entry =? ESP_PARTITION_TYPE_DATA) &&
             (e_subtype entry =? ESP_PARTITION_SUBTYPE_DATA_NVS_KEYS))
    then true else enc0 in
  let enc2 :=
    if CONFIG_NVS_COMPATIBLE_PRE_V4_3_ENCRYPTION_FLAG env
       && (e_type entry =? ESP_PARTITION_TYPE_DATA)
       && (e_subtype entry =? ESP_PARTITION_SUBTYPE_DATA_NVS)
       && negb (Z.land (e_flags entry) PART_FLAG_ENCRYPTED =? 0)
    then false else enc1 in
  {| addr := a;
     info := {| flash_chip := esp_flash_default_chip;
                type := e_type entry;
                subtype := e_subtype entry;
                address := e_offset entry;
                size := e_size entry;
                erase_size := SPI_FLASH_SEC_SIZE;
                label := c_str (take 16 (e_label entry));
                encrypted := enc2;
                readonly := negb (Z.land (e_flags entry) PART_FLAG_READONLY =? 0) |};
     user_registered := false |}.

(** The loop over the entries: the error so far, the list built, the bytes fed
    to the MD5 context and the MD5 entry when one was met. *)
Fixpoint load_loop (env : load_env) (n : nat) (entries : list (list Z))
    (acc : partition_list) (hashed : list Z)
    : esp_err_t * partition_list * list Z * option (list Z) :=
  match entries with
  | [] => (ESP_OK, acc, hashed, None)
  | raw :: entries =>
      let entry := decode_entry raw in
      if CONFIG_PARTITION_TABLE_MD5 env && (e_magic entry =? ESP_PARTITION_MAGIC_MD5)
      then (ESP_OK, acc, hashed, Some raw)
      else if negb (e_magic entry =? ESP_PARTITION_MAGIC)
      then (ESP_OK, acc, hashed, None)
      else match calloc env n with
           | None => (ESP_ERR_NO_MEM, acc, hashed ++ raw, None)
           | Some a =>
               load_loop env (S n) entries (acc ++ [item_of_entry env a entry]) (hashed ++ raw)
           end
  end.

(** [load_partitions]: the error and the new [s_partition_list] (the old one,
    which is empty when this is called, unless [ESP_OK]). *)
Definition load_partitions (env : load_env) : esp_err_t * partition_list :=
  match table_mmap env with
  | ESP_OK =>
      let '(err, new_partitions_list, hashed, md5_part) := load_loop env 0 (table_entries env) [] [] in
      let err :=
        if CONFIG_PARTITION_TABLE_MD5 env then
          match md5_part with
          | None => ESP_ERR_NOT_FOUND
          | Some raw =>
              if decide (md5 env hashed = field raw ESP_PARTITION_MD5_OFFSET 16)
              then err else ESP_ERR_INVALID_STATE
          end
        else err in
      if is_ok err then (err, new_partitions_list) else (err, [])
  | err => (err, [])
  end.

Definition ensure_partitions_loaded (env : load_env) (l : partition_list)
    : esp_err_t * partition_list :=
  match l with
  | [] => load_partitions env
  | _ :: _ => (ESP_OK, l)
  end.

Definition esp_partition_unload_all (l : partition_list) : partition_list := [].

(** ** Iterators *)

Definition iterator_create (l : partition_list) (ty sub : Z) (lb : option (list Z))
    : esp_partition_iterator :=
  {| it_type := ty; it_subtype := sub; it_label := lb; next_item := l; it_info := None |}.

(** The tests that make the loop of [esp_partition_next] skip an item. *)
Definition item_matches (ty sub : Z) (lb : option (list Z)) (p : esp_partition_t) : bool :=
  if negb (ty =? ESP_PARTITION_TYPE_ANY) && negb (ty =? type p) then false
  else if negb (sub =? ESP_PARTITION_SUBTYPE_ANY) && negb (sub =? subtype p) then false
  else match lb with
       | Some s => if decide (s = label p) then true else false
       | None => true
       end.

(** The [for] loop: the list from the first matching item on. *)
Fixpoint next_loop (it : esp_partition_iterator) (l : partition_list) : partition_list :=
  match l with
  | [] => []
  | i :: l' =>
      if item_matches (it_type it) (it_subtype it) (it_label it) (info i) then l
      else next_loop it l'
  end.

Definition esp_partition_next (it : esp_partition_iterator) : option esp_partition_iterator :=
  match next_item it with
  | [] => None
  | _ :: _ =>
      match next_loop it (next_item it) with
      | [] => None
      | i :: rest =>
          Some {| it_type := it_type it; it_subtype := it_subtype it; it_label := it_label it;
                  next_item := rest; it_info := Some i |}
      end
  end.

(** [esp_partition_find] on a loaded table ([malloc] of the iterator may fail). *)
Definition find_in (malloc : bool) (l : partition_list) (ty sub : Z) (lb : option (list Z))
    : option esp_partition_iterator :=
  if (ty =? ESP_PARTITION_TYPE_ANY) && negb (sub =? ESP_PARTITION_SUBTYPE_ANY) then None
  else if negb malloc then None
  else esp_partition_next (iterator_create l ty sub lb).

Definition esp_partition_find (env : load_env) (malloc : bool) (l : partition_list)
    (ty sub : Z) (lb : option (list Z)) : partition_list * option esp_partition_iterator :=
  let '(err, l) := ensure_partitions_loaded env l in
  if negb (is_ok err) then (l, None) else (l, find_in malloc l ty sub lb).

Definition esp_partition_get (it : esp_partition_iterator) : option partition_list_item_t :=
  it_info it.

Definition find_first_in (malloc : bool) (l : partition_list) (ty sub : Z)
    (lb : option (list Z)) : option partition_list_item_t :=
  match find_in malloc l ty sub lb with
  | None => None
  | Some it => esp_partition_get it
  end.

Definition esp_partition_find_first (env : load_env) (malloc : bool) (l : partition_list)
    (ty sub : Z) (lb : option (list Z)) : partition_list * option partition_list_item_t :=
  let '(l, it) := esp_partition_find env malloc l ty sub lb in
  match it with
  | None => (l, None)
  | Some it => (l, esp_partition_get it)
  end.

(** [while (it != NULL) { p = get(it); if (test p) return p; it = next(it); }]
    with one unit of fuel per iteration. *)
Fixpoint iter_search (fuel : nat) (it : option esp_partition_iterator)
    (test : partition_list_item_t -> bool) : option partition_list_item_t :=
  match fuel, it with
  | S fuel, Some it =>
      match esp_partition_get it with
      | Some p => if test p then Some p else iter_search fuel (esp_partition_next it) test
      | None => None
      end
  | _, _ => None
  end.

(** The comparison of [esp_partition_verify]. *)
Definition same_partition (partition : esp_partition_t) (p : partition_list_item_t) : bool :=
  (flash_chip (info p) =? flash_chip partition) && (address (info p) =? address partition)
  && (size partition =? size (info p)) && eqb (encrypted partition) (encrypted (info p)).

Definition verify_in (malloc : bool) (l : partition_list) (partition : esp_partition_t)
    : option partition_list_item_t :=
  let lb := match label partition with [] => None | _ :: _ => Some (label partition) end in
  iter_search (S (length l)) (find_in malloc l (type partition) (subtype partition) lb)
    (same_partition partition).

Definition esp_partition_verify (env : load_env) (malloc : bool) (l : partition_list)
    (partition : esp_partition_t) : partition_list * option partition_list_item_t :=
  let '(err, l) := ensure_partitions_loaded env l in
  if negb (is_ok err) then (l, None) else (l, verify_in malloc l partition).

(** ** External partitions *)

(** [bootloader_util_regions_overlap] on [intptr_t] (32-bit) arguments: [None]
    when one of its asserts fails. *)
Definition util_regions_overlap (start1 end1 start2 end2 : Z) : option bool :=
  let '(start1, end1, start2, end2) := (s32 start1, s32 end1, s32 start2, s32 end2) in
  if negb (start1 <? end1) then None
  else if negb (start2 <? end2) then None
  else Some ((start2 <? end1) && (start1 <? end2)).

(** The overlap loop: [None] when an assert fails. *)
Fixpoint overlaps_any (chip offset size_ : Z) (l : partition_list) : option bool :=
  match l with
  | [] => Some false
  | i :: l =>
      if flash_chip (info i) =? chip then
        match util_regions_overlap offset (u32 (offset + size_))
                (address (info i)) (u32 (address (info i) + size (info i))) with
        | None => None
        | Some true => Some true
        | Some false => overlaps_any chip offset size_ l
        end
      else overlaps_any chip offset size_ l
  end.

(** [esp_partition_register_external]: the new list, the error and the item
    [*out_partition] points to; [None] when an assert fails. *)
Definition esp_partition_register_external (env : load_env) (chip_size : Z -> Z)
    (alloc : option Z) (l : partition_list)
    (chip offset size_ : Z) (lb : list Z) (ty sub : Z)
    : option (partition_list * esp_err_t * option partition_list_item_t) :=
  if chip_size chip <? u32 (offset + size_) then Some (l, ESP_ERR_INVALID_SIZE, None)
  else
    let '(err, l) := ensure_partitions_loaded env l in
    if negb (is_ok err) then Some (l, err, None)
    else match alloc with
    | None => Some (l, ESP_ERR_NO_MEM, None)
    | Some a =>
        let item :=
          {| addr := a;
             info := {| flash_chip := chip; type := ty; subtype := sub; address := offset;
                        size := size_; erase_size := 0; label := take 16 lb;
                        encrypted := false; readonly := false |};
             user_registered := true |} in
        match overlaps_any chip offset size_ l with
        | None => None
        | Some true => Some (l, ESP_ERR_INVALID_ARG, None)
        | Some false => Some (l ++ [item], ESP_OK, Some item)
        end
    end.

(** [esp_partition_deregister_external]; the argument is a pointer. *)
Fixpoint esp_partition_deregister_external (l : partition_list) (partition : Z)
    : partition_list * esp_err_t :=
  match l with
  | [] => ([], ESP_ERR_NOT_FOUND)
  | it :: l' =>
      if addr it =? partition then
        if negb (user_registered it) then (l, ESP_ERR_INVALID_ARG) else (l', ESP_OK)
      else
        let '(l'', e) := esp_partition_deregister_external l' partition in (it :: l'', e)
  end.

(** ** Iteration: lemmas *)

Lemma next_loop_spec it l :
  match next_loop it l with
  | [] => List.filter (fun i => item_matches (it_type it) (it_subtype it) (it_label it) (info i)) l = []
  | i :: rest =>
      item_matches (it_type it) (it_subtype it) (it_label it) (info i) = true /\
      (length rest < length l)%nat /\
      List.filter (fun i => item_matches (it_type it) (it_subtype it) (it_label it) (info i)) l
      = i :: List.filter (fun i => item_matches (it_type it) (it_subtype it) (it_label it) (info i)) rest
  end.
Proof.
  induction l as [|i l IH]; cbn; [done|].
  destruct (item_matches (it_type it) (it_subtype it) (it_label it) (info i)) eqn:E.
  - repeat split; auto with lia.
  - destruct (next_loop it l) as [|j rest]; [done|].
    destruct IH as (? & ? & ?). repeat split; auto with lia.
Qed.

(** The items an iterator has still to visit. *)
Definition pending (it : esp_partition_iterator) : partition_list :=
  List.filter (fun i => item_matches (it_type it) (it_subtype it) (it_label it) (info i))
    (next_item it).

Lemma next_pending it :
  match esp_partition_next it with
  | None => pending it = []
  | Some it' =>
      exists i, esp_partition_get it' = Some i /\ pending it = i :: pending it' /\
        it_type it' = it_type it /\ it_subtype it' = it_subtype it /\
        it_label it' = it_label it /\ (length (next_item it') < length (next_item it))%nat
  end.
Proof.
  unfold esp_partition_next, pending.
  destruct (next_item it) as [|i0 l] eqn:El; [done|]. rewrite <- El.
  pose proof (next_loop_spec it (next_item it)) as Hs.
  destruct (next_loop it (next_item it)) as [|i rest]; [done|].
  destruct Hs as (_ & Hlen & Hf). exists i. cbn. by rewrite Hf.
Qed.

Lemma iter_search_pending fuel it i test :
  esp_partition_get it = Some i -> (length (next_item it) < fuel)%nat ->
  iter_search fuel (Some it) test = List.find test (i :: pending it).
Proof.
  revert it i. induction fuel as [|fuel IH]; intros it i Hg Hf; [lia|].
  cbn. rewrite Hg. destruct (test i); [done|].
  pose proof (next_pending it) as Hn. destruct (esp_partition_next it) as [it'|].
  - destruct Hn as (j & Hj & -> & _ & _ & _ & Hlen). apply IH; [done|lia].
  - rewrite Hn. by destruct fuel.
Qed.

Lemma find_in_search l ty sub lb test :
  (ty = ESP_PARTITION_TYPE_ANY -> sub = ESP_PARTITION_SUBTYPE_ANY) ->
  iter_search (S (length l)) (find_in true l ty sub lb) test
  = List.find test (List.filter (fun i => item_matches ty sub lb (info i)) l).
Proof.
  intros Hany. unfold find_in.
  destruct ((ty =? ESP_PARTITION_TYPE_ANY) && negb (sub =? ESP_PARTITION_SUBTYPE_ANY)) eqn:E.
  { to_prop. tauto. }
  cbn [negb]. pose proof (next_pending (iterator_create l ty sub lb)) as Hn.
  destruct (esp_partition_next _) as [it|].
  - destruct Hn as (i & Hi & Hp & _ & _ & _ & Hlen). cbn in Hlen.
    rewrite (iter_search_pending _ _ i) by (done || lia). by rewrite <- Hp.
  - cbn in Hn. by rewrite Hn.
Qed.

Lemma next_loop_in it l i : In i (next_loop it l) -> In i l.
Proof.
  induction l as [|j l IH]; cbn; [done|]. destruct (item_matches _ _ _ _); [done|]. auto.
Qed.

Lemma iter_search_in fuel it l test p :
  (forall i, In i (next_item it) -> In i l) -> (forall i, it_info it = Some i -> In i l) ->
  iter_search fuel (Some it) test = Some p -> In p l.
Proof.
  revert it. induction fuel as [|fuel IH]; intros it Hn Hi; cbn; [done|].
  unfold esp_partition_get. destruct (it_info it) as [i|] eqn:Ei; [|done].
  destruct (test i); [intros [= <-]; auto|].
  unfold esp_partition_next. destruct (next_item it) as [|j rest] eqn:En; [by destruct fuel|].
  rewrite <- En in *. destruct (next_loop it (next_item it)) as [|k l'] eqn:Hl; [by destruct fuel|].
  assert (Hsub : forall x, In x (k :: l') -> In x l).
  { intros x Hx. apply Hn, (next_loop_in it). by rewrite Hl. }
  apply IH; cbn; [intros x Hx; apply Hsub; by right|]. intros x [= <-]. apply Hsub. by left.
Qed.

Lemma find_in_search_in fuel m l ty sub lb test p :
  iter_search fuel (find_in m l ty sub lb) test = Some p -> In p l.
Proof.
  unfold find_in. destruct (_ && _); [by destruct fuel|]. destruct m; [|by destruct fuel].
  cbn [negb]. unfold esp_partition_next, iterator_create. cbn [next_item].
  destruct l as [|i l]; [by destruct fuel|].
  destruct (next_loop _ _) as [|k l'] eqn:Hl; [by destruct fuel|].
  assert (Hsub : forall x, In x (k :: l') -> In x (i :: l)).
  { intros x Hx. eapply next_loop_in. by rewrite Hl. }
  apply iter_search_in; cbn; [intros x Hx; apply Hsub; by right|]. intros x [= <-]. apply Hsub. by left.
Qed.

Lemma find_first_in_spec l ty sub lb :
  (ty = ESP_PARTITION_TYPE_ANY -> sub = ESP_PARTITION_SUBTYPE_ANY) ->
  find_first_in true l ty sub lb = List.find (fun i => item_matches ty sub lb (info i)) l.
Proof.
  intros Hany. unfold find_first_in, find_in.
  destruct ((ty =? ESP_PARTITION_TYPE_ANY) && negb (sub =? ESP_PARTITION_SUBTYPE_ANY)) eqn:E.
  { to_prop. tauto. }
  cbn [negb]. pose proof (next_pending (iterator_create l ty sub lb)) as Hn.
  assert (Hfind : forall l', List.find (fun i => item_matches ty sub lb (info i)) l'
    = head (List.filter (fun i => item_matches ty sub lb (info i)) l')).
  { induction l' as [|j l' IH]; cbn; [done|]. by destruct (item_matches _ _ _ _). }
  rewrite Hfind.
  change (List.filter _ l) with (pending (iterator_create l ty sub lb)).
  destruct (esp_partition_next _) as [it|].
  - destruct Hn as (i & Hi & Hp & _). by rewrite Hp.
  - by rewrite Hn.
Qed.

Lemma find_first_in_none_or l ty sub lb m p :
  find_first_in m l ty sub lb = Some p ->
  In p l /\ item_matches ty sub lb (info p) = true.
Proof.
  destruct (decide (ty = ESP_PARTITION_TYPE_ANY /\ sub <> ESP_PARTITION_SUBTYPE_ANY)) as [[H1 H2]|H].
  { unfold find_first_in, find_in. subst. cbn. apply Z.eqb_neq in H2. by rewrite H2. }
  destruct m.
  - rewrite find_first_in_spec by (intros; destruct (decide (sub = ESP_PARTITION_SUBTYPE_ANY)); tauto).
    intros Hf. by apply List.find_some in Hf.
  - unfold find_first_in, find_in. by destruct (_ && _).
Qed.

(** Walking a loaded partition table with [esp_partition_find] and
    [esp_partition_next] visits exactly the items that satisfy the requested
    type, subtype and label, in table order, and terminates: a search loop over
    the iterator, such as [esp_partition_verify]'s, returns the first of them
    that passes the loop's test, within one iteration per item. *)
Theorem partition_iterator_complete l ty sub lb test :
  (ty = ESP_PARTITION_TYPE_ANY -> sub = ESP_PARTITION_SUBTYPE_ANY) ->
  iter_search (S (length l)) (find_in true l ty sub lb) test
  = List.find (fun i => item_matches ty sub lb (info i) && test i) l.
Proof.
  intros Hany. rewrite find_in_search by done.
  induction l as [|i l IH]; cbn; [done|].
  destruct (item_matches ty sub lb (info i)); cbn; [by destruct (test i)|done].
Qed.

Lemma partition_iterator_complete_witness :
  let p t s a := Item a (Part 0 t s a 0x1000 4096 [] false false) false in
  let l := [p 1 2 0x9000; p 0 0x10 0x10000; p 0 0x11 0x20000] in
  iter_search 4 (find_in true l 0 0xff None) (fun i => addr i =? 0x20000)
  = Some (p 0 0x11 0x20000).
Proof.
  intros p l. rewrite (partition_iterator_complete l 0 0xff None); [reflexivity|done].
Defined.

(** ** External registration keeps partitions apart *)

(** A partition with a non-empty range of 31-bit flash addresses. *)
Definition part_ok (p : esp_partition_t) : Prop :=
  0 <= address p /\ 0 < size p /\ address p + size p < 2 ^ 31.

(** Two partitions that share no byte of a chip. *)
Definition part_disjoint (p q : esp_partition_t) : Prop :=
  flash_chip p <> flash_chip q \/
  address p + size p <= address q \/ address q + size q <= address p.

Definition table_ok (l : partition_list) : Prop :=
  Forall (fun i => part_ok (info i)) l /\
  ForallOrdPairs (fun i j => part_disjoint (info i) (info j)) l.

Lemma util_regions_overlap_spec s1 n1 s2 n2 :
  0 <= s1 -> 0 < n1 -> s1 + n1 < 2 ^ 31 -> 0 <= s2 -> 0 < n2 -> s2 + n2 < 2 ^ 31 ->
  util_regions_overlap s1 (u32 (s1 + n1)) s2 (u32 (s2 + n2))
  = Some ((s2 <? s1 + n1) && (s1 <? s2 + n2)).
Proof.
  intros. unfold util_regions_overlap. rewrite !u32_small, !s32_small by lia.
  destruct (Z.ltb_spec s1 (s1 + n1)); [|lia].
  destruct (Z.ltb_spec s2 (s2 + n2)); [|lia]. done.
Qed.

Lemma overlaps_any_spec chip offset size_ l :
  Forall (fun i => part_ok (info i)) l ->
  0 <= offset -> 0 < size_ -> offset + size_ < 2 ^ 31 ->
  exists b, overlaps_any chip offset size_ l = Some b /\
    (b = false <-> Forall (fun i => flash_chip (info i) <> chip \/
        address (info i) + size (info i) <= offset \/ offset + size_ <= address (info i)) l).
Proof.
  intros Hl H0 H1 H2. induction Hl as [|i l (Hi0 & Hi1 & Hi2) _ (b & IHe & IHb)]; cbn [overlaps_any].
  { by exists false. }
  rewrite IHe. destruct (Z.eqb_spec (flash_chip (info i)) chip).
  - rewrite util_regions_overlap_spec by lia.
    destruct (Z.ltb_spec (address (info i)) (offset + size_)),
      (Z.ltb_spec offset (address (info i) + size (info i))); cbn; eexists; (split; [done|]);
      rewrite Forall_cons; intuition (discriminate || lia).
  - exists b. split; [done|]. rewrite Forall_cons. tauto.
Qed.

Lemma ForallOrdPairs_snoc {A} (R : A -> A -> Prop) l x :
  ForallOrdPairs R l -> Forall (fun y => R y x) l -> ForallOrdPairs R (l ++ [x]).
Proof.
  induction 1 as [|y l Hy _ IH]; cbn; intros Hx.
  - constructor; [constructor|constructor].
  - inversion Hx; subst. constructor; [|by apply IH].
    apply Forall_app. split; [done|]. constructor; [done|constructor].
Qed.

(** Registering an external partition whose range ends below the 31-bit
    limit either fails and leaves the loaded table as it was, or appends one
    item that overlaps no partition of the same chip, keeps the table's
    invariant and lies inside the chip; it fails exactly when the range exceeds
    the chip, memory runs out or the range overlaps another partition. *)
Theorem register_external_keeps_disjoint env chip_size alloc l chip offset size_ lb ty sub :
  l <> [] -> table_ok l -> 0 <= offset -> 0 < size_ -> offset + size_ < 2 ^ 31 ->
  exists l' e out,
    esp_partition_register_external env chip_size alloc l chip offset size_ lb ty sub
      = Some (l', e, out) /\
    table_ok l' /\
    (e <> ESP_OK -> l' = l /\ out = None /\
       (e = ESP_ERR_INVALID_SIZE /\ chip_size chip < offset + size_ \/
        e = ESP_ERR_NO_MEM /\ alloc = None \/
        e = ESP_ERR_INVALID_ARG /\ exists i, In i l /\ flash_chip (info i) = chip /\
          address (info i) < offset + size_ /\ offset < address (info i) + size (info i))) /\
    (e = ESP_OK -> exists it, out = Some it /\ l' = l ++ [it] /\ alloc = Some (addr it) /\
       flash_chip (info it) = chip /\ address (info it) = offset /\ size (info it) = size_ /\
       offset + size_ <= chip_size chip /\ user_registered it = true).
Proof.
  intros Hne Hok H0 H1 H2. unfold esp_partition_register_external.
  rewrite u32_small by lia.
  destruct (Z.ltb_spec (chip_size chip) (offset + size_)).
  { exists l, ESP_ERR_INVALID_SIZE, None. naive_solver. }
  assert (ensure_partitions_loaded env l = (ESP_OK, l)) as -> by (by destruct l).
  cbn [is_ok negb]. destruct alloc as [a|]; [|exists l, ESP_ERR_NO_MEM, None; naive_solver].
  destruct Hok as [Hl Hd].
  destruct (overlaps_any_spec chip offset size_ l Hl H0 H1 H2) as (b & -> & Hb).
  destruct b.
  - exists l, ESP_ERR_INVALID_ARG, None. split; [done|]. split; [done|]. split; [|done].
    intros _. split; [done|]. split; [done|]. right; right. split; [done|].
    destruct (decide (Exists (fun i => flash_chip (info i) = chip /\
      address (info i) < offset + size_ /\ offset < address (info i) + size (info i)) l)) as [He|He].
    + apply Exists_exists in He as (i & Hi%list_elem_of_In & ?). eauto.
    + exfalso. apply not_Exists_Forall in He; [|intros i; apply _].
      enough (true = false) by done. apply Hb. eapply Forall_impl; [exact He|].
      cbn. intros i Hi. destruct (decide (flash_chip (info i) = chip)); [|tauto]. lia.
  - eexists _, ESP_OK, _. split; [done|]. split; [|split; [done|eauto 15]].
    assert (Hb' := proj1 Hb eq_refl). split.
    + apply Forall_app. split; [done|]. constructor; [|constructor]. cbn. unfold part_ok. cbn. lia.
    + apply ForallOrdPairs_snoc; [done|]. eapply Forall_impl; [exact Hb'|].
      intros i Hi. unfold part_disjoint. cbn in *. lia.
Qed.

Lemma register_external_keeps_disjoint_witness :
  let env := {| CONFIG_PARTITION_TABLE_MD5 := false;
                CONFIG_NVS_COMPATIBLE_PRE_V4_3_ENCRYPTION_FLAG := false;
                esp_flash_encryption_enabled := false; table_mmap := ESP_OK;
                table_entries := []; md5 := fun _ => []; calloc := fun _ => None |} in
  let l := [Item 1 (Part 0 0 0x10 0x10000 0x1000 4096 [] false false) false] in
  exists l' e out,
    esp_partition_register_external env (fun _ => 0x400000) (Some 2) l 0 0x11000 0x1000 [] 1 0x40
      = Some (l', e, out) /\ table_ok l'.
Proof.
  intros env l.
  destruct (register_external_keeps_disjoint env (fun _ => 0x400000) (Some 2) l
    0 0x11000 0x1000 [] 1 0x40) as (l' & e & out & H1 & H2 & _); try done.
  - split; repeat constructor; cbn; done.
  - exists l', e, out. done.
Defined.

(** The size check of [esp_partition_register_external] adds offset and
    size in 32 bits: on a chip with no partition yet, a range of 8 KiB that
    starts 4 KiB below the end of the 32-bit address space is registered on a
    4 MiB chip, outside the chip. *)
Theorem register_external_wraps :
  let env := {| CONFIG_PARTITION_TABLE_MD5 := false;
                CONFIG_NVS_COMPATIBLE_PRE_V4_3_ENCRYPTION_FLAG := false;
                esp_flash_encryption_enabled := false; table_mmap := ESP_OK;
                table_entries := []; md5 := fun _ => []; calloc := fun _ => None |} in
  let l := [Item 1 (Part 0 0 0x10 0x10000 0x1000 4096 [] false false) false] in
  let p := Part 1 1 0x40 0xFFFFF000 0x2000 0 [] false false in
  esp_partition_register_external env (fun _ => 0x400000) (Some 2) l 1 0xFFFFF000 0x2000 [] 1 0x40
  = Some (l ++ [Item 2 p true], ESP_OK, Some (Item 2 p true)) /\
  0x400000 < address p + size p.
Proof. split; reflexivity. Qed.

(** ** What a loaded table is *)

Lemma load_loop_spec env n entries acc hashed err l h m :
  CONFIG_PARTITION_TABLE_MD5 env = true ->
  load_loop env n entries acc hashed = (err, l, h, m) ->
  match m with
  | None => True
  | Some raw =>
      err = ESP_OK /\ e_magic (decode_entry raw) = ESP_PARTITION_MAGIC_MD5 /\
      exists pre post, entries = pre ++ raw :: post /\
        Forall (fun r => e_magic (decode_entry r) = ESP_PARTITION_MAGIC) pre /\
        h = hashed ++ concat pre /\
        map info l = map info acc ++ map (fun r => info (item_of_entry env 0 (decode_entry r))) pre
  end.
Proof.
  intros Hmd5. revert n acc hashed.
  induction entries as [|raw entries IH]; intros n acc hashed; cbn [load_loop].
  { by intros [= <- <- <- <-]. }
  rewrite Hmd5. cbn [andb].
  destruct (Z.eqb_spec (e_magic (decode_entry raw)) ESP_PARTITION_MAGIC_MD5) as [Hm|Hm].
  { intros [= <- <- <- <-]. split; [done|]. split; [done|].
    exists [], entries. cbn. by rewrite !app_nil_r. }
  destruct (Z.eqb_spec (e_magic (decode_entry raw)) ESP_PARTITION_MAGIC) as [Hg|Hg]; cbn [negb].
  2: { by intros [= <- <- <- <-]. }
  destruct (calloc env n) as [a|]; [|by intros [= <- <- <- <-]].
  intros Hl. apply IH in Hl. destruct m as [raw'|]; [|done].
  destruct Hl as (-> & Hm' & pre & post & -> & Hpre & -> & Hinfo).
  split; [done|]. split; [done|]. exists (raw :: pre), post. split; [done|].
  split; [by constructor|]. split; [by rewrite <- app_assoc|].
  rewrite Hinfo, map_app, <- app_assoc. done.
Qed.

(** With the MD5 check configured, [load_partitions] succeeds only on a
    table whose leading entries all have the partition magic, are followed by
    the MD5 entry and hash to the digest stored there; the loaded list is then
    the image of exactly those entries, in order.  On failure the list stays
    empty. *)
Theorem load_partitions_checked env err l :
  CONFIG_PARTITION_TABLE_MD5 env = true ->
  load_partitions env = (err, l) ->
  if decide (err = ESP_OK) then
    exists pre raw post, table_entries env = pre ++ raw :: post /\
      Forall (fun r => e_magic (decode_entry r) = ESP_PARTITION_MAGIC) pre /\
      e_magic (decode_entry raw) = ESP_PARTITION_MAGIC_MD5 /\
      md5 env (concat pre) = field raw ESP_PARTITION_MD5_OFFSET 16 /\
      map info l = map (fun r => info (item_of_entry env 0 (decode_entry r))) pre
  else l = [].
Proof.
  intros Hmd5. unfold load_partitions.
  destruct (table_mmap env); try by intros [= <- <-].
  destruct (load_loop env 0 (table_entries env) [] []) as [[[err0 l0] h] m] eqn:El.
  apply load_loop_spec in El; [|done]. rewrite Hmd5.
  destruct m as [raw|]; [|by intros [= <- <-]].
  destruct El as (-> & Hm & pre & post & Ht & Hpre & -> & Hinfo).
  case_decide as Hh; cbn; [|by intros [= <- <-]].
  intros [= <- <-]. rewrite decide_True by done. by exists pre, raw, post.
Qed.

Lemma load_partitions_checked_witness :
  let entry := [0xAA; 0x50; 0; 0x10; 0; 0; 1; 0; 0; 0; 0x10; 0] ++ replicate 20 0 in
  let md5_entry := [0xEB; 0xEB] ++ replicate 30 0 in
  let env := {| CONFIG_PARTITION_TABLE_MD5 := true;
                CONFIG_NVS_COMPATIBLE_PRE_V4_3_ENCRYPTION_FLAG := false;
                esp_flash_encryption_enabled := false; table_mmap := ESP_OK;
                table_entries := [entry; md5_entry]; md5 := fun _ => replicate 16 0;
                calloc := fun n => Some (Z.of_nat n) |} in
  load_partitions env
  = (ESP_OK, [Item 0 (Part 0 0 0x10 0x10000 0x100000 4096 [] false false) false]) /\
  exists pre raw post, table_entries env = pre ++ raw :: post.
Proof.
  intros entry md5_entry env. split; [reflexivity|].
  destruct (load_partitions_checked env ESP_OK
    [Item 0 (Part 0 0 0x10 0x10000 0x100000 4096 [] false false) false] eq_refl eq_refl)
    as (pre & raw & post & H & _). by exists pre, raw, post.
Defined.
