(* ===== verification/PartitionIO.v ===== *)
(** * Access to a partition's bytes ([components/esp_partition/partition_target.c])

    Each function checks its range against the partition and calls the flash
    driver with absolute addresses.  Sizes and offsets are [size_t], 32 bits. *)

From S2P Require Import Prelude EspErr Flash Partition.

Section PartitionIO.
  Context {F : Type} `{FlashOps F}.
  (** [CONFIG_SPI_FLASH_ENABLE_ENCRYPTED_READ_WRITE], and the exponent of
      [CONFIG_MMU_PAGE_SIZE] *)
  Context (ENC_RW : bool) (page_bits : Z).

Definition CONFIG_MMU_PAGE_SIZE : Z := 2 ^ page_bits.

Definition esp_partition_mmap (f : F) (partition : esp_partition_t) (offset size_ : Z)
    : esp_err_t * list Z :=
  if size partition <? offset then (ESP_ERR_INVALID_ARG, [])
  else if size partition <? u32 (offset + size_) then (ESP_ERR_INVALID_SIZE, [])
  else if negb (flash_chip partition =? esp_flash_default_chip) then (ESP_ERR_NOT_SUPPORTED, [])
  else
    let phys_addr := u32 (address partition + offset) in
    let region_offset := Z.land phys_addr (CONFIG_MMU_PAGE_SIZE - 1) in
    let mmap_addr := Z.land phys_addr (Z.lnot (CONFIG_MMU_PAGE_SIZE - 1)) in
    match spi_flash_mmap f mmap_addr (u32 (size_ + region_offset)) with
    | ESP_OK =>
        (* [*out_ptr] is moved up by [region_offset] inside the mapping *)
        (ESP_OK, flash_bytes f (flash_chip partition) (mmap_addr + region_offset) (Z.to_nat size_))
    | err => (err, [])
    end.

Definition esp_partition_read (f : F) (partition : esp_partition_t) (src_offset size_ : Z)
    : esp_err_t * list Z :=
  if size partition <? src_offset then (ESP_ERR_INVALID_ARG, [])
  else if size partition <? u32 (src_offset + size_) then (ESP_ERR_INVALID_SIZE, [])
  else if negb (encrypted partition) then
    esp_flash_read f (flash_chip partition) (u32 (address partition + src_offset)) size_
  else if ENC_RW then
    if negb (flash_chip partition =? esp_flash_default_chip) then (ESP_ERR_NOT_SUPPORTED, [])
    else esp_partition_mmap f partition src_offset size_
  else (ESP_ERR_NOT_SUPPORTED, []).

Definition esp_partition_write (f : F) (partition : esp_partition_t) (dst_offset : Z)
    (src : list Z) : F * esp_err_t :=
  let size_ := Z.of_nat (length src) in
  if readonly partition then (f, ESP_ERR_NOT_ALLOWED)
  else if size partition <? dst_offset then (f, ESP_ERR_INVALID_ARG)
  else if size partition <? u32 (dst_offset + size_) then (f, ESP_ERR_INVALID_SIZE)
  else
    let dst_offset := u32 (address partition + dst_offset) in
    if negb (encrypted partition) then esp_flash_write f (flash_chip partition) dst_offset src
    else if ENC_RW then
      if negb (flash_chip partition =? esp_flash_default_chip) then (f, ESP_ERR_NOT_SUPPORTED)
      else esp_flash_write_encrypted f (flash_chip partition) dst_offset src
    else (f, ESP_ERR_NOT_SUPPORTED).

Definition esp_partition_read_raw (f : F) (partition : esp_partition_t) (src_offset size_ : Z)
    : esp_err_t * list Z :=
  if size partition <? src_offset then (ESP_ERR_INVALID_ARG, [])
  else if size partition <? u32 (src_offset + size_) then (ESP_ERR_INVALID_SIZE, [])
  else esp_flash_read f (flash_chip partition) (u32 (address partition + src_offset)) size_.

Definition esp_partition_write_raw (f : F) (partition : esp_partition_t) (dst_offset : Z)
    (src : list Z) : F * esp_err_t :=
  let size_ := Z.of_nat (length src) in
  if readonly partition then (f, ESP_ERR_NOT_ALLOWED)
  else if size partition <? dst_offset then (f, ESP_ERR_INVALID_ARG)
  else if size partition <? u32 (dst_offset + size_) then (f, ESP_ERR_INVALID_SIZE)
  else esp_flash_write f (flash_chip partition) (u32 (address partition + dst_offset)) src.

Definition esp_partition_erase_range (f : F) (partition : esp_partition_t) (offset size_ : Z)
    : F * esp_err_t :=
  if readonly partition then (f, ESP_ERR_NOT_ALLOWED)
  else if size partition <? offset then (f, ESP_ERR_INVALID_ARG)
  else if size partition <? u32 (offset + size_) then (f, ESP_ERR_INVALID_SIZE)
  else if negb (size_ mod SPI_FLASH_SEC_SIZE =? 0) then (f, ESP_ERR_INVALID_SIZE)
  else if negb (offset mod SPI_FLASH_SEC_SIZE =? 0) then (f, ESP_ERR_INVALID_ARG)
  else esp_flash_erase_region f (flash_chip partition) (u32 (address partition + offset)) size_.

End PartitionIO.

(** [esp_partition_is_flash_region_writable] on a loaded table: the loop over
    every partition. *)
Definition region_conflict (addr_ size_ : Z) (p : partition_list_item_t) : bool :=
  readonly (info p) &&
  (((address (info p) <=? addr_) && (addr_ <? u32 (address (info p) + size (info p))))
   || ((addr_ <? address (info p)) && (address (info p) <? u32 (addr_ + size_)))).

Definition esp_partition_is_flash_region_writable (malloc : bool) (l : partition_list)
    (addr_ size_ : Z) : bool :=
  match iter_search (S (length l))
          (find_in malloc l ESP_PARTITION_TYPE_ANY ESP_PARTITION_SUBTYPE_ANY None)
          (region_conflict addr_ size_) with
  | Some _ => false
  | None => true
  end.

(** [esp_partition_main_flash_region_safe], with the running partition of
    [esp_ota_get_running_partition] and the table's location as arguments. *)
Definition esp_partition_main_flash_region_safe (table_offset table_max_len : Z)
    (running : esp_partition_t) (addr_ size_ : Z) : bool :=
  if addr_ <=? table_offset + table_max_len then false
  else if (address running <=? addr_) && (addr_ <? u32 (address running + size running)) then false
  else if (addr_ <? address running) && (address running <? u32 (addr_ + size_)) then false
  else true.

(** ** Bounds *)

Section Bounds.
  Context {F : Type} `{Hlaws : FlashLaws F} (ENC_RW : bool) (page_bits : Z).

  (** [f'] differs from [f] at most inside the partition. *)
Definition in_partition (p : esp_partition_t) (f f' : F) : Prop :=
    flash_frame f f' (flash_chip p) (address p) (size p).

  (** [f'] differs from [f] at most in [n] bytes from offset [off]. *)
Definition in_range_of (p : esp_partition_t) (off n : Z) (f f' : F) : Prop :=
    flash_frame f f' (flash_chip p) (address p + off) n.

Lemma page_split x :
    0 <= page_bits -> 
    Z.land x (Z.lnot (2 ^ page_bits - 1)) + Z.land x (2 ^ page_bits - 1) = x.
  Proof.
    intros Hp. assert (2 ^ page_bits - 1 = Z.ones page_bits) as -> by (rewrite Z.ones_equiv; lia).
    rewrite <- Z.ldiff_land, Z.ldiff_ones_r, Z.land_ones by done.
    rewrite Z.shiftl_mul_pow2, Z.shiftr_div_pow2 by done.
    pose proof (Z.div_mod x (2 ^ page_bits)). pose proof (Z.pow_pos_nonneg 2 page_bits). lia.
  Qed.

Lemma mmap_ok p f off n bs :
    0 <= page_bits -> part_ok p -> 0 <= off -> 0 <= n -> off + n < 2 ^ 32 ->
    esp_partition_mmap page_bits f p off n = (ESP_OK, bs) ->
    off + n <= size p /\ bs = flash_bytes f (flash_chip p) (address p + off) (Z.to_nat n).
  Proof.
    intros Hp (Ha & Hs & Hlim) Ho Hn Hon. unfold esp_partition_mmap, CONFIG_MMU_PAGE_SIZE.
    rewrite (u32_small (off + n)) by lia.
    repeat (case_test; try done). destruct (spi_flash_mmap _ _ _); try done.
    intros [= <-]. to_prop. rewrite u32_small by lia. rewrite page_split by done. done.
  Qed.

Lemma write_in_range p f off src :
    part_ok p -> 0 <= off -> off + length src < 2 ^ 32 ->
    in_range_of p off (length src) f (fst (esp_partition_write ENC_RW f p off src)) /\
    (snd (esp_partition_write ENC_RW f p off src) <> ESP_ERR_NOT_SUPPORTED ->
     off + length src <= size p \/ fst (esp_partition_write ENC_RW f p off src) = f).
  Proof.
    intros (Ha & Hs & Hlim) H0 Hn. unfold esp_partition_write, in_range_of.
    rewrite (u32_small (off + _)) by lia.
    repeat (case_test; cbn [fst snd]; auto); to_prop; rewrite u32_small by lia;
      (split; [|intros; left; lia]).
    - apply write_frame.
    - apply write_enc_frame.
  Qed.

Lemma erase_in_range p f off n :
    part_ok p -> 0 <= off -> 0 <= n -> off + n < 2 ^ 32 ->
    in_range_of p off n f (fst (esp_partition_erase_range f p off n)) /\
    (off + n <= size p \/ fst (esp_partition_erase_range f p off n) = f).
  Proof.
    intros (Ha & Hs & Hlim) H0 Hn Hon. unfold esp_partition_erase_range, in_range_of.
    rewrite (u32_small (off + n)) by lia.
    repeat (case_test; cbn [fst snd]; auto). to_prop. rewrite u32_small by lia.
    split; [by apply erase_frame|left; lia].
  Qed.

Lemma write_supported_or_same p f off src :
    snd (esp_partition_write ENC_RW f p off src) = ESP_ERR_NOT_SUPPORTED ->
    part_ok p -> 0 <= off -> off + length src < 2 ^ 32 ->
    off + length src <= size p \/ fst (esp_partition_write ENC_RW f p off src) = f.
  Proof.
    intros _ (Ha & Hs & Hlim) H0 Hn. unfold esp_partition_write.
    rewrite (u32_small (off + _)) by lia.
    repeat (case_test; cbn [fst snd]; auto); to_prop; lia.
  Qed.

  (** What a successful erase and a successful write leave behind. *)
Lemma erase_done p f f' off n :
    part_ok p -> 0 <= off -> 0 <= n -> off + n < 2 ^ 32 ->
    esp_partition_erase_range f p off n = (f', ESP_OK) ->
    in_range_of p off n f f' /\ off + n <= size p /\
    forall a, address p + off <= a < address p + off + n -> flash_byte f' (flash_chip p) a = 0xFF.
  Proof.
    intros (Ha & Hs & Hlim) H0 Hn Hon. unfold esp_partition_erase_range, in_range_of.
    rewrite (u32_small (off + n)) by lia.
    repeat (case_test; try done). to_prop. rewrite u32_small by lia. intros He.
    pose proof (erase_frame f (flash_chip p) (address p + off) n Hn) as Hf.
    pose proof (erase_ok f (flash_chip p) (address p + off) n) as Hk.
    rewrite He in Hf, Hk. cbn in *. auto.
  Qed.

Lemma write_done p f f' off src :
    part_ok p -> 0 <= off -> off + length src < 2 ^ 32 -> Forall (in_range 8) src ->
    esp_partition_write ENC_RW f p off src = (f', ESP_OK) ->
    in_range_of p off (length src) f f' /\ off + length src <= size p /\
    (Forall (fun b => b = 0xFF) (flash_bytes f (flash_chip p) (address p + off) (length src)) ->
     flash_bytes f' (flash_chip p) (address p + off) (length src) = src).
  Proof.
    intros (Ha & Hs & Hlim) H0 Hon Hsrc. unfold esp_partition_write, in_range_of.
    rewrite (u32_small (off + _)) by lia.
    repeat (case_test; try done); to_prop; rewrite u32_small by lia; intros He.
    - pose proof (write_frame f (flash_chip p) (address p + off) src) as Hf.
      pose proof (write_ok f (flash_chip p) (address p + off) src) as Hk.
      rewrite He in Hf, Hk. cbn in *. auto.
    - pose proof (write_enc_frame f (flash_chip p) (address p + off) src) as Hf.
      pose proof (write_enc_ok f (flash_chip p) (address p + off) src) as Hk.
      rewrite He in Hf, Hk. cbn in *. auto.
  Qed.

(** Whatever the arguments, as long as the sum of offset and size does not wrap
    or the offset is past the end, an access stays inside the partition. *)
Lemma write_in_partition p f off src :
  part_ok p -> 0 <= off -> length src < 2 ^ 31 ->
  in_partition p f (fst (esp_partition_write ENC_RW f p off src)).
Proof.
  intros Hp Ho Hs. destruct (Z_le_gt_dec off (size p)) as [Hle|Hgt].
  - assert (Hlt : off + length src < 2 ^ 32) by (destruct Hp as (? & ? & ?); lia).
    destruct (write_in_range p f off src Hp Ho Hlt) as [Hf Hin].
    assert (Hd : off + length src <= size p \/ fst (esp_partition_write ENC_RW f p off src) = f).
    { destruct (decide (snd (esp_partition_write ENC_RW f p off src) = ESP_ERR_NOT_SUPPORTED));
        auto using write_supported_or_same. }
    unfold in_partition. destruct Hd as [?| ->]; [|done].
    eapply flash_frame_sub; [exact Hf|lia|lia].
  - unfold esp_partition_write, in_partition. destruct (readonly p); [done|].
    rewrite (proj2 (Z.ltb_lt _ _)) by lia. done.
Qed.

Lemma erase_in_partition p f off n :
  part_ok p -> 0 <= off -> 0 <= n -> size p < off \/ off + n < 2 ^ 32 ->
  in_partition p f (fst (esp_partition_erase_range f p off n)).
Proof.
  intros Hp Ho Hn Hcase. destruct (Z_le_gt_dec off (size p)) as [Hle|Hgt].
  - destruct (erase_in_range p f off n Hp Ho Hn ltac:(lia)) as [Hf Hin].
    unfold in_partition. destruct Hin as [?| ->]; [|done].
    eapply flash_frame_sub; [exact Hf|lia|lia].
  - unfold esp_partition_erase_range, in_partition. destruct (readonly p); [done|].
    rewrite (proj2 (Z.ltb_lt _ _)) by lia. done.
Qed.
End Bounds.



(** The range check of the partition accessors wraps: for a non-empty
    partition that starts below address 2^31, an erase at offset 4 KiB of
    2^32 - 4096 bytes passes every check and reaches the flash driver with that
    length, past the end of the partition. *)
Theorem partition_erase_check_wraps {F} `{FlashOps F} p (f : F) :
  part_ok p -> SPI_FLASH_SEC_SIZE <= size p -> readonly p = false ->
  esp_partition_erase_range f p SPI_FLASH_SEC_SIZE (2 ^ 32 - SPI_FLASH_SEC_SIZE)
  = esp_flash_erase_region f (flash_chip p) (address p + SPI_FLASH_SEC_SIZE)
      (2 ^ 32 - SPI_FLASH_SEC_SIZE) /\
  size p < SPI_FLASH_SEC_SIZE + (2 ^ 32 - SPI_FLASH_SEC_SIZE).
Proof.
  intros (Ha & Hs & Hlim) Hsec Hro. unfold esp_partition_erase_range. rewrite Hro.
  change (u32 (SPI_FLASH_SEC_SIZE + _)) with 0. unfold SPI_FLASH_SEC_SIZE in *.
  rewrite (proj2 (Z.ltb_ge (size p) 4096)), (proj2 (Z.ltb_ge (size p) 0)) by lia.
  change (_ mod 4096 =? 0) with true at 1. change (4096 mod 4096 =? 0) with true.
  cbn [negb]. rewrite u32_small by lia. split; [done|lia].
Qed.

Lemma partition_erase_check_wraps_witness :
  let p := Part 0 1 2 0x9000 0x6000 4096 [] false false in
  size p < SPI_FLASH_SEC_SIZE + (2 ^ 32 - SPI_FLASH_SEC_SIZE).
Proof.
  intros p. apply (partition_erase_check_wraps (F := NorFlash) p (fun _ _ => 0));
    cbn; unfold part_ok, SPI_FLASH_SEC_SIZE; cbn; lia || done.
Defined.
