(* ===== verification/OtaData.v ===== *)
(** * The OTA data entries ([components/bootloader_support/src/bootloader_common_loader.c])

    The two [esp_ota_select_entry_t] records that say which application boots,
    shared by the bootloader and [esp_ota_ops.c]: their validity, the choice of
    the active one, and the RTC memory record that survives a deep sleep. *)

From S2P Require Import Prelude EspErr Crc.

(** ** The entry and its 32-byte encoding *)

Definition ESP_OTA_IMG_NEW : Z := 0x0.
Definition ESP_OTA_IMG_PENDING_VERIFY : Z := 0x1.
Definition ESP_OTA_IMG_VALID : Z := 0x2.
Definition ESP_OTA_IMG_INVALID : Z := 0x3.
Definition ESP_OTA_IMG_ABORTED : Z := 0x4.
Definition ESP_OTA_IMG_UNDEFINED : Z := 0xFFFFFFFF.

Record esp_ota_select_entry_t := Select {
  ota_seq : Z;
  seq_label : list Z;
  ota_state : Z;
  crc : Z;
}.

Definition SELECT_SIZE : nat := 32.

Definition encode_select (s : esp_ota_select_entry_t) : list Z :=
  le_bytes 4 (ota_seq s) ++ seq_label s ++ le_bytes 4 (ota_state s) ++ le_bytes 4 (crc s).

Definition decode_select (bs : list Z) : esp_ota_select_entry_t :=
  {| ota_seq := le_value (field bs 0 4);
     seq_label := field bs 4 20;
     ota_state := le_value (field bs 24 4);
     crc := le_value (field bs 28 4) |}.

Definition set_state (st : Z) (s : esp_ota_select_entry_t) : esp_ota_select_entry_t :=
  {| ota_seq := ota_seq s; seq_label := seq_label s; ota_state := st; crc := crc s |}.

(** ** Validity and selection *)

Definition bootloader_common_ota_select_crc (s : esp_ota_select_entry_t) : Z :=
  esp_rom_crc32_le UINT32_MAX (le_bytes 4 (ota_seq s)).

Definition bootloader_common_ota_select_invalid (s : esp_ota_select_entry_t) : bool :=
  (ota_seq s =? UINT32_MAX) || (ota_state s =? ESP_OTA_IMG_INVALID)
  || (ota_state s =? ESP_OTA_IMG_ABORTED).

Definition bootloader_common_ota_select_valid (s : esp_ota_select_entry_t) : bool :=
  eqb (bootloader_common_ota_select_invalid s) false
  && (crc s =? bootloader_common_ota_select_crc s).

(** [two_otadata[i]] *)
Definition otadata_at {A} (two : A * A) (i : Z) : A := if i =? 0 then fst two else snd two.
Definition set_at {A} (two : A * A) (i : Z) (x : A) : A * A :=
  if i =? 0 then (x, snd two) else (fst two, x).

(** The argument pointers are those of a two-element array: the NULL tests of
    the source do not arise. *)
Definition bootloader_common_select_otadata (two : esp_ota_select_entry_t * esp_ota_select_entry_t)
    (valid : bool * bool) (max : bool) : Z :=
  if fst valid && snd valid then
    let condition :=
      if max then Z.max (ota_seq (fst two)) (ota_seq (snd two))
      else Z.min (ota_seq (fst two)) (ota_seq (snd two)) in
    if condition =? ota_seq (fst two) then 0 else 1
  else if fst valid then 0
  else if snd valid then 1
  else -1.

Definition bootloader_common_get_active_otadata
    (two : esp_ota_select_entry_t * esp_ota_select_entry_t) : Z :=
  bootloader_common_select_otadata two
    (bootloader_common_ota_select_valid (fst two), bootloader_common_ota_select_valid (snd two))
    true.

(** ** Chip checks *)

Inductive esp_image_type := ESP_IMAGE_BOOTLOADER | ESP_IMAGE_APPLICATION.

Record chip_env := {
  CONFIG_IDF_FIRMWARE_CHIP_ID : Z;
  efuse_hal_chip_revision : Z;
  efuse_hal_get_disable_wafer_version_major : bool;
}.

Record image_header_chip := {
  chip_id : Z;
  min_chip_rev_full : Z;
  max_chip_rev_full : Z;
}.

(** [IS_MAX_REV_SET]: 65535 and 0 mean no limit. *)
Definition IS_MAX_REV_SET (max_rev : Z) : bool :=
  negb (max_rev =? 65535) && negb (max_rev =? 0).

(** [bootloader_common_check_chip_validity] outside an FPGA build. *)
Definition bootloader_common_check_chip_validity (env : chip_env) (h : image_header_chip)
    (t : esp_image_type) : esp_err_t :=
  if negb (CONFIG_IDF_FIRMWARE_CHIP_ID env =? chip_id h) then ESP_FAIL
  else
    let revision := efuse_hal_chip_revision env in
    let err := if negb (min_chip_rev_full h <=? revision) then ESP_FAIL else ESP_OK in
    match t with
    | ESP_IMAGE_APPLICATION =>
        if IS_MAX_REV_SET (max_chip_rev_full h) && (max_chip_rev_full h <? revision)
           && negb (efuse_hal_get_disable_wafer_version_major env)
        then ESP_FAIL else err
    | ESP_IMAGE_BOOTLOADER => err
    end.

(** ** The RTC retain memory *)

Record rtc_retain_mem_t := Retain {
  rtc_part_offset : Z;
  rtc_part_size : Z;
  reboot_counter : Z;
  factory_reset_state : bool;
  flags_reserve : Z;           (** the other seven flag bits *)
  rtc_reserve : Z;
  custom : list Z;
  rtc_crc : Z;
}.

(** The bytes before [custom]. *)
Definition retain_head (r : rtc_retain_mem_t) : list Z :=
  le_bytes 4 (rtc_part_offset r) ++ le_bytes 4 (rtc_part_size r)
  ++ le_bytes 2 (reboot_counter r)
  ++ [(if factory_reset_state r then 1 else 0) + 2 * flags_reserve r; rtc_reserve r].

(** The first [rtc_retain_mem_size()] bytes; [custom_in_crc] is false when
    [CONFIG_BOOTLOADER_CUSTOM_RESERVE_RTC] is set without
    [CONFIG_BOOTLOADER_CUSTOM_RESERVE_RTC_IN_CRC]. *)
Definition retain_crc_bytes (custom_in_crc : bool) (r : rtc_retain_mem_t) : list Z :=
  if custom_in_crc then retain_head r ++ custom r else retain_head r.

Definition is_retain_mem_valid (cic : bool) (r : rtc_retain_mem_t) : bool :=
  (esp_rom_crc32_le UINT32_MAX (retain_crc_bytes cic r) =? rtc_crc r)
  && negb (rtc_crc r =? UINT32_MAX).

Definition update_rtc_retain_mem_crc (cic : bool) (r : rtc_retain_mem_t) : rtc_retain_mem_t :=
  {| rtc_part_offset := rtc_part_offset r; rtc_part_size := rtc_part_size r;
     reboot_counter := reboot_counter r; factory_reset_state := factory_reset_state r;
     flags_reserve := flags_reserve r; rtc_reserve := rtc_reserve r; custom := custom r;
     rtc_crc := esp_rom_crc32_le UINT32_MAX (retain_crc_bytes cic r) |}.

Definition bootloader_common_reset_rtc_retain_mem (r : rtc_retain_mem_t) : rtc_retain_mem_t :=
  {| rtc_part_offset := 0; rtc_part_size := 0; reboot_counter := 0; factory_reset_state := false;
     flags_reserve := 0; rtc_reserve := 0; custom := replicate (length (custom r)) 0;
     rtc_crc := 0 |}.

Definition bootloader_common_get_rtc_retain_mem_reboot_counter (cic : bool)
    (r : rtc_retain_mem_t) : Z :=
  if is_retain_mem_valid cic r then reboot_counter r else 0.

Definition set_factory_flag (b : bool) (r : rtc_retain_mem_t) : rtc_retain_mem_t :=
  {| rtc_part_offset := rtc_part_offset r; rtc_part_size := rtc_part_size r;
     reboot_counter := reboot_counter r; factory_reset_state := b;
     flags_reserve := flags_reserve r; rtc_reserve := rtc_reserve r; custom := custom r;
     rtc_crc := rtc_crc r |}.

Definition bootloader_common_set_rtc_retain_mem_factory_reset_state (cic : bool)
    (r : rtc_retain_mem_t) : rtc_retain_mem_t :=
  let r := if negb (is_retain_mem_valid cic r) then bootloader_common_reset_rtc_retain_mem r else r in
  update_rtc_retain_mem_crc cic (set_factory_flag true r).

Definition bootloader_common_get_rtc_retain_mem_factory_reset_state (cic : bool)
    (r : rtc_retain_mem_t) : rtc_retain_mem_t * bool :=
  if is_retain_mem_valid cic r then
    if factory_reset_state r
    then (update_rtc_retain_mem_crc cic (set_factory_flag false r), true)
    else (r, false)
  else (r, false).

Definition bootloader_common_get_rtc_retain_mem_partition (cic : bool) (r : rtc_retain_mem_t)
    : option (Z * Z) :=
  if is_retain_mem_valid cic r then Some (rtc_part_offset r, rtc_part_size r) else None.

Definition set_counter (c : Z) (r : rtc_retain_mem_t) : rtc_retain_mem_t :=
  {| rtc_part_offset := rtc_part_offset r; rtc_part_size := rtc_part_size r;
     reboot_counter := c; factory_reset_state := factory_reset_state r;
     flags_reserve := flags_reserve r; rtc_reserve := rtc_reserve r; custom := custom r;
     rtc_crc := rtc_crc r |}.

Definition set_partition (off sz : Z) (r : rtc_retain_mem_t) : rtc_retain_mem_t :=
  {| rtc_part_offset := off; rtc_part_size := sz;
     reboot_counter := reboot_counter r; factory_reset_state := factory_reset_state r;
     flags_reserve := flags_reserve r; rtc_reserve := rtc_reserve r; custom := custom r;
     rtc_crc := rtc_crc r |}.

Definition bootloader_common_update_rtc_retain_mem (cic : bool) (partition : option (Z * Z))
    (reboot_counter_ : bool) (r : rtc_retain_mem_t) : rtc_retain_mem_t :=
  let r :=
    if reboot_counter_ then
      let r := if negb (is_retain_mem_valid cic r)
               then bootloader_common_reset_rtc_retain_mem r else r in
      let r := set_counter (u16 (reboot_counter r + 1)) r in
      if reboot_counter r =? 0 then set_counter (u16 (reboot_counter r - 1)) r else r
    else r in
  let r := match partition with
           | Some (off, sz) => set_partition off sz r
           | None => r
           end in
  update_rtc_retain_mem_crc cic r.

(** ** Encoding *)

Definition select_wf (s : esp_ota_select_entry_t) : Prop :=
  in_range 32 (ota_seq s) /\ in_range 32 (ota_state s) /\ in_range 32 (crc s) /\
  length (seq_label s) = 20%nat /\ Forall (in_range 8) (seq_label s).

Lemma encode_select_length s : select_wf s -> length (encode_select s) = SELECT_SIZE.
Proof.
  intros (_ & _ & _ & Hl & _). unfold encode_select, SELECT_SIZE.
  by rewrite !length_app, !le_bytes_length, Hl.
Qed.

Lemma encode_select_range s : select_wf s -> Forall (in_range 8) (encode_select s).
Proof.
  intros (_ & _ & _ & _ & Hr). unfold encode_select.
  rewrite !Forall_app. auto using le_bytes_range.
Qed.

Lemma field_0_4 a rest : field (le_bytes 4 a ++ rest) 0 4 = le_bytes 4 a.
Proof. apply field_here, le_bytes_length. Qed.

Lemma decode_encode_select s : select_wf s -> decode_select (encode_select s) = s.
Proof.
  intros (H1 & H2 & H3 & Hl & _). unfold decode_select, encode_select.
  rewrite (field_here _ _ 4) by apply le_bytes_length.
  rewrite !(field_skip (le_bytes 4 (ota_seq s))) by (rewrite le_bytes_length; lia).
  rewrite le_bytes_length. cbn [Nat.sub].
  rewrite (field_here _ _ 20) by done.
  rewrite !(field_skip (seq_label s)) by lia. rewrite Hl. cbn [Nat.sub].
  rewrite (field_here _ _ 4) by apply le_bytes_length.
  rewrite (field_skip (le_bytes 4 _)) by (rewrite le_bytes_length; lia).
  rewrite le_bytes_length. cbn [Nat.sub]. rewrite <- (app_nil_r (le_bytes 4 (crc s))).
  rewrite (field_here _ _ 4) by apply le_bytes_length.
  rewrite !le_value_bytes_4 by done. by destruct s.
Qed.

Lemma le_value_range bs : Forall (in_range 8) bs -> in_range (8 * length bs) (le_value bs).
Proof.
  intros Hb. pose proof (le_value_bytes (length bs) (le_value bs)) as Hv.
  rewrite le_bytes_value in Hv by done. rewrite Hv. apply wrap_range. lia.
Qed.

Lemma field_range bs off n : Forall (in_range 8) bs -> Forall (in_range 8) (field bs off n).
Proof. intros Hb. by apply Forall_take, Forall_drop. Qed.

Lemma field_length bs off n : (off + n <= length bs)%nat -> length (field bs off n) = n.
Proof. intros Hl. unfold field. rewrite length_take, length_drop. lia. Qed.

Lemma decode_select_wf bs :
  length bs = SELECT_SIZE -> Forall (in_range 8) bs -> select_wf (decode_select bs).
Proof.
  unfold SELECT_SIZE. intros Hl Hb.
  assert (Hf : forall off, (off + 4 <= 32)%nat -> in_range 32 (le_value (field bs off 4))).
  { intros off Ho. pose proof (le_value_range (field bs off 4) (field_range _ _ _ Hb)) as Hr.
    rewrite field_length in Hr by lia. exact Hr. }
  unfold select_wf, decode_select. cbn [ota_seq ota_state crc seq_label].
  repeat split; try apply Hf; try lia.
  - apply field_length. lia.
  - by apply field_range.
Qed.

Lemma set_state_wf st s : in_range 32 st -> select_wf s -> select_wf (set_state st s).
Proof. intros Hst (? & ? & ? & ? & ?). unfold select_wf. cbn. auto. Qed.

(** ** Selection *)

Lemma otadata_at_cases {A} (two : A * A) i :
  i = 0 \/ i = 1 -> otadata_at two i = if i =? 0 then fst two else snd two.
Proof. done. Qed.

Lemma active_cases two : 
  bootloader_common_get_active_otadata two = -1 \/
  bootloader_common_get_active_otadata two = 0 \/
  bootloader_common_get_active_otadata two = 1.
Proof.
  unfold bootloader_common_get_active_otadata, bootloader_common_select_otadata.
  cbn [fst snd]. repeat case_test; auto.
Qed.

Lemma active_max two i :
  i = 0 \/ i = 1 -> bootloader_common_ota_select_valid (otadata_at two i) = true ->
  let a := bootloader_common_get_active_otadata two in
  (a = 0 \/ a = 1) /\ bootloader_common_ota_select_valid (otadata_at two a) = true /\
  ota_seq (otadata_at two i) <= ota_seq (otadata_at two a).
Proof.
  unfold bootloader_common_get_active_otadata, bootloader_common_select_otadata. cbn [fst snd].
  intros [-> | ->]; [change (otadata_at two 0) with (fst two)|change (otadata_at two 1) with (snd two)];
    intros Hv; rewrite Hv; cbn [andb]; rewrite ?andb_true_r; cbn zeta;
    [destruct (bootloader_common_ota_select_valid (snd two)) eqn:Ho
    |destruct (bootloader_common_ota_select_valid (fst two)) eqn:Ho];
    try (destruct (Z.eqb_spec (Z.max (ota_seq (fst two)) (ota_seq (snd two))) (ota_seq (fst two))));
    (split; [auto|]); cbn; (split; [done|lia]).
Qed.

Lemma active_valid two :
  let a := bootloader_common_get_active_otadata two in
  a <> -1 -> (a = 0 \/ a = 1) /\ bootloader_common_ota_select_valid (otadata_at two a) = true.
Proof.
  cbn zeta. intros Ha.
  destruct (bootloader_common_ota_select_valid (otadata_at two 0)) eqn:H0.
  { by destruct (active_max two 0 (or_introl eq_refl) H0) as (? & ? & _). }
  destruct (bootloader_common_ota_select_valid (otadata_at two 1)) eqn:H1.
  { by destruct (active_max two 1 (or_intror eq_refl) H1) as (? & ? & _). }
  exfalso. apply Ha. cbn [otadata_at Z.eqb] in *.
  unfold bootloader_common_get_active_otadata, bootloader_common_select_otadata. cbn [fst snd].
  change (otadata_at two 0) with (fst two) in H0. change (otadata_at two 1) with (snd two) in H1.
  by rewrite H0, H1.
Qed.

(** [bootloader_common_get_active_otadata] returns -1 exactly when neither
    entry is valid; otherwise it returns the index of a valid entry, and no
    valid entry has a larger sequence number (the first wins a tie). *)
Theorem active_otadata_newest_valid two :
  let valid := bootloader_common_ota_select_valid in
  let a := bootloader_common_get_active_otadata two in
  (a = -1 <-> valid (fst two) = false /\ valid (snd two) = false) /\
  (a <> -1 -> (a = 0 \/ a = 1) /\ valid (otadata_at two a) = true /\
     forall i, i = 0 \/ i = 1 -> valid (otadata_at two i) = true ->
       ota_seq (otadata_at two i) <= ota_seq (otadata_at two a) /\
       (ota_seq (otadata_at two i) = ota_seq (otadata_at two a) -> a <= i)).
Proof.
  cbn zeta. unfold bootloader_common_get_active_otadata, bootloader_common_select_otadata.
  cbn [fst snd].
  destruct (bootloader_common_ota_select_valid (fst two)) eqn:E0,
    (bootloader_common_ota_select_valid (snd two)) eqn:E1; cbn [andb].
  - destruct (Z.eqb_spec (Z.max (ota_seq (fst two)) (ota_seq (snd two))) (ota_seq (fst two)));
      (split; [naive_solver|]); intros _; (split; [lia|]); unfold otadata_at; cbn;
      (split; [done|]); intros i [-> | ->] Hv; cbn; lia.
  - split; [naive_solver|]. intros _. split; [lia|]. unfold otadata_at; cbn. split; [done|].
    intros i [-> | ->] Hv; cbn in *; [lia|congruence].
  - split; [naive_solver|]. intros _. split; [lia|]. unfold otadata_at; cbn. split; [done|].
    intros i [-> | ->] Hv; cbn in *; [congruence|lia].
  - split; [naive_solver|lia].
Qed.

Example active_otadata_example :
  let e seq st := let s := Select seq (replicate 20 0xFF) st 0 in
    Select seq (replicate 20 0xFF) st (bootloader_common_ota_select_crc s) in
  bootloader_common_get_active_otadata (e 5 ESP_OTA_IMG_VALID, e 6 ESP_OTA_IMG_NEW) = 1 /\
  bootloader_common_get_active_otadata (e 5 ESP_OTA_IMG_VALID, e 6 ESP_OTA_IMG_ABORTED) = 0.
Proof. split; vm_compute; reflexivity. Qed.

Lemma seq_crc_inj m a b :
  in_range 32 a -> in_range 32 b ->
  esp_rom_crc32_le m (le_bytes 4 a) = esp_rom_crc32_le m (le_bytes 4 b) -> a = b.
Proof.
  intros Ha Hb Heq. rewrite <- (le_value_bytes_4 a), <- (le_value_bytes_4 b) by done. f_equal.
  apply (crc_ref_detects crc32_le_params eq_refl m [] (le_bytes 4 a) (le_bytes 4 b) []);
    [constructor|apply le_bytes_range|apply le_bytes_range|constructor|reflexivity|done|].
  rewrite !app_nil_r. change ([] ++ le_bytes 4 a) with (le_bytes 4 a).
  change ([] ++ le_bytes 4 b) with (le_bytes 4 b).
  rewrite <- (crc32_le_eq m (le_bytes 4 a)), <- (crc32_le_eq m (le_bytes 4 b));
    auto using le_bytes_range.
Qed.

Lemma valid_crc s :
  bootloader_common_ota_select_valid s = true ->
  crc s = esp_rom_crc32_le UINT32_MAX (le_bytes 4 (ota_seq s)).
Proof.
  unfold bootloader_common_ota_select_valid. rewrite andb_true_iff, Z.eqb_eq. by intros [_ ->].
Qed.

(** An entry whose sequence number was damaged (any of its 32 bits) no
    longer passes the validity test with the CRC stored beside it. *)
Theorem damaged_seq_is_rejected s seq' :
  in_range 32 (ota_seq s) -> in_range 32 seq' -> seq' <> ota_seq s ->
  bootloader_common_ota_select_valid s = true ->
  bootloader_common_ota_select_valid (Select seq' (seq_label s) (ota_state s) (crc s)) = false.
Proof.
  intros Hs Hs' Hne Hv. destruct (bootloader_common_ota_select_valid (Select _ _ _ _)) eqn:Hv'; [|done].
  exfalso. apply Hne. apply valid_crc in Hv, Hv'.
  exact (seq_crc_inj _ _ _ Hs' Hs (eq_trans (eq_sym Hv') Hv)).
Qed.

Lemma damaged_seq_is_rejected_witness :
  bootloader_common_ota_select_valid
    (Select 7 (replicate 20 0xFF) ESP_OTA_IMG_VALID (esp_rom_crc32_le UINT32_MAX [6; 0; 0; 0]))
  = false.
Proof.
  apply (damaged_seq_is_rejected
    (Select 6 (replicate 20 0xFF) ESP_OTA_IMG_VALID (esp_rom_crc32_le UINT32_MAX [6; 0; 0; 0])) 7);
    [done|done|done|vm_compute; reflexivity].
Defined.

(** ** The RTC record *)

Lemma update_crc_valid cic r :
  is_retain_mem_valid cic (update_rtc_retain_mem_crc cic r)
  = negb (rtc_crc (update_rtc_retain_mem_crc cic r) =? UINT32_MAX).
Proof.
  unfold is_retain_mem_valid.
  assert (retain_crc_bytes cic (update_rtc_retain_mem_crc cic r) = retain_crc_bytes cic r) as ->
    by done.
  change (rtc_crc (update_rtc_retain_mem_crc cic r))
    with (esp_rom_crc32_le UINT32_MAX (retain_crc_bytes cic r)).
  by rewrite Z.eqb_refl.
Qed.

(** [reboot_counter++] undone when it wraps to 0. *)
Lemma counter_increment c :
  in_range 16 c ->
  (if u16 (c + 1) =? 0 then u16 (u16 (c + 1) - 1) else u16 (c + 1)) = Z.min 65535 (c + 1).
Proof.
  unfold in_range. change (2 ^ 16) with 65536. intros Hc.
  destruct (Z.eq_dec c 65535) as [-> | Hne]; [reflexivity|].
  rewrite (wrap_small 16 (c + 1)) by (unfold in_range; change (2 ^ 16) with 65536; lia).
  destruct (Z.eqb_spec (c + 1) 0); lia.
Qed.

(** Counting a reboot in the RTC record: the counter of a valid record
    grows by one and saturates at 65535, that of an invalid record restarts at
    1; the other fields of a valid record survive, and the record is valid
    afterwards unless its CRC happens to be 0xFFFFFFFF, the value reserved for
    an empty record. *)
Theorem rtc_reboot_counter_saturates cic partition r :
  in_range 16 (reboot_counter r) ->
  let r' := bootloader_common_update_rtc_retain_mem cic partition true r in
  reboot_counter r' = (if is_retain_mem_valid cic r then Z.min 65535 (reboot_counter r + 1) else 1) /\
  is_retain_mem_valid cic r' = negb (rtc_crc r' =? UINT32_MAX) /\
  (is_retain_mem_valid cic r = true ->
     custom r' = custom r /\ factory_reset_state r' = factory_reset_state r /\
     (partition = None -> rtc_part_offset r' = rtc_part_offset r /\
                          rtc_part_size r' = rtc_part_size r)).
Proof.
  intros Hc. unfold bootloader_common_update_rtc_retain_mem. cbn zeta.
  split; [|split; [apply update_crc_valid|intros ->]].
  - rewrite <- (counter_increment _ Hc).
    destruct (is_retain_mem_valid cic r), partition as [[??]|]; cbn; repeat case_test; try done.
  - repeat split; destruct partition as [[??]|]; cbn; repeat case_test; try done.
Qed.

Lemma rtc_reboot_counter_saturates_witness :
  let r := update_rtc_retain_mem_crc true (Retain 0x10000 0x100000 65535 false 0 0 [1; 2] 0) in
  is_retain_mem_valid true r = true /\
  reboot_counter (bootloader_common_update_rtc_retain_mem true None true r) = 65535.
Proof.
  intros r. assert (Hv : is_retain_mem_valid true r = true) by (vm_compute; reflexivity).
  assert (Hc : reboot_counter r = 65535) by reflexivity.
  split; [exact Hv|]. clearbody r.
  destruct (rtc_reboot_counter_saturates true None r) as [Hr _]; [by rewrite Hc|].
  rewrite Hr, Hv, Hc. reflexivity.
Defined.
