(* ===== verification/Bootloader.v ===== *)
(** * Boot selection in the second-stage bootloader

    [components/bootloader_support/src/bootloader_utility.c] and
    [flash_partitions.c]: verification of the partition table, its reduction to
    a [bootloader_state_t], the choice of the application from the OTA data, the
    rollback bookkeeping, and the fallback order when images do not load.

    The flash chip is the default chip of [Flash.FlashOps]; loading and
    verifying an image, and the eFuse secure version, are parameters. *)

From S2P Require Import Prelude EspErr Flash Partition OtaData.

Record esp_partition_pos_t := Pos { pos_offset : Z; pos_size : Z }.

Definition no_pos : esp_partition_pos_t := Pos 0 0.

Definition FLASH_SECTOR_SIZE : Z := 0x1000.
Definition MAX_OTA_SLOTS : Z := 16.
Definition FACTORY_INDEX : Z := -1.
Definition TEST_APP_INDEX : Z := -2.
Definition INVALID_INDEX : Z := -99.
Definition PART_SUBTYPE_OTA_FLAG : Z := 0x10.
Definition PART_SUBTYPE_OTA_MASK : Z := 0x0f.
Definition PART_SUBTYPE_FACTORY : Z := 0x00.
Definition PART_SUBTYPE_TEST : Z := 0x20.
Definition PART_TYPE_END : Z := 0xff.
Definition PART_SUBTYPE_END : Z := 0xff.
Definition ESP_PARTITION_TABLE_MAX_LEN : Z := 0xC00.
Definition ESP_PARTITION_TABLE_MAX_ENTRIES : nat := 96.
Definition ESP_APP_DESC_MAGIC_WORD : Z := 0xABCD5432.

Record bootloader_state_t := BootState {
  ota_info : esp_partition_pos_t;
  factory : esp_partition_pos_t;
  test : esp_partition_pos_t;
  ota : list esp_partition_pos_t;     (** [MAX_OTA_SLOTS] slots *)
  app_count : Z;
}.

(** ** [esp_partition_table_verify] *)

(** The loop from entry [num_parts]; [raw] are the entries not yet seen and
    [seen] the bytes of those before. *)
Fixpoint table_verify_loop (chip_size : Z) (md5 : list Z -> list Z) (fuel : nat)
    (raw : list (list Z)) (seen : list Z) (num_parts md5_found : Z) : esp_err_t * Z :=
  match fuel, raw with
  | S fuel, bs :: raw =>
      let part := decode_entry bs in
      if e_magic part =? ESP_PARTITION_MAGIC then
        if (chip_size <? e_offset part) || (chip_size <? u32 (e_offset part + e_size part))
        then (ESP_ERR_INVALID_SIZE, 0)
        else table_verify_loop chip_size md5 fuel raw (seen ++ bs) (num_parts + 1) md5_found
      else if e_magic part =? ESP_PARTITION_MAGIC_MD5 then
        if negb (md5_found =? 0) then (ESP_ERR_INVALID_STATE, 0)
        else if decide (field bs ESP_PARTITION_MD5_OFFSET 16 = md5 seen)
        then table_verify_loop chip_size md5 fuel raw (seen ++ bs) (num_parts + 1) 1
        else (ESP_ERR_INVALID_STATE, 0)
      else if (e_magic part =? 0xFFFF) && (e_type part =? PART_TYPE_END)
              && (e_subtype part =? PART_SUBTYPE_END)
      then (ESP_OK, num_parts - md5_found)
      else (ESP_ERR_INVALID_STATE, 0)
  | _, _ => (ESP_ERR_INVALID_STATE, 0)
  end.

Definition esp_partition_table_verify (chip_size : Z) (md5 : list Z -> list Z)
    (partition_table : list (list Z)) : esp_err_t * Z :=
  table_verify_loop chip_size md5 ESP_PARTITION_TABLE_MAX_ENTRIES partition_table [] 0 0.

(** ** [bootloader_utility_load_partition_table] *)

(** The [switch] on one entry. *)
Definition load_table_entry (bs : bootloader_state_t) (p : esp_partition_info_t)
    : bootloader_state_t :=
  let pos := Pos (e_offset p) (e_size p) in
  if e_type p =? ESP_PARTITION_TYPE_APP then
    if e_subtype p =? PART_SUBTYPE_FACTORY then
      BootState (ota_info bs) pos (test bs) (ota bs) (app_count bs)
    else if e_subtype p =? PART_SUBTYPE_TEST then
      BootState (ota_info bs) (factory bs) pos (ota bs) (app_count bs)
    else if Z.land (e_subtype p) (Z.lnot PART_SUBTYPE_OTA_MASK) =? PART_SUBTYPE_OTA_FLAG then
      BootState (ota_info bs) (factory bs) (test bs)
        (<[Z.to_nat (Z.land (e_subtype p) PART_SUBTYPE_OTA_MASK) := pos]> (ota bs))
        (u32 (app_count bs + 1))
    else bs
  else if e_type p =? ESP_PARTITION_TYPE_DATA then
    if e_subtype p =? ESP_PARTITION_SUBTYPE_DATA_OTA then
      BootState pos (factory bs) (test bs) (ota bs) (app_count bs)
    else bs
  else bs.

(** [None]: the table could not be mapped or verified ([false]). *)
Definition bootloader_utility_load_partition_table (mapped : bool) (chip_size : Z)
    (md5 : list Z -> list Z) (table : list (list Z)) (bs : bootloader_state_t)
    : option bootloader_state_t :=
  if negb mapped then None
  else match esp_partition_table_verify chip_size md5 table with
       | (ESP_OK, num_partitions) =>
           Some (fold_left load_table_entry
                   (map decode_entry (take (Z.to_nat num_partitions) table)) bs)
       | _ => None
       end.

(** ** Boot selection *)

Record boot_cfg := {
  CONFIG_BOOTLOADER_APP_ROLLBACK_ENABLE : bool;
  CONFIG_BOOTLOADER_APP_ANTI_ROLLBACK : bool;
  CONFIG_BOOTLOADER_RESERVE_RTC_MEM : bool;
  CONFIG_BOOTLOADER_SKIP_VALIDATE_IN_DEEP_SLEEP : bool;
  RTC_CUSTOM_IN_CRC : bool;
  boot_flash_encryption : bool;           (** [esp_flash_encryption_enabled()] *)
}.

(** The eFuse secure version. *)
Class EfuseOps (E : Type) := {
  esp_efuse_check_secure_version : E -> Z -> bool;
  esp_efuse_update_secure_version : E -> Z -> E * esp_err_t;
}.

Section Boot.
  Context {F E : Type} `{FlashOps F} `{EfuseOps E} (cfg : boot_cfg).
  (** [bootloader_load_image] succeeds. *)
  Context (load_image_ok : F -> esp_partition_pos_t -> bool).

Record boot_st := BootSt {
  bt_flash : F;
  bt_efuse : E;
  bt_rtc : rtc_retain_mem_t;
  ota_has_initial_contents : bool;
}.

Definition upd_flash (f : F) (st : boot_st) : boot_st :=
  BootSt f (bt_efuse st) (bt_rtc st) (ota_has_initial_contents st).
Definition upd_efuse (e : E) (st : boot_st) : boot_st :=
  BootSt (bt_flash st) e (bt_rtc st) (ota_has_initial_contents st).
Definition upd_rtc (r : rtc_retain_mem_t) (st : boot_st) : boot_st :=
  BootSt (bt_flash st) (bt_efuse st) r (ota_has_initial_contents st).
Definition upd_initial (b : bool) (st : boot_st) : boot_st :=
  BootSt (bt_flash st) (bt_efuse st) (bt_rtc st) b.

Definition chip0 : Z := esp_flash_default_chip.

Definition bootloader_common_read_otadata (f : F) (info_ : esp_partition_pos_t)
    : esp_err_t * (esp_ota_select_entry_t * esp_ota_select_entry_t) :=
  let bad := (Select 0 [] 0 0, Select 0 [] 0 0) in
  if pos_offset info_ =? 0 then (ESP_ERR_NOT_FOUND, bad)
  else if pos_size info_ <? 2 * FLASH_SECTOR_SIZE then (ESP_FAIL, bad)
  else if negb (is_ok (spi_flash_mmap f (pos_offset info_) (pos_size info_))) then (ESP_FAIL, bad)
  else (ESP_OK,
        (decode_select (flash_bytes f chip0 (pos_offset info_) SELECT_SIZE),
         decode_select (flash_bytes f chip0 (pos_offset info_ + FLASH_SECTOR_SIZE) SELECT_SIZE))).

(** The magic word and the secure version of an application's descriptor. *)
Definition bootloader_common_get_partition_description (f : F) (p : esp_partition_pos_t)
    : esp_err_t * Z :=
  if pos_offset p =? 0 then (ESP_ERR_INVALID_ARG, 0)
  else
    let app_desc_offset := 24 + 8 in
    if negb (is_ok (spi_flash_mmap f (pos_offset p) (app_desc_offset + 256))) then (ESP_FAIL, 0)
    else
      let magic_word := le_value (flash_bytes f chip0 (pos_offset p + app_desc_offset) 4) in
      let secure_version := le_value (flash_bytes f chip0 (pos_offset p + app_desc_offset + 4) 4) in
      if negb (magic_word =? ESP_APP_DESC_MAGIC_WORD) then (ESP_ERR_NOT_FOUND, secure_version)
      else (ESP_OK, secure_version).

Definition index_to_partition (bs : bootloader_state_t) (index : Z) : esp_partition_pos_t :=
  if index =? FACTORY_INDEX then factory bs
  else if index =? TEST_APP_INDEX then test bs
  else if (0 <=? index) && (index <? MAX_OTA_SLOTS) && (index <? s32 (app_count bs))
  then nth (Z.to_nat index) (ota bs) no_pos
  else no_pos.

(** [write_otadata]: erase the sector, then write the entry. *)
Definition write_otadata (f : F) (otadata : esp_ota_select_entry_t) (offset : Z)
    (write_encrypted : bool) : F * esp_err_t :=
  match esp_flash_erase_region f chip0 (offset / FLASH_SECTOR_SIZE * FLASH_SECTOR_SIZE)
          FLASH_SECTOR_SIZE with
  | (f, ESP_OK) =>
      if write_encrypted then esp_flash_write_encrypted f chip0 offset (encode_select otadata)
      else esp_flash_write f chip0 offset (encode_select otadata)
  | (f, err) => (f, err)
  end.

Definition check_anti_rollback (f : F) (e : E) (p : esp_partition_pos_t) : bool :=
  if CONFIG_BOOTLOADER_APP_ANTI_ROLLBACK cfg then
    let '(err, secure_version) := bootloader_common_get_partition_description f p in
    if negb (is_ok err) then false else esp_efuse_check_secure_version e secure_version
  else true.

Definition update_anti_rollback (st : boot_st) (p : esp_partition_pos_t) : boot_st :=
  let '(err, secure_version) := bootloader_common_get_partition_description (bt_flash st) p in
  if is_ok err then upd_efuse (fst (esp_efuse_update_secure_version (bt_efuse st) secure_version)) st
  else st.

(** The slot an entry selects: [(ota_seq - 1) % app_count] in [uint32_t]. *)
Definition slot_of (s : esp_ota_select_entry_t) (count : Z) : Z :=
  u32 (ota_seq s - 1) mod count.

Definition get_active_otadata_with_check_anti_rollback (f : F) (e : E)
    (bs : bootloader_state_t) (two : esp_ota_select_entry_t * esp_ota_select_entry_t) : Z :=
  let sec_ver_valid s :=
    if bootloader_common_ota_select_valid s then
      check_anti_rollback f e (nth (Z.to_nat (slot_of s (app_count bs))) (ota bs) no_pos)
    else false in
  bootloader_common_select_otadata two (sec_ver_valid (fst two), sec_ver_valid (snd two)) true.

(** One turn of the loop that turns PENDING_VERIFY into ABORTED. *)
Definition abort_pending (bs : bootloader_state_t) (i : Z)
    (acc : boot_st * (esp_ota_select_entry_t * esp_ota_select_entry_t))
    : boot_st * (esp_ota_select_entry_t * esp_ota_select_entry_t) :=
  let '(st, two) := acc in
  if ota_state (otadata_at two i) =? ESP_OTA_IMG_PENDING_VERIFY then
    let s := set_state ESP_OTA_IMG_ABORTED (otadata_at two i) in
    let '(f, _) := write_otadata (bt_flash st) s
                     (u32 (pos_offset (ota_info bs) + FLASH_SECTOR_SIZE * i))
                     (boot_flash_encryption cfg) in
    (upd_flash f st, set_at two i s)
  else (st, two).

Definition entry_initial (s : esp_ota_select_entry_t) : bool :=
  (ota_seq s =? UINT32_MAX) || negb (crc s =? bootloader_common_ota_select_crc s).

(** The part of [bootloader_utility_get_selected_boot_partition] after an
    active entry was looked for. *)
Definition boot_from_active (bs : bootloader_state_t) (st : boot_st)
    (two : esp_ota_select_entry_t * esp_ota_select_entry_t) (active_otadata : Z)
    : boot_st * Z :=
  if negb (active_otadata =? -1) then
    let boot_index := slot_of (otadata_at two active_otadata) (app_count bs) in
    let '(st, two) :=
      if CONFIG_BOOTLOADER_APP_ROLLBACK_ENABLE cfg
         && (ota_state (otadata_at two active_otadata) =? ESP_OTA_IMG_NEW) then
        let s := set_state ESP_OTA_IMG_PENDING_VERIFY (otadata_at two active_otadata) in
        let '(f, _) := write_otadata (bt_flash st) s
                         (u32 (pos_offset (ota_info bs) + FLASH_SECTOR_SIZE * active_otadata))
                         (boot_flash_encryption cfg) in
        (upd_flash f st, set_at two active_otadata s)
      else (st, two) in
    let st :=
      if CONFIG_BOOTLOADER_APP_ANTI_ROLLBACK cfg
         && (ota_state (otadata_at two active_otadata) =? ESP_OTA_IMG_VALID)
      then update_anti_rollback st (nth (Z.to_nat boot_index) (ota bs) no_pos)
      else st in
    (st, boot_index)
  else (st, FACTORY_INDEX).

Definition bootloader_utility_get_selected_boot_partition (bs : bootloader_state_t)
    (st : boot_st) : boot_st * Z :=
  if pos_offset (ota_info bs) =? 0 then (st, FACTORY_INDEX)
  else match bootloader_common_read_otadata (bt_flash st) (ota_info bs) with
  | (ESP_OK, two) =>
      let st := upd_initial false st in
      let '(st, two) :=
        if CONFIG_BOOTLOADER_APP_ROLLBACK_ENABLE cfg
        then abort_pending bs 1 (abort_pending bs 0 (st, two)) else (st, two) in
      if negb (CONFIG_BOOTLOADER_APP_ANTI_ROLLBACK cfg) then
        if (bootloader_common_ota_select_invalid (fst two)
            && bootloader_common_ota_select_invalid (snd two)) || (app_count bs =? 0) then
          if negb (pos_offset (factory bs) =? 0) then (st, FACTORY_INDEX)
          else if entry_initial (fst two) && entry_initial (snd two)
          then (upd_initial true st, 0) else (st, 0)
        else boot_from_active bs st two (bootloader_common_get_active_otadata two)
      else
        if entry_initial (fst two) && entry_initial (snd two)
        then (upd_initial true st, FACTORY_INDEX)
        else boot_from_active bs st two
               (get_active_otadata_with_check_anti_rollback (bt_flash st) (bt_efuse st) bs two)
  | _ => (st, INVALID_INDEX)
  end.

(** ** Loading with fallback *)

Definition try_load_partition (f : F) (p : esp_partition_pos_t) : bool :=
  if pos_size p =? 0 then false else load_image_ok f p.

Definition set_actual_ota_seq (bs : bootloader_state_t) (index : Z) (st : boot_st) : boot_st :=
  let st :=
    if (FACTORY_INDEX <? index) && ota_has_initial_contents st then
      let otadata0 := Select (u32 (index + 1)) (replicate 20 0xFF) ESP_OTA_IMG_VALID 0xFFFFFFFF in
      let otadata := Select (ota_seq otadata0) (seq_label otadata0) (ota_state otadata0)
                       (bootloader_common_ota_select_crc otadata0) in
      let '(f, _) := write_otadata (bt_flash st) otadata
                       (u32 (pos_offset (ota_info bs) + FLASH_SECTOR_SIZE * 0))
                       (boot_flash_encryption cfg) in
      let st := upd_flash f st in
      if CONFIG_BOOTLOADER_APP_ANTI_ROLLBACK cfg
      then update_anti_rollback st (nth (Z.to_nat index) (ota bs) no_pos) else st
    else st in
  if CONFIG_BOOTLOADER_RESERVE_RTC_MEM cfg then
    let partition :=
      if CONFIG_BOOTLOADER_SKIP_VALIDATE_IN_DEEP_SLEEP cfg then
        let p := index_to_partition bs index in Some (pos_offset p, pos_size p)
      else None in
    upd_rtc (bootloader_common_update_rtc_retain_mem (RTC_CUSTOM_IN_CRC cfg) partition true
               (bt_rtc st)) st
  else st.

(** How [bootloader_utility_load_boot_image] ends; it does not return. *)
Inductive boot_outcome :=
| load_image (p : esp_partition_pos_t)
| bootloader_reset.

(** The body of both loops, over the indices they visit. *)
Fixpoint try_indices (bs : bootloader_state_t) (indices : list Z) (st : boot_st)
    : option (boot_st * boot_outcome) :=
  match indices with
  | [] => None
  | index :: indices =>
      let part := index_to_partition bs index in
      if pos_size part =? 0 then try_indices bs indices st
      else if check_anti_rollback (bt_flash st) (bt_efuse st) part
              && try_load_partition (bt_flash st) part
      then Some (set_actual_ota_seq bs index st, load_image part)
      else try_indices bs indices st
  end.

(** [index = start_index; index >= FACTORY_INDEX; index--] *)
Definition down_indices (start_index : Z) : list Z :=
  map (fun k => start_index - Z.of_nat k) (seq 0 (Z.to_nat (start_index - FACTORY_INDEX + 1))).

(** [index = start_index + 1; index < (int)bs->app_count; index++] *)
Definition up_indices (start_index count : Z) : list Z :=
  map (fun k => start_index + 1 + Z.of_nat k) (seq 0 (Z.to_nat (count - (start_index + 1)))).

Definition bootloader_utility_load_boot_image (bs : bootloader_state_t) (start_index : Z)
    (st : boot_st) : boot_st * boot_outcome :=
  let test_ok := check_anti_rollback (bt_flash st) (bt_efuse st) (test bs)
                 && try_load_partition (bt_flash st) (test bs) in
  if start_index =? TEST_APP_INDEX then
    if test_ok then (st, load_image (test bs)) else (st, bootloader_reset)
  else match try_indices bs (down_indices start_index) st with
  | Some r => r
  | None =>
      match try_indices bs (up_indices start_index (s32 (app_count bs))) st with
      | Some r => r
      | None => if test_ok then (st, load_image (test bs)) else (st, bootloader_reset)
      end
  end.

End Boot.

Arguments boot_st : clear implicits.
Arguments BootSt {F E}.

(** ** Facts about the OTA data sectors *)

Section BootFacts.
  Context {F E : Type} `{FlashLaws F} `{!FlashReliable F} `{EfuseOps E}.
  Context (cfg : boot_cfg) (load_image_ok : F -> esp_partition_pos_t -> bool).

(** Where the table puts the OTA data: two whole sectors below 4 GiB. *)
Definition ota_info_wf (p : esp_partition_pos_t) : Prop :=
  0 < pos_offset p /\ pos_offset p mod FLASH_SECTOR_SIZE = 0 /\
  2 * FLASH_SECTOR_SIZE <= pos_size p /\ pos_offset p + 2 * FLASH_SECTOR_SIZE <= 2 ^ 32.

(** The two entries as they are in flash. *)
Definition two_otadata (f : F) (p : esp_partition_pos_t)
    : esp_ota_select_entry_t * esp_ota_select_entry_t :=
  (decode_select (flash_bytes f chip0 (pos_offset p) SELECT_SIZE),
   decode_select (flash_bytes f chip0 (pos_offset p + FLASH_SECTOR_SIZE) SELECT_SIZE)).

Lemma two_otadata_wf f p i : select_wf (otadata_at (two_otadata f p) i).
Proof.
  unfold otadata_at, two_otadata. cbn [fst snd].
  case_test; (apply decode_select_wf; [apply flash_bytes_length|apply flash_bytes_range]).
Qed.

Lemma read_otadata_ok f p :
  ota_info_wf p -> bootloader_common_read_otadata f p = (ESP_OK, two_otadata f p).
Proof.
  intros (Hp1 & Hp2 & Hp3 & Hp4). unfold bootloader_common_read_otadata.
  destruct (Z.eqb_spec (pos_offset p) 0); [lia|].
  destruct (Z.ltb_spec (pos_size p) (2 * FLASH_SECTOR_SIZE)); [lia|].
  by rewrite rel_mmap.
Qed.

Lemma sector_base a : a mod FLASH_SECTOR_SIZE = 0 -> a / FLASH_SECTOR_SIZE * FLASH_SECTOR_SIZE = a.
Proof.
  intros Ha. rewrite (Z.div_mod a FLASH_SECTOR_SIZE) at 2 by done. rewrite Ha. lia.
Qed.

Lemma write_otadata_frame f s off enc :
  off mod FLASH_SECTOR_SIZE = 0 -> select_wf s ->
  flash_frame f (fst (write_otadata f s off enc)) chip0 off FLASH_SECTOR_SIZE.
Proof.
  intros Ha Hs. unfold write_otadata. rewrite sector_base by done.
  pose proof (erase_frame f chip0 off FLASH_SECTOR_SIZE ltac:(done)) as He.
  destruct (esp_flash_erase_region _ _ _ _) as [f1 [] ] eqn:E1; try exact He. cbn [fst] in He.
  apply (flash_frame_trans _ f1); [exact He|].
  assert (Hl : Z.of_nat (length (encode_select s)) = 32) by (rewrite encode_select_length; done).
  destruct enc.
  - eapply flash_frame_sub; [apply write_enc_frame|lia|]. rewrite Hl. unfold FLASH_SECTOR_SIZE. lia.
  - eapply flash_frame_sub; [apply write_frame|lia|]. rewrite Hl. unfold FLASH_SECTOR_SIZE. lia.
Qed.

Lemma write_otadata_data f s off enc :
  off mod FLASH_SECTOR_SIZE = 0 -> select_wf s ->
  flash_bytes (fst (write_otadata f s off enc)) chip0 off SELECT_SIZE = encode_select s.
Proof.
  intros Ha Hs. unfold write_otadata. rewrite sector_base by done.
  pose proof (rel_erase f chip0 off FLASH_SECTOR_SIZE) as Hok.
  pose proof (erase_ok f chip0 off FLASH_SECTOR_SIZE Hok) as He.
  destruct (esp_flash_erase_region _ _ _ _) as [f1 err]. cbn [fst snd] in *. subst err.
  rewrite <- (encode_select_length s Hs).
  assert (Hff : Forall (fun b => b = 0xFF)
      (flash_bytes f1 chip0 off (length (encode_select s)))).
  { apply flash_bytes_forall. rewrite (encode_select_length s Hs). intros a' Ha'. apply He.
    unfold SELECT_SIZE, FLASH_SECTOR_SIZE in *. lia. }
  destruct enc.
  - apply write_enc_ok; auto using encode_select_range. apply rel_write_enc.
  - apply write_ok; auto using encode_select_range. apply rel_write.
Qed.

(** Storing an entry in sector [i] replaces entry [i] and nothing else. *)
Lemma two_otadata_of_sector f f' p s i :
  ota_info_wf p -> select_wf s -> i = 0 \/ i = 1 ->
  flash_frame f f' chip0 (pos_offset p + FLASH_SECTOR_SIZE * i) FLASH_SECTOR_SIZE ->
  flash_bytes f' chip0 (pos_offset p + FLASH_SECTOR_SIZE * i) SELECT_SIZE = encode_select s ->
  two_otadata f' p = set_at (two_otadata f p) i s.
Proof.
  intros (Hp1 & Hp2 & Hp3 & Hp4) Hs Hi Hf Hd. unfold two_otadata, set_at.
  destruct Hi as [-> | ->]; cbn [Z.eqb fst snd].
  - rewrite Z.mul_0_r, Z.add_0_r in *. rewrite Hd, decode_encode_select by done. f_equal. f_equal.
    eapply flash_bytes_frame; [exact Hf|]. right. right. unfold FLASH_SECTOR_SIZE. lia.
  - rewrite Z.mul_1_r in *. rewrite Hd, decode_encode_select by done. f_equal. f_equal.
    eapply flash_bytes_frame; [exact Hf|]. right. left.
    unfold FLASH_SECTOR_SIZE, SELECT_SIZE. lia.
Qed.

Lemma write_otadata_two f s p i enc :
  ota_info_wf p -> select_wf s -> i = 0 \/ i = 1 ->
  let f' := fst (write_otadata f s (u32 (pos_offset p + FLASH_SECTOR_SIZE * i)) enc) in
  two_otadata f' p = set_at (two_otadata f p) i s /\
  flash_frame f f' chip0 (pos_offset p) (2 * FLASH_SECTOR_SIZE).
Proof.
  intros Hp Hs Hi. pose proof Hp as (Hp1 & Hp2 & Hp3 & Hp4).
  assert (Hu : u32 (pos_offset p + FLASH_SECTOR_SIZE * i) = pos_offset p + FLASH_SECTOR_SIZE * i).
  { apply u32_small. unfold FLASH_SECTOR_SIZE in *. lia. }
  rewrite Hu. cbn zeta.
  assert (Ha : (pos_offset p + FLASH_SECTOR_SIZE * i) mod FLASH_SECTOR_SIZE = 0).
  { by rewrite Z.mul_comm, Z.mod_add. }
  pose proof (write_otadata_frame f s _ enc Ha Hs) as Hf.
  pose proof (write_otadata_data f s _ enc Ha Hs) as Hd. split.
  - by apply two_otadata_of_sector.
  - eapply flash_frame_sub; [exact Hf| |]; unfold FLASH_SECTOR_SIZE in *; lia.
Qed.

(** ** The choice as a function of the two entries *)

(** What the rollback option does to an entry that was booted and never
    confirmed, and to one about to be booted for the first time. *)
Definition abort_entry (s : esp_ota_select_entry_t) : esp_ota_select_entry_t :=
  if CONFIG_BOOTLOADER_APP_ROLLBACK_ENABLE cfg && (ota_state s =? ESP_OTA_IMG_PENDING_VERIFY)
  then set_state ESP_OTA_IMG_ABORTED s else s.
Definition try_entry (s : esp_ota_select_entry_t) : esp_ota_select_entry_t :=
  if CONFIG_BOOTLOADER_APP_ROLLBACK_ENABLE cfg && (ota_state s =? ESP_OTA_IMG_NEW)
  then set_state ESP_OTA_IMG_PENDING_VERIFY s else s.

Definition boot_choice (bs : bootloader_state_t)
    (two : esp_ota_select_entry_t * esp_ota_select_entry_t)
    : (esp_ota_select_entry_t * esp_ota_select_entry_t) * Z :=
  let two := (abort_entry (fst two), abort_entry (snd two)) in
  if (bootloader_common_ota_select_invalid (fst two)
      && bootloader_common_ota_select_invalid (snd two)) || (app_count bs =? 0)
  then (two, if pos_offset (factory bs) =? 0 then 0 else FACTORY_INDEX)
  else
    let a := bootloader_common_get_active_otadata two in
    if a =? -1 then (two, FACTORY_INDEX)
    else (set_at two a (try_entry (otadata_at two a)), slot_of (otadata_at two a) (app_count bs)).

Lemma abort_pending_two bs i (st : boot_st F E) :
  CONFIG_BOOTLOADER_APP_ROLLBACK_ENABLE cfg = true ->
  ota_info_wf (ota_info bs) -> i = 0 \/ i = 1 ->
  let two := two_otadata (bt_flash st) (ota_info bs) in
  let '(st', two') := abort_pending cfg bs i (st, two) in
  two_otadata (bt_flash st') (ota_info bs) = two' /\
  two' = set_at two i (abort_entry (otadata_at two i)) /\
  flash_frame (bt_flash st) (bt_flash st') chip0 (pos_offset (ota_info bs)) (2 * FLASH_SECTOR_SIZE).
Proof.
  intros Hrb Hp Hi. cbn zeta. unfold abort_pending, abort_entry. rewrite Hrb. cbn [andb].
  destruct (ota_state _ =? ESP_OTA_IMG_PENDING_VERIFY) eqn:Hst.
  - destruct (write_otadata_two (bt_flash st)
      (set_state ESP_OTA_IMG_ABORTED (otadata_at (two_otadata (bt_flash st) (ota_info bs)) i))
      (ota_info bs) i (boot_flash_encryption cfg) Hp) as [Hd Hf]; [|done|].
    { apply set_state_wf, two_otadata_wf. done. }
    destruct (write_otadata _ _ _ _) as [f' err]. cbn in *. auto.
  - split; [done|]. split; [|done]. destruct Hi as [-> | ->]; done.
Qed.

Lemma boot_from_active_two bs (st : boot_st F E) :
  CONFIG_BOOTLOADER_APP_ANTI_ROLLBACK cfg = false ->
  ota_info_wf (ota_info bs) ->
  let two := two_otadata (bt_flash st) (ota_info bs) in
  let a := bootloader_common_get_active_otadata two in
  let '(st', index) := boot_from_active cfg bs st two a in
  (two_otadata (bt_flash st') (ota_info bs), index) =
    (if a =? -1 then (two, FACTORY_INDEX)
     else (set_at two a (try_entry (otadata_at two a)), slot_of (otadata_at two a) (app_count bs))) /\
  flash_frame (bt_flash st) (bt_flash st') chip0 (pos_offset (ota_info bs)) (2 * FLASH_SECTOR_SIZE).
Proof.
  intros Har Hp. cbn zeta.
  pose proof (active_cases (two_otadata (bt_flash st) (ota_info bs))) as Ha.
  set (a := bootloader_common_get_active_otadata _) in *. unfold boot_from_active. rewrite Har.
  cbn [andb]. destruct (Z.eqb_spec a (-1)) as [Hm|Hm]; cbn [negb]; [auto|].
  unfold try_entry. destruct (_ && _) eqn:Hst.
  - destruct (write_otadata_two (bt_flash st)
      (set_state ESP_OTA_IMG_PENDING_VERIFY (otadata_at (two_otadata (bt_flash st) (ota_info bs)) a))
      (ota_info bs) a (boot_flash_encryption cfg) Hp) as [Hd Hf]; [|tauto|].
    { apply set_state_wf, two_otadata_wf. done. }
    destruct (write_otadata _ _ _ _) as [f' err]. cbn [fst] in *. cbn. by rewrite Hd.
  - cbn. split; [|done]. f_equal. destruct Ha as [Ha|[Ha|Ha]]; [done| |]; by rewrite Ha.
Qed.

(** Whether this boot must store a first OTA record. *)
Definition initial_flag (bs : bootloader_state_t)
    (two : esp_ota_select_entry_t * esp_ota_select_entry_t) : bool :=
  let two := (abort_entry (fst two), abort_entry (snd two)) in
  ((bootloader_common_ota_select_invalid (fst two)
    && bootloader_common_ota_select_invalid (snd two)) || (app_count bs =? 0))
  && (pos_offset (factory bs) =? 0) && (entry_initial (fst two) && entry_initial (snd two)).

Lemma abort_both bs (st : boot_st F E) :
  ota_info_wf (ota_info bs) ->
  let two := two_otadata (bt_flash st) (ota_info bs) in
  let '(st', two') :=
    if CONFIG_BOOTLOADER_APP_ROLLBACK_ENABLE cfg
    then abort_pending cfg bs 1 (abort_pending cfg bs 0 (st, two)) else (st, two) in
  two' = (abort_entry (fst two), abort_entry (snd two)) /\
  two_otadata (bt_flash st') (ota_info bs) = two' /\
  ota_has_initial_contents st' = ota_has_initial_contents st /\
  flash_frame (bt_flash st) (bt_flash st') chip0 (pos_offset (ota_info bs)) (2 * FLASH_SECTOR_SIZE).
Proof.
  intros Hp. cbn zeta. destruct (CONFIG_BOOTLOADER_APP_ROLLBACK_ENABLE cfg) eqn:Hrb.
  2:{ unfold abort_entry. rewrite Hrb. cbn [andb]. split; [by destruct (two_otadata _ _)|auto]. }
  pose proof (abort_pending_two bs 0 st Hrb Hp ltac:(auto)) as Hab0.
  assert (Hi : forall i (acc : boot_st F E * _), ota_has_initial_contents (fst (abort_pending cfg bs i acc))
                           = ota_has_initial_contents (fst acc)).
  { intros i [s t]. unfold abort_pending. case_test; [|done]. by destruct (write_otadata _ _ _ _). }
  pose proof (Hi 0 (st, two_otadata (bt_flash st) (ota_info bs))) as Hi0. cbn zeta in Hab0.
  destruct (abort_pending cfg bs 0 _) as [s1 t1]. destruct Hab0 as (Ht1 & Hs1 & Hf1).
  pose proof (abort_pending_two bs 1 s1 Hrb Hp ltac:(auto)) as Hab1. cbn zeta in Hab1.
  pose proof (Hi 1 (s1, t1)) as Hi1. rewrite Ht1 in Hab1.
  destruct (abort_pending cfg bs 1 _) as [s2 t2]. destruct Hab1 as (Ht2 & Hs2 & Hf2).
  cbn [fst] in *. split; [|split; [done|split; [congruence|]]].
  - rewrite Hs2, Hs1. done.
  - exact (flash_frame_trans _ _ _ _ _ _ Hf1 Hf2).
Qed.

(** The whole selection over the two entries as they are in flash. *)
Lemma selection_choice bs (st : boot_st F E) :
  CONFIG_BOOTLOADER_APP_ANTI_ROLLBACK cfg = false -> ota_info_wf (ota_info bs) ->
  let two := two_otadata (bt_flash st) (ota_info bs) in
  let '(st', index) := bootloader_utility_get_selected_boot_partition cfg bs st in
  (two_otadata (bt_flash st') (ota_info bs), index) = boot_choice bs two /\
  ota_has_initial_contents st' = initial_flag bs two /\
  flash_frame (bt_flash st) (bt_flash st') chip0 (pos_offset (ota_info bs)) (2 * FLASH_SECTOR_SIZE).
Proof.
  intros Har Hp. cbn zeta. unfold bootloader_utility_get_selected_boot_partition.
  destruct (Z.eqb_spec (pos_offset (ota_info bs)) 0) as [Hz|Hz].
  { destruct Hp; lia. }
  rewrite read_otadata_ok by done. rewrite Har. cbn [negb].
  pose proof (abort_both bs (upd_initial false st) Hp) as Hab. cbn zeta in Hab.
  change (bt_flash (upd_initial false st)) with (bt_flash st) in Hab.
  set (two := two_otadata (bt_flash st) (ota_info bs)) in *.
  destruct (if CONFIG_BOOTLOADER_APP_ROLLBACK_ENABLE cfg then _ else _) as [s1 t1].
  destruct Hab as (Ht1 & Hs1 & Hi1 & Hf1). unfold boot_choice, initial_flag. rewrite <- Ht1.
  destruct (_ || _) eqn:Hinv; cbn [andb].
  - destruct (Z.eqb_spec (pos_offset (factory bs)) 0); cbn [negb andb].
    + destruct (entry_initial _ && _);
        cbn [upd_initial bt_flash ota_has_initial_contents]; rewrite Hs1; auto.
    + rewrite Hs1. auto.
  - pose proof (boot_from_active_two bs s1 Har Hp) as Hb. cbn zeta in Hb.
    assert (Hin : ota_has_initial_contents (fst (boot_from_active cfg bs s1 t1
      (bootloader_common_get_active_otadata t1))) = ota_has_initial_contents s1).
    { unfold boot_from_active. rewrite Har. cbn [andb].
      case_test; [|done]. case_test; [|done]. by destruct (write_otadata _ _ _ _). }
    rewrite Hs1 in Hb. destruct (boot_from_active _ _ _ _ _) as [s2 idx].
    destruct Hb as [Hb Hf2]. cbn [fst] in Hin. rewrite Hb, Hin, Hi1.
    split; [|split; [done|]].
    + by case_test.
    + exact (flash_frame_trans _ _ _ _ _ _ Hf1 Hf2).
Qed.

(** C29: without the anti-rollback option, boot selection on a device whose
    flash works implements [boot_choice] on the two stored entries: the slot it
    returns, the entries it leaves in flash (unconfirmed ones aborted, a newly
    selected one marked as on trial), the flag for a first record, and no other
    byte of any chip changes. *)
Theorem boot_selection_refines_choice bs (st : boot_st F E) :
  CONFIG_BOOTLOADER_APP_ANTI_ROLLBACK cfg = false -> ota_info_wf (ota_info bs) ->
  let two := two_otadata (bt_flash st) (ota_info bs) in
  let '(st', index) := bootloader_utility_get_selected_boot_partition cfg bs st in
  (two_otadata (bt_flash st') (ota_info bs), index) = boot_choice bs two /\
  ota_has_initial_contents st' = initial_flag bs two /\
  flash_frame (bt_flash st) (bt_flash st') chip0 (pos_offset (ota_info bs)) (2 * FLASH_SECTOR_SIZE).
Proof. apply selection_choice. Qed.

(** ** Rollback over two boots *)

Lemma set_at_same {A} (two : A * A) i x : i = 0 \/ i = 1 -> otadata_at (set_at two i x) i = x.
Proof. by intros [-> | ->]. Qed.
Lemma set_at_other {A} (two : A * A) i x :
  i = 0 \/ i = 1 -> otadata_at (set_at two i x) (1 - i) = otadata_at two (1 - i).
Proof. by intros [-> | ->]. Qed.

Lemma set_state_valid st s :
  bootloader_common_ota_select_valid s = true -> ota_seq s <> UINT32_MAX ->
  bootloader_common_ota_select_valid (set_state st s)
  = negb ((st =? ESP_OTA_IMG_INVALID) || (st =? ESP_OTA_IMG_ABORTED)).
Proof.
  unfold bootloader_common_ota_select_valid, bootloader_common_ota_select_invalid.
  cbn [set_state ota_seq ota_state crc]. rewrite !andb_true_iff. intros [_ Hc] Hne.
  assert (bootloader_common_ota_select_crc (set_state st s) = bootloader_common_ota_select_crc s)
    as -> by done.
  rewrite Hc. apply Z.eqb_neq in Hne. rewrite Hne.
  by destruct (st =? ESP_OTA_IMG_INVALID), (st =? ESP_OTA_IMG_ABORTED).
Qed.

Lemma valid_not_invalid s :
  bootloader_common_ota_select_valid s = true ->
  bootloader_common_ota_select_invalid s = false /\ ota_seq s <> UINT32_MAX.
Proof.
  unfold bootloader_common_ota_select_valid. rewrite andb_true_iff. intros [Hv _].
  apply eqb_prop in Hv. split; [done|]. unfold bootloader_common_ota_select_invalid in Hv.
  rewrite !orb_false_iff, Z.eqb_neq in Hv. tauto.
Qed.

(** The choice between two entries of which the one at [i] is valid. *)
Lemma active_is i two :
  i = 0 \/ i = 1 ->
  bootloader_common_ota_select_valid (otadata_at two i) = true ->
  (bootloader_common_ota_select_valid (otadata_at two (1 - i)) = true ->
   ota_seq (otadata_at two (1 - i)) < ota_seq (otadata_at two i)) ->
  bootloader_common_get_active_otadata two = i.
Proof.
  unfold bootloader_common_get_active_otadata, bootloader_common_select_otadata.
  intros [-> | ->]; cbn [otadata_at Z.sub Z.eqb fst snd];
    [change (otadata_at two (1 - 0)) with (snd two); change (otadata_at two 0) with (fst two)
    |change (otadata_at two (1 - 1)) with (fst two); change (otadata_at two 1) with (snd two)];
    intros Hv Ho; rewrite Hv; cbn [andb].
  - destruct (bootloader_common_ota_select_valid (snd two)); [|done].
    specialize (Ho eq_refl). rewrite Z.max_l by lia. by rewrite Z.eqb_refl.
  - destruct (bootloader_common_ota_select_valid (fst two)); [|done].
    specialize (Ho eq_refl). rewrite Z.max_r by lia.
    destruct (Z.eqb_spec (ota_seq (snd two)) (ota_seq (fst two))); [lia|done].
Qed.

Lemma boot_choice_active bs two i :
  i = 0 \/ i = 1 -> app_count bs <> 0 ->
  (forall s, s = otadata_at two i -> abort_entry s = s) ->
  bootloader_common_ota_select_valid (otadata_at two i) = true ->
  (bootloader_common_ota_select_valid (abort_entry (otadata_at two (1 - i))) = true ->
   ota_seq (otadata_at two (1 - i)) < ota_seq (otadata_at two i)) ->
  boot_choice bs two =
    (set_at (set_at two (1 - i) (abort_entry (otadata_at two (1 - i)))) i
            (try_entry (otadata_at two i)), slot_of (otadata_at two i) (app_count bs)).
Proof.
  intros Hi Hc Hsame Hv Ho. specialize (Hsame _ eq_refl). unfold boot_choice.
  set (two' := (abort_entry (fst two), abort_entry (snd two))).
  assert (Hat : otadata_at two' i = otadata_at two i).
  { transitivity (abort_entry (otadata_at two i)); [|exact Hsame]. by destruct Hi as [-> | ->]. }
  assert (Hot : otadata_at two' (1 - i) = abort_entry (otadata_at two (1 - i))).
  { by destruct Hi as [-> | ->]. }
  assert (Hseq : forall s, ota_seq (abort_entry s) = ota_seq s).
  { intros s. unfold abort_entry. by case_test. }
  assert (Hac : bootloader_common_get_active_otadata two' = i).
  { apply active_is; [done|by rewrite Hat|]. rewrite Hot, Hat, Hseq. done. }
  destruct (valid_not_invalid _ Hv) as [Hinv _].
  assert (bootloader_common_ota_select_invalid (fst two')
          && bootloader_common_ota_select_invalid (snd two') = false) as ->.
  { rewrite <- Hat in Hinv. apply andb_false_iff.
    destruct Hi as [-> | ->]; [left|right]; exact Hinv. }
  destruct (Z.eqb_spec (app_count bs) 0); [done|]. cbn [orb]. rewrite Hac, Hat.
  destruct (Z.eqb_spec i (-1)); [lia|]. f_equal.
  destruct Hi as [-> | ->]; cbn; unfold set_at, otadata_at in *; cbn in *; by rewrite ?Hsame.
Qed.

Lemma abort_entry_valid s :
  bootloader_common_ota_select_valid (abort_entry s) = true ->
  bootloader_common_ota_select_valid s = true /\ abort_entry s = s.
Proof.
  unfold abort_entry. destruct (_ && _); [|done]. intros Hv.
  destruct (valid_not_invalid _ Hv) as [Hi _].
  unfold bootloader_common_ota_select_invalid in Hi. cbn [set_state ota_state] in Hi.
  rewrite Z.eqb_refl, orb_true_r in Hi. done.
Qed.

(** With a valid entry [j] the slot chosen is that of a valid entry whose
    sequence number is not smaller. *)
Lemma boot_choice_slot bs two j :
  j = 0 \/ j = 1 -> app_count bs <> 0 ->
  bootloader_common_ota_select_valid (abort_entry (otadata_at two j)) = true ->
  exists k, (k = 0 \/ k = 1) /\
    bootloader_common_ota_select_valid (abort_entry (otadata_at two k)) = true /\
    ota_seq (otadata_at two j) <= ota_seq (otadata_at two k) /\
    snd (boot_choice bs two) = slot_of (otadata_at two k) (app_count bs).
Proof.
  intros Hj Hc Hv. unfold boot_choice.
  set (two' := (abort_entry (fst two), abort_entry (snd two))).
  assert (Hat : forall i, i = 0 \/ i = 1 -> otadata_at two' i = abort_entry (otadata_at two i)).
  { by intros i [-> | ->]. }
  assert (Hseq : forall s, ota_seq (abort_entry s) = ota_seq s).
  { intros s. unfold abort_entry. by case_test. }
  rewrite <- Hat in Hv by done. destruct (active_max two' j Hj Hv) as (Ha & Hva & Hle).
  destruct (valid_not_invalid _ Hv) as [Hinv _].
  assert (bootloader_common_ota_select_invalid (fst two')
          && bootloader_common_ota_select_invalid (snd two') = false) as ->.
  { apply andb_false_iff. destruct Hj as [-> | ->]; [left|right]; exact Hinv. }
  destruct (Z.eqb_spec (app_count bs) 0); [done|]. cbn [orb].
  set (a := bootloader_common_get_active_otadata two') in *.
  destruct (Z.eqb_spec a (-1)); [lia|]. exists a. rewrite !Hat, !Hseq in * by done.
  split; [done|]. split; [done|]. split; [done|].
  cbn [snd]. unfold slot_of. by rewrite Hseq.
Qed.

(** C28: an update that is never confirmed is rolled back. With a valid old
    entry and a newer one in state NEW: the next boot selects the new slot and
    stores PENDING_VERIFY; if the application does not change the entries, the
    boot after that stores ABORTED for the new entry, and selects the old slot,
    whose entry is untouched. *)
Theorem unconfirmed_update_rolls_back bs (st : boot_st F E) i :
  CONFIG_BOOTLOADER_APP_ROLLBACK_ENABLE cfg = true ->
  CONFIG_BOOTLOADER_APP_ANTI_ROLLBACK cfg = false ->
  ota_info_wf (ota_info bs) -> i = 0 \/ i = 1 -> app_count bs <> 0 ->
  let two := two_otadata (bt_flash st) (ota_info bs) in
  let old := otadata_at two (1 - i) in
  let new := otadata_at two i in
  bootloader_common_ota_select_valid old = true -> ota_state old = ESP_OTA_IMG_VALID ->
  bootloader_common_ota_select_valid new = true -> ota_state new = ESP_OTA_IMG_NEW ->
  ota_seq old < ota_seq new ->
  let '(st1, index1) := bootloader_utility_get_selected_boot_partition cfg bs st in
  let '(st2, index2) := bootloader_utility_get_selected_boot_partition cfg bs st1 in
  let two1 := two_otadata (bt_flash st1) (ota_info bs) in
  let two2 := two_otadata (bt_flash st2) (ota_info bs) in
  index1 = slot_of new (app_count bs) /\
  otadata_at two1 i = set_state ESP_OTA_IMG_PENDING_VERIFY new /\ otadata_at two1 (1 - i) = old /\
  index2 = slot_of old (app_count bs) /\
  otadata_at two2 i = set_state ESP_OTA_IMG_ABORTED new /\ otadata_at two2 (1 - i) = old.
Proof.
  intros Hrb Har Hp Hi Hc. cbn zeta. intros Hvo Hso Hvn Hsn Hlt.
  set (two := two_otadata (bt_flash st) (ota_info bs)) in *.
  pose proof (selection_choice bs st Har Hp) as H1'. cbn zeta in H1'. fold two in H1'.
  destruct (bootloader_utility_get_selected_boot_partition cfg bs st) as [st1 index1].
  destruct H1' as (H1' & _ & _).
  pose proof (selection_choice bs st1 Har Hp) as H2'. cbn zeta in H2'.
  destruct (bootloader_utility_get_selected_boot_partition cfg bs st1) as [st2 index2].
  destruct H2' as (H2' & _ & _).
  assert (Hao : abort_entry (otadata_at two (1 - i)) = otadata_at two (1 - i)).
  { unfold abort_entry. by rewrite Hso, Hrb. }
  rewrite (boot_choice_active bs two i) in H1'; [|done|done| |done|by intros _].
  2:{ intros s ->. unfold abort_entry. by rewrite Hsn, Hrb. }
  apply pair_equal_spec in H1' as [H1a H1b]. rewrite H1a in H2'.
  assert (Htry : try_entry (otadata_at two i)
                 = set_state ESP_OTA_IMG_PENDING_VERIFY (otadata_at two i)).
  { unfold try_entry. by rewrite Hsn, Hrb. }
  rewrite Htry, Hao in *. set (two1 := set_at _ i _) in *.
  assert (Hj : 1 - i = 0 \/ 1 - i = 1) by lia.
  assert (H1i : otadata_at two1 i = set_state ESP_OTA_IMG_PENDING_VERIFY (otadata_at two i)).
  { by apply set_at_same. }
  assert (H1o : otadata_at two1 (1 - i) = otadata_at two (1 - i)).
  { unfold two1. rewrite set_at_other by done. by apply set_at_same. }
  assert (Habt : abort_entry (otadata_at two1 i)
                 = set_state ESP_OTA_IMG_ABORTED (otadata_at two i)).
  { rewrite H1i. unfold abort_entry. by rewrite Hrb. }
  rewrite (boot_choice_active bs two1 (1 - i)) in H2'; [|done|done| |by rewrite H1o|].
  2:{ intros s ->. by rewrite H1o. }
  2:{ replace (1 - (1 - i)) with i by lia. rewrite Habt, set_state_valid; [done|done|].
      by apply valid_not_invalid. }
  apply pair_equal_spec in H2' as [H2a H2b]. rewrite H1o in *.
  replace (1 - (1 - i)) with i in H2a by lia.
  assert (Htry2 : try_entry (otadata_at two (1 - i)) = otadata_at two (1 - i)).
  { unfold try_entry. by rewrite Hso, andb_false_r. }
  rewrite Habt, Htry2 in H2a. rewrite H1a, H2a. repeat split; auto.
  - destruct Hi as [-> | ->]; done.
  - by apply set_at_same.
Qed.

(** ** The fallback order *)

(** The partition of [index] passes both tests of the loading loops. *)
Definition bootable (bs : bootloader_state_t) (st : boot_st F E) (index : Z) : bool :=
  let part := index_to_partition bs index in
  check_anti_rollback cfg (bt_flash st) (bt_efuse st) part
  && try_load_partition load_image_ok (bt_flash st) part.

Lemma try_indices_find bs l (st : boot_st F E) :
  try_indices cfg load_image_ok bs l st =
  match find (bootable bs st) l with
  | Some index => Some (set_actual_ota_seq cfg bs index st, load_image (index_to_partition bs index))
  | None => None
  end.
Proof.
  induction l as [|i l IH]; cbn [try_indices find]; [done|]. rewrite IH.
  destruct (pos_size (index_to_partition bs i) =? 0) eqn:Hz.
  - assert (bootable bs st i = false) as ->; [|done].
    unfold bootable, try_load_partition. by rewrite Hz, andb_false_r.
  - unfold bootable at 2. cbn zeta. by destruct (check_anti_rollback _ _ _ _ && _).
Qed.

Lemma find_app {A} (p : A -> bool) l1 l2 :
  find p (l1 ++ l2) = match find p l1 with Some x => Some x | None => find p l2 end.
Proof. induction l1 as [|x l1 IH]; cbn; [done|]. by destruct (p x). Qed.

(** Downwards from the selected slot to the factory app, then upwards. *)
Definition boot_order (bs : bootloader_state_t) (start_index : Z) : list Z :=
  down_indices start_index ++ up_indices start_index (s32 (app_count bs)).

Lemma load_boot_image_find bs start (st : boot_st F E) :
  start <> TEST_APP_INDEX ->
  snd (bootloader_utility_load_boot_image cfg load_image_ok bs start st) =
  match find (bootable bs st) (boot_order bs start) with
  | Some index => load_image (index_to_partition bs index)
  | None => if bootable bs st TEST_APP_INDEX then load_image (test bs) else bootloader_reset
  end.
Proof.
  intros Hs. unfold bootloader_utility_load_boot_image, boot_order.
  destruct (Z.eqb_spec start TEST_APP_INDEX); [done|].
  rewrite !try_indices_find, find_app.
  destruct (find _ (down_indices start)); [done|]. destruct (find _ (up_indices _ _)); [done|].
  unfold bootable, index_to_partition. change (TEST_APP_INDEX =? FACTORY_INDEX) with false.
  change (TEST_APP_INDEX =? TEST_APP_INDEX) with true. cbn match. by case_test.
Qed.

Lemma boot_order_elem bs start i :
  In i (boot_order bs start) <->
  (FACTORY_INDEX <= i <= start) \/ (start < i < s32 (app_count bs)).
Proof.
  unfold boot_order, down_indices, up_indices. rewrite in_app_iff, !in_map_iff. split.
  - intros [(k & <- & Hk%in_seq)|(k & <- & Hk%in_seq)]; [left|right]; lia.
  - intros [Hi|Hi]; [left; exists (Z.to_nat (start - i))|right; exists (Z.to_nat (i - start - 1))];
      (split; [lia|]); apply in_seq; lia.
Qed.

(** Loading with fallback, from any slot, the factory app or the invalid
    index: the image loaded is that of the first bootable index of the order
    "selected slot down to the factory app, then the slots above"; only when
    none of them is bootable the test app is tried, and the chip is reset only
    when that is not bootable either. Started from an existing index the order
    contains the factory app and every OTA slot, so that a reset means that no
    application is bootable. *)
Theorem boot_loads_first_bootable bs start (st : boot_st F E) :
  start <> TEST_APP_INDEX ->
  let outcome := snd (bootloader_utility_load_boot_image cfg load_image_ok bs start st) in
  (forall pre i post, boot_order bs start = pre ++ i :: post ->
     Forall (fun j => bootable bs st j = false) pre -> bootable bs st i = true ->
     outcome = load_image (index_to_partition bs i)) /\
  (Forall (fun j => bootable bs st j = false) (boot_order bs start) ->
     outcome = if bootable bs st TEST_APP_INDEX then load_image (test bs) else bootloader_reset) /\
  (outcome = bootloader_reset -> FACTORY_INDEX <= start ->
     forall i, i = TEST_APP_INDEX \/ FACTORY_INDEX <= i < s32 (app_count bs) ->
     bootable bs st i = false).
Proof.
  intros Hs. cbn zeta. rewrite load_boot_image_find by done. split; [|split].
  - intros pre i post -> Hpre Hi. rewrite find_app. cbn [find]. rewrite Hi.
    destruct (find _ pre) eqn:Hf; [|done]. apply find_some in Hf as [Hin Hb].
    rewrite List.Forall_forall in Hpre. by rewrite Hpre in Hb.
  - intros Hall. destruct (find _ _) eqn:Hf; [|done]. apply find_some in Hf as [Hin Hb].
    rewrite List.Forall_forall in Hall. by rewrite Hall in Hb.
  - intros Hr Hst i Hi. destruct (find _ _) eqn:Hf; [done|].
    destruct Hi as [-> |Hi]; [by case_test|].
    apply (find_none _ _ Hf). apply boot_order_elem. lia.
Qed.

End BootFacts.

(** ** The partition table *)

(** The entries [pre] seen before the end marker, [seen] being the bytes before
    them and [found] whether an MD5 entry was among these. *)
Definition table_prefix_ok (chip_size : Z) (md5 : list Z -> list Z) (pre : list (list Z))
    (seen : list Z) (found : Z) : Prop :=
  Forall (fun bs => e_magic (decode_entry bs) = ESP_PARTITION_MAGIC \/
                    e_magic (decode_entry bs) = ESP_PARTITION_MAGIC_MD5) pre /\
  Forall (fun bs => e_magic (decode_entry bs) = ESP_PARTITION_MAGIC ->
    e_offset (decode_entry bs) <= chip_size /\
    u32 (e_offset (decode_entry bs) + e_size (decode_entry bs)) <= chip_size) pre /\
  forall pre1 bs pre2, pre = pre1 ++ bs :: pre2 ->
    e_magic (decode_entry bs) = ESP_PARTITION_MAGIC_MD5 ->
    found = 0 /\ field bs ESP_PARTITION_MD5_OFFSET 16 = md5 (seen ++ concat pre1) /\
    Forall (fun b => e_magic (decode_entry b) = ESP_PARTITION_MAGIC) (pre1 ++ pre2).

Lemma table_prefix_magic chip_size md5 bs pre seen found :
  e_magic (decode_entry bs) = ESP_PARTITION_MAGIC ->
  e_offset (decode_entry bs) <= chip_size ->
  u32 (e_offset (decode_entry bs) + e_size (decode_entry bs)) <= chip_size ->
  table_prefix_ok chip_size md5 pre (seen ++ bs) found ->
  table_prefix_ok chip_size md5 (bs :: pre) seen found.
Proof.
  intros Hm Ho Hs (Hall & Hin & Hmd). split; [|split]; [by constructor; auto..|].
  intros [|b pre1] bs' pre2 [= <- ->] Hm'; [by rewrite Hm in Hm'|].
  destruct (Hmd pre1 bs' pre2 eq_refl Hm') as (? & ? & ?).
  rewrite <- app_assoc in *. cbn [concat app]. auto.
Qed.

Lemma table_prefix_md5 chip_size md5 bs pre seen :
  e_magic (decode_entry bs) = ESP_PARTITION_MAGIC_MD5 ->
  field bs ESP_PARTITION_MD5_OFFSET 16 = md5 seen ->
  table_prefix_ok chip_size md5 pre (seen ++ bs) 1 ->
  table_prefix_ok chip_size md5 (bs :: pre) seen 0.
Proof.
  intros Hm Hd (Hall & Hin & Hmd). split; [|split]; [by constructor; auto..| |].
  { constructor; [|done]. by rewrite Hm. }
  assert (Hno : Forall (fun b => e_magic (decode_entry b) = ESP_PARTITION_MAGIC) pre).
  { rewrite List.Forall_forall in *. intros b Hb. destruct (Hall b Hb) as [|Hb']; [done|].
    apply in_split in Hb as (l1 & l2 & ->). by destruct (Hmd l1 b l2 eq_refl Hb'). }
  intros [|b pre1] bs' pre2 [= <- ->] Hm'.
  - cbn [concat app]. by rewrite app_nil_r.
  - by destruct (Hmd pre1 bs' pre2 eq_refl Hm').
Qed.

Lemma table_verify_loop_sound chip_size md5 fuel raw seen np found n :
  table_verify_loop chip_size md5 fuel raw seen np found = (ESP_OK, n) -> found = 0 \/ found = 1 ->
  exists pre last rest,
    raw = pre ++ last :: rest /\ (length pre < fuel)%nat /\ e_magic (decode_entry last) = 0xFFFF /\
    n = np - found + length (filter (fun bs => e_magic (decode_entry bs) = ESP_PARTITION_MAGIC) pre) /\
    table_prefix_ok chip_size md5 pre seen found.
Proof.
  revert raw seen np found. induction fuel as [|fuel IH]; intros raw seen np found; cbn [table_verify_loop]; [done|].
  destruct raw as [|bs raw]; [done|]. intros Hr Hf. revert Hr.
  destruct (Z.eqb_spec (e_magic (decode_entry bs)) ESP_PARTITION_MAGIC) as [Hm|Hm].
  { destruct (_ || _) eqn:Hb; [done|]. to_prop. intros Hr.
    destruct (IH _ _ _ _ Hr Hf) as (pre & last & rest & -> & Hl & Hend & -> & Hok).
    exists (bs :: pre), last, rest. split; [done|]. split; [cbn; lia|]. split; [done|].
    rewrite filter_cons_True by done. cbn [length]. split; [lia|]. by apply table_prefix_magic. }
  destruct (Z.eqb_spec (e_magic (decode_entry bs)) ESP_PARTITION_MAGIC_MD5) as [Hd|Hd].
  { destruct (Z.eqb_spec found 0) as [-> |]; cbn [negb]; [|done].
    destruct (decide _) as [Hdig|]; [|done]. intros Hr.
    destruct (IH _ _ _ _ Hr ltac:(auto)) as (pre & last & rest & -> & Hl & Hend & -> & Hok).
    exists (bs :: pre), last, rest. split; [done|]. split; [cbn; lia|]. split; [done|].
    rewrite filter_cons_False by done. split; [lia|]. by apply table_prefix_md5. }
  destruct (_ && _) eqn:Hend; [|done]. to_prop. intros [= <-].
  exists [], bs, raw. split; [done|]. split; [cbn; lia|]. split; [done|]. split; [cbn; lia|].
  split; [constructor|split; [constructor|]]. by intros [] ?? [=].
Qed.

(** [esp_partition_table_verify] accepts a table only if an end marker
    occurs among the 96 entries it may look at, every entry before it carries a
    partition or an MD5 magic, every partition starts inside the chip and does
    not reach (modulo 2^32) past its end, and there is at most one MD5 entry,
    whose digest is that of all the bytes before it; the result counts the
    partitions. *)
Theorem table_verify_sound chip_size md5 table n :
  esp_partition_table_verify chip_size md5 table = (ESP_OK, n) ->
  exists pre last rest,
    table = pre ++ last :: rest /\ (length pre < ESP_PARTITION_TABLE_MAX_ENTRIES)%nat /\
    e_magic (decode_entry last) = 0xFFFF /\
    Forall (fun bs => e_magic (decode_entry bs) = ESP_PARTITION_MAGIC \/
                      e_magic (decode_entry bs) = ESP_PARTITION_MAGIC_MD5) pre /\
    Forall (fun bs => e_magic (decode_entry bs) = ESP_PARTITION_MAGIC ->
      e_offset (decode_entry bs) <= chip_size /\
      u32 (e_offset (decode_entry bs) + e_size (decode_entry bs)) <= chip_size) pre /\
    n = length (filter (fun bs => e_magic (decode_entry bs) = ESP_PARTITION_MAGIC) pre) /\
    forall pre1 bs pre2, pre = pre1 ++ bs :: pre2 ->
      e_magic (decode_entry bs) = ESP_PARTITION_MAGIC_MD5 ->
      field bs ESP_PARTITION_MD5_OFFSET 16 = md5 (concat pre1) /\
      Forall (fun b => e_magic (decode_entry b) = ESP_PARTITION_MAGIC) (pre1 ++ pre2).
Proof.
  unfold esp_partition_table_verify. generalize ESP_PARTITION_TABLE_MAX_ENTRIES. intros fuel Hv.
  destruct (table_verify_loop_sound _ _ _ _ _ _ _ _ Hv ltac:(auto))
    as (pre & last & rest & -> & Hl & Hend & -> & Hall & Hin & Hmd).
  exists pre, last, rest. split; [done|]. split; [exact Hl|]. split; [exact Hend|].
  split; [exact Hall|]. split; [exact Hin|]. split; [lia|].
  intros pre1 bs pre2 Heq Hm. by destruct (Hmd pre1 bs pre2 Heq Hm).
Qed.


(** The bounds check of [esp_partition_table_verify] is modulo 2^32: a
    table with a partition that reaches past the end of the chip is accepted. *)
Theorem table_verify_wraps :
  let entry := [0xAA; 0x50; 0; 0] ++ le_bytes 4 0x10000 ++ le_bytes 4 0xFFFF8000 ++ replicate 20 0 in
  let table := [entry; replicate 32 0xFF] in
  esp_partition_table_verify 0x400000 (fun _ => []) table = (ESP_OK, 1) /\
  e_offset (decode_entry entry) + e_size (decode_entry entry) > 0x400000.
Proof. split; vm_compute; reflexivity. Qed.

(** ** Concrete devices *)

Module BootExample.

#[export] Instance no_efuse : EfuseOps unit := {
  esp_efuse_check_secure_version _ _ := true;
  esp_efuse_update_secure_version e _ := (e, ESP_OK);
}.

Definition entry (seq st : Z) : esp_ota_select_entry_t :=
  let s := Select seq (replicate 20 0xFF) st 0 in
  Select seq (replicate 20 0xFF) st (bootloader_common_ota_select_crc s).

(** OTA data at 0xd000 with these two entries. *)
Definition device (e0 e1 : esp_ota_select_entry_t) : NorFlash := fun _ a =>
  if (0xd000 <=? a) && (a <? 0xd020) then nth (Z.to_nat (a - 0xd000)) (encode_select e0) 0xFF
  else if (0xe000 <=? a) && (a <? 0xe020) then nth (Z.to_nat (a - 0xe000)) (encode_select e1) 0xFF
  else 0xFF.

Definition cfg : boot_cfg := {|
  CONFIG_BOOTLOADER_APP_ROLLBACK_ENABLE := true; CONFIG_BOOTLOADER_APP_ANTI_ROLLBACK := false;
  CONFIG_BOOTLOADER_RESERVE_RTC_MEM := false; CONFIG_BOOTLOADER_SKIP_VALIDATE_IN_DEEP_SLEEP := false;
  RTC_CUSTOM_IN_CRC := false; boot_flash_encryption := false |}.

Definition table : bootloader_state_t :=
  BootState (Pos 0xd000 0x2000) no_pos no_pos
    ([Pos 0x10000 0x100000; Pos 0x110000 0x100000] ++ replicate 14 no_pos) 2.

Definition start (e0 e1 : esp_ota_select_entry_t) : boot_st NorFlash unit :=
  BootSt (device e0 e1) tt (Retain 0 0 0 false 0 0 [] 0) false.

End BootExample.

Lemma example_ota_info : ota_info_wf (ota_info BootExample.table).
Proof. repeat split; done. Qed.

Import BootExample.

Lemma unconfirmed_update_rolls_back_witness :
  let st := start (entry 1 ESP_OTA_IMG_VALID) (entry 2 ESP_OTA_IMG_NEW) in
  let '(st1, index1) := bootloader_utility_get_selected_boot_partition cfg table st in
  let '(st2, index2) := bootloader_utility_get_selected_boot_partition cfg table st1 in
  index1 = 1 /\ index2 = 0.
Proof.
  cbv zeta.
  assert (Ht : two_otadata (bt_flash (start (entry 1 ESP_OTA_IMG_VALID) (entry 2 ESP_OTA_IMG_NEW)))
                 (ota_info table) = (entry 1 ESP_OTA_IMG_VALID, entry 2 ESP_OTA_IMG_NEW))
    by (vm_compute; reflexivity).
  pose proof (unconfirmed_update_rolls_back cfg table
    (start (entry 1 ESP_OTA_IMG_VALID) (entry 2 ESP_OTA_IMG_NEW)) 1
    eq_refl eq_refl example_ota_info (or_intror eq_refl)) as Hw.
  cbv zeta in Hw. rewrite Ht in Hw.
  specialize (Hw ltac:(discriminate) ltac:(vm_compute; reflexivity) ltac:(vm_compute; reflexivity)
    ltac:(vm_compute; reflexivity) ltac:(vm_compute; reflexivity) ltac:(vm_compute; reflexivity)).
  destruct (bootloader_utility_get_selected_boot_partition cfg table _) as [st1 index1].
  destruct (bootloader_utility_get_selected_boot_partition cfg table st1) as [st2 index2].
  destruct Hw as (-> & _ & _ & -> & _). split; vm_compute; reflexivity.
Defined.

Lemma boot_selection_refines_choice_witness :
  let st := start (entry 3 ESP_OTA_IMG_PENDING_VERIFY) (entry 2 ESP_OTA_IMG_VALID) in
  snd (bootloader_utility_get_selected_boot_partition cfg table st) = 1.
Proof.
  cbv zeta.
  pose proof (boot_selection_refines_choice cfg table
    (start (entry 3 ESP_OTA_IMG_PENDING_VERIFY) (entry 2 ESP_OTA_IMG_VALID))
    eq_refl example_ota_info) as Hw.
  destruct (bootloader_utility_get_selected_boot_partition cfg table _) as [st1 index1].
  destruct Hw as (Hw & _). apply (f_equal snd) in Hw. cbn [snd] in *. rewrite Hw.
  vm_compute. reflexivity.
Defined.

(** Slot 1 does not load and slot 0 does: started at slot 1, slot 0 boots. *)
Lemma boot_loads_first_bootable_witness :
  let ok (_ : NorFlash) p := pos_offset p =? 0x10000 in
  let st := start (entry 1 ESP_OTA_IMG_VALID) (entry 2 ESP_OTA_IMG_VALID) in
  snd (bootloader_utility_load_boot_image cfg ok table 1 st) = load_image (Pos 0x10000 0x100000).
Proof.
  cbv zeta. apply (proj1 (boot_loads_first_bootable cfg (fun _ p => pos_offset p =? 0x10000)
    table 1 (start (entry 1 ESP_OTA_IMG_VALID) (entry 2 ESP_OTA_IMG_VALID)) ltac:(discriminate))
    [1] 0 [-1]); [reflexivity|repeat constructor|reflexivity].
Defined.

Lemma table_verify_sound_witness :
  let entry := [0xAA; 0x50; 0; 0] ++ le_bytes 4 0x10000 ++ le_bytes 4 0x100000 ++ replicate 20 0 in
  let table := [entry; replicate 32 0xFF] in
  exists pre last rest, table = pre ++ last :: rest /\ length pre = 1%nat.
Proof.
  cbv zeta.
  destruct (table_verify_sound 0x400000 (fun _ => [])
    [[0xAA; 0x50; 0; 0] ++ le_bytes 4 0x10000 ++ le_bytes 4 0x100000 ++ replicate 20 0;
     replicate 32 0xFF] 1 ltac:(vm_compute; reflexivity))
    as (pre & last & rest & Heq & _ & Hl & Hm & _). exists pre, last, rest. split; [exact Heq|].
  destruct pre as [|b [|b2 pre]]; [|done|].
  - injection Heq as <- <-. vm_compute in Hl. discriminate.
  - injection Heq as <- <- Heq. apply (f_equal length) in Heq. rewrite length_app in Heq.
    cbn in Heq. lia.
Defined.
