(* ===== verification/EspImage.v ===== *)
(** * Application images ([components/bootloader_support/src/esp_image_format.c])

    An image is a header, segments, padding that ends with a checksum, and a
    SHA-256 digest if the header says so. [image_load] checks it and, in the
    bootloader, loads its segments to RAM. The configuration is without secure
    boot, signed updates and anti-rollback. After the operations, [valid_image]
    says what an image is, and [image_load_spec] that a load accepts exactly the
    valid images whose segments may be loaded. *)

From S2P Require Import Prelude EspErr Flash Partition OtaData Bootloader.

#[local] Open Scope abort_scope.

Definition ESP_ERR_IMAGE_INVALID : esp_err_t := ESP_ERR_OTHER 0x2002.

Definition ESP_IMAGE_HEADER_MAGIC : Z := 0xE9.
Definition ESP_IMAGE_MAX_SEGMENTS : nat := 16.
Definition HASH_LEN : Z := 32.
Definition SIXTEEN_MB : Z := 0x1000000.
Definition ESP_ROM_CHECKSUM_INITIAL : Z := 0xEF.
Definition SPI_FLASH_MMU_PAGE_SIZE : Z := 0x10000.
Definition STACK_LOAD_HEADROOM : Z := 32768.

Inductive esp_image_load_mode_t := ESP_IMAGE_VERIFY | ESP_IMAGE_VERIFY_SILENT | ESP_IMAGE_LOAD | ESP_IMAGE_LOAD_NO_VALIDATE.

#[export] Instance load_mode_eq_dec : EqDecision esp_image_load_mode_t.
Proof. solve_decision. Defined.

(** [esp_image_header_t], less the fields nobody reads here. *)
Record esp_image_header_t := ImageHeader {
  magic : Z;
  segment_count : Z;
  entry_addr : Z;
  header_chip : image_header_chip;
  hash_appended : Z;
}.

Definition HEADER_SIZE : Z := 24.

Definition decode_image_header (bs : list Z) : esp_image_header_t :=
  ImageHeader (le_value (field bs 0 1)) (le_value (field bs 1 1)) (le_value (field bs 4 4))
    {| chip_id := le_value (field bs 12 2); min_chip_rev_full := le_value (field bs 15 2);
       max_chip_rev_full := le_value (field bs 17 2) |}
    (le_value (field bs 23 1)).

Record esp_image_segment_header_t := SegmentHeader { load_addr : Z; data_len : Z }.

Definition SEGMENT_HEADER_SIZE : Z := 8.

Definition decode_segment_header (bs : list Z) : esp_image_segment_header_t :=
  SegmentHeader (le_value (field bs 0 4)) (le_value (field bs 4 4)).

Record esp_image_metadata_t := Metadata {
  start_addr : Z;
  image : esp_image_header_t;
  segments : list esp_image_segment_header_t;
  segment_data : list Z;
  image_len : Z;
  image_digest : list Z;
}.

(** [bzero] of the structure: its arrays have [ESP_IMAGE_MAX_SEGMENTS] places. *)
Definition zero_metadata : esp_image_metadata_t :=
  Metadata 0 (decode_image_header (replicate 24 0)) (replicate ESP_IMAGE_MAX_SEGMENTS (SegmentHeader 0 0))
    (replicate ESP_IMAGE_MAX_SEGMENTS 0) 0 (replicate 32 0).

Definition set_len (n : Z) (d : esp_image_metadata_t) : esp_image_metadata_t :=
  Metadata (start_addr d) (image d) (segments d) (segment_data d) n (image_digest d).
Definition set_segment (i : nat) (h : esp_image_segment_header_t) (d : esp_image_metadata_t) : esp_image_metadata_t :=
  Metadata (start_addr d) (image d) (<[i := h]> (segments d)) (segment_data d) (image_len d) (image_digest d).
Definition set_segment_data (i : nat) (a : Z) (d : esp_image_metadata_t) : esp_image_metadata_t :=
  Metadata (start_addr d) (image d) (segments d) (<[i := a]> (segment_data d)) (image_len d) (image_digest d).
Definition set_digest (bs : list Z) (d : esp_image_metadata_t) : esp_image_metadata_t :=
  Metadata (start_addr d) (image d) (segments d) (segment_data d) (image_len d) bs.

(** The chip's memory: which addresses the cache maps, what RAM is what, and
    the linker's symbols of the bootloader. Regions are half open. *)
Record memory_map := {
  SOC_IROM : Z * Z;
  SOC_DROM : Z * Z;
  rtc_memory : list (Z * Z);                  (** RTC memory that survives a deep sleep *)
  other_memory : list (Z * Z);                (** RTC and TCM memory that is never in the way *)
  SOC_DRAM : Z * Z;
  SOC_IRAM : Z * Z;
  SOC_DIRAM_DRAM : Z * Z;
  SOC_DIRAM_IRAM : Z * Z;
  esp_ptr_diram_dram_to_iram : Z -> Z;
  esp_ptr_diram_iram_to_dram : Z -> Z;
  stack_pointer : Z;
  SOC_ROM_STACK_START : Z;
  bootloader_dram : Z * Z;                    (** [_dram_start], [_dram_end] *)
  loader_text : Z * Z;
}.

Definition within (r : Z * Z) (a : Z) : bool := (fst r <=? a) && (a <? snd r).

(** What the build and the chip give. *)
Record image_env := {
  BOOTLOADER_BUILD : bool;
  chip : chip_env;
  mem : memory_map;
  deep_sleep_reset : bool;
  esp_cpu_dbgr_is_attached : bool;
  ESP_BOOTLOADER_OFFSET : Z;
  bootloader_mmap_get_free_pages : Z;
  random_words : Z * Z;                       (** [bootloader_fill_random], until neither is 0 *)
  sha256_allocated : bool;
  sha256 : list Z -> list Z;
}.

Section Image.
Context {F : Type} `{FlashOps F} (env : image_env).

(** ** Reading flash *)

(** Encrypted flash reads as its decrypted contents. *)
Definition bootloader_flash_read (f : F) (src_addr size : Z) : esp_err_t * list Z :=
  if BOOTLOADER_BUILD env then
    if negb (Z.land src_addr 3 =? 0) then (ESP_FAIL, [])
    else if negb (Z.land size 3 =? 0) then (ESP_FAIL, [])
    else (ESP_OK, flash_bytes f chip0 src_addr (Z.to_nat size))
  else esp_flash_read f chip0 src_addr size.

(** A mapping is aligned to pages; [None] is a null pointer. In the bootloader,
    which sets up the MMU itself, [spi_flash_mmap] stands for that. *)
Definition bootloader_mmap (f : F) (src_addr size : Z) : option (list Z) :=
  let src_page := src_addr - src_addr mod SPI_FLASH_MMU_PAGE_SIZE in
  if is_ok (spi_flash_mmap f src_page (u32 (size + (src_addr - src_page))))
  then Some (flash_bytes f chip0 src_addr (Z.to_nat size)) else None.

(** ** Where segments may be loaded *)

Definition should_map (load_addr : Z) : bool := within (SOC_IROM (mem env)) load_addr || within (SOC_DROM (mem env)) load_addr.

Definition should_load (load_addr : Z) : bool :=
  let load_rtc_memory := negb (deep_sleep_reset env) in
  if should_map load_addr then false
  else if load_addr <? 0x10000000 then false
  else if negb load_rtc_memory && existsb (fun r => within r load_addr) (rtc_memory (mem env)) then false
  else true.

(** The assertions need both intervals to be non-empty. *)
Definition bootloader_util_regions_overlap (r1 r2 : Z * Z) : option bool :=
  assert! fst r1 <? snd r1;;
  assert! fst r2 <? snd r2;;
  Some ((fst r2 <? snd r1) && (fst r1 <? snd r2)).

(** The same memory in the other address space, for the part that has one. *)
Definition mirrored (r : Z * Z) (convert : Z -> Z) (load_addr load_end : Z) : Z * Z :=
  let a := if within r load_addr then convert load_addr else convert (fst r) in
  let b := if within r (load_end - 1) then convert load_end else convert (snd r) in
  if b <? a then (b, a) else (a, b).

(** The checks of one address space, and the range to check in the other. *)
Definition verify_load_region (load_addr load_end : Z) (no_recurse : bool) : option (bool * option (Z * Z)) :=
  let m := mem env in
  let both r := within r load_addr && within r (load_end - 1) in
  let r := (load_addr, load_end) in
  if load_end =? load_addr then Some (true, None)
  else
    assert! load_addr <? load_end;;
    if both (SOC_DRAM m) then
      let! stack := bootloader_util_regions_overlap (stack_pointer m - STACK_LOAD_HEADROOM, SOC_ROM_STACK_START m) r in
      if stack : bool then Some (false, None)
      else
        let! static_data := bootloader_util_regions_overlap (bootloader_dram m) r in
        if static_data : bool then Some (false, None)
        else
          let! diram := (if no_recurse then Some false else bootloader_util_regions_overlap (SOC_DIRAM_DRAM m) r) in
          Some (true, if diram : bool then Some (mirrored (SOC_DIRAM_DRAM m) (esp_ptr_diram_dram_to_iram m) load_addr load_end) else None)
    else if both (SOC_IRAM m) then
      let! loader := bootloader_util_regions_overlap (loader_text m) r in
      if loader : bool then Some (false, None)
      else
        let! diram := (if no_recurse then Some false else bootloader_util_regions_overlap (SOC_DIRAM_IRAM m) r) in
        Some (true, if diram : bool then Some (mirrored (SOC_DIRAM_IRAM m) (esp_ptr_diram_iram_to_dram m) load_addr load_end) else None)
    else Some (existsb both (other_memory m), None).

Definition verify_load_addresses (load_addr load_end : Z) : option bool :=
  let! r := verify_load_region load_addr load_end false in
  match r with
  | (true, Some other) => let! r := verify_load_region (fst other) (snd other) true in Some (fst r)
  | (ok, _) => Some ok
  end.

(** ** Checking and loading *)

(** What a load works on: the metadata, the digest's data so far ([None] is a
    null handle), the checksum ([None] is a null pointer), RAM, and the static
    [ram_obfs_value]. *)
Record load_state := LoadState {
  metadata : esp_image_metadata_t;
  sha_handle : option (list Z);
  checksum : option Z;
  ram : gmap Z Z;
  ram_obfs_value : Z * Z;
}.

Definition with_metadata (d : esp_image_metadata_t) (s : load_state) : load_state :=
  LoadState d (sha_handle s) (checksum s) (ram s) (ram_obfs_value s).
Definition with_sha (h : option (list Z)) (s : load_state) : load_state :=
  LoadState (metadata s) h (checksum s) (ram s) (ram_obfs_value s).

Definition bootloader_sha256_data (bs : list Z) (h : option (list Z)) : option (list Z) :=
  match h with Some d => Some (d ++ bs) | None => None end.

Definition verify_image_header (h : esp_image_header_t) : esp_err_t :=
  if negb (magic h =? ESP_IMAGE_HEADER_MAGIC) then ESP_ERR_IMAGE_INVALID
  else
    let err := bootloader_common_check_chip_validity (chip env) (header_chip h) ESP_IMAGE_APPLICATION in
    if negb (is_ok err) then err
    else if ESP_IMAGE_MAX_SEGMENTS <? segment_count h then ESP_ERR_IMAGE_INVALID
    else ESP_OK.

(** [want_sha]: a place for the handle was given. *)
Definition process_image_header (f : F) (part_offset : Z) (want_sha do_verify : bool) (s : load_state) : esp_err_t * load_state :=
  let s := with_metadata zero_metadata s in
  match bootloader_flash_read f part_offset HEADER_SIZE with
  | (ESP_OK, bs) =>
      let h := decode_image_header bs in
      let set_image len s := with_metadata (Metadata part_offset h (segments zero_metadata) (segment_data zero_metadata) len
                                              (image_digest zero_metadata)) s in
      let s := set_image 0 s in
      if do_verify then
        if negb (hash_appended h =? 0) && want_sha && negb (sha256_allocated env) then (ESP_ERR_NO_MEM, s)
        else
          let s := if negb (hash_appended h =? 0) && want_sha then with_sha (Some bs) s else s in
          match verify_image_header h with
          | ESP_OK => (ESP_OK, set_image HEADER_SIZE s)
          | err => (err, s)
          end
      else (ESP_OK, set_image HEADER_SIZE s)
  | (err, _) => (err, with_metadata (Metadata part_offset (image zero_metadata) (segments zero_metadata)
                                       (segment_data zero_metadata) 0 (image_digest zero_metadata)) s)
  end.

Definition verify_segment_header (h : esp_image_segment_header_t) (segment_data_offs : Z) : esp_err_t :=
  if negb (Z.land (data_len h) 3 =? 0) || (SIXTEEN_MB <=? data_len h) then ESP_ERR_IMAGE_INVALID
  else if should_map (load_addr h) &&
          negb (segment_data_offs mod SPI_FLASH_MMU_PAGE_SIZE =? load_addr h mod SPI_FLASH_MMU_PAGE_SIZE)
  then ESP_ERR_IMAGE_INVALID else ESP_OK.

Fixpoint write_ram (a : Z) (bs : list Z) (m : gmap Z Z) : gmap Z Z :=
  match bs with [] => m | b :: bs => write_ram (a + 1) bs (<[a := b]> m) end.

Definition read_ram (a : Z) (n : nat) (m : gmap Z Z) : list Z := (fun i => default 0 (m !! (a + Z.of_nat i))) <$> seq 0 n.

Definition obfs_word (obfs : Z * Z) (w_i : Z) : Z := if Z.odd w_i then fst obfs else snd obfs.

(** The loop over the words of the mapped data, from byte [i] on. *)
Fixpoint word_loop (n : nat) (i : Z) (data : list Z) (load_addr : Z) (do_load : bool) (s : load_state) : load_state :=
  match n with
  | O => s
  | S n =>
      let w := le_value (field data (Z.to_nat i) 4) in
      let w_i := i / 4 in
      let ck := match checksum s with Some c => Some (Z.lxor c w) | None => None end in
      let m := if BOOTLOADER_BUILD env && do_load
               then write_ram (load_addr + i) (le_bytes 4 (Z.lxor w (obfs_word (ram_obfs_value s) w_i))) (ram s) else ram s in
      let sha := if i mod 1024 =? 0
                 then bootloader_sha256_data (field data (Z.to_nat i) (Z.to_nat (Z.min 1024 (length data - i)))) (sha_handle s)
                 else sha_handle s in
      word_loop n (i + 4) data load_addr do_load (LoadState (metadata s) sha ck m (ram_obfs_value s))
  end.

Definition set_up_obfs (s : load_state) : load_state :=
  if BOOTLOADER_BUILD env && ((fst (ram_obfs_value s) =? 0) || (snd (ram_obfs_value s) =? 0))
  then LoadState (metadata s) (sha_handle s) (checksum s) (ram s) (random_words env) else s.

Definition is_null {A} (p : option A) : bool := match p with None => true | Some _ => false end.

Definition process_segment_data (f : F) (load_addr data_addr data_len : Z) (do_load : bool) (s : load_state) :
    esp_err_t * load_state :=
  if negb do_load && is_null (checksum s) then (ESP_OK, s)
  else
    match bootloader_mmap f data_addr data_len with
    | None => (ESP_FAIL, s)
    | Some data =>
        if is_null (checksum s) && is_null (sha_handle s) then
          (ESP_OK, LoadState (metadata s) (sha_handle s) (checksum s) (write_ram load_addr data (ram s)) (ram_obfs_value s))
        else (ESP_OK, word_loop (Z.to_nat (data_len / 4)) 0 data load_addr do_load (set_up_obfs s))
    end.

(** The loop over the parts of a segment that can be mapped at once; [None]
    when it does not end. *)
Fixpoint segment_loop (fuel : nat) (f : F) (load_addr data_addr data_len_remain : Z) (do_load : bool) (s : load_state) :
    option (esp_err_t * load_state) :=
  if data_len_remain =? 0 then Some (ESP_OK, s)
  else
    match fuel with
    | O => None
    | S fuel =>
        let offset_page := if Z.land data_addr (SPI_FLASH_MMU_PAGE_SIZE - 1) =? 0 then 0 else 1 in
        let n := Z.min data_len_remain (u32 (u32 (bootloader_mmap_get_free_pages env - offset_page) * SPI_FLASH_MMU_PAGE_SIZE)) in
        match process_segment_data f load_addr data_addr n do_load s with
        | (ESP_OK, s) => segment_loop fuel f load_addr (u32 (data_addr + n)) (data_len_remain - n) do_load s
        | (err, s) => Some (err, s)
        end
    end.

(** A segment is less than 16 MB, 256 pages. *)
Definition SEGMENT_FUEL : nat := 300.

Definition process_segment (f : F) (index : nat) (flash_addr : Z) (do_load : bool) (s : load_state) :
    option (esp_err_t * load_state) :=
  match bootloader_flash_read f flash_addr SEGMENT_HEADER_SIZE with
  | (ESP_OK, bs) =>
      let h := decode_segment_header bs in
      let s := with_sha (bootloader_sha256_data bs (sha_handle s)) (with_metadata (set_segment index h (metadata s)) s) in
      let data_addr := u32 (flash_addr + SEGMENT_HEADER_SIZE) in
      match verify_segment_header h data_addr with
      | ESP_OK =>
          if negb (data_len h mod 4 =? 0) then Some (ESP_ERR_IMAGE_INVALID, s)
          else
            let do_load := do_load && should_load (load_addr h) in
            let! fits := (if BOOTLOADER_BUILD env && do_load && (0 <? data_len h)
                          then verify_load_addresses (s32 (load_addr h)) (s32 (u32 (load_addr h + data_len h))) else Some true) in
            if negb fits then Some (ESP_ERR_IMAGE_INVALID, s)
            else segment_loop SEGMENT_FUEL f (load_addr h) data_addr (data_len h) do_load s
      | err => Some (err, s)
      end
  | (err, _) => Some (err, s)
  end.

(** [i] is below [ESP_IMAGE_MAX_SEGMENTS] or the access is outside the arrays. *)
Fixpoint segments_loop (n : nat) (f : F) (i : nat) (next_addr : Z) (do_load : bool) (s : load_state) :
    option (esp_err_t * Z * load_state) :=
  match n with
  | O => Some (ESP_OK, next_addr, s)
  | S n =>
      assert! (i <? ESP_IMAGE_MAX_SEGMENTS)%nat;;
      let! r := process_segment f i next_addr do_load s in
      match r with
      | (ESP_OK, s) =>
          let next_addr := u32 (next_addr + SEGMENT_HEADER_SIZE) in
          let s := with_metadata (set_segment_data i next_addr (metadata s)) s in
          segments_loop n f (S i)
            (u32 (next_addr + data_len (default (SegmentHeader 0 0) (segments (metadata s) !! i)))) do_load s
      | (err, s) => Some (err, next_addr, s)
      end
  end.

Definition process_segments (f : F) (do_load : bool) (s : load_state) : option (esp_err_t * load_state) :=
  let start_segments := u32 (start_addr (metadata s) + image_len (metadata s)) in
  let! r := segments_loop (Z.to_nat (segment_count (image (metadata s)))) f 0 start_segments do_load s in
  match r with
  | (ESP_OK, end_addr, s) =>
      if end_addr <? start_addr (metadata s) then Some (ESP_ERR_IMAGE_INVALID, s)
      else Some (ESP_OK, with_metadata (set_len (u32 (image_len (metadata s) + (end_addr - start_segments))) (metadata s)) s)
  | (err, _, s) => Some (err, s)
  end.

Definition process_checksum (f : F) (checksum_word : Z) (skip_check_checksum : bool) (s : load_state) : esp_err_t * load_state :=
  let unpadded_length := image_len (metadata s) in
  let length_ := u32 (unpadded_length + 1) in
  let length_ := Z.land (u32 (length_ + 15)) (u32 (Z.lnot 15)) in
  let length_ := u32 (length_ - unpadded_length) in
  let read :=
    if negb skip_check_checksum || negb (is_null (sha_handle s))
    then bootloader_flash_read f (u32 (start_addr (metadata s) + unpadded_length)) length_
    else (ESP_OK, replicate 16 0) in
  match read with
  | (ESP_OK, buf) =>
      let read_checksum := nth (Z.to_nat (length_ - 1)) buf 0 in
      let calc_checksum :=
        u8 (Z.lxor (Z.lxor (Z.lxor (Z.shiftr checksum_word 24) (Z.shiftr checksum_word 16)) (Z.shiftr checksum_word 8)) checksum_word) in
      if negb skip_check_checksum && negb (calc_checksum =? read_checksum) then (ESP_ERR_IMAGE_INVALID, s)
      else (ESP_OK, with_metadata (set_len (u32 (unpadded_length + length_)) (metadata s))
                      (with_sha (bootloader_sha256_data buf (sha_handle s)) s))
  | (err, _) => (err, s)
  end.

Definition process_appended_hash_and_sig (f : F) (part_len : Z) (do_verify : bool) (s : load_state) : esp_err_t * load_state :=
  let appended := negb (hash_appended (image (metadata s)) =? 0) in
  let read :=
    if appended && do_verify
    then bootloader_flash_read f (u32 (start_addr (metadata s) + image_len (metadata s))) HASH_LEN
    else (ESP_OK, image_digest (metadata s)) in
  match read with
  | (ESP_OK, digest) =>
      let d := set_digest digest (metadata s) in
      let d := if appended then set_len (u32 (image_len d + HASH_LEN)) d else d in
      let s := with_metadata d s in
      if part_len <? image_len d then (ESP_ERR_IMAGE_INVALID, s) else (ESP_OK, s)
  | (err, _) => (err, s)
  end.

(** Finishing frees the handle. *)
Definition verify_simple_hash (s : load_state) : esp_err_t :=
  match sha_handle s with
  | Some data =>
      if bool_decide (image_digest (metadata s) = sha256 env data) then ESP_OK else ESP_ERR_IMAGE_INVALID
  | None => ESP_OK
  end.

(** The words [j], [j+1], ... of a loaded segment. *)
Fixpoint deobfuscate_words (n : nat) (j : Z) (load_addr : Z) (s : load_state) : load_state :=
  match n with
  | O => s
  | S n =>
      let a := load_addr + 4 * j in
      let w := Z.lxor (le_value (read_ram a 4 (ram s))) (obfs_word (ram_obfs_value s) j) in
      deobfuscate_words n (j + 1) load_addr
        (LoadState (metadata s) (sha_handle s) (checksum s) (write_ram a (le_bytes 4 w) (ram s)) (ram_obfs_value s))
  end.

Fixpoint deobfuscate (hs : list esp_image_segment_header_t) (s : load_state) : load_state :=
  match hs with
  | [] => s
  | h :: hs =>
      deobfuscate hs (if should_load (load_addr h) then deobfuscate_words (Z.to_nat (data_len h / 4)) 0 (load_addr h) s else s)
  end.

(** The end of an unsuccessful load: nothing of the image is handed out. *)
Definition load_failed (err : esp_err_t) (s : load_state) : esp_err_t * load_state :=
  (if is_ok err then ESP_ERR_IMAGE_INVALID else err, with_sha None (with_metadata zero_metadata s)).

(** [m] and [obfs] are RAM and [ram_obfs_value] before the call. *)
Definition image_load (f : F) (mode : esp_image_load_mode_t) (part : esp_partition_pos_t) (m : gmap Z Z) (obfs : Z * Z) :
    option (esp_err_t * load_state) :=
  let do_load := BOOTLOADER_BUILD env && (bool_decide (mode = ESP_IMAGE_LOAD) || bool_decide (mode = ESP_IMAGE_LOAD_NO_VALIDATE)) in
  let do_verify := negb (BOOTLOADER_BUILD env) || negb (bool_decide (mode = ESP_IMAGE_LOAD_NO_VALIDATE)) in
  let verify_sha := negb (pos_offset part =? ESP_BOOTLOADER_OFFSET env) && do_verify in
  let s := LoadState zero_metadata None (if do_verify then Some ESP_ROM_CHECKSUM_INITIAL else None) m obfs in
  if SIXTEEN_MB <? pos_size part then Some (load_failed ESP_ERR_INVALID_ARG s)
  else
    match process_image_header f (pos_offset part) verify_sha do_verify s with
    | (ESP_OK, s) =>
        let! r := process_segments f do_load s in
        match r with
        | (ESP_OK, s) =>
            let skip_check_checksum := negb do_verify || esp_cpu_dbgr_is_attached env in
            match process_checksum f (default ESP_ROM_CHECKSUM_INITIAL (checksum s)) skip_check_checksum s with
            | (ESP_OK, s) =>
                match process_appended_hash_and_sig f (pos_size part) do_verify s with
                | (ESP_OK, s) =>
                    let err := if verify_sha && negb (is_null (sha_handle s)) && negb (esp_cpu_dbgr_is_attached env)
                               then verify_simple_hash s else ESP_OK in
                    let s := with_sha None s in
                    if negb (is_ok err) then Some (load_failed err s)
                    else if BOOTLOADER_BUILD env && do_load && negb (fst (ram_obfs_value s) =? 0) && negb (snd (ram_obfs_value s) =? 0)
                    then Some (ESP_OK, deobfuscate (take (Z.to_nat (segment_count (image (metadata s)))) (segments (metadata s))) s)
                    else Some (ESP_OK, s)
                | (err, s) => Some (load_failed err s)
                end
            | (err, s) => Some (load_failed err s)
            end
        | (err, s) => Some (load_failed err s)
        end
    | (err, s) => Some (load_failed err s)
    end.

Definition esp_image_verify (f : F) (mode : esp_image_load_mode_t) (part : esp_partition_pos_t) m obfs := image_load f mode part m obfs.

(** [skip]: the configuration and the reset skip the validation. *)
Definition bootloader_load_image (f : F) (skip : bool) (part : esp_partition_pos_t) m obfs : option (esp_err_t * load_state) :=
  if negb (BOOTLOADER_BUILD env) then Some (ESP_FAIL, LoadState zero_metadata None None m obfs)
  else image_load f (if skip then ESP_IMAGE_LOAD_NO_VALIDATE else ESP_IMAGE_LOAD) part m obfs.

Definition bootloader_load_image_no_verify (f : F) (part : esp_partition_pos_t) m obfs : option (esp_err_t * load_state) :=
  if BOOTLOADER_BUILD env then image_load f ESP_IMAGE_LOAD_NO_VALIDATE part m obfs
  else Some (ESP_FAIL, LoadState zero_metadata None None m obfs).

Definition esp_image_get_metadata (f : F) (part : esp_partition_pos_t) : option (esp_err_t * esp_image_metadata_t) :=
  if SIXTEEN_MB <? pos_size part then Some (ESP_ERR_INVALID_ARG, zero_metadata)
  else
    let out r := Some (fst r, metadata (snd r)) in
    match process_image_header f (pos_offset part) false false (LoadState zero_metadata None None ∅ (0, 0)) with
    | (ESP_OK, s) =>
        let! r := process_segments f false s in
        match r with
        | (ESP_OK, s) =>
            match process_checksum f 0 true s with
            | (ESP_OK, s) => out (process_appended_hash_and_sig f (pos_size part) true s)
            | r => out r
            end
        | r => out r
        end
    | r => out r
    end.

(** The bootloader's own image ends where the partition table begins. *)
Definition esp_image_verify_bootloader_data (f : F) (ESP_PARTITION_TABLE_OFFSET : Z) m obfs : option (esp_err_t * load_state) :=
  esp_image_verify f ESP_IMAGE_VERIFY
    (Pos (ESP_BOOTLOADER_OFFSET env) (ESP_PARTITION_TABLE_OFFSET - ESP_BOOTLOADER_OFFSET env)) m obfs.

Definition esp_image_verify_bootloader (f : F) (ESP_PARTITION_TABLE_OFFSET : Z) m obfs : option (esp_err_t * Z) :=
  let! r := esp_image_verify_bootloader_data f ESP_PARTITION_TABLE_OFFSET m obfs in
  Some (fst r, if is_ok (fst r) then image_len (metadata (snd r)) else 0).

End Image.

(** The size that the header's field names, 0 if it is unknown. *)
Definition esp_image_get_flash_size (app_flash_size : Z) : Z :=
  match app_flash_size with
  | 0 => 1 * 1024 * 1024
  | 1 => 2 * 1024 * 1024
  | 2 => 4 * 1024 * 1024
  | 3 => 8 * 1024 * 1024
  | 4 => 16 * 1024 * 1024
  | 5 => 32 * 1024 * 1024
  | 6 => 64 * 1024 * 1024
  | 7 => 128 * 1024 * 1024
  | _ => 0
  end.

(** ** What an image is *)

Section Spec.
Context {F : Type} `{FlashOps F} (env : image_env).

(** The segments that [n] headers from [a] on describe: where the data of each
    is, and its header. *)
Fixpoint image_segments (f : F) (n : nat) (a : Z) : list (Z * esp_image_segment_header_t) :=
  match n with
  | O => []
  | S n =>
      let h := decode_segment_header (flash_bytes f chip0 a 8) in
      (a + 8, h) :: image_segments f n (a + 8 + data_len h)
  end.

Definition segment_bytes (f : F) (seg : Z * esp_image_segment_header_t) : list Z :=
  flash_bytes f chip0 (fst seg) (Z.to_nat (data_len (snd seg))).

Definition segment_ok (seg : Z * esp_image_segment_header_t) : Prop :=
  data_len (snd seg) mod 4 = 0 /\ data_len (snd seg) < SIXTEEN_MB /\
  (should_map env (load_addr (snd seg)) = true ->
   fst seg mod SPI_FLASH_MMU_PAGE_SIZE = load_addr (snd seg) mod SPI_FLASH_MMU_PAGE_SIZE).

Definition segments_size (segs : list (Z * esp_image_segment_header_t)) : Z :=
  foldr (fun seg n => 8 + data_len (snd seg) + n) 0 segs.

(** Up to the checksum, which ends a block of 16 bytes. *)
Definition checked_size (segs : list (Z * esp_image_segment_header_t)) : Z :=
  (HEADER_SIZE + segments_size segs) / 16 * 16 + 16.

Definition image_header (f : F) (part : esp_partition_pos_t) : esp_image_header_t :=
  decode_image_header (flash_bytes f chip0 (pos_offset part) 24).

Definition segments_of (f : F) (part : esp_partition_pos_t) : list (Z * esp_image_segment_header_t) :=
  image_segments f (Z.to_nat (segment_count (image_header f part))) (pos_offset part + HEADER_SIZE).

Definition image_size (f : F) (part : esp_partition_pos_t) : Z :=
  checked_size (segments_of f part) + if hash_appended (image_header f part) =? 0 then 0 else HASH_LEN.

(** A valid image in a partition. *)
Record valid_image (f : F) (part : esp_partition_pos_t) : Prop := ValidImage {
  vi_magic : magic (image_header f part) = ESP_IMAGE_HEADER_MAGIC;
  vi_chip : bootloader_common_check_chip_validity (chip env) (header_chip (image_header f part)) ESP_IMAGE_APPLICATION = ESP_OK;
  vi_count : segment_count (image_header f part) <= ESP_IMAGE_MAX_SEGMENTS;
  vi_segments : Forall segment_ok (segments_of f part);
  vi_checksum :
    flash_byte f chip0 (pos_offset part + checked_size (segments_of f part) - 1) =
    foldl Z.lxor ESP_ROM_CHECKSUM_INITIAL (segments_of f part ≫= segment_bytes f);
  vi_digest : hash_appended (image_header f part) <> 0 ->
    flash_bytes f chip0 (pos_offset part + checked_size (segments_of f part)) 32 =
    sha256 env (flash_bytes f chip0 (pos_offset part) (Z.to_nat (checked_size (segments_of f part))));
  vi_fits : image_size f part <= pos_size part;
}.

End Spec.

(** ** Words and bytes *)

Fixpoint xor_words (n : nat) (c : Z) (bs : list Z) : Z :=
  match n with O => c | S n => xor_words n (Z.lxor c (le_value (take 4 bs))) (drop 4 bs) end.

Definition byte_fold (c : Z) : Z :=
  u8 (Z.lxor (Z.lxor (Z.lxor (Z.shiftr c 24) (Z.shiftr c 16)) (Z.shiftr c 8)) c).

Lemma byte_fold_lxor a b : byte_fold (Z.lxor a b) = Z.lxor (byte_fold a) (byte_fold b).
Proof.
  unfold byte_fold. rewrite <- wrap_lxor by lia. f_equal. rewrite !Z.shiftr_lxor.
  apply Z.bits_inj'. intros i Hi. rewrite !Z.lxor_spec.
  repeat match goal with |- context [Z.testbit (Z.shiftr ?x ?n) i] => destruct (Z.testbit (Z.shiftr x n) i) end;
    by destruct (Z.testbit a i), (Z.testbit b i).
Qed.

Lemma byte_fold_byte b : in_range 8 b -> byte_fold b = b.
Proof.
  intros Hb. unfold byte_fold. unfold in_range in Hb. change (2 ^ 8) with 256 in Hb.
  rewrite !Z.shiftr_div_pow2 by lia. rewrite !(Z.div_small b) by lia.
  rewrite !Z.lxor_0_l. apply wrap_small. unfold in_range. lia.
Qed.

Lemma byte_fold_shift b n : in_range 8 b -> n = 8 \/ n = 16 \/ n = 24 -> byte_fold (b * 2 ^ n) = b.
Proof.
  intros Hb Hn. unfold byte_fold, wrap. unfold in_range in Hb. change (2 ^ 8) with 256 in *.
  apply Z.bits_inj'. intros i Hi. destruct (Z.lt_ge_cases i 8) as [H8|H8].
  - change 256 with (2 ^ 8). rewrite Z.mod_pow2_bits_low by lia. rewrite !Z.lxor_spec, !Z.shiftr_spec, !Z.mul_pow2_bits by lia.
    assert (Hneg : forall k, k < 0 -> Z.testbit b k = false) by (intros; by apply Z.testbit_neg_r).
    assert (Hhigh : forall k, 8 <= k -> Z.testbit b k = false) by (intros; apply (in_range_testbit 8); [exact Hb|lia|lia]).
    destruct Hn as [-> | [-> | ->]].
    + rewrite (Hhigh (i + 24 - 8)), (Hhigh (i + 16 - 8)), (Hneg (i - 8)) by lia. replace (i + 8 - 8) with i by lia. by destruct (Z.testbit b i).
    + rewrite (Hhigh (i + 24 - 16)), (Hneg (i + 8 - 16)), (Hneg (i - 16)) by lia. replace (i + 16 - 16) with i by lia. by destruct (Z.testbit b i).
    + rewrite (Hneg (i + 16 - 24)), (Hneg (i + 8 - 24)), (Hneg (i - 24)) by lia. replace (i + 24 - 24) with i by lia. by destruct (Z.testbit b i).
  - change 256 with (2 ^ 8). rewrite Z.mod_pow2_bits_high by lia. symmetry. apply (in_range_testbit 8); [exact Hb|lia|lia].
Qed.

Lemma add_byte_lxor b x : in_range 8 b -> b + 256 * x = Z.lxor b (x * 2 ^ 8).
Proof.
  intros Hb. rewrite <- Z.add_nocarry_lxor; [lia|]. apply Z.bits_inj'. intros i Hi. rewrite Z.land_spec, Z.bits_0.
  destruct (Z.lt_ge_cases i 8).
  - rewrite Z.mul_pow2_bits_low by lia. apply andb_false_r.
  - by rewrite (in_range_testbit 8 b i) by (done || lia).
Qed.

(** The word checksum, folded to a byte, is the byte checksum. *)
Lemma byte_fold_word bs : Forall (in_range 8) bs -> length bs = 4%nat -> byte_fold (le_value bs) = foldl Z.lxor 0 bs.
Proof.
  intros Hb Hl. destruct bs as [|b0 [|b1 [|b2 [|b3 [|? ?]]]]]; try done.
  apply Forall_cons in Hb as [H0 [H1 [H2 [H3 _]%Forall_cons]%Forall_cons]%Forall_cons].
  cbn [le_value foldl]. replace (b3 + 256 * 0) with b3 by lia.
  rewrite (add_byte_lxor b2), (add_byte_lxor b1), (add_byte_lxor b0) by done.
  rewrite <- !Z.shiftl_mul_pow2, !Z.shiftl_lxor, !Z.shiftl_shiftl, !Z.shiftl_mul_pow2 by lia. cbn [Z.add Pos.add Pos.succ Pos.add_carry].
  rewrite !byte_fold_lxor, (byte_fold_byte b0), !byte_fold_shift by (done || tauto).
  by rewrite Z.lxor_0_l, !Z.lxor_assoc.
Qed.

Lemma foldl_lxor_assoc bs : forall a b, foldl Z.lxor (Z.lxor a b) bs = Z.lxor a (foldl Z.lxor b bs).
Proof. induction bs as [|x bs IH]; intros a b; cbn; [done|]. by rewrite <- IH, Z.lxor_assoc. Qed.

Lemma xor_words_bytes n : forall c bs, Forall (in_range 8) bs -> length bs = (4 * n)%nat ->
  byte_fold (xor_words n c bs) = foldl Z.lxor (byte_fold c) bs.
Proof.
  induction n as [|n IH]; intros c bs Hb Hl; cbn [xor_words].
  - by destruct bs.
  - rewrite IH by (by apply Forall_drop || (rewrite length_drop; lia)).
    rewrite byte_fold_lxor, byte_fold_word by (by apply Forall_take || (rewrite length_take; lia)).
    rewrite <- (take_drop 4 bs) at 3. rewrite foldl_app. f_equal. rewrite <- foldl_lxor_assoc. by rewrite Z.lxor_0_r.
Qed.

Lemma xor_words_app n : forall m c bs1 bs2, length bs1 = (4 * n)%nat ->
  xor_words (n + m) c (bs1 ++ bs2) = xor_words m (xor_words n c bs1) bs2.
Proof.
  induction n as [|n IH]; intros m c bs1 bs2 Hl; cbn [Nat.add xor_words].
  - by destruct bs1.
  - rewrite take_app_le, drop_app_le by lia. apply IH. rewrite length_drop. lia.
Qed.

(** ** Processing *)

(** What the data of the digest becomes. *)
Lemma sha_data_app a b h : bootloader_sha256_data b (bootloader_sha256_data a h) = bootloader_sha256_data (a ++ b) h.
Proof. destruct h; [|done]. cbn. by rewrite app_assoc. Qed.

Lemma sha_data_nil h : bootloader_sha256_data [] h = h.
Proof. destruct h; [|done]. cbn. by rewrite app_nil_r. Qed.

(** The next multiple of 1024. *)
Definition chunk_end (i : Z) : Z := (i + 1023) / 1024 * 1024.

Lemma chunk_end_step i : 0 <= i -> i mod 4 = 0 ->
  chunk_end (i + 4) = if i mod 1024 =? 0 then i + 1024 else chunk_end i.
Proof. intros Hi Hm. unfold chunk_end. destruct (Z.eqb_spec (i mod 1024) 0); Z.to_euclidean_division_equations; lia. Qed.

Section Processing.
Context {F : Type} `{FlashLaws F} `{!FlashReliable F} (env : image_env).

Lemma word_loop_spec n : forall k data la do_load s c,
  length data = (4 * (k + n))%nat -> checksum s = Some c ->
  let s' := word_loop env n (4 * k) data la do_load s in
  metadata s' = metadata s /\ ram_obfs_value s' = ram_obfs_value s /\
  checksum s' = Some (xor_words n c (drop (4 * k) data)) /\
  sha_handle s' = bootloader_sha256_data (drop (Z.to_nat (chunk_end (4 * k))) data) (sha_handle s).
Proof.
  induction n as [|n IH]; intros k data la do_load s c Hl Hc; cbn [word_loop].
  - split; [done|]. split; [done|]. split; [exact Hc|]. rewrite drop_ge; [by destruct (sha_handle s); cbn; rewrite ?app_nil_r|].
    unfold chunk_end. apply Nat2Z.inj_le. rewrite Z2Nat.id by (Z.to_euclidean_division_equations; lia).
    Z.to_euclidean_division_equations; lia.
  - set (s1 := LoadState _ _ _ _ _). replace (4 * k + 4) with (4 * S k) by lia.
    destruct (IH (S k) data la do_load s1 (Z.lxor c (le_value (field data (4 * k) 4)))) as (H1 & H2 & H3 & H4); [lia| |].
    { subst s1. cbn [checksum]. rewrite Hc. do 4 f_equal. lia. }
    split; [exact H1|]. split; [exact H2|]. split.
    + rewrite H3. cbn [xor_words]. do 2 f_equal. by rewrite drop_drop; f_equal; lia.
    + rewrite H4. subst s1. cbn [sha_handle]. replace (4 * S k) with (4 * k + 4) by lia. rewrite chunk_end_step by (lia || (Z.to_euclidean_division_equations; lia)).
      destruct (Z.eqb_spec ((4 * k) mod 1024) 0) as [Em|Em]; [|done]. rewrite sha_data_app. f_equal.
      assert (Ee : chunk_end (4 * k) = 4 * k) by (unfold chunk_end; Z.to_euclidean_division_equations; lia). rewrite Ee.
      unfold field. rewrite <- (take_drop (Z.to_nat (Z.min 1024 (length data - 4 * k))) (drop (Z.to_nat (4 * k)) data)) at 2.
      f_equal. rewrite drop_drop. destruct (Z.le_gt_cases (length data - 4 * k) 1024).
      * rewrite !drop_ge; [done|lia|lia].
      * f_equal. lia.
Qed.

Lemma set_up_obfs_spec s : metadata (set_up_obfs env s) = metadata s /\ checksum (set_up_obfs env s) = checksum s /\
  sha_handle (set_up_obfs env s) = sha_handle s.
Proof. unfold set_up_obfs. by destruct (_ && _). Qed.

(** A checked segment: its data enters the checksum and the digest. *)
Definition processed (s s' : load_state) (data : list Z) : Prop :=
  metadata s' = metadata s /\
  (exists c, checksum s = Some c /\ checksum s' = Some (xor_words (length data / 4) c data)) /\
  sha_handle s' = bootloader_sha256_data data (sha_handle s).

Lemma segment_data_spec f la da n do_load s c :
  0 <= n -> n mod 4 = 0 -> checksum s = Some c ->
  exists s', process_segment_data env f la da n do_load s = (ESP_OK, s') /\
    processed s s' (flash_bytes f chip0 da (Z.to_nat n)).
Proof.
  intros Hn Hm Hc. unfold process_segment_data. rewrite Hc, andb_false_r.
  unfold bootloader_mmap. rewrite rel_mmap. cbn [is_ok is_null andb].
  set (data := flash_bytes f chip0 da (Z.to_nat n)).
  assert (Hl : length data = (4 * (0 + Z.to_nat (n / 4)))%nat).
  { unfold data. rewrite flash_bytes_length. Z.to_euclidean_division_equations; lia. }
  destruct (set_up_obfs_spec s) as (E1 & E2 & E3).
  destruct (word_loop_spec (Z.to_nat (n / 4)) 0 data la do_load (set_up_obfs env s) c Hl) as (H1 & _ & H3 & H4); [by rewrite E2|].
  eexists. split; [reflexivity|]. change (4 * 0%nat) with 0 in *. split; [by rewrite H1|]. split.
  - exists c. split; [done|]. rewrite H3. do 2 f_equal. rewrite Hl. rewrite Nat.mul_comm, Nat.div_mul by lia. lia.
  - rewrite H4, E3. done.
Qed.

Lemma processed_app s1 s2 s3 d1 d2 : processed s1 s2 d1 -> processed s2 s3 d2 -> (length d1 mod 4 = 0)%nat ->
  processed s1 s3 (d1 ++ d2).
Proof.
  intros (M1 & (c1 & C1 & C1') & S1) (M2 & (c2 & C2 & C2') & S2) Hm. split; [congruence|]. split.
  - exists c1. split; [done|]. rewrite C2'. rewrite C1' in C2. injection C2 as <-. f_equal.
    assert (E : (length d1 = 4 * (length d1 / 4))%nat) by (pose proof (Nat.div_mod_eq (length d1) 4); lia).
    rewrite <- xor_words_app by exact E. f_equal. rewrite length_app. rewrite E at 2.
    by rewrite (Nat.mul_comm 4), (Nat.add_comm (_ * 4)), Nat.div_add, Nat.add_comm by lia.
  - by rewrite S2, S1, sha_data_app.
Qed.

Lemma processed_nil s c : checksum s = Some c -> processed s s [].
Proof. intros Hc. split; [done|]. split; [by exists c|]. destruct (sha_handle s); [|done]. cbn. by rewrite app_nil_r. Qed.

Context (Hpages : 2 <= bootloader_mmap_get_free_pages env <= 65535).

Lemma part_size off r : off = 0 \/ off = 1 ->
  let n := Z.min r (u32 (u32 (bootloader_mmap_get_free_pages env - off) * SPI_FLASH_MMU_PAGE_SIZE)) in
  n = Z.min r ((bootloader_mmap_get_free_pages env - off) * 65536).
Proof. intros Ho. unfold SPI_FLASH_MMU_PAGE_SIZE. cbn zeta. rewrite !u32_small; [done|lia|rewrite u32_small; lia]. Qed.

Lemma segment_loop_spec f la do_load (fuel : nat) : forall da r s c,
  0 <= da -> 0 <= r -> r mod 4 = 0 -> da + r < 2 ^ 32 -> r <= 65536 * fuel -> checksum s = Some c ->
  exists s', segment_loop env fuel f la da r do_load s = Some (ESP_OK, s') /\
    processed s s' (flash_bytes f chip0 da (Z.to_nat r)).
Proof.
  induction fuel as [|fuel IH]; intros da r s c Hda Hr Hm Hw Hf Hc; cbn [segment_loop].
  - assert (r = 0) as -> by lia. exists s. split; [done|]. by apply (processed_nil s c).
  - destruct (Z.eqb_spec r 0) as [->|Hr0]; [exists s; split; [done|]; by apply (processed_nil s c)|].
    set (off := if Z.land da _ =? 0 then 0 else 1). assert (Ho : off = 0 \/ off = 1) by (subst off; case_match; tauto).
    rewrite (part_size off r Ho). set (n := Z.min r _).
    assert (Hn : 0 < n <= r /\ n mod 4 = 0 /\ (n = r \/ 65536 <= n)).
    { subst n. destruct (Z.min_spec r ((bootloader_mmap_get_free_pages env - off) * 65536)) as [[H1 ->]|[H1 ->]]; [lia|].
      split; [lia|]. split; [|right; lia]. replace ((bootloader_mmap_get_free_pages env - off) * 65536)
        with (0 + (bootloader_mmap_get_free_pages env - off) * 16384 * 4) by lia. by rewrite Z.mod_add. }
    destruct Hn as ([Hn0 Hn1] & Hn4 & Hn2). clearbody n off.
    destruct (segment_data_spec f la da n do_load s c) as (s1 & -> & H1); [lia|done|done|].
    pose proof H1 as (_ & (c0 & _ & Hc1) & _). rewrite u32_small by lia.
    edestruct (IH (da + n) (r - n) s1) as (s2 & -> & H2); [lia|lia| |lia|lia|exact Hc1|].
    { rewrite Zminus_mod, Hm, Hn4. done. }
    exists s2. split; [done|].
    rewrite (flash_bytes_split f chip0 da (Z.to_nat r) (Z.to_nat n)) by lia.
    replace (Z.to_nat r - Z.to_nat n)%nat with (Z.to_nat (r - n)) by lia. rewrite Z2Nat.id by lia.
    apply (processed_app s s1 s2); [exact H1|exact H2|]. rewrite flash_bytes_length.
    apply Nat2Z.inj. rewrite Nat2Z.inj_mod, Z2Nat.id by lia. exact Hn4.
Qed.

Lemma flash_read_ok f a n : a mod 4 = 0 -> n mod 4 = 0 -> 0 <= a -> 0 <= n ->
  bootloader_flash_read env f a n = (ESP_OK, flash_bytes f chip0 a (Z.to_nat n)).
Proof.
  intros Ha Hn _ _. unfold bootloader_flash_read. change 3 with (Z.ones 2). rewrite !Z.land_ones by lia. change (2 ^ 2) with 4. rewrite Ha, Hn.
  cbn [Z.eqb negb]. destruct (BOOTLOADER_BUILD env); [done|].
  pose proof (rel_read f chip0 a n) as Hr. destruct (esp_flash_read f chip0 a n) as [err bs] eqn:E. cbn in Hr. subst err.
  f_equal. exact (read_ok _ _ _ _ _ E).
Qed.

Lemma verify_segment_spec h da :
  verify_segment_header env h da = ESP_OK <-> segment_ok env (da, h).
Proof.
  unfold verify_segment_header, segment_ok. cbn [fst snd]. change 3 with (Z.ones 2). rewrite Z.land_ones by lia. change (2 ^ 2) with 4.
  destruct (Z.eqb_spec (data_len h mod 4) 0), (Z.leb_spec SIXTEEN_MB (data_len h)); cbn; try (split; [done|lia]).
  destruct (should_map env (load_addr h)); cbn; [|split; [intros _|]; by auto].
  destruct (Z.eqb_spec (da mod SPI_FLASH_MMU_PAGE_SIZE) (load_addr h mod SPI_FLASH_MMU_PAGE_SIZE)); cbn; split; try done; tauto.
Qed.

Lemma segment_header_range f a : let h := decode_segment_header (flash_bytes f chip0 a 8) in
  in_range 32 (load_addr h) /\ in_range 32 (data_len h).
Proof.
  assert (Hf : forall off, in_range 32 (le_value (field (flash_bytes f chip0 a 8) off 4))).
  { intros off. assert (Hb : Forall (in_range 8) (field (flash_bytes f chip0 a 8) off 4)) by (apply Forall_take, Forall_drop, flash_bytes_range).
    assert (Hl : (length (field (flash_bytes f chip0 a 8) off 4) <= 4)%nat) by (unfold field; rewrite length_take; lia).
    revert Hb Hl. generalize (field (flash_bytes f chip0 a 8) off 4). intros bs Hb Hl.
    rewrite <- (le_bytes_value bs Hb), le_value_bytes. unfold wrap, in_range.
    assert (2 ^ (8 * length bs) <= 2 ^ 32) by (apply Z.pow_le_mono_r; lia).
    pose proof (Z.mod_pos_bound (le_value bs) (2 ^ (8 * length bs))). lia. }
  split; apply Hf.
Qed.

(** What the metadata says of the segments. *)
Fixpoint record_segments (i : nat) (segs : list (Z * esp_image_segment_header_t)) (d : esp_image_metadata_t) : esp_image_metadata_t :=
  match segs with
  | [] => d
  | seg :: segs => record_segments (S i) segs (set_segment_data i (fst seg) (set_segment i (snd seg) d))
  end.

Lemma record_segments_frame segs : forall i d,
  start_addr (record_segments i segs d) = start_addr d /\ image (record_segments i segs d) = image d /\
  image_len (record_segments i segs d) = image_len d /\ image_digest (record_segments i segs d) = image_digest d.
Proof. induction segs as [|seg segs IH]; intros i d; [done|]. cbn [record_segments]. destruct (IH (S i) (set_segment_data i (fst seg) (set_segment i (snd seg) d))) as (-> & -> & -> & ->). done. Qed.

Lemma record_segments_below segs : forall i d j, (j < i)%nat ->
  segments (record_segments i segs d) !! j = segments d !! j /\
  segment_data (record_segments i segs d) !! j = segment_data d !! j.
Proof.
  induction segs as [|seg segs IH]; intros i d j Hj; [done|]. cbn [record_segments].
  destruct (IH (S i) (set_segment_data i (fst seg) (set_segment i (snd seg) d)) j) as [-> ->]; [lia|].
  cbn. by rewrite !list_lookup_insert_ne by lia.
Qed.

Lemma record_segments_lookup segs : forall i d k,
  (i + length segs <= length (segments d))%nat -> (i + length segs <= length (segment_data d))%nat -> (k < length segs)%nat ->
  segments (record_segments i segs d) !! (i + k)%nat = snd <$> segs !! k /\
  segment_data (record_segments i segs d) !! (i + k)%nat = fst <$> segs !! k.
Proof.
  induction segs as [|seg segs IH]; intros i d k H1 H2 Hk; [cbn in Hk; lia|]. cbn [record_segments length] in *.
  destruct k as [|k].
  - rewrite Nat.add_0_r. destruct (record_segments_below segs (S i) (set_segment_data i (fst seg) (set_segment i (snd seg) d)) i) as [-> ->]; [lia|].
    cbn [segments segment_data set_segment_data set_segment fst snd].
    by rewrite (list_lookup_insert_eq (segments d)), (list_lookup_insert_eq (segment_data d)) by lia.
  - replace (i + S k)%nat with (S i + k)%nat by lia. apply IH; cbn; rewrite ?length_insert; lia.
Qed.

Lemma flash_bytes_nth f a n i : (i < n)%nat -> nth i (flash_bytes f chip0 a n) 0 = flash_byte f chip0 (a + Z.of_nat i).
Proof.
  intros Hi. unfold flash_bytes. rewrite (nth_indep _ 0 (flash_byte f chip0 (a + Z.of_nat 0))) by (rewrite length_map, length_seq; done).
  rewrite (map_nth (fun i => flash_byte f chip0 (a + Z.of_nat i))). by rewrite seq_nth.
Qed.

(** Whether a segment may be loaded, if it is to be. *)
Definition placed (do_load : bool) (h : esp_image_segment_header_t) : option bool :=
  if BOOTLOADER_BUILD env && (do_load && should_load env (load_addr h)) && (0 <? data_len h)
  then verify_load_addresses env (s32 (load_addr h)) (s32 (u32 (load_addr h + data_len h))) else Some true.

Definition segment_good (do_load : bool) (seg : Z * esp_image_segment_header_t) : Prop :=
  segment_ok env seg /\ placed do_load (snd seg) = Some true.

Lemma segment_ok_size f a : let h := decode_segment_header (flash_bytes f chip0 a 8) in
  segment_ok env (a + 8, h) -> 0 <= data_len h < SIXTEEN_MB /\ data_len h mod 4 = 0.
Proof. intros h (H1 & H2 & _). pose proof (proj2 (segment_header_range f a)) as Hr. unfold in_range in Hr. cbn [snd] in *. fold h in Hr. lia. Qed.

Lemma process_segment_spec f i a do_load s c :
  a mod 4 = 0 -> 0 <= a -> a + 8 + SIXTEEN_MB < 2 ^ 32 -> checksum s = Some c ->
  let h := decode_segment_header (flash_bytes f chip0 a 8) in
  match process_segment env f i a do_load s with
  | Some (ESP_OK, s') =>
      segment_good do_load (a + 8, h) /\
      processed (with_metadata (set_segment i h (metadata s)) (with_sha (bootloader_sha256_data (flash_bytes f chip0 a 8) (sha_handle s)) s)) s'
        (segment_bytes f (a + 8, h))
  | Some _ => ~ segment_good do_load (a + 8, h)
  | None => placed do_load h = None
  end.
Proof.
  intros Ha Ha0 Hw Hc h. unfold process_segment. rewrite (flash_read_ok f a) by (done || lia).
  change (Z.to_nat SEGMENT_HEADER_SIZE) with 8%nat. cbn [fst snd]. fold h.
  unfold SEGMENT_HEADER_SIZE, SIXTEEN_MB in *. rewrite (u32_small (a + 8)) by lia.
  pose proof (verify_segment_spec h (a + 8)) as Hv. destruct (verify_segment_header env h (a + 8)) eqn:E;
    try (intros [Hok _]; apply Hv in Hok; congruence).
  assert (Hok : segment_ok env (a + 8, h)) by by apply Hv. destruct (segment_ok_size f a Hok) as [Hl Hm]. fold h in Hl, Hm.
  rewrite Hm. cbn [Z.eqb negb]. fold (placed do_load h). unfold SIXTEEN_MB in Hl.
  destruct (placed do_load h) as [[]|] eqn:Ep; cbn [negb]; [|by intros [_ Hp]; cbn [snd] in Hp; congruence|done].
  edestruct (segment_loop_spec f (load_addr h) (do_load && should_load env (load_addr h)) SEGMENT_FUEL (a + 8) (data_len h))
    as (s' & -> & Hs); [lia|lia|exact Hm|lia| |exact Hc|by split].
  unfold SEGMENT_FUEL. lia.
Qed.

Lemma segments_size_nonneg f n : forall a, 0 <= segments_size (image_segments f n a).
Proof.
  induction n as [|n IH]; intros a; cbn [image_segments segments_size foldr snd]; [lia|]. specialize (IH (a + 8 + data_len (decode_segment_header (flash_bytes f chip0 a 8)))).
  pose proof (proj2 (segment_header_range f a)) as Hr. unfold in_range in Hr. unfold segments_size in IH. lia.
Qed.

(** What a checked list of segments has done. *)
Record segments_processed (f : F) (i : nat) (a : Z) (segs : list (Z * esp_image_segment_header_t)) (s s' : load_state) : Prop := {
  sp_metadata : metadata s' = record_segments i segs (metadata s);
  sp_checksum : forall c, checksum s = Some c -> exists c', checksum s' = Some c' /\ byte_fold c' = foldl Z.lxor (byte_fold c) (segs ≫= segment_bytes f);
  sp_sha : sha_handle s' = bootloader_sha256_data (flash_bytes f chip0 a (Z.to_nat (segments_size segs))) (sha_handle s);
}.

Lemma segments_processed_cons f i a h segs s s1 s' :
  0 <= data_len h -> data_len h mod 4 = 0 -> 0 <= segments_size segs ->
  processed (with_metadata (set_segment i h (metadata s)) (with_sha (bootloader_sha256_data (flash_bytes f chip0 a 8) (sha_handle s)) s)) s1
    (segment_bytes f (a + 8, h)) ->
  segments_processed f (S i) (a + 8 + data_len h) segs (with_metadata (set_segment_data i (a + 8) (metadata s1)) s1) s' ->
  segments_processed f i a ((a + 8, h) :: segs) s s'.
Proof.
  intros Hn Hm Hs (M1 & (c0 & C0 & C1) & S1) [M2 C2 S2]. split.
  - rewrite M2. cbn [record_segments fst snd metadata with_metadata]. by rewrite M1.
  - intros c Hc. cbn in C0. rewrite Hc in C0. injection C0 as <-. destruct (C2 _ C1) as (c' & -> & Hf). exists c'. split; [done|].
    rewrite Hf. cbn [mbind list_bind]. rewrite foldl_app. f_equal. rewrite xor_words_bytes; [done|apply flash_bytes_range|].
    unfold segment_bytes. rewrite flash_bytes_length. cbn [snd]. pose proof (Nat.div_mod_eq (Z.to_nat (data_len h)) 4).
    assert (Z.to_nat (data_len h) mod 4 = 0)%nat by (apply Nat2Z.inj; rewrite Nat2Z.inj_mod, Z2Nat.id by lia; exact Hm). lia.
  - rewrite S2. cbn [sha_handle with_metadata]. rewrite S1. cbn [sha_handle with_metadata with_sha]. rewrite !sha_data_app. f_equal.
    cbn [segments_size foldr snd]. unfold segments_size in Hs.
    rewrite (flash_bytes_split f chip0 a (Z.to_nat (8 + _ + _)) 8) by lia. f_equal.
    rewrite (flash_bytes_split f chip0 (a + 8%nat) _ (Z.to_nat (data_len h))) by lia. unfold segment_bytes. cbn [fst snd].
    change (Z.of_nat 8) with 8. f_equal. f_equal; [lia|]. unfold segments_size. lia.
Qed.

Lemma segments_loop_cons f do_load (n i : nat) a s c s1 :
  a mod 4 = 0 -> 0 <= a -> a + S n * (8 + SIXTEEN_MB) < 2 ^ 32 -> checksum s = Some c ->
  (i + S n <= ESP_IMAGE_MAX_SEGMENTS)%nat -> length (segments (metadata s)) = ESP_IMAGE_MAX_SEGMENTS ->
  process_segment env f i a do_load s = Some (ESP_OK, s1) ->
  let h := decode_segment_header (flash_bytes f chip0 a 8) in
  let a' := a + 8 + data_len h in
  let s2 := with_metadata (set_segment_data i (a + 8) (metadata s1)) s1 in
  segments_loop env (S n) f i a do_load s = segments_loop env n f (S i) a' do_load s2 /\
  a' mod 4 = 0 /\ 0 <= a' /\ a' + n * (8 + SIXTEEN_MB) < 2 ^ 32 /\ is_Some (checksum s2) /\
  length (segments (metadata s2)) = ESP_IMAGE_MAX_SEGMENTS /\ 0 <= data_len h < SIXTEEN_MB /\ data_len h mod 4 = 0.
Proof.
  intros Ha Ha0 Hw Hc Hi Hl E h a' s2. unfold SIXTEEN_MB in *.
  pose proof (process_segment_spec f i a do_load s c Ha Ha0) as Hp. unfold SIXTEEN_MB in Hp. specialize (Hp ltac:(lia) Hc).
  rewrite E in Hp. destruct Hp as (Hg & Hm & (c0 & Hc0 & Hc1) & _).
  destruct (segment_ok_size f a (proj1 Hg)) as [Hlen Hmod]. fold h in Hlen, Hmod, Hm. unfold SIXTEEN_MB in Hlen.
  assert (Hi2 : segments (metadata s2) = <[i := h]> (segments (metadata s))) by by (subst s2; cbn; rewrite Hm).
  split; [|subst a'; repeat split; try lia; [Z.to_euclidean_division_equations; lia|by eexists|by rewrite Hi2, length_insert]].
  cbn [segments_loop]. replace (i <? ESP_IMAGE_MAX_SEGMENTS)%nat with true by (symmetry; apply Nat.ltb_lt; lia).
  rewrite E. unfold SEGMENT_HEADER_SIZE. rewrite (u32_small (a + 8)) by lia. fold s2.
  rewrite Hi2, list_lookup_insert_eq by lia. change (default _ (Some h)) with h. by rewrite u32_small by lia.
Qed.

Lemma segments_loop_stop f do_load (n i : nat) a s : (i < ESP_IMAGE_MAX_SEGMENTS)%nat ->
  (forall s1, process_segment env f i a do_load s <> Some (ESP_OK, s1)) ->
  segments_loop env (S n) f i a do_load s =
  match process_segment env f i a do_load s with Some (err, s1) => Some (err, a, s1) | None => None end.
Proof.
  intros Hi He. cbn [segments_loop]. apply Nat.ltb_lt in Hi. rewrite Hi.
  destruct (process_segment env f i a do_load s) as [[[] s1]|]; try done. by destruct (He s1).
Qed.

Lemma segments_loop_spec f do_load (n : nat) : forall i a s c,
  a mod 4 = 0 -> 0 <= a -> a + n * (8 + SIXTEEN_MB) < 2 ^ 32 -> checksum s = Some c ->
  (i + n <= ESP_IMAGE_MAX_SEGMENTS)%nat -> length (segments (metadata s)) = ESP_IMAGE_MAX_SEGMENTS ->
  let segs := image_segments f n a in
  match segments_loop env n f i a do_load s with
  | Some (ESP_OK, e, s') =>
      Forall (segment_good do_load) segs /\ segments_size segs <= n * (8 + SIXTEEN_MB) /\ segments_size segs mod 4 = 0 /\
      e = a + segments_size segs /\ segments_processed f i a segs s s'
  | Some _ => ~ Forall (segment_good do_load) segs
  | None => Exists (fun seg => placed do_load (snd seg) = None) segs
  end.
Proof.
  induction n as [|n IH]; intros i a s c Ha Ha0 Hw Hc Hi Hl.
  - cbn [segments_loop image_segments segments_size foldr]. split; [by constructor|]. split; [lia|]. split; [done|]. split; [lia|].
    split; [done| |by rewrite sha_data_nil].
    intros c1 Hc1. by exists c1.
  - destruct (process_segment env f i a do_load s) as [[err s1]|] eqn:E; [destruct (decide (err = ESP_OK)) as [->|Herr]|].
    2: { rewrite segments_loop_stop, E by (lia || (intros s2; congruence)). pose proof (process_segment_spec f i a do_load s c Ha Ha0) as Hp.
      unfold SIXTEEN_MB in *. specialize (Hp ltac:(lia) Hc). rewrite E in Hp.
      destruct err; try done; by intros [? _]%Forall_cons. }
    2: { rewrite segments_loop_stop, E by (lia || (intros s2; congruence)). pose proof (process_segment_spec f i a do_load s c Ha Ha0) as Hp.
      unfold SIXTEEN_MB in *. specialize (Hp ltac:(lia) Hc). rewrite E in Hp. by left. }
    destruct (segments_loop_cons f do_load n i a s c s1 Ha Ha0 Hw Hc Hi Hl E) as (-> & A1 & A2 & A3 & [c1 A4] & A5 & A6 & A7).
    cbn [image_segments]. set (h := decode_segment_header (flash_bytes f chip0 a 8)) in *.
    set (s2 := with_metadata _ s1) in *. specialize (IH (S i) (a + 8 + data_len h) s2 c1 A1 A2 A3 A4 ltac:(lia) A5).
    pose proof (segments_size_nonneg f n (a + 8 + data_len h)) as Hnn.
    pose proof (process_segment_spec f i a do_load s c Ha Ha0) as Hp.
    unfold SIXTEEN_MB in *. specialize (Hp ltac:(lia) Hc). rewrite E in Hp. destruct Hp as [Hg Hp].
    destruct (segments_loop env n f (S i) (a + 8 + data_len h) do_load s2) as [[[err e] s']|]; [destruct err|by right];
      try (intros [_ ?]%Forall_cons; by apply IH).
    destruct IH as (H1 & H2 & H3 & -> & H4). cbn [segments_size foldr snd]. unfold segments_size in *.
    split; [by constructor|]. split; [lia|]. split; [Z.to_euclidean_division_equations; lia|]. split; [lia|].
    apply (segments_processed_cons f i a h _ s s1); [lia|done|exact Hnn|exact Hp|exact H4].
Qed.

Lemma segments_processed_frame f i a segs s s' : segments_processed f i a segs s s' ->
  start_addr (metadata s') = start_addr (metadata s) /\ image (metadata s') = image (metadata s) /\
  image_len (metadata s') = image_len (metadata s).
Proof. intros [-> _ _]. by destruct (record_segments_frame segs i (metadata s)) as (-> & -> & -> & _). Qed.

(** The whole image up to the end of its segments. *)
Lemma process_segments_spec f do_load part s c :
  pos_offset part mod 4 = 0 -> 0 <= pos_offset part < 2 ^ 31 -> checksum s = Some c ->
  metadata s = Metadata (pos_offset part) (image_header f part) (segments zero_metadata) (segment_data zero_metadata) HEADER_SIZE
                 (image_digest zero_metadata) ->
  segment_count (image_header f part) <= ESP_IMAGE_MAX_SEGMENTS ->
  let segs := segments_of f part in
  match process_segments env f do_load s with
  | Some (ESP_OK, s') =>
      Forall (segment_good do_load) segs /\ 0 <= segments_size segs < 2 ^ 29 /\ segments_size segs mod 4 = 0 /\
      exists s1, segments_processed f 0 (pos_offset part + HEADER_SIZE) segs s s1 /\
        s' = with_metadata (set_len (HEADER_SIZE + segments_size segs) (metadata s1)) s1
  | Some _ => ~ Forall (segment_good do_load) segs
  | None => Exists (fun seg => placed do_load (snd seg) = None) segs
  end.
Proof.
  intros Ha Hr Hc Hm Hn segs. unfold process_segments. rewrite Hm. cbn [start_addr image_len image]. unfold HEADER_SIZE in *.
  rewrite (u32_small (pos_offset part + 24)) by lia.
  set (n := Z.to_nat (segment_count (image_header f part))).
  assert (Hn' : (n <= 16)%nat) by (unfold n; change (Z.of_nat ESP_IMAGE_MAX_SEGMENTS) with 16 in Hn; lia).
  pose proof (segments_loop_spec f do_load n 0 (pos_offset part + 24) s c) as Hl.
  unfold SIXTEEN_MB in Hl. specialize (Hl ltac:(Z.to_euclidean_division_equations; lia) ltac:(lia) ltac:(lia) Hc Hn' ltac:(by rewrite Hm)).
  fold (segments_of f part) in Hl. change (image_segments f n (pos_offset part + 24)) with segs in Hl.
  destruct (segments_loop env n f 0 (pos_offset part + 24) do_load s) as [[[err e] s1]|]; [destruct err; try exact Hl|exact Hl].
  destruct Hl as (H1 & H2 & H3 & -> & H4). pose proof (segments_size_nonneg f n (pos_offset part + 24)) as Hs.
  change (image_segments f n (pos_offset part + 24)) with segs in Hs.
  destruct (segments_processed_frame _ _ _ _ _ _ H4) as (E1 & E2 & E3). rewrite E1, E3, Hm. cbn [start_addr image_len].
  replace (pos_offset part + 24 + segments_size segs <? pos_offset part) with false by (symmetry; apply Z.ltb_ge; lia).
  split; [done|]. split; [lia|]. split; [done|]. exists s1. split; [done|].
  replace (24 + (pos_offset part + 24 + segments_size segs - (pos_offset part + 24))) with (24 + segments_size segs) by lia.
  rewrite u32_small by lia. done.
Qed.

(** Padding ends a block of 16 bytes. *)
Lemma padded_length n : 0 <= n < 2 ^ 31 ->
  u32 (Z.land (u32 (u32 (n + 1) + 15)) (u32 (Z.lnot 15)) - n) = n / 16 * 16 + 16 - n.
Proof.
  intros Hn. rewrite (u32_small (n + 1)), (u32_small (n + 1 + 15)) by lia.
  change (u32 (Z.lnot 15)) with (Z.ldiff (Z.ones 32) (Z.ones 4)).
  assert (E : forall x, Z.land x (Z.ldiff (Z.ones 32) (Z.ones 4)) = Z.ldiff (Z.land x (Z.ones 32)) (Z.ones 4)).
  { intros x. apply Z.bits_inj'. intros i Hi. rewrite !Z.land_spec, !Z.ldiff_spec, Z.land_spec. by rewrite andb_assoc. }
  rewrite E, Z.land_ones, Z.mod_small, Z.ldiff_ones_r, Z.shiftl_mul_pow2, Z.shiftr_div_pow2 by lia. change (2 ^ 4) with 16.
  rewrite u32_small; Z.to_euclidean_division_equations; lia.
Qed.

Lemma process_checksum_spec f cw skip s : let n := image_len (metadata s) in let a := start_addr (metadata s) in
  0 <= n < 2 ^ 30 -> n mod 4 = 0 -> 0 <= a < 2 ^ 31 -> a mod 4 = 0 -> skip = false \/ sha_handle s <> None ->
  let e := n / 16 * 16 + 16 in
  process_checksum env f cw skip s =
  if negb skip && negb (byte_fold cw =? flash_byte f chip0 (a + e - 1)) then (ESP_ERR_IMAGE_INVALID, s)
  else (ESP_OK, with_metadata (set_len e (metadata s))
                  (with_sha (bootloader_sha256_data (flash_bytes f chip0 (a + n) (Z.to_nat (e - n))) (sha_handle s)) s)).
Proof.
  intros n a Hn Hn4 Ha Ha4 Hskip e. unfold process_checksum. fold n a. rewrite padded_length by lia. fold e.
  assert (He : 0 < e - n <= 16 /\ (e - n) mod 4 = 0 /\ (a + n) mod 4 = 0) by (subst e; Z.to_euclidean_division_equations; lia).
  destruct He as (He & He4 & Han). rewrite (u32_small (a + n)) by lia. rewrite flash_read_ok by (done || lia).
  replace (negb skip || negb (is_null (sha_handle s))) with true by (by destruct skip, (sha_handle s), Hskip).
  unfold byte_fold. rewrite flash_bytes_nth by lia.
  replace (a + n + Z.of_nat (Z.to_nat (e - n - 1))) with (a + e - 1) by lia.
  replace (u32 (n + (e - n))) with e by (rewrite u32_small; lia). done.
Qed.

Lemma process_hash_spec f part_len s : let n := image_len (metadata s) in let a := start_addr (metadata s) in
  0 <= n < 2 ^ 30 -> n mod 4 = 0 -> 0 <= a < 2 ^ 31 -> a mod 4 = 0 ->
  let none := hash_appended (image (metadata s)) =? 0 in
  let len := n + if none then 0 else HASH_LEN in
  exists s', process_appended_hash_and_sig env f part_len true s = (if part_len <? len then ESP_ERR_IMAGE_INVALID else ESP_OK, s') /\
    metadata s' = set_len len (set_digest (if none then image_digest (metadata s) else flash_bytes f chip0 (a + n) 32) (metadata s)) /\
    sha_handle s' = sha_handle s.
Proof.
  intros n a Hn Hn4 Ha Ha4 none len. unfold process_appended_hash_and_sig. fold n a none.
  unfold HASH_LEN in *. rewrite (u32_small (a + n)) by lia.
  rewrite (flash_read_ok f (a + n) 32) by (lia || (Z.to_euclidean_division_equations; lia)). rewrite andb_true_r.
  subst len. destruct none; cbn [negb image_len set_digest set_len].
  - fold n. replace (n + 0) with n by lia. destruct (part_len <? n); eexists; (split; [reflexivity|]); by destruct (metadata s).
  - fold n. rewrite u32_small by lia. destruct (part_len <? n + 32); eexists; split; done.
Qed.

(** ** Loading *)

(** The metadata of an image. *)
Definition described (f : F) (part : esp_partition_pos_t) : esp_image_metadata_t :=
  let digest := if hash_appended (image_header f part) =? 0 then image_digest zero_metadata
                else flash_bytes f chip0 (pos_offset part + checked_size (segments_of f part)) 32 in
  set_len (image_size f part) (set_digest digest (record_segments 0 (segments_of f part)
    (Metadata (pos_offset part) (image_header f part) (segments zero_metadata) (segment_data zero_metadata) HEADER_SIZE
       (image_digest zero_metadata)))).

Definition loads (mode : esp_image_load_mode_t) : bool :=
  BOOTLOADER_BUILD env && (bool_decide (mode = ESP_IMAGE_LOAD) || bool_decide (mode = ESP_IMAGE_LOAD_NO_VALIDATE)).

(** A mode that checks, a partition that is not the bootloader's, nothing that switches a check off. *)
Record checked (mode : esp_image_load_mode_t) (part : esp_partition_pos_t) : Prop := Checked {
  ck_mode : BOOTLOADER_BUILD env = true -> mode <> ESP_IMAGE_LOAD_NO_VALIDATE;
  ck_debugger : esp_cpu_dbgr_is_attached env = false;
  ck_sha : sha256_allocated env = true;
  ck_app : pos_offset part <> ESP_BOOTLOADER_OFFSET env;
  ck_aligned : pos_offset part mod 4 = 0;
  ck_offset : 0 <= pos_offset part < 2 ^ 31;
  ck_size : pos_size part <= SIXTEEN_MB;
}.

Lemma verify_image_header_spec h : verify_image_header env h = ESP_OK <->
  magic h = ESP_IMAGE_HEADER_MAGIC /\
  bootloader_common_check_chip_validity (chip env) (header_chip h) ESP_IMAGE_APPLICATION = ESP_OK /\
  segment_count h <= ESP_IMAGE_MAX_SEGMENTS.
Proof.
  unfold verify_image_header. destruct (Z.eqb_spec (magic h) ESP_IMAGE_HEADER_MAGIC); cbn [negb]; [|by split; [|tauto]].
  destruct (bootloader_common_check_chip_validity _ _ _) eqn:E; cbn [is_ok negb]; try by split; [|intros (_ & ? & _)].
  destruct (Z.ltb_spec ESP_IMAGE_MAX_SEGMENTS (segment_count h)); split; try done; intros; lia.
Qed.

Lemma image_header_spec f part s :
  pos_offset part mod 4 = 0 -> 0 <= pos_offset part -> sha256_allocated env = true ->
  let h := image_header f part in
  let r := process_image_header env f (pos_offset part) true true s in
  (fst r = ESP_OK <-> magic h = ESP_IMAGE_HEADER_MAGIC /\
     bootloader_common_check_chip_validity (chip env) (header_chip h) ESP_IMAGE_APPLICATION = ESP_OK /\
     segment_count h <= ESP_IMAGE_MAX_SEGMENTS) /\
  (fst r = ESP_OK ->
   snd r = with_sha (if hash_appended h =? 0 then sha_handle s else Some (flash_bytes f chip0 (pos_offset part) 24))
             (with_metadata (Metadata (pos_offset part) h (segments zero_metadata) (segment_data zero_metadata) HEADER_SIZE
                (image_digest zero_metadata)) s)).
Proof.
  intros Ha Ha0 Hsha h r. subst r. unfold process_image_header. rewrite flash_read_ok by (done || lia). cbn match.
  change (Z.to_nat HEADER_SIZE) with 24%nat. change (decode_image_header (flash_bytes f chip0 (pos_offset part) 24)) with h.
  rewrite Hsha, andb_true_r, andb_false_r. rewrite <- verify_image_header_spec.
  destruct (verify_image_header env h); cbn [fst snd]; (split; [done|]); try done.
  intros _. by destruct (hash_appended h =? 0), s.
Qed.

(** What a load returns: [A] if it accepts, not [G] and nothing of the image if it
    rejects, [N] if an assertion fails. *)
Definition outcome (A : load_state -> Prop) (G N : Prop) (r : option (esp_err_t * load_state)) : Prop :=
  match r with
  | Some (ESP_OK, s) => A s
  | Some (_, s) => ~ G /\ metadata s = zero_metadata
  | None => N
  end.

Lemma load_failed_case (A : load_state -> Prop) (G N : Prop) err s : ~ G -> outcome A G N (Some (load_failed err s)).
Proof. intros HG. unfold load_failed. destruct err; done. Qed.

Lemma outcome_mono A G G' N r : (G' -> G) -> outcome A G N r -> outcome A G' N r.
Proof. intros HG. unfold outcome. destruct r as [[[] s]|]; tauto. Qed.

Lemma segments_good do_load segs : Forall (segment_good do_load) segs <->
  Forall (segment_ok env) segs /\ Forall (fun seg => placed do_load (snd seg) = Some true) segs.
Proof. by rewrite <- Forall_and. Qed.

Lemma deobfuscate_words_frame n : forall j a s, 
  metadata (deobfuscate_words n j a s) = metadata s /\ ram_obfs_value (deobfuscate_words n j a s) = ram_obfs_value s.
Proof. induction n as [|n IH]; intros j a s; [done|]. cbn [deobfuscate_words]. by match goal with |- context [deobfuscate_words n ?j ?a ?s] => destruct (IH j a s) as [-> ->] end. Qed.

Lemma deobfuscate_frame hs : forall s, 
  metadata (deobfuscate env hs s) = metadata s /\ ram_obfs_value (deobfuscate env hs s) = ram_obfs_value s.
Proof.
  induction hs as [|h hs IH]; intros s; [done|]. cbn [deobfuscate]. destruct (IH (if should_load env (load_addr h)
    then deobfuscate_words (Z.to_nat (data_len h / 4)) 0 (load_addr h) s else s)) as [-> ->].
  destruct (should_load env (load_addr h)); [apply deobfuscate_words_frame|done].
Qed.

Lemma checked_size_spec segs : 0 <= segments_size segs < 2 ^ 29 ->
  HEADER_SIZE + segments_size segs < checked_size segs < 2 ^ 30 /\ checked_size segs mod 4 = 0.
Proof. unfold checked_size, HEADER_SIZE. Z.to_euclidean_division_equations; lia. Qed.

Lemma image_bytes_split f a segs : 0 <= segments_size segs < 2 ^ 29 ->
  flash_bytes f chip0 a (Z.to_nat (checked_size segs)) =
  flash_bytes f chip0 a 24 ++ flash_bytes f chip0 (a + HEADER_SIZE) (Z.to_nat (segments_size segs)) ++
  flash_bytes f chip0 (a + (HEADER_SIZE + segments_size segs)) (Z.to_nat (checked_size segs - (HEADER_SIZE + segments_size segs))).
Proof.
  intros Hs. destruct (checked_size_spec segs Hs) as [Hc _]. unfold HEADER_SIZE in *.
  rewrite (flash_bytes_split f chip0 a _ 24) by lia. f_equal.
  rewrite (flash_bytes_split f chip0 (a + 24%nat) _ (Z.to_nat (segments_size segs))) by lia. change (Z.of_nat 24) with 24. f_equal. f_equal; lia.
Qed.

(** After the segments: the checksum, the digest and the length. *)
Definition tail_ok (f : F) (part : esp_partition_pos_t) : Prop :=
  let segs := segments_of f part in
  flash_byte f chip0 (pos_offset part + checked_size segs - 1) = foldl Z.lxor ESP_ROM_CHECKSUM_INITIAL (segs ≫= segment_bytes f) /\
  (hash_appended (image_header f part) <> 0 ->
    flash_bytes f chip0 (pos_offset part + checked_size segs) 32 =
    sha256 env (flash_bytes f chip0 (pos_offset part) (Z.to_nat (checked_size segs)))) /\
  image_size f part <= pos_size part.

Lemma valid_image_parts f part : valid_image env f part <->
  (magic (image_header f part) = ESP_IMAGE_HEADER_MAGIC /\
   bootloader_common_check_chip_validity (chip env) (header_chip (image_header f part)) ESP_IMAGE_APPLICATION = ESP_OK /\
   segment_count (image_header f part) <= ESP_IMAGE_MAX_SEGMENTS) /\
  Forall (segment_ok env) (segments_of f part) /\ tail_ok f part.
Proof. split; [intros []; unfold tail_ok; tauto|intros ((?&?&?)&?&?&?&?); by split]. Qed.

Lemma verify_hash_spec f part s (segs := segments_of f part) :
  sha_handle s = (if hash_appended (image_header f part) =? 0 then None
    else Some (flash_bytes f chip0 (pos_offset part) (Z.to_nat (checked_size segs)))) ->
  image_digest (metadata s) = (if hash_appended (image_header f part) =? 0 then image_digest zero_metadata
    else flash_bytes f chip0 (pos_offset part + checked_size segs) 32) ->
  (if negb (is_null (sha_handle s)) && true then verify_simple_hash env s else ESP_OK) = ESP_OK <->
  (hash_appended (image_header f part) <> 0 ->
    flash_bytes f chip0 (pos_offset part + checked_size segs) 32 =
    sha256 env (flash_bytes f chip0 (pos_offset part) (Z.to_nat (checked_size segs)))).
Proof.
  intros Hs Hd. unfold verify_simple_hash. rewrite Hs, Hd.
  destruct (Z.eqb_spec (hash_appended (image_header f part)) 0); cbn [is_null negb andb]; [by split|].
  case_bool_decide; split; try done; intros; exfalso; auto.
Qed.

(** The part of a checked load after its segments. *)
Definition load_tail (f : F) (part : esp_partition_pos_t) (do_load : bool) (s : load_state) : option (esp_err_t * load_state) :=
  match process_checksum env f (default ESP_ROM_CHECKSUM_INITIAL (checksum s)) false s with
  | (ESP_OK, s) =>
      match process_appended_hash_and_sig env f (pos_size part) true s with
      | (ESP_OK, s) =>
          let err := if negb (is_null (sha_handle s)) && true then verify_simple_hash env s else ESP_OK in
          let s := with_sha None s in
          if negb (is_ok err) then Some (load_failed err s)
          else if BOOTLOADER_BUILD env && do_load && negb (fst (ram_obfs_value s) =? 0) && negb (snd (ram_obfs_value s) =? 0)
          then Some (ESP_OK, deobfuscate env (take (Z.to_nat (segment_count (image (metadata s)))) (segments (metadata s))) s)
          else Some (ESP_OK, s)
      | (err, s) => Some (load_failed err s)
      end
  | (err, s) => Some (load_failed err s)
  end.

Lemma load_tail_spec f part do_load s (A : load_state -> Prop) (N : Prop) c (segs := segments_of f part) :
  pos_offset part mod 4 = 0 -> 0 <= pos_offset part < 2 ^ 31 -> 0 <= segments_size segs < 2 ^ 29 -> segments_size segs mod 4 = 0 ->
  image_len (metadata s) = HEADER_SIZE + segments_size segs -> start_addr (metadata s) = pos_offset part ->
  image (metadata s) = image_header f part -> image_digest (metadata s) = image_digest zero_metadata ->
  checksum s = Some c -> byte_fold c = foldl Z.lxor ESP_ROM_CHECKSUM_INITIAL (segs ≫= segment_bytes f) ->
  sha_handle s = (if hash_appended (image_header f part) =? 0 then None
    else Some (flash_bytes f chip0 (pos_offset part) 24 ++ flash_bytes f chip0 (pos_offset part + HEADER_SIZE) (Z.to_nat (segments_size segs)))) ->
  (forall s', tail_ok f part -> 
    metadata s' = set_len (image_size f part) (set_digest (if hash_appended (image_header f part) =? 0 then image_digest zero_metadata
      else flash_bytes f chip0 (pos_offset part + checked_size segs) 32) (metadata s)) -> A s') ->
  outcome A (tail_ok f part) N (load_tail f part do_load s).
Proof.
  intros Ha Hr Hsize Hsize4 Elen Estart Eimage Edig C Hc Hsha HA. unfold load_tail.
  destruct (checked_size_spec segs Hsize) as [[Hc1 Hc2] Hc4].
  pose proof (process_checksum_spec f (default ESP_ROM_CHECKSUM_INITIAL (checksum s)) false s) as Hck.
  rewrite Elen, Estart in Hck. specialize (Hck ltac:(unfold HEADER_SIZE; lia)
    ltac:(unfold HEADER_SIZE; Z.to_euclidean_division_equations; lia) Hr Ha ltac:(by left)).
  cbv zeta in Hck. change ((HEADER_SIZE + segments_size segs) / 16 * 16 + 16) with (checked_size segs) in Hck. rewrite Hck, C. clear Hck.
  change (default ESP_ROM_CHECKSUM_INITIAL (Some c)) with c. rewrite Hc. cbn [negb andb].
  destruct (Z.eqb_spec (foldl Z.lxor ESP_ROM_CHECKSUM_INITIAL (segs ≫= segment_bytes f)) (flash_byte f chip0 (pos_offset part + checked_size segs - 1)))
    as [Eck|Eck]; cbn [negb]; [|apply load_failed_case; intros [? _]; by apply Eck].
  rewrite Hsha. set (s4 := with_metadata _ _). pose proof (process_hash_spec f (pos_size part) s4) as Hd.
  change (image_len (metadata s4)) with (checked_size segs) in Hd. change (image (metadata s4)) with (image (metadata s)) in Hd.
  change (start_addr (metadata s4)) with (start_addr (metadata s)) in Hd. rewrite Estart, Eimage in Hd.
  destruct (Hd ltac:(unfold HEADER_SIZE in *; lia) Hc4 Hr Ha) as (s5 & -> & M5 & S5). clear Hd.
  change (checked_size segs + _) with (image_size f part) in *.
  destruct (Z.ltb_spec (pos_size part) (image_size f part)) as [Hfit|Hfit]; [apply load_failed_case; intros (_ & _ & ?); lia|].
  change (image_digest (metadata s4)) with (image_digest (metadata s)) in M5. rewrite Edig in M5.
  set (err := if _ && true then _ else _). assert (Herr : err = ESP_OK <-> (hash_appended (image_header f part) <> 0 ->
    flash_bytes f chip0 (pos_offset part + checked_size segs) 32 =
    sha256 env (flash_bytes f chip0 (pos_offset part) (Z.to_nat (checked_size segs))))).
  { apply verify_hash_spec; [rewrite S5|by rewrite M5]. subst s4. cbn [sha_handle with_sha with_metadata metadata]. fold segs.
    destruct (hash_appended _ =? 0); [done|]. cbn [bootloader_sha256_data]. f_equal.
    rewrite (image_bytes_split f (pos_offset part) segs Hsize), <- app_assoc. by rewrite Z.add_assoc. }
  destruct (is_ok err) eqn:Eerr; cbn [negb]; [|apply load_failed_case; intros (_ & Hdig & _); apply Herr in Hdig; by rewrite Hdig in Eerr].
  pose proof (proj1 Herr (proj1 (is_ok_true _) Eerr)) as Hdig. clearbody err.
  destruct (BOOTLOADER_BUILD env && _ && _ && _); (apply HA; [by split|]); [etrans; [apply deobfuscate_frame|]|]; exact M5.
Qed.
Lemma image_load_unfold f mode part m obfs : checked mode part ->
  image_load env f mode part m obfs =
  match process_image_header env f (pos_offset part) true true (LoadState zero_metadata None (Some ESP_ROM_CHECKSUM_INITIAL) m obfs) with
  | (ESP_OK, s) =>
      let! r := process_segments env f (loads mode) s in
      match r with
      | (ESP_OK, s) => load_tail f part (loads mode) s
      | (err, s) => Some (load_failed err s)
      end
  | (err, s) => Some (load_failed err s)
  end.
Proof.
  intros [Hmode Hdbg Hsha Happ Ha Hr Hsz]. unfold image_load. fold (loads mode).
  assert (Hv : negb (BOOTLOADER_BUILD env) || negb (bool_decide (mode = ESP_IMAGE_LOAD_NO_VALIDATE)) = true).
  { destruct (BOOTLOADER_BUILD env); [|done]. by rewrite bool_decide_false by auto. }
  rewrite Hv, Hdbg. replace (pos_offset part =? ESP_BOOTLOADER_OFFSET env) with false by (symmetry; by apply Z.eqb_neq).
  replace (SIXTEEN_MB <? pos_size part) with false by (symmetry; apply Z.ltb_ge; lia). cbn [negb andb orb]. reflexivity.
Qed.

Lemma image_load_spec f mode part m obfs : checked mode part ->
  let all_placed := Forall (fun seg => placed (loads mode) (snd seg) = Some true) (segments_of f part) in
  outcome (fun s' => valid_image env f part /\ all_placed /\ metadata s' = described f part) (valid_image env f part /\ all_placed)
    (Exists (fun seg => placed (loads mode) (snd seg) = None) (segments_of f part)) (image_load env f mode part m obfs).
Proof.
  intros Hck all_placed. rewrite (image_load_unfold f mode part m obfs Hck). destruct Hck as [_ _ Hsha _ Ha Hr _].
  set (s0 := LoadState _ _ _ _ _). destruct (image_header_spec f part s0 Ha ltac:(lia) Hsha) as [Hh1 Hh2].
  destruct (process_image_header env f (pos_offset part) true true s0) as [err s1]. cbn [fst snd] in Hh1, Hh2.
  assert (Hbad : err <> ESP_OK -> ~ (valid_image env f part /\ all_placed)).
  { intros He [[] _]. tauto. }
  destruct err; try by apply load_failed_case, Hbad.
  destruct (proj1 Hh1 eq_refl) as (Hmg & Hchip & Hcount). specialize (Hh2 eq_refl). clear Hbad Hh1.
  pose proof (process_segments_spec f (loads mode) part s1 ESP_ROM_CHECKSUM_INITIAL Ha Hr) as Hp.
  rewrite Hh2 in Hp at 1 2. specialize (Hp eq_refl eq_refl Hcount). cbv zeta in Hp.
  destruct (process_segments env f (loads mode) s1) as [[err s2]|]; [|exact Hp].
  destruct err; try (apply load_failed_case; intros [Hvalid Hpl]; apply Hp, segments_good; split; [apply Hvalid|exact Hpl]).
  destruct Hp as (Hgood & Hsize & Hsize4 & s3 & Hs3 & ->). apply segments_good in Hgood as [Hok Hpl].
  destruct (segments_processed_frame _ _ _ _ _ _ Hs3) as (E1 & E2 & E3).
  destruct Hs3 as [M3 C3 S3]. destruct (C3 ESP_ROM_CHECKSUM_INITIAL) as (c & C & Hc); [by rewrite Hh2|].
  apply (outcome_mono _ (tail_ok f part)); [intros [? _]; by apply valid_image_parts|].
  apply (load_tail_spec f part (loads mode) _ _ _ c Ha Hr Hsize Hsize4); cbn [metadata with_metadata set_len image_len start_addr image image_digest].
  - done.
  - by rewrite E1, Hh2.
  - by rewrite E2, Hh2.
  - rewrite M3. destruct (record_segments_frame (segments_of f part) 0 (metadata s1)) as (_ & _ & _ & ->). by rewrite Hh2.
  - exact C.
  - exact Hc.
  - cbn [sha_handle with_metadata]. rewrite S3, Hh2. cbn [sha_handle with_sha]. by destruct (hash_appended _ =? 0).
  - intros s' Htail Hm'. split; [apply valid_image_parts; by split|]. split; [exact Hpl|]. rewrite Hm', M3, Hh2. done.
Qed.
End Processing.
