(* ===== verification/EspLoad.v ===== *)
(** * Loading images to RAM ([esp_image_format.c], [bootloader_utility.c])

    What a load that [EspImage] models does to RAM: the loaded segments hold the
    image's data, once the obfuscation is undone, and the bootloader's own
    memory is kept. And what the bootloader therefore boots. *)

From S2P Require Import Prelude EspErr Flash Partition OtaData Bootloader EspImage.

(** ** Blocks of RAM *)

Definition holds (m : gmap Z Z) (a : Z) (bs : list Z) : Prop := forall (k : nat) b, bs !! k = Some b -> m !! (a + k) = Some b.

Lemma write_ram_other bs : forall a x m, x < a \/ a + length bs <= x -> write_ram a bs m !! x = m !! x.
Proof.
  induction bs as [|b bs IH]; intros a x m Hx; [done|]. cbn [write_ram length] in *. rewrite IH by lia.
  by rewrite lookup_insert_ne by lia.
Qed.

Lemma write_ram_holds bs : forall a m, holds (write_ram a bs m) a bs.
Proof.
  induction bs as [|b bs IH]; intros a m k x Hk; [done|]. cbn [write_ram]. destruct k as [|k]; cbn in Hk.
  - injection Hk as ->. rewrite write_ram_other by lia. replace (a + 0%nat) with a by lia. by rewrite lookup_insert_eq.
  - rewrite <- (IH (a + 1) (<[a := b]> m) k x Hk). f_equal. lia.
Qed.

Lemma write_ram_app xs : forall a ys m, write_ram a (xs ++ ys) m = write_ram (a + length xs) ys (write_ram a xs m).
Proof.
  induction xs as [|x xs IH]; intros a ys m; cbn [app write_ram length]; [by rewrite Z.add_0_r|]. rewrite IH. f_equal. lia.
Qed.

Lemma read_ram_holds bs : forall a m, holds m a bs -> read_ram a (length bs) m = bs.
Proof.
  intros a m Hm. unfold read_ram. apply list_eq. intros k. rewrite list_lookup_fmap.
  destruct (bs !! k) as [b|] eqn:E.
  - pose proof (lookup_lt_Some _ _ _ E). rewrite lookup_seq_lt by lia. cbn. by rewrite (Hm k b E).
  - rewrite lookup_ge_None in E. by rewrite lookup_seq_ge.
Qed.

Lemma holds_app m a xs ys : holds m a (xs ++ ys) <-> holds m a xs /\ holds m (a + length xs) ys.
Proof.
  unfold holds. split.
  - intros Hm. split; intros k b Hk.
    + apply Hm. by apply lookup_app_l_Some.
    + specialize (Hm (length xs + k)%nat b). rewrite lookup_app_r in Hm by lia. replace (length xs + k - length xs)%nat with k in Hm by lia.
      rewrite <- (Hm Hk). f_equal. lia.
  - intros [Hx Hy] k b Hk. apply lookup_app_Some in Hk as [Hk|[Hl Hk]]; [by apply Hx|].
    rewrite <- (Hy _ _ Hk). f_equal. lia.
Qed.

Lemma holds_frame m m' a bs : (forall x, a <= x < a + length bs -> m' !! x = m !! x) -> holds m a bs -> holds m' a bs.
Proof. intros Hf Hm k b Hk. rewrite Hf; [by apply Hm|]. apply lookup_lt_Some in Hk. lia. Qed.

(** ** Obfuscation *)

Lemma le_bytes_wrap n : forall x, le_bytes n (wrap (8 * n) x) = le_bytes n x.
Proof.
  intros x. rewrite <- le_value_bytes. rewrite <- (le_bytes_length n x) at 1. by rewrite le_bytes_value by apply le_bytes_range.
Qed.

(** Words [j], [j+1], ... of the data as [process_segment_data] stores them. *)
Fixpoint obfuscated (obfs : Z * Z) (n : nat) (j : Z) (data : list Z) : list Z :=
  match n with
  | O => []
  | S n => le_bytes 4 (Z.lxor (le_value (take 4 data)) (obfs_word obfs j)) ++ obfuscated obfs n (j + 1) (drop 4 data)
  end.

Lemma obfuscated_length obfs n : forall j data, length (obfuscated obfs n j data) = (4 * n)%nat.
Proof. induction n as [|n IH]; intros j data; cbn [obfuscated]; [done|]. rewrite length_app, le_bytes_length, IH. lia. Qed.

(** Undoing it: the same words again. *)
Lemma obfuscate_twice w k : le_bytes 4 (Z.lxor (le_value (le_bytes 4 (Z.lxor w k))) k) = le_bytes 4 w.
Proof.
  rewrite le_value_bytes, <- (le_bytes_wrap 4 (Z.lxor _ k)), wrap_lxor, wrap_wrap by lia.
  rewrite <- wrap_lxor, Z.lxor_assoc, Z.lxor_nilpotent, Z.lxor_0_r by lia.
  apply le_bytes_wrap.
Qed.

Lemma deobfuscate_words_spec n : forall j la s data, Forall (in_range 8) data -> length data = (4 * n)%nat ->
  holds (ram s) (la + 4 * j) (obfuscated (ram_obfs_value s) n j data) ->
  let s' := deobfuscate_words n j la s in
  holds (ram s') (la + 4 * j) data /\
  (forall x, x < la + 4 * j \/ la + 4 * j + length data <= x -> ram s' !! x = ram s !! x).
Proof.
  induction n as [|n IH]; intros j la s data Hr Hl Hm; cbn [deobfuscate_words].
  - split; [|done]. by destruct data.
  - cbn [obfuscated] in Hm. apply holds_app in Hm as [Hw Hm]. rewrite le_bytes_length in Hm.
    assert (Ht : length (take 4 data) = 4%nat) by (rewrite length_take; lia).
    pose proof (read_ram_holds _ _ _ Hw) as Hrd. rewrite le_bytes_length in Hrd. rewrite Hrd, obfuscate_twice.
    assert (Hle : le_bytes 4 (le_value (take 4 data)) = take 4 data) by (rewrite <- Ht at 1; by apply le_bytes_value, Forall_take).
    rewrite Hle. set (s1 := LoadState _ _ _ _ _).
    destruct (IH (j + 1) la s1 (drop 4 data)) as [H1 H2]; [by apply Forall_drop|rewrite length_drop; lia| |].
    { subst s1. cbn [ram ram_obfs_value]. replace (la + 4 * (j + 1)) with (la + 4 * j + 4%nat) by lia.
      refine (holds_frame _ _ _ _ _ Hm). intros x Hx. apply write_ram_other. rewrite Ht. lia. }
    rewrite length_drop in H2. split.
    + rewrite <- (take_drop 4 data). apply holds_app. rewrite Ht. split; [|by replace (la + 4 * j + 4%nat) with (la + 4 * (j + 1)) by lia].
      refine (holds_frame _ _ _ _ _ (write_ram_holds (take 4 data) (la + 4 * j) (ram s))). intros x Hx. rewrite H2 by lia. done.
    + intros x Hx. rewrite H2 by lia. apply write_ram_other. lia.
Qed.

Section Ram.
Context {F : Type} `{FlashLaws F} `{!FlashReliable F} (env : image_env).

(** The obfuscation once a segment has been processed. *)
Definition settle (obfs : Z * Z) : Z * Z :=
  if BOOTLOADER_BUILD env && ((fst obfs =? 0) || (snd obfs =? 0)) then random_words env else obfs.

Lemma settle_idemp obfs : settle (settle obfs) = settle obfs.
Proof. unfold settle. destruct (BOOTLOADER_BUILD env && ((fst obfs =? 0) || (snd obfs =? 0))) eqn:E; [by case_match|by rewrite E]. Qed.

Lemma set_up_obfs_ram s : ram_obfs_value (set_up_obfs env s) = settle (ram_obfs_value s) /\ ram (set_up_obfs env s) = ram s.
Proof. unfold set_up_obfs, settle. by case_match. Qed.

Lemma word_loop_ram n : forall (k : nat) data la do_load s, length data = (4 * (k + n))%nat ->
  let s' := word_loop env n (4 * k) data la do_load s in
  ram_obfs_value s' = ram_obfs_value s /\
  ram s' = if BOOTLOADER_BUILD env && do_load
           then write_ram (la + 4 * k) (obfuscated (ram_obfs_value s) n k (drop (4 * k) data)) (ram s) else ram s.
Proof.
  induction n as [|n IH]; intros k data la do_load s Hl; cbn [word_loop]; [split; [done|]; by destruct (BOOTLOADER_BUILD env && do_load)|].
  replace (4 * k + 4) with (4 * S k) by lia. destruct (IH (S k) data la do_load (LoadState (metadata s)
    (if (4 * k) mod 1024 =? 0 then bootloader_sha256_data (field data (Z.to_nat (4 * k)) (Z.to_nat (Z.min 1024 (length data - 4 * k)))) (sha_handle s) else sha_handle s)
    (match checksum s with Some c => Some (Z.lxor c (le_value (field data (Z.to_nat (4 * k)) 4))) | None => None end)
    (if BOOTLOADER_BUILD env && do_load
     then write_ram (la + 4 * k) (le_bytes 4 (Z.lxor (le_value (field data (Z.to_nat (4 * k)) 4)) (obfs_word (ram_obfs_value s) ((4 * k) / 4)))) (ram s) else ram s)
    (ram_obfs_value s))) as [H1 H2]; [lia|].
  split; [exact H1|]. rewrite H2. cbn [ram ram_obfs_value]. destruct (BOOTLOADER_BUILD env && do_load); [|done].
  cbn [obfuscated]. rewrite write_ram_app, le_bytes_length, drop_drop.
  replace (Z.to_nat (4 * k)) with (4 * k)%nat by lia. replace (4 * k / 4) with (Z.of_nat k) by (Z.to_euclidean_division_equations; lia).
  replace (4 * k + 4)%nat with (4 * S k)%nat by lia. replace (Z.of_nat (S k)) with (k + 1) by lia.
  replace (la + 4 * k + 4%nat) with (la + 4 * (k + 1)) by lia. done.
Qed.

(** What a part of a segment becomes in RAM. *)
Definition put (do_load : bool) (obfs : Z * Z) (la : Z) (data : list Z) (m : gmap Z Z) : gmap Z Z :=
  if BOOTLOADER_BUILD env && do_load then write_ram la (obfuscated obfs (length data / 4) 0 data) m else m.

Lemma put_other do_load obfs la data m x :
  (BOOTLOADER_BUILD env && do_load = true -> x < la \/ la + length data <= x) -> put do_load obfs la data m !! x = m !! x.
Proof.
  intros Hx. unfold put. destruct (_ && _); [|done]. specialize (Hx eq_refl). apply write_ram_other. rewrite obfuscated_length.
  pose proof (Nat.div_mod_eq (length data) 4). lia.
Qed.

Lemma segment_data_ram f la da n do_load s c s' : 0 <= n -> n mod 4 = 0 -> checksum s = Some c ->
  process_segment_data env f la da n do_load s = (ESP_OK, s') ->
  ram_obfs_value s' = settle (ram_obfs_value s) /\
  ram s' = put do_load (settle (ram_obfs_value s)) la (flash_bytes f chip0 da (Z.to_nat n)) (ram s).
Proof.
  intros Hn Hm Hc. unfold process_segment_data. rewrite Hc, andb_false_r.
  unfold bootloader_mmap. rewrite rel_mmap. cbn [is_ok is_null andb]. intros [= <-].
  set (data := flash_bytes f chip0 da (Z.to_nat n)).
  assert (Hl : length data = (4 * (0 + Z.to_nat (n / 4)))%nat).
  { unfold data. rewrite flash_bytes_length. Z.to_euclidean_division_equations; lia. }
  destruct (word_loop_ram (Z.to_nat (n / 4)) 0 data la do_load (set_up_obfs env s) Hl) as [H1 H2].
  destruct (set_up_obfs_ram s) as [Ho Hr]. change (4 * 0%nat) with 0 in *. rewrite H1, H2, Ho, Hr. split; [done|]. unfold put.
  rewrite Hl. replace (4 * (0 + Z.to_nat (n / 4)) / 4)%nat with (Z.to_nat (n / 4)) by (rewrite Nat.mul_comm, Nat.div_mul; lia).
  by rewrite Z.add_0_r.
Qed.

Context (Hpages : 2 <= bootloader_mmap_get_free_pages env <= 65535).

(** A part of a segment, and what is left. *)
Lemma part_step da r : 0 < r -> r mod 4 = 0 -> 
  let offset_page := if Z.land da (SPI_FLASH_MMU_PAGE_SIZE - 1) =? 0 then 0 else 1 in
  let n := Z.min r (u32 (u32 (bootloader_mmap_get_free_pages env - offset_page) * SPI_FLASH_MMU_PAGE_SIZE)) in
  0 < n <= r /\ n mod 4 = 0 /\ (r <= (bootloader_mmap_get_free_pages env - 1) * 65536 -> n = r).
Proof.
  intros Hr Hm off n. subst n. rewrite part_size by (done || (subst off; case_match; tauto)).
  assert (Ho : off = 0 \/ off = 1) by (subst off; case_match; tauto). clearbody off.
  destruct (Z.min_spec r ((bootloader_mmap_get_free_pages env - off) * 65536)) as [[H1 ->]|[H1 ->]]; [lia|].
  split; [lia|]. split; [|lia]. replace ((bootloader_mmap_get_free_pages env - off) * 65536)
    with (0 + (bootloader_mmap_get_free_pages env - off) * 16384 * 4) by lia. by rewrite Z.mod_add.
Qed.

(** What [r] bytes of a segment, [data], do to RAM. *)
Record stored_at (do_load : bool) (la r : Z) (data : list Z) (s s' : load_state) : Prop := {
  st_settle : settle (ram_obfs_value s') = settle (ram_obfs_value s);
  st_after : 0 < r \/ ram_obfs_value s = settle (ram_obfs_value s) -> ram_obfs_value s' = settle (ram_obfs_value s);
  st_other : forall x, (BOOTLOADER_BUILD env && do_load = true -> x < la \/ la + r <= x) -> ram s' !! x = ram s !! x;
  st_put : r <= (bootloader_mmap_get_free_pages env - 1) * 65536 -> ram s' = put do_load (settle (ram_obfs_value s)) la data (ram s);
}.

Lemma stored_nothing do_load la s : stored_at do_load la 0 [] s s.
Proof. split; [done|by intros [?|?]; [lia|]|done|]. intros _. unfold put. by destruct (_ && _). Qed.

Lemma segment_loop_ram f la do_load (fuel : nat) : forall da r s c e s',
  0 <= da -> 0 <= r -> r mod 4 = 0 -> da + r < 2 ^ 32 -> checksum s = Some c ->
  segment_loop env fuel f la da r do_load s = Some (e, s') ->
  stored_at do_load la r (flash_bytes f chip0 da (Z.to_nat r)) s s'.
Proof.
  induction fuel as [|fuel IH]; intros da r s c e s' Hda Hr Hm Hw Hc; cbn [segment_loop];
    (destruct (Z.eqb_spec r 0) as [->|Hr0]; [intros [= <- <-]; apply stored_nothing|]); [done|].
  cbv zeta. pose proof (part_step da r ltac:(lia) Hm) as Hpart. cbv zeta in Hpart. set (n := Z.min r _) in *.
  destruct Hpart as (Hn & Hn4 & Hone). clearbody n.
  destruct (segment_data_spec env f la da n do_load s c ltac:(lia) Hn4 Hc) as (s1 & E & Hp).
  rewrite E, u32_small by lia. destruct (segment_data_ram f la da n do_load s c s1 ltac:(lia) Hn4 Hc E) as [Ho Hram].
  destruct Hp as (_ & (c0 & _ & Hc1) & _). intros Hl.
  destruct (IH (da + n) (r - n) s1 _ e s' ltac:(lia) ltac:(lia) ltac:(by rewrite Zminus_mod, Hm, Hn4) ltac:(lia) Hc1 Hl) as [H1 H2 H3 H4].
  rewrite Ho, settle_idemp in *. split.
  - done.
  - intros _. apply H2. by right.
  - intros x Hx. rewrite H3 by (intros Hb; specialize (Hx Hb); lia). rewrite Hram. apply put_other. rewrite flash_bytes_length.
    intros Hb. specialize (Hx Hb). lia.
  - intros Hfit. specialize (Hone Hfit) as ->. rewrite H4, Hram by lia. rewrite Z.sub_diag. unfold put at 1. by destruct (_ && _).
Qed.

Lemma process_segment_ram f i a do_load s c e s' : let h := decode_segment_header (flash_bytes f chip0 a 8) in
  a mod 4 = 0 -> 0 <= a -> a + 8 + SIXTEEN_MB < 2 ^ 32 -> checksum s = Some c ->
  process_segment env f i a do_load s = Some (e, s') ->
  (e <> ESP_OK /\ ram s' = ram s /\ ram_obfs_value s' = ram_obfs_value s) \/
  (placed env do_load h = Some true /\
   stored_at (do_load && should_load env (load_addr h)) (load_addr h) (data_len h) (segment_bytes f (a + 8, h)) s s').
Proof.
  intros h Ha Ha0 Hw Hc. unfold process_segment. rewrite (flash_read_ok env f a) by (done || lia).
  change (Z.to_nat SEGMENT_HEADER_SIZE) with 8%nat. fold h.
  unfold SEGMENT_HEADER_SIZE, SIXTEEN_MB in *. rewrite (u32_small (a + 8)) by lia.
  pose proof (verify_segment_spec env Hpages h (a + 8)) as Hv. destruct (verify_segment_header env h (a + 8)) eqn:E;
    [|intros [= <- <-]; by left..].
  assert (Hok : segment_ok env (a + 8, h)) by by apply Hv. destruct (segment_ok_size env f a Hok) as [Hl Hm]. fold h in Hl, Hm.
  rewrite Hm. cbn [Z.eqb negb]. fold (placed env do_load h). unfold SIXTEEN_MB in Hl.
  destruct (placed env do_load h) as [[]|] eqn:Ep; cbn [negb]; [|intros [= <- <-]; by left|done].
  intros Hseg. right. split; [done|].
  unshelve epose proof (segment_loop_ram f _ _ _ (a + 8) (data_len h) _ c e s' _ _ Hm _ _ Hseg) as [H1 H2 H3 H4]; [lia|lia|lia|exact Hc|by split].
Qed.

(** Addresses no loaded segment reaches. *)
Definition untouched (do_load : bool) (segs : list (Z * esp_image_segment_header_t)) (x : Z) : Prop :=
  Forall (fun seg => BOOTLOADER_BUILD env && (do_load && should_load env (load_addr (snd seg))) = true ->
            placed env do_load (snd seg) = Some true ->
            x < load_addr (snd seg) \/ load_addr (snd seg) + data_len (snd seg) <= x) segs.

(** RAM after the segments, still obfuscated. *)
Fixpoint stores (f : F) (do_load : bool) (obfs : Z * Z) (segs : list (Z * esp_image_segment_header_t)) (m : gmap Z Z) : gmap Z Z :=
  match segs with
  | [] => m
  | seg :: segs =>
      stores f do_load obfs segs
        (put (do_load && should_load env (load_addr (snd seg))) obfs (load_addr (snd seg)) (segment_bytes f seg) m)
  end.

(** Segments that are mapped in one part. *)
Definition one_part (segs : list (Z * esp_image_segment_header_t)) : Prop :=
  Forall (fun seg => data_len (snd seg) <= (bootloader_mmap_get_free_pages env - 1) * 65536) segs.

Lemma segments_loop_ram f do_load (n : nat) : forall i a s c e z s',
  a mod 4 = 0 -> 0 <= a -> a + n * (8 + SIXTEEN_MB) < 2 ^ 32 -> checksum s = Some c ->
  (i + n <= ESP_IMAGE_MAX_SEGMENTS)%nat -> length (segments (metadata s)) = ESP_IMAGE_MAX_SEGMENTS ->
  segments_loop env n f i a do_load s = Some (e, z, s') ->
  let segs := image_segments f n a in
  (forall x, untouched do_load segs x -> ram s' !! x = ram s !! x) /\
  settle (ram_obfs_value s') = settle (ram_obfs_value s) /\
  (e = ESP_OK -> Exists (fun seg => 0 < data_len (snd seg)) segs \/ ram_obfs_value s = settle (ram_obfs_value s) ->
   ram_obfs_value s' = settle (ram_obfs_value s)) /\
  (e = ESP_OK -> one_part segs -> ram s' = stores f do_load (settle (ram_obfs_value s)) segs (ram s)).
Proof.
  induction n as [|n IH]; intros i a s c e z s' Ha Ha0 Hw Hc Hi Hl; cbn [image_segments].
  - cbn [segments_loop]. intros [= <- <- <-]. repeat split. intros _ [Hx|Hx]; [by apply Exists_nil in Hx|done].
  - intros Hl'. unfold untouched, one_part. rewrite Exists_cons. setoid_rewrite Forall_cons. cbn [stores snd].
    destruct (process_segment env f i a do_load s) as [[err s1]|] eqn:E; [destruct (decide (err = ESP_OK)) as [->|Herr]|].
    + destruct (segments_loop_cons env Hpages f do_load n i a s c s1 Ha Ha0 Hw Hc Hi Hl E) as (E' & A1 & A2 & A3 & [c1 A4] & A5 & A6 & A7).
      rewrite E' in Hl'. destruct (IH (S i) _ _ c1 e z s' A1 A2 A3 A4 ltac:(lia) A5 Hl') as (R1 & R2 & R3 & R4).
      cbn [ram ram_obfs_value with_metadata] in R1, R2, R3, R4.
      unfold SIXTEEN_MB in *. destruct (process_segment_ram f i a do_load s c ESP_OK s1 Ha Ha0 ltac:(unfold SIXTEEN_MB; lia) Hc E) as [[? _]|[Hpl [S1 S2 S3 S4]]]; [done|].
      repeat split.
      * intros x [Hx Hxs]. rewrite (R1 x Hxs). apply S3. intros Hb. by apply Hx.
      * by rewrite R2.
      * intros He Hor. rewrite <- S1. apply R3; [done|].
        assert (Hs1 : 0 < data_len (decode_segment_header (flash_bytes f chip0 a 8)) \/ ram_obfs_value s = settle (ram_obfs_value s) ->
          ram_obfs_value s1 = settle (ram_obfs_value s1)) by (intros Hx; by rewrite S1, (S2 Hx)).
        destruct Hor as [[Hx|Hx]|Hx]; [right; apply Hs1; by left|by left|right; apply Hs1; by right].
      * intros He [Hone Hones]. rewrite (R4 He Hones), S1. by rewrite (S4 Hone).
    + rewrite segments_loop_stop, E in Hl' by (lia || (intros s2; congruence)). injection Hl' as -> <- ->.
      unfold SIXTEEN_MB in *. destruct (process_segment_ram f i a do_load s c e s' Ha Ha0 ltac:(unfold SIXTEEN_MB; lia) Hc E)
        as [(_ & Hr & Ho)|[Hpl [S1 S2 S3 S4]]].
      * rewrite Hr, Ho. done.
      * repeat split; [|done..]. intros x [Hx _]. apply S3. intros Hb. by apply Hx.
    + by rewrite segments_loop_stop, E in Hl' by (lia || (intros s2; congruence)).
Qed.

(** A segment that needs two parts: the second is written over the first. *)
Lemma second_part_overwrites f la do_load (fuel : nat) da r s c e s' (n := bootloader_mmap_get_free_pages env * 65536) :
  0 <= da -> Z.land da (SPI_FLASH_MMU_PAGE_SIZE - 1) = 0 -> r mod 4 = 0 -> da + r < 2 ^ 32 -> n < r -> n < 2 ^ 32 ->
  r - n <= (bootloader_mmap_get_free_pages env - 1) * 65536 -> checksum s = Some c ->
  segment_loop env (S fuel) f la da r do_load s = Some (e, s') ->
  let obfs := settle (ram_obfs_value s) in
  ram s' = put do_load obfs la (flash_bytes f chip0 (da + n) (Z.to_nat (r - n)))
             (put do_load obfs la (flash_bytes f chip0 da (Z.to_nat n)) (ram s)).
Proof.
  intros Hda Hal Hm Hw Hlong Hn32 Hfit Hc. cbn [segment_loop]. destruct (Z.eqb_spec r 0) as [->|_]; [lia|]. cbv zeta. rewrite Hal, Z.eqb_refl, Z.sub_0_r.
  assert (Hn4 : n mod 4 = 0) by (subst n; replace (bootloader_mmap_get_free_pages env * 65536) with (0 + bootloader_mmap_get_free_pages env * 16384 * 4) by lia; by rewrite Z.mod_add).
  replace (Z.min r _) with n by (unfold SPI_FLASH_MMU_PAGE_SIZE; rewrite (u32_small (bootloader_mmap_get_free_pages env)), u32_small by lia; lia).
  destruct (segment_data_spec env f la da n do_load s c ltac:(lia) Hn4 Hc) as (s1 & E & Hp).
  rewrite E, u32_small by lia. destruct (segment_data_ram f la da n do_load s c s1 ltac:(lia) Hn4 Hc E) as [Ho Hram].
  destruct Hp as (_ & (c0 & _ & Hc1) & _). intros Hl.
  destruct (segment_loop_ram f la do_load fuel (da + n) (r - n) s1 _ e s' ltac:(lia) ltac:(lia) ltac:(by rewrite Zminus_mod, Hm, Hn4) ltac:(lia) Hc1 Hl)
    as [_ _ _ Hput].
  by rewrite (Hput Hfit), Hram, Ho, settle_idemp.
Qed.

(** ** The loaded segments *)

Definition loadable (seg : Z * esp_image_segment_header_t) : Prop := should_load env (load_addr (snd seg)) = true.

Definition outside (x : Z) (seg : Z * esp_image_segment_header_t) : Prop :=
  x < load_addr (snd seg) \/ load_addr (snd seg) + data_len (snd seg) <= x.

(** Loaded segments that do not overlap. *)
Definition apart : list (Z * esp_image_segment_header_t) -> Prop :=
  ForallOrdPairs (fun s1 s2 => loadable s1 -> loadable s2 ->
    load_addr (snd s1) + data_len (snd s1) <= load_addr (snd s2) \/ load_addr (snd s2) + data_len (snd s2) <= load_addr (snd s1)).

Definition sized (seg : Z * esp_image_segment_header_t) : Prop := 0 <= data_len (snd seg) /\ data_len (snd seg) mod 4 = 0.

Lemma segment_bytes_length f seg : sized seg -> Z.of_nat (length (segment_bytes f seg)) = data_len (snd seg).
Proof. intros [Hs _]. unfold segment_bytes. rewrite flash_bytes_length. lia. Qed.

Lemma apart_cons seg segs : apart (seg :: segs) -> loadable seg -> Forall sized segs ->
  apart segs /\ forall (x : Z) y, y ∈ segs -> loadable y -> ~ outside x seg -> outside x y.
Proof.
  intros Ha Hl Hz. inversion Ha as [|? ? Hh Ht]; subst. split; [done|]. intros x y Hy Hly. unfold outside.
  rewrite Forall_forall in Hh. specialize (Hh y Hy Hl Hly). lia.
Qed.

Lemma stores_other f obfs segs : forall m x, Forall sized segs -> (forall seg, seg ∈ segs -> loadable seg -> outside x seg) ->
  stores f true obfs segs m !! x = m !! x.
Proof.
  induction segs as [|seg segs IH]; intros m x Hz Ho; cbn [stores]; [done|]. apply Forall_cons in Hz as [Hz1 Hz].
  rewrite IH by (done || (intros y Hy; apply Ho; by right)). apply put_other. rewrite (segment_bytes_length f seg Hz1).
  intros [_ Hl]%andb_prop. apply Ho; [by left|exact Hl].
Qed.

Lemma stores_holds (Hbuild : BOOTLOADER_BUILD env = true) f obfs segs : forall m, Forall sized segs -> apart segs ->
  Forall (fun seg => loadable seg -> holds (stores f true obfs segs m) (load_addr (snd seg))
            (obfuscated obfs (length (segment_bytes f seg) / 4) 0 (segment_bytes f seg))) segs.
Proof.
  induction segs as [|seg segs IH]; intros m Hz Ha; [constructor|]. apply Forall_cons in Hz as [Hz1 Hz]. constructor.
  - intros Hl. cbn [stores]. destruct (apart_cons _ _ Ha Hl Hz) as [_ Hd].
    refine (holds_frame _ _ _ _ _ (write_ram_holds _ (load_addr (snd seg)) m)). intros x Hx. rewrite stores_other; [|done|].
    + unfold put. unfold loadable in Hl. by rewrite Hbuild, Hl.
    + intros y Hy Hly. apply Hd; [done|done|]. unfold outside. rewrite obfuscated_length, <- (segment_bytes_length f seg Hz1) in *.
      pose proof (Nat.div_mod_eq (length (segment_bytes f seg)) 4). lia.
  - apply IH; [done|]. by inversion Ha.
Qed.

Lemma deobfuscate_words_other (n : nat) : forall j la s x, x < la + 4 * j \/ la + 4 * (j + n) <= x ->
  ram (deobfuscate_words n j la s) !! x = ram s !! x.
Proof.
  induction n as [|n IH]; intros j la s x Hx; cbn [deobfuscate_words]; [done|]. rewrite IH by lia. cbn [ram].
  apply write_ram_other. rewrite le_bytes_length. lia.
Qed.

(** One step of the deobfuscation. *)
Definition deobfuscate_one (seg : Z * esp_image_segment_header_t) (s : load_state) : load_state :=
  if should_load env (load_addr (snd seg)) then deobfuscate_words (Z.to_nat (data_len (snd seg) / 4)) 0 (load_addr (snd seg)) s else s.

Lemma deobfuscate_one_obfs seg s : ram_obfs_value (deobfuscate_one seg s) = ram_obfs_value s.
Proof. unfold deobfuscate_one. case_match; [apply deobfuscate_words_frame|done]. Qed.

Lemma deobfuscate_one_other seg s x : sized seg -> (loadable seg -> outside x seg) -> ram (deobfuscate_one seg s) !! x = ram s !! x.
Proof.
  intros [Hs Hm] Ho. unfold deobfuscate_one. case_match eqn:E; [|done]. specialize (Ho E). unfold outside in Ho.
  apply deobfuscate_words_other. rewrite Z2Nat.id by (Z.to_euclidean_division_equations; lia). Z.to_euclidean_division_equations; lia.
Qed.

Lemma deobfuscate_one_holds f seg s : sized seg -> loadable seg ->
  holds (ram s) (load_addr (snd seg)) (obfuscated (ram_obfs_value s) (length (segment_bytes f seg) / 4) 0 (segment_bytes f seg)) ->
  holds (ram (deobfuscate_one seg s)) (load_addr (snd seg)) (segment_bytes f seg).
Proof.
  intros Hz Hl Hh. pose proof (segment_bytes_length f seg Hz) as Hlen. destruct Hz as [Hs Hm].
  assert (E : (length (segment_bytes f seg) / 4)%nat = Z.to_nat (data_len (snd seg) / 4)).
  { rewrite <- Hlen. apply Nat2Z.inj. rewrite Nat2Z.inj_div, Z2Nat.id by (Z.to_euclidean_division_equations; lia). done. }
  rewrite E in Hh. unfold deobfuscate_one. unfold loadable in Hl. rewrite Hl.
  destruct (deobfuscate_words_spec (Z.to_nat (data_len (snd seg) / 4)) 0 (load_addr (snd seg)) s (segment_bytes f seg)) as [H1 _].
  - apply flash_bytes_range.
  - apply Nat2Z.inj. rewrite Hlen. Z.to_euclidean_division_equations; lia.
  - by rewrite Z.add_0_r.
  - by rewrite Z.add_0_r in H1.
Qed.

Lemma deobfuscate_other segs : forall s x, Forall sized segs -> (forall seg, seg ∈ segs -> loadable seg -> outside x seg) ->
  ram (deobfuscate env (snd <$> segs) s) !! x = ram s !! x.
Proof.
  induction segs as [|seg segs IH]; intros s x Hz Ho; [done|]. apply Forall_cons in Hz as [Hz1 Hz].
  change (ram (deobfuscate env (snd <$> segs) (deobfuscate_one seg s)) !! x = ram s !! x).
  rewrite IH by (done || (intros y Hy; apply Ho; by right)). apply deobfuscate_one_other; [done|]. apply Ho. by left.
Qed.

Lemma deobfuscate_spec f segs : forall s, Forall sized segs -> apart segs ->
  Forall (fun seg => loadable seg -> holds (ram s) (load_addr (snd seg))
            (obfuscated (ram_obfs_value s) (length (segment_bytes f seg) / 4) 0 (segment_bytes f seg))) segs ->
  Forall (fun seg => loadable seg -> holds (ram (deobfuscate env (snd <$> segs) s)) (load_addr (snd seg)) (segment_bytes f seg)) segs.
Proof.
  induction segs as [|seg segs IH]; intros s Hz Ha Hh; [constructor|].
  apply Forall_cons in Hz as [Hz1 Hz]. apply Forall_cons in Hh as [Hh1 Hh].
  change (deobfuscate env (snd <$> seg :: segs) s) with (deobfuscate env (snd <$> segs) (deobfuscate_one seg s)). constructor.
  - intros Hl. destruct (apart_cons _ _ Ha Hl Hz) as [_ Hd].
    refine (holds_frame _ _ _ _ _ (deobfuscate_one_holds f seg s Hz1 Hl (Hh1 Hl))). intros x Hx.
    apply deobfuscate_other; [done|]. intros y Hy Hly. apply Hd; [done|done|]. unfold outside.
    rewrite (segment_bytes_length f seg Hz1) in Hx. lia.
  - apply IH; [done|by inversion Ha|]. rewrite Forall_forall in Hh. apply Forall_forall. intros y Hy Hly. rewrite deobfuscate_one_obfs.
    refine (holds_frame _ _ _ _ _ (Hh y Hy Hly)). intros x Hx. apply deobfuscate_one_other; [done|]. intros Hl.
    destruct (apart_cons _ _ Ha Hl Hz) as [_ Hd]. destruct (Z.lt_ge_cases x (load_addr (snd seg))) as [?|?]; [by left|].
    destruct (Z.le_gt_cases (load_addr (snd seg) + data_len (snd seg)) x) as [?|?]; [by right|].
    specialize (Hd x y Hy Hly ltac:(unfold outside; lia)). unfold outside in Hd. rewrite obfuscated_length in Hx.
    rewrite Forall_forall in Hz. pose proof (segment_bytes_length f y (Hz y Hy)). pose proof (Nat.div_mod_eq (length (segment_bytes f y)) 4). lia.
Qed.

(** ** The whole load *)

Definition same_ram (s s' : load_state) : Prop := ram s' = ram s /\ ram_obfs_value s' = ram_obfs_value s.

Lemma image_header_ram f off want verify s : same_ram s (snd (process_image_header env f off want verify s)).
Proof.
  unfold process_image_header. destruct (bootloader_flash_read _ _ _ _) as [err bs]. destruct err; try done.
  destruct verify; [|done]. destruct (_ && negb (sha256_allocated env)); [done|].
  by destruct (verify_image_header _ _), (negb (hash_appended _ =? 0) && want).
Qed.

Lemma checksum_frame f cw skip s : let r := process_checksum env f cw skip s in
  same_ram s (snd r) /\ segments (metadata (snd r)) = segments (metadata s) /\ image (metadata (snd r)) = image (metadata s).
Proof.
  unfold process_checksum. destruct (if _ || _ then _ else _) as [err bs]. destruct err; try done. by case_match.
Qed.

Lemma appended_hash_frame f len verify s : let r := process_appended_hash_and_sig env f len verify s in
  same_ram s (snd r) /\ segments (metadata (snd r)) = segments (metadata s) /\ image (metadata (snd r)) = image (metadata s).
Proof.
  unfold process_appended_hash_and_sig. destruct (if _ && _ then _ else _) as [err bs]. destruct err; try done.
  destruct (negb _); by case_match.
Qed.

Definition deobfuscates (do_load : bool) (s : load_state) : bool :=
  BOOTLOADER_BUILD env && do_load && negb (fst (ram_obfs_value s) =? 0) && negb (snd (ram_obfs_value s) =? 0).

Lemma load_tail_ram f part do_load s e s' : load_tail env f part do_load s = Some (e, s') ->
  (same_ram s s' /\ (e = ESP_OK -> deobfuscates do_load s = false)) \/
  (e = ESP_OK /\ deobfuscates do_load s = true /\ exists s5, same_ram s s5 /\
     s' = deobfuscate env (take (Z.to_nat (segment_count (image (metadata s)))) (segments (metadata s))) s5).
Proof.
  unfold load_tail. destruct (checksum_frame f (default ESP_ROM_CHECKSUM_INITIAL (checksum s)) false s) as ([R1 O1] & G1 & I1).
  destruct (process_checksum _ _ _ _ _) as [e1 s1]. cbn [snd] in *. destruct e1; try (intros [= <- <-]; by left).
  destruct (appended_hash_frame f (pos_size part) true s1) as ([R2 O2] & G2 & I2).
  destruct (process_appended_hash_and_sig _ _ _ _ _) as [e2 s2]. cbn [snd] in *.
  assert (Hs : same_ram s s2) by (split; congruence). destruct e2; try (intros [= <- <-]; by left).
  set (err := if _ && true then _ else _). destruct (is_ok err) eqn:Eerr; cbn [negb].
  2: { intros [= <- <-]. left. split; [exact Hs|]. clearbody err. by destruct err. }
  cbn [ram_obfs_value with_sha metadata]. unfold deobfuscates. rewrite (proj2 Hs), G2, G1, I2, I1.
  destruct (BOOTLOADER_BUILD env && do_load && _ && _) eqn:Ed; intros [= <- <-]; [right|by left].
  split; [done|]. split; [done|]. by exists (with_sha None s2).
Qed.

Lemma image_segments_length f n : forall a, length (image_segments f n a) = n.
Proof. induction n as [|n IH]; intros a; [done|]. cbn [image_segments length]. by rewrite IH. Qed.

Lemma described_segments f part : segment_count (image_header f part) <= ESP_IMAGE_MAX_SEGMENTS -> forall d,
  metadata d = set_len (HEADER_SIZE + segments_size (segments_of f part)) (record_segments 0 (segments_of f part)
    (Metadata (pos_offset part) (image_header f part) (segments zero_metadata) (segment_data zero_metadata) HEADER_SIZE (image_digest zero_metadata))) ->
  take (Z.to_nat (segment_count (image (metadata d)))) (segments (metadata d)) = snd <$> segments_of f part.
Proof.
  intros Hn d ->. cbn [image set_len segments].
  destruct (record_segments_frame (segments_of f part) 0 (Metadata (pos_offset part) (image_header f part) (segments zero_metadata)
    (segment_data zero_metadata) HEADER_SIZE (image_digest zero_metadata))) as (_ & -> & _). cbn [image].
  set (d0 := Metadata _ _ _ _ _ _). assert (Hlen : length (segments_of f part) = Z.to_nat (segment_count (image_header f part)))
    by apply image_segments_length. rewrite <- Hlen. change (Z.of_nat ESP_IMAGE_MAX_SEGMENTS) with 16 in Hn.
  apply list_eq. intros k. rewrite list_lookup_fmap. destruct (decide (k < length (segments_of f part))%nat) as [Hk|Hk].
  - rewrite lookup_take_lt by done. apply (record_segments_lookup (segments_of f part) 0 d0 k); [cbn; lia|cbn; lia|done].
  - rewrite lookup_take_ge by lia. by rewrite (lookup_ge_None_2 (segments_of f part)) by lia.
Qed.

(** What the loop over the segments leaves, whatever it returns. *)
Lemma process_segments_ram f do_load part s e s' :
  pos_offset part mod 4 = 0 -> 0 <= pos_offset part < 2 ^ 31 -> checksum s = Some ESP_ROM_CHECKSUM_INITIAL ->
  metadata s = Metadata (pos_offset part) (image_header f part) (segments zero_metadata) (segment_data zero_metadata) HEADER_SIZE
                 (image_digest zero_metadata) ->
  segment_count (image_header f part) <= ESP_IMAGE_MAX_SEGMENTS ->
  process_segments env f do_load s = Some (e, s') ->
  let segs := segments_of f part in
  (forall x, untouched do_load segs x -> ram s' !! x = ram s !! x) /\
  (e = ESP_OK -> Exists (fun seg => 0 < data_len (snd seg)) segs -> ram_obfs_value s' = settle (ram_obfs_value s)) /\
  (e = ESP_OK -> one_part segs -> ram s' = stores f do_load (settle (ram_obfs_value s)) segs (ram s)).
Proof.
  intros Ha Hr Hc Hm Hn. unfold process_segments. rewrite Hm. cbn [start_addr image_len image]. unfold HEADER_SIZE in *.
  rewrite (u32_small (pos_offset part + 24)) by lia.
  set (n := Z.to_nat (segment_count (image_header f part))).
  assert (Hn' : (n <= 16)%nat) by (unfold n; change (Z.of_nat ESP_IMAGE_MAX_SEGMENTS) with 16 in Hn; lia).
  destruct (segments_loop env n f 0 (pos_offset part + 24) do_load s) as [[[err z] s1]|] eqn:E; [|done].
  apply (segments_loop_ram f do_load n 0 _ s ESP_ROM_CHECKSUM_INITIAL) in E as (H1 & _ & H3 & H4);
    [|Z.to_euclidean_division_equations; lia|lia|unfold SIXTEEN_MB; lia|exact Hc|exact Hn'|by rewrite Hm].
  intros Hres. assert (Hs : same_ram s1 s' /\ (e = ESP_OK -> err = ESP_OK)).
  { destruct err; try (by injection Hres as <- <-). by case_match; injection Hres as <- <-. }
  destruct Hs as [[-> ->] He]. split; [exact H1|]. split; [intros Hx Hex; apply H3; [by apply He|by left]|intros Hx; apply H4; by apply He].
Qed.

Lemma loads_build mode : loads env mode = true -> BOOTLOADER_BUILD env = true.
Proof. by intros [? _]%andb_prop. Qed.

Lemma segments_sized f part : Forall (segment_ok env) (segments_of f part) -> Forall sized (segments_of f part).
Proof.
  unfold segments_of. generalize (Z.to_nat (segment_count (image_header f part))). intros n. generalize (pos_offset part + HEADER_SIZE).
  induction n as [|n IH]; intros a; [constructor|]. cbn [image_segments]. intros [Hok Hoks]%Forall_cons. constructor; [|by apply IH].
  destruct (segment_ok_size env f a Hok). split; cbn [snd]; lia.
Qed.

Lemma settled (Hbuild : BOOTLOADER_BUILD env = true) obfs : fst (random_words env) <> 0 -> snd (random_words env) <> 0 ->
  negb (fst (settle obfs) =? 0) && negb (snd (settle obfs) =? 0) = true.
Proof.
  intros H1 H2. unfold settle. rewrite Hbuild. cbn [andb].
  destruct (Z.eqb_spec (fst obfs) 0) as [|E1], (Z.eqb_spec (snd obfs) 0) as [|E2]; cbn [orb];
    rewrite ?(proj2 (Z.eqb_neq _ _) H1), ?(proj2 (Z.eqb_neq _ _) H2), ?(proj2 (Z.eqb_neq _ _) E1), ?(proj2 (Z.eqb_neq _ _) E2); done.
Qed.

(** A checked load, step by step. *)
Lemma checked_load_steps f mode part m obfs e s' : checked env mode part ->
  image_load env f mode part m obfs = Some (e, s') ->
  (e <> ESP_OK /\ ram s' = m) \/
  exists err s1 s2,
    ram s1 = m /\ ram_obfs_value s1 = obfs /\ checksum s1 = Some ESP_ROM_CHECKSUM_INITIAL /\
    metadata s1 = Metadata (pos_offset part) (image_header f part) (segments zero_metadata) (segment_data zero_metadata) HEADER_SIZE
                    (image_digest zero_metadata) /\
    segment_count (image_header f part) <= ESP_IMAGE_MAX_SEGMENTS /\
    process_segments env f (loads env mode) s1 = Some (err, s2) /\
    ((err <> ESP_OK /\ e <> ESP_OK /\ same_ram s2 s') \/
     (err = ESP_OK /\ load_tail env f part (loads env mode) s2 = Some (e, s'))).
Proof.
  intros Hck. rewrite (image_load_unfold env f mode part m obfs Hck). destruct Hck as [_ _ Hsha _ Ha Hr _].
  set (s0 := LoadState _ _ _ _ _). destruct (image_header_spec env Hpages f part s0 Ha ltac:(lia) Hsha) as [Hh1 Hh2].
  pose proof (image_header_ram f (pos_offset part) true true s0) as [R1 O1].
  destruct (process_image_header env f (pos_offset part) true true s0) as [err s1]. cbn [fst snd] in *.
  destruct err; try (intros [= <- <-]; by left).
  destruct (proj1 Hh1 eq_refl) as (_ & _ & Hcount). specialize (Hh2 eq_refl).
  destruct (process_segments env f (loads env mode) s1) as [[err s2]|] eqn:E; [|done]. intros Hres. right.
  exists err, s1, s2. split; [done|]. split; [done|]. split; [by rewrite Hh2|]. split; [by rewrite Hh2|]. split; [done|]. split; [done|].
  destruct err; try (injection Hres as <- <-; by left). by right.
Qed.

Lemma checked_load_ram f mode part m obfs e s' : checked env mode part ->
  image_load env f mode part m obfs = Some (e, s') ->
  forall x, untouched (loads env mode) (segments_of f part) x -> ram s' !! x = m !! x.
Proof.
  intros Hck E x Hx. pose proof (image_load_spec env Hpages f mode part m obfs Hck) as Hspec. rewrite E in Hspec.
  destruct (checked_load_steps f mode part m obfs e s' Hck E) as [[_ ->]|(err & s1 & s2 & Hr & Ho & Hc & Hm & Hn & Es & Hend)]; [done|].
  destruct Hck as [_ _ _ _ Ha Hof _].
  destruct (process_segments_ram f _ part s1 err s2 Ha Hof Hc Hm Hn Es) as [Hfr _]. specialize (Hfr x Hx). rewrite Hr in Hfr.
  destruct Hend as [(_ & _ & [-> _])|[-> Ht]]; [done|]. apply load_tail_ram in Ht as [[[-> _] _]|(-> & Hd & s5 & [R5 _] & ->)]; [done|].
  destruct Hspec as (Hvalid & Hplaced & _).
  pose proof (process_segments_spec env Hpages f (loads env mode) part s1 ESP_ROM_CHECKSUM_INITIAL Ha Hof Hc Hm Hn) as Hp.
  cbv zeta in Hp. rewrite Es in Hp. destruct Hp as (_ & _ & _ & s3 & [M3 _ _] & ->).
  rewrite (described_segments f part Hn) by (cbn; by rewrite M3, Hm). rewrite <- Hfr, <- R5.
  apply deobfuscate_other; [apply segments_sized, Hvalid|]. intros seg Hin Hl. unfold untouched in Hx. rewrite Forall_forall in Hx, Hplaced.
  apply (Hx seg Hin); [|by apply Hplaced]. unfold deobfuscates in Hd. unfold loadable in Hl. rewrite Hl.
  rewrite !andb_true_iff in Hd. rewrite (proj1 (proj1 (proj1 Hd))). by rewrite (proj2 (proj1 (proj1 Hd))).
Qed.

Lemma checked_load_holds f mode part m obfs s' : checked env mode part -> loads env mode = true ->
  fst (random_words env) <> 0 -> snd (random_words env) <> 0 -> one_part (segments_of f part) -> apart (segments_of f part) ->
  image_load env f mode part m obfs = Some (ESP_OK, s') ->
  Forall (fun seg => loadable seg -> holds (ram s') (load_addr (snd seg)) (segment_bytes f seg)) (segments_of f part).
Proof.
  intros Hck Hload Hr1 Hr2 Hone Hapart E. pose proof (image_load_spec env Hpages f mode part m obfs Hck) as Hspec. rewrite E in Hspec.
  destruct Hspec as (Hvalid & _ & _). pose proof (segments_sized f part (vi_segments _ _ _ Hvalid)) as Hsized.
  destruct (checked_load_steps f mode part m obfs _ s' Hck E) as [[? _]|(err & s1 & s2 & Hr & Ho & Hc & Hm & Hn & Es & Hend)]; [done|].
  destruct Hend as [(_ & ? & _)|[-> Ht]]; [done|]. destruct Hck as [_ _ _ _ Ha Hof _]. pose proof (loads_build mode Hload) as Hbuild.
  destruct (process_segments_ram f _ part s1 _ s2 Ha Hof Hc Hm Hn Es) as (_ & Hobfs & Hst).
  specialize (Hst eq_refl Hone). rewrite Hr, Ho, Hload in Hst.
  destruct (Exists_dec (fun seg => 0 < data_len (snd seg)) (segments_of f part)) as [Hex|Hno].
  - specialize (Hobfs eq_refl Hex). rewrite Ho in Hobfs. pose proof (settled Hbuild obfs Hr1 Hr2) as Hnz. rewrite <- Hobfs in Hnz.
    apply load_tail_ram in Ht as [[_ Hd]|(_ & _ & s5 & [R5 O5] & ->)].
    + specialize (Hd eq_refl). unfold deobfuscates in Hd. rewrite Hbuild, Hload in Hd. cbn [andb] in Hd. congruence.
    + pose proof (process_segments_spec env Hpages f (loads env mode) part s1 ESP_ROM_CHECKSUM_INITIAL Ha Hof Hc Hm Hn) as Hp.
      cbv zeta in Hp. rewrite Es in Hp. destruct Hp as (_ & _ & _ & s3 & [M3 _ _] & ->).
      rewrite (described_segments f part Hn) by (cbn; by rewrite M3, Hm).
      apply deobfuscate_spec; [exact Hsized|exact Hapart|]. rewrite R5, O5, Hobfs, Hst. by apply stores_holds.
  - apply Forall_forall. intros seg Hin _. apply not_Exists_Forall in Hno; [|apply _]. rewrite Forall_forall in Hno, Hsized.
    specialize (Hno seg Hin). destruct (Hsized seg Hin) as [Hs0 _]. cbn in Hno.
    intros k b Hk. apply lookup_lt_Some in Hk. pose proof (segment_bytes_length f seg (Hsized seg Hin)). lia.
Qed.
End Ram.

(** With one free page and data that does not start at a page, no part of a
    segment is ever mapped: the loop does not end. *)
Lemma one_page_never_ends {F} `{FlashLaws F} `{!FlashReliable F} (env : image_env) f la do_load fuel : forall da r s,
  bootloader_mmap_get_free_pages env = 1 -> in_range 32 da -> Z.land da (SPI_FLASH_MMU_PAGE_SIZE - 1) <> 0 -> 0 < r ->
  segment_loop env fuel f la da r do_load s = None.
Proof.
  induction fuel as [|fuel IH]; intros da r s Hp Hda Hal Hr; cbn [segment_loop]; (destruct (Z.eqb_spec r 0); [lia|]); [done|].
  rewrite Hp, (proj2 (Z.eqb_neq _ _) Hal). cbn zeta. change (u32 (u32 (1 - 1) * SPI_FLASH_MMU_PAGE_SIZE)) with 0. rewrite Z.min_r by lia.
  assert (Hok : exists s1, process_segment_data env f la da 0 do_load s = (ESP_OK, s1)).
  { unfold process_segment_data, bootloader_mmap. rewrite rel_mmap. cbn [is_ok]. repeat case_match; by eexists. }
  destruct Hok as [s1 ->]. rewrite Z.add_0_r, Z.sub_0_r, wrap_small by done. by apply IH.
Qed.

(** ** The bootloader's own memory *)

Definition regions_apart (r1 r2 : Z * Z) : Prop := snd r1 <= fst r2 \/ snd r2 <= fst r1.

Definition region_in (r1 r2 : Z * Z) : Prop := fst r2 <= fst r1 /\ snd r1 <= snd r2.

Definition stack_region (mm : memory_map) : Z * Z := (stack_pointer mm - STACK_LOAD_HEADROOM, SOC_ROM_STACK_START mm).

(** A chip's memory map: positive addresses, kinds of memory apart, the
    bootloader's data and stack in DRAM, its loader in IRAM. *)
Record memory_map_wf (mm : memory_map) : Prop := MemoryMapWf {
  mw_dram : 0 <= fst (SOC_DRAM mm);
  mw_iram : 0 <= fst (SOC_IRAM mm);
  mw_other : Forall (fun r => 0 <= fst r /\ regions_apart r (SOC_DRAM mm) /\ regions_apart r (SOC_IRAM mm)) (other_memory mm);
  mw_apart : regions_apart (SOC_DRAM mm) (SOC_IRAM mm);
  mw_data : region_in (bootloader_dram mm) (SOC_DRAM mm);
  mw_stack : region_in (stack_region mm) (SOC_DRAM mm);
  mw_loader : region_in (loader_text mm) (SOC_IRAM mm);
}.

(** Where the running bootloader keeps its data, its stack and the code that loads. *)
Definition bootloader_memory (mm : memory_map) (x : Z) : Prop :=
  within (bootloader_dram mm) x = true \/ within (stack_region mm) x = true \/ within (loader_text mm) x = true.

Section Placement.
Context (env : image_env) (Hmm : memory_map_wf (mem env)).

Lemma within_spec r a : within r a = true <-> fst r <= a < snd r.
Proof. unfold within. rewrite andb_true_iff, Z.leb_le, Z.ltb_lt. lia. Qed.

Lemma overlap_false r1 r2 : bootloader_util_regions_overlap r1 r2 = Some false -> snd r1 <= fst r2 \/ snd r2 <= fst r1.
Proof.
  unfold bootloader_util_regions_overlap. case_match; [|done]. case_match; [|done]. intros [= Hx].
  apply andb_false_iff in Hx. rewrite !Z.ltb_ge in Hx. lia.
Qed.

(** What an accepted region is. *)
Lemma verify_load_region_kept a e nr o : a < e -> verify_load_region env a e nr = Some (true, o) ->
  0 <= a /\ forall x, bootloader_memory (mem env) x -> x < a \/ e <= x.
Proof.
  intros Hae. unfold verify_load_region. destruct (Z.eqb_spec e a); [lia|]. destruct (Z.ltb_spec a e); [|lia].
  unfold bootloader_memory. destruct Hmm as [Hd Hi Ho Hap Hdata Hst Hld]. fold (stack_region (mem env)).
  destruct (within (SOC_DRAM (mem env)) a && within (SOC_DRAM (mem env)) (e - 1)) eqn:ED.
  - apply andb_prop in ED as [E1%within_spec E2%within_spec].
    destruct (bootloader_util_regions_overlap (stack_region (mem env)) (a, e)) as [[]|] eqn:Es; [done| |done].
    destruct (bootloader_util_regions_overlap (bootloader_dram (mem env)) (a, e)) as [[]|] eqn:Eb; [done| |done]. intros _.
    apply overlap_false in Es, Eb. split; [lia|]. intros x. rewrite !within_spec. cbn [fst snd] in *. unfold regions_apart, region_in in *. lia.
  - destruct (within (SOC_IRAM (mem env)) a && within (SOC_IRAM (mem env)) (e - 1)) eqn:EI.
    + apply andb_prop in EI as [E1%within_spec E2%within_spec].
      destruct (bootloader_util_regions_overlap (loader_text (mem env)) (a, e)) as [[]|] eqn:El; [done| |done]. intros _.
      apply overlap_false in El. split; [lia|]. intros x. rewrite !within_spec. cbn [fst snd] in *. unfold regions_apart, region_in in *. lia.
    + intros [= Hex _]. apply existsb_exists in Hex as (r & Hin%list_elem_of_In & [E1%within_spec E2%within_spec]%andb_prop).
      rewrite Forall_forall in Ho. destruct (Ho r Hin) as (H0 & H1 & H2). split; [lia|].
      intros x. rewrite !within_spec. unfold regions_apart, region_in in *. lia.
Qed.

Lemma s32_cases y : in_range 32 y -> s32 y = y /\ y < 2 ^ 31 \/ s32 y < 0.
Proof.
  intros Hy. unfold in_range in Hy. destruct (Z.lt_ge_cases y (2 ^ 31)); [left; by rewrite s32_small by lia|right].
  unfold swrap. change (2 ^ (32 - 1)) with (2 ^ 31). Z.to_euclidean_division_equations; lia.
Qed.

Lemma placed_kept do_load h x : in_range 32 (load_addr h) -> in_range 32 (data_len h) ->
  BOOTLOADER_BUILD env && (do_load && should_load env (load_addr h)) = true -> placed env do_load h = Some true ->
  bootloader_memory (mem env) x -> x < load_addr h \/ load_addr h + data_len h <= x.
Proof.
  intros Ha Hn Hl Hp Hx. unfold placed in Hp. rewrite Hl in Hp. cbn [andb] in Hp.
  destruct (Z.ltb_spec 0 (data_len h)) as [Hpos|]; [|lia]. unfold verify_load_addresses in Hp.
  pose proof (s32_cases _ Ha) as Hsa. pose proof (s32_cases _ (wrap_range 32 (load_addr h + data_len h) ltac:(lia))) as Hse.
  assert (Hne : s32 (load_addr h) <> s32 (u32 (load_addr h + data_len h))).
  { unfold swrap, wrap. change (2 ^ (32 - 1)) with (2 ^ 31). unfold in_range in *. Z.to_euclidean_division_equations; lia. }
  set (a := s32 (load_addr h)) in *. set (e := s32 (u32 (load_addr h + data_len h))) in *.
  destruct (verify_load_region env a e false) as [[[] o]|] eqn:Er; [| |done].
  2: { by destruct o. }
  assert (Hae : a < e) by (unfold verify_load_region in Er; destruct (Z.eqb_spec e a); [congruence|]; by destruct (Z.ltb_spec a e)).
  destruct (verify_load_region_kept a e false o Hae Er) as [H0 Hk]. specialize (Hk x Hx).
  destruct Hsa as [[-> _]|]; [|lia]. destruct Hse as [[He _]|]; [|lia].
  assert (Hsum : u32 (load_addr h + data_len h) = load_addr h + data_len h); [|lia].
  unfold in_range, wrap in *. Z.to_euclidean_division_equations; lia.
Qed.
End Placement.

(** ** What a load promises *)

Section Loading.
Context {F : Type} `{FlashLaws F} `{!FlashReliable F} (env : image_env).
Context (Hpages : 2 <= bootloader_mmap_get_free_pages env <= 65535).

(** No loaded segment is where the chip or the bootloader forbids it. *)
Definition all_placed (mode : esp_image_load_mode_t) (f : F) (part : esp_partition_pos_t) : Prop :=
  Forall (fun seg => placed env (loads env mode) (snd seg) = Some true) (segments_of f part).

Lemma placed_no_load h : placed env false h = Some true.
Proof. unfold placed. cbn [andb]. by rewrite andb_false_r. Qed.




(** ** Booting *)

(** What [try_load_partition] asks of [bootloader_load_image]. *)
Definition load_image_ok (f : F) (part : esp_partition_pos_t) : bool :=
  match bootloader_load_image env f false part ∅ (0, 0) with Some (ESP_OK, _) => true | _ => false end.

Lemma load_image_ok_spec f part : BOOTLOADER_BUILD env = true -> checked env ESP_IMAGE_LOAD part ->
  load_image_ok f part = true <-> valid_image env f part /\ all_placed ESP_IMAGE_LOAD f part.
Proof.
  intros Hb Hck. unfold load_image_ok, bootloader_load_image. rewrite Hb. cbn [negb].
  pose proof (image_load_spec env Hpages f ESP_IMAGE_LOAD part ∅ (0, 0) Hck) as Hspec.
  destruct (image_load env f ESP_IMAGE_LOAD part ∅ (0, 0)) as [[e s']|]; cbn [outcome] in Hspec.
  - destruct e; [|split; [done|intros Hg; exfalso; by apply (proj1 Hspec)]..]. by destruct Hspec as (? & ? & _).
  - split; [done|]. intros [_ Hall]. exfalso. apply Exists_exists in Hspec as (seg & Hin & Hn). unfold all_placed in Hall.
    rewrite Forall_forall in Hall. rewrite (Hall seg Hin) in Hn. done.
Qed.

End Loading.

Section Booting.
Context {F E : Type} `{FlashLaws F} `{!FlashReliable F} `{EfuseOps E} (env : image_env) (cfg : boot_cfg).
Context (Hpages : 2 <= bootloader_mmap_get_free_pages env <= 65535) (Hbuild : BOOTLOADER_BUILD env = true).

(** An application that may be booted. *)
Definition boot_candidate (bs : bootloader_state_t) (st : boot_st F E) (i : Z) : Prop :=
  let p := index_to_partition bs i in
  pos_size p <> 0 /\ check_anti_rollback cfg (bt_flash st) (bt_efuse st) p = true /\
  valid_image env (bt_flash st) p /\ all_placed env ESP_IMAGE_LOAD (bt_flash st) p.

Lemma bootable_candidate bs (st : boot_st F E) i :
  (pos_size (index_to_partition bs i) <> 0 -> checked env ESP_IMAGE_LOAD (index_to_partition bs i)) ->
  bootable cfg (load_image_ok env) bs st i = true <-> boot_candidate bs st i.
Proof.
  intros Hck. unfold bootable, boot_candidate, try_load_partition.
  destruct (Z.eqb_spec (pos_size (index_to_partition bs i)) 0); [rewrite andb_false_r; split; [done|intros [? _]; congruence]|].
  rewrite andb_true_iff, (load_image_ok_spec env Hpages) by auto. tauto.
Qed.


End Booting.

(** ** A small image *)

Module ImageExample.

(** A stand-in for the digest: 32 bytes of the data's sum. *)
Definition sum_digest (bs : list Z) : list Z := (fun i => (foldl Z.add 0 bs + Z.of_nat i) mod 256) <$> seq 0 32.

Definition map : memory_map := {|
  SOC_IROM := (0x42000000, 0x44000000); SOC_DROM := (0x3C000000, 0x3E000000);
  rtc_memory := [(0x600FE000, 0x60100000)]; other_memory := [(0x600FE000, 0x60100000)];
  SOC_DRAM := (0x3FC88000, 0x3FD00000); SOC_IRAM := (0x40374000, 0x403E0000);
  SOC_DIRAM_DRAM := (0x3FC88000, 0x3FCF0000); SOC_DIRAM_IRAM := (0x40378000, 0x403E0000);
  esp_ptr_diram_dram_to_iram a := a + 0x6F0000; esp_ptr_diram_iram_to_dram a := a - 0x6F0000;
  stack_pointer := 0x3FCEA000; SOC_ROM_STACK_START := 0x3FCEB710;
  bootloader_dram := (0x3FCD7000, 0x3FCD8700); loader_text := (0x403C0000, 0x403C5000) |}.

Definition env (build : bool) : image_env := {|
  BOOTLOADER_BUILD := build;
  chip := {| CONFIG_IDF_FIRMWARE_CHIP_ID := 9; efuse_hal_chip_revision := 2; efuse_hal_get_disable_wafer_version_major := false |};
  mem := map; deep_sleep_reset := false; esp_cpu_dbgr_is_attached := false; ESP_BOOTLOADER_OFFSET := 0;
  bootloader_mmap_get_free_pages := 63; random_words := (0x1234567, 0x89ABCDEF);
  sha256_allocated := true; sha256 := sum_digest |}.

Definition header (count appended : Z) : list Z :=
  [0xE9; count; 2; 0x20] ++ le_bytes 4 0x40374000 ++ [0xEE; 0; 0; 0] ++ le_bytes 2 9 ++ [0; 0; 0; 99; 0; 0; 0; 0; 0; appended].

(** One segment in DRAM, one in flash that is mapped. *)
Definition body : list Z :=
  header 2 1 ++ le_bytes 4 0x3FC90000 ++ le_bytes 4 8 ++ [1; 2; 3; 4; 5; 6; 7; 8] ++
  le_bytes 4 0x3C000030 ++ le_bytes 4 4 ++ [0x11; 0x22; 0x33; 0x44].

Definition checksum_of (bs : list Z) : Z := foldl Z.lxor ESP_ROM_CHECKSUM_INITIAL bs.

Definition checked_part : list Z :=
  body ++ replicate 11 0 ++ [checksum_of [1; 2; 3; 4; 5; 6; 7; 8; 0x11; 0x22; 0x33; 0x44]].

Definition image : list Z := checked_part ++ sum_digest checked_part.

Definition part : esp_partition_pos_t := Pos 0x10000 0x100000.

Definition device (bs : list Z) : NorFlash := fun _ a =>
  if (0x10000 <=? a) && (a <? 0x10000 + length bs) then nth (Z.to_nat (a - 0x10000)) bs 0xFF else 0xFF.

Definition result (r : option (esp_err_t * load_state)) : option esp_err_t :=
  match r with Some (e, _) => Some e | None => None end.

Example verifies : result (image_load (env false) (device image) ESP_IMAGE_VERIFY part ∅ (0, 0)) = Some ESP_OK.
Proof. vm_compute. reflexivity. Qed.

Example damaged_data : result (image_load (env false) (device (<[33%nat := 0]> image)) ESP_IMAGE_VERIFY part ∅ (0, 0)) = Some ESP_ERR_IMAGE_INVALID.
Proof. vm_compute. reflexivity. Qed.

Example loads_segment : match image_load (env true) (device image) ESP_IMAGE_LOAD part ∅ (0, 0) with
  | Some (ESP_OK, s) => read_ram 0x3FC90000 8 (ram s) = [1; 2; 3; 4; 5; 6; 7; 8] /\ image_len (metadata s) = 96
  | _ => False
  end.
Proof. vm_compute. split; reflexivity. Qed.

(** Seventeen empty segments, checked only if the header is: read without
    verification, they are stored outside [segments]. *)
Example unchecked_count :
  esp_image_get_metadata (env false) (device (header 17 0 ++ replicate 200 0)) part = None /\
  result (image_load (env false) (device (header 17 0 ++ replicate 200 0)) ESP_IMAGE_VERIFY part ∅ (0, 0)) = Some ESP_ERR_IMAGE_INVALID.
Proof. vm_compute. split; reflexivity. Qed.

(** A segment up to the end of the positive addresses: its end is a negative
    [intptr_t], and the load stops at an assertion instead of being rejected. *)
Example wrapping_segment :
  image_load (env true) (device (header 1 0 ++ le_bytes 4 0x7FFFFFFC ++ le_bytes 4 8 ++ replicate 200 0)) ESP_IMAGE_LOAD part ∅ (0, 0) = None.
Proof. vm_compute. reflexivity. Qed.

Lemma segments : segments_of (device image) part = [(0x10020, SegmentHeader 0x3FC90000 8); (0x10030, SegmentHeader 0x3C000030 4)].
Proof. vm_compute. reflexivity. Qed.

Lemma image_checked build mode : mode <> ESP_IMAGE_LOAD_NO_VALIDATE -> checked (env build) mode part.
Proof. intros Hm. by split; cbn. Qed.

Lemma image_valid build : valid_image (env build) (device image) part.
Proof.
  split; [by vm_compute|by vm_compute|by vm_compute| |by vm_compute|by vm_compute|by vm_compute].
  rewrite segments. repeat constructor; cbn; try done; discriminate.
Qed.

Lemma image_placed : all_placed (env true) ESP_IMAGE_LOAD (device image) part.
Proof. unfold all_placed. rewrite segments. repeat constructor. Qed.

Lemma image_apart : apart (env true) (segments_of (device image) part).
Proof.
  rewrite segments. apply FOP_cons; [apply Forall_cons; split; [|by apply Forall_nil]|apply FOP_cons; [by apply Forall_nil|apply FOP_nil]].
  intros _ Hl. vm_compute in Hl. discriminate.
Qed.

Lemma map_wf : memory_map_wf map.
Proof. by repeat split || (constructor; cbn; unfold regions_apart, region_in; cbn; auto with lia). Qed.

Lemma pages build : 2 <= bootloader_mmap_get_free_pages (env build) <= 65535.
Proof. done. Qed.

(** A table whose second slot holds no image. *)
Definition table : bootloader_state_t :=
  BootState no_pos no_pos no_pos ([part; Pos 0x110000 0x100000] ++ replicate 14 no_pos) 2.

Definition start : boot_st NorFlash unit := BootSt (device image) tt (Retain 0 0 0 false 0 0 [] 0) false.

Lemma table_checked i : pos_size (index_to_partition table i) <> 0 -> checked (env true) ESP_IMAGE_LOAD (index_to_partition table i).
Proof.
  unfold index_to_partition. destruct (i =? FACTORY_INDEX); [done|]. destruct (i =? TEST_APP_INDEX); [done|].
  destruct ((0 <=? i) && (i <? MAX_OTA_SLOTS) && (i <? s32 (app_count table))) eqn:E; [|done]. intros _.
  apply andb_prop in E as [[H1%Z.leb_le _]%andb_prop H2%Z.ltb_lt]. change (s32 (app_count table)) with 2 in H2.
  assert (i = 0 \/ i = 1) as [-> | ->] by lia; by split.
Qed.

End ImageExample.

Import BootExample.
Import ImageExample.




