(* ===== verification/OtaOps.v ===== *)
(** * Over-the-air updates ([components/app_update/esp_ota_ops.c])

    The update handles ([esp_ota_begin], [esp_ota_write],
    [esp_ota_write_with_offset], [esp_ota_end], [esp_ota_abort]), the rewriting
    of the OTA data entries ([esp_ota_set_boot_partition], the confirmation and
    rollback calls) and the queries on them.

    The partition table is loaded and is the list [l]; partitions are accessed
    through [PartitionIO]. [None] is a failed [assert] or an [abort]. *)

From S2P Require Import Prelude EspErr Flash Partition PartitionIO OtaData Bootloader.

Record ota_ops_entry_t := OpsEntry {
  handle : Z;
  part : partition_list_item_t;
  need_erase : bool;
  wrote_size : Z;
  partial_bytes : Z;
  partial_data : list Z;       (** 16 bytes *)
}.

Definition OTA_SIZE_UNKNOWN : Z := 0xffffffff.
Definition OTA_WITH_SEQUENTIAL_WRITES : Z := 0xfffffffe.
Definition ESP_IMAGE_HEADER_MAGIC : Z := 0xE9.

Definition SUB_TYPE_ID (i : Z) : Z := Z.land i 0x0F.

(** The pointers [p] and [q] are equal. *)
Definition same_item (p q : partition_list_item_t) : bool := addr p =? addr q.

Definition is_ota_partition (p : esp_partition_t) : bool :=
  (type p =? ESP_PARTITION_TYPE_APP)
  && (ESP_PARTITION_SUBTYPE_APP_OTA_MIN <=? subtype p)
  && (subtype p <? ESP_PARTITION_SUBTYPE_APP_OTA_MAX).

Section Ota.
  Context {F E : Type} `{FlashOps F} `{EfuseOps E} (cfg : boot_cfg).
  Context (ENC_RW : bool) (page_bits : Z).
  (** The loaded table, whether the iterators can be allocated, and the flash
      address of the running code. *)
  Context (l : partition_list) (malloc : bool) (phys_offs : Z).
  (** [esp_image_verify] returns [ESP_OK]. *)
  Context (image_verify : F -> esp_partition_pos_t -> bool).

Record ota_st := OtaSt {
  o_flash : F;
  o_efuse : E;
  s_ota_ops_entries_head : list ota_ops_entry_t;
  s_ota_ops_last_handle : Z;
  curr_partition : option partition_list_item_t;
}.

Definition upd_oflash (f : F) (st : ota_st) : ota_st :=
  OtaSt f (o_efuse st) (s_ota_ops_entries_head st) (s_ota_ops_last_handle st) (curr_partition st).
Definition upd_oefuse (e : E) (st : ota_st) : ota_st :=
  OtaSt (o_flash st) e (s_ota_ops_entries_head st) (s_ota_ops_last_handle st) (curr_partition st).
Definition upd_entries (es : list ota_ops_entry_t) (st : ota_st) : ota_st :=
  OtaSt (o_flash st) (o_efuse st) es (s_ota_ops_last_handle st) (curr_partition st).
Definition upd_handle (h : Z) (st : ota_st) : ota_st :=
  OtaSt (o_flash st) (o_efuse st) (s_ota_ops_entries_head st) h (curr_partition st).
Definition upd_curr (p : partition_list_item_t) (st : ota_st) : ota_st :=
  OtaSt (o_flash st) (o_efuse st) (s_ota_ops_entries_head st) (s_ota_ops_last_handle st) (Some p).

Definition find_first (ty sub : Z) : option partition_list_item_t :=
  find_first_in malloc l ty sub None.

Definition erase_range (f : F) (p : partition_list_item_t) (offset size_ : Z) : F * esp_err_t :=
  esp_partition_erase_range f (info p) offset size_.

(** ** The OTA data partition *)

(** The partition and its two entries. The source reads the second entry one
    sector after the first in the mapping, whatever the size of the partition. *)
Definition read_otadata (f : F)
    : option (partition_list_item_t * (esp_ota_select_entry_t * esp_ota_select_entry_t)) :=
  match find_first ESP_PARTITION_TYPE_DATA ESP_PARTITION_SUBTYPE_DATA_OTA with
  | None => None
  | Some otadata_partition =>
      let p := info otadata_partition in
      match esp_partition_mmap page_bits f p 0 (size p) with
      | (ESP_OK, result) =>
          Some (otadata_partition,
                (decode_select (field result 0 SELECT_SIZE),
                 decode_select (field result (Z.to_nat SPI_FLASH_SEC_SIZE) SELECT_SIZE)))
      | _ => None
      end
  end.

Definition image_validate (f : F) (p : esp_partition_t) : esp_err_t :=
  if negb (image_verify f (Pos (address p) (size p))) then ESP_ERR_OTA_VALIDATE_FAILED else ESP_OK.

Definition set_new_state_otadata : Z :=
  if CONFIG_BOOTLOADER_APP_ROLLBACK_ENABLE cfg then ESP_OTA_IMG_NEW else ESP_OTA_IMG_UNDEFINED.

(** The loop of [esp_ota_get_app_partition_count]: [None] when its assert
    fails. *)
Fixpoint count_loop (fuel : nat) (ota_app_count : Z) : option Z :=
  match fuel with
  | O => None
  | S fuel =>
      match find_first ESP_PARTITION_TYPE_APP (ESP_PARTITION_SUBTYPE_APP_OTA_MIN + ota_app_count) with
      | None => Some ota_app_count
      | Some _ => if ota_app_count <? 16 then count_loop fuel (ota_app_count + 1) else None
      end
  end.

Definition esp_ota_get_app_partition_count : option Z := count_loop 17 0.

(** [esp_ota_get_running_partition], with its static cache. *)
Definition esp_ota_get_running_partition (st : ota_st) : option (ota_st * partition_list_item_t) :=
  match curr_partition st with
  | Some p => Some (st, p)
  | None =>
      match iter_search (S (length l))
              (find_in malloc l ESP_PARTITION_TYPE_APP ESP_PARTITION_SUBTYPE_ANY None)
              (fun p => (address (info p) <=? phys_offs)
                        && (phys_offs <? u32 (address (info p) + size (info p)))) with
      | Some p => Some (upd_curr p st, p)
      | None => None
      end
  end.

(** The loop over the two entries: the state of the first that names the slot
    and has its CRC. *)
Definition state_of_slot (two : esp_ota_select_entry_t * esp_ota_select_entry_t)
    (req_ota_slot ota_app_count : Z) : option Z :=
  let matches s := (slot_of s ota_app_count =? req_ota_slot)
                   && (crc s =? bootloader_common_ota_select_crc s) in
  if matches (fst two) then Some (ota_state (fst two))
  else if matches (snd two) then Some (ota_state (snd two))
  else None.

Definition esp_ota_get_state_partition (f : F) (partition : option esp_partition_t)
    : option (esp_err_t * Z) :=
  match partition with
  | None => Some (ESP_ERR_INVALID_ARG, 0)
  | Some p =>
      if negb (is_ota_partition p) then Some (ESP_ERR_NOT_SUPPORTED, 0)
      else match esp_ota_get_app_partition_count with
      | None => None
      | Some ota_app_count =>
          match read_otadata f with
          | None => Some (ESP_ERR_NOT_FOUND, 0)
          | Some (_, two) =>
              if ota_app_count =? 0 then Some (ESP_ERR_NOT_FOUND, 0)
              else match state_of_slot two (subtype p - ESP_PARTITION_SUBTYPE_APP_OTA_MIN)
                           ota_app_count with
                   | None => Some (ESP_ERR_NOT_FOUND, 0)
                   | Some s => Some (ESP_OK, s)
                   end
          end
      end
  end.

(** ** Update handles *)

(** The erase at the start of an update. *)
Definition begin_erase (f : F) (partition : partition_list_item_t) (image_size : Z)
    : F * esp_err_t :=
  if negb (image_size =? OTA_WITH_SEQUENTIAL_WRITES) then
    if (image_size =? 0) || (image_size =? OTA_SIZE_UNKNOWN)
    then erase_range f partition 0 (size (info partition))
    else
      let aligned_erase_size :=
        Z.land (u32 (image_size + SPI_FLASH_SEC_SIZE - 1)) (Z.lnot (SPI_FLASH_SEC_SIZE - 1)) in
      erase_range f partition 0 aligned_erase_size
  else (f, ESP_OK).

(** The state of the running application, looked up only with rollback. *)
Definition running_unconfirmed (f : F) (running : partition_list_item_t) : option bool :=
  if CONFIG_BOOTLOADER_APP_ROLLBACK_ENABLE cfg then
    match esp_ota_get_state_partition f (Some (info running)) with
    | None => None
    | Some (ESP_OK, s) => Some (s =? ESP_OTA_IMG_PENDING_VERIFY)
    | Some _ => Some false
    end
  else Some false.

(** The last component is [*out_handle] when it is written. *)
Definition esp_ota_begin (st : ota_st) (partition : option esp_partition_t) (image_size : Z)
    (out_handle calloc : bool) : option (ota_st * esp_err_t * option Z) :=
  match partition with
  | None => Some (st, ESP_ERR_INVALID_ARG, None)
  | Some p0 =>
      if negb out_handle then Some (st, ESP_ERR_INVALID_ARG, None)
      else match verify_in malloc l p0 with
      | None => Some (st, ESP_ERR_NOT_FOUND, None)
      | Some partition =>
          if negb (is_ota_partition (info partition)) then Some (st, ESP_ERR_INVALID_ARG, None)
          else match esp_ota_get_running_partition st with
          | None => None
          | Some (st, running_partition) =>
              if same_item partition running_partition
              then Some (st, ESP_ERR_OTA_PARTITION_CONFLICT, None)
              else match running_unconfirmed (o_flash st) running_partition with
              | None => None
              | Some true => Some (st, ESP_ERR_OTA_ROLLBACK_INVALID_STATE, None)
              | Some false =>
                  let '(f, ret) := begin_erase (o_flash st) partition image_size in
                  let st := upd_oflash f st in
                  if negb (is_ok ret) then Some (st, ret, None)
                  else if negb calloc then Some (st, ESP_ERR_NO_MEM, None)
                  else
                    let h := u32 (s_ota_ops_last_handle st + 1) in
                    let new_entry :=
                      {| handle := h; part := partition;
                         need_erase := image_size =? OTA_WITH_SEQUENTIAL_WRITES;
                         wrote_size := 0; partial_bytes := 0;
                         partial_data := replicate 16 0 |} in
                    Some (upd_handle h (upd_entries (new_entry :: s_ota_ops_entries_head st) st),
                          ESP_OK, Some h)
              end
          end
      end
  end.

Definition set_progress (wrote pb : Z) (pd : list Z) (it : ota_ops_entry_t) : ota_ops_entry_t :=
  OpsEntry (handle it) (part it) (need_erase it) wrote pb pd.

(** The erase before a sequential write. *)
Definition write_erase (f : F) (it : ota_ops_entry_t) (size_ : Z) : F * esp_err_t :=
  if need_erase it then
    let first_sector := wrote_size it / SPI_FLASH_SEC_SIZE in
    let last_sector := u32 (wrote_size it + size_ - 1) / SPI_FLASH_SEC_SIZE in
    if wrote_size it mod SPI_FLASH_SEC_SIZE =? 0 then
      erase_range f (part it) (wrote_size it)
        (u32 ((last_sector - first_sector + 1) * SPI_FLASH_SEC_SIZE))
    else if negb (first_sector =? last_sector) then
      erase_range f (part it) (u32 ((first_sector + 1) * SPI_FLASH_SEC_SIZE))
        (u32 ((last_sector - first_sector) * SPI_FLASH_SEC_SIZE))
    else (f, ESP_OK)
  else (f, ESP_OK).

Definition part_write (f : F) (p : partition_list_item_t) (off : Z) (data : list Z) : F * esp_err_t :=
  esp_partition_write ENC_RW f (info p) off data.

(** Completing the 16-byte block cached earlier: the rest of the data when the
    call goes on, or the code it returns. *)
Definition fill_partial (f : F) (it : ota_ops_entry_t) (data : list Z)
    : F * ota_ops_entry_t * (list Z + esp_err_t) :=
  if partial_bytes it =? 0 then (f, it, inl data)
  else
    let copy_len := Z.min (16 - partial_bytes it) (length data) in
    let pd := take (Z.to_nat (partial_bytes it)) (partial_data it)
              ++ take (Z.to_nat copy_len) data
              ++ drop (Z.to_nat (partial_bytes it + copy_len)) (partial_data it) in
    let pb := u8 (partial_bytes it + copy_len) in
    let it := set_progress (wrote_size it) pb pd it in
    if negb (pb =? 16) then (f, it, inr ESP_OK)
    else
      match part_write f (part it) (wrote_size it) (partial_data it) with
      | (f, ESP_OK) =>
          (f, set_progress (u32 (wrote_size it + 16)) 0 (replicate 16 0xFF) it,
           inl (drop (Z.to_nat copy_len) data))
      | (f, ret) => (f, it, inr ret)
      end.

(** Caching the bytes after the last whole block: the data left to write. *)
Definition save_trailing (it : ota_ops_entry_t) (data : list Z) : ota_ops_entry_t * list Z :=
  let pb := length data mod 16 in
  if negb (pb =? 0) then
    let size_ := (length data - Z.to_nat pb)%nat in
    (set_progress (wrote_size it) pb
       (drop size_ data ++ drop (Z.to_nat pb) (partial_data it)) it,
     take size_ data)
  else (set_progress (wrote_size it) pb (partial_data it) it, data).

Definition write_body (f : F) (it : ota_ops_entry_t) (data : list Z)
    : F * ota_ops_entry_t * esp_err_t :=
  match part_write f (part it) (wrote_size it) data with
  | (f, ESP_OK) =>
      (f, set_progress (u32 (wrote_size it + length data)) (partial_bytes it) (partial_data it) it,
       ESP_OK)
  | (f, ret) => (f, it, ret)
  end.

(** The body of [esp_ota_write] for the entry found. *)
Definition write_entry (f : F) (it : ota_ops_entry_t) (data : list Z)
    : F * ota_ops_entry_t * esp_err_t :=
  match write_erase f it (length data) with
  | (f, ESP_OK) =>
      if (wrote_size it =? 0) && (partial_bytes it =? 0)
         && negb (hd 0 data =? ESP_IMAGE_HEADER_MAGIC)
      then (f, it, ESP_ERR_OTA_VALIDATE_FAILED)
      else if boot_flash_encryption cfg then
        match fill_partial f it data with
        | (f, it, inr ret) => (f, it, ret)
        | (f, it, inl data) => let '(it, data) := save_trailing it data in write_body f it data
        end
      else write_body f it data
  | (f, ret) => (f, it, ret)
  end.

Definition has_handle (h : Z) (it : ota_ops_entry_t) : bool := handle it =? h.

(** Replaces the first entry with handle [h]. *)
Fixpoint replace_entry (h : Z) (it : ota_ops_entry_t) (es : list ota_ops_entry_t)
    : list ota_ops_entry_t :=
  match es with
  | [] => []
  | e :: es => if has_handle h e then it :: es else e :: replace_entry h it es
  end.

Fixpoint remove_entry (h : Z) (es : list ota_ops_entry_t) : list ota_ops_entry_t :=
  match es with
  | [] => []
  | e :: es => if has_handle h e then es else e :: remove_entry h es
  end.

Definition get_ota_ops_entry (st : ota_st) (h : Z) : option ota_ops_entry_t :=
  List.find (has_handle h) (s_ota_ops_entries_head st).

Definition esp_ota_write (st : ota_st) (h : Z) (data : option (list Z)) : ota_st * esp_err_t :=
  match data with
  | None => (st, ESP_ERR_INVALID_ARG)
  | Some [] => (st, ESP_OK)
  | Some data =>
      match get_ota_ops_entry st h with
      | None => (st, ESP_ERR_INVALID_ARG)
      | Some it =>
          let '(f, it, ret) := write_entry (o_flash st) it data in
          (upd_entries (replace_entry h it (s_ota_ops_entries_head st)) (upd_oflash f st), ret)
      end
  end.

Definition esp_ota_write_with_offset (st : ota_st) (h : Z) (data : option (list Z)) (offset : Z)
    : option (ota_st * esp_err_t) :=
  match data with
  | None => Some (st, ESP_ERR_INVALID_ARG)
  | Some data =>
      match get_ota_ops_entry st h with
      | None => Some (st, ESP_ERR_INVALID_ARG)
      | Some it =>
          if need_erase it then None
          else if boot_flash_encryption cfg && negb (length data mod 16 =? 0)
          then Some (st, ESP_ERR_INVALID_ARG)
          else
            match part_write (o_flash st) (part it) offset data with
            | (f, ESP_OK) =>
                let it := set_progress (u32 (wrote_size it + length data)) (partial_bytes it)
                            (partial_data it) it in
                Some (upd_entries (replace_entry h it (s_ota_ops_entries_head st))
                        (upd_oflash f st), ESP_OK)
            | (f, ret) => Some (upd_oflash f st, ret)
            end
      end
  end.

Definition esp_ota_abort (st : ota_st) (h : Z) : ota_st * esp_err_t :=
  match get_ota_ops_entry st h with
  | None => (st, ESP_ERR_NOT_FOUND)
  | Some _ => (upd_entries (remove_entry h (s_ota_ops_entries_head st)) st, ESP_OK)
  end.

(** [esp_ota_end] up to its cleanup: the flash and the code returned. *)
Definition end_entry (f : F) (it : ota_ops_entry_t) : F * esp_err_t :=
  if wrote_size it =? 0 then (f, ESP_ERR_INVALID_ARG)
  else
    let '(f, ret) :=
      if 0 <? partial_bytes it then
        match part_write f (part it) (wrote_size it) (partial_data it) with
        | (f, ESP_OK) => (f, ESP_OK)
        | (f, _) => (f, ESP_ERR_INVALID_STATE)
        end
      else (f, ESP_OK) in
    if negb (is_ok ret) then (f, ret)
    else if negb (image_verify f (Pos (address (info (part it))) (size (info (part it)))))
    then (f, ESP_ERR_OTA_VALIDATE_FAILED)
    else (f, ESP_OK).

Definition esp_ota_end (st : ota_st) (h : Z) : ota_st * esp_err_t :=
  match get_ota_ops_entry st h with
  | None => (st, ESP_ERR_NOT_FOUND)
  | Some it =>
      let '(f, ret) := end_entry (o_flash st) it in
      (upd_entries (remove_entry h (s_ota_ops_entries_head st)) (upd_oflash f st), ret)
  end.

(** ** Choosing the boot partition *)

Definition rewrite_ota_seq (f : F) (two : esp_ota_select_entry_t * esp_ota_select_entry_t)
    (seq sec_id : Z) (ota_data_partition : partition_list_item_t) : F * esp_err_t :=
  if 1 <? sec_id then (f, ESP_ERR_INVALID_ARG)
  else
    let s := otadata_at two sec_id in
    let s := Select seq (seq_label s) (ota_state s) (crc s) in
    let s := Select seq (seq_label s) (ota_state s) (bootloader_common_ota_select_crc s) in
    match erase_range f ota_data_partition (sec_id * SPI_FLASH_SEC_SIZE) SPI_FLASH_SEC_SIZE with
    | (f, ESP_OK) => part_write f ota_data_partition (SPI_FLASH_SEC_SIZE * sec_id) (encode_select s)
    | (f, ret) => (f, ret)
    end.

(** [while (seq > (SUB_TYPE_ID(subtype) + 1) % n + i * n) i++;] and the
    sequence number used after it; [None] without fuel. *)
Fixpoint seq_loop (fuel : nat) (seq base n i : Z) : option Z :=
  match fuel with
  | O => None
  | S fuel =>
      if u32 (base + u32 (i * n)) <? seq then seq_loop fuel seq base n (u32 (i + 1))
      else Some (u32 (base + u32 (i * n)))
  end.

(** Enough iterations when the loop does not wrap. *)
Definition seq_fuel (seq n : Z) : nat := Z.to_nat (seq / n + 2).

Definition next_seq (seq base n : Z) : option Z := seq_loop (seq_fuel seq n) seq base n 0.

(** [(~i)&1] *)
Definition other_otadata (i : Z) : Z := Z.land (Z.lnot i) 1.

Definition set_state_at (two : esp_ota_select_entry_t * esp_ota_select_entry_t) (i st : Z)
    : esp_ota_select_entry_t * esp_ota_select_entry_t :=
  set_at two i (set_state st (otadata_at two i)).

Definition esp_rewrite_ota_data (f : F) (subtype_ : Z) : option (F * esp_err_t) :=
  match read_otadata f with
  | None => Some (f, ESP_ERR_NOT_FOUND)
  | Some (otadata_partition, otadata) =>
      match esp_ota_get_app_partition_count with
      | None => None
      | Some ota_app_count =>
          if ota_app_count <=? SUB_TYPE_ID subtype_ then Some (f, ESP_ERR_INVALID_ARG)
          else
            let active_otadata := bootloader_common_get_active_otadata otadata in
            if negb (active_otadata =? -1) then
              let seq := ota_seq (otadata_at otadata active_otadata) in
              match next_seq seq ((SUB_TYPE_ID subtype_ + 1) mod ota_app_count) ota_app_count with
              | None => None
              | Some seq' =>
                  let next_otadata := other_otadata active_otadata in
                  Some (rewrite_ota_seq f (set_state_at otadata next_otadata set_new_state_otadata)
                          seq' next_otadata otadata_partition)
              end
            else
              let next_otadata := 0 in
              Some (rewrite_ota_seq f (set_state_at otadata next_otadata set_new_state_otadata)
                      (SUB_TYPE_ID subtype_ + 1) next_otadata otadata_partition)
      end
  end.

(** The magic word and secure version of an application descriptor. *)
Definition esp_ota_get_partition_description (f : F) (p : esp_partition_t) : esp_err_t * Z :=
  if negb (type p =? ESP_PARTITION_TYPE_APP) then (ESP_ERR_NOT_SUPPORTED, 0)
  else match esp_partition_read ENC_RW page_bits f p (24 + 8) 256 with
  | (ESP_OK, app_desc) =>
      let secure_version := le_value (field app_desc 4 4) in
      if negb (le_value (field app_desc 0 4) =? ESP_APP_DESC_MAGIC_WORD)
      then (ESP_ERR_NOT_FOUND, secure_version) else (ESP_OK, secure_version)
  | (err, _) => (err, 0)
  end.

Definition esp_ota_set_boot_partition (st : ota_st) (partition : option esp_partition_t)
    : option (ota_st * esp_err_t) :=
  let with_flash r := let '(f, err) := r in (upd_oflash f st, err) in
  let f := o_flash st in
  match partition with
  | None => Some (st, ESP_ERR_INVALID_ARG)
  | Some p =>
      if negb (is_ok (image_validate f p)) then Some (st, ESP_ERR_OTA_VALIDATE_FAILED)
      else if type p =? ESP_PARTITION_TYPE_APP then
        if subtype p =? ESP_PARTITION_SUBTYPE_APP_FACTORY then
          match find_first ESP_PARTITION_TYPE_DATA ESP_PARTITION_SUBTYPE_DATA_OTA with
          | Some find_partition =>
              Some (with_flash (erase_range f find_partition 0 (size (info find_partition))))
          | None => Some (st, ESP_ERR_NOT_FOUND)
          end
        else
          let rewrite_ := match esp_rewrite_ota_data f (subtype p) with
                          | None => None
                          | Some r => Some (with_flash r)
                          end in
          if CONFIG_BOOTLOADER_APP_ANTI_ROLLBACK cfg then
            let '(err, secure_version) := esp_ota_get_partition_description f p in
            if negb (is_ok err) then Some (st, err)
            else if eqb (esp_efuse_check_secure_version (o_efuse st) secure_version) false then
              let '(f, err) := esp_partition_erase_range f p 0 (size p) in
              let st := upd_oflash f st in
              if negb (is_ok err) then Some (st, err) else Some (st, ESP_ERR_OTA_SMALL_SEC_VER)
            else rewrite_
          else rewrite_
      else Some (st, ESP_ERR_INVALID_ARG)
  end.

(** The first of these subtypes that the table has. *)
Fixpoint first_subtype (subs : list Z) : option partition_list_item_t :=
  match subs with
  | [] => None
  | s :: subs =>
      match find_first ESP_PARTITION_TYPE_APP s with
      | Some r => Some r
      | None => first_subtype subs
      end
  end.

Definition ota_subtypes : list Z :=
  map (fun k => ESP_PARTITION_SUBTYPE_APP_OTA_MIN + Z.of_nat k) (seq 0 16).

Definition find_default_boot_partition : option partition_list_item_t :=
  match find_first ESP_PARTITION_TYPE_APP ESP_PARTITION_SUBTYPE_APP_FACTORY with
  | Some r => Some r
  | None =>
      match first_subtype ota_subtypes with
      | Some r => Some r
      | None => find_first ESP_PARTITION_TYPE_APP ESP_PARTITION_SUBTYPE_APP_TEST
      end
  end.

Definition esp_ota_get_boot_partition (f : F) : option (option partition_list_item_t) :=
  match read_otadata f with
  | None => Some None
  | Some (_, otadata) =>
      match esp_ota_get_app_partition_count with
      | None => None
      | Some ota_app_count =>
          if (bootloader_common_ota_select_invalid (fst otadata)
              && bootloader_common_ota_select_invalid (snd otadata)) || (ota_app_count =? 0)
          then Some find_default_boot_partition
          else
            let active_otadata := bootloader_common_get_active_otadata otadata in
            if negb (active_otadata =? -1) then
              Some (find_first ESP_PARTITION_TYPE_APP
                (ESP_PARTITION_SUBTYPE_APP_OTA_MIN
                 + slot_of (otadata_at otadata active_otadata) ota_app_count))
            else Some find_default_boot_partition
      end
  end.

(** The loop of [esp_ota_get_next_update_partition] over the subtypes left. *)
Fixpoint next_update_loop (subs : list Z) (start_from : partition_list_item_t)
    (default_ota : option partition_list_item_t) (next_is_result : bool)
    : option partition_list_item_t :=
  match subs with
  | [] => default_ota
  | t :: subs =>
      match find_first ESP_PARTITION_TYPE_APP t with
      | None => next_update_loop subs start_from default_ota next_is_result
      | Some p =>
          let default_ota := match default_ota with None => Some p | _ => default_ota end in
          if same_item p start_from then next_update_loop subs start_from default_ota true
          else if next_is_result then Some p
          else next_update_loop subs start_from default_ota next_is_result
      end
  end.

Definition esp_ota_get_next_update_partition (st : ota_st) (start_from : option esp_partition_t)
    : option (ota_st * option partition_list_item_t) :=
  let start :=
    match start_from with
    | None => esp_ota_get_running_partition st
    | Some p => match verify_in malloc l p with Some p => Some (st, p) | None => None end
    end in
  match start with
  | None => None
  | Some (st, p) => Some (st, next_update_loop ota_subtypes p None false)
  end.

(** ** Confirmation and rollback *)

Definition esp_ota_set_anti_rollback (st : ota_st) : option (ota_st * esp_err_t) :=
  match esp_ota_get_running_partition st with
  | None => None
  | Some (st, partition) =>
      let '(err, secure_version) := esp_ota_get_partition_description (o_flash st) (info partition) in
      if is_ok err then
        let '(e, err) := esp_efuse_update_secure_version (o_efuse st) secure_version in
        Some (upd_oefuse e st, err)
      else Some (st, err)
  end.

(** The partition of the slot that an entry names. *)
Definition slot_partition (s : esp_ota_select_entry_t) (ota_app_count : Z)
    : option partition_list_item_t :=
  find_first ESP_PARTITION_TYPE_APP (ESP_PARTITION_SUBTYPE_APP_OTA_MIN + slot_of s ota_app_count).

Definition esp_ota_check_rollback_is_possible (st : ota_st) : option bool :=
  let f := o_flash st in
  match read_otadata f with
  | None => Some false
  | Some (_, otadata) =>
      match esp_ota_get_app_partition_count with
      | None => None
      | Some ota_app_count =>
          if ota_app_count =? 0 then Some false
          else
            let valid_otadata := (bootloader_common_ota_select_valid (fst otadata),
                                  bootloader_common_ota_select_valid (snd otadata)) in
            let active_ota := bootloader_common_select_otadata otadata valid_otadata true in
            if active_ota =? -1 then Some false
            else
              let last_active_ota := other_otadata active_ota in
              let last_valid := otadata_at valid_otadata last_active_ota in
              let factory_ok :=
                negb (CONFIG_BOOTLOADER_APP_ANTI_ROLLBACK cfg) && negb last_valid &&
                match find_first ESP_PARTITION_TYPE_APP ESP_PARTITION_SUBTYPE_APP_FACTORY with
                | Some p => is_ok (image_validate f (info p))
                | None => false
                end in
              if factory_ok then Some true
              else if last_valid then
                match slot_partition (otadata_at otadata last_active_ota) ota_app_count with
                | Some p =>
                    if is_ok (image_validate f (info p)) then
                      if CONFIG_BOOTLOADER_APP_ANTI_ROLLBACK cfg then
                        let '(err, secure_version) :=
                          esp_ota_get_partition_description f (info p) in
                        Some (is_ok err && esp_efuse_check_secure_version (o_efuse st) secure_version)
                      else Some true
                    else Some false
                | None => Some false
                end
              else Some false
      end
  end.

(** How [esp_ota_current_ota_is_workable] ends. *)
Inductive workable_end :=
| Returned (err : esp_err_t)
| Restarted.

Definition esp_ota_current_ota_is_workable (st : ota_st) (valid : bool)
    : option (ota_st * workable_end) :=
  match read_otadata (o_flash st) with
  | None => Some (st, Returned ESP_ERR_NOT_FOUND)
  | Some (otadata_partition, otadata) =>
      let active_otadata := bootloader_common_get_active_otadata otadata in
      let s := otadata_at otadata active_otadata in
      let rewrite_ new_state :=
        let '(f, err) := rewrite_ota_seq (o_flash st) (set_state_at otadata active_otadata new_state)
                           (ota_seq s) active_otadata otadata_partition in
        (upd_oflash f st, err) in
      if active_otadata =? -1 then Some (st, Returned ESP_FAIL)
      else match esp_ota_get_app_partition_count with
      | None => None
      | Some ota_app_count =>
          if ota_app_count =? 0 then Some (st, Returned ESP_FAIL)
          else if valid && negb (ota_state s =? ESP_OTA_IMG_VALID) then
            let '(st, err) := rewrite_ ESP_OTA_IMG_VALID in
            if CONFIG_BOOTLOADER_APP_ANTI_ROLLBACK cfg && is_ok err then
              match esp_ota_set_anti_rollback st with
              | None => None
              | Some (st, err) => Some (st, Returned err)
              end
            else Some (st, Returned err)
          else if negb valid then
            match esp_ota_check_rollback_is_possible st with
            | None => None
            | Some false => Some (st, Returned ESP_ERR_OTA_ROLLBACK_FAILED)
            | Some true =>
                let '(st, err) := rewrite_ ESP_OTA_IMG_INVALID in
                if negb (is_ok err) then Some (st, Returned err) else Some (st, Restarted)
            end
          else Some (st, Returned ESP_OK)
      end
  end.

Definition esp_ota_mark_app_valid_cancel_rollback (st : ota_st) : option (ota_st * workable_end) :=
  esp_ota_current_ota_is_workable st true.

Definition esp_ota_mark_app_invalid_rollback_and_reboot (st : ota_st)
    : option (ota_st * workable_end) :=
  esp_ota_current_ota_is_workable st false.

Definition check_invalid_otadata (s : esp_ota_select_entry_t) : bool :=
  negb (ota_seq s =? UINT32_MAX) && (crc s =? bootloader_common_ota_select_crc s)
  && ((ota_state s =? ESP_OTA_IMG_INVALID) || (ota_state s =? ESP_OTA_IMG_ABORTED)).

Definition get_last_invalid_otadata (two : esp_ota_select_entry_t * esp_ota_select_entry_t) : Z :=
  bootloader_common_select_otadata two
    (check_invalid_otadata (fst two), check_invalid_otadata (snd two)) false.

Definition esp_ota_get_last_invalid_partition (f : F) : option (option partition_list_item_t) :=
  match read_otadata f with
  | None => Some None
  | Some (_, otadata) =>
      let invalid_otadata := get_last_invalid_otadata otadata in
      match esp_ota_get_app_partition_count with
      | None => None
      | Some ota_app_count =>
          if negb (invalid_otadata =? -1) && negb (ota_app_count =? 0) then
            match slot_partition (otadata_at otadata invalid_otadata) ota_app_count with
            | Some p => if negb (is_ok (image_validate f (info p))) then Some None else Some (Some p)
            | None => Some None
            end
          else Some None
      end
  end.

Definition esp_ota_erase_last_boot_app_partition (st : ota_st) : option (ota_st * esp_err_t) :=
  match read_otadata (o_flash st) with
  | None => Some (st, ESP_FAIL)
  | Some (ota_data_partition, otadata) =>
      let active_otadata := bootloader_common_get_active_otadata otadata in
      match esp_ota_get_app_partition_count with
      | None => None
      | Some ota_app_count =>
          if (active_otadata =? -1) || (ota_app_count =? 0) then Some (st, ESP_FAIL)
          else
            let inactive_otadata := other_otadata active_otadata in
            let s := otadata_at otadata inactive_otadata in
            if entry_initial s then Some (st, ESP_FAIL)
            else match slot_partition s ota_app_count with
            | None => Some (st, ESP_FAIL)
            | Some last_boot =>
                match esp_ota_get_running_partition st with
                | None => None
                | Some (st, running) =>
                    if same_item last_boot running then Some (st, ESP_FAIL)
                    else
                      let '(f, err) := erase_range (o_flash st) last_boot 0 (size (info last_boot)) in
                      let st := upd_oflash f st in
                      if negb (is_ok err) then Some (st, err)
                      else
                        let '(f, err) := erase_range f ota_data_partition
                          (inactive_otadata * SPI_FLASH_SEC_SIZE) SPI_FLASH_SEC_SIZE in
                        Some (upd_oflash f st, err)
                end
            end
      end
  end.

End Ota.

Arguments ota_st : clear implicits.
Arguments OtaSt {F E}.
