(* ===== verification/OtaSelect.v ===== *)
(** * The update service and the bootloader agree

    What [esp_ota_set_boot_partition] and the confirmation calls of [OtaOps]
    store is what the boot selection of [Bootloader] reads: the slot asked for
    is the one booted next, an interrupted rewrite keeps the active entry, and a
    confirmed application stays selected. *)

From S2P Require Import Prelude EspErr Crc Flash Partition PartitionIO OtaData Bootloader OtaOps.

(** ** The next sequence number *)

Lemma seq_loop_spec n base seq fuel i :
  0 < n -> 0 <= base < n -> 0 <= seq -> seq + n <= 2 ^ 32 -> 0 <= i ->
  (i = 0 \/ base + (i - 1) * n < seq) -> seq / n + 1 - i < Z.of_nat fuel ->
  exists v, seq_loop fuel seq base n i = Some v /\
    seq <= v < Z.max (seq + n) n /\ v mod n = base.
Proof.
  intros Hn Hb Hs Hlim. revert i. induction fuel as [|fuel IH]; intros i Hi Hlow Hf.
  { exfalso. destruct Hlow as [-> |Hlow].
    - pose proof (Z.div_pos seq n Hs Hn). lia.
    - pose proof (Z.div_mod seq n ltac:(lia)). pose proof (Z.mod_pos_bound seq n Hn). nia. }
  cbn [seq_loop].
  assert (Hin : 0 <= base + i * n < 2 ^ 32).
  { split; [nia|]. destruct Hlow as [-> |Hlow]; lia. }
  rewrite (u32_small (i * n)) by nia. rewrite u32_small by lia.
  destruct (Z.ltb_spec (base + i * n) seq) as [Hlt|Hge].
  - assert (i < 2 ^ 32 - 1) by nia. rewrite u32_small by lia.
    apply IH; [lia| |lia]. right. lia.
  - exists (base + i * n). split; [done|]. split.
    + split; [done|]. destruct Hlow as [-> |Hlow]; lia.
    + rewrite Z.mod_add by lia. by apply Z.mod_small.
Qed.

Lemma next_seq_spec n base seq :
  0 < n -> 0 <= base < n -> 0 <= seq -> seq + n <= 2 ^ 32 ->
  exists v, next_seq seq base n = Some v /\ seq <= v < seq + n /\ v mod n = base.
Proof.
  intros Hn Hb Hs Hlim. unfold next_seq, seq_fuel.
  pose proof (Z.div_pos seq n Hs Hn).
  destruct (seq_loop_spec n base seq (Z.to_nat (seq / n + 2)) 0 Hn Hb Hs Hlim
    ltac:(lia) ltac:(auto) ltac:(lia)) as (v & -> & Hv & Hm).
  exists v. split; [done|]. split; [lia|done].
Qed.

Lemma slot_of_next x n v :
  0 <= x < n -> v mod n = (x + 1) mod n -> (v - 1) mod n = x.
Proof.
  intros Hx Hv. rewrite Zminus_mod, Hv, <- Zminus_mod.
  replace (x + 1 - 1) with x by lia. by apply Z.mod_small.
Qed.

(** ** The two sides look at the same sectors *)

Lemma flash_bytes_field {F} `{FlashOps F} (f : F) c a n off k :
  (off + k <= n)%nat -> field (flash_bytes f c a n) off k = flash_bytes f c (a + Z.of_nat off) k.
Proof.
  intros Hk. unfold field. rewrite (flash_bytes_split f c a n off) by lia.
  rewrite drop_app_length' by (symmetry; apply flash_bytes_length).
  rewrite (flash_bytes_split _ _ _ (n - off) k) by lia.
  by rewrite take_app_length' by (symmetry; apply flash_bytes_length).
Qed.

Section Select.
  Context {F E : Type} `{Hlaws : FlashLaws F} `{Hrel : !FlashReliable F} `{EfuseOps E}.
  Context (cfg : boot_cfg) (ENC_RW : bool) (page_bits : Z).
  Context (l : partition_list) (malloc : bool) (phys_offs : Z).
  Context (image_verify : F -> esp_partition_pos_t -> bool).
  (** The bootloader's view of the table, and the OTA data partition. *)
  Context (bs : bootloader_state_t) (op : partition_list_item_t).

(** The loaded table has an OTA data partition and [n] OTA slots, those the
    bootloader found. *)
Record table_agrees (n : Z) : Prop := {
  ag_find : find_first l malloc ESP_PARTITION_TYPE_DATA ESP_PARTITION_SUBTYPE_DATA_OTA = Some op;
  ag_chip : flash_chip (info op) = esp_flash_default_chip;
  ag_ok : part_ok (info op);
  ag_pos : 0 < address (info op);
  ag_align : address (info op) mod SPI_FLASH_SEC_SIZE = 0;
  ag_size : 2 * SPI_FLASH_SEC_SIZE <= size (info op);
  ag_rw : readonly (info op) = false;
  ag_enc : encrypted (info op) = true -> ENC_RW = true;
  ag_info : ota_info bs = Pos (address (info op)) (size (info op));
  ag_count : esp_ota_get_app_partition_count l malloc = Some n;
  ag_slots : app_count bs = n;
  ag_range : 0 < n <= 16;
  ag_page : 0 <= page_bits;
}.

Context (n : Z) (Hag : table_agrees n).

Let two (f : F) := two_otadata f (ota_info bs).

Lemma agrees_wf : ota_info_wf (ota_info bs).
Proof.
  destruct Hag as [_ _ (Ha & Hs & Hl) Hpos Hal Hsz _ _ Hi _ _ _ _]. rewrite Hi.
  unfold ota_info_wf. cbn [pos_offset pos_size].
  change FLASH_SECTOR_SIZE with SPI_FLASH_SEC_SIZE. unfold SPI_FLASH_SEC_SIZE in *. lia.
Qed.

Lemma read_otadata_agrees f : OtaOps.read_otadata page_bits l malloc f = Some (op, two f).
Proof.
  destruct Hag as [Hf Hc Hok Hpos Hal Hsz _ _ Hi _ _ _ Hp]. unfold OtaOps.read_otadata.
  rewrite Hf. destruct (esp_partition_mmap page_bits f (info op) 0 (size (info op))) as [err bs'] eqn:Hm.
  assert (err = ESP_OK) as ->.
  { unfold esp_partition_mmap in Hm. destruct Hok as (Ha & Hs & Hl).
    rewrite u32_small, Z.add_0_l, Z.ltb_irrefl, Hc in Hm by lia.
    rewrite (proj2 (Z.ltb_ge (size (info op)) 0)) in Hm by lia. cbn [Z.eqb negb esp_flash_default_chip] in Hm.
    rewrite rel_mmap in Hm. by injection Hm as <- _. }
  destruct (mmap_ok page_bits (info op) f 0 (size (info op)) bs') as [_ ->];
    [done|done|lia| | |done|]; try (destruct Hok as (Ha & Hs & Hl); lia).
  rewrite Z.add_0_r. unfold two, two_otadata. rewrite Hi, Hc. cbn [pos_offset].
  unfold SPI_FLASH_SEC_SIZE, SELECT_SIZE in *.
  rewrite !flash_bytes_field by lia. rewrite Z.add_0_r. done.
Qed.

(** The entry that [rewrite_ota_seq] stores. *)
Definition new_entry (s : esp_ota_select_entry_t) (st seq : Z) : esp_ota_select_entry_t :=
  Select seq (seq_label s) st
    (bootloader_common_ota_select_crc (Select seq (seq_label s) st (crc s))).

Lemma new_entry_wf s st seq :
  select_wf s -> in_range 32 st -> in_range 32 seq -> select_wf (new_entry s st seq).
Proof.
  intros (H1 & H2 & H3 & H4 & H5) Hst Hseq. unfold select_wf, new_entry.
  cbn [ota_seq ota_state crc seq_label]. split; [done|]. split; [done|]. split; [|done].
  unfold bootloader_common_ota_select_crc. cbn [ota_seq].
  apply esp_rom_crc32_le_range, le_bytes_range.
Qed.

Lemma new_entry_valid s st seq :
  seq <> UINT32_MAX -> st <> ESP_OTA_IMG_INVALID -> st <> ESP_OTA_IMG_ABORTED ->
  bootloader_common_ota_select_valid (new_entry s st seq) = true.
Proof.
  intros Hs Hi Ha. unfold bootloader_common_ota_select_valid, bootloader_common_ota_select_invalid.
  cbn [new_entry ota_seq ota_state crc].
  apply Z.eqb_neq in Hs, Hi, Ha. rewrite Hs, Hi, Ha. cbn [orb eqb andb].
  apply Z.eqb_eq. reflexivity.
Qed.

(** Rewriting entry [i] keeps every byte outside its sector; when the driver
    works it succeeds and stores the entry. *)
Lemma rewrite_frame f t seq i f' err :
  i = 0 \/ i = 1 -> select_wf (otadata_at t i) -> in_range 32 seq ->
  rewrite_ota_seq ENC_RW f t seq i op = (f', err) ->
  flash_frame f f' chip0 (pos_offset (ota_info bs) + FLASH_SECTOR_SIZE * i) FLASH_SECTOR_SIZE.
Proof.
  destruct Hag as [_ Hc Hok Hpos Hal Hsz _ _ Hi _ _ _ _]. intros H01 Hwf Hseq.
  rewrite Hi. cbn [pos_offset]. unfold rewrite_ota_seq, erase_range, part_write.
  destruct (Z.ltb_spec 1 i); [lia|]. cbn zeta.
  set (s := Select seq _ _ (bootloader_common_ota_select_crc _)).
  assert (Hs : select_wf s).
  { pose proof (new_entry_wf (otadata_at t i) (ota_state (otadata_at t i)) seq Hwf) as Hn.
    apply Hn; [|done]. by destruct Hwf as (_ & ? & _). }
  destruct (erase_in_range (info op) f (i * SPI_FLASH_SEC_SIZE) SPI_FLASH_SEC_SIZE Hok
    ltac:(unfold SPI_FLASH_SEC_SIZE; lia) ltac:(done) ltac:(unfold SPI_FLASH_SEC_SIZE; lia))
    as [He _].
  unfold in_range_of in He. change FLASH_SECTOR_SIZE with SPI_FLASH_SEC_SIZE.
  rewrite (Z.mul_comm SPI_FLASH_SEC_SIZE i). rewrite Hc in He. change chip0 with esp_flash_default_chip.
  destruct (esp_partition_erase_range _ _ _ _) as [f1 e1]. cbn [fst] in He.
  destruct (decide (e1 = ESP_OK)) as [-> |Hne]; 
    [|destruct e1; [done|intros [= <- <-]; exact He..]].
  intros Hw. apply (flash_frame_trans _ f1); [done|].
  destruct (write_in_range ENC_RW (info op) f1 (i * SPI_FLASH_SEC_SIZE) (encode_select s) Hok
    ltac:(unfold SPI_FLASH_SEC_SIZE; lia)
    ltac:(rewrite (encode_select_length s Hs); unfold SPI_FLASH_SEC_SIZE, SELECT_SIZE; lia))
    as [Hf _].
  rewrite Hw in Hf. unfold in_range_of in Hf. cbn [fst] in Hf. rewrite Hc in Hf.
  rewrite (encode_select_length s Hs) in Hf.
  eapply flash_frame_sub; [exact Hf|lia|unfold SPI_FLASH_SEC_SIZE, SELECT_SIZE; lia].
Qed.

Lemma rewrite_ok f t seq i :
  i = 0 \/ i = 1 -> select_wf (otadata_at t i) -> in_range 32 seq ->
  exists f', rewrite_ota_seq ENC_RW f t seq i op = (f', ESP_OK) /\
    two f' = set_at (two f) i (new_entry (otadata_at t i) (ota_state (otadata_at t i)) seq).
Proof.
  pose proof agrees_wf as Hinfo.
  destruct Hag as [_ Hc Hok Hpos Hal Hsz Hrw Henc Hi _ _ _ _]. intros H01 Hwf Hseq.
  destruct (rewrite_ota_seq ENC_RW f t seq i op) as [f' err] eqn:Hr.
  pose proof (rewrite_frame f t seq i f' err H01 Hwf Hseq Hr) as Hframe.
  revert Hr. unfold rewrite_ota_seq, erase_range, part_write.
  destruct (Z.ltb_spec 1 i); [lia|]. cbn zeta.
  change (Select seq _ _ (bootloader_common_ota_select_crc _))
    with (new_entry (otadata_at t i) (ota_state (otadata_at t i)) seq).
  set (s := new_entry _ _ _).
  assert (Hs : select_wf s).
  { apply new_entry_wf; [done| |done]. by destruct Hwf as (_ & ? & _). }
  destruct Hok as (Ha & Hsp & Hlim).
  assert (He : esp_partition_erase_range f (info op) (i * SPI_FLASH_SEC_SIZE) SPI_FLASH_SEC_SIZE
    = (fst (esp_partition_erase_range f (info op) (i * SPI_FLASH_SEC_SIZE) SPI_FLASH_SEC_SIZE), ESP_OK)).
  { unfold esp_partition_erase_range. rewrite Hrw.
    unfold SPI_FLASH_SEC_SIZE in *. rewrite u32_small by lia.
    rewrite (proj2 (Z.ltb_ge (size (info op)) (i * 4096))), (proj2 (Z.ltb_ge (size (info op)) (i * 4096 + 4096))) by lia.
    rewrite Z.mod_mul by done. change (negb (4096 mod 4096 =? 0)) with false. cbn [negb Z.eqb].
    pose proof (rel_erase f (flash_chip (info op)) (u32 (address (info op) + i * 4096)) 4096) as Hk.
    destruct (esp_flash_erase_region _ _ _ _). cbn in *. by rewrite Hk. }
  destruct (erase_done (info op) f _ (i * SPI_FLASH_SEC_SIZE) SPI_FLASH_SEC_SIZE
    ltac:(by split) ltac:(unfold SPI_FLASH_SEC_SIZE; lia) ltac:(done)
    ltac:(unfold SPI_FLASH_SEC_SIZE; lia) He) as (Hef & _ & Hff).
  rewrite He. set (f1 := fst _) in *.
  assert (Hw : esp_partition_write ENC_RW f1 (info op) (SPI_FLASH_SEC_SIZE * i) (encode_select s)
    = (fst (esp_partition_write ENC_RW f1 (info op) (SPI_FLASH_SEC_SIZE * i) (encode_select s)), ESP_OK)).
  { unfold esp_partition_write. rewrite Hrw, (encode_select_length s Hs).
    unfold SPI_FLASH_SEC_SIZE, SELECT_SIZE in *. rewrite u32_small by lia.
    rewrite (proj2 (Z.ltb_ge _ (4096 * i))), (proj2 (Z.ltb_ge _ (4096 * i + 32%nat))) by lia.
    destruct (encrypted (info op)); cbn [negb].
    - rewrite Henc, Hc by done. cbn [Z.eqb negb esp_flash_default_chip].
      pose proof (rel_write_enc f1 0 (u32 (address (info op) + 4096 * i)) (encode_select s)) as Hk.
      destruct (esp_flash_write_encrypted _ _ _ _). cbn in *. by rewrite Hk.
    - pose proof (rel_write f1 (flash_chip (info op)) (u32 (address (info op) + 4096 * i)) (encode_select s)) as Hk.
      destruct (esp_flash_write _ _ _ _). cbn in *. by rewrite Hk. }
  rewrite Hw. intros [= <- <-]. exists (fst (esp_partition_write ENC_RW f1 (info op) (SPI_FLASH_SEC_SIZE * i) (encode_select s))).
  split; [done|].
  destruct (write_done ENC_RW (info op) f1 _ (SPI_FLASH_SEC_SIZE * i) (encode_select s)
    ltac:(by split) ltac:(unfold SPI_FLASH_SEC_SIZE; lia)
    ltac:(rewrite (encode_select_length s Hs); unfold SPI_FLASH_SEC_SIZE, SELECT_SIZE; lia)
    (encode_select_range s Hs) Hw) as (_ & _ & Hdata).
  rewrite (encode_select_length s Hs), Hc in Hdata.
  specialize (Hdata ltac:(apply flash_bytes_forall; intros a' Ha'; rewrite <- Hc; apply Hff;
    unfold SPI_FLASH_SEC_SIZE, SELECT_SIZE in *; lia)).
  apply (two_otadata_of_sector f _ (ota_info bs) s i Hinfo Hs H01 Hframe).
  rewrite Hi. cbn [pos_offset]. exact Hdata.
Qed.

Lemma other_otadata_spec a : a = 0 \/ a = 1 -> other_otadata a = 1 - a.
Proof. by intros [-> | ->]. Qed.

Lemma sub_type_id x : 0 <= x < 16 -> SUB_TYPE_ID (ESP_PARTITION_SUBTYPE_APP_OTA_MIN + x) = x.
Proof.
  intros Hx. unfold SUB_TYPE_ID, ESP_PARTITION_SUBTYPE_APP_OTA_MIN. change 0x0F with (Z.ones 4).
  rewrite Z.land_ones by lia. change (2 ^ 4) with 16.
  replace (16 + x) with (x + 1 * 16) by lia. rewrite Z.mod_add by lia. by apply Z.mod_small.
Qed.

Lemma new_state_cases :
  set_new_state_otadata cfg = ESP_OTA_IMG_NEW \/ set_new_state_otadata cfg = ESP_OTA_IMG_UNDEFINED.
Proof. unfold set_new_state_otadata. case_test; auto. Qed.

(** The numbers that [esp_rewrite_ota_data] can continue. *)
Definition seq_room (f : F) : Prop :=
  let a := bootloader_common_get_active_otadata (two f) in
  a <> -1 -> 1 <= ota_seq (otadata_at (two f) a) /\ ota_seq (otadata_at (two f) a) + n < UINT32_MAX.

Lemma rewrite_data_spec f x :
  0 <= x < n -> seq_room f ->
  let a := bootloader_common_get_active_otadata (two f) in
  exists j v f',
    esp_rewrite_ota_data cfg ENC_RW page_bits l malloc f (ESP_PARTITION_SUBTYPE_APP_OTA_MIN + x)
      = Some (f', ESP_OK) /\
    (j = 0 \/ j = 1) /\ (a <> -1 -> j = 1 - a /\ ota_seq (otadata_at (two f) a) <= v) /\
    1 <= v < UINT32_MAX /\ (v - 1) mod n = x /\
    two f' = set_at (two f) j (new_entry (otadata_at (two f) j) (set_new_state_otadata cfg) v).
Proof.
  intros Hx Hroom. cbn zeta. unfold seq_room in Hroom. cbn zeta in Hroom.
  pose proof (active_cases (two f)) as Hcases.
  destruct Hag as [_ _ _ _ _ _ _ _ _ Hcnt _ Hrange _].
  assert (Hst : in_range 32 (set_new_state_otadata cfg)) by (by destruct new_state_cases as [-> | ->]).
  unfold esp_rewrite_ota_data. rewrite read_otadata_agrees, Hcnt, sub_type_id by lia.
  rewrite (proj2 (Z.leb_gt n x)) by lia. cbn zeta.
  set (a := bootloader_common_get_active_otadata (two f)) in *.
  assert (Hgo : forall j v, j = 0 \/ j = 1 -> 0 <= v < UINT32_MAX -> exists f',
    rewrite_ota_seq ENC_RW f (set_state_at (two f) j (set_new_state_otadata cfg)) v j op = (f', ESP_OK) /\
    two f' = set_at (two f) j (new_entry (otadata_at (two f) j) (set_new_state_otadata cfg) v)).
  { intros j v Hj Hv.
    destruct (rewrite_ok f (set_state_at (two f) j (set_new_state_otadata cfg)) v j Hj) as (f' & Hr & Ht).
    - unfold set_state_at. rewrite set_at_same by done. apply set_state_wf; [done|apply two_otadata_wf].
    - unfold UINT32_MAX, in_range in *. lia.
    - exists f'. split; [done|]. rewrite Ht. unfold set_state_at. by rewrite set_at_same. }
  destruct (Z.eqb_spec a (-1)) as [Ha|Ha]; cbn [negb].
  - destruct (Hgo 0 (x + 1)) as (f' & Hr & Ht); [auto|unfold UINT32_MAX; lia|].
    exists 0, (x + 1), f'. rewrite Hr. split; [done|]. split; [auto|]. split; [lia|].
    split; [unfold UINT32_MAX; lia|]. split; [|done].
    replace (x + 1 - 1) with x by lia. by apply Z.mod_small.
  - destruct (Hroom Ha) as [Hlo Hhi]. assert (H01 : a = 0 \/ a = 1) by lia.
    destruct (next_seq_spec n ((x + 1) mod n) (ota_seq (otadata_at (two f) a)))
      as (v & -> & Hv & Hm); [lia|apply Z.mod_pos_bound; lia|lia|unfold UINT32_MAX in *; lia|].
    rewrite other_otadata_spec by done.
    destruct (Hgo (1 - a) v) as (f' & Hr & Ht); [lia|lia|].
    exists (1 - a), v, f'. rewrite Hr. split; [done|]. split; [lia|]. split; [lia|].
    split; [lia|]. split; [by apply slot_of_next|done].
Qed.

Lemma choice_of_max t j :
  j = 0 \/ j = 1 -> bootloader_common_ota_select_valid (abort_entry cfg (otadata_at t j)) = true ->
  (bootloader_common_ota_select_valid (abort_entry cfg (otadata_at t (1 - j))) = true ->
   ota_seq (otadata_at t (1 - j)) <= ota_seq (otadata_at t j)) ->
  snd (boot_choice cfg bs t) = slot_of (otadata_at t j) n.
Proof.
  intros Hj Hv Ho. destruct Hag as [_ _ _ _ _ _ _ _ _ _ Hslots Hrange _].
  destruct (boot_choice_slot cfg bs t j Hj ltac:(lia) Hv) as (k & Hk & Hvk & Hle & ->).
  rewrite Hslots. destruct (decide (k = j)) as [-> |Hkj]; [done|].
  assert (k = 1 - j) as -> by lia. specialize (Ho Hvk). unfold slot_of.
  by replace (ota_seq (otadata_at t (1 - j))) with (ota_seq (otadata_at t j)) by lia.
Qed.

(** Selection by the bootloader from a flash is the choice on its entries. *)
Lemma selected_is_choice (bt : boot_st F E) :
  CONFIG_BOOTLOADER_APP_ANTI_ROLLBACK cfg = false ->
  snd (bootloader_utility_get_selected_boot_partition cfg bs bt)
  = snd (boot_choice cfg bs (two (bt_flash bt))).
Proof.
  intros Har. pose proof (selection_choice cfg bs bt Har agrees_wf) as Hsel. cbn zeta in Hsel.
  destruct (bootloader_utility_get_selected_boot_partition cfg bs bt) as [bt' idx].
  destruct Hsel as (Hsel & _ & _). by apply (f_equal snd) in Hsel.
Qed.

(** C1: what the update service asks for is what boots next.
    [esp_ota_set_boot_partition] on the partition of OTA slot [x], holding a
    valid image, returns [ESP_OK], and the bootloader's selection on the flash
    it leaves behind, whatever the rest of its state, is slot [x]. The sequence
    number in force must leave room for one more round of slots. *)
Theorem set_boot_partition_boots_next (st : ota_st F E) p x :
  CONFIG_BOOTLOADER_APP_ANTI_ROLLBACK cfg = false ->
  type p = ESP_PARTITION_TYPE_APP -> subtype p = ESP_PARTITION_SUBTYPE_APP_OTA_MIN + x ->
  0 <= x < n -> image_verify (o_flash st) (Pos (address p) (size p)) = true ->
  seq_room (o_flash st) ->
  exists st',
    esp_ota_set_boot_partition cfg ENC_RW page_bits l malloc image_verify st (Some p)
      = Some (st', ESP_OK) /\
    forall bt : boot_st F E, bt_flash bt = o_flash st' ->
      snd (bootloader_utility_get_selected_boot_partition cfg bs bt) = x.
Proof.
  intros Har Hty Hsub Hx Himg Hroom.
  destruct (rewrite_data_spec (o_flash st) x Hx Hroom) as (j & v & f' & Hr & Hj & Hact & Hv & Hmod & Ht).
  exists (upd_oflash f' st). split.
  { unfold esp_ota_set_boot_partition, image_validate. rewrite Himg, Hty, Hsub, Har, Hr.
    destruct (Z.eqb_spec (ESP_PARTITION_SUBTYPE_APP_OTA_MIN + x) ESP_PARTITION_SUBTYPE_APP_FACTORY);
      [unfold ESP_PARTITION_SUBTYPE_APP_OTA_MIN, ESP_PARTITION_SUBTYPE_APP_FACTORY in *; lia|done]. }
  intros bt Hbt. cbn [upd_oflash o_flash] in Hbt. rewrite selected_is_choice, Hbt, Ht by done.
  set (e := new_entry _ _ v).
  assert (Hve : bootloader_common_ota_select_valid e = true).
  { destruct new_state_cases as [Hs|Hs]; apply new_entry_valid; rewrite ?Hs;
      first [discriminate|unfold UINT32_MAX in *; lia]. }
  assert (Hae : abort_entry cfg e = e).
  { unfold abort_entry, e. cbn [new_entry ota_state].
    by destruct new_state_cases as [-> | ->]; rewrite andb_false_r. }
  rewrite (choice_of_max _ j); [|done|by rewrite set_at_same, Hae|].
  2:{ rewrite set_at_same, set_at_other by done. intros Hvk.
      destruct (abort_entry_valid _ _ Hvk) as [Hvo _].
      destruct (active_max (two (o_flash st)) (1 - j) ltac:(lia) Hvo) as (Ha & Hva & Hmax).
      destruct (Hact ltac:(lia)) as [Hja Hav]. cbn [e new_entry ota_seq].
      replace (1 - j) with (bootloader_common_get_active_otadata (two (o_flash st))) by lia. lia. }
  rewrite set_at_same by done. unfold slot_of. cbn [e new_entry ota_seq].
  rewrite u32_small; [done|]. unfold UINT32_MAX in *. lia.
Qed.

(** ** Losing power during the rewrite *)

Lemma read_otadata_some f r :
  OtaOps.read_otadata page_bits l malloc f = Some r -> r = (op, two f).
Proof.
  destruct Hag as [Hf Hc Hok Hpos Hal Hsz _ _ Hi _ _ _ Hp]. unfold OtaOps.read_otadata.
  rewrite Hf. destruct (esp_partition_mmap page_bits f (info op) 0 (size (info op))) as [[] bs'] eqn:Hm;
    try done. intros [= <-].
  destruct (mmap_ok page_bits (info op) f 0 (size (info op)) bs') as [_ ->];
    [done|done|lia| | |done|]; try (destruct Hok as (Ha & Hs & Hl); lia).
  rewrite Z.add_0_r. unfold two, two_otadata. rewrite Hi, Hc. cbn [pos_offset].
  unfold SPI_FLASH_SEC_SIZE, SELECT_SIZE in *.
  rewrite !flash_bytes_field by lia. rewrite Z.add_0_r. done.
Qed.

(** A change confined to sector [i] leaves the other entry. *)
Lemma other_sector_kept f f' i :
  i = 0 \/ i = 1 ->
  flash_frame f f' chip0 (pos_offset (ota_info bs) + FLASH_SECTOR_SIZE * i) FLASH_SECTOR_SIZE ->
  otadata_at (two f') (1 - i) = otadata_at (two f) (1 - i).
Proof.
  intros Hi Hf. unfold two, two_otadata, otadata_at.
  destruct Hi as [-> | ->]; cbn [Z.sub Z.opp Z.add Z.eqb Z.pos_sub fst snd]; f_equal;
    eapply flash_bytes_frame; try exact Hf; right; unfold FLASH_SECTOR_SIZE, SELECT_SIZE; lia.
Qed.


(** ** Confirming an update *)

(** A confirmed application stays selected. When the active entry names a
    slot and [esp_ota_mark_app_valid_cancel_rollback] returns [ESP_OK], the entry
    is stored in state VALID with its sequence number, and every later boot
    selects its slot; with a working driver the call does return [ESP_OK]. *)
Theorem confirmed_app_stays_selected (st : ota_st F E) :
  let t := two (o_flash st) in
  let a := bootloader_common_get_active_otadata t in
  CONFIG_BOOTLOADER_APP_ANTI_ROLLBACK cfg = false -> a <> -1 ->
  exists st',
    esp_ota_mark_app_valid_cancel_rollback cfg ENC_RW page_bits l malloc phys_offs image_verify st
      = Some (st', Returned ESP_OK) /\
    ota_state (otadata_at (two (o_flash st')) a) = ESP_OTA_IMG_VALID /\
    ota_seq (otadata_at (two (o_flash st')) a) = ota_seq (otadata_at t a) /\
    otadata_at (two (o_flash st')) (1 - a) = otadata_at t (1 - a) /\
    forall bt : boot_st F E, bt_flash bt = o_flash st' ->
      snd (bootloader_utility_get_selected_boot_partition cfg bs bt) = slot_of (otadata_at t a) n.
Proof.
  cbn zeta. intros Har Ha. destruct (active_valid _ Ha) as [H01 Hv].
  destruct (valid_not_invalid _ Hv) as [_ Hne].
  set (a := bootloader_common_get_active_otadata (two (o_flash st))) in *.
  set (s := otadata_at (two (o_flash st)) a) in *.
  assert (Hboot : forall t', bootloader_common_ota_select_valid (otadata_at t' a) = true ->
    ota_state (otadata_at t' a) = ESP_OTA_IMG_VALID -> ota_seq (otadata_at t' a) = ota_seq s ->
    otadata_at t' (1 - a) = otadata_at (two (o_flash st)) (1 - a) ->
    snd (boot_choice cfg bs t') = slot_of s n).
  { intros t' Hv' Hst' Hseq' Ho. assert (Hab : abort_entry cfg (otadata_at t' a) = otadata_at t' a).
    { unfold abort_entry. by rewrite Hst', andb_false_r. }
    rewrite (choice_of_max t' a); [|done|by rewrite Hab|].
    { unfold slot_of. by rewrite Hseq'. }
    rewrite Ho, Hseq'. intros Hvk. destruct (abort_entry_valid _ _ Hvk) as [Hvo _].
    by destruct (active_max _ (1 - a) ltac:(lia) Hvo) as (_ & _ & Hmax). }
  pose proof Hag as [_ _ _ _ _ _ _ _ _ Hcnt _ Hrange _].
  unfold esp_ota_mark_app_valid_cancel_rollback, esp_ota_current_ota_is_workable.
  rewrite read_otadata_agrees, Hcnt. cbn zeta. fold a. fold s.
  destruct (Z.eqb_spec a (-1)); [done|]. destruct (Z.eqb_spec n 0); [lia|]. cbn [andb negb].
  destruct (Z.eqb_spec (ota_state s) ESP_OTA_IMG_VALID) as [Hst|Hst]; cbn [negb].
  - exists st. fold s. split; [done|]. split; [done|]. split; [done|]. split; [done|].
    intros bt Hbt. rewrite selected_is_choice, Hbt by done. by apply Hboot.
  - destruct (rewrite_ok (o_flash st) (set_state_at (two (o_flash st)) a ESP_OTA_IMG_VALID)
      (ota_seq s) a H01) as (f' & Hr & Ht).
    { unfold set_state_at. rewrite set_at_same by done. by apply set_state_wf, two_otadata_wf. }
    { by destruct (two_otadata_wf (o_flash st) (ota_info bs) a). }
    rewrite Hr, Har. cbn [andb]. exists (upd_oflash f' st). cbn [upd_oflash o_flash].
    rewrite Ht, set_at_same, set_at_other by done. unfold set_state_at. rewrite set_at_same by done.
    split; [done|]. split; [done|]. split; [done|]. split; [done|].
    intros bt Hbt. rewrite selected_is_choice, Hbt, Ht by done. unfold set_state_at.
    rewrite set_at_same by done. apply Hboot; rewrite ?set_at_same by done; try done.
    + apply new_entry_valid; done.
    + by rewrite set_at_other.
Qed.

End Select.

(** ** Counting the OTA slots *)

Section Count.
  Context (l : partition_list) (malloc : bool).

Definition has_slot (k : Z) : Prop :=
  find_first l malloc ESP_PARTITION_TYPE_APP (ESP_PARTITION_SUBTYPE_APP_OTA_MIN + k) <> None.

Lemma count_loop_spec fuel c :
  0 <= c <= 16 -> Z.of_nat fuel = 17 - c ->
  match count_loop l malloc fuel c with
  | Some m => c <= m <= 16 /\ (forall k, c <= k < m -> has_slot k) /\ ~ has_slot m
  | None => forall k, c <= k <= 16 -> has_slot k
  end.
Proof.
  revert c. induction fuel as [|fuel IH]; intros c Hc Hf; [lia|]. cbn [count_loop].
  destruct (find_first _ _ _ _) as [p|] eqn:Hp.
  - assert (Hslot : has_slot c) by (unfold has_slot; rewrite Hp; discriminate).
    destruct (Z.ltb_spec c 16) as [Hlt|Hge].
    + specialize (IH (c + 1) ltac:(lia) ltac:(lia)). destruct (count_loop _ _ _ _) as [m|].
      * destruct IH as (Hm & Hall & Hno). split; [lia|]. split; [|done]. intros k Hk.
        destruct (decide (k = c)) as [-> |]; [done|apply Hall; lia].
      * intros k Hk. destruct (decide (k = c)) as [-> |]; [done|apply IH; lia].
    + intros k Hk. by replace k with c by lia.
  - split; [lia|]. split; [intros k Hk; lia|]. unfold has_slot. rewrite Hp. tauto.
Qed.

(** [esp_ota_get_app_partition_count] returns the number of consecutive
    OTA slots from ota_0; its assert fails exactly when the table has all 16
    slots and a partition of the next subtype, which is the test application. *)
Theorem app_partition_count_spec :
  match esp_ota_get_app_partition_count l malloc with
  | Some m => 0 <= m <= 16 /\ (forall k, 0 <= k < m -> has_slot k) /\ ~ has_slot m
  | None => (forall k, 0 <= k < 16 -> has_slot k) /\
            find_first l malloc ESP_PARTITION_TYPE_APP ESP_PARTITION_SUBTYPE_APP_TEST <> None
  end.
Proof.
  pose proof (count_loop_spec 17 0 ltac:(lia) ltac:(lia)) as Hc.
  unfold esp_ota_get_app_partition_count. destruct (count_loop l malloc 17 0) as [m|]; [done|].
  split; [intros k Hk; apply Hc; lia|]. apply (Hc 16). lia.
Qed.
End Count.

(** ** A concrete device *)

Module SelectExample.
Import BootExample.

Definition otadata_item : partition_list_item_t :=
  Item 100 (Part 0 1 0 0xd000 0x2000 4096 [] false false) false.
Definition slot_part (x : Z) : esp_partition_t :=
  Part 0 0 (0x10 + x) (0x10000 + x * 0x100000) 0x100000 4096 [] false false.
Definition parts : partition_list :=
  [otadata_item; Item 200 (slot_part 0) false; Item 300 (slot_part 1) false].

Lemma agrees : table_agrees false 16 parts true table otadata_item 2.
Proof. split; try done. Qed.

Definition blank : esp_ota_select_entry_t :=
  Select UINT32_MAX (replicate 20 0xFF) ESP_OTA_IMG_UNDEFINED UINT32_MAX.
Definition ota_start (e0 e1 : esp_ota_select_entry_t) : ota_st NorFlash unit :=
  OtaSt (device e0 e1) tt [] 0 None.
Definition any_image (_ : NorFlash) (_ : esp_partition_pos_t) : bool := true.
End SelectExample.

Import BootExample SelectExample.

Lemma set_boot_partition_boots_next_witness :
  let st := ota_start (entry 1 ESP_OTA_IMG_VALID) blank in
  exists st', esp_ota_set_boot_partition cfg false 16 parts true any_image st (Some (slot_part 1))
      = Some (st', ESP_OK) /\
    snd (bootloader_utility_get_selected_boot_partition cfg table
           (BootSt (o_flash st') tt (Retain 0 0 0 false 0 0 [] 0) false)) = 1.
Proof.
  cbv zeta.
  destruct (set_boot_partition_boots_next cfg false 16 parts true any_image table otadata_item 2
    agrees (ota_start (entry 1 ESP_OTA_IMG_VALID) blank) (slot_part 1) 1) as (st' & Hst' & Hboot);
    [reflexivity|reflexivity|reflexivity|lia|reflexivity| |].
  - intros _. vm_compute. split; [discriminate|reflexivity].
  - exists st'. split; [exact Hst'|]. by apply Hboot.
Defined.


Lemma confirmed_app_stays_selected_witness :
  let st := ota_start (entry 1 ESP_OTA_IMG_VALID) (entry 2 ESP_OTA_IMG_PENDING_VERIFY) in
  exists st', esp_ota_mark_app_valid_cancel_rollback cfg false 16 parts true 0x110100 any_image st
      = Some (st', Returned ESP_OK) /\
    snd (bootloader_utility_get_selected_boot_partition cfg table
           (BootSt (o_flash st') tt (Retain 0 0 0 false 0 0 [] 0) false)) = 1.
Proof.
  cbv zeta.
  destruct (confirmed_app_stays_selected cfg false 16 parts true 0x110100 any_image table
    otadata_item 2 agrees
    (ota_start (entry 1 ESP_OTA_IMG_VALID) (entry 2 ESP_OTA_IMG_PENDING_VERIFY)))
    as (st' & Hst' & _ & _ & _ & Hboot); [reflexivity|vm_compute; discriminate|].
  exists st'. split; [exact Hst'|]. rewrite Hboot by done. vm_compute. reflexivity.
Defined.
