(* ===== verification/OtaStream.v ===== *)
(** * Writing an image

    The handles of [OtaOps]: what a sequence of [esp_ota_write] calls leaves in
    flash, and that an update never changes a byte outside the partition it was
    opened on, whichever calls are made and whatever fails. *)

From S2P Require Import Prelude EspErr Flash Partition PartitionIO OtaData Bootloader OtaOps.

Section Stream.
  Context {F : Type} `{Hlaws : FlashLaws F}.
  Context (cfg : boot_cfg) (ENC_RW : bool).

Definition round_up (x : Z) : Z :=
  (x + SPI_FLASH_SEC_SIZE - 1) / SPI_FLASH_SEC_SIZE * SPI_FLASH_SEC_SIZE.

(** The bytes of the entry's partition. *)
Definition part_bytes (f : F) (it : ota_ops_entry_t) (off : Z) (k : nat) : list Z :=
  flash_bytes f (flash_chip (info (part it))) (address (info (part it)) + off) k.

(** Every byte of the partition in this range is erased. *)
Definition erased (f : F) (it : ota_ops_entry_t) (lo hi : Z) : Prop :=
  forall a, lo <= a < hi ->
  flash_byte f (flash_chip (info (part it))) (address (info (part it)) + a) = 0xFF.

(** Up to where the partition is known to be erased: the end of the sector
    reached when sectors are erased on the way, [lim] otherwise. *)
Definition erase_limit (it : ota_ops_entry_t) (lim : Z) : Z :=
  if need_erase it then round_up (wrote_size it) else lim.

(** [data] is what the calls were given so far: [wrote_size] bytes of it are in
    flash, the rest is cached, and the partition is erased from there to [hi]. *)
Record stream_at (hi : Z) (f : F) (it : ota_ops_entry_t) (data : list Z) : Prop := {
  si_part : part_ok (info (part it));
  si_size : 0 <= wrote_size it <= size (info (part it));
  si_pb : 0 <= partial_bytes it < 16;
  si_pd : length (partial_data it) = 16%nat;
  si_len : wrote_size it + partial_bytes it = length data;
  si_bytes : Forall (in_range 8) data /\ Forall (in_range 8) (partial_data it);
  si_flash : part_bytes f it 0 (Z.to_nat (wrote_size it)) = take (Z.to_nat (wrote_size it)) data;
  si_cache : take (Z.to_nat (partial_bytes it)) (partial_data it)
             = drop (Z.to_nat (wrote_size it)) data;
  si_erased : erased f it (wrote_size it) hi;
  si_enc : if boot_flash_encryption cfg then wrote_size it mod 16 = 0 else partial_bytes it = 0;
}.

Definition stream_inv (lim : Z) (f : F) (it : ota_ops_entry_t) (data : list Z) : Prop :=
  stream_at (erase_limit it lim) f it data.

Lemma stream_at_le hi hi' f it data : hi' <= hi -> stream_at hi f it data -> stream_at hi' f it data.
Proof. intros Hle []. split; try done. intros a Ha. apply si_erased0. lia. Qed.

Lemma round_up_le x : x <= round_up x < x + SPI_FLASH_SEC_SIZE.
Proof.
  unfold round_up, SPI_FLASH_SEC_SIZE.
  pose proof (Z.div_mod (x + 4096 - 1) 4096 ltac:(lia)).
  pose proof (Z.mod_pos_bound (x + 4096 - 1) 4096 ltac:(lia)). lia.
Qed.

Lemma round_up_16 x : round_up x mod 16 = 0.
Proof.
  unfold round_up, SPI_FLASH_SEC_SIZE. change 4096 with (256 * 16) at 3.
  rewrite Z.mul_assoc. by apply Z.mod_mul.
Qed.

Lemma round_up_aligned x : x mod SPI_FLASH_SEC_SIZE = 0 -> round_up x = x.
Proof.
  unfold round_up, SPI_FLASH_SEC_SIZE. intros Hx. pose proof (Z.div_mod x 4096 ltac:(lia)).
  replace (x + 4096 - 1) with (4095 + x / 4096 * 4096) by lia.
  rewrite Z.div_add by lia. change (4095 / 4096) with 0. lia.
Qed.

Lemma round_up_unaligned x :
  x mod SPI_FLASH_SEC_SIZE <> 0 -> round_up x = (x / SPI_FLASH_SEC_SIZE + 1) * SPI_FLASH_SEC_SIZE.
Proof.
  unfold round_up, SPI_FLASH_SEC_SIZE. intros Hx. pose proof (Z.div_mod x 4096 ltac:(lia)).
  pose proof (Z.mod_pos_bound x 4096 ltac:(lia)). f_equal.
  symmetry. apply (Z.div_unique _ _ _ (x mod 4096 - 1)); lia.
Qed.

(** ** The erase before a write *)

(** After [write_erase] the partition is erased to the end of the sector the
    write reaches, and what was written before is kept. *)
Definition write_limit (lim : Z) (it : ota_ops_entry_t) (size_ : Z) : Z :=
  if need_erase it then round_up (wrote_size it + size_) else lim.

Lemma write_erase_done lim f it data size_ f' :
  stream_inv lim f it data -> 0 < size_ -> wrote_size it + size_ < 2 ^ 31 ->
  write_erase f it size_ = (f', ESP_OK) ->
  stream_at (write_limit lim it size_) f' it data.
Proof.
  unfold stream_inv, erase_limit, write_erase, write_limit.
  destruct (need_erase it) eqn:Hne; [|by intros Hinv _ _ [= <-]].
  intros [Hp Hs Hpb Hpd Hlen Hby Hfl Hc He Henc] Hsz Hov.
  set (w := wrote_size it) in *. rewrite (u32_small (w + size_ - 1)) by lia. cbn zeta.
  set (first := w / SPI_FLASH_SEC_SIZE). set (last := (w + size_ - 1) / SPI_FLASH_SEC_SIZE).
  assert (Hfl' : first <= last) by (apply Z.div_le_mono; unfold SPI_FLASH_SEC_SIZE; lia).
  assert (Hlast : (last + 1) * SPI_FLASH_SEC_SIZE = round_up (w + size_)).
  { unfold round_up, last, SPI_FLASH_SEC_SIZE.
    replace (w + size_ + 4096 - 1) with (w + size_ - 1 + 1 * 4096) by lia.
    by rewrite Z.div_add by lia. }
  pose proof (round_up_le (w + size_)) as Hru.
  assert (Hkeep : forall f1 lo n, 0 <= lo -> 0 <= n -> w <= lo -> erased f it w lo ->
    lo + n = round_up (w + size_) -> lo + n < 2 ^ 32 ->
    erase_range f (part it) lo n = (f1, ESP_OK) ->
    stream_at (round_up (w + size_)) f1 it data).
  { intros f1 lo n Hlo Hn Hwlo Helo Hhi Hw32 Her. unfold erase_range in Her.
    destruct (erase_done (info (part it)) f f1 lo n Hp Hlo Hn Hw32 Her) as (Hfr & Hin & Hff).
    split; try done.
    - fold w. rewrite <- Hfl. unfold part_bytes. eapply flash_bytes_frame; [exact Hfr|]. lia.
    - intros a Ha. fold w in Ha. destruct (Z_lt_le_dec a lo) as [Hl|Hl].
      + rewrite (Hfr _ (address (info (part it)) + a)) by lia. apply Helo. lia.
      + apply Hff. lia. }
  pose proof (Z.div_mod w SPI_FLASH_SEC_SIZE ltac:(done)) as Hdm. fold first in Hdm.
  assert (Hf0 : 0 <= first) by (apply Z.div_pos; unfold SPI_FLASH_SEC_SIZE; lia).
  destruct (Z.eqb_spec (w mod SPI_FLASH_SEC_SIZE) 0) as [Hal|Hal].
  - intros Her. apply Hkeep with (lo := w) (n := u32 ((last - first + 1) * SPI_FLASH_SEC_SIZE));
      try lia; try exact Her; rewrite ?u32_small; unfold SPI_FLASH_SEC_SIZE in *; try lia.
    intros a Ha. lia.
  - rewrite round_up_unaligned in He by done. fold first in He.
    destruct (Z.eqb_spec first last) as [Hfe|Hfe]; cbn [negb].
    + intros [= <-]. rewrite <- Hlast, <- Hfe. by split.
    + rewrite (u32_small ((first + 1) * _)), (u32_small ((last - first) * _))
        by (unfold SPI_FLASH_SEC_SIZE in *; lia).
      intros Her. pose proof (Z.mod_pos_bound w SPI_FLASH_SEC_SIZE ltac:(done)).
      apply Hkeep with (lo := (first + 1) * SPI_FLASH_SEC_SIZE)
        (n := (last - first) * SPI_FLASH_SEC_SIZE);
        try exact He; try exact Her; unfold SPI_FLASH_SEC_SIZE in *; lia.
Qed.

(** ** Writing a block *)

(** A successful write of [b] at the end of what is in flash. *)
Lemma block_written f f' it w hi b pre :
  part_ok (info (part it)) -> 0 <= w <= size (info (part it)) -> Forall (in_range 8) b ->
  w + length b <= hi -> w + length b < 2 ^ 32 ->
  part_bytes f it 0 (Z.to_nat w) = pre -> erased f it w hi ->
  part_write ENC_RW f (part it) w b = (f', ESP_OK) ->
  w + length b <= size (info (part it)) /\
  part_bytes f' it 0 (Z.to_nat (w + length b)) = pre ++ b /\
  erased f' it (w + length b) hi.
Proof.
  intros Hp Hw Hb Hhi Hov Hpre He Hwr.
  destruct (write_done ENC_RW (info (part it)) f f' w b Hp ltac:(lia) Hov Hb Hwr)
    as (Hfr & Hin & Hdata).
  split; [done|]. split.
  - unfold part_bytes in *. rewrite Z.add_0_r in *.
    rewrite (flash_bytes_split _ _ _ _ (Z.to_nat w)) by lia. f_equal.
    + rewrite <- Hpre. eapply flash_bytes_frame; [exact Hfr|]. lia.
    + replace (Z.to_nat (w + length b) - Z.to_nat w)%nat with (length b) by lia.
      rewrite Z2Nat.id by lia. apply Hdata. apply flash_bytes_forall. intros a' Ha'.
      replace a' with (address (info (part it)) + (a' - address (info (part it)))) by lia.
      apply He. lia.
  - intros a Ha. rewrite (Hfr _ (address (info (part it)) + a)) by lia. apply He. lia.
Qed.

Lemma write_body_done hi f it data d f' it' :
  stream_at hi f it data -> partial_bytes it = 0 -> Forall (in_range 8) d ->
  wrote_size it + length d <= hi -> wrote_size it + length d < 2 ^ 32 ->
  (if boot_flash_encryption cfg then length d mod 16 = 0 else True) ->
  write_body ENC_RW f it d = (f', it', ESP_OK) ->
  stream_at hi f' it' (data ++ d) /\ need_erase it' = need_erase it /\
  wrote_size it' = wrote_size it + length d.
Proof.
  intros [Hp Hs Hpb Hpd Hlen Hby Hfl Hc He Henc] Hz Hd Hhi Hov Hmod. unfold write_body.
  destruct (part_write _ _ _ _ _) as [f1 e] eqn:Hw. destruct e; intros [= <- <-].
  destruct (block_written f f1 it (wrote_size it) hi d _ Hp Hs Hd Hhi Hov Hfl He Hw) as (Hin & Hpre & Her).
  rewrite Z.add_comm in Hlen. rewrite Hz in *. 
  assert (Hall : take (Z.to_nat (wrote_size it)) data = data) by (apply take_ge; lia).
  split; [|split; [done|cbn; apply u32_small; lia]].
  split; cbn [set_progress wrote_size partial_bytes partial_data part]; rewrite ?u32_small by lia;
    rewrite ?Hz; try done; try lia.
  - rewrite length_app. lia.
  - rewrite Forall_app. tauto.
  - unfold part_bytes in *. cbn [set_progress part]. rewrite Hpre, Hall.
    rewrite take_ge; [done|]. rewrite length_app. lia.
  - rewrite drop_ge; [done|]. rewrite length_app. lia.
  - destruct (boot_flash_encryption cfg); [|done].
    rewrite Z.add_mod, Henc, Hmod by lia. done.
Qed.

(** ** Caching under flash encryption *)

(** The bytes left after the last whole block go to the cache. *)
Lemma save_trailing_done hi f it data d it' d' f' it2 :
  boot_flash_encryption cfg = true ->
  stream_at hi f it data -> partial_bytes it = 0 -> Forall (in_range 8) d ->
  wrote_size it + length d / 16 * 16 <= hi -> wrote_size it + length d < 2 ^ 32 ->
  save_trailing it d = (it', d') -> write_body ENC_RW f it' d' = (f', it2, ESP_OK) ->
  stream_at hi f' it2 (data ++ d) /\ need_erase it2 = need_erase it /\
  wrote_size it2 = wrote_size it + length d / 16 * 16.
Proof.
  intros Henc Hin Hz Hd Hhi Hov. unfold save_trailing.
  pose proof (Z.div_mod (length d) 16 ltac:(lia)) as Hdm.
  pose proof (Z.mod_pos_bound (length d) 16 ltac:(lia)) as Hmb.
  set (pb := length d mod 16) in *.
  destruct (Z.eqb_spec pb 0) as [Hpb|Hpb]; cbn [negb]; intros [= <- <-] Hw.
  - destruct (write_body_done hi f (set_progress (wrote_size it) pb (partial_data it) it) data d f' it2)
      as (Hst & Hne & Hws); try done; cbn [set_progress wrote_size] in *; try lia.
    + destruct Hin. split; try done; cbn [set_progress wrote_size partial_bytes partial_data part];
        rewrite ?Hpb, ?Hz in *; done.
    + by rewrite Henc.
    + split; [done|]. split; [done|]. lia.
  - set (k := (length d - Z.to_nat pb)%nat) in *.
    set (pd := drop k d ++ drop (Z.to_nat pb) (partial_data it)) in *.
    assert (Hk : Z.of_nat k = length d / 16 * 16) by lia.
    assert (Htl : length (take k d) = k) by (rewrite length_take; lia).
    assert (Hdl : length (drop k d) = Z.to_nat pb) by (rewrite length_drop; lia).
    (* the body writes whole blocks and does not touch the cache *)
    revert Hw. unfold write_body. cbn [set_progress part wrote_size partial_bytes partial_data].
    destruct (part_write _ _ _ _ _) as [f1 e] eqn:Hw. destruct e; intros [= <- <-].
    destruct Hin as [Hp Hs Hpb0 Hpd Hlen [Hby Hbp] Hfl Hc He Hec].
    destruct (block_written f f1 it (wrote_size it) hi (take k d) _ Hp Hs (Forall_take _ _ _ Hd)
      ltac:(lia) ltac:(lia) Hfl He Hw) as (Hin & Hpre & Her).
    rewrite Htl in *. rewrite Hz in *.
    assert (Hall : take (Z.to_nat (wrote_size it)) data = data) by (apply take_ge; lia).
    rewrite (u32_small (wrote_size it + k)) by lia.
    split; [|split; [done|cbn; lia]].
    split; cbn [set_progress wrote_size partial_bytes partial_data part]; try done; try lia.
    + unfold pd. rewrite length_app, Hdl, length_drop. lia.
    + rewrite length_app. lia.
    + split; [rewrite Forall_app; done|]. unfold pd. rewrite Forall_app.
      split; [by apply Forall_drop|by apply Forall_drop].
    + unfold part_bytes in *. cbn [set_progress part]. rewrite Hpre, Hall.
      rewrite take_app_ge by lia. f_equal. f_equal. lia.
    + unfold pd. rewrite take_app_length' by done. rewrite drop_app_ge by lia. f_equal. lia.
    + rewrite Henc in *. rewrite Hk. rewrite Z.mod_add by lia. done.
Qed.

(** Completing the cached block. *)
Lemma fill_partial_full hi f it data d f' it' d' :
  boot_flash_encryption cfg = true ->
  stream_at hi f it data -> Forall (in_range 8) d ->
  wrote_size it + (if partial_bytes it =? 0 then 0 else 16) <= hi -> wrote_size it + 16 < 2 ^ 32 ->
  fill_partial ENC_RW f it d = (f', it', inl d') ->
  exists d1, d = d1 ++ d' /\ stream_at hi f' it' (data ++ d1) /\ partial_bytes it' = 0 /\
    need_erase it' = need_erase it /\
    wrote_size it' = wrote_size it + (if partial_bytes it =? 0 then 0 else 16) /\
    (if partial_bytes it =? 0 then d1 = [] else 0 < length d1).
Proof.
  intros Henc Hin Hd Hhi Hov. unfold fill_partial.
  destruct (Z.eqb_spec (partial_bytes it) 0) as [Hz|Hz].
  { intros [= <- <- <-]. exists []. rewrite app_nil_r. split; [done|]. split; [done|].
    split; [done|]. split; [done|]. split; [lia|done]. }
  destruct Hin as [Hp Hs Hpb Hpd Hlen [Hby Hbp] Hfl Hc He Hec].
  set (pb := partial_bytes it) in *. set (w := wrote_size it) in *.
  set (cp := Z.min (16 - pb) (length d)).
  assert (Hcp : 0 <= cp <= length d /\ pb + cp <= 16) by lia.
  rewrite (wrap_small 8 (pb + cp)) by (unfold in_range; change (2 ^ 8) with 256; lia).
  destruct (Z.eqb_spec (pb + cp) 16) as [Hf16|]; cbn [negb]; [|done].
  set (pd := take (Z.to_nat pb) (partial_data it) ++ take (Z.to_nat cp) d ++
             drop (Z.to_nat (pb + cp)) (partial_data it)).
  cbn [set_progress part wrote_size partial_data].
  destruct (part_write _ _ _ _ _) as [f1 e] eqn:Hw. destruct e; try done. intros [= <- <- <-].
  assert (Hpd' : pd = drop (Z.to_nat w) data ++ take (Z.to_nat cp) d).
  { unfold pd. rewrite Hc, (drop_ge (partial_data it)) by lia. by rewrite app_nil_r. }
  assert (Hpl : length pd = 16%nat).
  { rewrite Hpd', length_app, length_drop, length_take. lia. }
  assert (Hpr : Forall (in_range 8) pd).
  { rewrite Hpd', Forall_app. split; [by apply Forall_drop|by apply Forall_take]. }
  destruct (block_written f f1 it w hi pd _ Hp Hs Hpr ltac:(rewrite Hpl; lia) ltac:(rewrite Hpl; lia)
    Hfl He Hw) as (Hin & Hpre & Her).
  rewrite Hpl in *. exists (take (Z.to_nat cp) d).
  split; [by rewrite take_drop|].
  assert (Hdat : take (Z.to_nat w) data ++ pd = data ++ take (Z.to_nat cp) d).
  { rewrite Hpd', app_assoc. by rewrite take_drop. }
  split; [|split; [done|split; [done|split]]].
  2:{ cbn. fold w. rewrite u32_small; lia. }
  2:{ rewrite length_take. lia. }
  split; cbn [set_progress wrote_size partial_bytes partial_data part]; fold w;
    rewrite ?u32_small by lia; try done; try lia.
  - rewrite length_app, length_take. lia.
  - split; [rewrite Forall_app; split; [done|by apply Forall_take]|]. repeat constructor; done.
  - unfold part_bytes in *. cbn [set_progress part]. change (w + 16%nat) with (w + 16) in Hpre.
    rewrite Hpre, Hdat, (take_ge (data ++ _)); [done|]. rewrite length_app, length_take. lia.
  - rewrite drop_ge; [done|]. rewrite length_app, length_take. lia.
  - rewrite Henc in *. fold w in Hec. rewrite Z.add_mod, Hec by lia. done.
Qed.

Lemma fill_partial_short hi f it data d f' it' :
  stream_at hi f it data -> Forall (in_range 8) d ->
  boot_flash_encryption cfg = true ->
  fill_partial ENC_RW f it d = (f', it', inr ESP_OK) ->
  stream_at hi f' it' (data ++ d) /\ need_erase it' = need_erase it /\ wrote_size it' = wrote_size it.
Proof.
  intros Hin Hd Henc. unfold fill_partial.
  destruct (Z.eqb_spec (partial_bytes it) 0) as [Hz|Hz]; [done|].
  destruct Hin as [Hp Hs Hpb Hpd Hlen [Hby Hbp] Hfl Hc He Hec].
  set (pb := partial_bytes it) in *. set (w := wrote_size it) in *.
  set (cp := Z.min (16 - pb) (length d)).
  rewrite (wrap_small 8 (pb + cp)) by (unfold in_range; change (2 ^ 8) with 256; lia).
  destruct (Z.eqb_spec (pb + cp) 16) as [Hf16|Hf16]; cbn [negb].
  { cbn [set_progress part wrote_size partial_data].
    destruct (part_write _ _ _ _ _) as [f1 e]. by destruct e. }
  intros [= <- <-]. assert (Hcl : cp = length d) by lia.
  split; [|done]. 
  split; cbn [set_progress wrote_size partial_bytes partial_data part]; fold w pb; try done; try lia.
  - rewrite !length_app, !length_take, length_drop. lia.
  - rewrite length_app. lia.
  - rewrite !Forall_app. auto using Forall_take, Forall_drop.
  - rewrite take_app_le by lia. done.
  - rewrite Hcl, Nat2Z.id, (take_ge d) by lia. rewrite Hc.
    rewrite drop_app_le by lia. rewrite app_assoc. apply take_app_length'.
    rewrite length_app, length_drop. lia.
  - rewrite Henc in *. done.
Qed.

(** ** One call *)

Lemma div16_bound w pb k :
  w mod 16 = 0 -> 0 <= pb < 16 -> 0 < k -> (w + pb + k) / 16 * 16 <= round_up (w + k).
Proof.
  intros Hw Hpb Hk. pose proof (round_up_le (w + k)) as Hr.
  pose proof (round_up_16 (w + k)) as Hal.
  pose proof (Z.div_mod w 16 ltac:(lia)). pose proof (Z.div_mod (round_up (w + k)) 16 ltac:(lia)).
  pose proof (Z.div_mod (w + pb + k) 16 ltac:(lia)).
  pose proof (Z.mod_pos_bound (w + pb + k) 16 ltac:(lia)). lia.
Qed.

Lemma round_up_mono x y : x <= round_up y -> round_up x <= round_up y.
Proof.
  unfold round_up. intros Hx.
  apply Z.mul_le_mono_nonneg_r; [unfold SPI_FLASH_SEC_SIZE; lia|].
  set (k := (y + SPI_FLASH_SEC_SIZE - 1) / SPI_FLASH_SEC_SIZE) in *.
  unfold SPI_FLASH_SEC_SIZE in *. apply Z.lt_succ_r, Z.div_lt_upper_bound; lia.
Qed.

(** A successful call for an entry: the bytes are appended to the stream. *)
Lemma write_entry_appends lim f it data d f' it' :
  stream_inv lim f it data -> d <> [] -> Forall (in_range 8) d ->
  length data + length d < 2 ^ 31 - 16 ->
  (need_erase it = false -> length data + length d <= lim) ->
  write_entry cfg ENC_RW f it d = (f', it', ESP_OK) ->
  stream_inv lim f' it' (data ++ d) /\ need_erase it' = need_erase it.
Proof.
  intros Hinv Hne Hd Hlen Hlim.
  assert (Hd0 : 0 < length d) by (destruct d; [done|cbn; lia]).
  pose proof Hinv as [Hp Hs Hpb Hpd Hl _ _ _ _ Hec].
  unfold write_entry. destruct (write_erase f it (length d)) as [f1 e] eqn:Her. destruct e; try done.
  destruct (_ && _); [done|].
  pose proof (write_erase_done lim f it data (length d) f1 Hinv Hd0 ltac:(lia) Her) as Hst.
  set (hi := write_limit lim it (length d)) in *.
  (* what the call may leave in flash is erased beforehand *)
  assert (Hfin : forall g jt, stream_at hi g jt (data ++ d) -> need_erase jt = need_erase it ->
    wrote_size jt <= hi -> stream_inv lim g jt (data ++ d)).
  { intros g jt Hg Hn Hw. eapply stream_at_le; [|exact Hg]. unfold hi, write_limit, erase_limit in *.
    rewrite Hn. destruct (need_erase it); [by apply round_up_mono|done]. }
  destruct (boot_flash_encryption cfg) eqn:Henc.
  - assert (Hhi : (wrote_size it + partial_bytes it + length d) / 16 * 16 <= hi).
    { unfold hi, write_limit. destruct (need_erase it) eqn:Hn.
      - by apply div16_bound.
      - specialize (Hlim eq_refl). pose proof (Z.div_mod (wrote_size it + partial_bytes it + length d) 16 ltac:(lia)).
        pose proof (Z.mod_pos_bound (wrote_size it + partial_bytes it + length d) 16 ltac:(lia)). lia. }
    pose proof (Z.div_mod (wrote_size it + partial_bytes it + length d) 16 ltac:(lia)) as Hdm.
    pose proof (Z.mod_pos_bound (wrote_size it + partial_bytes it + length d) 16 ltac:(lia)) as Hmb.
    pose proof (Z.div_mod (wrote_size it) 16 ltac:(lia)) as Hw16.
    destruct (fill_partial ENC_RW f1 it d) as [[f2 it2] [d2|r]] eqn:Hfill.
    + destruct (save_trailing it2 d2) as [it3 d3] eqn:Htr. intros Hw.
      destruct (decide (partial_bytes it = 0)) as [Hz|Hz].
      * unfold fill_partial in Hfill. apply Z.eqb_eq in Hz as Hzb. rewrite Hzb in Hfill.
        injection Hfill as <- <- <-.
        assert (Hk : wrote_size it + length d / 16 * 16 = (wrote_size it + partial_bytes it + length d) / 16 * 16).
        { rewrite Hz, Z.add_0_r. rewrite Hw16 at 2. rewrite Hec.
          replace (16 * (wrote_size it / 16) + 0 + length d) with (length d + wrote_size it / 16 * 16) by lia.
          rewrite Z.div_add by lia. lia. }
        destruct (save_trailing_done hi f1 it data d it3 d3 f' it' Henc Hst Hz Hd ltac:(lia) ltac:(lia) Htr Hw)
          as (Hst' & Hn & Hws). split; [|done]. apply Hfin; [done|done|lia].
      * apply Z.eqb_neq in Hz as Hzb.
        (* the cached block can be completed, so it lies below the limit *)
        assert (Hcp : 16 <= partial_bytes it + length d).
        { unfold fill_partial in Hfill. rewrite Hzb in Hfill. cbn zeta in Hfill.
          rewrite (wrap_small 8) in Hfill by (unfold in_range; change (2 ^ 8) with 256; lia).
          destruct (Z.eqb_spec (partial_bytes it + Z.min (16 - partial_bytes it) (length d)) 16);
            [lia|done]. }
        assert (Hblk : wrote_size it + 16 <= hi).
        { assert (wrote_size it / 16 + 1 <= (wrote_size it + partial_bytes it + length d) / 16); [|lia].
          apply Z.div_le_lower_bound; lia. }
        destruct (fill_partial_full hi f1 it data d f2 it2 d2 Henc Hst Hd) as
          (d1 & -> & Hst2 & Hpb2 & Hn2 & Hws2 & Hd1); [by rewrite Hzb|lia|done|].
        rewrite Hzb in Hws2, Hd1. apply Forall_app in Hd as [Hd1r Hd2r]. rewrite length_app in *.
        pose proof (si_len _ _ _ _ Hst2) as Hl2. rewrite length_app, Hpb2, Hws2 in Hl2.
        assert (Hk : wrote_size it2 + length d2 / 16 * 16
                     = (wrote_size it + partial_bytes it + (length d1 + length d2)%nat) / 16 * 16).
        { rewrite Hws2.
          replace (wrote_size it + partial_bytes it + (length d1 + length d2)%nat)
            with (length d2 + (wrote_size it / 16 + 1) * 16) by lia.
          rewrite Z.div_add by lia. lia. }
        destruct (save_trailing_done hi f2 it2 (data ++ d1) d2 it3 d3 f' it' Henc Hst2 Hpb2 Hd2r
          ltac:(lia) ltac:(lia) Htr Hw) as (Hst' & Hn & Hws).
        rewrite <- app_assoc in Hst'. split; [|congruence]. apply Hfin; [done|congruence|lia].
    + intros [= <- <- ->].
      destruct (fill_partial_short hi f1 it data d f2 it2 Hst Hd Henc Hfill) as (Hst' & Hn & Hws).
      split; [|done]. apply Hfin; [done|done|]. rewrite Hws.
      unfold hi, write_limit. destruct (need_erase it) eqn:Hn'.
      * pose proof (round_up_le (wrote_size it + length d)). lia.
      * specialize (Hlim eq_refl). lia.
  - intros Hw. rewrite Hec in *.
    assert (Hhi : wrote_size it + length d <= hi).
    { unfold hi, write_limit. destruct (need_erase it) eqn:Hn.
      - apply round_up_le.
      - specialize (Hlim eq_refl). lia. }
    destruct (write_body_done hi f1 it data d f' it' Hst Hec Hd Hhi ltac:(lia)) as (Hst' & Hn & Hws);
      [by rewrite Henc|done|].
    split; [|done]. apply Hfin; [done|done|lia].
Qed.

End Stream.

(** ** A whole update *)

Section Update.
  Context {F E : Type} `{Hlaws : FlashLaws F} `{EfuseOps E}.
  Context (cfg : boot_cfg) (ENC_RW : bool) (page_bits : Z).
  Context (l : partition_list) (malloc : bool) (phys_offs : Z).
  Context (image_verify : F -> esp_partition_pos_t -> bool).

Lemma find_replace h it es e :
  List.find (has_handle h) es = Some e -> handle it = h ->
  List.find (has_handle h) (replace_entry h it es) = Some it.
Proof.
  intros Hf Hh. induction es as [|e0 es IH]; cbn in *; [done|].
  destruct (has_handle h e0) eqn:Hh0.
  - cbn. unfold has_handle at 1. by rewrite Hh, Z.eqb_refl.
  - cbn. rewrite Hh0. auto.
Qed.

Lemma write_entry_keeps (f : F) it d f' it' r :
  write_entry cfg ENC_RW f it d = (f', it', r) -> handle it' = handle it /\ part it' = part it.
Proof.
  unfold write_entry, write_body. destruct (write_erase f it (length d)) as [f1 [] ]; try by intros [= _ <- _].
  destruct (_ && _); [by intros [= _ <- _]|].
  destruct (boot_flash_encryption cfg).
  - destruct (fill_partial ENC_RW f1 it d) as [[f2 it2] r2] eqn:Hfill.
    assert (Hk : handle it2 = handle it /\ part it2 = part it).
    { revert Hfill. unfold fill_partial. destruct (_ =? _); [by intros [= _ <- _]|].
      destruct (negb _); [by intros [= _ <- _]|].
      destruct (part_write _ _ _ _ _) as [? [] ]; by intros [= _ <- _]. }
    destruct r2 as [d2|r2]; [|by intros [= _ <- _]]. destruct (save_trailing it2 d2) as [it3 d3] eqn:Hs.
    assert (Hk3 : handle it3 = handle it2 /\ part it3 = part it2).
    { revert Hs. unfold save_trailing. destruct (negb _); by intros [= <- _]. }
    destruct (part_write _ _ _ _ _) as [? [] ]; intros [= _ <- _]; cbn; split; destruct Hk, Hk3; congruence.
  - destruct (part_write _ _ _ _ _) as [? [] ]; by intros [= _ <- _].
Qed.

(** [esp_ota_write] called for each chunk in turn, until one fails. *)
Fixpoint write_chunks (st : ota_st F E) (h : Z) (chunks : list (list Z)) : ota_st F E * esp_err_t :=
  match chunks with
  | [] => (st, ESP_OK)
  | c :: chunks =>
      match esp_ota_write cfg ENC_RW st h (Some c) with
      | (st, ESP_OK) => write_chunks st h chunks
      | (st, err) => (st, err)
      end
  end.

Lemma write_chunks_inv lim chunks st h it data st' :
  get_ota_ops_entry st h = Some it -> handle it = h -> stream_inv cfg lim (o_flash st) it data ->
  Forall (Forall (in_range 8)) chunks ->
  length data + length (concat chunks) < 2 ^ 31 - 16 ->
  (need_erase it = false -> length data + length (concat chunks) <= lim) ->
  write_chunks st h chunks = (st', ESP_OK) ->
  exists it', get_ota_ops_entry st' h = Some it' /\ part it' = part it /\
    need_erase it' = need_erase it /\
    stream_inv cfg lim (o_flash st') it' (data ++ concat chunks).
Proof.
  revert st it data. induction chunks as [|c chunks IH]; intros st it data Hg Hh Hinv Hr Hlen Hlim; cbn.
  { intros [= <-]. exists it. rewrite app_nil_r. auto. }
  inversion Hr as [|? ? Hc Hcs]; subst. cbn [concat] in *. rewrite length_app in *.
  destruct c as [|b c]; cbn [esp_ota_write]; [by apply IH|]. rewrite Hg.
  destruct (write_entry cfg ENC_RW (o_flash st) it (b :: c)) as [[f1 it1] r] eqn:Hw.
  destruct r; try done. intros Hrest.
  destruct (write_entry_keeps _ _ _ _ _ _ Hw) as [Hh1 Hp1].
  destruct (write_entry_appends cfg ENC_RW lim (o_flash st) it data (b :: c) f1 it1 Hinv)
    as [Hinv1 Hne1]; [done|done|lia|intros Hn; specialize (Hlim Hn); lia|done|].
  specialize (IH (upd_entries (replace_entry (handle it) it1 (s_ota_ops_entries_head st)) (upd_oflash f1 st))
    it1 (data ++ b :: c)).
  destruct IH as (it' & Hg' & Hp' & Hn' & Hinv'); try done.
  - unfold get_ota_ops_entry. cbn. by apply (find_replace _ _ _ it).
  - rewrite length_app. lia.
  - rewrite length_app, Hne1. intros Hn. specialize (Hlim Hn). lia.
  - exists it'. rewrite <- app_assoc in Hinv'. split; [done|]. split; [congruence|].
    split; [congruence|done].
Qed.

(** The erased size of [esp_ota_begin] for a known image size. *)
Definition begin_limit (p : partition_list_item_t) (image_size : Z) : Z :=
  if image_size =? OTA_WITH_SEQUENTIAL_WRITES then 0
  else if (image_size =? 0) || (image_size =? OTA_SIZE_UNKNOWN) then size (info p)
  else Z.land (u32 (image_size + SPI_FLASH_SEC_SIZE - 1)) (Z.lnot (SPI_FLASH_SEC_SIZE - 1)).

Lemma aligned_range x : 
  0 <= Z.land (u32 x) (Z.lnot (SPI_FLASH_SEC_SIZE - 1)) < 2 ^ 32 /\
  Z.land (u32 x) (Z.lnot (SPI_FLASH_SEC_SIZE - 1)) mod SPI_FLASH_SEC_SIZE = 0.
Proof.
  change (SPI_FLASH_SEC_SIZE - 1) with (Z.ones 12). rewrite <- Z.ldiff_land.
  rewrite Z.ldiff_ones_r by lia. rewrite Z.shiftr_div_pow2, Z.shiftl_mul_pow2 by lia.
  change SPI_FLASH_SEC_SIZE with (2 ^ 12). pose proof (wrap_range 32 x ltac:(lia)) as Hu.
  unfold in_range in Hu. pose proof (Z.div_mod (u32 x) (2 ^ 12) ltac:(lia)).
  pose proof (Z.mod_pos_bound (u32 x) (2 ^ 12) ltac:(lia)).
  pose proof (Z.div_pos (u32 x) (2 ^ 12) ltac:(lia) ltac:(lia)).
  split; [lia|]. by apply Z.mod_mul.
Qed.

Lemma begin_limit_16 q image_size :
  image_size <> OTA_WITH_SEQUENTIAL_WRITES -> size (info q) mod 16 = 0 ->
  begin_limit q image_size mod 16 = 0.
Proof.
  intros Hseq Hs. unfold begin_limit. apply Z.eqb_neq in Hseq. rewrite Hseq.
  destruct (_ || _); [done|].
  pose proof (proj2 (aligned_range (image_size + SPI_FLASH_SEC_SIZE - 1))) as Hm.
  set (v := Z.land _ _) in *. pose proof (Z.div_mod v SPI_FLASH_SEC_SIZE ltac:(done)) as Hv.
  rewrite Hm in Hv. rewrite Hv. unfold SPI_FLASH_SEC_SIZE.
  replace (4096 * (v / 4096) + 0) with (v / 4096 * 256 * 16) by lia. by apply Z.mod_mul.
Qed.

(** The cached block that [esp_ota_end] writes was erased. *)
Lemma last_block_room it q (n : nat) image_size :
  need_erase it = (image_size =? OTA_WITH_SEQUENTIAL_WRITES) ->
  wrote_size it + partial_bytes it = n -> wrote_size it mod 16 = 0 ->
  0 < partial_bytes it < 16 -> 0 <= wrote_size it ->
  (image_size <> OTA_WITH_SEQUENTIAL_WRITES -> n <= begin_limit q image_size) ->
  (image_size = OTA_WITH_SEQUENTIAL_WRITES -> n mod SPI_FLASH_SEC_SIZE < 16 -> n mod 16 = 0) ->
  size (info q) mod 16 = 0 ->
  wrote_size it + 16 <= erase_limit it (begin_limit q image_size).
Proof.
  intros Hne Hl Hw Hpb Hw0 Hfit Hcase Hs. unfold erase_limit. rewrite Hne.
  pose proof (Z.div_mod (wrote_size it) 16 ltac:(lia)) as Hdm.
  destruct (Z.eqb_spec image_size OTA_WITH_SEQUENTIAL_WRITES) as [Hseq|Hseq].
  - pose proof (round_up_le (wrote_size it)) as Hru.
    pose proof (round_up_16 (wrote_size it)) as Hal.
    pose proof (Z.div_mod (round_up (wrote_size it)) 16 ltac:(lia)).
    destruct (Z.eq_dec (wrote_size it mod SPI_FLASH_SEC_SIZE) 0) as [Ha|Ha].
    + exfalso. assert (Hmod : n mod SPI_FLASH_SEC_SIZE = partial_bytes it).
      { rewrite <- Hl, Z.add_mod, Ha, Z.add_0_l, Z.mod_mod by (unfold SPI_FLASH_SEC_SIZE; lia).
        apply Z.mod_small. unfold SPI_FLASH_SEC_SIZE. lia. }
      specialize (Hcase Hseq ltac:(rewrite Hmod; lia)).
      rewrite <- Hl, Z.add_mod, Hw, Z.add_0_l, Z.mod_mod, Z.mod_small in Hcase by lia. lia.
    + assert (round_up (wrote_size it) <> wrote_size it); [|lia].
      intros Heq. apply Ha. rewrite <- Heq. unfold round_up. by apply Z.mod_mul.
  - specialize (Hfit Hseq). pose proof (begin_limit_16 q image_size Hseq Hs) as Hal.
    pose proof (Z.div_mod (begin_limit q image_size) 16 ltac:(lia)). lia.
Qed.

(** What a successful [esp_ota_begin] leaves: a fresh entry at the head. *)
Lemma begin_done (st : ota_st F E) p image_size st0 h :
  Forall (fun i => part_ok (info i)) l ->
  esp_ota_begin cfg page_bits l malloc phys_offs st (Some p) image_size true true
    = Some (st0, ESP_OK, Some h) ->
  exists it, get_ota_ops_entry st0 h = Some it /\ handle it = h /\
    verify_in malloc l p = Some (part it) /\
    need_erase it = (image_size =? OTA_WITH_SEQUENTIAL_WRITES) /\
    stream_inv cfg (begin_limit (part it) image_size) (o_flash st0) it [].
Proof.
  intros Hok. unfold esp_ota_begin. cbn [negb].
  destruct (verify_in malloc l p) as [q|] eqn:Hv; [|done].
  assert (Hq : part_ok (info q)).
  { rewrite List.Forall_forall in Hok. apply Hok. eapply find_in_search_in, Hv. }
  destruct (negb (is_ota_partition _)); [done|].
  destruct (esp_ota_get_running_partition _ _ _ _) as [[st1 r]|]; [|done].
  destruct (same_item _ _); [done|]. destruct (running_unconfirmed _ _ _ _ _ _) as [[|]|]; try done.
  destruct (begin_erase (o_flash st1) q image_size) as [f1 e] eqn:He. destruct e; try done.
  cbn [is_ok negb]. cbn zeta. intros [= <- <-].
  eexists. split; [unfold get_ota_ops_entry; cbn; unfold has_handle; by rewrite Z.eqb_refl|].
  split; [done|]. split; [done|]. split; [done|]. unfold stream_inv, erase_limit.
  cbn [need_erase wrote_size part o_flash upd_handle upd_entries upd_oflash].
  assert (Hlim : forall a, 0 <= a < begin_limit q image_size ->
    flash_byte f1 (flash_chip (info q)) (address (info q) + a) = 0xFF).
  { revert He. unfold begin_erase, begin_limit, erase_range.
    destruct (image_size =? OTA_WITH_SEQUENTIAL_WRITES); cbn [negb]; [intros; lia|].
    destruct Hq as (Ha & Hs & Hl).
    destruct (_ || _); intros He a Hlt.
    - eapply (erase_done (info q) (o_flash st1) f1 0 (size (info q)));
        [by split|lia|lia|lia|done|lia].
    - pose proof (proj1 (aligned_range (image_size + SPI_FLASH_SEC_SIZE - 1))).
      eapply (erase_done (info q) (o_flash st1) f1 0
        (Z.land (u32 (image_size + SPI_FLASH_SEC_SIZE - 1)) (Z.lnot (SPI_FLASH_SEC_SIZE - 1))));
        [by split|lia|lia|lia|done|lia]. }
  destruct Hq as (Ha & Hs & Hl).
  split; cbn [wrote_size partial_bytes partial_data part]; try done; try lia.
  - split; [done|]. repeat constructor; done.
  - intros a Hr. destruct (image_size =? OTA_WITH_SEQUENTIAL_WRITES); [|by apply Hlim].
    change (round_up 0) with 0 in Hr. lia.
  - by destruct (boot_flash_encryption cfg).
Qed.


(** ** Isolation *)

(** The calls an application can make on handles. *)
Inductive ota_call :=
| Begin (p : esp_partition_t) (image_size : Z) (calloc : bool)
| Write (h : Z) (data : list Z)
| WriteWithOffset (h : Z) (data : list Z) (offset : Z)
| End_ (h : Z)
| Abort_ (h : Z).

(** [None]: the program aborted. *)
Definition run_call (st : ota_st F E) (c : ota_call) : option (ota_st F E) :=
  match c with
  | Begin p image_size calloc =>
      option_map (fun r => fst (fst r))
        (esp_ota_begin cfg page_bits l malloc phys_offs st (Some p) image_size true calloc)
  | Write h data => Some (fst (esp_ota_write cfg ENC_RW st h (Some data)))
  | WriteWithOffset h data offset =>
      option_map fst (esp_ota_write_with_offset cfg ENC_RW st h (Some data) offset)
  | End_ h => Some (fst (esp_ota_end ENC_RW image_verify st h))
  | Abort_ h => Some (fst (esp_ota_abort st h))
  end.

(** Arguments that exist on the device: 32-bit numbers, buffers below 1 GiB. *)
Definition call_ok (c : ota_call) : Prop :=
  match c with
  | Begin _ image_size _ => in_range 32 image_size
  | Write _ data => length data < 2 ^ 30
  | WriteWithOffset _ data offset => length data < 2 ^ 30 /\ in_range 32 offset
  | _ => True
  end.

Inductive ota_steps : ota_st F E -> ota_st F E -> Prop :=
| steps_refl st : ota_steps st st
| steps_call st st1 st2 c :
    ota_steps st st1 -> call_ok c -> run_call st1 c = Some st2 -> ota_steps st st2.

(** [r] is the partition that [esp_ota_get_running_partition] returns. *)
Definition is_running (st : ota_st F E) (r : partition_list_item_t) : Prop :=
  exists st', esp_ota_get_running_partition l malloc phys_offs st = Some (st', r).

Definition handle_wf (it : ota_ops_entry_t) : Prop :=
  in_range 32 (wrote_size it) /\ 0 <= partial_bytes it <= 16 /\ length (partial_data it) = 16%nat.

(** Every handle writes to an OTA slot of the table that is not running. *)
Definition handles_ok (r : partition_list_item_t) (st : ota_st F E) : Prop :=
  is_running st r /\
  Forall (fun it => In (part it) l /\ is_ota_partition (info (part it)) = true /\
                    addr (part it) <> addr r /\ handle_wf it)
         (s_ota_ops_entries_head st).

(** Nothing but OTA slots other than [r] differs. *)
Definition only_slots (r : partition_list_item_t) (f f' : F) : Prop :=
  forall c a, flash_byte f' c a <> flash_byte f c a ->
  exists q, In q l /\ is_ota_partition (info q) = true /\ addr q <> addr r /\
    c = flash_chip (info q) /\ address (info q) <= a < address (info q) + size (info q).

Lemma only_slots_part r (f f' : F) q :
  In q l -> is_ota_partition (info q) = true -> addr q <> addr r ->
  in_partition (info q) f f' -> only_slots r f f'.
Proof.
  intros Hin Ho Hr Hf c a Hne. exists q. split; [done|]. split; [done|]. split; [done|].
  destruct (decide (c = flash_chip (info q))) as [Hc|Hc]; [|exfalso; apply Hne, Hf; auto].
  split; [done|].
  destruct (Z_lt_le_dec a (address (info q))); [exfalso; apply Hne, Hf; lia|].
  destruct (Z_lt_le_dec a (address (info q) + size (info q))); [lia|exfalso; apply Hne, Hf; lia].
Qed.

Lemma in_partition_trans p (f1 f2 f3 : F) :
  in_partition p f1 f2 -> in_partition p f2 f3 -> in_partition p f1 f3.
Proof. apply flash_frame_trans. Qed.

Lemma part_write_in (f : F) q off d :
  part_ok (info q) -> 0 <= off -> length d < 2 ^ 31 ->
  in_partition (info q) f (fst (part_write ENC_RW f q off d)).
Proof. apply write_in_partition. Qed.

(** The erase of [esp_ota_write] never leaves the partition, even when its
    32-bit arithmetic wraps. *)
Lemma write_erase_in (f : F) it k :
  part_ok (info (part it)) -> in_range 32 (wrote_size it) -> 0 < k < 2 ^ 30 ->
  in_partition (info (part it)) f (fst (write_erase f it k)).
Proof.
  intros Hp [Hw0 Hw1] Hk. unfold write_erase, erase_range. pose proof Hp as (Ha & Hs & Hl).
  destruct (need_erase it); [|apply flash_frame_refl]. cbn zeta.
  set (w := wrote_size it) in *.
  set (last := u32 (w + k - 1) / SPI_FLASH_SEC_SIZE). set (first := w / SPI_FLASH_SEC_SIZE).
  assert (Hu : forall x, 0 <= u32 x < 2 ^ 32) by (intros; apply wrap_range; lia).
  assert (Hdm : w = SPI_FLASH_SEC_SIZE * first + w mod SPI_FLASH_SEC_SIZE) by (by apply Z.div_mod).
  pose proof (Z.mod_pos_bound w SPI_FLASH_SEC_SIZE ltac:(done)) as Hmb.
  assert (Hlast : w < 2 ^ 31 -> SPI_FLASH_SEC_SIZE * last <= w + k - 1).
  { intros Hlt. unfold last. rewrite u32_small by lia.
    pose proof (Z.div_mod (w + k - 1) SPI_FLASH_SEC_SIZE ltac:(done)).
    pose proof (Z.mod_pos_bound (w + k - 1) SPI_FLASH_SEC_SIZE ltac:(done)). lia. }
  assert (Hfl : w < 2 ^ 31 -> first <= last).
  { intros Hlt. unfold first, last. rewrite u32_small by lia.
    apply Z.div_le_mono; unfold SPI_FLASH_SEC_SIZE; lia. }
  unfold SPI_FLASH_SEC_SIZE in *.
  destruct (Z.eqb_spec (w mod 4096) 0) as [Hal|Hal]; [|destruct (negb _) eqn:Hne; [|apply flash_frame_refl]];
    (apply erase_in_partition; [done|try apply Hu; lia|apply Hu|]);
    destruct (Z_lt_le_dec w (2 ^ 31)) as [Hlt|Hge].
  - right. specialize (Hlast Hlt). specialize (Hfl Hlt). rewrite u32_small by lia. lia.
  - left. lia.
  - right. specialize (Hlast Hlt). specialize (Hfl Hlt).
    rewrite (u32_small ((first + 1) * 4096)), u32_small by lia. lia.
  - destruct (Z_lt_le_dec ((first + 1) * 4096) (2 ^ 32)) as [Hn|Hn].
    + left. rewrite u32_small by lia. lia.
    + right. assert ((first + 1) * 4096 = 2 ^ 32) as -> by lia. change (u32 (2 ^ 32)) with 0. apply Hu.
Qed.

Lemma write_body_in (f : F) it d f' it' r :
  part_ok (info (part it)) -> handle_wf it -> length d < 2 ^ 30 ->
  write_body ENC_RW f it d = (f', it', r) ->
  in_partition (info (part it)) f f' /\ handle_wf it'.
Proof.
  intros Hp (Hw & Hpb & Hpd) Hd. unfold write_body.
  pose proof (part_write_in f (part it) (wrote_size it) d Hp (proj1 Hw) ltac:(lia)) as Hf.
  destruct (part_write _ _ _ _ _) as [f1 er]. cbn [fst] in Hf.
  assert (Hwf : handle_wf (set_progress (u32 (wrote_size it + length d)) (partial_bytes it)
    (partial_data it) it)) by (split; [apply wrap_range; lia|done]).
  by destruct er; intros [= <- <- _].
Qed.

Lemma fill_partial_in (f : F) it d f' it' r :
  part_ok (info (part it)) -> handle_wf it -> length d < 2 ^ 30 ->
  fill_partial ENC_RW f it d = (f', it', r) ->
  in_partition (info (part it)) f f' /\ handle_wf it' /\
  match r with inl d' => partial_bytes it' = 0 /\ (length d' <= length d)%nat | inr _ => True end.
Proof.
  intros Hp (Hw & Hpb & Hpd) Hd. unfold fill_partial.
  destruct (Z.eqb_spec (partial_bytes it) 0) as [Hz|Hz].
  { intros [= <- <- <-]. split; [apply flash_frame_refl|]. by split. }
  set (cp := Z.min (16 - partial_bytes it) (length d)).
  assert (Hcp : 0 <= cp <= length d /\ partial_bytes it + cp <= 16) by lia.
  rewrite (wrap_small 8) by (unfold in_range; change (2 ^ 8) with 256; lia).
  set (pd := take _ _ ++ _ ++ _).
  assert (Hpl : length pd = 16%nat).
  { unfold pd. rewrite !length_app, !length_take, length_drop. lia. }
  destruct (Z.eqb_spec (partial_bytes it + cp) 16); cbn [negb].
  2:{ intros [= <- <- <-]. split; [apply flash_frame_refl|]. split; [|done]. split; [done|cbn; lia]. }
  cbn [set_progress part wrote_size partial_data].
  pose proof (part_write_in f (part it) (wrote_size it) pd Hp (proj1 Hw) ltac:(lia)) as Hf.
  destruct (part_write _ _ _ _ _) as [f1 er]. cbn [fst] in Hf.
  destruct er; intros [= <- <- <-]; (split; [exact Hf|]); (split; [split; cbn; try lia; try done|]);
    try done; try (apply wrap_range; lia).
  rewrite length_drop. cbn. lia.
Qed.

Lemma write_entry_in (f : F) it d f' it' r :
  part_ok (info (part it)) -> handle_wf it -> 0 < length d < 2 ^ 30 ->
  write_entry cfg ENC_RW f it d = (f', it', r) ->
  in_partition (info (part it)) f f' /\ handle_wf it'.
Proof.
  intros Hp Hwf Hd. unfold write_entry.
  pose proof (write_erase_in f it (length d) Hp (proj1 Hwf) Hd) as Hf0.
  destruct (write_erase f it (length d)) as [f1 er]. cbn [fst] in Hf0.
  destruct (decide (er = ESP_OK)) as [-> |Hne]; [|by destruct er; try done; intros [= <- <- _]].
  destruct (_ && _); [by intros [= <- <- _]|].
  destruct (boot_flash_encryption cfg).
  2:{ intros Hw. destruct (write_body_in f1 it d f' it' r Hp Hwf ltac:(lia) Hw) as [Hf1 Hwf'].
      split; [|done]. by eapply in_partition_trans. }
  destruct (fill_partial ENC_RW f1 it d) as [[f2 it2] r2] eqn:Hfill.
  destruct (fill_partial_in f1 it d f2 it2 r2 Hp Hwf ltac:(lia) Hfill) as (Hf1 & Hwf2 & Hr2).
  assert (Hp2 : part it2 = part it).
  { revert Hfill. unfold fill_partial. destruct (_ =? _); [by intros [= _ <- _]|].
    destruct (negb _); [by intros [= _ <- _]|].
    destruct (part_write _ _ _ _ _) as [? [] ]; by intros [= _ <- _]. }
  destruct r2 as [d2|r2]; [|intros [= <- <- _]; split; [by eapply in_partition_trans|done]].
  destruct Hr2 as [Hz2 Hd2]. destruct (save_trailing it2 d2) as [it3 d3] eqn:Hs.
  assert (Hs3 : part it3 = part it2 /\ handle_wf it3 /\ (length d3 <= length d2)%nat).
  { revert Hs. destruct Hwf2 as (Hw2 & Hpb2 & Hpd2).
    pose proof (Z.div_mod (length d2) 16 ltac:(lia)).
    pose proof (Z.mod_pos_bound (length d2) 16 ltac:(lia)). unfold save_trailing.
    destruct (negb _); intros [= <- <-]; (split; [done|]).
    - split; [split; [done|cbn; split; [lia|]]|rewrite length_take; lia].
      rewrite length_app, !length_drop. lia.
    - split; [split; [done|cbn; split; [lia|done]]|lia]. }
  destruct Hs3 as (Hp3 & Hwf3 & Hd3). intros Hw.
  destruct (write_body_in f2 it3 d3 f' it' r) as [Hf3 Hwf']; [congruence|done|lia|done|].
  split; [|done]. rewrite Hp3, Hp2 in Hf3.
  eapply in_partition_trans; [exact Hf0|]. eapply in_partition_trans; [exact Hf1|exact Hf3].
Qed.

Lemma only_slots_refl r (f : F) : only_slots r f f.
Proof. by intros c a Hne. Qed.

Lemma only_slots_trans r (f1 f2 f3 : F) :
  only_slots r f1 f2 -> only_slots r f2 f3 -> only_slots r f1 f3.
Proof.
  intros H1 H2 c a Hne. destruct (decide (flash_byte f2 c a = flash_byte f1 c a)) as [Heq|Hd].
  - apply H2. congruence.
  - by apply H1.
Qed.

Lemma Forall_replace (P : ota_ops_entry_t -> Prop) h it es :
  Forall P es -> P it -> Forall P (replace_entry h it es).
Proof. intros Hes Hit. induction Hes; cbn; [done|]. case_test; constructor; auto. Qed.

Lemma Forall_remove (P : ota_ops_entry_t -> Prop) h es :
  Forall P es -> Forall P (remove_entry h es).
Proof. intros Hes. induction Hes; cbn; [done|]. case_test; auto. Qed.

Lemma running_after st r st1 q :
  is_running st r -> esp_ota_get_running_partition l malloc phys_offs st = Some (st1, q) ->
  q = r /\ is_running st1 r /\ o_flash st1 = o_flash st /\
  s_ota_ops_entries_head st1 = s_ota_ops_entries_head st.
Proof.
  intros [st' Hr] Hq. rewrite Hr in Hq. injection Hq as -> ->. split; [done|].
  revert Hr. unfold is_running, esp_ota_get_running_partition.
  destruct (curr_partition st) as [c|] eqn:Hc.
  - intros [= <- <-]. split; [|done]. exists st. by rewrite Hc.
  - destruct (iter_search _ _ _) as [p|]; [|done]. intros [= <- <-]. split; [|done].
    by eexists.
Qed.

(** Which partition runs depends on the cache of the state only. *)
Lemma is_running_curr st st1 r :
  curr_partition st1 = curr_partition st -> is_running st r -> is_running st1 r.
Proof.
  unfold is_running, esp_ota_get_running_partition. intros -> [s Hs].
  destruct (curr_partition st); [injection Hs as _ <-; by eexists|].
  destruct (iter_search _ _ _); [|done]. injection Hs as _ <-. by eexists.
Qed.

Lemma begin_erase_in (f : F) q image_size :
  part_ok (info q) -> in_partition (info q) f (fst (begin_erase f q image_size)).
Proof.
  intros Hq. pose proof Hq as (Ha & Hs & Hl). unfold begin_erase, erase_range.
  destruct (negb _); [|apply flash_frame_refl].
  pose proof (proj1 (aligned_range (image_size + SPI_FLASH_SEC_SIZE - 1))).
  destruct (_ || _); apply erase_in_partition; try done; try lia.
Qed.

Lemma begin_isolated st p image_size calloc_ r st' res h :
  Forall (fun i => part_ok (info i)) l -> handles_ok r st ->
  esp_ota_begin cfg page_bits l malloc phys_offs st (Some p) image_size true calloc_
    = Some (st', res, h) ->
  handles_ok r st' /\ only_slots r (o_flash st) (o_flash st').
Proof.
  intros Hok [Hrun Hes]. pose proof (only_slots_refl r (o_flash st)) as Hrefl.
  unfold esp_ota_begin. cbn [negb].
  destruct (verify_in malloc l p) as [q|] eqn:Hv; [|by intros [= <- _ _]].
  apply find_in_search_in in Hv.
  destruct (is_ota_partition (info q)) eqn:Hota; cbn [negb]; [|by intros [= <- _ _]].
  destruct (esp_ota_get_running_partition _ _ _ _) as [[st1 r1]|] eqn:Hg; [|done].
  destruct (running_after st r st1 r1 Hrun Hg) as (-> & Hrun1 & Hf1 & He1). rewrite <- Hf1 in *.
  assert (H1 : handles_ok r st1) by (split; [done|by rewrite He1]).
  unfold same_item. destruct (Z.eqb_spec (addr q) (addr r)) as [|Hne]; [by intros [= <- _ _]|].
  destruct (running_unconfirmed _ _ _ _ _ _) as [[|]|]; [by intros [= <- _ _]| |done].
  assert (Hq : part_ok (info q)) by (rewrite List.Forall_forall in Hok; by apply Hok).
  pose proof (begin_erase_in (o_flash st1) q image_size Hq) as Hin.
  destruct (begin_erase _ _ _) as [f1 er]. cbn [fst] in Hin.
  assert (Hs : only_slots r (o_flash st1) f1) by (by apply (only_slots_part r _ _ q)).
  assert (H2 : handles_ok r (upd_oflash f1 st1)).
  { destruct H1 as [Hr1 Hes1]. split; [by apply (is_running_curr st1)|done]. }
  destruct (is_ok er); cbn [negb]; [|by intros [= <- _ _]].
  destruct calloc_; cbn [negb]; [|by intros [= <- _ _]]. intros [= <- _ _]. split; [|done].
  destruct H2 as [Hr2 Hes2]. split.
  - by apply (is_running_curr (upd_oflash f1 st1)).
  - cbn. constructor; [|done]. cbn. split; [done|]. split; [done|]. split; [done|].
    split; [done|]. split; [cbn; lia|done].
Qed.

Lemma end_entry_in (f : F) it :
  part_ok (info (part it)) -> handle_wf it ->
  in_partition (info (part it)) f (fst (end_entry ENC_RW image_verify f it)).
Proof.
  intros Hp (Hw & Hpb & Hpd). unfold end_entry.
  destruct (_ =? _); [apply flash_frame_refl|].
  pose proof (part_write_in f (part it) (wrote_size it) (partial_data it) Hp (proj1 Hw) ltac:(lia)) as Hf.
  destruct (0 <? partial_bytes it).
  - destruct (part_write _ _ _ _ _) as [f1 er]. cbn [fst] in Hf.
    destruct er; cbn [is_ok negb]; try destruct (negb _); exact Hf.
  - cbn [is_ok negb]. destruct (negb _); apply flash_frame_refl.
Qed.

(** One call keeps the invariant and changes only slots that are not running. *)
Lemma run_call_isolated r st c st' :
  Forall (fun i => part_ok (info i)) l -> handles_ok r st -> call_ok c ->
  run_call st c = Some st' -> handles_ok r st' /\ only_slots r (o_flash st) (o_flash st').
Proof.
  intros Hok Hh Hc. pose proof (only_slots_refl r (o_flash st)) as Hrefl. pose proof Hh as [Hrun Hes].
  assert (Hfind : forall h it, get_ota_ops_entry st h = Some it ->
    part_ok (info (part it)) /\ handle_wf it /\ In (part it) l /\
    is_ota_partition (info (part it)) = true /\ addr (part it) <> addr r).
  { intros h it Hg. apply List.find_some in Hg as [Hin _]. rewrite List.Forall_forall in Hes, Hok.
    destruct (Hes it Hin) as (? & ? & ? & ?). auto. }
  destruct c as [p sz calloc_|h d|h d off|h|h]; cbn [run_call call_ok] in *.
  - destruct (esp_ota_begin _ _ _ _ _ _ _ _ _ _) as [[[s1 res] ho]|] eqn:Hb; [|done].
    intros [= <-]. by eapply begin_isolated.
  - intros [= <-]. unfold esp_ota_write. destruct d as [|b d]; [done|].
    destruct (get_ota_ops_entry st h) as [it|] eqn:Hg; [|done].
    destruct (Hfind h it Hg) as (Hp & Hwf & Hin & Hota & Hne).
    destruct (write_entry cfg ENC_RW (o_flash st) it (b :: d)) as [[f1 it1] res] eqn:Hw.
    destruct (write_entry_in (o_flash st) it (b :: d) f1 it1 res Hp Hwf ltac:(cbn in *; lia) Hw) as [Hf1 Hwf1].
    destruct (write_entry_keeps _ _ _ _ _ _ Hw) as [_ Hp1]. cbn [fst].
    split; [split; [by apply (is_running_curr st)|]|by eapply only_slots_part].
    cbn. apply Forall_replace; [done|]. by rewrite Hp1.
  - unfold esp_ota_write_with_offset.
    destruct (get_ota_ops_entry st h) as [it|] eqn:Hg; [|by intros [= <-]].
    destruct (Hfind h it Hg) as (Hp & Hwf & Hin & Hota & Hne).
    destruct (need_erase it); [done|]. destruct (_ && _); [by intros [= <-]|].
    pose proof (part_write_in (o_flash st) (part it) off d Hp (proj1 (proj2 Hc)) ltac:(lia)) as Hf.
    destruct (part_write _ _ _ _ _) as [f1 er]. cbn [fst] in Hf.
    assert (Hs : only_slots r (o_flash st) f1) by (by eapply only_slots_part).
    assert (Hh1 : handles_ok r (upd_oflash f1 st)).
    { split; [by apply (is_running_curr st)|done]. }
    destruct er; intros [= <-]; try by split.
    split; [split; [by apply (is_running_curr st)|]|done]. cbn. apply Forall_replace; [done|].
    cbn. split; [done|]. split; [done|]. split; [done|].
    destruct Hwf as (? & ? & ?). split; [apply wrap_range; lia|done].
  - intros [= <-]. unfold esp_ota_end. destruct (get_ota_ops_entry st h) as [it|] eqn:Hg; [|done].
    destruct (Hfind h it Hg) as (Hp & Hwf & Hin & Hota & Hne).
    pose proof (end_entry_in (o_flash st) it Hp Hwf) as Hf.
    destruct (end_entry _ _ _ _) as [f1 er]. cbn [fst] in *.
    split; [split; [by apply (is_running_curr st)|]|by eapply only_slots_part].
    cbn. by apply Forall_remove.
  - intros [= <-]. unfold esp_ota_abort. destruct (get_ota_ops_entry st h) as [it|] eqn:Hg; [|done].
    cbn [fst]. split; [|done]. split; [by apply (is_running_curr st)|cbn; by apply Forall_remove].
Qed.

Lemma steps_isolated r st st' :
  Forall (fun i => part_ok (info i)) l -> ota_steps st st' -> handles_ok r st ->
  handles_ok r st' /\ only_slots r (o_flash st) (o_flash st').
Proof.
  intros Hok Hst. induction Hst as [st|st st1 st2 c Hst IH Hc Hr]; intros Hh.
  - split; [done|apply only_slots_refl].
  - destruct (IH Hh) as [Hh1 Hs1]. destruct (run_call_isolated r st1 c st2 Hok Hh1 Hc Hr) as [Hh2 Hs2].
    split; [done|]. by eapply only_slots_trans.
Qed.

(** C3: no sequence of update calls can damage the running application or a
    partition that is not an OTA slot. Starting without open handles, after any
    [esp_ota_begin], [esp_ota_write], [esp_ota_write_with_offset],
    [esp_ota_end] and [esp_ota_abort] calls with any arguments, in any order and
    whatever the flash driver answers, every byte of the running partition and
    of every partition of another kind is unchanged. *)
Theorem update_never_touches_running r st st' :
  table_ok l -> is_running st r -> s_ota_ops_entries_head st = [] -> ota_steps st st' ->
  forall q a, In q l -> addr q = addr r \/ is_ota_partition (info q) = false ->
    address (info q) <= a < address (info q) + size (info q) ->
    flash_byte (o_flash st') (flash_chip (info q)) a = flash_byte (o_flash st) (flash_chip (info q)) a.
Proof.
  intros [Hok Hdis] Hrun Hes Hst q a Hq Hkind Ha.
  destruct (steps_isolated r st st' Hok Hst) as [_ Hs]; [split; [done|by rewrite Hes]|].
  destruct (decide (flash_byte (o_flash st') (flash_chip (info q)) a
                    = flash_byte (o_flash st) (flash_chip (info q)) a)) as [|Hne]; [done|].
  exfalso. destruct (Hs _ _ Hne) as (q' & Hq' & Hota & Hr & Hchip & Hin).
  destruct (ForallOrdPairs_In Hdis q q' Hq Hq') as [<-|[Hd|Hd]].
  - destruct Hkind; congruence.
  - destruct Hd as [Hd|Hd]; [congruence|lia].
  - destruct Hd as [Hd|Hd]; [congruence|lia].
Qed.

End Update.

(** ** Concrete updates *)

Module StreamExample.
Import BootExample.

Definition cfg_of (enc : bool) : boot_cfg := {|
  CONFIG_BOOTLOADER_APP_ROLLBACK_ENABLE := false; CONFIG_BOOTLOADER_APP_ANTI_ROLLBACK := false;
  CONFIG_BOOTLOADER_RESERVE_RTC_MEM := false; CONFIG_BOOTLOADER_SKIP_VALIDATE_IN_DEEP_SLEEP := false;
  RTC_CUSTOM_IN_CRC := false; boot_flash_encryption := enc |}.
Definition slot_part (enc : bool) (x : Z) : esp_partition_t :=
  Part 0 0 (0x10 + x) (0x10000 + x * 0x100000) 0x100000 4096 [] enc false.
Definition parts (enc : bool) : partition_list :=
  [Item 100 (Part 0 1 0 0xd000 0x2000 4096 [] enc false) false;
   Item 200 (slot_part enc 0) false; Item 300 (slot_part enc 1) false].
(** A device that holds an old image everywhere, running from ota_0. *)
Definition used : ota_st NorFlash unit := OtaSt (fun _ _ => 0 : Z) tt [] 0 None.
Definition begin_ (enc : bool) (image_size : Z) :=
  esp_ota_begin (cfg_of enc) 16 (parts enc) true 0x10100 used (Some (slot_part enc 1))
    image_size true true.
Definition end_ (enc : bool) := esp_ota_end (F := NorFlash) (E := unit) enc (fun _ _ => true).
End StreamExample.

Import BootExample StreamExample.

(** The excluded case fails. Sequential erasing with flash encryption
    decides what to erase from [wrote_size] alone, which leaves out the bytes
    cached in [partial_data]: after 4095 and 16 bytes, [esp_ota_end] writes the
    last 15 bytes at the start of a sector that was never erased, and the image
    in flash is wrong although every call returned [ESP_OK]. *)
Theorem sequential_end_unerased :
  let chunks := [0xE9 :: replicate 4094 0xAA; replicate 16 0xBB] in
  match begin_ true OTA_WITH_SEQUENTIAL_WRITES with
  | Some (st0, ESP_OK, Some h) =>
      match write_chunks (cfg_of true) true st0 h chunks with
      | (st1, ESP_OK) =>
          snd (end_ true st1 h) = ESP_OK /\
          flash_bytes (o_flash (fst (end_ true st1 h))) 0 (0x110000 + 4096) 15 = replicate 15 0 /\
          drop 4096 (concat chunks) = replicate 15 0xBB
      | _ => False
      end
  | _ => False
  end.
Proof. vm_compute. auto. Qed.

Lemma parts_ok enc : Forall (fun i => part_ok (info i)) (parts enc).
Proof. unfold part_ok. repeat constructor; cbn; lia. Qed.

(** Results without the state, which is not a ground term. *)
Lemma begin_result enc sz err h :
  option_map (fun r => (snd (fst r), snd r)) (begin_ enc sz) = Some (err, h) ->
  begin_ enc sz = Some (match begin_ enc sz with Some (s, _, _) => s | None => used end, err, h).
Proof. destruct (begin_ enc sz) as [[[s e] h']|]; [|done]. by intros [= <- <-]. Qed.


Lemma update_never_touches_running_witness :
  let begin_call := run_call (cfg_of false) false 16 (parts false) true 0x10100 (fun _ _ => true) used
    (Begin (slot_part false 1) 0 true) in
  option_map (fun st => flash_byte (o_flash st) 0 0x10000) begin_call = Some 0 /\
  option_map (fun st => flash_byte (o_flash st) 0 0x110000) begin_call = Some 0xFF.
Proof.
  cbv zeta. split; [|vm_compute; reflexivity].
  destruct (run_call (cfg_of false) false 16 (parts false) true 0x10100 (fun _ _ => true) used
    (Begin (slot_part false 1) 0 true)) as [st1|] eqn:Hr.
  - cbn [option_map]. f_equal.
    change (flash_byte (o_flash st1) (flash_chip (info (Item 200 (slot_part false 0) false))) 0x10000
      = flash_byte (o_flash used) (flash_chip (info (Item 200 (slot_part false 0) false))) 0x10000).
    apply (update_never_touches_running (cfg_of false) false 16 (parts false) true 0x10100
      (fun _ _ => true) (Item 200 (slot_part false 0) false) used st1) with
      (q := Item 200 (slot_part false 0) false) (a := 0x10000).
    + split; [apply parts_ok|]. unfold part_disjoint. repeat constructor; cbn; lia.
    + eexists. vm_compute. reflexivity.
    + reflexivity.
    + eapply steps_call; [apply steps_refl| |exact Hr]. split; done.
    + right. left. reflexivity.
    + left. reflexivity.
    + cbn. lia.
  - exfalso. apply (f_equal (fun o => match o with Some _ => true | None => false end)) in Hr.
    vm_compute in Hr. discriminate.
Defined.
