(* ===== verification/EspTimer.v ===== *)
(** * High-resolution timers ([components/esp_timer/src/esp_timer.c])

    The timers are records in memory, a handle is their address; the armed
    timers of each dispatch method are a list sorted by alarm. The hardware
    alarm of a dispatch method is the value last given to
    [esp_timer_impl_set_alarm_id]. Each operation is one step under the list
    lock; the processing of an alarm is one step per turn of its loop, because
    the lock is released while a callback runs. Profiling is disabled.

    [ESP_TIMER_TASK] is [false] and [ESP_TIMER_ISR] is [true]. *)

From Stdlib Require Import Sorted.
From S2P Require Import Prelude EspErr.

Definition EVENT_ID_DELETE_TIMER : Z := 0xF0DE1E1E.

Record esp_timer := Timer {
  alarm : Z;                 (** [uint64_t] *)
  period : Z;                (** 56 bits *)
  isr_dispatch : bool;       (** [FL_ISR_DISPATCH_METHOD] *)
  skip_unhandled : bool;     (** [FL_SKIP_UNHANDLED_EVENTS] *)
  callback : Z;              (** the union of [callback] and [event_id] *)
  arg : Z;
}.

Record timer_st := TimerSt {
  timers : gmap Z esp_timer;
  s_timers_task : list Z;
  s_timers_isr : list Z;
  timestamp_task : Z;
  timestamp_isr : Z;
  alarm_target : Z;          (** the compare value of the hardware *)
  s_timer_task : bool;       (** the task exists *)
}.

Definition null_timer : esp_timer := Timer 0 0 false false 0 0.

(** The timer behind a handle. *)
Definition tm (st : timer_st) (p : Z) : esp_timer := default null_timer (timers st !! p).

Definition s_timers (d : bool) (st : timer_st) : list Z :=
  if d then s_timers_isr st else s_timers_task st.
Definition timestamp_id (d : bool) (st : timer_st) : Z :=
  if d then timestamp_isr st else timestamp_task st.

Definition set_list (d : bool) (l : list Z) (st : timer_st) : timer_st :=
  TimerSt (timers st) (if d then s_timers_task st else l) (if d then l else s_timers_isr st)
    (timestamp_task st) (timestamp_isr st) (alarm_target st) (s_timer_task st).
Definition put (p : Z) (t : esp_timer) (st : timer_st) : timer_st :=
  TimerSt (<[p := t]> (timers st)) (s_timers_task st) (s_timers_isr st)
    (timestamp_task st) (timestamp_isr st) (alarm_target st) (s_timer_task st).
Definition free (p : Z) (st : timer_st) : timer_st :=
  TimerSt (delete p (timers st)) (s_timers_task st) (s_timers_isr st)
    (timestamp_task st) (timestamp_isr st) (alarm_target st) (s_timer_task st).
Definition set_task (b : bool) (st : timer_st) : timer_st :=
  TimerSt (timers st) (s_timers_task st) (s_timers_isr st)
    (timestamp_task st) (timestamp_isr st) (alarm_target st) b.

(** [timestamp_id[d] = timestamp] *)
Definition set_timestamp (timestamp : Z) (d : bool) (st : timer_st) : timer_st :=
  TimerSt (timers st) (s_timers_task st) (s_timers_isr st)
    (if d then timestamp_task st else timestamp) (if d then timestamp else timestamp_isr st)
    (alarm_target st) (s_timer_task st).

Definition esp_timer_impl_set_alarm_id (timestamp : Z) (d : bool) (st : timer_st) : timer_st :=
  let st := set_timestamp timestamp d st in
  TimerSt (timers st) (s_timers_task st) (s_timers_isr st) (timestamp_task st) (timestamp_isr st)
    (Z.min (timestamp_task st) (timestamp_isr st)) (s_timer_task st).

Definition set_times (a per : Z) (t : esp_timer) : esp_timer :=
  Timer a per (isr_dispatch t) (skip_unhandled t) (callback t) (arg t).

Definition esp_timer_impl_get_min_period_us : Z := 50.

Definition is_initialized (st : timer_st) : bool := s_timer_task st.

Definition timer_armed (t : esp_timer) : bool := 0 <? alarm t.

(** ** The sorted lists *)

(** [LIST_INSERT_BEFORE] the first timer with a later alarm, or at the end. *)
Fixpoint list_insert (al : Z -> Z) (p : Z) (l : list Z) : list Z :=
  match l with
  | [] => [p]
  | it :: l' => if al p <? al it then p :: l else it :: list_insert al p l'
  end.

(** [LIST_REMOVE] of a linked timer. *)
Fixpoint list_remove (p : Z) (l : list Z) : list Z :=
  match l with
  | [] => []
  | it :: l => if it =? p then l else it :: list_remove p l
  end.

Definition is_first (p : Z) (l : list Z) : bool :=
  match l with it :: _ => it =? p | [] => false end.

Definition timer_insert (p : Z) (without_update_alarm : bool) (st : timer_st) : timer_st :=
  let d := isr_dispatch (tm st p) in
  let l := list_insert (fun q => alarm (tm st q)) p (s_timers d st) in
  let st := set_list d l st in
  if negb without_update_alarm && is_first p l
  then esp_timer_impl_set_alarm_id (alarm (tm st p)) d st else st.

Definition timer_remove (p : Z) (st : timer_st) : timer_st :=
  let d := isr_dispatch (tm st p) in
  let first := is_first p (s_timers d st) in
  let l := list_remove p (s_timers d st) in
  let st := set_list d l st in
  let st := put p (set_times 0 0 (tm st p)) st in
  if first then
    esp_timer_impl_set_alarm_id
      (match l with q :: _ => alarm (tm st q) | [] => UINT64_MAX end) d st
  else st.

(** ** Operations *)

Record esp_timer_create_args_t := CreateArgs {
  a_callback : Z;             (** 0 is NULL *)
  a_arg : Z;
  a_dispatch_method : Z;
  a_skip_unhandled_events : bool;
}.

(** [ESP_TIMER_MAX]: the ISR dispatch method exists only when it is configured. *)
Definition ESP_TIMER_MAX (isr_support : bool) : Z := if isr_support then 2 else 1.

(** [calloc] is the new timer's address; [out_handle] is the value written
    through the pointer. *)
Definition esp_timer_create (isr_support : bool) (args : option esp_timer_create_args_t)
    (out_handle : bool) (calloc : option Z) (st : timer_st) : timer_st * esp_err_t * option Z :=
  if negb (is_initialized st) then (st, ESP_ERR_INVALID_STATE, None)
  else match args with
  | None => (st, ESP_ERR_INVALID_ARG, None)
  | Some a =>
      if (a_callback a =? 0) || negb out_handle || (a_dispatch_method a <? 0)
         || (ESP_TIMER_MAX isr_support <=? a_dispatch_method a)
      then (st, ESP_ERR_INVALID_ARG, None)
      else match calloc with
      | None => (st, ESP_ERR_NO_MEM, None)
      | Some result =>
          (put result (Timer 0 0 (negb (a_dispatch_method a =? 0)) (a_skip_unhandled_events a)
                         (a_callback a) (a_arg a)) st, ESP_OK, Some result)
      end
  end.

(** The armed test is made before the list is locked: here it is part of the
    same step. *)
Definition esp_timer_restart (timer : option Z) (timeout_us now : Z) (st : timer_st)
    : timer_st * esp_err_t :=
  match timer with
  | None => (st, ESP_ERR_INVALID_ARG)
  | Some p =>
      if negb (is_initialized st) || negb (timer_armed (tm st p)) then (st, ESP_ERR_INVALID_STATE)
      else
        let per := period (tm st p) in
        let st := timer_remove p st in
        let t :=
          if negb (per =? 0) then
            let new_period := Z.max timeout_us esp_timer_impl_get_min_period_us in
            set_times (u64 (now + new_period)) (wrap 56 new_period) (tm st p)
          else set_times (u64 (now + timeout_us)) 0 (tm st p) in
        (timer_insert p false (put p t st), ESP_OK)
  end.

Definition esp_timer_start_once (timer : option Z) (timeout_us now : Z) (st : timer_st)
    : timer_st * esp_err_t :=
  match timer with
  | None => (st, ESP_ERR_INVALID_ARG)
  | Some p =>
      if negb (is_initialized st) then (st, ESP_ERR_INVALID_STATE)
      else if timer_armed (tm st p) then (st, ESP_ERR_INVALID_STATE)
      else (timer_insert p false (put p (set_times (u64 (now + timeout_us)) 0 (tm st p)) st), ESP_OK)
  end.

Definition esp_timer_start_periodic (timer : option Z) (period_us now : Z) (st : timer_st)
    : timer_st * esp_err_t :=
  match timer with
  | None => (st, ESP_ERR_INVALID_ARG)
  | Some p =>
      if negb (is_initialized st) then (st, ESP_ERR_INVALID_STATE)
      else
        let period_us := Z.max period_us esp_timer_impl_get_min_period_us in
        if timer_armed (tm st p) then (st, ESP_ERR_INVALID_STATE)
        else (timer_insert p false
                (put p (set_times (u64 (now + period_us)) (wrap 56 period_us) (tm st p)) st), ESP_OK)
  end.

Definition esp_timer_stop (timer : option Z) (st : timer_st) : timer_st * esp_err_t :=
  match timer with
  | None => (st, ESP_ERR_INVALID_ARG)
  | Some p =>
      if negb (is_initialized st) then (st, ESP_ERR_INVALID_STATE)
      else if negb (timer_armed (tm st p)) then (st, ESP_ERR_INVALID_STATE)
      else (timer_remove p st, ESP_OK)
  end.

Definition esp_timer_delete (timer : option Z) (now : Z) (st : timer_st) : timer_st * esp_err_t :=
  match timer with
  | None => (st, ESP_ERR_INVALID_ARG)
  | Some p =>
      let t := tm st p in
      if timer_armed t then (st, ESP_ERR_INVALID_STATE)
      else (timer_insert p false
              (put p (Timer (u64 now) 0 false (skip_unhandled t) EVENT_ID_DELETE_TIMER (arg t)) st),
            ESP_OK)
  end.

Definition esp_timer_get_period (timer : option Z) (out : bool) (st : timer_st) : esp_err_t * option Z :=
  match timer with
  | Some p => if out then (ESP_OK, Some (period (tm st p))) else (ESP_ERR_INVALID_ARG, None)
  | None => (ESP_ERR_INVALID_ARG, None)
  end.

Definition esp_timer_get_expiry_time (timer : option Z) (out : bool) (st : timer_st)
    : esp_err_t * option Z :=
  match timer with
  | Some p =>
      if negb out then (ESP_ERR_INVALID_ARG, None)
      else if 0 <? period (tm st p) then (ESP_ERR_NOT_SUPPORTED, None)
      else (ESP_OK, Some (alarm (tm st p)))
  | None => (ESP_ERR_INVALID_ARG, None)
  end.

Definition esp_timer_is_active (timer : option Z) (st : timer_st) : bool :=
  match timer with Some p => timer_armed (tm st p) | None => false end.

(** The dispatch methods the loops visit. *)
Definition dispatch_methods (isr_support : bool) : list bool :=
  if isr_support then [false; true] else [false].

Definition esp_timer_get_next_alarm (isr_support : bool) (st : timer_st) : Z :=
  fold_left (fun next_alarm d =>
    match head (s_timers d st) with
    | Some it => if alarm (tm st it) <? next_alarm then alarm (tm st it) else next_alarm
    | None => next_alarm
    end) (dispatch_methods isr_support) INT64_MAX.

(** The first timer of a list that may wake the CPU up. *)
Fixpoint first_waking (st : timer_st) (l : list Z) : option Z :=
  match l with
  | [] => None
  | it :: l => if negb (skip_unhandled (tm st it)) then Some it else first_waking st l
  end.

Definition esp_timer_get_next_alarm_for_wake_up (isr_support : bool) (st : timer_st) : Z :=
  fold_left (fun next_alarm d =>
    match first_waking st (s_timers d st) with
    | Some it => if alarm (tm st it) <? next_alarm then alarm (tm st it) else next_alarm
    | None => next_alarm
    end) (dispatch_methods isr_support) INT64_MAX.

(** ** Processing an alarm *)

(** One turn of the loop: the loop ends, a deleted timer is freed, or a
    callback is called, with the lock released. *)
Inductive turn :=
| Break
| Freed
| Fired (p cb a : Z).

(** The timer taken from the list before its callback is called. *)
Definition rearm (now : Z) (p : Z) (st : timer_st) : timer_st :=
  let it := tm st p in
  if 0 <? period it then
    let skipped := s32 (u64 (now - alarm it) / period it) in
    let a := if skip_unhandled it && (1 <? skipped) then u64 (now + period it)
             else u64 (alarm it + period it) in
    timer_insert p true (put p (set_times a (period it) it) st)
  else put p (set_times 0 (period it) it) st.

Definition process_turn (d : bool) (now : Z) (st : timer_st) : timer_st * turn :=
  match s_timers d st with
  | [] => (st, Break)
  | it :: rest =>
      if u64 now <? alarm (tm st it) then (st, Break)
      else
        let st := set_list d rest st in
        if callback (tm st it) =? EVENT_ID_DELETE_TIMER then (free it st, Freed)
        else (rearm now it st, Fired it (callback (tm st it)) (arg (tm st it)))
  end.

(** After the loop. *)
Definition process_end (d processed : bool) (st : timer_st) : timer_st :=
  match s_timers d st with
  | it :: _ =>
      if negb d || processed then esp_timer_impl_set_alarm_id (alarm (tm st it)) d st else st
  | [] => if processed then esp_timer_impl_set_alarm_id UINT64_MAX d st else st
  end.

(** [timer_process_alarm]: [clock] gives the time read at each turn and [run]
    is the effect of a callback on the timers. [None]: out of fuel. *)
Fixpoint timer_process_alarm (fuel : nat) (d : bool) (clock : nat -> Z)
    (run : Z -> Z -> timer_st -> timer_st) (processed : bool) (st : timer_st)
    : option (timer_st * bool) :=
  match fuel with
  | O => None
  | S fuel =>
      match process_turn d (clock fuel) st with
      | (st, Break) => Some (process_end d processed st, processed)
      | (st, Freed) => timer_process_alarm fuel d clock run true st
      | (st, Fired _ cb a) => timer_process_alarm fuel d clock run true (run cb a st)
      end
  end.

(** ** Starting and stopping the service *)

Definition init_timer_task (task_created : bool) (st : timer_st) : timer_st * esp_err_t :=
  if is_initialized st then (st, ESP_ERR_INVALID_STATE)
  else if negb task_created then (st, ESP_ERR_NO_MEM)
  else (set_task true st, ESP_OK).

Definition deinit_timer_task (st : timer_st) : timer_st :=
  if s_timer_task st then set_task false st else st.

Definition esp_timer_init (task_created : bool) (impl_init : esp_err_t) (st : timer_st)
    : timer_st * esp_err_t :=
  let '(st, err) := init_timer_task task_created st in
  if is_ok err then
    if negb (is_ok impl_init) then (deinit_timer_task st, impl_init) else (st, impl_init)
  else (st, err).

Definition esp_timer_deinit (isr_support : bool) (st : timer_st) : timer_st * esp_err_t :=
  if negb (is_initialized st) then (st, ESP_ERR_INVALID_STATE)
  else if existsb (fun d => match s_timers d st with [] => false | _ :: _ => true end)
            (dispatch_methods isr_support)
  then (st, ESP_ERR_INVALID_STATE)
  else (deinit_timer_task st, ESP_OK).

(** [esp_timer_impl_try_to_set_next_alarm], run by the interrupt handler. *)
Definition esp_timer_impl_try_to_set_next_alarm (st : timer_st) : timer_st :=
  let now_alarm_idx := negb (timestamp_id false st <? timestamp_id true st) in
  let next_alarm_idx := negb now_alarm_idx in
  if negb (timestamp_id next_alarm_idx st =? UINT64_MAX)
  then esp_timer_impl_set_alarm_id UINT64_MAX now_alarm_idx st
  else set_timestamp UINT64_MAX now_alarm_idx st.

(** ** Lists *)

Section Lists.
  Context (al : Z -> Z).

Definition earlier (p q : Z) : Prop := al p <= al q.

Lemma list_insert_perm p l : list_insert al p l ≡ₚ p :: l.
Proof.
  induction l as [|it l IH]; cbn; [done|]. case_test; [done|]. rewrite IH. apply Permutation_swap.
Qed.

Lemma list_insert_sorted p l : StronglySorted earlier l -> StronglySorted earlier (list_insert al p l).
Proof.
  induction 1 as [|it l Hs IH Hf]; cbn; [repeat constructor|].
  destruct (Z.ltb_spec (al p) (al it)) as [Hlt|Hge].
  - constructor; [by constructor|]. constructor; [unfold earlier; lia|].
    eapply Forall_impl; [exact Hf|]. unfold earlier. intros; lia.
  - constructor; [done|]. rewrite list_insert_perm. constructor; [unfold earlier; lia|done].
Qed.

(** The head of the new list. *)
Lemma list_insert_head p l :
  match list_insert al p l with
  | h :: _ => (h = p /\ (forall it l', l = it :: l' -> al p < al it)) \/
              (exists l', l = h :: l' /\ al h <= al p)
  | [] => False
  end.
Proof.
  destruct l as [|it l]; cbn; [left; split; [done|by intros]|].
  destruct (Z.ltb_spec (al p) (al it)); [left|right; eauto].
  split; [done|]. by intros ? ? [= <- <-].
Qed.
End Lists.

Lemma list_insert_ext al al' p l :
  al p = al' p -> (forall q, In q l -> al q = al' q) -> list_insert al p l = list_insert al' p l.
Proof.
  intros Hp. induction l as [|it l IH]; intros Hl; cbn; [done|].
  rewrite Hp, (Hl it) by (by left). rewrite IH; [done|]. intros q Hq. apply Hl. by right.
Qed.

Lemma list_remove_perm p l : In p l -> l ≡ₚ p :: list_remove p l.
Proof.
  induction l as [|it l IH]; cbn; [done|]. intros Hin.
  destruct (Z.eqb_spec it p) as [-> |Hne]; [done|]. destruct Hin as [|Hin]; [done|].
  rewrite (IH Hin) at 1. apply Permutation_swap.
Qed.

Lemma list_remove_sub p l q : In q (list_remove p l) -> In q l.
Proof. induction l as [|it l IH]; cbn; [done|]. case_test; cbn; tauto. Qed.

Lemma list_remove_sorted {R : Z -> Z -> Prop} p l : StronglySorted R l -> StronglySorted R (list_remove p l).
Proof.
  induction 1 as [|it l Hs IH Hf]; cbn; [constructor|]. case_test; [done|].
  constructor; [done|]. rewrite List.Forall_forall in *. intros q Hq. by eapply Hf, list_remove_sub.
Qed.

Lemma list_remove_out p l : NoDup l -> ~ In p (list_remove p l).
Proof.
  induction 1 as [|it l Hn Hd IH]; cbn; [tauto|]. rewrite list_elem_of_In in Hn.
  destruct (Z.eqb_spec it p) as [Heq|Hne]; [by rewrite <- Heq|]. intros [He|Hin]; [congruence|tauto].
Qed.

Lemma sorted_ext (al al' : Z -> Z) l :
  (forall q, In q l -> al q = al' q) -> StronglySorted (earlier al) l -> StronglySorted (earlier al') l.
Proof.
  intros Heq. induction 1 as [|it l Hs IH Hf]; [constructor|]. constructor.
  - apply IH. intros q Hq. apply Heq. by right.
  - rewrite List.Forall_forall in *. intros q Hq. specialize (Hf q Hq). unfold earlier in *.
    rewrite <- (Heq it), <- (Heq q); [done|by right|by left].
Qed.

(** ** The invariant *)

(** [x] is a timer that is being moved: out of every list. *)
Record timers_inv (x : option Z) (st : timer_st) : Prop := {
  i_dom : forall d p, In p (s_timers d st) -> is_Some (timers st !! p);
  i_nodup : forall d, NoDup (s_timers d st);
  i_disp : forall d p, In p (s_timers d st) -> isr_dispatch (tm st p) = d;
  i_armed : forall p, Some p <> x -> 0 < alarm (tm st p) ->
            In p (s_timers (isr_dispatch (tm st p)) st);
  i_listed : forall d p, In p (s_timers d st) -> 0 < alarm (tm st p) < 2 ^ 64;
  i_out : forall p d, x = Some p -> ~ In p (s_timers d st);
  i_period : forall p, 0 <= period (tm st p) < 2 ^ 56;
  i_sorted : forall d, StronglySorted (earlier (fun p => alarm (tm st p))) (s_timers d st);
  i_reg : forall d it l, s_timers d st = it :: l -> timestamp_id d st <= alarm (tm st it);
  i_target : alarm_target st = Z.min (timestamp_task st) (timestamp_isr st);
}.

Lemma tm_put_same p t st : tm (put p t st) p = t.
Proof. unfold tm, put. cbn. by rewrite lookup_insert_eq. Qed.
Lemma tm_put_other p t st q : q <> p -> tm (put p t st) q = tm st q.
Proof. intros Hne. unfold tm, put. cbn. by rewrite lookup_insert_ne. Qed.

Lemma s_timers_set_same d l st : s_timers d (set_list d l st) = l.
Proof. by destruct d. Qed.
Lemma s_timers_set_other d l st : s_timers (negb d) (set_list d l st) = s_timers (negb d) st.
Proof. by destruct d. Qed.
Lemma timestamp_set_same a d st : timestamp_id d (esp_timer_impl_set_alarm_id a d st) = a.
Proof. by destruct d. Qed.
Lemma timestamp_set_other a d st :
  timestamp_id (negb d) (esp_timer_impl_set_alarm_id a d st) = timestamp_id (negb d) st.
Proof. by destruct d. Qed.
Lemma s_timers_alarm a d d' st : s_timers d' (esp_timer_impl_set_alarm_id a d st) = s_timers d' st.
Proof. by destruct d, d'. Qed.

Lemma two_ways (d d' : bool) : d' = d \/ d' = negb d.
Proof. destruct d, d'; auto. Qed.

(** A timer outside the lists can be changed at will. *)
Lemma inv_put x p t st :
  timers_inv x st -> (forall d, ~ In p (s_timers d st)) -> (x = None \/ x = Some p) ->
  0 <= period t < 2 ^ 56 -> timers_inv (Some p) (put p t st).
Proof.
  intros Hinv Hout Hx Hper.
  assert (Hne : forall d q, In q (s_timers d st) -> q <> p) by (intros d q Hq ->; by eapply Hout).
  assert (Htm : forall d q, In q (s_timers d st) -> tm (put p t st) q = tm st q).
  { intros d q Hq. by apply tm_put_other, (Hne d). }
  split.
  - intros d q Hq. change (timers (put p t st)) with (<[p := t]> (timers st)).
    rewrite lookup_insert_ne by (symmetry; by apply (Hne d)). exact (i_dom _ _ Hinv d q Hq).
  - exact (i_nodup _ _ Hinv).
  - intros d q Hq. rewrite (Htm d q Hq). exact (i_disp _ _ Hinv d q Hq).
  - intros q Hq Ha. assert (q <> p) by congruence. rewrite tm_put_other in * by done.
    apply (i_armed _ _ Hinv); [|done]. destruct Hx; congruence.
  - intros d q Hq. rewrite (Htm d q Hq). exact (i_listed _ _ Hinv d q Hq).
  - intros q d [= <-]. exact (Hout d).
  - intros q. destruct (decide (q = p)) as [-> |]; [by rewrite tm_put_same|].
    rewrite tm_put_other by done. apply (i_period _ _ Hinv).
  - intros d. eapply sorted_ext; [|apply (i_sorted _ _ Hinv d)]. intros q Hq. by rewrite (Htm d q Hq).
  - intros d it l Hl. change (s_timers d (put p t st)) with (s_timers d st) in Hl.
    rewrite (Htm d it) by (rewrite Hl; by left). exact (i_reg _ _ Hinv d it l Hl).
  - exact (i_target _ _ Hinv).
Qed.

(** The moved timer is back when it is unarmed. *)
Lemma inv_unarmed p st : timers_inv (Some p) st -> alarm (tm st p) <= 0 -> timers_inv None st.
Proof.
  intros [] Ha. split; try done. intros q _ Hq. apply i_armed0; [|done]. intros [= ->]. lia.
Qed.

Lemma inv_set_alarm x st a d :
  timers_inv x st -> (forall it l, s_timers d st = it :: l -> a <= alarm (tm st it)) ->
  timers_inv x (esp_timer_impl_set_alarm_id a d st).
Proof.
  intros Hinv Ha. split.
  - intros d' p. rewrite s_timers_alarm. apply (i_dom _ _ Hinv).
  - intros d'. rewrite s_timers_alarm. apply (i_nodup _ _ Hinv).
  - intros d' p. rewrite s_timers_alarm. apply (i_disp _ _ Hinv).
  - intros p Hp. rewrite s_timers_alarm. by apply (i_armed _ _ Hinv).
  - intros d' p. rewrite s_timers_alarm. apply (i_listed _ _ Hinv).
  - intros p d' Hp. rewrite s_timers_alarm. by apply (i_out _ _ Hinv).
  - apply (i_period _ _ Hinv).
  - intros d'. rewrite s_timers_alarm. apply (i_sorted _ _ Hinv).
  - intros d' it l. rewrite s_timers_alarm. intros Hl.
    change (tm (esp_timer_impl_set_alarm_id a d st) it) with (tm st it).
    destruct (two_ways d d') as [-> | ->].
    + rewrite timestamp_set_same. by eapply Ha.
    + rewrite timestamp_set_other. by eapply (i_reg _ _ Hinv).
  - done.
Qed.

(** Taking a timer out of its list. *)
Lemma inv_take p st :
  timers_inv None st -> 0 < alarm (tm st p) ->
  let d := isr_dispatch (tm st p) in
  timers_inv (Some p) (set_list d (list_remove p (s_timers d st)) st).
Proof.
  intros Hinv Ha. cbn zeta. set (d := isr_dispatch (tm st p)).
  pose proof (i_armed _ _ Hinv p ltac:(done) Ha) as Hin. fold d in Hin.
  set (l := list_remove p (s_timers d st)).
  assert (Hsub : forall d' q, In q (s_timers d' (set_list d l st)) -> In q (s_timers d' st) /\ q <> p).
  { intros d' q. destruct (two_ways d d') as [-> | ->].
    - rewrite s_timers_set_same. intros Hq. split; [by eapply list_remove_sub|].
      intros ->. revert Hq. apply list_remove_out, (i_nodup _ _ Hinv).
    - rewrite s_timers_set_other. intros Hq. split; [done|]. intros ->.
      pose proof (i_disp _ _ Hinv _ _ Hq) as Hd. fold d in Hd. by destruct d. }
  assert (Hlist : forall d', d' <> d -> s_timers d' (set_list d l st) = s_timers d' st).
  { intros d' Hd. destruct (two_ways d d') as [-> | ->]; [done|apply s_timers_set_other]. }
  split.
  - intros d' q Hq. by apply (i_dom _ _ Hinv d'), Hsub.
  - intros d'. destruct (two_ways d d') as [-> | ->].
    + rewrite s_timers_set_same. pose proof (i_nodup _ _ Hinv d) as Hn.
      rewrite (list_remove_perm p _ Hin) in Hn. by inversion Hn.
    + rewrite s_timers_set_other. apply (i_nodup _ _ Hinv).
  - intros d' q Hq. apply (i_disp _ _ Hinv), Hsub, Hq.
  - intros q Hq Haq. assert (q <> p) by congruence.
    pose proof (i_armed _ _ Hinv q ltac:(done) Haq) as Hqin.
    change (tm (set_list d l st) q) with (tm st q).
    destruct (two_ways d (isr_dispatch (tm st q))) as [Hd|Hd]; rewrite Hd in *.
    + rewrite s_timers_set_same. apply list_elem_of_In in Hqin. apply list_elem_of_In.
      rewrite (list_remove_perm p _ Hin) in Hqin. apply elem_of_cons in Hqin as [|]; [done|done].
    + by rewrite s_timers_set_other.
  - intros d' q Hq. by apply (i_listed _ _ Hinv d'), Hsub.
  - intros q d' [= <-] Hq. by destruct (Hsub d' p Hq).
  - apply (i_period _ _ Hinv).
  - intros d'. destruct (two_ways d d') as [-> | ->].
    + rewrite s_timers_set_same. apply list_remove_sorted, (i_sorted _ _ Hinv).
    + rewrite s_timers_set_other. apply (i_sorted _ _ Hinv).
  - intros d' it l'. destruct (two_ways d d') as [-> | ->].
    + rewrite s_timers_set_same. intros Hl.
      change (timestamp_id d (set_list d l st)) with (timestamp_id d st).
      change (tm (set_list d l st) it) with (tm st it).
      destruct (s_timers d st) as [|h rest] eqn:Hst; [done|].
      pose proof (i_reg _ _ Hinv d h rest Hst) as Hreg.
      pose proof (i_sorted _ _ Hinv d) as Hs. rewrite Hst in Hs. inversion Hs as [|? ? _ Hf]; subst.
      assert (Hit : In it (h :: rest)) by (apply (list_remove_sub p); fold l; rewrite Hl; by left).
      destruct Hit as [<-|Hit]; [done|]. rewrite List.Forall_forall in Hf.
      specialize (Hf it Hit). unfold earlier in Hf. lia.
    + rewrite s_timers_set_other. apply (i_reg _ _ Hinv).
  - apply (i_target _ _ Hinv).
Qed.

(** Putting the moved timer into its list. *)
Lemma inv_insert p wua st :
  timers_inv (Some p) st -> 0 < alarm (tm st p) < 2 ^ 64 -> is_Some (timers st !! p) ->
  (wua = true -> timestamp_id (isr_dispatch (tm st p)) st <= alarm (tm st p)) ->
  timers_inv None (timer_insert p wua st).
Proof.
  intros Hinv Ha Hp Hreg. unfold timer_insert. set (d := isr_dispatch (tm st p)) in *.
  set (al := fun q => alarm (tm st q)). set (l := list_insert al p (s_timers d st)).
  pose proof (list_insert_perm al p (s_timers d st)) as Hperm. fold l in Hperm.
  pose proof (list_insert_head al p (s_timers d st)) as Hhead. fold l in Hhead.
  assert (Hsub : forall d' q, In q (s_timers d' (set_list d l st)) ->
    (q = p /\ d' = d) \/ In q (s_timers d' st)).
  { intros d' q. destruct (two_ways d d') as [-> | ->].
    - rewrite s_timers_set_same, <- list_elem_of_In, Hperm, elem_of_cons, list_elem_of_In. tauto.
    - rewrite s_timers_set_other. auto. }
  (* everything but the alarm register *)
  assert (Hmain : forall st2, timers st2 = timers st -> (forall d', s_timers d' st2 = s_timers d' (set_list d l st)) ->
    (forall d' it l', s_timers d' st2 = it :: l' -> timestamp_id d' st2 <= alarm (tm st2 it)) ->
    alarm_target st2 = Z.min (timestamp_task st2) (timestamp_isr st2) -> timers_inv None st2).
  { intros st2 Htm Hls Hr Ht. assert (Htm2 : forall q, tm st2 q = tm st q) by (intros; unfold tm; by rewrite Htm).
    split; try done.
    - intros d' q. rewrite Hls, Htm. intros [[-> _]|Hq]%Hsub; [done|by apply (i_dom _ _ Hinv d')].
    - intros d'. rewrite Hls. destruct (two_ways d d') as [-> | ->].
      + rewrite s_timers_set_same, Hperm. constructor; [|apply (i_nodup _ _ Hinv)].
        rewrite list_elem_of_In. by apply (i_out _ _ Hinv).
      + rewrite s_timers_set_other. apply (i_nodup _ _ Hinv).
    - intros d' q. rewrite Hls, Htm2. intros [[-> ->]|Hq]%Hsub; [done|by apply (i_disp _ _ Hinv)].
    - intros q _. rewrite Hls, Htm2. intros Hq. destruct (decide (q = p)) as [-> |Hne].
      + fold d. rewrite s_timers_set_same, <- list_elem_of_In, Hperm. by left.
      + pose proof (i_armed _ _ Hinv q ltac:(congruence) Hq) as Hin.
        destruct (two_ways d (isr_dispatch (tm st q))) as [Hd|Hd]; rewrite Hd in *.
        * rewrite s_timers_set_same, <- list_elem_of_In, Hperm. right. by apply list_elem_of_In.
        * by rewrite s_timers_set_other.
    - intros d' q. rewrite Hls, Htm2. intros [[-> _]|Hq]%Hsub; [done|by apply (i_listed _ _ Hinv d')].
    - intros q. rewrite Htm2. apply (i_period _ _ Hinv).
    - intros d'. rewrite Hls. apply (sorted_ext al); [intros q _; unfold al; by rewrite Htm2|].
      destruct (two_ways d d') as [-> | ->].
      + rewrite s_timers_set_same. apply list_insert_sorted, (i_sorted _ _ Hinv).
      + rewrite s_timers_set_other. apply (i_sorted _ _ Hinv). }
  assert (Hother : forall it l', s_timers (negb d) (set_list d l st) = it :: l' ->
    timestamp_id (negb d) st <= alarm (tm st it)).
  { intros it l'. rewrite s_timers_set_other. apply (i_reg _ _ Hinv). }
  destruct (negb wua && is_first p l) eqn:Hset.
  - apply Hmain; [done|by intros; rewrite s_timers_alarm| |done].
    intros d' it l' Hl. rewrite s_timers_alarm in Hl.
    change (tm (esp_timer_impl_set_alarm_id (alarm (tm (set_list d l st) p)) d (set_list d l st)) it) with (tm st it).
    destruct (two_ways d d') as [-> | ->].
    + rewrite timestamp_set_same. rewrite s_timers_set_same in Hl. rewrite Hl in Hset. cbn in Hset.
      apply andb_true_iff in Hset as [_ Heq%Z.eqb_eq]. subst it. reflexivity.
    + rewrite timestamp_set_other. by apply (Hother it l').
  - apply Hmain; [done|done| |apply (i_target _ _ Hinv)].
    intros d' it l' Hl. change (tm (set_list d l st) it) with (tm st it).
    destruct (two_ways d d') as [-> | ->]; [|by apply (Hother it l')].
    change (timestamp_id d (set_list d l st)) with (timestamp_id d st).
    rewrite s_timers_set_same in Hl. rewrite Hl in Hhead, Hset.
    destruct Hhead as [[-> _]|(l0 & Hl0 & _)]; [|by apply (i_reg _ _ Hinv d it l0)].
    cbn in Hset. rewrite Z.eqb_refl, andb_true_r in Hset. apply negb_false_iff in Hset. auto.
Qed.

Lemma unarmed_out x p st :
  timers_inv x st -> timer_armed (tm st p) = false -> forall d, ~ In p (s_timers d st).
Proof.
  intros Hinv Ha d Hin. pose proof (i_listed _ _ Hinv d p Hin).
  unfold timer_armed in Ha. apply Z.ltb_ge in Ha. lia.
Qed.

Lemma period_wrap x : 0 <= wrap 56 x < 2 ^ 56.
Proof. apply wrap_range. lia. Qed.

(** Arming a timer that is not in a list. *)
Lemma inv_arm p t st :
  timers_inv None st -> timer_armed (tm st p) = false -> is_Some (timers st !! p) ->
  0 < alarm t < 2 ^ 64 -> 0 <= period t < 2 ^ 56 ->
  timers_inv None (timer_insert p false (put p t st)).
Proof.
  intros Hinv Hun Hp Ha Hper. apply inv_insert; rewrite ?tm_put_same; try done.
  - apply (inv_put None); auto. by eapply unarmed_out.
  - cbn. rewrite lookup_insert_eq. by eexists.
Qed.

Lemma inv_remove p st :
  timers_inv None st -> timer_armed (tm st p) = true -> timers_inv (Some p) (timer_remove p st).
Proof.
  intros Hinv Ha%Z.ltb_lt. unfold timer_remove. set (d := isr_dispatch (tm st p)).
  set (l := list_remove p (s_timers d st)).
  pose proof (inv_take p st Hinv Ha) as H1. cbn zeta in H1. fold d in H1. fold l in H1.
  assert (H2 : timers_inv (Some p) (put p (set_times 0 0 (tm (set_list d l st) p)) (set_list d l st))).
  { eapply inv_put; [exact H1| |by right|cbn; lia]. intros d'. by apply (i_out _ _ H1). }
  destruct (is_first p (s_timers d st)); [|done]. apply inv_set_alarm; [done|].
  intros it l' Hl. change (s_timers d (put p (set_times 0 0 (tm (set_list d l st) p)) (set_list d l st)))
    with (s_timers d (set_list d l st)) in Hl. rewrite s_timers_set_same in Hl. by rewrite Hl.
Qed.

Lemma removed_alarm p st : alarm (tm (timer_remove p st) p) = 0.
Proof.
  unfold timer_remove. set (l := list_remove p _).
  destruct (is_first _ _); unfold esp_timer_impl_set_alarm_id, set_timestamp, tm, put; cbn;
    by rewrite lookup_insert_eq.
Qed.

(** Re-arming in one turn of the processing loop. *)
Lemma inv_rearm p st now old :
  timers_inv (Some p) st -> is_Some (timers st !! p) -> alarm (tm st p) = old ->
  0 < old -> old <= now -> now < 2 ^ 63 ->
  timestamp_id (isr_dispatch (tm st p)) st <= old ->
  timers_inv None (rearm now p st).
Proof.
  intros Hinv Hp Hal Hold Hle Hnow Hreg. unfold rearm.
  pose proof (i_period _ _ Hinv p) as Hper.
  destruct (Z.ltb_spec 0 (period (tm st p))) as [Hpos|Hz].
  - set (a := if _ && _ then _ else _).
    assert (Ha : old <= a < 2 ^ 64 /\ 0 < a).
    { unfold a. rewrite Hal. rewrite (wrap_small 64 (now + _)), (wrap_small 64 (old + _))
        by (unfold in_range; lia). case_test; lia. }
    apply inv_insert; rewrite ?tm_put_same; cbn [set_times alarm period isr_dispatch]; [|lia| |].
    + apply (inv_put (Some p)); [done| |by right|done]. intros d. by apply (i_out _ _ Hinv).
    + cbn. rewrite lookup_insert_eq. by eexists.
    + intros _. change (timestamp_id (isr_dispatch (tm st p)) st <= a). lia.
  - apply (inv_unarmed p); [|by rewrite tm_put_same].
    apply (inv_put (Some p)); [done| |by right|done]. intros d. by apply (i_out _ _ Hinv).
Qed.

Lemma inv_turn d now st :
  timers_inv None st -> 0 < now < 2 ^ 63 -> timers_inv None (fst (process_turn d now st)).
Proof.
  intros Hinv Hnow. unfold process_turn. destruct (s_timers d st) as [|it rest] eqn:Hl; [done|].
  rewrite (wrap_small 64 now) by (unfold in_range; lia).
  destruct (Z.ltb_spec now (alarm (tm st it))) as [|Hle]; [done|].
  assert (Hin : In it (s_timers d st)) by (rewrite Hl; by left).
  pose proof (i_listed _ _ Hinv d it Hin) as Hal.
  pose proof (i_disp _ _ Hinv d it Hin) as Hd.
  pose proof (inv_take it st Hinv ltac:(lia)) as H1. cbn zeta in H1. rewrite Hd, Hl in H1.
  cbn [list_remove] in H1. rewrite Z.eqb_refl in H1.
  pose proof (i_reg _ _ Hinv d it rest Hl) as Hreg.
  change (tm (set_list d rest st) it) with (tm st it).
  destruct (callback (tm st it) =? EVENT_ID_DELETE_TIMER); cbn [fst].
  - assert (Htm : forall q, q <> it -> tm (free it (set_list d rest st)) q = tm st q).
    { intros q Hq. unfold tm, free. cbn. by rewrite lookup_delete_ne. }
    assert (Hne : forall d' q, In q (s_timers d' (set_list d rest st)) -> q <> it).
    { intros d' q Hq ->. by eapply (i_out _ _ H1). }
    split.
    + intros d' q Hq. change (s_timers d' (free it (set_list d rest st))) with (s_timers d' (set_list d rest st)) in Hq.
      unfold free. cbn. rewrite lookup_delete_ne by (symmetry; by apply (Hne d')).
      exact (i_dom _ _ H1 d' q Hq).
    + exact (i_nodup _ _ H1).
    + intros d' q Hq. rewrite Htm by (by apply (Hne d')). exact (i_disp _ _ H1 d' q Hq).
    + intros q _ Hq. assert (q <> it).
      { intros ->. revert Hq. unfold tm, free. cbn. rewrite lookup_delete_eq. cbn. lia. }
      rewrite Htm in * by done. exact (i_armed _ _ H1 q ltac:(congruence) Hq).
    + intros d' q Hq. rewrite Htm by (by apply (Hne d')). exact (i_listed _ _ H1 d' q Hq).
    + done.
    + intros q. destruct (decide (q = it)) as [-> |].
      * unfold tm, free. cbn. rewrite lookup_delete_eq. cbn. lia.
      * rewrite Htm by done. exact (i_period _ _ H1 q).
    + intros d'. eapply sorted_ext; [|exact (i_sorted _ _ H1 d')]. intros q Hq.
      rewrite Htm by (by apply (Hne d')). done.
    + intros d' h l' Hh. change (s_timers d' (free it (set_list d rest st))) with (s_timers d' (set_list d rest st)) in Hh.
      rewrite Htm by (apply (Hne d'); rewrite Hh; by left). exact (i_reg _ _ H1 d' h l' Hh).
    + exact (i_target _ _ H1).
  - apply (inv_rearm it (set_list d rest st) now (alarm (tm st it))); try done; try lia.
    + exact (i_dom _ _ Hinv d it Hin).
    + change (tm (set_list d rest st) it) with (tm st it). rewrite Hd. exact Hreg.
Qed.

Lemma inv_end d processed st : timers_inv None st -> timers_inv None (process_end d processed st).
Proof.
  intros Hinv. unfold process_end. destruct (s_timers d st) as [|it l] eqn:Hl.
  - destruct processed; [|done]. apply inv_set_alarm; [done|]. rewrite Hl. done.
  - destruct (_ || _); [|done]. apply inv_set_alarm; [done|]. rewrite Hl. by intros ? ? [= <- <-].
Qed.

(** ** Every interleaving *)

(** What can happen to the timers: the calls of any task, and the turns and
    ends of the processing of either list. Times are microseconds since boot,
    a timeout added to them fits 64 bits, and handles are live. *)
Inductive timer_step : timer_st -> timer_st -> Prop :=
| step_create isr a out p st st' err h :
    timers st !! p = None ->
    esp_timer_create isr a out (Some p) st = (st', err, h) -> timer_step st st'
| step_start_once p timeout now st :
    is_Some (timers st !! p) -> 0 < now < 2 ^ 63 -> 0 <= timeout -> now + timeout < 2 ^ 64 ->
    timer_step st (fst (esp_timer_start_once (Some p) timeout now st))
| step_start_periodic p per now st :
    is_Some (timers st !! p) -> 0 < now < 2 ^ 63 -> 0 <= per -> now + Z.max per 50 < 2 ^ 64 ->
    timer_step st (fst (esp_timer_start_periodic (Some p) per now st))
| step_restart p timeout now st :
    is_Some (timers st !! p) -> 0 < now < 2 ^ 63 -> 0 <= timeout -> now + Z.max timeout 50 < 2 ^ 64 ->
    timer_step st (fst (esp_timer_restart (Some p) timeout now st))
| step_stop p st :
    is_Some (timers st !! p) -> timer_step st (fst (esp_timer_stop (Some p) st))
| step_delete p now st :
    is_Some (timers st !! p) -> 0 < now < 2 ^ 63 ->
    timer_step st (fst (esp_timer_delete (Some p) now st))
| step_turn d now st :
    0 < now < 2 ^ 63 -> timer_step st (fst (process_turn d now st))
| step_end d processed st : timer_step st (process_end d processed st).

Lemma step_inv st st' : timers_inv None st -> timer_step st st' -> timers_inv None st'.
Proof.
  intros Hinv Hstep. destruct Hstep as [isr a out p st st' err h Hfresh Hc
    |p timeout now st Hp Hnow Ht Hov|p per now st Hp Hnow Ht Hov|p timeout now st Hp Hnow Ht Hov
    |p st Hp|p now st Hp Hnow|d now st Hnow|d processed st].
  - revert Hc. unfold esp_timer_create. destruct (negb _); [by intros [= <- _ _]|].
    destruct a as [a|]; [|by intros [= <- _ _]]. destruct (_ || _); intros [= <- _ _]; [done|].
    apply (inv_unarmed p); [|rewrite tm_put_same; cbn; lia].
    apply (inv_put None); auto; [|cbn; lia]. intros d Hd.
    destruct (i_dom _ _ Hinv d p Hd) as [t Htm]. by rewrite Htm in Hfresh.
  - cbn [esp_timer_start_once fst]. destruct (negb _); [done|].
    destruct (timer_armed (tm st p)) eqn:Ha; [done|]. apply inv_arm;
      [done|done|done|cbn; rewrite wrap_small; unfold in_range; lia|cbn; lia].
  - cbn [esp_timer_start_periodic]. destruct (negb _); [done|].
    destruct (timer_armed (tm st p)) eqn:Ha; [done|]. apply inv_arm;
      [done|done|done| |apply period_wrap]. cbn.
    unfold esp_timer_impl_get_min_period_us. rewrite wrap_small; unfold in_range; lia.
  - cbn [esp_timer_restart]. destruct (is_initialized st); cbn [negb orb]; [|done].
    destruct (timer_armed (tm st p)) eqn:Ha; cbn [negb]; [|done]. cbn [fst].
    pose proof (inv_remove p st Hinv Ha) as H1. pose proof (removed_alarm p st) as Hz.
    apply inv_arm.
    + apply (inv_unarmed p); [done|]. lia.
    + unfold timer_armed. by rewrite Hz.
    + unfold timer_remove. destruct (is_first _ _); cbn; rewrite lookup_insert_eq; by eexists.
    + unfold esp_timer_impl_get_min_period_us. case_test; cbn; rewrite wrap_small; unfold in_range; lia.
    + case_test; cbn; [apply period_wrap|lia].
  - cbn [esp_timer_stop]. destruct (negb _); [done|].
    destruct (timer_armed (tm st p)) eqn:Ha; cbn [negb]; [|done]. cbn [fst].
    apply (inv_unarmed p); [by apply inv_remove|]. rewrite removed_alarm. lia.
  - cbn [esp_timer_delete]. destruct (timer_armed (tm st p)) eqn:Ha; [done|].
    apply inv_arm; [done|done|done|cbn; rewrite wrap_small; unfold in_range; lia|cbn; lia].
  - by apply inv_turn.
  - by apply inv_end.
Qed.

Inductive timer_steps : timer_st -> timer_st -> Prop :=
| tsteps_refl st : timer_steps st st
| tsteps_step st st1 st2 : timer_steps st st1 -> timer_step st1 st2 -> timer_steps st st2.

(** No timers, after [esp_timer_init]. *)
Definition timer_st0 : timer_st := TimerSt ∅ [] [] UINT64_MAX UINT64_MAX UINT64_MAX true.

Lemma inv_st0 : timers_inv None timer_st0.
Proof.
  assert (Hl : forall d, s_timers d timer_st0 = []) by (by intros []).
  split.
  - intros d p. rewrite Hl. intros [].
  - intros d. rewrite Hl. constructor.
  - intros d p. rewrite Hl. intros [].
  - intros p _. unfold tm, timer_st0. cbn. rewrite lookup_empty. cbn. lia.
  - intros d p. rewrite Hl. intros [].
  - done.
  - intros p. unfold tm, timer_st0. cbn. rewrite lookup_empty. cbn. lia.
  - intros d. rewrite Hl. constructor.
  - intros d it l. by rewrite Hl.
  - done.
Qed.

Lemma steps_inv st st' : timer_steps st st' -> timers_inv None st -> timers_inv None st'.
Proof. induction 1 as [|st st1 st2 _ IH Hs]; intros Hinv; [done|]. eapply step_inv; [by apply IH|done]. Qed.

Lemma reachable_inv st : timer_steps timer_st0 st -> timers_inv None st.
Proof. intros Hst. eapply steps_inv; [exact Hst|apply inv_st0]. Qed.


(** A callback is never called early and never before an earlier timer: in
    any reachable state a turn of the processing calls the callback of a timer
    only when its alarm time has been reached, and no timer of the list has an
    earlier alarm; the turn that ends the loop finds every alarm in the
    future. *)
Theorem callbacks_in_time st d now :
  timer_steps timer_st0 st -> 0 < now < 2 ^ 63 ->
  match snd (process_turn d now st) with
  | Fired p cb a =>
      In p (s_timers d st) /\ cb = callback (tm st p) /\ a = arg (tm st p) /\
      cb <> EVENT_ID_DELETE_TIMER /\ alarm (tm st p) <= now /\
      forall q, In q (s_timers d st) -> alarm (tm st p) <= alarm (tm st q)
  | Freed => True
  | Break => forall q, In q (s_timers d st) -> now < alarm (tm st q)
  end.
Proof.
  intros Hst Hnow. pose proof (reachable_inv st Hst) as Hinv.
  pose proof (i_sorted _ _ Hinv d) as Hs. unfold process_turn.
  destruct (s_timers d st) as [|it rest] eqn:Hl; [by intros q []|].
  inversion Hs as [|? ? _ Hf]; subst. rewrite List.Forall_forall in Hf.
  assert (Hmin : forall q, In q (it :: rest) -> alarm (tm st it) <= alarm (tm st q)).
  { intros q [<-|Hq]; [lia|by apply Hf]. }
  rewrite (wrap_small 64 now) by (unfold in_range; lia).
  destruct (Z.ltb_spec now (alarm (tm st it))) as [Hlt|Hle]; cbn [snd].
  { intros q Hq. specialize (Hmin q Hq). lia. }
  change (tm (set_list d rest st) it) with (tm st it).
  destruct (Z.eqb_spec (callback (tm st it)) EVENT_ID_DELETE_TIMER); [exact I|].
  cbn [snd]. split; [by left|]. auto 10.
Qed.

(** The loops that look for the smallest alarm among one candidate per list. *)
Lemma fold_min_spec (al : Z -> Z) (c : bool -> option Z) ds init :
  let r := fold_left (fun acc d =>
             match c d with
             | Some it => if al it <? acc then al it else acc
             | None => acc
             end) ds init in
  r <= init /\ (forall d it, In d ds -> c d = Some it -> r <= al it) /\
  (r = init \/ exists d it, In d ds /\ c d = Some it /\ al it = r).
Proof.
  cbn zeta. revert init. induction ds as [|d ds IH]; intros init; cbn [fold_left].
  { split; [lia|]. split; [by intros d it []|auto]. }
  set (init' := match c d with Some it => if al it <? init then al it else init | None => init end).
  destruct (IH init') as (Hle & Hall & Hex).
  assert (Hi : init' <= init /\ (forall it, c d = Some it -> init' <= al it) /\
               (init' = init \/ exists it, c d = Some it /\ al it = init')).
  { unfold init'. destruct (c d) as [it|] eqn:Hc; [|split; [lia|split; [done|auto]]].
    destruct (Z.ltb_spec (al it) init).
    - split; [lia|]. split; [by intros ? [= ->]|]. right. eauto.
    - split; [lia|]. split; [by intros ? [= ->]|auto]. }
  destruct Hi as (Hi1 & Hi2 & Hi3). split; [lia|]. split.
  - intros d' it [<-|Hd] Hc; [specialize (Hi2 it Hc); lia|by eapply Hall].
  - destruct Hex as [Heq|(d' & it & Hd & Hc & Ha)].
    + rewrite Heq. destruct Hi3 as [->|(it & Hc & Ha)]; [auto|]. right. exists d, it.
      split; [by left|auto].
    + right. exists d', it. split; [by right|auto].
Qed.

Lemma head_earliest d st it :
  timers_inv None st -> head (s_timers d st) = Some it ->
  In it (s_timers d st) /\ forall p, In p (s_timers d st) -> alarm (tm st it) <= alarm (tm st p).
Proof.
  intros Hinv. pose proof (i_sorted _ _ Hinv d) as Hs.
  destruct (s_timers d st) as [|h l]; [done|]. intros [= <-]. split; [by left|].
  inversion Hs as [|? ? _ Hf]; subst. rewrite List.Forall_forall in Hf.
  intros p [<-|Hp]; [lia|by apply Hf].
Qed.

Lemma first_waking_spec st l :
  StronglySorted (earlier (fun p => alarm (tm st p))) l ->
  match first_waking st l with
  | Some it => In it l /\ skip_unhandled (tm st it) = false /\
      forall p, In p l -> skip_unhandled (tm st p) = false -> alarm (tm st it) <= alarm (tm st p)
  | None => forall p, In p l -> skip_unhandled (tm st p) = true
  end.
Proof.
  induction 1 as [|it l Hs IH Hf]; cbn [first_waking]; [by intros p []|].
  rewrite List.Forall_forall in Hf.
  destruct (skip_unhandled (tm st it)) eqn:Hsk; cbn [negb].
  - destruct (first_waking st l) as [q|].
    + destruct IH as (Hq & Hw & Hm). split; [by right|]. split; [done|].
      intros p [<-|Hp] Hp'; [congruence|by apply Hm].
    + intros p [<-|Hp]; [done|by apply IH].
  - split; [by left|]. split; [done|]. intros p [<-|Hp] _; [lia|by apply Hf].
Qed.

(** [esp_timer_get_next_alarm] is the earliest alarm of all armed timers,
    and [esp_timer_get_next_alarm_for_wake_up] that of the armed timers that
    may wake the CPU up ([INT64_MAX] when there is none). *)
Theorem next_alarm_is_earliest st :
  timer_steps timer_st0 st ->
  let r := esp_timer_get_next_alarm true st in
  let w := esp_timer_get_next_alarm_for_wake_up true st in
  let listed p := In p (s_timers false st) \/ In p (s_timers true st) in
  (forall p, listed p -> r <= alarm (tm st p)) /\
  (r = INT64_MAX \/ exists p, listed p /\ alarm (tm st p) = r) /\
  (forall p, listed p -> skip_unhandled (tm st p) = false -> w <= alarm (tm st p)) /\
  (w = INT64_MAX \/ exists p, listed p /\ skip_unhandled (tm st p) = false /\ alarm (tm st p) = w).
Proof.
  intros Hst. cbn zeta. pose proof (reachable_inv st Hst) as Hinv.
  unfold esp_timer_get_next_alarm, esp_timer_get_next_alarm_for_wake_up.
  set (ds := dispatch_methods true).
  destruct (fold_min_spec (fun p => alarm (tm st p)) (fun d => head (s_timers d st)) ds INT64_MAX)
    as (_ & Hr & Hrex).
  destruct (fold_min_spec (fun p => alarm (tm st p)) (fun d => first_waking st (s_timers d st)) ds INT64_MAX)
    as (_ & Hw & Hwex).
  assert (Hds : forall d, In d ds) by (intros []; cbn; auto).
  assert (Hlisted : forall p, In p (s_timers false st) \/ In p (s_timers true st) <->
    exists d, In p (s_timers d st)).
  { intros p. split; [intros [|]; eauto|intros [[] ?]; auto]. }
  split; [|split; [|split]].
  - intros p [d Hp]%Hlisted. destruct (head (s_timers d st)) as [it|] eqn:Hh.
    + etransitivity; [by eapply (Hr d it)|]. by apply (head_earliest d st it Hinv Hh).
    + by destruct (s_timers d st).
  - destruct Hrex as [|(d & it & _ & Hh & Ha)]; [auto|]. right. exists it. split; [|done].
    apply Hlisted. exists d. by apply (head_earliest d st it Hinv Hh).
  - intros p [d Hp]%Hlisted Hsk. pose proof (first_waking_spec st _ (i_sorted _ _ Hinv d)) as Hf.
    destruct (first_waking st (s_timers d st)) as [it|] eqn:Hh.
    + etransitivity; [by eapply (Hw d it)|]. by apply Hf.
    + rewrite (Hf p Hp) in Hsk. discriminate.
  - destruct Hwex as [|(d & it & _ & Hh & Ha)]; [auto|]. right. exists it.
    pose proof (first_waking_spec st _ (i_sorted _ _ Hinv d)) as Hf. rewrite Hh in Hf.
    destruct Hf as (Hin & Hsk & _). split; [|done]. apply Hlisted. eauto.
Qed.

(** ** Processing to the end *)

(** The alarm of a timer once every event up to [now] was handled: a one-shot
    timer is unarmed, a periodic one has the first multiple of its period after
    [now], or one period from [now] when it skips unhandled events and more than
    one is late. *)
Definition alarm_after (now : Z) (t : esp_timer) : Z :=
  if now <? alarm t then alarm t
  else if 0 <? period t then
    let late := (now - alarm t) / period t in
    if skip_unhandled t && (1 <? late) then now + period t
    else alarm t + period t * (late + 1)
  else 0.

(** The turns that a timer still needs. *)
Definition turns_left (now : Z) (t : esp_timer) : Z :=
  if now <? alarm t then 0
  else if 0 <? period t then (now - alarm t) / period t + 1 else 1.

Fixpoint total (f : Z -> Z) (l : list Z) : Z :=
  match l with [] => 0 | p :: l => f p + total f l end.

Lemma total_perm f l l' : l ≡ₚ l' -> total f l = total f l'.
Proof. induction 1; cbn in *; lia. Qed.

Lemma total_ext f g l : (forall p, In p l -> f p = g p) -> total f l = total g l.
Proof.
  induction l as [|p l IH]; intros Heq; cbn; [done|]. rewrite (Heq p) by (by left).
  rewrite IH; [done|]. intros q Hq. apply Heq. by right.
Qed.

Lemma total_nonneg f l : (forall p, In p l -> 0 <= f p) -> 0 <= total f l.
Proof.
  induction l as [|p l IH]; intros Hf; cbn; [lia|].
  pose proof (Hf p ltac:(by left)). specialize (IH ltac:(intros; apply Hf; by right)). lia.
Qed.

(** The timers of a list that processing handles: not deleted, and the 32-bit
    count of late events of those that skip does not overflow. *)
Definition regular (now : Z) (t : esp_timer) : Prop :=
  callback t <> EVENT_ID_DELETE_TIMER /\ 0 < alarm t /\ 0 <= period t < 2 ^ 56 /\
  (skip_unhandled t = true -> 0 < period t -> alarm t <= now -> (now - alarm t) / period t < 2 ^ 31).

(** The new alarm of a late timer. *)
Definition next_time (now : Z) (t : esp_timer) : Z :=
  if 0 <? period t then
    if skip_unhandled t && (1 <? s32 (u64 (now - alarm t) / period t)) then u64 (now + period t)
    else u64 (alarm t + period t)
  else 0.

Lemma next_time_late now t :
  regular now t -> now < 2 ^ 63 -> alarm t <= now ->
  let t' := set_times (next_time now t) (period t) t in
  alarm_after now t' = alarm_after now t /\ turns_left now t' < turns_left now t + (if 0 <? period t then 0 else 1) /\
  (0 < period t -> regular now t') /\ 0 <= turns_left now t'.
Proof.
  intros (Hcb & Hal & Hper & Hskip) Hnow Hle. cbn zeta.
  unfold next_time, alarm_after, turns_left, regular.
  cbn [set_times alarm period skip_unhandled callback].
  destruct (Z.ltb_spec now (alarm t)); [lia|].
  destruct (Z.ltb_spec 0 (period t)) as [Hp|Hz].
  2:{ destruct (Z.ltb_spec now 0); lia. }
  rewrite (wrap_small 64 (now - alarm t)), (wrap_small 64 (now + period t)),
    (wrap_small 64 (alarm t + period t)) by (unfold in_range; lia).
  set (late := (now - alarm t) / period t) in *.
  assert (Hl0 : 0 <= late) by (apply Z.div_pos; lia).
  assert (Hs : skip_unhandled t = true -> s32 late = late).
  { intros Hsk. specialize (Hskip Hsk Hp Hle). apply s32_small. lia. }
  assert (Hshift : (now - (alarm t + period t)) / period t = late - 1).
  { replace (now - (alarm t + period t)) with (now - alarm t + (-1) * period t) by lia.
    rewrite Z.div_add by lia. fold late. lia. }
  pose proof (Z.div_mod (now - alarm t) (period t) ltac:(lia)) as Hdm. fold late in Hdm.
  pose proof (Z.mod_pos_bound (now - alarm t) (period t) Hp) as Hmb.
  destruct (skip_unhandled t) eqn:Hsk; cbn [andb].
  - rewrite (Hs eq_refl). specialize (Hskip eq_refl Hp Hle).
    destruct (Z.ltb_spec 1 late) as [Hgt|Hgt].
    + destruct (Z.ltb_spec now (now + period t)); [|lia]. repeat split; try lia; try done.
    + destruct (Z.ltb_spec now (alarm t + period t)) as [Hf|Hf].
      * assert (late = 0) by nia. repeat split; try lia; try done.
      * rewrite Hshift. destruct (Z.ltb_spec 1 (late - 1)); [lia|]. repeat split; try lia; try done.
  - destruct (Z.ltb_spec now (alarm t + period t)) as [Hf|Hf].
    + assert (late = 0) by nia. repeat split; try lia; try done.
    + rewrite Hshift. repeat split; try lia; try done.
Qed.

(** What one turn that fires does. *)
Lemma turn_fires d now st it rest :
  timers_inv None st -> 0 < now < 2 ^ 63 -> s_timers d st = it :: rest ->
  alarm (tm st it) <= now -> callback (tm st it) <> EVENT_ID_DELETE_TIMER ->
  exists st1, process_turn d now st = (st1, Fired it (callback (tm st it)) (arg (tm st it))) /\
    tm st1 it = set_times (next_time now (tm st it)) (period (tm st it)) (tm st it) /\
    (forall q, q <> it -> tm st1 q = tm st q) /\
    (0 < period (tm st it) -> s_timers d st1 ≡ₚ it :: rest) /\
    (period (tm st it) <= 0 -> s_timers d st1 = rest).
Proof.
  intros Hinv Hnow Hl Hle Hcb. unfold process_turn. rewrite Hl.
  rewrite (wrap_small 64 now) by (unfold in_range; lia).
  destruct (Z.ltb_spec now (alarm (tm st it))); [lia|].
  change (tm (set_list d rest st) it) with (tm st it).
  apply Z.eqb_neq in Hcb. rewrite Hcb. eexists. split; [reflexivity|].
  assert (Hd : isr_dispatch (tm st it) = d) by (apply (i_disp _ _ Hinv); rewrite Hl; by left).
  unfold rearm, next_time. change (tm (set_list d rest st) it) with (tm st it).
  destruct (Z.ltb_spec 0 (period (tm st it))) as [Hp|Hz].
  - set (st2 := put it _ _). unfold timer_insert. cbn [negb andb].
    split; [apply tm_put_same|]. split; [intros q Hq; exact (tm_put_other it _ (set_list d rest st) q Hq)|].
    split; [intros _|lia]. unfold st2. rewrite tm_put_same. cbn [set_times isr_dispatch]. rewrite Hd.
    rewrite s_timers_set_same. rewrite list_insert_perm.
    change (s_timers d (put it _ (set_list d rest st))) with (s_timers d (set_list d rest st)).
    by rewrite s_timers_set_same.
  - split; [by rewrite tm_put_same|]. split; [intros q Hq; by rewrite tm_put_other|].
    split; [lia|]. intros _. change (s_timers d (put it _ (set_list d rest st))) with (s_timers d (set_list d rest st)).
    by rewrite s_timers_set_same.
Qed.

Lemma process_end_tm d b st p : tm (process_end d b st) p = tm st p.
Proof. unfold process_end. destruct (s_timers d st); [by destruct b|]. by destruct (_ || _). Qed.

Lemma process_to_end d now (m : nat) st processed :
  timers_inv None st -> 0 < now < 2 ^ 63 ->
  (forall p, In p (s_timers d st) -> regular now (tm st p)) ->
  total (fun p => turns_left now (tm st p)) (s_timers d st) <= m ->
  exists st' b, (forall fuel, (m < fuel)%nat ->
      timer_process_alarm fuel d (fun _ => now) (fun _ _ s => s) processed st = Some (st', b)) /\
    (forall p, In p (s_timers d st) -> alarm (tm st' p) = alarm_after now (tm st p)) /\
    (forall p, ~ In p (s_timers d st) -> tm st' p = tm st p).
Proof.
  revert st processed. induction m as [|m IH]; intros st processed Hinv Hnow Hreg Hm.
  all: destruct (s_timers d st) as [|it rest] eqn:Hl;
    [exists (process_end d processed st), processed; split;
      [intros [|fuel] Hf; [lia|]; cbn [timer_process_alarm]; unfold process_turn; by rewrite Hl
      |split; [by intros p []|intros p _; apply process_end_tm]]|].
  all: destruct (Z_lt_le_dec now (alarm (tm st it))) as [Hlt|Hle].
  1, 3: exists (process_end d processed st), processed; split;
    [intros [|fuel] Hf; [lia|]; cbn [timer_process_alarm]; unfold process_turn; rewrite Hl;
     rewrite (wrap_small 64 now) by (unfold in_range; lia);
     by rewrite (proj2 (Z.ltb_lt _ _) Hlt)
    |split; [|intros p _; apply process_end_tm]];
    intros p Hp; rewrite process_end_tm;
    pose proof (i_sorted _ _ Hinv d) as Hs; rewrite Hl in Hs; inversion Hs as [|? ? _ Hf]; subst;
    rewrite List.Forall_forall in Hf; unfold alarm_after;
    (destruct (Z.ltb_spec now (alarm (tm st p))); [done|]);
    destruct Hp as [<-|Hp]; [lia|specialize (Hf p Hp); unfold earlier in Hf; lia].
  all: assert (Hturns : 0 < turns_left now (tm st it) /\
      0 <= total (fun p => turns_left now (tm st p)) rest);
    [split; [unfold turns_left; rewrite (proj2 (Z.ltb_ge _ _) Hle);
        destruct (Z.ltb_spec 0 (period (tm st it))); [|lia];
        pose proof (Z.div_pos (now - alarm (tm st it)) (period (tm st it)) ltac:(lia) ltac:(lia)); lia
      |apply total_nonneg; intros p _; unfold turns_left; repeat case_test; to_prop; try lia;
        pose proof (Z.div_pos (now - alarm (tm st p)) (period (tm st p)) ltac:(lia) ltac:(lia)); lia]
    |cbn [total] in Hm].
  { lia. }
  pose proof (Hreg it ltac:(by left)) as Hit. pose proof Hit as (Hcb & _ & _).
  destruct (turn_fires d now st it rest Hinv Hnow Hl Hle Hcb) as (st1 & Ht & Htm & Hoth & Hper & Hone).
  destruct (next_time_late now (tm st it) Hit ltac:(lia) Hle) as (Hafter & Hless & Hreg1 & Hnn).
  pose proof (inv_turn d now st Hinv Hnow) as Hinv1. rewrite Ht in Hinv1. cbn [fst] in Hinv1.
  assert (Hnin : ~ In it rest).
  { pose proof (i_nodup _ _ Hinv d) as Hn. rewrite Hl in Hn. inversion Hn as [|? ? Hx _]; subst.
    by rewrite list_elem_of_In in Hx. }
  assert (Hrest : forall q, In q rest -> tm st1 q = tm st q) by (intros q Hq; apply Hoth; by intros ->).
  assert (Hin1 : forall p, In p (s_timers d st1) <-> (p = it /\ 0 < period (tm st it)) \/ In p rest).
  { intros p. destruct (Z_lt_le_dec 0 (period (tm st it))) as [Hp|Hp].
    - rewrite <- list_elem_of_In, (Hper Hp), elem_of_cons, list_elem_of_In. tauto.
    - rewrite (Hone Hp). split; [auto|]. intros [[_ ?]|]; [lia|done]. }
  destruct (IH st1 true Hinv1 Hnow) as (st' & b & Hrun & Hall & Hnot).
  { intros p [[-> Hp]|Hp]%Hin1; [rewrite Htm; by apply Hreg1|].
    rewrite Hrest by done. apply Hreg. by right. }
  { destruct (Z_lt_le_dec 0 (period (tm st it))) as [Hp|Hp].
    - rewrite (total_perm _ _ _ (Hper Hp)). cbn [total].
      rewrite Htm, (proj2 (Z.ltb_lt _ _) Hp) in *.
      rewrite (total_ext (fun p => turns_left now (tm st1 p)) (fun p => turns_left now (tm st p)) rest); [lia|]. intros q Hq. by rewrite Hrest.
    - rewrite (Hone Hp).
      rewrite (total_ext (fun p => turns_left now (tm st1 p)) (fun p => turns_left now (tm st p)) rest);
        [lia|]. intros q Hq. by rewrite Hrest. }
  exists st', b. split; [|split].
  - intros [|fuel] Hf; [lia|]. cbn [timer_process_alarm]. rewrite Ht. apply Hrun. lia.
  - intros p [<-|Hp].
    + destruct (Z_lt_le_dec 0 (period (tm st it))) as [Hpp|Hpp].
      * rewrite Hall by (apply Hin1; auto). by rewrite Htm.
      * rewrite Hnot by (rewrite (Hone Hpp); done). rewrite Htm. cbn [set_times alarm].
        unfold next_time, alarm_after. rewrite (proj2 (Z.ltb_ge _ _) Hpp), (proj2 (Z.ltb_ge _ _) Hle). done.
    + rewrite Hall by (apply Hin1; auto). by rewrite Hrest.
  - intros p Hp. rewrite Hnot, Hoth; [done| |].
    + intros ->. apply Hp. by left.
    + intros [[-> _]|Hq]%Hin1; apply Hp; [by left|by right].
Qed.

(** Processing an alarm terminates and handles everything that is due. In a
    reachable state, at a fixed time and with callbacks that do not touch the
    timers, [timer_process_alarm] ends, within one turn per late event and with
    enough fuel, and leaves every timer of its list with the alarm
    [alarm_after]: later than [now], or none for a one-shot timer that fired;
    timers of the other list are untouched. *)
Theorem process_alarm_handles_all st d now :
  timer_steps timer_st0 st -> 0 < now < 2 ^ 63 ->
  (forall p, In p (s_timers d st) -> regular now (tm st p)) ->
  exists fuel0 st' b, (forall fuel, (fuel0 < fuel)%nat ->
      timer_process_alarm fuel d (fun _ => now) (fun _ _ s => s) false st = Some (st', b)) /\
    (forall p, In p (s_timers d st) -> alarm (tm st' p) = alarm_after now (tm st p) /\
       (now < alarm_after now (tm st p) \/ (period (tm st p) = 0 /\ timer_armed (tm st' p) = false))) /\
    (forall p, ~ In p (s_timers d st) -> tm st' p = tm st p).
Proof.
  intros Hst Hnow Hreg. pose proof (reachable_inv st Hst) as Hinv.
  set (m := total (fun p => turns_left now (tm st p)) (s_timers d st)).
  destruct (process_to_end d now (Z.to_nat m) st false Hinv Hnow Hreg ltac:(fold m; lia))
    as (st' & b & Hrun & Hall & Hnot).
  exists (Z.to_nat m), st', b. split; [done|]. split; [|done]. intros p Hp. rewrite (Hall p Hp).
  split; [done|]. destruct (Hreg p Hp) as (_ & Hal & Hper & _).
  unfold timer_armed. rewrite (Hall p Hp). unfold alarm_after.
  destruct (Z.ltb_spec now (alarm (tm st p))) as [|Hle]; [by left|].
  destruct (Z.ltb_spec 0 (period (tm st p))) as [Hp0|]; [left|right; split; [lia|done]].
  pose proof (Z.div_mod (now - alarm (tm st p)) (period (tm st p)) ltac:(lia)).
  pose proof (Z.mod_pos_bound (now - alarm (tm st p)) (period (tm st p)) Hp0).
  case_test; lia.
Qed.

(** ** A concrete run *)

Module TimerExample.
Definition mk (p : Z) (skip : bool) (st : timer_st) : timer_st :=
  fst (fst (esp_timer_create true (Some (CreateArgs (1000 + p) p 0 skip)) true (Some p) st)).
(** Timer 1 is periodic and skips late events, timer 2 is one-shot. *)
Definition created : timer_st := mk 2 false (mk 1 true timer_st0).
Definition started : timer_st :=
  fst (esp_timer_start_once (Some 2) 50 1000 (fst (esp_timer_start_periodic (Some 1) 100 1000 created))).

Lemma mk_step p skip st : timers st !! p = None -> timer_step st (mk p skip st).
Proof.
  intros Hp. unfold mk. destruct (esp_timer_create _ _ _ _ _) as [[st' err] h] eqn:Hc.
  by eapply step_create.
Qed.

Lemma reachable : timer_steps timer_st0 started.
Proof.
  eapply tsteps_step; [eapply tsteps_step; [eapply tsteps_step; [eapply tsteps_step; [apply tsteps_refl|]|]|]|].
  - by apply (mk_step 1 true).
  - by apply (mk_step 2 false).
  - apply (step_start_periodic 1 100 1000); [eexists; reflexivity|lia..].
  - apply (step_start_once 2 50 1000); [eexists; reflexivity|lia..].
Qed.
End TimerExample.
Import TimerExample.


Lemma callbacks_in_time_witness :
  snd (process_turn false 1060 started) = Fired 2 1002 2 /\ alarm (tm started 2) <= 1060.
Proof.
  split; [reflexivity|].
  pose proof (callbacks_in_time started false 1060 reachable ltac:(lia)) as Hw.
  change (snd (process_turn false 1060 started)) with (Fired 2 1002 2) in Hw. apply Hw.
Defined.

Lemma next_alarm_is_earliest_witness :
  esp_timer_get_next_alarm true started = 1050 /\ esp_timer_get_next_alarm true started <= 1100.
Proof.
  split; [reflexivity|].
  apply (proj1 (next_alarm_is_earliest started reachable) 1). left. right. by left.
Defined.

Lemma process_alarm_handles_all_witness :
  exists fuel st' b,
    timer_process_alarm fuel false (fun _ => 1350) (fun _ _ s => s) false started = Some (st', b) /\
    alarm (tm st' 1) = 1450 /\ alarm (tm st' 2) = 0.
Proof.
  destruct (process_alarm_handles_all started false 1350 reachable ltac:(lia))
    as (fuel0 & st' & b & Hrun & Hall & _).
  { assert (Hl : s_timers false started = [2; 1]) by reflexivity. rewrite Hl.
    intros p [<-|[<-|[]]]; (split; [discriminate|]); (split; [reflexivity|]);
      (split; [split; [discriminate|reflexivity]|]); intros; vm_compute; reflexivity. }
  exists (S fuel0), st', b. split; [apply Hrun; lia|].
  destruct (Hall 1 ltac:(right; by left)) as [-> _]. destruct (Hall 2 ltac:(by left)) as [-> _].
  split; reflexivity.
Defined.
