(* ===== verification/LogCache.v ===== *)
(** * Log levels and their cache ([components/log/log.c])

    The level of a tag is kept in a list of tags compared as strings, in front
    of which a cache of [TAG_CACHE_SIZE] entries compares the tags' addresses.
    A full cache is a binary min-heap on the generation of the last use.

    A tag is the address of a constant string, [text] gives its characters. *)

From stdpp Require Import sorting.
From S2P Require Import Prelude.

Definition TAG_CACHE_SIZE : nat := 31.
Definition MAX_GENERATION : Z := 2 ^ 29 - 1.

Record cached_tag_entry_t := Cached {
  tag : Z;
  level : Z;            (** 3 bits *)
  generation : Z;       (** 29 bits *)
}.

#[export] Instance cached_inhabited : Inhabited cached_tag_entry_t := populate (Cached 0 0 0).

Record log_st := LogSt {
  esp_log_default_level : Z;
  s_log_tags : list (string * Z);              (** from the head *)
  s_log_cache : list cached_tag_entry_t;       (** the array *)
  s_log_cache_entry_count : nat;
  s_log_cache_max_generation : Z;
}.

Definition set_cache (c : list cached_tag_entry_t) (st : log_st) : log_st :=
  LogSt (esp_log_default_level st) (s_log_tags st) c (s_log_cache_entry_count st)
    (s_log_cache_max_generation st).
Definition set_max_generation (g : Z) (st : log_st) : log_st :=
  LogSt (esp_log_default_level st) (s_log_tags st) (s_log_cache st) (s_log_cache_entry_count st) g.
Definition set_count (n : nat) (st : log_st) : log_st :=
  LogSt (esp_log_default_level st) (s_log_tags st) (s_log_cache st) n (s_log_cache_max_generation st).
Definition set_tags (l : list (string * Z)) (st : log_st) : log_st :=
  LogSt (esp_log_default_level st) l (s_log_cache st) (s_log_cache_entry_count st)
    (s_log_cache_max_generation st).
Definition set_default (d : Z) (st : log_st) : log_st :=
  LogSt d (s_log_tags st) (s_log_cache st) (s_log_cache_entry_count st)
    (s_log_cache_max_generation st).

(** Stores into the bit fields. *)
Definition entry (t l g : Z) : cached_tag_entry_t := Cached t (wrap 3 l) (wrap 29 g).
Definition set_level (l : Z) (e : cached_tag_entry_t) : cached_tag_entry_t :=
  Cached (tag e) (wrap 3 l) (generation e).
Definition set_generation (g : Z) (e : cached_tag_entry_t) : cached_tag_entry_t :=
  Cached (tag e) (level e) (wrap 29 g).

(** ** The heap *)

Definition heap_swap (i j : nat) (c : list cached_tag_entry_t) : list cached_tag_entry_t :=
  <[j := c !!! i]> (<[i := c !!! j]> c).

(** One unit of fuel per turn of the loop. *)
Fixpoint heap_bubble_down (fuel index : nat) (c : list cached_tag_entry_t) : list cached_tag_entry_t :=
  match fuel with
  | O => c
  | S fuel =>
      if (index <? TAG_CACHE_SIZE / 2)%nat then
        let left_index := (index * 2 + 1)%nat in
        let right_index := (left_index + 1)%nat in
        let next := if generation (c !!! left_index) <? generation (c !!! right_index)
                    then left_index else right_index in
        heap_bubble_down fuel next (heap_swap index next c)
      else c
  end.

(** The index at least doubles: five turns leave the heap. *)
Definition BUBBLE_FUEL : nat := 5.

Definition fix_cache_generation_overflow (st : log_st) : log_st :=
  let c := imap (fun i e => if (i <? s_log_cache_entry_count st)%nat
                            then set_generation (Z.of_nat i) e else e) (s_log_cache st) in
  set_max_generation (Z.of_nat (s_log_cache_entry_count st)) (set_cache c st).

Definition check_overflow (st : log_st) : log_st :=
  if s_log_cache_max_generation st =? MAX_GENERATION then fix_cache_generation_overflow st else st.

(** ** Lookup *)

(** The index of the first entry, among those in use, that passes a test. *)
Fixpoint find_index (p : cached_tag_entry_t -> bool) (n i : nat) (c : list cached_tag_entry_t)
    : option nat :=
  match n with
  | O => None
  | S n => if p (c !!! i) then Some i else find_index p n (S i) c
  end.

Definition get_cached_log_level (t : Z) (st : log_st) : log_st * option Z :=
  match find_index (fun e => tag e =? t) (s_log_cache_entry_count st) 0 (s_log_cache st) with
  | None => (st, None)
  | Some i =>
      let lv := level (s_log_cache st !!! i) in
      if (s_log_cache_entry_count st =? TAG_CACHE_SIZE)%nat then
        let g := s_log_cache_max_generation st in
        let c := <[i := set_generation g (s_log_cache st !!! i)]> (s_log_cache st) in
        let st := set_max_generation (u32 (g + 1)) st in
        let st := set_cache (heap_bubble_down BUBBLE_FUEL i c) st in
        (check_overflow st, Some lv)
      else (st, Some lv)
  end.

Fixpoint get_uncached_log_level (s : string) (l : list (string * Z)) : option Z :=
  match l with
  | [] => None
  | (s', lv) :: l => if decide (s = s') then Some lv else get_uncached_log_level s l
  end.

Definition add_to_cache (t lv : Z) (st : log_st) : log_st :=
  let g := s_log_cache_max_generation st in
  let st := set_max_generation (u32 (g + 1)) st in
  let n := s_log_cache_entry_count st in
  let st :=
    if (n <? TAG_CACHE_SIZE)%nat
    then set_count (S n) (set_cache (<[n := entry t lv g]> (s_log_cache st)) st)
    else set_cache (heap_bubble_down BUBBLE_FUEL 0 (<[0%nat := entry t lv g]> (s_log_cache st))) st in
  check_overflow st.

Section Log.
  Context (text : Z -> string).

(** [s_log_level_get_and_unlock] and [esp_log_level_get] *)
Definition esp_log_level_get (t : Z) (st : log_st) : log_st * Z :=
  match get_cached_log_level t st with
  | (st, Some lv) => (st, lv)
  | (st, None) =>
      let lv := match get_uncached_log_level (text t) (s_log_tags st) with
                | Some lv => lv
                | None => esp_log_default_level st
                end in
      (add_to_cache t lv st, lv)
  end.

Definition clear_log_level_list (st : log_st) : log_st :=
  set_max_generation 0 (set_count 0 (set_tags [] st)).

(** The list with the level of the first match replaced. *)
Fixpoint update_tag (s : string) (lv : Z) (l : list (string * Z)) : option (list (string * Z)) :=
  match l with
  | [] => None
  | (s', old) :: l =>
      if decide (s' = s) then Some ((s', u8 lv) :: l)
      else match update_tag s lv l with Some l => Some ((s', old) :: l) | None => None end
  end.

(** The level is stored in an [uint8_t]. *)
Definition esp_log_level_set (t lv : Z) (malloc : bool) (st : log_st) : log_st :=
  if decide (text t = "*"%string) then clear_log_level_list (set_default lv st)
  else
    match (match update_tag (text t) lv (s_log_tags st) with
           | Some l => Some l
           | None => if malloc then Some ((text t, u8 lv) :: s_log_tags st) else None
           end) with
    | None => st
    | Some l =>
        let st := set_tags l st in
        match find_index (fun e => if decide (text (tag e) = text t) then true else false)
                (s_log_cache_entry_count st) 0 (s_log_cache st) with
        | Some i => set_cache (<[i := set_level lv (s_log_cache st !!! i)]> (s_log_cache st)) st
        | None => st
        end
    end.

Definition should_output (level_for_message level_for_tag : Z) : bool :=
  level_for_message <=? level_for_tag.

(** Whether [esp_log_writev] calls the print function; [lock] is
    [esp_log_impl_lock_timeout()]. *)
Definition esp_log_writev (lock : bool) (lv t : Z) (st : log_st) : log_st * bool :=
  if negb lock then (st, false)
  else let '(st, level_for_tag) := esp_log_level_get t st in (st, should_output lv level_for_tag).

End Log.

(** ** The heap *)

Definition child (p q : nat) : Prop := q = (2 * p + 1)%nat \/ q = (2 * p + 2)%nat.

Definition gen (c : list cached_tag_entry_t) (i : nat) : Z := generation (c !!! i).

(** What the code asserts of the [n] first entries with [LOG_BUILTIN_CHECKS]. *)
Definition heap_checks (n : nat) (c : list cached_tag_entry_t) : Prop :=
  forall i, (0 < i < n)%nat -> gen c ((i - 1) / 2) < gen c i.

Definition heap_ok (n : nat) (c : list cached_tag_entry_t) : Prop :=
  forall p q, child p q -> (q < n)%nat -> gen c p < gen c q.

Lemma child_parent i : (0 < i)%nat -> child ((i - 1) / 2) i.
Proof.
  intros Hi. unfold child. pose proof (Nat.div_mod_eq (i - 1) 2).
  pose proof (Nat.mod_upper_bound (i - 1) 2). lia.
Qed.

Lemma heap_ok_checks n c : heap_ok n c -> heap_checks n c.
Proof. intros H i Hi. apply H; [apply child_parent|]; lia. Qed.

Lemma heap_swap_length i j c : length (heap_swap i j c) = length c.
Proof. unfold heap_swap. by rewrite !length_insert. Qed.

Lemma heap_swap_lookup i j c k :
  (i < length c)%nat -> (j < length c)%nat ->
  heap_swap i j c !!! k = if decide (k = j) then c !!! i else if decide (k = i) then c !!! j else c !!! k.
Proof.
  intros Hi Hj. unfold heap_swap. case_decide as H1; [subst k|].
  { rewrite list_lookup_total_insert_eq; [done|by rewrite length_insert]. }
  rewrite list_lookup_total_insert_ne by done. case_decide as H2; [subst k|].
  { by rewrite list_lookup_total_insert_eq. }
  by rewrite list_lookup_total_insert_ne.
Qed.

Lemma heap_swap_perm i j c :
  (i < length c)%nat -> (j < length c)%nat -> heap_swap i j c ≡ₚ c.
Proof.
  intros Hi Hj. unfold heap_swap. apply Permutation_insert_swap; by apply list_lookup_lookup_total_lt.
Qed.

(** A heap but for the entry at [idx], whose generation is the largest. *)
Record bubbling (idx : nat) (c : list cached_tag_entry_t) : Prop := Bubbling {
  bub_len : length c = TAG_CACHE_SIZE;
  bub_inj : forall i j, (i < TAG_CACHE_SIZE)%nat -> (j < TAG_CACHE_SIZE)%nat -> gen c i = gen c j -> i = j;
  bub_max : forall i, (i < TAG_CACHE_SIZE)%nat -> i <> idx -> gen c i < gen c idx;
  bub_heap : forall p q, child p q -> (q < TAG_CACHE_SIZE)%nat -> p <> idx -> gen c p < gen c q;
  bub_skip : forall p q, child p idx -> child idx q -> (q < TAG_CACHE_SIZE)%nat -> gen c p < gen c q;
}.

Lemma gen_swap i j c k :
  (i < length c)%nat -> (j < length c)%nat ->
  gen (heap_swap i j c) k = if decide (k = j) then gen c i else if decide (k = i) then gen c j else gen c k.
Proof. intros Hi Hj. unfold gen. rewrite heap_swap_lookup by done. by repeat case_decide. Qed.

Lemma bubbling_swap idx next c :
  bubbling idx c -> child idx next -> (next < TAG_CACHE_SIZE)%nat ->
  (forall q, child idx q -> (q < TAG_CACHE_SIZE)%nat -> q <> next -> gen c next < gen c q) ->
  bubbling next (heap_swap idx next c).
Proof.
  intros [Hl Hi Hm Hh Hs] Hc Hn Hleast.
  assert (idx < length c /\ next < length c)%nat as [Hx Hy] by (rewrite Hl; unfold child in Hc; lia).
  assert (Hg : forall k, gen (heap_swap idx next c) k
    = if decide (k = next) then gen c idx else if decide (k = idx) then gen c next else gen c k)
    by (intros k; by apply gen_swap).
  rewrite Hl in Hx, Hy. split.
  - by rewrite heap_swap_length.
  - intros i j Hi1 Hj1. rewrite !Hg.
    repeat case_decide; subst; intros E; try done; try (apply Hi in E; [|lia..]); congruence.
  - intros i Hi1 Hne. rewrite !Hg. rewrite (decide_True (P := next = next)) by done.
    rewrite decide_False by done. case_decide; subst; [|apply Hm; done].
    apply Hm; [done|]. unfold child in Hc. lia.
  - intros p q Hpq Hq Hp. rewrite !Hg. rewrite (decide_False (P := p = next)) by done.
    case_decide as E1.
    + subst p. case_decide as E2; [|rewrite decide_False by (unfold child in Hpq; lia); by apply Hleast].
      subst q. apply Hm; [done|]. unfold child in Hc. lia.
    + case_decide as E2; [subst q; unfold child in Hpq, Hc; lia|].
      case_decide as E3; [subst q; by apply (Hs p next)|by apply Hh].
  - intros p q Hp Hq Hlt. assert (p = idx) as -> by (unfold child in *; lia).
    rewrite !Hg, (decide_False (P := idx = next)), (decide_True (P := idx = idx)) by (unfold child in *; lia).
    rewrite !decide_False by (unfold child in *; lia).
    apply Hh; unfold child in *; lia.
Qed.

Lemma heap_bubble_down_perm fuel : forall idx c,
  length c = TAG_CACHE_SIZE -> heap_bubble_down fuel idx c ≡ₚ c.
Proof.
  induction fuel as [|fuel IH]; intros idx c Hl; cbn [heap_bubble_down]; [done|].
  change (TAG_CACHE_SIZE / 2)%nat with 15%nat.
  destruct (Nat.ltb_spec idx 15) as [Hi|Hi]; [|done]. cbv zeta.
  assert (TAG_CACHE_SIZE = 31%nat) as Hsz by done.
  rewrite IH by (by rewrite heap_swap_length).
  apply heap_swap_perm; [lia|]. case_match; lia.
Qed.

(** The index at least doubles at each turn. *)
Lemma heap_bubble_down_heap fuel : forall idx c,
  bubbling idx c -> (16 <= (idx + 1) * 2 ^ fuel)%nat ->
  heap_ok TAG_CACHE_SIZE (heap_bubble_down fuel idx c).
Proof.
  assert (TAG_CACHE_SIZE = 31%nat) as Hsz by done.
  assert (Hend : forall idx c, bubbling idx c -> (15 <= idx)%nat -> heap_ok TAG_CACHE_SIZE c).
  { intros idx c Hb Hi p q Hpq Hq. apply (bub_heap _ _ Hb); [done..|]. unfold child in Hpq. lia. }
  induction fuel as [|fuel IH]; intros idx c Hb Hf; cbn [heap_bubble_down].
  { apply (Hend idx); [done|]. cbn in Hf. lia. }
  change (TAG_CACHE_SIZE / 2)%nat with 15%nat.
  destruct (Nat.ltb_spec idx 15) as [Hi|Hi]; [|by apply (Hend idx)]. cbv zeta.
  pose proof (Nat.pow_succ_r' 2 fuel) as Hp.
  assert (Hk : forall next, child idx next -> (16 <= (next + 1) * 2 ^ fuel)%nat).
  { intros next Hc. rewrite Hp in Hf. unfold child in Hc.
    apply Nat.le_trans with ((idx + 1) * 2 * 2 ^ fuel)%nat; [lia|]. apply Nat.mul_le_mono_r. lia. }
  fold (gen c (idx * 2 + 1)) (gen c (idx * 2 + 1 + 1)).
  destruct (Z.ltb_spec (gen c (idx * 2 + 1)) (gen c (idx * 2 + 1 + 1))) as [Hlt|Hge].
  - assert (child idx (idx * 2 + 1)) as Hc by (unfold child; lia).
    apply IH; [|by apply Hk]. apply bubbling_swap; [done..|lia|].
    intros q Hq Hq31 Hne. assert (q = idx * 2 + 1 + 1)%nat as -> by (unfold child in Hq; lia). done.
  - assert (child idx (idx * 2 + 1 + 1)) as Hc by (unfold child; lia).
    apply IH; [|by apply Hk]. apply bubbling_swap; [done..|lia|].
    intros q Hq Hq31 Hne. assert (q = idx * 2 + 1)%nat as -> by (unfold child in Hq; lia).
    destruct (Z.eq_dec (gen c (idx * 2 + 1 + 1)) (gen c (idx * 2 + 1))) as [E|]; [|lia].
    apply (bub_inj _ _ Hb) in E; lia.
Qed.

(** Giving an entry the newest generation and bubbling it down. *)
Lemma insert_perm {A} (l : list A) i x y : l !! i = Some x -> <[i := y]> l ≡ₚ y :: delete i l.
Proof.
  intros Hi. apply lookup_lt_Some in Hi.
  rewrite insert_take_drop, delete_take_drop by done. by rewrite Permutation_middle.
Qed.

Lemma gen_insert c i e k :
  (i < length c)%nat -> gen (<[i := e]> c) k = if decide (k = i) then generation e else gen c k.
Proof.
  intros Hi. unfold gen. case_decide as E; [subst; by rewrite list_lookup_total_insert_eq|].
  by rewrite list_lookup_total_insert_ne.
Qed.

Lemma gen_inj c i j :
  NoDup (generation <$> c) -> (i < length c)%nat -> (j < length c)%nat -> gen c i = gen c j -> i = j.
Proof.
  intros Hn Hi Hj E. eapply NoDup_lookup; [exact Hn|..];
    rewrite list_lookup_fmap, list_lookup_lookup_total_lt by done; cbn; [done|].
  f_equal. by symmetry.
Qed.

Lemma gen_lt c i g : Forall (fun e => 0 <= generation e < g) c -> (i < length c)%nat -> 0 <= gen c i < g.
Proof.
  intros Hf Hi. rewrite Forall_lookup in Hf. apply (Hf i). by apply list_lookup_lookup_total_lt.
Qed.

Lemma touch_bubbling c i e :
  length c = TAG_CACHE_SIZE -> (i < TAG_CACHE_SIZE)%nat -> NoDup (generation <$> c) ->
  Forall (fun e' => 0 <= generation e' < generation e) c -> heap_ok TAG_CACHE_SIZE c ->
  bubbling i (<[i := e]> c).
Proof.
  intros Hl Hi Hn Hf Hh.
  assert (Hlt : forall k, (k < TAG_CACHE_SIZE)%nat -> gen c k < generation e)
    by (intros k Hk; apply (gen_lt c k); [done|by rewrite Hl]).
  split.
  - by rewrite length_insert.
  - intros a b Ha Hb. rewrite !gen_insert by by rewrite Hl. 
    repeat case_decide; subst; intros E; [done|..].
    + apply Hlt in Hb. lia.
    + apply Hlt in Ha. lia.
    + by apply (gen_inj c); rewrite ?Hl.
  - intros a Ha Hne. rewrite !gen_insert by by rewrite Hl.
    rewrite decide_False, decide_True by done. by apply Hlt.
  - intros p q Hpq Hq Hp. rewrite !gen_insert by by rewrite Hl.
    rewrite decide_False by done. case_decide; [|by apply Hh]. apply Hlt. unfold child in Hpq. lia.
  - intros p q Hp Hq Hlt'. rewrite !gen_insert by by rewrite Hl.
    rewrite !decide_False by (unfold child in *; lia).
    apply Z.lt_trans with (gen c i); apply Hh; done.
Qed.

Lemma touch_heap c i e :
  length c = TAG_CACHE_SIZE -> (i < TAG_CACHE_SIZE)%nat -> NoDup (generation <$> c) ->
  Forall (fun e' => 0 <= generation e' < generation e) c -> heap_ok TAG_CACHE_SIZE c ->
  heap_ok TAG_CACHE_SIZE (heap_bubble_down BUBBLE_FUEL i (<[i := e]> c)).
Proof.
  intros. apply heap_bubble_down_heap; [by apply touch_bubbling|]. cbn. lia.
Qed.

Lemma touch_perm c i e :
  length c = TAG_CACHE_SIZE -> (i < TAG_CACHE_SIZE)%nat ->
  heap_bubble_down BUBBLE_FUEL i (<[i := e]> c) ≡ₚ e :: delete i c.
Proof.
  intros Hl Hi. rewrite heap_bubble_down_perm by by rewrite length_insert.
  eapply insert_perm. apply list_lookup_lookup_total_lt. by rewrite Hl.
Qed.

(** ** The invariant of the cache *)

Definition used (st : log_st) : list cached_tag_entry_t := take (s_log_cache_entry_count st) (s_log_cache st).

Record cache_ok (st : log_st) : Prop := CacheOk {
  ok_len : length (s_log_cache st) = TAG_CACHE_SIZE;
  ok_count : (s_log_cache_entry_count st <= TAG_CACHE_SIZE)%nat;
  ok_max : 0 <= s_log_cache_max_generation st <= MAX_GENERATION;
  ok_gens : Forall (fun e => 0 <= generation e < s_log_cache_max_generation st) (used st);
  ok_nodup : NoDup (generation <$> used st);
  ok_tags : NoDup (tag <$> used st);
  ok_heap : heap_ok (s_log_cache_entry_count st) (s_log_cache st);
}.

Definition log_inv (st : log_st) : Prop :=
  cache_ok st /\ s_log_cache_max_generation st < MAX_GENERATION.

Lemma find_index_some p n : forall i c k,
  find_index p n i c = Some k ->
  (i <= k < i + n)%nat /\ p (c !!! k) = true /\ forall j, (i <= j < k)%nat -> p (c !!! j) = false.
Proof.
  induction n as [|n IH]; intros i c k; cbn [find_index]; [done|].
  destruct (p (c !!! i)) eqn:E.
  - intros [= <-]. split; [lia|]. split; [done|]. lia.
  - intros H. apply IH in H as (H1 & H2 & H3). split; [lia|]. split; [done|].
    intros j Hj. destruct (decide (j = i)) as [->|]; [done|]. apply H3. lia.
Qed.

Lemma find_index_none p n : forall i c,
  find_index p n i c = None <-> forall j, (i <= j < i + n)%nat -> p (c !!! j) = false.
Proof.
  induction n as [|n IH]; intros i c; cbn [find_index]; [split; [lia|done]|].
  destruct (p (c !!! i)) eqn:E.
  - split; [done|]. intros H. rewrite H in E by lia. done.
  - rewrite IH. split; intros H j Hj; [|apply H; lia].
    destruct (decide (j = i)) as [->|]; [done|]. apply H. lia.
Qed.

(** What [fix_cache_generation_overflow] keeps of an entry. *)
Definition tl (e : cached_tag_entry_t) : Z * Z := (tag e, level e).

Lemma fix_tl st : tl <$> s_log_cache (fix_cache_generation_overflow st) = tl <$> s_log_cache st.
Proof.
  cbn. unfold fmap. rewrite <- (list_fmap_id (list_fmap _ _ tl (s_log_cache st))) at 1.
  apply list_eq. intros i. rewrite list_fmap_id. change (list_fmap _ _ tl) with (fmap (M := list) tl).
  rewrite !list_lookup_fmap, list_lookup_imap. destruct (s_log_cache st !! i); cbn; [|done].
  by case_match.
Qed.

Lemma fix_tags st : tag <$> s_log_cache (fix_cache_generation_overflow st) = tag <$> s_log_cache st.
Proof.
  assert (H : forall l, tag <$> l = fst <$> (tl <$> l)) by (intros l; by rewrite <- list_fmap_compose).
  by rewrite !H, fix_tl.
Qed.

Lemma fix_generations st :
  (s_log_cache_entry_count st <= TAG_CACHE_SIZE)%nat -> length (s_log_cache st) = TAG_CACHE_SIZE ->
  generation <$> used (fix_cache_generation_overflow st) = Z.of_nat <$> seq 0 (s_log_cache_entry_count st).
Proof.
  intros Hc Hl. apply list_eq. intros i. rewrite !list_lookup_fmap. unfold used. cbn -[Nat.ltb].
  destruct (decide (i < s_log_cache_entry_count st)%nat) as [Hi|Hi].
  - rewrite lookup_take_lt, lookup_seq_lt, list_lookup_imap by done.
    rewrite list_lookup_lookup_total_lt by (rewrite Hl; lia).
    apply Nat.ltb_lt in Hi as E. cbn -[Nat.ltb]. rewrite E. cbn. rewrite wrap_small; [done|].
    unfold in_range. unfold TAG_CACHE_SIZE in Hc. lia.
  - rewrite lookup_take_ge by lia. rewrite lookup_ge_None_2; [done|]. rewrite length_seq. lia.
Qed.

Lemma fix_ok st : cache_ok st -> log_inv (fix_cache_generation_overflow st).
Proof.
  intros [Hl Hc Hm Hg Hn Ht Hh]. pose proof (fix_generations st Hc Hl) as Hgens.
  assert (Hc' : (s_log_cache_entry_count st <= 31)%nat) by exact Hc.
  split; [|unfold MAX_GENERATION; cbn; lia].
  split; change (s_log_cache_entry_count (fix_cache_generation_overflow st)) with (s_log_cache_entry_count st);
    change (s_log_cache_max_generation (fix_cache_generation_overflow st)) with (s_log_cache_entry_count st : Z).
  - cbn. by rewrite length_imap.
  - done.
  - unfold MAX_GENERATION. lia.
  - assert (Hf : Forall (fun g => 0 <= g < Z.of_nat (s_log_cache_entry_count st))
      (generation <$> used (fix_cache_generation_overflow st))).
    { rewrite Hgens, Forall_fmap. apply Forall_seq. cbn. lia. }
    rewrite Forall_fmap in Hf. exact Hf.
  - rewrite Hgens. apply NoDup_fmap_2; [apply _|]. apply NoDup_seq.
  - unfold used in *. rewrite fmap_take in *. by rewrite fix_tags.
  - assert (Hi : forall i, (i < s_log_cache_entry_count st)%nat ->
      gen (s_log_cache (fix_cache_generation_overflow st)) i = i).
    { intros i Hi.
      assert (E : (generation <$> used (fix_cache_generation_overflow st)) !! i = Some (Z.of_nat i)).
      { rewrite Hgens, list_lookup_fmap, lookup_seq_lt by done. done. }
      rewrite list_lookup_fmap in E. unfold used in E. cbn [fix_cache_generation_overflow set_max_generation
        set_cache s_log_cache_entry_count] in E.
      rewrite lookup_take_lt in E by done. unfold gen. rewrite list_lookup_total_alt.
      destruct (s_log_cache _ !! i); [|done]. cbn in E |- *. congruence. }
    intros p q Hpq Hq. cbn in Hi. rewrite !Hi by (unfold child in Hpq; lia). unfold child in Hpq. lia.
Qed.

Lemma check_overflow_ok st : cache_ok st -> log_inv (check_overflow st).
Proof.
  intros H. unfold check_overflow. destruct (Z.eqb_spec (s_log_cache_max_generation st) MAX_GENERATION) as [E|E].
  - by apply fix_ok.
  - split; [done|]. pose proof (ok_max _ H). lia.
Qed.

Lemma used_full st : cache_ok st -> s_log_cache_entry_count st = TAG_CACHE_SIZE -> used st = s_log_cache st.
Proof. intros H E. unfold used. rewrite E, <- (ok_len _ H). apply firstn_all. Qed.

Definition next_generation (st : log_st) : log_st :=
  set_max_generation (u32 (s_log_cache_max_generation st + 1)) st.

Lemma next_generation_val st : log_inv st ->
  u32 (s_log_cache_max_generation st + 1) = s_log_cache_max_generation st + 1.
Proof. intros [H Hm]. pose proof (ok_max _ H). unfold MAX_GENERATION in Hm. apply u32_small. lia. Qed.

(** The touched cache, before the generations are checked for overflow. *)
Definition touched (i : nat) (e : cached_tag_entry_t) (st : log_st) : log_st :=
  set_cache (heap_bubble_down BUBBLE_FUEL i (<[i := e]> (s_log_cache st))) (next_generation st).

Lemma touched_ok st i e :
  log_inv st -> s_log_cache_entry_count st = TAG_CACHE_SIZE -> (i < TAG_CACHE_SIZE)%nat ->
  generation e = s_log_cache_max_generation st -> NoDup (tag e :: (tag <$> delete i (used st))) ->
  cache_ok (touched i e st) /\ used (touched i e st) ≡ₚ e :: delete i (used st).
Proof.
  intros Hinv Hn Hi Hge Htags. pose proof (next_generation_val st Hinv) as Hg.
  destruct Hinv as [Hok Hm]. pose proof (used_full st Hok Hn) as Hu. rewrite Hu in *.
  destruct Hok as [Hl Hc Hmax Hgens Hnd Ht Hh]. rewrite Hu, Hn in *.
  pose proof (touch_perm _ i e Hl Hi) as Hp. rewrite <- Hge in Hgens.
  pose proof (touch_heap _ i e Hl Hi Hnd Hgens Hh) as Hheap.
  assert (Hlen : length (heap_bubble_down BUBBLE_FUEL i (<[i := e]> (s_log_cache st))) = TAG_CACHE_SIZE).
  { rewrite heap_bubble_down_perm by by rewrite length_insert. by rewrite length_insert. }
  assert (Hu' : used (touched i e st) = heap_bubble_down BUBBLE_FUEL i (<[i := e]> (s_log_cache st))).
  { unfold used, touched. cbn [set_cache next_generation set_max_generation s_log_cache s_log_cache_entry_count].
    rewrite Hn, <- Hlen. apply firstn_all. }
  assert (Hdel : Forall (fun e' => 0 <= generation e' < generation e) (delete i (s_log_cache st)))
    by (by apply Forall_delete).
  split; [|by rewrite Hu'].
  split; rewrite ?Hu'; unfold touched, next_generation; cbn [set_cache set_max_generation s_log_cache s_log_cache_entry_count
    s_log_cache_max_generation]; rewrite ?Hg.
  - done.
  - lia.
  - lia.
  - rewrite Hp. constructor; [lia|]. eapply Forall_impl; [exact Hdel|]. cbn. lia.
  - rewrite Hp. cbn. constructor.
    + intros (e' & E & Hin)%list_elem_of_fmap. rewrite Forall_forall in Hdel. apply Hdel in Hin. lia.
    + eapply sublist_NoDup; [exact Hnd|]. apply fmap_sublist, sublist_delete.
  - rewrite Hp. done.
  - by rewrite Hn.
Qed.

Lemma NoDup_tag_delete (st : log_st) i e :
  NoDup (tag <$> used st) -> used st !! i = Some e -> NoDup (tag e :: (tag <$> delete i (used st))).
Proof.
  intros H Hi. eapply NoDup_Permutation_proper; [|exact H].
  exact (Permutation_sym (Permutation_map tag (delete_Permutation _ _ _ Hi))).
Qed.

Lemma check_overflow_used st : cache_ok st -> tl <$> used (check_overflow st) = tl <$> used st.
Proof.
  intros H. unfold check_overflow. case_match; [|done]. unfold used.
  rewrite !fmap_take. cbn [s_log_cache_entry_count]. by rewrite fix_tl.
Qed.

(** The cache is not the place of the levels. *)
Definition same_levels (st st' : log_st) : Prop :=
  s_log_tags st' = s_log_tags st /\ esp_log_default_level st' = esp_log_default_level st.

Lemma check_overflow_same st st' : same_levels st st' -> same_levels st (check_overflow st').
Proof. unfold check_overflow. by case_match. Qed.

#[local] Opaque heap_bubble_down.

Lemma used_lookup st i : cache_ok st -> (i < s_log_cache_entry_count st)%nat ->
  used st !! i = Some (s_log_cache st !!! i).
Proof.
  intros H Hi. unfold used. rewrite lookup_take_lt by done.
  apply list_lookup_lookup_total_lt. rewrite (ok_len _ H). pose proof (ok_count _ H). lia.
Qed.

Lemma find_used_none st p : cache_ok st ->
  find_index p (s_log_cache_entry_count st) 0 (s_log_cache st) = None -> Forall (fun e => p e = false) (used st).
Proof.
  intros H Hf. apply Forall_lookup. intros i e He. assert (i < s_log_cache_entry_count st)%nat.
  { apply lookup_lt_Some in He. unfold used in He. rewrite length_take in He. lia. }
  rewrite used_lookup in He by done. injection He as <-. by apply (proj1 (find_index_none _ _ _ _) Hf); lia.
Qed.

Lemma get_cached_none t st : cache_ok st ->
  forall st', get_cached_log_level t st = (st', None) -> st' = st /\ ~ t ∈ (tag <$> used st).
Proof.
  intros H st'. unfold get_cached_log_level. destruct (find_index _ _ _ _) as [i|] eqn:E.
  { cbv zeta. by case_match. }
  intros [= <-]. split; [done|]. apply find_used_none in E; [|done].
  intros (e & -> & He)%list_elem_of_fmap. rewrite Forall_forall in E. apply E in He. by rewrite Z.eqb_refl in He.
Qed.

Lemma wrap_gen st : log_inv st -> wrap 29 (s_log_cache_max_generation st) = s_log_cache_max_generation st.
Proof.
  intros [H Hm]. pose proof (ok_max _ H). unfold MAX_GENERATION in Hm. apply wrap_small. unfold in_range. lia.
Qed.

Lemma get_cached_some t st : log_inv st ->
  forall st' lv, get_cached_log_level t st = (st', Some lv) ->
  log_inv st' /\ same_levels st st' /\ (tl <$> used st') ≡ₚ (tl <$> used st) /\ (t, lv) ∈ (tl <$> used st).
Proof.
  intros Hinv st' lv. pose proof Hinv as [Hok _]. unfold get_cached_log_level.
  destruct (find_index _ _ _ _) as [i|] eqn:E; [|done].
  apply find_index_some in E as (Hi & Ht & _). apply Z.eqb_eq in Ht.
  pose proof (used_lookup st i Hok ltac:(lia)) as Hu.
  set (e := s_log_cache st !!! i) in *. cbv zeta.
  assert (Hin : (t, level e) ∈ tl <$> used st).
  { apply list_elem_of_fmap. exists e. split; [unfold tl; by rewrite Ht|]. by eapply list_elem_of_lookup_2. }
  destruct (Nat.eqb_spec (s_log_cache_entry_count st) TAG_CACHE_SIZE) as [Hn|Hn]; intros [= <- <-];
    [|by split].
  set (e' := set_generation (s_log_cache_max_generation st) e).
  change (set_cache (heap_bubble_down BUBBLE_FUEL i (<[i := e']> (s_log_cache st)))
    (set_max_generation (u32 (s_log_cache_max_generation st + 1)) st)) with (touched i e' st).
  destruct (touched_ok st i e') as [Hok' Hp]; [done|done|lia|by apply wrap_gen|
    by apply (NoDup_tag_delete st i e); [apply ok_tags|]|].
  split; [by apply check_overflow_ok|]. split; [by apply check_overflow_same|].
  split; [|done]. rewrite check_overflow_used by done. rewrite Hp.
  exact (Permutation_sym (Permutation_map tl (delete_Permutation _ _ _ Hu))).
Qed.

Lemma add_to_cache_tl t lv st : log_inv st -> ~ t ∈ (tag <$> used st) ->
  log_inv (add_to_cache t lv st) /\ same_levels st (add_to_cache t lv st) /\
  exists l, sublist l (tl <$> used st) /\ (tl <$> used (add_to_cache t lv st)) ≡ₚ (t, wrap 3 lv) :: l.
Proof.
  intros Hinv Hnew. unfold add_to_cache.
  set (e := entry t lv (s_log_cache_max_generation st)).
  assert (Hge : generation e = s_log_cache_max_generation st) by (by apply wrap_gen).
  pose proof (next_generation_val st Hinv) as Hg. pose proof Hinv as [Hok Hm]. pose proof (ok_count _ Hok) as Hc.
  change (set_max_generation (u32 (s_log_cache_max_generation st + 1)) st) with (next_generation st).
  cbv zeta. change (s_log_cache_entry_count (next_generation st)) with (s_log_cache_entry_count st).
  destruct (Nat.ltb_spec (s_log_cache_entry_count st) TAG_CACHE_SIZE) as [Hn|Hn].
  - set (n := s_log_cache_entry_count st) in *.
    set (st1 := set_count (S n) (set_cache (<[n := e]> (s_log_cache (next_generation st))) (next_generation st))).
    assert (Hu : used st1 = used st ++ [e]).
    { unfold used, st1. cbn [set_count set_cache next_generation set_max_generation s_log_cache s_log_cache_entry_count].
      rewrite (take_S_r _ n e) by (apply list_lookup_insert_eq; rewrite (ok_len _ Hok); lia).
      by rewrite take_insert_ge. }
    destruct Hok as [Hl _ Hmax Hgens Hnd Ht Hh].
    assert (Hok1 : cache_ok st1).
    { split; rewrite ?Hu; unfold st1; cbn [set_count set_cache next_generation set_max_generation s_log_cache
        s_log_cache_entry_count s_log_cache_max_generation]; rewrite ?Hg.
      - by rewrite length_insert.
      - lia.
      - lia.
      - apply Forall_app; split; [|by constructor; [lia|]]. eapply Forall_impl; [exact Hgens|]. cbn. lia.
      - rewrite fmap_app. apply NoDup_app. split; [done|]. split; [|by apply NoDup_singleton].
        intros g (e' & -> & Hin)%list_elem_of_fmap [E|E]%elem_of_cons; [|by apply elem_of_nil in E].
        rewrite Forall_forall in Hgens. apply Hgens in Hin. lia.
      - rewrite fmap_app. apply NoDup_app. split; [done|]. split; [|by apply NoDup_singleton].
        intros g Hin [E|E]%elem_of_cons; [|by apply elem_of_nil in E]. subst g. done.
      - intros p q Hpq Hq. assert (p < n)%nat by (unfold child in Hpq; lia).
        rewrite !gen_insert by (rewrite Hl; lia). rewrite (decide_False (P := p = n)) by lia.
        case_decide; [|apply Hh; [done|lia]]. rewrite Hge.
        rewrite Forall_lookup in Hgens. apply (Hgens p). unfold used.
        rewrite lookup_take_lt by done. apply list_lookup_lookup_total_lt. rewrite Hl. lia. }
    split; [exact (check_overflow_ok st1 Hok1)|]. split; [by apply check_overflow_same|].
    exists (tl <$> used st). split; [done|]. rewrite check_overflow_used, Hu, fmap_app by done. cbn.
    by rewrite <- Permutation_cons_append.
  - assert (Hn' : s_log_cache_entry_count st = TAG_CACHE_SIZE) by lia.
    fold (touched 0 e st).
    change (set_cache (heap_bubble_down BUBBLE_FUEL 0 (<[0%nat:=e]> (s_log_cache (next_generation st))))
      (next_generation st)) with (touched 0 e st).
    assert (Hsub : sublist (delete 0%nat (used st)) (used st)) by apply sublist_delete.
    destruct (touched_ok st 0 e) as [Hok' Hp]; [done|done|unfold TAG_CACHE_SIZE; lia|done|..].
    { constructor.
      - intros Hin. apply Hnew. eapply elem_of_sublist; [exact Hin|]. by apply fmap_sublist.
      - eapply sublist_NoDup; [by apply ok_tags|]. by apply fmap_sublist. }
    split; [by apply check_overflow_ok|]. split; [by apply check_overflow_same|].
    exists (tl <$> delete 0%nat (used st)). split; [by apply fmap_sublist|].
    rewrite check_overflow_used by done. by rewrite Hp.
Qed.

(** ** Setting a level *)

Lemma update_tag_some s lv l l' :
  update_tag s lv l = Some l' ->
  (exists old, get_uncached_log_level s l = Some old) /\
  forall s', get_uncached_log_level s' l' = if decide (s' = s) then Some (u8 lv) else get_uncached_log_level s' l.
Proof.
  revert l'. induction l as [|[s0 old] l IH]; intros l'; cbn [update_tag get_uncached_log_level]; [done|].
  destruct (decide (s0 = s)) as [->|Hne].
  - intros [= <-]. split; [exists old; by rewrite decide_True|].
    intros s'. cbn [get_uncached_log_level]. by case_decide.
  - destruct (update_tag s lv l) as [l1|] eqn:E; [|done]. intros [= <-].
    destruct (IH l1 eq_refl) as [[o Ho] Hl]. split; [exists o; by rewrite decide_False|].
    intros s'. cbn [get_uncached_log_level]. rewrite Hl. repeat case_decide; congruence.
Qed.

Lemma update_tag_none s lv l : update_tag s lv l = None -> get_uncached_log_level s l = None.
Proof.
  induction l as [|[s0 old] l IH]; cbn [update_tag get_uncached_log_level]; [done|].
  destruct (decide (s0 = s)) as [->|Hne]; [done|].
  destruct (update_tag s lv l); [done|]. intros _. rewrite decide_False by done. auto.
Qed.

Lemma set_level_used st i lv : (i < s_log_cache_entry_count st)%nat ->
  used (set_cache (<[i := set_level lv (s_log_cache st !!! i)]> (s_log_cache st)) st)
  = <[i := set_level lv (s_log_cache st !!! i)]> (used st).
Proof. intros Hi. unfold used. cbn. by rewrite take_insert_lt. Qed.

Lemma fmap_insert_same {A B} (f : A -> B) (l : list A) (i : nat) x y :
  l !! i = Some x -> f y = f x -> f <$> <[i := y]> l = f <$> l.
Proof.
  intros Hi E. rewrite list_fmap_insert, E. apply list_insert_id. by rewrite list_lookup_fmap, Hi.
Qed.

Lemma set_level_inv st i lv : log_inv st -> (i < s_log_cache_entry_count st)%nat ->
  log_inv (set_cache (<[i := set_level lv (s_log_cache st !!! i)]> (s_log_cache st)) st).
Proof.
  intros [Hok Hm] Hi. split; [|done]. pose proof (used_lookup st i Hok Hi) as Hu.
  destruct Hok as [Hl Hc Hmax Hgens Hnd Ht Hh].
  split; rewrite ?set_level_used by done; cbn [set_cache s_log_cache s_log_cache_entry_count s_log_cache_max_generation].
  - by rewrite length_insert.
  - done.
  - done.
  - apply Forall_insert; [done|]. rewrite Forall_lookup in Hgens. exact (Hgens i _ Hu).
  - by rewrite (fmap_insert_same _ _ _ _ _ Hu).
  - by rewrite (fmap_insert_same _ _ _ _ _ Hu).
  - assert (Hg : forall k, gen (<[i:=set_level lv (s_log_cache st !!! i)]> (s_log_cache st)) k = gen (s_log_cache st) k).
    { intros k. rewrite gen_insert by lia. case_decide; by subst. }
    intros p q Hpq Hq. rewrite !Hg. by apply Hh.
Qed.

Lemma empty_inv st :
  length (s_log_cache st) = TAG_CACHE_SIZE -> s_log_cache_entry_count st = 0%nat ->
  s_log_cache_max_generation st = 0 -> log_inv st.
Proof.
  intros Hl Hn Hm. assert (Hu : used st = []) by (unfold used; by rewrite Hn).
  split; [|by rewrite Hm]. split; rewrite ?Hu, ?Hn, ?Hm; try done.
  - unfold TAG_CACHE_SIZE. lia.
  - apply NoDup_nil_2.
  - apply NoDup_nil_2.
  - intros p q _ Hq. lia.
Qed.

Section LogSpec.
  Context (text : Z -> string).

Lemma level_get_cases t st : log_inv st ->
  let '(st', lv) := esp_log_level_get text t st in
  let looked_up := match get_uncached_log_level (text t) (s_log_tags st) with
                   | Some lv => lv | None => esp_log_default_level st end in
  log_inv st' /\ same_levels st st' /\
  (((tl <$> used st') ≡ₚ (tl <$> used st) /\ (t, lv) ∈ (tl <$> used st)) \/
   (lv = looked_up /\ exists l, sublist l (tl <$> used st) /\ (tl <$> used st') ≡ₚ (t, wrap 3 lv) :: l)).
Proof.
  intros Hinv. unfold esp_log_level_get. destruct (get_cached_log_level t st) as [st' [lv|]] eqn:E.
  - apply get_cached_some in E as (H1 & H2 & H3 & H4); [|done]. cbv zeta. split; [done|]. split; [done|]. by left.
  - apply get_cached_none in E as [-> Hnew]; [|apply Hinv]. cbv zeta.
    destruct (add_to_cache_tl t (match get_uncached_log_level (text t) (s_log_tags st) with
      | Some lv => lv | None => esp_log_default_level st end) st Hinv Hnew) as (H1 & H2 & H3).
    split; [done|]. split; [done|]. by right.
Qed.

Lemma level_set_inv t lv malloc st : log_inv st -> log_inv (esp_log_level_set text t lv malloc st).
Proof.
  intros Hinv. unfold esp_log_level_set. case_decide as Hstar.
  { apply empty_inv; [|done..]. by destruct Hinv as [[] _]. }
  assert (Htags : forall l, log_inv (set_tags l st)).
  { intros l. destruct Hinv as [[] Hm]. split; [by split|done]. }
  case_match; [|done]. destruct (find_index _ _ _ _) as [i|] eqn:E; [|done].
  apply find_index_some in E as (Hi & _). apply (set_level_inv (set_tags _ st)); [done|]. cbn in Hi |- *. lia.
Qed.

(** ** Operations of the component *)

Inductive log_op :=
  | LogSet (t lv : Z) (malloc : bool)
  | LogGet (t : Z)
  | LogWrite (lock : bool) (lv t : Z).

Definition log_step (op : log_op) (st : log_st) : log_st * Z :=
  match op with
  | LogSet t lv malloc => (esp_log_level_set text t lv malloc st, 0)
  | LogGet t => esp_log_level_get text t st
  | LogWrite lock lv t => let '(st, b) := esp_log_writev text lock lv t st in (st, Z.b2z b)
  end.

Fixpoint log_run (ops : list log_op) (st : log_st) : log_st * list Z :=
  match ops with
  | [] => (st, [])
  | op :: ops => let '(st, r) := log_step op st in let '(st, rs) := log_run ops st in (st, r :: rs)
  end.

Definition log_init (d : Z) : log_st := LogSt d [] (replicate TAG_CACHE_SIZE (Cached 0 0 0)) 0 0.

Lemma log_init_inv d : log_inv (log_init d).
Proof. by apply empty_inv. Qed.

Lemma log_step_inv op st : log_inv st -> log_inv (fst (log_step op st)).
Proof.
  intros Hinv. destruct op as [t lv malloc|t|lock lv t]; cbn [log_step].
  - by apply level_set_inv.
  - pose proof (level_get_cases t st Hinv) as H. destruct (esp_log_level_get text t st). apply H.
  - unfold esp_log_writev. destruct lock; cbn [negb]; [|done].
    pose proof (level_get_cases t st Hinv) as H. destruct (esp_log_level_get text t st). apply H.
Qed.

Lemma log_run_inv ops : forall st, log_inv st -> log_inv (fst (log_run ops st)).
Proof.
  induction ops as [|op ops IH]; intros st Hinv; cbn [log_run]; [done|].
  pose proof (log_step_inv op st Hinv) as H. destruct (log_step op st) as [st1 r]. cbn in H.
  specialize (IH st1 H). by destruct (log_run ops st1).
Qed.

(** ** Specification: a default level and a map from tags to levels *)

Record log_spec := LogSpec { sp_default : Z; sp_levels : gmap string Z }.

Definition spec_level (s : string) (sp : log_spec) : Z := default (sp_default sp) (sp_levels sp !! s).

Definition spec_set (s : string) (lv : Z) (malloc : bool) (sp : log_spec) : log_spec :=
  if decide (s = "*"%string) then LogSpec lv ∅
  else if negb malloc && negb (bool_decide (is_Some (sp_levels sp !! s))) then sp
  else LogSpec (sp_default sp) (<[s := lv]> (sp_levels sp)).

Definition spec_step (op : log_op) (sp : log_spec) : log_spec * Z :=
  match op with
  | LogSet t lv malloc => (spec_set (text t) lv malloc sp, 0)
  | LogGet t => (sp, spec_level (text t) sp)
  | LogWrite lock lv t => (sp, Z.b2z (lock && (lv <=? spec_level (text t) sp)))
  end.

Fixpoint spec_run (ops : list log_op) (sp : log_spec) : list Z :=
  match ops with
  | [] => []
  | op :: ops => let '(sp, r) := spec_step op sp in r :: spec_run ops sp
  end.

(** Tags in use have different texts, levels fit the 3 bits of the cache. *)
Definition good_op (T : gset Z) (op : log_op) : Prop :=
  match op with
  | LogSet t lv _ => t ∈ T /\ 0 <= lv < 8
  | LogGet t => t ∈ T
  | LogWrite _ _ t => t ∈ T
  end.

Definition distinct_texts (T : gset Z) : Prop :=
  forall t t', t ∈ T -> t' ∈ T -> text t = text t' -> t = t'.

Record log_repr (T : gset Z) (st : log_st) (sp : log_spec) : Prop := LogRepr {
  rep_inv : log_inv st;
  rep_default : esp_log_default_level st = sp_default sp;
  rep_tags : forall s, get_uncached_log_level s (s_log_tags st) = sp_levels sp !! s;
  rep_range : forall s, 0 <= spec_level s sp < 8;
  rep_cache : Forall (fun e => e.1 ∈ T /\ e.2 = spec_level (text e.1) sp) (tl <$> used st);
}.

Lemma looked_up_level T st sp s : log_repr T st sp ->
  match get_uncached_log_level s (s_log_tags st) with
  | Some lv => lv | None => esp_log_default_level st end = spec_level s sp.
Proof.
  intros H. rewrite (rep_tags _ _ _ H), (rep_default _ _ _ H). unfold spec_level. by destruct (_ !! s).
Qed.

Lemma get_repr T st sp t : log_repr T st sp -> t ∈ T ->
  log_repr T (fst (esp_log_level_get text t st)) sp /\ snd (esp_log_level_get text t st) = spec_level (text t) sp.
Proof.
  intros H Ht. pose proof (level_get_cases t st (rep_inv _ _ _ H)) as Hc.
  destruct (esp_log_level_get text t st) as [st' lv]. destruct Hc as (Hinv & [Htags Hdef] & Hc).
  rewrite (looked_up_level T st sp) in Hc by done. destruct H as [_ Hd Hl Hr Hf]. cbn [fst snd].
  assert (Forall (fun e => e.1 ∈ T /\ e.2 = spec_level (text e.1) sp) (tl <$> used st') /\
    lv = spec_level (text t) sp) as [Hf' Hlv].
  { destruct Hc as [[Hp Hin]|(-> & l & Hs & Hp)].
    - split; [by rewrite Hp|]. rewrite Forall_forall in Hf. by apply Hf in Hin as [_ ?].
    - split; [|done]. rewrite Hp. constructor.
      + split; [done|]. apply wrap_small. apply Hr.
      + rewrite Forall_forall in Hf |- *. intros e He. apply Hf. by eapply elem_of_sublist. }
  split; [|done]. split; [done|by rewrite Hdef|by intros s; rewrite Htags|done|done].
Qed.

Lemma spec_set_level s lv sp s' :
  spec_level s' (LogSpec (sp_default sp) (<[s := lv]> (sp_levels sp)))
  = if decide (s' = s) then lv else spec_level s' sp.
Proof.
  unfold spec_level. cbn. case_decide as E; [subst; by rewrite lookup_insert_eq|by rewrite lookup_insert_ne].
Qed.

(** The cached levels after the level of [t] has been stored. *)
Lemma set_cached_levels T st sp t lv st' :
  distinct_texts T -> log_repr T st sp -> t ∈ T -> 0 <= lv < 8 ->
  s_log_cache st' = match find_index (fun e => if decide (text (tag e) = text t) then true else false)
                            (s_log_cache_entry_count st) 0 (s_log_cache st) with
                    | Some i => <[i := set_level lv (s_log_cache st !!! i)]> (s_log_cache st)
                    | None => s_log_cache st
                    end ->
  s_log_cache_entry_count st' = s_log_cache_entry_count st ->
  Forall (fun e => e.1 ∈ T /\ e.2 = spec_level (text e.1) (LogSpec (sp_default sp) (<[text t := lv]> (sp_levels sp))))
    (tl <$> used st').
Proof.
  intros HT H Ht Hlv Hc Hn. pose proof (proj1 (rep_inv _ _ _ H)) as Hok. pose proof (rep_cache _ _ _ H) as Hf.
  rewrite Forall_fmap in Hf |- *. rewrite Forall_forall in Hf.
  destruct (find_index _ _ _ _) as [i|] eqn:E.
  - apply find_index_some in E as (Hi & Htext & _). case_decide as He; [|done].
    pose proof (used_lookup st i Hok ltac:(lia)) as Hu.
    assert (Hu' : used st' = <[i := set_level lv (s_log_cache st !!! i)]> (used st)).
    { unfold used. rewrite Hc, Hn. rewrite take_insert_lt by lia. done. }
    rewrite Hu', Forall_lookup. intros j e [(-> & <- & Hj)|(Hne & Hj)]%list_lookup_insert_Some; cbn.
    + destruct (Hf _ (list_elem_of_lookup_2 _ _ _ Hu)) as [Hin _]. split; [exact Hin|].
      rewrite spec_set_level, decide_True by done. by apply wrap_small.
    + destruct (Hf _ (list_elem_of_lookup_2 _ _ _ Hj)) as [Hin Hle]. split; [exact Hin|].
      rewrite spec_set_level. rewrite decide_False; [exact Hle|]. rewrite <- He. intros Etext.
      destruct (Hf _ (list_elem_of_lookup_2 _ _ _ Hu)) as [Hin' _].
      apply (HT _ _ Hin Hin') in Etext. apply Hne.
      apply (NoDup_lookup (tag <$> used st) i j (tag e) (ok_tags _ Hok));
        rewrite list_lookup_fmap, ?Hj, ?Hu; cbn in Etext |- *; [by rewrite Etext|done].
  - assert (Hu' : used st' = used st) by (unfold used; by rewrite Hc, Hn).
    rewrite Hu', Forall_forall. intros e He. destruct (Hf e He) as [Hin Hle]. split; [exact Hin|].
    apply find_used_none in E; [|done]. rewrite Forall_forall in E. apply E in He.
    rewrite spec_set_level. case_decide; [done|]. by rewrite decide_False.
Qed.

Lemma set_repr T st sp t lv malloc :
  distinct_texts T -> log_repr T st sp -> t ∈ T -> 0 <= lv < 8 ->
  log_repr T (esp_log_level_set text t lv malloc st) (spec_set (text t) lv malloc sp).
Proof.
  intros HT H Ht Hlv. pose proof (level_set_inv t lv malloc st (rep_inv _ _ _ H)) as Hinv.
  unfold spec_set. unfold esp_log_level_set in *. case_decide as Hstar.
  { split; [done|done| | |]; cbn.
    - intros s. by rewrite lookup_empty.
    - intros s. unfold spec_level. cbn. by rewrite lookup_empty.
    - unfold used. cbn. apply Forall_nil_2. }
  assert (Hlu8 : u8 lv = lv) by (apply wrap_small; unfold in_range; lia).
  assert (Hgo : forall l, log_inv (match find_index (fun e => if decide (text (tag e) = text t) then true else false)
      (s_log_cache_entry_count (set_tags l st)) 0 (s_log_cache (set_tags l st)) with
      | Some i => set_cache (<[i := set_level lv (s_log_cache (set_tags l st) !!! i)]> (s_log_cache (set_tags l st))) (set_tags l st)
      | None => set_tags l st end) ->
    (forall s, get_uncached_log_level s l = <[text t := lv]> (sp_levels sp) !! s) ->
    log_repr T (match find_index (fun e => if decide (text (tag e) = text t) then true else false)
      (s_log_cache_entry_count (set_tags l st)) 0 (s_log_cache (set_tags l st)) with
      | Some i => set_cache (<[i := set_level lv (s_log_cache (set_tags l st) !!! i)]> (s_log_cache (set_tags l st))) (set_tags l st)
      | None => set_tags l st end) (LogSpec (sp_default sp) (<[text t := lv]> (sp_levels sp)))).
  { intros l Hi Hl. split; [done| | | |].
    - case_match; apply (rep_default _ _ _ H).
    - intros s. case_match; apply Hl.
    - intros s. rewrite spec_set_level. case_decide; [done|]. apply (rep_range _ _ _ H).
    - apply (set_cached_levels T st); [done..| |]; cbn [set_tags s_log_cache s_log_cache_entry_count];
        by destruct (find_index _ _ _ _). }
  destruct (update_tag (text t) lv (s_log_tags st)) as [l|] eqn:E.
  - apply update_tag_some in E as [[old Hold] Hl]. rewrite (rep_tags _ _ _ H) in Hold.
    rewrite (bool_decide_true (is_Some _)) by (by rewrite Hold).
    rewrite andb_false_r. apply Hgo; [done|]. intros s. rewrite Hl, Hlu8, (rep_tags _ _ _ H).
    case_decide; [subst; by rewrite lookup_insert_eq|by rewrite lookup_insert_ne].
  - apply update_tag_none in E. rewrite (rep_tags _ _ _ H) in E.
    rewrite (bool_decide_false (is_Some _)) by (rewrite E; by intros [? ?]).
    destruct malloc; cbn [negb andb]; [|done]. apply Hgo; [done|].
    intros s. cbn [get_uncached_log_level]. rewrite Hlu8, (rep_tags _ _ _ H).
    case_decide; [subst; by rewrite lookup_insert_eq|by rewrite lookup_insert_ne].
Qed.

Lemma step_repr T st sp op : distinct_texts T -> log_repr T st sp -> good_op T op ->
  log_repr T (fst (log_step op st)) (fst (spec_step op sp)) /\ snd (log_step op st) = snd (spec_step op sp).
Proof.
  intros HT H. destruct op as [t lv malloc|t|lock lv t]; cbn [good_op log_step spec_step fst snd].
  - intros [Ht Hlv]. split; [by apply set_repr|done].
  - intros Ht. by apply get_repr.
  - intros Ht. unfold esp_log_writev. destruct lock; cbn [negb andb]; [|done].
    destruct (get_repr T st sp t H Ht) as [Hr Hv]. destruct (esp_log_level_get text t st) as [st' r].
    cbn [fst snd] in *. split; [done|]. by rewrite Hv.
Qed.

Lemma run_repr T ops : distinct_texts T -> forall st sp, log_repr T st sp -> Forall (good_op T) ops ->
  snd (log_run ops st) = spec_run ops sp.
Proof.
  intros HT. induction ops as [|op ops IH]; intros st sp H Hops; cbn [log_run spec_run]; [done|].
  inversion_clear Hops. destruct (step_repr T st sp op) as [Hr Hv]; [done..|].
  destruct (log_step op st) as [st1 r]. destruct (spec_step op sp) as [sp1 r']. cbn [fst snd] in *.
  rewrite <- (IH st1 sp1) by done. destruct (log_run ops st1). cbn. by rewrite Hv.
Qed.

Lemma init_repr T d : 0 <= d < 8 -> log_repr T (log_init d) (LogSpec d ∅).
Proof.
  intros Hd. split; [apply log_init_inv|done|intros s; cbn; by rewrite lookup_empty| |apply Forall_nil_2].
  intros s. unfold spec_level. cbn. by rewrite lookup_empty.
Qed.

(** Whatever the tags, the levels and the order of the calls, the cache
    stays a min-heap on the generations (the assertions of the code with
    [LOG_BUILTIN_CHECKS] hold), with distinct tags and generations, all below
    the next one, which fits its 29 bits. *)
Theorem log_cache_heap (ops : list log_op) (d : Z) :
  let st := fst (log_run ops (log_init d)) in
  (s_log_cache_entry_count st <= TAG_CACHE_SIZE)%nat /\
  heap_checks (s_log_cache_entry_count st) (s_log_cache st) /\
  NoDup (tag <$> used st) /\ NoDup (generation <$> used st) /\
  Forall (fun e => 0 <= generation e < s_log_cache_max_generation st) (used st) /\
  s_log_cache_max_generation st < MAX_GENERATION.
Proof.
  cbv zeta. destruct (log_run_inv ops _ (log_init_inv d)) as [[] Hm].
  split; [done|]. split; [by apply heap_ok_checks|]. done.
Qed.


End LogSpec.

(** ** Eviction *)

(** The entries in use, from the least to the most recently used. *)
Definition by_age (st : log_st) (l : list cached_tag_entry_t) : Prop :=
  l ≡ₚ used st /\ StronglySorted (fun a b => generation a < generation b) l.

Lemma heap_root_least c i :
  heap_ok TAG_CACHE_SIZE c -> (i < TAG_CACHE_SIZE)%nat -> i <> 0%nat -> gen c 0 < gen c i.
Proof.
  intros Hh. induction (lt_wf i) as [i _ IH]. intros Hi Hne.
  pose proof (child_parent i ltac:(lia)) as Hp.
  assert (Hlt : ((i - 1) / 2 < i)%nat) by (apply Nat.Div0.div_lt_upper_bound; lia).
  pose proof (Hh _ _ Hp Hi) as Hg.
  destruct (decide ((i - 1) / 2 = 0)%nat) as [E|E]; [by rewrite E in Hg|].
  pose proof (IH _ Hlt ltac:(lia) E). lia.
Qed.

(** The touched entry becomes the most recent, in the place of entry [i]. *)
Lemma touched_by_age st i e e0 l1 l2 :
  log_inv st -> s_log_cache_entry_count st = TAG_CACHE_SIZE -> (i < TAG_CACHE_SIZE)%nat ->
  generation e = s_log_cache_max_generation st -> NoDup (tag e :: (tag <$> delete i (used st))) ->
  used st !! i = Some e0 -> by_age st (l1 ++ e0 :: l2) ->
  s_log_cache_max_generation st + 1 < MAX_GENERATION ->
  by_age (check_overflow (touched i e st)) (l1 ++ l2 ++ [e]).
Proof.
  intros Hinv Hn Hi Hge Ht Hu [Hp Hs] Hm.
  destruct (touched_ok st i e) as [Hok' Hp']; [done..|].
  assert (Ho : check_overflow (touched i e st) = touched i e st).
  { unfold check_overflow. replace (s_log_cache_max_generation (touched i e st))
      with (u32 (s_log_cache_max_generation st + 1)) by done.
    rewrite next_generation_val by done. destruct (Z.eqb_spec (s_log_cache_max_generation st + 1) MAX_GENERATION); [lia|done]. }
  assert (Hdel : l1 ++ l2 ≡ₚ delete i (used st)).
  { apply (Permutation_cons_inv (a := e0)). rewrite Permutation_middle, Hp. by apply delete_Permutation. }
  rewrite Ho, app_assoc. split.
  - rewrite Hp', <- Permutation_cons_append. by rewrite Hdel.
  - apply StronglySorted_app in Hs as (H12 & H1 & [H2 H3]%StronglySorted_cons).
    apply StronglySorted_app. split; [|split; [|by repeat constructor]].
    + intros a b Ha Hb. apply list_elem_of_singleton in Hb as ->.
      rewrite Hdel in Ha. pose proof (ok_gens _ (proj1 Hinv)) as Hg. rewrite Forall_forall in Hg.
      assert (Hin : a ∈ used st) by (eapply elem_of_sublist; [exact Ha|apply sublist_delete]).
      apply Hg in Hin. lia.
    + apply StronglySorted_app. split; [|done]. intros a b Ha Hb. apply H12; [done|by right].
Qed.

Lemma oldest_is_root st e0 l :
  log_inv st -> s_log_cache_entry_count st = TAG_CACHE_SIZE -> by_age st (e0 :: l) -> e0 = s_log_cache st !!! 0%nat.
Proof.
  intros [Hok _] Hn [Hp Hs]. pose proof (used_full st Hok Hn) as Hu. rewrite Hu in Hp.
  pose proof (ok_heap _ Hok) as Hh. rewrite Hn in Hh. pose proof (ok_len _ Hok) as Hl.
  apply StronglySorted_cons in Hs as [Hf _]. rewrite Forall_forall in Hf.
  assert (Hin : e0 ∈ s_log_cache st) by (rewrite <- Hp; by left).
  apply list_elem_of_lookup_1 in Hin as [i Hi]. pose proof (lookup_lt_Some _ _ _ Hi) as Hlt.
  destruct (decide (i = 0)%nat) as [->|Hne]; [symmetry; by apply list_lookup_total_correct|].
  pose proof (heap_root_least _ i Hh ltac:(lia) Hne) as Hg. unfold gen in Hg.
  rewrite (list_lookup_total_correct _ _ _ Hi) in Hg.
  assert (Hroot : s_log_cache st !!! 0%nat ∈ e0 :: l).
  { rewrite Hp. apply (list_elem_of_lookup_2 _ 0). apply list_lookup_lookup_total_lt. lia. }
  apply elem_of_cons in Hroot as [E|Hr]; [by rewrite E in Hg; lia|]. apply Hf in Hr. lia.
Qed.

Lemma get_hit_full text t st st' lv : log_inv st -> s_log_cache_entry_count st = TAG_CACHE_SIZE ->
  get_cached_log_level t st = (st', Some lv) ->
  esp_log_level_get text t st = (st', lv) /\
  exists i e0, (i < TAG_CACHE_SIZE)%nat /\ used st !! i = Some e0 /\ tag e0 = t /\ lv = level e0 /\
    st' = check_overflow (touched i (set_generation (s_log_cache_max_generation st) e0) st).
Proof.
  intros [Hok _] Hn E. split; [unfold esp_log_level_get; by rewrite E|]. revert E. unfold get_cached_log_level.
  destruct (find_index _ _ _ _) as [i|] eqn:E; [|done].
  apply find_index_some in E as (Hi & Ht & _). apply Z.eqb_eq in Ht.
  rewrite (proj2 (Nat.eqb_eq _ _) Hn). cbv zeta. intros [= <- <-].
  exists i, (s_log_cache st !!! i). split; [lia|]. split; [|done]. apply used_lookup; [done|lia].
Qed.

Lemma get_miss_full text t st st' : log_inv st -> s_log_cache_entry_count st = TAG_CACHE_SIZE ->
  get_cached_log_level t st = (st', None) ->
  exists lv, esp_log_level_get text t st =
    (check_overflow (touched 0 (entry t lv (s_log_cache_max_generation st)) st), lv).
Proof.
  intros Hinv Hn E. unfold esp_log_level_get. rewrite E. apply get_cached_none in E as [-> _]; [|apply Hinv].
  eexists. unfold add_to_cache. cbv zeta. rewrite (proj2 (Nat.ltb_ge _ _)); [done|].
  change (s_log_cache_entry_count (set_max_generation _ st)) with (s_log_cache_entry_count st). by rewrite Hn.
Qed.

(** A full cache evicts the least recently used tag. As long as the
    generations are not renumbered, a lookup that hits moves its entry to the
    most recent position, and one that misses replaces the oldest entry. *)
Theorem full_cache_is_lru (text : Z -> string) (st : log_st) (t : Z) (l : list cached_tag_entry_t) :
  log_inv st -> s_log_cache_entry_count st = TAG_CACHE_SIZE ->
  s_log_cache_max_generation st + 1 < MAX_GENERATION -> by_age st l ->
  let '(st', lv) := esp_log_level_get text t st in
  exists e, tag e = t /\
    ((exists l1 e0 l2, l = l1 ++ e0 :: l2 /\ tag e0 = t /\ level e = lv /\ by_age st' (l1 ++ l2 ++ [e])) \/
     (~ t ∈ (tag <$> l) /\ level e = wrap 3 lv /\ by_age st' (tail l ++ [e]))).
Proof.
  intros Hinv Hn Hm Hl. pose proof (proj1 Hl) as Hp.
  destruct (get_cached_log_level t st) as [st' [lv|]] eqn:E.
  - destruct (get_hit_full text t st st' lv Hinv Hn E) as (-> & i & e0 & Hi & Hu & <- & -> & ->).
    exists (set_generation (s_log_cache_max_generation st) e0). split; [done|]. left.
    assert (He0 : e0 ∈ l) by (rewrite Hp; by eapply list_elem_of_lookup_2).
    apply list_elem_of_split in He0 as (l1 & l2 & ->). exists l1, e0, l2. split; [done|]. split; [done|].
    split; [done|]. eapply touched_by_age; try done; [by apply wrap_gen|].
    apply (NoDup_tag_delete st i e0); [apply Hinv|done].
  - destruct (get_miss_full text t st st' Hinv Hn E) as [lv ->].
    pose proof (proj2 (get_cached_none t st (proj1 Hinv) st' E)) as Hnew.
    set (e := entry t lv (s_log_cache_max_generation st)). exists e. split; [done|]. right.
    split; [by rewrite Hp|]. split; [reflexivity|].
    pose proof (used_lookup st 0 (proj1 Hinv)) as Hu. rewrite Hn in Hu. specialize (Hu ltac:(unfold TAG_CACHE_SIZE; lia)).
    destruct l as [|e0 l]; [apply Permutation_nil in Hp; by rewrite Hp in Hu|].
    assert (He0 : e0 = s_log_cache st !!! 0%nat) by (by apply (oldest_is_root st e0 l)).
    apply (touched_by_age st 0 e e0 [] l); try done; [unfold TAG_CACHE_SIZE; lia|by apply wrap_gen| |by rewrite He0].
    constructor.
    + intros Hin. apply Hnew. eapply elem_of_sublist; [exact Hin|]. apply fmap_sublist, sublist_delete.
    + eapply sublist_NoDup; [apply ok_tags, Hinv|]. apply fmap_sublist, sublist_delete.
Qed.

#[local] Transparent heap_bubble_down.

Module LogExample.

(** Tag [t] is a string of [t] letters. *)
Fixpoint letters (n : nat) : string :=
  match n with O => EmptyString | S n => String (Ascii.ascii_of_nat 116) (letters n) end.
Definition ex_text (t : Z) : string := letters (Z.to_nat t).

Lemma letters_inj n m : letters n = letters m -> n = m.
Proof. revert m. induction n; destruct m; intros [=]; auto. Qed.

(** 33 tags are looked up, one of them is set, a cached tag is set, then the
    first tag (evicted by then) and both changed ones are read. *)
Definition ex_ops : list log_op :=
  (LogGet <$> seqZ 1 33) ++
  [LogSet 7 5 true; LogSet 20 1 true; LogGet 1; LogGet 7; LogGet 20; LogWrite true 4 7; LogWrite true 4 20].

Definition ex_tags : gset Z := list_to_set (seqZ 1 33).

Lemma ex_distinct : distinct_texts ex_text ex_tags.
Proof.
  intros t t' Ht Ht' E. unfold ex_tags in *. rewrite !elem_of_list_to_set, !elem_of_seqZ in *.
  apply letters_inj in E. lia.
Qed.


(** The state with 31 tags in the cache. *)
Definition full_st : log_st := fst (log_run ex_text (LogGet <$> seqZ 1 31) (log_init 3)).

Lemma full_cache_is_lru_witness :
  exists e, tag e = 40 /\
    ((exists l1 e0 l2, used full_st = l1 ++ e0 :: l2 /\ tag e0 = 40 /\ level e = 3 /\
        by_age (fst (esp_log_level_get ex_text 40 full_st)) (l1 ++ l2 ++ [e])) \/
     (~ 40 ∈ (tag <$> used full_st) /\ level e = wrap 3 3 /\
        by_age (fst (esp_log_level_get ex_text 40 full_st)) (tail (used full_st) ++ [e]))).
Proof.
  apply (full_cache_is_lru ex_text full_st 40 (used full_st)).
  - apply log_run_inv, log_init_inv.
  - vm_compute. reflexivity.
  - vm_compute. reflexivity.
  - split; [done|]. vm_compute. repeat constructor.
Defined.

(** [esp_log_level_set] updates the first cached entry whose string is equal:
    of two addresses of the same string, the other one keeps the old level. *)
Example second_pointer_keeps_level :
  snd (log_run (fun _ => "wifi"%string) [LogGet 1; LogGet 2; LogSet 2 5 true; LogGet 1; LogGet 2] (log_init 3))
    = [3; 3; 0; 5; 3] /\
  spec_run (fun _ => "wifi"%string) [LogGet 1; LogGet 2; LogSet 2 5 true; LogGet 1; LogGet 2] (LogSpec 3 ∅)
    = [3; 3; 0; 5; 5].
Proof. split; vm_compute; reflexivity. Qed.

End LogExample.
