(* ===== verification/RingBuf.v ===== *)
(** * Ring buffers ([components/esp_ringbuf/ringbuf.c])

    The storage of a ring buffer is its list of bytes, the pointers into it are
    offsets from [pucHead]: [pucHead] is 0 and [pucTail] is [xSize]. The storage
    is 32-bit aligned, as [malloc] returns it. A failed [configASSERT], an
    access outside the storage and a write through a null pointer give [None].

    The calls are the ones that do not wait ([xTicksToWait] of 0, or from an
    interrupt): a call that waits is a sequence of them. *)

From S2P Require Import Prelude.

#[local] Open Scope abort_scope.

Definition rbALIGN_SIZE (xSize : Z) : Z := Z.land (u32 (xSize + 3)) (Z.lnot 3).
Definition rbCHECK_ALIGNED (p : Z) : bool := Z.land p 3 =? 0.

Definition rbALLOW_SPLIT_FLAG : Z := 1.
Definition rbBYTE_BUFFER_FLAG : Z := 2.
Definition rbBUFFER_FULL_FLAG : Z := 4.
Definition rbBUFFER_STATIC_FLAG : Z := 8.

Definition rbITEM_FREE_FLAG : Z := 1.
Definition rbITEM_DUMMY_DATA_FLAG : Z := 2.
Definition rbITEM_SPLIT_FLAG : Z := 4.
Definition rbITEM_WRITTEN_FLAG : Z := 8.

Definition rbHEADER_SIZE : Z := 8.

(** [flags & flag], as a condition; [flags |= flag]; [flags &= ~flag] *)
Definition has (flags flag : Z) : bool := negb (Z.land flags flag =? 0).
Definition set_flag (flags flag : Z) : Z := Z.lor flags flag.
Definition clear_flag (flags flag : Z) : Z := Z.land flags (Z.lnot flag).

Inductive RingbufferType_t := RINGBUF_TYPE_NOSPLIT | RINGBUF_TYPE_ALLOWSPLIT | RINGBUF_TYPE_BYTEBUF.

(** The function pointers of the structure are the ones of its type. *)
Record Ringbuffer_t := RB {
  xType : RingbufferType_t;
  xSize : Z;
  xMaxItemSize : Z;
  uxRingbufferFlags : Z;
  pucAcquire : Z;
  pucWrite : Z;
  pucRead : Z;
  pucFree : Z;
  storage : list Z;
  xItemsWaiting : Z;
  xQueueSet : option Z;
}.

Definition pucHead : Z := 0.
Definition pucTail (r : Ringbuffer_t) : Z := xSize r.

Definition with_flags (f : Z) (r : Ringbuffer_t) : Ringbuffer_t :=
  RB (xType r) (xSize r) (xMaxItemSize r) f (pucAcquire r) (pucWrite r) (pucRead r) (pucFree r)
    (storage r) (xItemsWaiting r) (xQueueSet r).
Definition with_acquire (p : Z) (r : Ringbuffer_t) : Ringbuffer_t :=
  RB (xType r) (xSize r) (xMaxItemSize r) (uxRingbufferFlags r) p (pucWrite r) (pucRead r) (pucFree r)
    (storage r) (xItemsWaiting r) (xQueueSet r).
Definition with_write (p : Z) (r : Ringbuffer_t) : Ringbuffer_t :=
  RB (xType r) (xSize r) (xMaxItemSize r) (uxRingbufferFlags r) (pucAcquire r) p (pucRead r) (pucFree r)
    (storage r) (xItemsWaiting r) (xQueueSet r).
Definition with_read (p : Z) (r : Ringbuffer_t) : Ringbuffer_t :=
  RB (xType r) (xSize r) (xMaxItemSize r) (uxRingbufferFlags r) (pucAcquire r) (pucWrite r) p (pucFree r)
    (storage r) (xItemsWaiting r) (xQueueSet r).
Definition with_free (p : Z) (r : Ringbuffer_t) : Ringbuffer_t :=
  RB (xType r) (xSize r) (xMaxItemSize r) (uxRingbufferFlags r) (pucAcquire r) (pucWrite r) (pucRead r) p
    (storage r) (xItemsWaiting r) (xQueueSet r).
Definition with_storage (s : list Z) (r : Ringbuffer_t) : Ringbuffer_t :=
  RB (xType r) (xSize r) (xMaxItemSize r) (uxRingbufferFlags r) (pucAcquire r) (pucWrite r) (pucRead r) (pucFree r)
    s (xItemsWaiting r) (xQueueSet r).
Definition with_waiting (n : Z) (r : Ringbuffer_t) : Ringbuffer_t :=
  RB (xType r) (xSize r) (xMaxItemSize r) (uxRingbufferFlags r) (pucAcquire r) (pucWrite r) (pucRead r) (pucFree r)
    (storage r) n (xQueueSet r).
Definition with_queue_set (q : option Z) (r : Ringbuffer_t) : Ringbuffer_t :=
  RB (xType r) (xSize r) (xMaxItemSize r) (uxRingbufferFlags r) (pucAcquire r) (pucWrite r) (pucRead r) (pucFree r)
    (storage r) (xItemsWaiting r) q.

Definition is_full (r : Ringbuffer_t) : bool := has (uxRingbufferFlags r) rbBUFFER_FULL_FLAG.
Definition set_full (r : Ringbuffer_t) : Ringbuffer_t :=
  with_flags (set_flag (uxRingbufferFlags r) rbBUFFER_FULL_FLAG) r.
Definition clear_full (r : Ringbuffer_t) : Ringbuffer_t :=
  with_flags (clear_flag (uxRingbufferFlags r) rbBUFFER_FULL_FLAG) r.

(** ** Memory *)

Definition bytes_at (s : list Z) (p n : Z) : list Z := field s (Z.to_nat p) (Z.to_nat n).

Definition write_bytes (s : list Z) (p : Z) (bs : list Z) : list Z :=
  take (Z.to_nat p) s ++ bs ++ drop (Z.to_nat p + length bs) s.

(** [memcpy] into the storage. *)
Definition store (p : Z) (bs : list Z) (r : Ringbuffer_t) : option Ringbuffer_t :=
  if (0 <=? p) && (p + length bs <=? xSize r) then Some (with_storage (write_bytes (storage r) p bs) r)
  else None.

(** The length and the flags of the header at an offset. *)
Definition header (p : Z) (r : Ringbuffer_t) : option (Z * Z) :=
  if (0 <=? p) && (p + rbHEADER_SIZE <=? xSize r)
  then Some (le_value (bytes_at (storage r) p 4), le_value (bytes_at (storage r) (p + 4) 4))
  else None.

Definition set_header (p len flags : Z) (r : Ringbuffer_t) : option Ringbuffer_t :=
  store p (le_bytes 4 len ++ le_bytes 4 flags) r.

(** ** Initialisation *)

Definition prvInitializeNewRingbuffer (xBufferSize : Z) (xBufferType : RingbufferType_t)
    (pucRingbufferStorage : list Z) : Ringbuffer_t :=
  let max := match xBufferType with
             | RINGBUF_TYPE_NOSPLIT => u32 (rbALIGN_SIZE (xBufferSize / 2) - rbHEADER_SIZE)
             | RINGBUF_TYPE_ALLOWSPLIT => u32 (xBufferSize - rbHEADER_SIZE * 2)
             | RINGBUF_TYPE_BYTEBUF => xBufferSize
             end in
  let flags := match xBufferType with
               | RINGBUF_TYPE_NOSPLIT => 0
               | RINGBUF_TYPE_ALLOWSPLIT => rbALLOW_SPLIT_FLAG
               | RINGBUF_TYPE_BYTEBUF => rbBYTE_BUFFER_FLAG
               end in
  RB xBufferType xBufferSize max flags 0 0 0 0 pucRingbufferStorage 0 None.

(** ** Space *)

Definition prvGetFreeSize (r : Ringbuffer_t) : option Z :=
  let xReturn := if is_full r then 0
                 else let xFreeSize := pucFree r - pucAcquire r in
                      if xFreeSize <=? 0 then xFreeSize + xSize r else xFreeSize in
  assert! xReturn <=? xSize r;; Some xReturn.

Definition prvCheckItemFitsDefault (xItemSize : Z) (r : Ringbuffer_t) : option bool :=
  assert! rbCHECK_ALIGNED (pucAcquire r);;
  assert! (pucHead <=? pucAcquire r) && (pucAcquire r <? pucTail r);;
  let xTotalItemSize := u32 (rbALIGN_SIZE xItemSize + rbHEADER_SIZE) in
  Some (
    if pucAcquire r =? pucFree r then negb (is_full r)
    else if pucAcquire r <? pucFree r then xTotalItemSize <=? u32 (pucFree r - pucAcquire r)
    else if xTotalItemSize <=? u32 (pucTail r - pucAcquire r) then true
    else if has (uxRingbufferFlags r) rbALLOW_SPLIT_FLAG
      then u32 (xTotalItemSize + rbHEADER_SIZE) <=? u32 (xSize r - (pucAcquire r - pucFree r))
      else xTotalItemSize <=? u32 (pucFree r - pucHead)).

Definition prvCheckItemFitsByteBuffer (xItemSize : Z) (r : Ringbuffer_t) : option bool :=
  assert! (pucHead <=? pucAcquire r) && (pucAcquire r <? pucTail r);;
  Some (
    if pucAcquire r =? pucFree r then negb (is_full r)
    else if pucAcquire r <? pucFree r then xItemSize <=? u32 (pucFree r - pucAcquire r)
    else xItemSize <=? u32 (xSize r - (pucAcquire r - pucFree r))).

Definition xCheckItemFits (r : Ringbuffer_t) : Z -> Ringbuffer_t -> option bool :=
  match xType r with
  | RINGBUF_TYPE_BYTEBUF => prvCheckItemFitsByteBuffer
  | _ => prvCheckItemFitsDefault
  end.

(** ** Writing *)

(** The end of the writing functions: wrap around, and the full flag. *)
Definition wrap_acquire (r : Ringbuffer_t) : Ringbuffer_t :=
  if u32 (pucTail r - pucAcquire r) <? rbHEADER_SIZE then with_acquire pucHead r else r.
Definition check_full (r : Ringbuffer_t) : Ringbuffer_t :=
  if pucAcquire r =? pucFree r then set_full r else r.

(** The space for an item, and its address. *)
Definition prvAcquireItemNoSplit (xItemSize : Z) (r : Ringbuffer_t) : option (Ringbuffer_t * Z) :=
  let xAlignedItemSize := rbALIGN_SIZE xItemSize in
  let xRemLen := u32 (pucTail r - pucAcquire r) in
  assert! rbCHECK_ALIGNED (pucAcquire r);;
  assert! (pucHead <=? pucAcquire r) && (pucAcquire r <? pucTail r);;
  assert! rbHEADER_SIZE <=? xRemLen;;
  let! r := (if xRemLen <? u32 (xAlignedItemSize + rbHEADER_SIZE)
             then let! r := set_header (pucAcquire r) 0 rbITEM_DUMMY_DATA_FLAG r in
                  Some (with_acquire pucHead r)
             else Some r) in
  let! r := set_header (pucAcquire r) xItemSize 0 r in
  let item_address := pucAcquire r + rbHEADER_SIZE in
  let r := with_acquire (pucAcquire r + (rbHEADER_SIZE + xAlignedItemSize)) r in
  Some (check_full (wrap_acquire r), item_address).

(** Turns the loops over items may take: every turn but two advances by a
    header at least. *)
Definition item_fuel (r : Ringbuffer_t) : nat := Z.to_nat (xSize r / rbHEADER_SIZE + 3).

(** The loop that advances the write pointer. *)
Fixpoint advance_write (fuel : nat) (r : Ringbuffer_t) : option Ringbuffer_t :=
  match fuel with
  | O => None
  | S fuel =>
      let! (len, flags) := header (pucWrite r) r in
      if (has flags rbITEM_WRITTEN_FLAG || has flags rbITEM_DUMMY_DATA_FLAG) && negb (pucWrite r =? pucAcquire r)
      then
        let! r := (if has flags rbITEM_DUMMY_DATA_FLAG
                   then let! r := set_header (pucWrite r) len (set_flag flags rbITEM_WRITTEN_FLAG) r in
                        Some (with_write pucHead r)
                   else let r := with_write (pucWrite r + u32 (rbALIGN_SIZE len + rbHEADER_SIZE)) r in
                        assert! pucWrite r <=? pucHead + xSize r;; Some r) in
        let r := if u32 (pucTail r - pucWrite r) <? rbHEADER_SIZE then with_write pucHead r else r in
        advance_write fuel r
      else Some r
  end.

Definition prvSendItemDoneNoSplit (pucItem : Z) (r : Ringbuffer_t) : option Ringbuffer_t :=
  assert! rbCHECK_ALIGNED pucItem;;
  assert! pucHead <=? pucItem;;
  assert! pucItem <=? pucTail r;;
  let! (len, flags) := header (pucItem - rbHEADER_SIZE) r in
  assert! len <=? xMaxItemSize r;;
  assert! negb (has flags rbITEM_DUMMY_DATA_FLAG);;
  assert! negb (has flags rbITEM_WRITTEN_FLAG);;
  let! r := set_header (pucItem - rbHEADER_SIZE) len
              (set_flag (clear_flag flags rbITEM_SPLIT_FLAG) rbITEM_WRITTEN_FLAG) r in
  let r := with_waiting (xItemsWaiting r + 1) r in
  advance_write (item_fuel r) r.

Definition prvCopyItemNoSplit (pucItem : list Z) (r : Ringbuffer_t) : option Ringbuffer_t :=
  let! (r, item_addr) := prvAcquireItemNoSplit (length pucItem) r in
  let! r := store item_addr pucItem r in
  prvSendItemDoneNoSplit item_addr r.

(** The first part of an item that does not fit before the end: the buffer,
    and what is left to write. *)
Definition write_first_part (xRemLen : Z) (pucItem : list Z) (xAlignedItemSize : Z) (r : Ringbuffer_t)
    : option (Ringbuffer_t * list Z * Z) :=
  let first := pucAcquire r in
  let xRemLen := u32 (xRemLen - rbHEADER_SIZE) in
  let! r := set_header first xRemLen 0 r in
  let r := with_acquire (pucAcquire r + rbHEADER_SIZE) r in
  if 0 <? xRemLen then
    let! r := store (pucAcquire r) (take (Z.to_nat xRemLen) pucItem) r in
    let r := with_waiting (xItemsWaiting r + 1) r in
    let! r := set_header first xRemLen rbITEM_SPLIT_FLAG r in
    Some (with_acquire pucHead r, drop (Z.to_nat xRemLen) pucItem, u32 (xAlignedItemSize - xRemLen))
  else
    let! r := set_header first xRemLen rbITEM_DUMMY_DATA_FLAG r in
    Some (with_acquire pucHead r, pucItem, xAlignedItemSize).

Definition prvCopyItemAllowSplit (pucItem : list Z) (r : Ringbuffer_t) : option Ringbuffer_t :=
  let xAlignedItemSize := rbALIGN_SIZE (length pucItem) in
  let xRemLen := u32 (pucTail r - pucAcquire r) in
  assert! rbCHECK_ALIGNED (pucAcquire r);;
  assert! (pucHead <=? pucAcquire r) && (pucAcquire r <? pucTail r);;
  assert! rbHEADER_SIZE <=? xRemLen;;
  let! (r, pucItem, xAlignedItemSize) :=
    (if xRemLen <? u32 (xAlignedItemSize + rbHEADER_SIZE)
     then write_first_part xRemLen pucItem xAlignedItemSize r
     else Some (r, pucItem, xAlignedItemSize)) in
  let! r := set_header (pucAcquire r) (length pucItem) 0 r in
  let r := with_acquire (pucAcquire r + rbHEADER_SIZE) r in
  let! r := store (pucAcquire r) pucItem r in
  let r := with_waiting (xItemsWaiting r + 1) r in
  let r := with_acquire (pucAcquire r + xAlignedItemSize) r in
  let r := check_full (wrap_acquire r) in
  Some (with_write (pucAcquire r) r).

Definition prvCopyItemByteBuf (pucItem : list Z) (r : Ringbuffer_t) : option Ringbuffer_t :=
  assert! (pucHead <=? pucAcquire r) && (pucAcquire r <? pucTail r);;
  let xRemLen := u32 (pucTail r - pucAcquire r) in
  let! (r, pucItem) :=
    (if xRemLen <? length pucItem then
       let! r := store (pucAcquire r) (take (Z.to_nat xRemLen) pucItem) r in
       Some (with_acquire pucHead (with_waiting (xItemsWaiting r + xRemLen) r), drop (Z.to_nat xRemLen) pucItem)
     else Some (r, pucItem)) in
  let! r := store (pucAcquire r) pucItem r in
  let r := with_waiting (xItemsWaiting r + length pucItem) r in
  let r := with_acquire (pucAcquire r + length pucItem) r in
  let r := if pucAcquire r =? pucTail r then with_acquire pucHead r else r in
  let r := check_full r in
  Some (with_write (pucAcquire r) r).

Definition vCopyItem (r : Ringbuffer_t) : list Z -> Ringbuffer_t -> option Ringbuffer_t :=
  match xType r with
  | RINGBUF_TYPE_NOSPLIT => prvCopyItemNoSplit
  | RINGBUF_TYPE_ALLOWSPLIT => prvCopyItemAllowSplit
  | RINGBUF_TYPE_BYTEBUF => prvCopyItemByteBuf
  end.

(** ** Reading *)

(** Items to read, but for the outstanding data of a byte buffer. *)
Definition items_to_read (r : Ringbuffer_t) : bool :=
  (0 <? xItemsWaiting r) && (negb (pucRead r =? pucWrite r) || is_full r).

Definition prvCheckItemAvail (r : Ringbuffer_t) : bool :=
  if has (uxRingbufferFlags r) rbBYTE_BUFFER_FLAG && negb (pucRead r =? pucFree r) then false
  else items_to_read r.

(** The address, the size and the split mark of the item. *)
Definition prvGetItemDefault (r : Ringbuffer_t) : option (Ringbuffer_t * (Z * Z * bool)) :=
  let! (len, flags) := header (pucRead r) r in
  assert! items_to_read r;;
  assert! rbCHECK_ALIGNED (pucRead r);;
  assert! (pucHead <=? pucRead r) && (pucRead r <? pucTail r);;
  assert! (len <=? xMaxItemSize r) || has flags rbITEM_DUMMY_DATA_FLAG;;
  let! (r, len, flags) :=
    (if has flags rbITEM_DUMMY_DATA_FLAG then
       let r := with_read pucHead r in
       let! (len, flags) := header (pucRead r) r in
       assert! len <=? xMaxItemSize r;; Some (r, len, flags)
     else Some (r, len, flags)) in
  let pcReturn := pucRead r + rbHEADER_SIZE in
  assert! (if len =? 0 then (pucHead <=? pcReturn) && (pcReturn <=? pucTail r)
           else (pucHead <=? pcReturn) && (pcReturn <? pucTail r));;
  let r := with_waiting (xItemsWaiting r - 1) r in
  let r := with_read (pucRead r + u32 (rbHEADER_SIZE + rbALIGN_SIZE len)) r in
  let r := if u32 (pucTail r - pucRead r) <? rbHEADER_SIZE then with_read pucHead r else r in
  Some (r, (pcReturn, len, has flags rbITEM_SPLIT_FLAG)).

Definition prvGetItemByteBuf (xMaxSize : Z) (r : Ringbuffer_t) : option (Ringbuffer_t * (Z * Z)) :=
  assert! items_to_read r;;
  assert! (pucHead <=? pucRead r) && (pucRead r <? pucTail r);;
  assert! pucRead r =? pucFree r;;
  let ret := pucRead r in
  Some (
    if (pucWrite r <? pucRead r) || is_full r then
      if (xMaxSize =? 0) || (u32 (pucTail r - pucRead r) <=? xMaxSize) then
        (with_read pucHead (with_waiting (xItemsWaiting r - (pucTail r - pucRead r)) r), (ret, pucTail r - pucRead r))
      else (with_read (pucRead r + xMaxSize) (with_waiting (xItemsWaiting r - xMaxSize) r), (ret, xMaxSize))
    else
      if (xMaxSize =? 0) || (u32 (pucWrite r - pucRead r) <=? xMaxSize) then
        (with_read (pucWrite r) (with_waiting (xItemsWaiting r - (pucWrite r - pucRead r)) r), (ret, pucWrite r - pucRead r))
      else (with_read (pucRead r + xMaxSize) (with_waiting (xItemsWaiting r - xMaxSize) r), (ret, xMaxSize))).

(** ** Returning *)

(** The loop that advances the free pointer. *)
Fixpoint advance_free (fuel : nat) (r : Ringbuffer_t) : option Ringbuffer_t :=
  match fuel with
  | O => None
  | S fuel =>
      let! (len, flags) := header (pucFree r) r in
      if (has flags rbITEM_FREE_FLAG || has flags rbITEM_DUMMY_DATA_FLAG) && negb (pucFree r =? pucRead r)
      then
        let! r := (if has flags rbITEM_DUMMY_DATA_FLAG
                   then let! r := set_header (pucFree r) len (set_flag flags rbITEM_FREE_FLAG) r in
                        Some (with_free pucHead r)
                   else let r := with_free (pucFree r + u32 (rbALIGN_SIZE len + rbHEADER_SIZE)) r in
                        assert! pucFree r <=? pucHead + xSize r;; Some r) in
        let r := if u32 (pucTail r - pucFree r) <? rbHEADER_SIZE then with_free pucHead r else r in
        advance_free fuel r
      else Some r
  end.

(** Whether the full flag is reset. *)
Definition reset_full (r : Ringbuffer_t) : Ringbuffer_t :=
  if is_full r then
    if negb (pucFree r =? pucAcquire r) then clear_full r
    else if (pucFree r =? pucAcquire r) && (pucFree r =? pucRead r) then clear_full r
    else r
  else r.

Definition prvReturnItemDefault (pucItem : Z) (r : Ringbuffer_t) : option Ringbuffer_t :=
  assert! rbCHECK_ALIGNED pucItem;;
  assert! pucHead <=? pucItem;;
  assert! pucItem <=? pucTail r;;
  let! (len, flags) := header (pucItem - rbHEADER_SIZE) r in
  assert! len <=? xMaxItemSize r;;
  assert! negb (has flags rbITEM_DUMMY_DATA_FLAG);;
  assert! negb (has flags rbITEM_FREE_FLAG);;
  let! r := set_header (pucItem - rbHEADER_SIZE) len
              (set_flag (clear_flag flags rbITEM_SPLIT_FLAG) rbITEM_FREE_FLAG) r in
  let! r := advance_free (item_fuel r) r in
  Some (reset_full r).

Definition prvReturnItemByteBuf (pucItem : Z) (r : Ringbuffer_t) : option Ringbuffer_t :=
  assert! pucHead <=? pucItem;;
  assert! pucItem <? pucTail r;;
  let r := with_free (pucRead r) r in
  Some (if is_full r then clear_full r else r).

Definition vReturnItem (r : Ringbuffer_t) : Z -> Ringbuffer_t -> option Ringbuffer_t :=
  match xType r with
  | RINGBUF_TYPE_BYTEBUF => prvReturnItemByteBuf
  | _ => prvReturnItemDefault
  end.

(** ** Largest item that can be sent *)

(** [xFreeSize] is compared as signed, then as unsigned. *)
Definition limit_size (xFreeSize : Z) (r : Ringbuffer_t) : Z :=
  if xFreeSize <? 0 then 0 else if xMaxItemSize r <? xFreeSize then xMaxItemSize r else xFreeSize.

Definition prvGetCurMaxSizeNoSplit (r : Ringbuffer_t) : Z :=
  if is_full r then 0
  else
    let xFreeSize :=
      if pucAcquire r <? pucFree r then pucFree r - pucAcquire r
      else let xSize1 := pucTail r - pucAcquire r in
           let xSize2 := pucFree r - pucHead in
           if xSize2 <? xSize1 then xSize1 else xSize2 in
    limit_size (xFreeSize - rbHEADER_SIZE) r.

Definition prvGetCurMaxSizeAllowSplit (r : Ringbuffer_t) : Z :=
  if is_full r then 0
  else
    let xFreeSize :=
      if (pucAcquire r =? pucHead) && (pucFree r =? pucHead) then xSize r - rbHEADER_SIZE
      else if pucAcquire r <? pucFree r then pucFree r - pucAcquire r - rbHEADER_SIZE
      else (pucFree r - pucHead) + (pucTail r - pucAcquire r) - rbHEADER_SIZE * 2 in
    limit_size xFreeSize r.

Definition prvGetCurMaxSizeByteBuf (r : Ringbuffer_t) : Z :=
  if is_full r then 0
  else let xFreeSize := pucFree r - pucAcquire r in
       if xFreeSize <=? 0 then xFreeSize + xSize r else xFreeSize.

Definition xGetCurMaxSize (r : Ringbuffer_t) : Z :=
  match xType r with
  | RINGBUF_TYPE_NOSPLIT => prvGetCurMaxSizeNoSplit r
  | RINGBUF_TYPE_ALLOWSPLIT => prvGetCurMaxSizeAllowSplit r
  | RINGBUF_TYPE_BYTEBUF => prvGetCurMaxSizeByteBuf r
  end.

(** ** Generic calls *)

(** One pass of the loop of [prvSendAcquireGeneric] that copies an item. *)
Definition send_generic (pvItem : list Z) (r : Ringbuffer_t) : option (Ringbuffer_t * bool) :=
  let! fits := xCheckItemFits r (length pvItem) r in
  if fits then let! r := vCopyItem r pvItem r in Some (r, true) else Some (r, false).

(** One pass of the same loop that acquires space: the address, if any. *)
Definition acquire_generic (xItemSize : Z) (r : Ringbuffer_t) : option (Ringbuffer_t * option Z) :=
  let! fits := xCheckItemFits r xItemSize r in
  if fits then let! (r, p) := prvAcquireItemNoSplit xItemSize r in Some (r, Some p) else Some (r, None).

(** What a retrieval gives: an address and a size, and those of a second part. *)
Record received := Received { item1 : Z * Z; item2 : option (Z * Z) }.

(** One pass of [prvReceiveGeneric], and [prvReceiveGenericFromISR]; [second]
    says that the caller gave [pvItem2] and [xItemSize2]. *)
Definition prvReceiveGeneric (second : bool) (xMaxSize : Z) (r : Ringbuffer_t)
    : option (Ringbuffer_t * option received) :=
  if prvCheckItemAvail r then
    let! (r, it1, xIsSplit) :=
      (if has (uxRingbufferFlags r) rbBYTE_BUFFER_FLAG then
         let! (r, it) := prvGetItemByteBuf xMaxSize r in Some (r, it, false)
       else let! (r, (p, n, xIsSplit)) := prvGetItemDefault r in Some (r, (p, n), xIsSplit)) in
    if has (uxRingbufferFlags r) rbALLOW_SPLIT_FLAG then
      assert! second;;
      if xIsSplit then
        let! (r, (p2, n2, xIsSplit)) := prvGetItemDefault r in
        assert! p2 <? fst it1;;
        assert! negb xIsSplit;;
        Some (r, Some (Received it1 (Some (p2, n2))))
      else Some (r, Some (Received it1 None))
    else Some (r, Some (Received it1 None))
  else Some (r, None).

(** ** Public calls *)

Section Create.
  (** The heap: the bytes of a new block, or nothing. *)
  Context (malloc : Z -> option (list Z)) (calloc : bool).

Definition xRingbufferCreate (xBufferSize : Z) (xBufferType : RingbufferType_t) : option (option Ringbuffer_t) :=
  assert! 0 <? xBufferSize;;
  let xBufferSize := match xBufferType with
                     | RINGBUF_TYPE_BYTEBUF => xBufferSize
                     | _ => rbALIGN_SIZE xBufferSize
                     end in
  match malloc xBufferSize with
  | Some s => if calloc then Some (Some (prvInitializeNewRingbuffer xBufferSize xBufferType s)) else Some None
  | None => Some None
  end.

Definition xRingbufferCreateNoSplit (xItemSize xItemNum : Z) : option (option Ringbuffer_t) :=
  xRingbufferCreate (u32 (u32 (rbALIGN_SIZE xItemSize + rbHEADER_SIZE) * xItemNum)) RINGBUF_TYPE_NOSPLIT.

End Create.

Definition xRingbufferCreateStatic (xBufferSize : Z) (xBufferType : RingbufferType_t) (s : list Z) : option Ringbuffer_t :=
  assert! 0 <? xBufferSize;;
  assert! (match xBufferType with RINGBUF_TYPE_BYTEBUF => true | _ => rbCHECK_ALIGNED xBufferSize end);;
  let r := prvInitializeNewRingbuffer xBufferSize xBufferType s in
  Some (with_flags (set_flag (uxRingbufferFlags r) rbBUFFER_STATIC_FLAG) r).

(** [heap_caps_malloc] is a parameter here as well. *)
Definition xRingbufferCreateWithCaps (heap_caps_malloc : Z -> option (list Z)) (static_ok : bool) (xBufferSize : Z)
    (xBufferType : RingbufferType_t) : option (option Ringbuffer_t) :=
  match heap_caps_malloc xBufferSize with
  | Some s => if static_ok
              then let! r := xRingbufferCreateStatic xBufferSize xBufferType s in Some (Some r)
              else Some None
  | None => Some None
  end.

(** [xRingbufferSend] and [xRingbufferSendFromISR] *)
Definition xRingbufferSend (pvItem : list Z) (r : Ringbuffer_t) : option (Ringbuffer_t * bool) :=
  if xMaxItemSize r <? length pvItem then Some (r, false)
  else if has (uxRingbufferFlags r) rbBYTE_BUFFER_FLAG && (length pvItem =? 0) then Some (r, true)
  else send_generic pvItem r.

Definition no_split_only (r : Ringbuffer_t) : bool :=
  negb (has (uxRingbufferFlags r) (Z.lor rbBYTE_BUFFER_FLAG rbALLOW_SPLIT_FLAG)).

Definition xRingbufferSendAcquire (xItemSize : Z) (r : Ringbuffer_t) : option (Ringbuffer_t * option Z) :=
  assert! no_split_only r;;
  if xMaxItemSize r <? xItemSize then Some (r, None)
  else acquire_generic xItemSize r.

Definition xRingbufferSendComplete (pvItem : Z) (r : Ringbuffer_t) : option Ringbuffer_t :=
  assert! no_split_only r;; prvSendItemDoneNoSplit pvItem r.

(** [xRingbufferReceive] and [xRingbufferReceiveFromISR] *)
Definition xRingbufferReceive (r : Ringbuffer_t) : option (Ringbuffer_t * option received) :=
  prvReceiveGeneric false 0 r.

Definition xRingbufferReceiveSplit (r : Ringbuffer_t) : option (Ringbuffer_t * option received) :=
  assert! has (uxRingbufferFlags r) rbALLOW_SPLIT_FLAG;; prvReceiveGeneric true 0 r.

Definition xRingbufferReceiveUpTo (xMaxSize : Z) (r : Ringbuffer_t) : option (Ringbuffer_t * option received) :=
  assert! has (uxRingbufferFlags r) rbBYTE_BUFFER_FLAG;;
  if xMaxSize =? 0 then Some (r, None) else prvReceiveGeneric false xMaxSize r.

Definition vRingbufferReturnItem (pvItem : Z) (r : Ringbuffer_t) : option Ringbuffer_t := vReturnItem r pvItem r.

Definition xRingbufferGetMaxItemSize (r : Ringbuffer_t) : Z := xMaxItemSize r.
Definition xRingbufferGetCurFreeSize (r : Ringbuffer_t) : Z := xGetCurMaxSize r.

Definition xRingbufferAddToQueueSetRead (q : Z) (r : Ringbuffer_t) : Ringbuffer_t * bool :=
  if negb (bool_decide (xQueueSet r = None)) || prvCheckItemAvail r then (r, false)
  else (with_queue_set (Some q) r, true).

Definition xRingbufferRemoveFromQueueSetRead (q : Z) (r : Ringbuffer_t) : Ringbuffer_t * bool :=
  if negb (bool_decide (xQueueSet r = Some q)) || prvCheckItemAvail r then (r, false)
  else (with_queue_set None r, true).

(** Free, read, write and acquire offsets, and the items waiting. *)
Definition vRingbufferGetInfo (r : Ringbuffer_t) : Z * Z * Z * Z * Z :=
  (pucFree r, pucRead r, pucWrite r, pucAcquire r, xItemsWaiting r).

Definition xRingbufferGetStaticBuffer (r : Ringbuffer_t) : bool := has (uxRingbufferFlags r) rbBUFFER_STATIC_FLAG.

(** ** Lemmas on the storage and the flags *)

(** Reads the fields of an updated buffer. *)
Ltac rb_simpl := cbn [with_flags with_acquire with_write with_read with_free with_storage with_waiting with_queue_set
  xType xSize xMaxItemSize uxRingbufferFlags pucAcquire pucWrite pucRead pucFree storage xItemsWaiting xQueueSet] in *.

Lemma store_ok p bs r :
  0 <= p -> p + length bs <= xSize r -> store p bs r = Some (with_storage (write_bytes (storage r) p bs) r).
Proof.
  intros Hp Hb. unfold store.
  by rewrite (proj2 (andb_true_iff _ _)) by (split; apply Z.leb_le; lia).
Qed.

Definition at_ (s : list Z) (k : Z) : Z := s !!! Z.to_nat k.

Lemma write_bytes_length s p bs :
  0 <= p -> p + length bs <= length s -> length (write_bytes s p bs) = length s.
Proof. intros Hp Hl. unfold write_bytes. rewrite !length_app, length_take, length_drop. lia. Qed.

Lemma write_bytes_at s p bs k :
  0 <= p -> p + length bs <= length s -> 0 <= k ->
  at_ (write_bytes s p bs) k = if (p <=? k) && (k <? p + length bs) then at_ bs (k - p) else at_ s k.
Proof.
  intros Hp Hl Hk. unfold at_, write_bytes. rewrite !list_lookup_total_alt.
  destruct (Z.leb_spec p k); cbn [andb]; [destruct (Z.ltb_spec k (p + length bs))|].
  - rewrite lookup_app_r by (rewrite length_take; lia). rewrite lookup_app_l by (rewrite length_take; lia).
    do 2 f_equal. rewrite length_take. lia.
  - rewrite lookup_app_r by (rewrite length_take; lia). rewrite lookup_app_r by (rewrite length_take; lia).
    rewrite lookup_drop. do 2 f_equal. rewrite length_take. lia.
  - rewrite lookup_app_l by (rewrite length_take; lia). by rewrite lookup_take_lt by lia.
Qed.

Lemma bytes_at_length s p n : 0 <= p -> 0 <= n -> p + n <= length s -> length (bytes_at s p n) = Z.to_nat n.
Proof. intros Hp Hn Hl. unfold bytes_at, field. rewrite length_take, length_drop. lia. Qed.

Lemma bytes_at_at s p n k : 0 <= p -> 0 <= k < n -> p + n <= length s -> at_ (bytes_at s p n) k = at_ s (p + k).
Proof.
  intros Hp Hk Hl. unfold at_, bytes_at, field. rewrite !list_lookup_total_alt.
  rewrite lookup_take_lt by lia. rewrite lookup_drop. do 2 f_equal. lia.
Qed.

(** Lists of bytes are equal when they agree at every offset. *)
Lemma list_eq_at (l l' : list Z) :
  length l = length l' -> (forall k, 0 <= k < length l -> at_ l k = at_ l' k) -> l = l'.
Proof.
  intros Hl H. apply list_eq. intros i. destruct (decide (i < length l)%nat) as [Hi|Hi].
  - specialize (H i ltac:(lia)). unfold at_ in H. rewrite Nat2Z.id in H.
    rewrite (list_lookup_lookup_total_lt l), (list_lookup_lookup_total_lt l') by lia. by rewrite H.
  - rewrite !lookup_ge_None_2 by lia. done.
Qed.

Lemma at_app_l l l' k : 0 <= k < length l -> at_ (l ++ l') k = at_ l k.
Proof. intros Hk. unfold at_. rewrite lookup_total_app_l by lia. done. Qed.

Lemma at_app_r l l' k : length l <= k -> at_ (l ++ l') k = at_ l' (k - length l).
Proof. intros Hk. unfold at_. rewrite lookup_total_app_r by lia. f_equal. lia. Qed.

Lemma at_take l n k : 0 <= k < n -> at_ (take (Z.to_nat n) l) k = at_ l k.
Proof. intros Hk. unfold at_. rewrite !list_lookup_total_alt, lookup_take_lt by lia. done. Qed.

Lemma at_drop l n k : 0 <= n -> 0 <= k -> at_ (drop (Z.to_nat n) l) k = at_ l (n + k).
Proof. intros Hn Hk. unfold at_. rewrite !list_lookup_total_alt, lookup_drop. do 2 f_equal. lia. Qed.

Lemma has_set f g g' : has (set_flag f g) g' = has f g' || has g g'.
Proof.
  unfold has, set_flag. rewrite Z.land_lor_distr_l.
  destruct (Z.eqb_spec (Z.lor (Z.land f g') (Z.land g g')) 0) as [E|E].
  - apply Z.lor_eq_0_iff in E as [-> ->]. done.
  - destruct (Z.eqb_spec (Z.land f g') 0) as [E1|]; [|done].
    destruct (Z.eqb_spec (Z.land g g') 0) as [E2|]; [|done]. by rewrite E1, E2 in E.
Qed.

Lemma has_clear_other f g g' : Z.land g g' = 0 -> has (clear_flag f g) g' = has f g'.
Proof.
  intros E. unfold has, clear_flag. do 2 f_equal. apply Z.bits_inj'. intros i Hi.
  assert (Hb : Z.testbit (Z.land g g') i = false) by (by rewrite E, Z.bits_0).
  rewrite !Z.land_spec, Z.lnot_spec by lia. rewrite Z.land_spec in Hb.
  destruct (Z.testbit f i), (Z.testbit g i), (Z.testbit g' i); done.
Qed.

Lemma has_clear_same f g : has (clear_flag f g) g = false.
Proof.
  unfold has, clear_flag. rewrite <- Z.land_assoc, (Z.land_comm (Z.lnot g)), Z.land_lnot_diag, Z.land_0_r. done.
Qed.
