(* ===== verification/RingByte.v ===== *)
(** * Byte buffers are queues of bytes ([components/esp_ringbuf/ringbuf.c])

    A byte buffer is related to the bytes its client holds and the bytes that
    wait, in this order from the free pointer on. Every call that does not wait
    implements the queue. *)

From S2P Require Import Prelude RingBuf.

#[local] Open Scope abort_scope.

(** ** Positions of the ring *)

(** [x] modulo [size], for [x] below two turns. *)
Definition ring_pos (size x : Z) : Z := if x <? size then x else x - size.

Lemma ring_pos_range size x : 0 <= x < 2 * size -> 0 <= ring_pos size x < size.
Proof. intros Hx. unfold ring_pos. destruct (Z.ltb_spec x size); lia. Qed.

Lemma ring_pos_small size x : x < size -> ring_pos size x = x.
Proof. intros Hx. unfold ring_pos. destruct (Z.ltb_spec x size); lia. Qed.

Lemma ring_pos_wrap size x : size <= x -> ring_pos size x = x - size.
Proof. intros Hx. unfold ring_pos. destruct (Z.ltb_spec x size); lia. Qed.

(** The copy in one or two pieces. *)
Definition ring_write (size : Z) (s : list Z) (p : Z) (bs : list Z) : list Z :=
  if size - p <? length bs
  then write_bytes (write_bytes s p (take (Z.to_nat (size - p)) bs)) 0 (drop (Z.to_nat (size - p)) bs)
  else write_bytes s p bs.

Lemma ring_write_length size s p bs :
  length s = Z.to_nat size -> 0 <= p < size -> length bs <= size -> length (ring_write size s p bs) = length s.
Proof.
  intros Hs Hp Hb. unfold ring_write. destruct (Z.ltb_spec (size - p) (length bs)).
  - rewrite write_bytes_length; rewrite ?write_bytes_length; rewrite ?length_take, ?length_drop; lia.
  - apply write_bytes_length; lia.
Qed.

Lemma ring_write_at size s p bs i :
  length s = Z.to_nat size -> 0 <= p < size -> length bs <= size -> 0 <= i < size ->
  at_ (ring_write size s p bs) (ring_pos size (p + i)) =
    if i <? length bs then at_ bs i else at_ s (ring_pos size (p + i)).
Proof.
  intros Hs Hp Hb Hi. pose proof (ring_pos_range size (p + i) ltac:(lia)) as Hr.
  unfold ring_write. destruct (Z.ltb_spec (size - p) (length bs)) as [Hw|Hw].
  - rewrite write_bytes_at by (rewrite ?write_bytes_length; rewrite ?length_take, ?length_drop; lia).
    rewrite write_bytes_at by (rewrite ?length_take; lia). rewrite length_take, length_drop.
    unfold ring_pos in *. destruct (Z.ltb_spec (p + i) size).
    + rewrite (proj2 (andb_false_iff _ _)) by (right; apply Z.ltb_ge; lia).
      rewrite (proj2 (andb_true_iff _ _)) by (split; [apply Z.leb_le|apply Z.ltb_lt]; lia).
      rewrite at_take by lia. rewrite (proj2 (Z.ltb_lt i (length bs))) by lia. f_equal. lia.
    + destruct (Z.ltb_spec i (length bs)).
      * rewrite (proj2 (andb_true_iff _ _)) by (split; [apply Z.leb_le|apply Z.ltb_lt]; lia).
        rewrite at_drop by lia. f_equal. lia.
      * rewrite (proj2 (andb_false_iff _ _)) by (right; apply Z.ltb_ge; lia).
        rewrite (proj2 (andb_false_iff _ _)); [done|]. left. apply Z.leb_gt. lia.
  - rewrite write_bytes_at by lia. unfold ring_pos in *. destruct (Z.ltb_spec (p + i) size).
    + destruct (Z.ltb_spec i (length bs)).
      * rewrite (proj2 (andb_true_iff _ _)) by (split; [apply Z.leb_le|apply Z.ltb_lt]; lia). f_equal. lia.
      * rewrite (proj2 (andb_false_iff _ _)); [done|]. right. apply Z.ltb_ge. lia.
    + rewrite (proj2 (andb_false_iff _ _)) by (left; apply Z.leb_gt; lia).
      rewrite (proj2 (Z.ltb_ge i (length bs))) by lia. done.
Qed.

(** ** The representation *)

(** [h]: bytes received and not returned; [q]: bytes that wait. *)
Record byte_repr (r : Ringbuffer_t) (h q : list Z) : Prop := ByteRepr {
  br_type : xType r = RINGBUF_TYPE_BYTEBUF;
  br_byte : has (uxRingbufferFlags r) rbBYTE_BUFFER_FLAG = true;
  br_split : has (uxRingbufferFlags r) rbALLOW_SPLIT_FLAG = false;
  br_size : 0 < xSize r < 2 ^ 31;
  br_max : xMaxItemSize r = xSize r;
  br_len : length (storage r) = Z.to_nat (xSize r);
  br_free : 0 <= pucFree r < xSize r;
  br_cap : length h + length q <= xSize r;
  br_full : is_full r = (length h + length q =? xSize r);
  br_read : pucRead r = ring_pos (xSize r) (pucFree r + length h);
  br_acq : pucAcquire r = ring_pos (xSize r) (pucFree r + length h + length q);
  br_write : pucWrite r = pucAcquire r;
  br_items : xItemsWaiting r = length q;
  br_data : forall i, 0 <= i < length h + length q ->
    at_ (storage r) (ring_pos (xSize r) (pucFree r + i)) = at_ (h ++ q) i;
}.

Lemma repr_acquire_range r h q : byte_repr r h q -> 0 <= pucAcquire r < xSize r.
Proof.
  intros H. rewrite (br_acq _ _ _ H). apply ring_pos_range.
  pose proof (br_free _ _ _ H). pose proof (br_cap _ _ _ H). pose proof (br_size _ _ _ H). lia.
Qed.

(** The data after a copy. *)
Lemma repr_data_app r h q bs s :
  byte_repr r h q -> length h + length q + length bs <= xSize r ->
  s = ring_write (xSize r) (storage r) (pucAcquire r) bs ->
  forall i, 0 <= i < length h + length (q ++ bs) ->
    at_ s (ring_pos (xSize r) (pucFree r + i)) = at_ (h ++ q ++ bs) i.
Proof.
  intros H Hc -> i Hi. rewrite length_app in Hi. pose proof (repr_acquire_range _ _ _ H) as Ha.
  destruct H as [_ _ _ Hsz _ Hl Hf _ _ _ Hacq _ _ Hd].
  set (used := length h + length q) in *.
  rewrite app_assoc. destruct (Z.ltb_spec i used) as [Hlt|Hge].
  - rewrite at_app_l by (rewrite length_app; lia). rewrite <- Hd by lia.
    assert (Hpos : ring_pos (xSize r) (pucFree r + i) = ring_pos (xSize r) (pucAcquire r + (i - used + xSize r))).
    { rewrite Hacq. unfold ring_pos. repeat case_test; to_prop; lia. }
    rewrite Hpos, ring_write_at by lia. rewrite (proj2 (Z.ltb_ge _ _)) by lia. done.
  - rewrite at_app_r by (rewrite length_app; lia).
    assert (Hpos : ring_pos (xSize r) (pucFree r + i) = ring_pos (xSize r) (pucAcquire r + (i - used))).
    { rewrite Hacq. unfold ring_pos. repeat case_test; to_prop; lia. }
    rewrite Hpos, ring_write_at by lia. rewrite (proj2 (Z.ltb_lt _ _)) by lia. f_equal. rewrite length_app. lia.
Qed.

(** ** Sending *)

(** The buffer after a copy. *)
Definition copied (bs : list Z) (r : Ringbuffer_t) : Ringbuffer_t :=
  let a := ring_pos (xSize r) (pucAcquire r + length bs) in
  with_write a (check_full (with_acquire a (with_waiting (xItemsWaiting r + length bs)
    (with_storage (ring_write (xSize r) (storage r) (pucAcquire r) bs) r)))).

Lemma copy_bytes r bs :
  0 < xSize r < 2 ^ 31 -> 0 <= pucAcquire r < xSize r -> 0 < length bs <= xSize r ->
  prvCopyItemByteBuf bs r = Some (copied bs r).
Proof.
  intros Hs Ha Hb. unfold prvCopyItemByteBuf, copied, ring_write, pucHead, pucTail.
  rewrite (proj2 (andb_true_iff _ _)) by (split; [apply Z.leb_le|apply Z.ltb_lt]; lia).
  rewrite u32_small by lia. cbv zeta.
  assert (Hend : forall r0 st, r0 = with_acquire (ring_pos (xSize r) (pucAcquire r + length bs))
        (with_waiting (xItemsWaiting r + length bs) (with_storage st r)) ->
    with_write (pucAcquire (check_full r0)) (check_full r0) = with_write (ring_pos (xSize r) (pucAcquire r + length bs))
      (check_full (with_acquire (ring_pos (xSize r) (pucAcquire r + length bs))
        (with_waiting (xItemsWaiting r + length bs) (with_storage st r))))).
  { intros r0 st ->. unfold check_full. by case_match. }
  destruct (Z.ltb_spec (xSize r - pucAcquire r) (length bs)) as [Hw|Hw].
  - rewrite store_ok by (rewrite ?length_take; lia).
    rewrite store_ok by (rb_simpl; rewrite ?length_drop; lia).
    rb_simpl. rewrite (proj2 (Z.eqb_neq _ _)) by (rewrite length_drop; lia).
    f_equal. apply Hend. unfold with_acquire, with_waiting, with_storage. rb_simpl.
    rewrite length_drop, ring_pos_wrap by lia. f_equal; lia.
  - rewrite store_ok by lia. rb_simpl. f_equal.
    destruct (Z.eqb_spec (pucAcquire r + length bs) (xSize r)); rb_simpl; apply Hend;
      unfold with_acquire, with_waiting, with_storage; rb_simpl.
    + rewrite ring_pos_wrap by lia. f_equal. lia.
    + by rewrite ring_pos_small by lia.
Qed.

Lemma is_full_set r : is_full (set_full r) = true.
Proof. unfold is_full, set_full. rb_simpl. rewrite has_set. by rewrite orb_true_r. Qed.

Lemma is_full_clear r : is_full (clear_full r) = false.
Proof. unfold is_full, clear_full. rb_simpl. apply has_clear_same. Qed.

Lemma copied_repr r h q bs :
  byte_repr r h q -> 0 < length bs -> length h + length q + length bs <= xSize r ->
  byte_repr (copied bs r) h (q ++ bs).
Proof.
  intros H Hb Hc. pose proof (repr_data_app r h q bs _ H Hc eq_refl) as Hd.
  pose proof (repr_acquire_range _ _ _ H) as Ha.
  destruct H as [Ht Hby Hsp Hsz Hm Hl Hf Hcap Hfull Hr Hacq Hw Hi _].
  set (a := ring_pos (xSize r) (pucAcquire r + length bs)).
  assert (Ea : a = ring_pos (xSize r) (pucFree r + length h + length (q ++ bs))).
  { unfold a. rewrite length_app, Hacq. unfold ring_pos. repeat case_test; to_prop; lia. }
  assert (Hfl : (a =? pucFree r) = (length h + length (q ++ bs) =? xSize r)).
  { apply eq_true_iff_eq. rewrite !Z.eqb_eq, Ea. rewrite length_app. unfold ring_pos. case_test; to_prop; lia. }
  assert (Hnf : is_full r = false) by (rewrite Hfull; apply Z.eqb_neq; lia).
  unfold copied. fold a. cbv zeta. unfold check_full. rb_simpl. rewrite Hfl.
  destruct (Z.eqb_spec (length h + length (q ++ bs)) (xSize r)) as [E|E]; unfold set_full; split; unfold is_full in *; rb_simpl;
    rewrite ?has_set, ?Hby, ?Hsp; try done; try (rewrite ring_write_length; lia); rewrite ?length_app in *; try lia.
  - rewrite orb_true_r. symmetry. apply Z.eqb_eq. lia.
  - rewrite Hnf. symmetry. apply Z.eqb_neq. lia.
Qed.

Lemma byte_fits r h q n :
  byte_repr r h q -> 0 < n <= xSize r ->
  xCheckItemFits r n r = Some (length h + length q + n <=? xSize r).
Proof.
  intros H Hn. pose proof (repr_acquire_range _ _ _ H) as Ha.
  destruct H as [Ht _ _ Hsz _ _ Hf Hcap Hfull _ Hacq _ _ _].
  unfold xCheckItemFits. rewrite Ht. unfold prvCheckItemFitsByteBuffer, pucHead, pucTail.
  rewrite (proj2 (andb_true_iff _ _)) by (split; [apply Z.leb_le|apply Z.ltb_lt]; lia). f_equal.
  rewrite Hfull. unfold ring_pos in Hacq.
  destruct (Z.eqb_spec (pucAcquire r) (pucFree r)), (Z.ltb_spec (pucAcquire r) (pucFree r)); rewrite ?u32_small by lia;
    apply eq_true_iff_eq; rewrite ?negb_true_iff, ?Z.eqb_neq, ?Z.leb_le; case_test; to_prop; lia.
Qed.

Lemma send_byte r h q bs :
  byte_repr r h q ->
  exists r', xRingbufferSend bs r = Some (r', length h + length q + length bs <=? xSize r) /\
    byte_repr r' h (if length h + length q + length bs <=? xSize r then q ++ bs else q) /\
    pucFree r' = pucFree r /\ xSize r' = xSize r.
Proof.
  intros H. unfold xRingbufferSend. rewrite (br_max _ _ _ H), (br_byte _ _ _ H). cbn [andb].
  pose proof (br_cap _ _ _ H) as Hcap. pose proof (br_size _ _ _ H) as Hsz.
  destruct (Z.ltb_spec (xSize r) (length bs)) as [Hm|Hm].
  { exists r. rewrite (proj2 (Z.leb_gt _ _)) by lia. done. }
  destruct (Z.eqb_spec (length bs) 0) as [E|E].
  { exists r. rewrite (proj2 (Z.leb_le _ _)) by lia. destruct bs; [by rewrite app_nil_r|cbn in E; lia]. }
  unfold send_generic. rewrite (byte_fits r h q) by (done || lia).
  destruct (Z.leb_spec (length h + length q + length bs) (xSize r)) as [Hc|Hc]; [|by exists r].
  unfold vCopyItem. rewrite (br_type _ _ _ H), copy_bytes by (first [by apply (repr_acquire_range _ _ _ H)|lia]).
  exists (copied bs r). split; [done|]. split; [apply copied_repr; (done || lia)|].
  unfold copied, check_full. by case_match.
Qed.

(** ** Receiving *)

(** The bytes that wait and are contiguous. *)
Definition contiguous (r : Ringbuffer_t) (q : list Z) : Z := Z.min (length q) (xSize r - pucRead r).

Definition received_size (xMaxSize : Z) (r : Ringbuffer_t) (q : list Z) : Z :=
  if xMaxSize =? 0 then contiguous r q else Z.min xMaxSize (contiguous r q).

Lemma byte_avail r h q : byte_repr r h q ->
  prvCheckItemAvail r = (length h =? 0) && (0 <? length q).
Proof.
  intros [_ Hby _ Hsz _ _ Hf Hcap Hfull Hr Hacq Hw Hi _]. unfold prvCheckItemAvail, items_to_read.
  rewrite Hby, Hfull, Hi, Hr, Hw, Hacq. cbn [andb]. unfold ring_pos.
  apply eq_true_iff_eq. repeat case_test; to_prop; rewrite ?andb_true_iff, ?orb_true_iff, ?negb_true_iff,
    ?Z.ltb_lt, ?Z.eqb_eq, ?Z.eqb_neq; try lia; split; intros; try lia; try done.
Qed.

(** The buffer after [n] bytes have been taken. *)
Definition taken (n : Z) (r : Ringbuffer_t) : Ringbuffer_t :=
  with_read (ring_pos (xSize r) (pucRead r + n)) (with_waiting (xItemsWaiting r - n) r).

Lemma get_bytes r q m :
  byte_repr r [] q -> 0 < length q -> 0 <= m ->
  prvGetItemByteBuf m r = Some (taken (received_size m r q) r, (pucRead r, received_size m r q)).
Proof.
  intros H Hq Hm. pose proof (byte_avail _ _ _ H) as Hav.
  destruct H as [Ht Hby _ Hsz _ _ Hf Hcap Hfull Hr Hacq Hw Hi _].
  change (length (@nil Z) : Z) with 0 in *. rewrite (proj2 (Z.ltb_lt _ _) Hq) in Hav.
  rewrite Z.add_0_r in *. rewrite Z.add_0_l in *. rewrite ring_pos_small in Hr by lia.
  unfold prvCheckItemAvail in Hav. rewrite Hby, Hr, Z.eqb_refl in Hav. change (items_to_read r = true) in Hav.
  unfold prvGetItemByteBuf, pucHead, pucTail. rewrite Hav, Hr, Z.eqb_refl.
  rewrite (proj2 (andb_true_iff _ _)) by (split; [apply Z.leb_le|apply Z.ltb_lt]; lia). f_equal.
  rewrite Hfull, Hw. unfold taken, received_size, contiguous. rewrite Hr.
  assert (Hwrap : ((pucAcquire r <? pucFree r) || (length q =? xSize r) = true /\ xSize r - pucFree r <= length q) \/
    ((pucAcquire r <? pucFree r) || (length q =? xSize r) = false /\ length q < xSize r - pucFree r /\
     pucAcquire r = pucFree r + length q)).
  { rewrite Hacq. unfold ring_pos. rewrite orb_true_iff, orb_false_iff, Z.ltb_lt, Z.ltb_ge, Z.eqb_eq, Z.eqb_neq.
    case_test; to_prop; lia. }
  destruct Hwrap as [[-> Hc]|(-> & Hc & Ea)].
  - rewrite u32_small by lia. rewrite (Z.min_r (length q)) by lia.
    destruct (Z.eqb_spec m 0); cbn [orb]; [|destruct (Z.leb_spec (xSize r - pucFree r) m)].
    + rewrite ring_pos_wrap by lia. do 3 f_equal; lia.
    + rewrite (Z.min_r m), ring_pos_wrap by lia. do 3 f_equal; lia.
    + rewrite (Z.min_l m), ring_pos_small by lia. done.
  - rewrite Ea, u32_small by lia. rewrite (Z.min_l (length q)) by lia.
    replace (pucFree r + length q - pucFree r) with (length q : Z) by lia.
    destruct (Z.eqb_spec m 0); cbn [orb]; [|destruct (Z.leb_spec (length q) m)].
    + rewrite ring_pos_small by lia. done.
    + rewrite (Z.min_r m), ring_pos_small by lia. done.
    + rewrite (Z.min_l m), ring_pos_small by lia. done.
Qed.

Lemma taken_repr r q n :
  byte_repr r [] q -> 0 < n <= contiguous r q ->
  byte_repr (taken n r) (take (Z.to_nat n) q) (drop (Z.to_nat n) q) /\
  bytes_at (storage r) (pucRead r) n = take (Z.to_nat n) q.
Proof.
  intros [Ht Hby Hsp Hsz Hmx Hl Hf Hcap Hfull Hr Hacq Hw Hi Hd] Hn. unfold contiguous in Hn.
  change (length (@nil Z) : Z) with 0 in *. rewrite Z.add_0_r in *. rewrite Z.add_0_l in *.
  pose proof (ring_pos_small (xSize r) (pucFree r) ltac:(lia)) as Er. rewrite Er in Hr.
  assert (Hlt : length (take (Z.to_nat n) q) = Z.to_nat n) by (rewrite length_take; lia).
  assert (Hld : length (drop (Z.to_nat n) q) = (length q - Z.to_nat n)%nat) by apply length_drop.
  split.
  - unfold taken. split; unfold is_full in *; rb_simpl; rewrite ?Hlt, ?Hld; try done; try lia.
    + rewrite Hfull. f_equal. lia.
    + rewrite Hr. f_equal. lia.
    + rewrite Hacq. f_equal. lia.
    + rewrite take_drop. intros i Hi'. apply (Hd i). lia.
  - apply list_eq_at; rewrite bytes_at_length by lia; [by rewrite Hlt|]. intros k Hk.
    rewrite bytes_at_at, at_take by lia. specialize (Hd k ltac:(lia)). change ([] ++ q) with q in Hd.
    rewrite <- Hd, ring_pos_small, Hr by lia. done.
Qed.

(** A reception with a limit [m] ([0]: no limit). *)
Lemma receive_byte r h q m : byte_repr r h q -> 0 <= m ->
  prvReceiveGeneric false m r =
    if (length h =? 0) && (0 <? length q)
    then Some (taken (received_size m r q) r, Some (Received (pucRead r, received_size m r q) None))
    else Some (r, None).
Proof.
  intros H Hm. unfold prvReceiveGeneric. rewrite (byte_avail r h q H), (br_byte _ _ _ H).
  destruct (Z.eqb_spec (length h) 0) as [Eh|]; cbn [andb]; [|done].
  destruct (Z.ltb_spec 0 (length q)); [|done]. destruct h; [|cbn in Eh; lia].
  rewrite (get_bytes r q m) by (done || lia). cbv zeta iota beta.
  change (uxRingbufferFlags (taken (received_size m r q) r)) with (uxRingbufferFlags r). by rewrite (br_split _ _ _ H).
Qed.

Lemma received_size_bound r h q m :
  byte_repr r h q -> h = [] -> 0 < length q -> 0 <= m -> 0 < received_size m r q <= contiguous r q.
Proof.
  intros H -> Hq Hm. pose proof (br_free _ _ _ H). pose proof (br_read _ _ _ H) as Hr. cbn in Hr.
  rewrite ring_pos_small in Hr by lia. unfold received_size, contiguous.
  destruct (Z.eqb_spec m 0); lia.
Qed.

(** ** Returning *)

Lemma cleared_flags r : exists f,
  (if is_full r then clear_full r else r) = with_flags f r /\ has f rbBUFFER_FULL_FLAG = false /\
  forall g, Z.land rbBUFFER_FULL_FLAG g = 0 -> has f g = has (uxRingbufferFlags r) g.
Proof.
  destruct (is_full r) eqn:E.
  - exists (clear_flag (uxRingbufferFlags r) rbBUFFER_FULL_FLAG). split; [done|]. split; [apply has_clear_same|].
    intros g. apply has_clear_other.
  - exists (uxRingbufferFlags r). by destruct r.
Qed.

Lemma return_byte r h q p :
  byte_repr r h q -> h <> [] -> 0 <= p < xSize r ->
  exists r', vRingbufferReturnItem p r = Some r' /\ byte_repr r' [] q /\ xSize r' = xSize r.
Proof.
  intros [Ht Hby Hsp Hsz Hmx Hl Hf Hcap Hfull Hr Hacq Hw Hi Hd] Hh Hp.
  assert (0 < length h)%nat by (destruct h; [done|cbn; lia]).
  unfold vRingbufferReturnItem, vReturnItem, prvReturnItemByteBuf, pucHead, pucTail. rewrite Ht.
  rewrite (proj2 (Z.leb_le 0 p)), (proj2 (Z.ltb_lt p (xSize r))) by lia.
  destruct (cleared_flags (with_free (pucRead r) r)) as (f & -> & Hf1 & Hf2). rb_simpl.
  eexists. split; [reflexivity|]. split; [|done].
  split; unfold is_full; rb_simpl; rewrite ?Hf1, ?Hf2 by done; change (length (@nil Z) : Z) with 0; try done; try lia.
  - rewrite Hr. apply ring_pos_range. lia.
  - rewrite Z.add_0_r, ring_pos_small; [done|]. rewrite Hr. apply ring_pos_range. lia.
  - rewrite Hacq, Hr, Z.add_0_r. unfold ring_pos. repeat case_test; to_prop; lia.
  - intros i Hi'. specialize (Hd (length h + i) ltac:(lia)). rewrite at_app_r in Hd by lia.
    change ([] ++ q) with q. replace (length h + i - length h) with i in Hd by lia. rewrite <- Hd. f_equal.
    rewrite Hr. unfold ring_pos. repeat case_test; to_prop; lia.
Qed.

Lemma free_size_byte r h q : byte_repr r h q -> xRingbufferGetCurFreeSize r = xSize r - (length h + length q).
Proof.
  intros [Ht Hby Hsp Hsz Hmx Hl Hf Hcap Hfull Hr Hacq Hw Hi Hd].
  unfold xRingbufferGetCurFreeSize, xGetCurMaxSize, prvGetCurMaxSizeByteBuf. rewrite Ht, Hfull, Hacq.
  unfold ring_pos. repeat case_test; to_prop; lia.
Qed.

(** ** A client of the buffer

    The client keeps what the last reception gave until it returns it; the data
    it returns are read just before the return. *)

Inductive byte_op :=
  | BSend (bs : list Z)
  | BReceive (xMaxSize : Z)     (** 0: [xRingbufferReceive], else [xRingbufferReceiveUpTo] *)
  | BReturn.

Inductive byte_event :=
  | Sent (bs : list Z) (ok : bool)
  | Got (d : list Z)
  | GaveBack (d : list Z)
  | Nothing.

Record client := Client { buffer : Ringbuffer_t; holding : option (Z * Z) }.

Definition byte_step (op : byte_op) (c : client) : option (client * byte_event) :=
  let r := buffer c in
  match op with
  | BSend bs => let! (r, ok) := xRingbufferSend bs r in Some (Client r (holding c), Sent bs ok)
  | BReceive m =>
      let! (r, it) := (if m =? 0 then xRingbufferReceive r else xRingbufferReceiveUpTo m r) in
      match it with
      | Some it => let '(p, n) := item1 it in Some (Client r (Some (p, n)), Got (bytes_at (storage r) p n))
      | None => Some (Client r (holding c), Nothing)
      end
  | BReturn =>
      match holding c with
      | Some (p, n) => let! r' := vRingbufferReturnItem p r in
                       Some (Client r' None, GaveBack (bytes_at (storage r) p n))
      | None => Some (c, Nothing)
      end
  end.

Fixpoint byte_run (ops : list byte_op) (c : client) : option (client * list byte_event) :=
  match ops with
  | [] => Some (c, [])
  | op :: ops => let! (c, e) := byte_step op c in let! (c, es) := byte_run ops c in Some (c, e :: es)
  end.

(** The specification: a queue of bytes with a capacity, of which the client
    holds a prefix. *)
Inductive queue_step (cap : Z) : list Z * list Z -> byte_op -> byte_event -> list Z * list Z -> Prop :=
  | queue_send h q bs :
      queue_step cap (h, q) (BSend bs) (Sent bs (length h + length q + length bs <=? cap))
        (h, if length h + length q + length bs <=? cap then q ++ bs else q)
  | queue_receive q d q' m :
      q = d ++ q' -> d <> [] -> (m <> 0 -> length d <= m) ->
      queue_step cap ([], q) (BReceive m) (Got d) (d, q')
  | queue_receive_nothing h q m : h <> [] \/ q = [] -> queue_step cap (h, q) (BReceive m) Nothing (h, q)
  | queue_return h q : h <> [] -> queue_step cap (h, q) BReturn (GaveBack h) ([], q)
  | queue_return_nothing q : queue_step cap ([], q) BReturn Nothing ([], q).

Inductive queue_run (cap : Z) : list Z * list Z -> list byte_op -> list byte_event -> list Z * list Z -> Prop :=
  | queue_run_nil s : queue_run cap s [] [] s
  | queue_run_cons s op e s' ops es s'' :
      queue_step cap s op e s' -> queue_run cap s' ops es s'' -> queue_run cap s (op :: ops) (e :: es) s''.

#[local] Hint Constructors queue_step queue_run : core.

(** The data of the events. *)
Definition sent_bytes (es : list byte_event) : list Z :=
  concat ((fun e => match e with Sent bs true => bs | _ => [] end) <$> es).
Definition returned_bytes (es : list byte_event) : list Z :=
  concat ((fun e => match e with GaveBack d => d | _ => [] end) <$> es).

Lemma queue_run_stream cap s ops es s' :
  queue_run cap s ops es s' -> s.1 ++ s.2 ++ sent_bytes es = returned_bytes es ++ s'.1 ++ s'.2.
Proof.
  unfold sent_bytes, returned_bytes.
  induction 1 as [s|s op e s' ops es s'' Hs _ IH]; cbn; [by rewrite app_nil_r|].
  destruct Hs as [h q bs|q d q' m -> Hd Hm|h q m Hn|h q Hh|q]; cbn in *; rewrite <- ?app_assoc in *; try done.
  - case_match; cbn in *; [|done]. by rewrite <- IH, <- !app_assoc.
  - by rewrite <- IH.
Qed.

(** What the client holds is where its pointer says. *)
Definition client_repr (cap : Z) (c : client) (s : list Z * list Z) : Prop :=
  byte_repr (buffer c) s.1 s.2 /\ xSize (buffer c) = cap /\
  match holding c with
  | Some (p, n) => s.1 <> [] /\ p = pucFree (buffer c) /\ n = length s.1 /\ p + n <= cap
  | None => s.1 = []
  end.

Lemma held_bytes r h q :
  byte_repr r h q -> pucFree r + length h <= xSize r -> bytes_at (storage r) (pucFree r) (length h) = h.
Proof.
  intros [_ _ _ Hsz _ Hl Hf Hcap _ _ _ _ _ Hd] Hp. apply list_eq_at; rewrite bytes_at_length by lia; [lia|].
  intros k Hk. rewrite bytes_at_at by lia. specialize (Hd k ltac:(lia)). rewrite at_app_l in Hd by lia.
  by rewrite <- Hd, ring_pos_small by lia.
Qed.

Lemma send_step cap c s bs : client_repr cap c s ->
  exists c' e s', byte_step (BSend bs) c = Some (c', e) /\ queue_step cap s (BSend bs) e s' /\ client_repr cap c' s'.
Proof.
  destruct s as [h q]. intros (H & <- & Hh). cbn [fst snd] in *.
  destruct (send_byte _ h q bs H) as (r' & E & Hr' & Hfr & Hs).
  exists (Client r' (holding c)). do 2 eexists. unfold byte_step. rewrite E. split; [reflexivity|]. split; [constructor|].
  split; [exact Hr'|]. split; [exact Hs|]. cbn. destruct (holding c) as [[p n]|]; [|done]. by rewrite Hfr.
Qed.

Lemma receive_step cap c s m : 0 <= m -> client_repr cap c s ->
  exists c' e s', byte_step (BReceive m) c = Some (c', e) /\ queue_step cap s (BReceive m) e s' /\ client_repr cap c' s'.
Proof.
  destruct s as [h q]. intros Hm (H & <- & Hh). cbn [fst snd] in *. set (r := buffer c) in *.
  assert (Hcall : (if m =? 0 then xRingbufferReceive r else xRingbufferReceiveUpTo m r) = prvReceiveGeneric false m r).
  { unfold xRingbufferReceive, xRingbufferReceiveUpTo. rewrite (br_byte _ _ _ H). by destruct (Z.eqb_spec m 0) as [->|]. }
  unfold byte_step. fold r. rewrite Hcall, (receive_byte r h q m H Hm).
  destruct (Z.eqb_spec (length h) 0) as [Eh|Eh]; cbn [andb]; [destruct (Z.ltb_spec 0 (length q)) as [Hq|Hq]|].
  - destruct h; [|cbn in Eh; lia].
    pose proof (received_size_bound r [] q m H eq_refl Hq Hm) as Hn.
    destruct (taken_repr r q _ H Hn) as [Hr' Hb].
    pose proof (br_free _ _ _ H). pose proof (br_read _ _ _ H) as Hrd. cbn [length] in Hrd.
    change (Z.of_nat 0) with 0 in Hrd. rewrite Z.add_0_r, ring_pos_small in Hrd by lia.
    set (n := received_size m r q) in *.
    assert (Hlen : (length (take (Z.to_nat n) q) : Z) = n) by (unfold contiguous in Hn; rewrite length_take; lia).
    eexists. exists (Got (bytes_at (storage r) (pucRead r) n)), (take (Z.to_nat n) q, drop (Z.to_nat n) q).
    split; [reflexivity|]. split.
    + rewrite Hb. constructor; [by rewrite take_drop|intros E; rewrite E in Hlen; cbn in Hlen; lia|].
      intros Hm0. rewrite Hlen. unfold n, received_size. destruct (Z.eqb_spec m 0); lia.
    + split; [exact Hr'|]. split; [done|]. cbn [holding fst]. unfold contiguous in Hn.
      split; [intros E; rewrite E in Hlen; cbn in Hlen; lia|]. split; [by rewrite Hrd|]. split; [done|]. lia.
  - exists (Client r (holding c)), Nothing, (h, q). split; [reflexivity|]. split; [|by split].
    constructor. right. destruct q; [done|cbn in Hq; lia].
  - exists (Client r (holding c)), Nothing, (h, q). split; [reflexivity|]. split; [|by split].
    constructor. left. intros ->. done.
Qed.

Lemma return_step cap c s : client_repr cap c s ->
  exists c' e s', byte_step BReturn c = Some (c', e) /\ queue_step cap s BReturn e s' /\ client_repr cap c' s'.
Proof.
  destruct s as [h q]. intros (H & <- & Hh). cbn [fst snd] in *. unfold byte_step.
  destruct (holding c) as [[p n]|] eqn:E.
  - destruct Hh as (Hne & -> & -> & Hp). pose proof (br_free _ _ _ H) as Hf.
    destruct (return_byte _ h q (pucFree (buffer c)) H Hne Hf) as (r' & -> & Hr' & Hs).
    rewrite (held_bytes _ h q H Hp). do 2 eexists. exists ([], q). split; [reflexivity|]. split; [by constructor|].
    by split.
  - subst h. exists c, Nothing, ([], q). split; [done|]. split; [constructor|]. split; [done|]. by rewrite E.
Qed.

(** Receptions have a limit that is a size. *)
Definition byte_op_ok (op : byte_op) : Prop := match op with BReceive m => 0 <= m | _ => True end.

Lemma run_refines cap ops : Forall byte_op_ok ops -> forall c s, client_repr cap c s ->
  exists c' es s', byte_run ops c = Some (c', es) /\ queue_run cap s ops es s' /\ client_repr cap c' s'.
Proof.
  induction 1 as [|op ops Hop _ IH]; intros c s H.
  { exists c, [], s. by split. }
  assert (Hstep : exists c' e s', byte_step op c = Some (c', e) /\ queue_step cap s op e s' /\ client_repr cap c' s')
    by (destruct op; [by apply send_step|by apply receive_step|by apply return_step]).
  destruct Hstep as (c1 & e & s1 & E & Hq & H1). destruct (IH c1 s1 H1) as (c2 & es & s2 & E2 & Hq2 & H2).
  exists c2, (e :: es), s2. cbn [byte_run]. rewrite E, E2. eauto.
Qed.

Lemma new_byte_repr size s :
  0 < size < 2 ^ 31 -> length s = Z.to_nat size ->
  byte_repr (prvInitializeNewRingbuffer size RINGBUF_TYPE_BYTEBUF s) [] [].
Proof.
  intros Hs Hl. unfold prvInitializeNewRingbuffer. split; unfold is_full; rb_simpl; try done; try lia.
  all: change (length (@nil Z) : Z) with 0.
  - lia.
  - symmetry. apply Z.eqb_neq. lia.
  - by rewrite ring_pos_small by lia.
  - by rewrite ring_pos_small by lia.
  - intros i Hi. lia.
Qed.

(** C33: A byte buffer is a bounded queue of bytes. No call of a client that
    returns what it receives fails an assertion or leaves the storage; sends
    are accepted exactly when they fit, receptions give a contiguous prefix of
    what waits, which is intact when it is returned, nothing is lost or
    reordered, and the free size is what is left. *)
Theorem byte_buffer_is_queue (size : Z) (s : list Z) (ops : list byte_op) :
  0 < size < 2 ^ 31 -> length s = Z.to_nat size -> Forall byte_op_ok ops ->
  exists c es h q,
    byte_run ops (Client (prvInitializeNewRingbuffer size RINGBUF_TYPE_BYTEBUF s) None) = Some (c, es) /\
    queue_run size ([], []) ops es (h, q) /\
    sent_bytes es = returned_bytes es ++ h ++ q /\
    xRingbufferGetCurFreeSize (buffer c) = size - (length h + length q).
Proof.
  intros Hs Hl Hops.
  destruct (run_refines size ops Hops (Client (prvInitializeNewRingbuffer size RINGBUF_TYPE_BYTEBUF s) None) ([], []))
    as (c & es & [h q] & E & Hq & H & Hsz & _).
  { split; [by apply new_byte_repr|]. by split. }
  exists c, es, h, q. split; [done|]. split; [done|]. split; [by apply (queue_run_stream _ _ _ _ _ Hq)|].
  by rewrite (free_size_byte _ h q H), Hsz.
Qed.

Module ByteExample.

Definition ops : list byte_op :=
  [BSend [1; 2; 3]; BReceive 2; BSend [4; 5; 6]; BSend [4; 5]; BReturn; BReceive 0; BReceive 0; BReturn; BSend [7; 8];
   BReceive 0; BReturn].

Definition start : client := Client (prvInitializeNewRingbuffer 5 RINGBUF_TYPE_BYTEBUF [0; 0; 0; 0; 0]) None.

Lemma byte_buffer_is_queue_witness :
  (snd <$> byte_run ops start) = Some [Sent [1; 2; 3] true; Got [1; 2]; Sent [4; 5; 6] false; Sent [4; 5] true;
    GaveBack [1; 2]; Got [3; 4; 5]; Nothing; GaveBack [3; 4; 5]; Sent [7; 8] true; Got [7; 8]; GaveBack [7; 8]] /\
  exists c es h q, byte_run ops start = Some (c, es) /\ queue_run 5 ([], []) ops es (h, q) /\
    sent_bytes es = returned_bytes es ++ h ++ q /\
    xRingbufferGetCurFreeSize (buffer c) = 5 - (length h + length q).
Proof.
  split; [vm_compute; reflexivity|]. apply (byte_buffer_is_queue 5 [0; 0; 0; 0; 0] ops); [lia|done|].
  unfold ops. repeat constructor; cbn; lia.
Defined.

End ByteExample.
