(* ===== verification/RingItem.v ===== *)
(** * No-split buffers are queues of items ([components/esp_ringbuf/ringbuf.c])

    A no-split buffer is related to the items its client holds and the items
    that wait. They lie one after the other from the free pointer on, either up
    to the acquire pointer or up to the end of the storage (or a dummy item)
    and from its start again. *)

From S2P Require Import Prelude RingBuf.

#[local] Open Scope abort_scope.

(** ** Alignment *)

Ltac zlia := Z.to_euclidean_division_equations; lia.

Definition aligned (x : Z) : Prop := x mod 4 = 0.

Lemma land3_mod x : Z.land x 3 = x mod 4.
Proof. change 3 with (Z.ones 2). by rewrite Z.land_ones. Qed.

Lemma check_aligned p : aligned p -> rbCHECK_ALIGNED p = true.
Proof. intros H. unfold rbCHECK_ALIGNED. rewrite land3_mod. by apply Z.eqb_eq. Qed.

Lemma align_size n : 0 <= n < 2 ^ 31 -> rbALIGN_SIZE n = 4 * ((n + 3) / 4).
Proof.
  intros Hn. unfold rbALIGN_SIZE. rewrite u32_small by lia.
  change (Z.lnot 3) with (Z.lnot (Z.ones 2)). rewrite <- Z.ldiff_land, Z.ldiff_ones_r by lia.
  rewrite Z.shiftl_mul_pow2, Z.shiftr_div_pow2 by lia. change (2 ^ 2) with 4. lia.
Qed.

Lemma align_size_spec n : 0 <= n < 2 ^ 31 -> n <= rbALIGN_SIZE n <= n + 3 /\ aligned (rbALIGN_SIZE n).
Proof. intros Hn. unfold aligned. rewrite align_size by done. zlia. Qed.

(** ** Words and headers of the storage *)

Definition word (s : list Z) (p : Z) : Z := le_value (bytes_at s p 4).
Definition hdr (s : list Z) (p : Z) : Z * Z := (word s p, word s (p + 4)).

Definition agree (s s' : list Z) (lo hi : Z) : Prop := forall k, lo <= k < hi -> at_ s' k = at_ s k.

Lemma agree_bytes s s' lo hi p n :
  agree s s' lo hi -> length s' = length s -> 0 <= lo <= p -> 0 <= n -> p + n <= hi -> hi <= length s ->
  bytes_at s' p n = bytes_at s p n.
Proof.
  intros Ha Hl Hp Hn Hh Hs. apply list_eq_at; rewrite !bytes_at_length by lia; [done|].
  intros k Hk. rewrite !bytes_at_at by lia. apply Ha. lia.
Qed.

Lemma agree_hdr s s' lo hi p :
  agree s s' lo hi -> length s' = length s -> 0 <= lo <= p -> p + 8 <= hi -> hi <= length s -> hdr s' p = hdr s p.
Proof.
  intros. unfold hdr, word. rewrite !(agree_bytes s s' lo hi) by (done || lia). done.
Qed.

Lemma header_hdr p r :
  0 <= p -> p + 8 <= xSize r -> header p r = Some (hdr (storage r) p).
Proof.
  intros Hp Hs. unfold header, rbHEADER_SIZE.
  by rewrite (proj2 (Z.leb_le 0 p)), (proj2 (Z.leb_le _ _)) by lia.
Qed.

(** Writing the bytes of a header, and what is elsewhere. *)
Definition put_hdr (s : list Z) (p len flags : Z) : list Z := write_bytes s p (le_bytes 4 len ++ le_bytes 4 flags).

Lemma set_header_put p len flags r :
  0 <= p -> p + 8 <= xSize r -> set_header p len flags r = Some (with_storage (put_hdr (storage r) p len flags) r).
Proof. intros Hp Hs. apply store_ok; [done|]. rewrite length_app, !le_bytes_length. lia. Qed.

Lemma write_outside s p bs lo hi :
  0 <= p -> p + length bs <= length s -> 0 <= lo -> hi <= p \/ p + length bs <= lo ->
  agree s (write_bytes s p bs) lo hi.
Proof.
  intros Hp Hl Hlo Ho k Hk. rewrite write_bytes_at by lia.
  destruct (Z.leb_spec p k); cbn [andb]; [|done]. destruct (Z.ltb_spec k (p + length bs)); [lia|done].
Qed.

Lemma write_inside s p bs :
  0 <= p -> p + length bs <= length s -> bytes_at (write_bytes s p bs) p (length bs) = bs.
Proof.
  intros Hp Hl. apply list_eq_at; rewrite bytes_at_length by (rewrite ?write_bytes_length; lia); [lia|].
  intros k Hk. rewrite bytes_at_at by (rewrite ?write_bytes_length; lia). rewrite write_bytes_at by lia.
  rewrite (proj2 (andb_true_iff _ _)) by (split; [apply Z.leb_le|apply Z.ltb_lt]; lia). f_equal. lia.
Qed.

Lemma put_hdr_length s p len flags : 0 <= p -> p + 8 <= length s -> length (put_hdr s p len flags) = length s.
Proof. intros. apply write_bytes_length; rewrite ?length_app, ?le_bytes_length; lia. Qed.

Lemma put_hdr_outside s p len flags lo hi :
  0 <= p -> p + 8 <= length s -> 0 <= lo -> hi <= p \/ p + 8 <= lo -> agree s (put_hdr s p len flags) lo hi.
Proof. intros. apply write_outside; rewrite ?length_app, ?le_bytes_length; lia. Qed.

Lemma bytes_at_app s p n m : 0 <= p -> 0 <= n -> 0 <= m -> p + n + m <= length s ->
  bytes_at s p (n + m) = bytes_at s p n ++ bytes_at s (p + n) m.
Proof.
  intros Hp Hn Hm Hl. apply list_eq_at; rewrite ?length_app, !bytes_at_length by lia; [lia|].
  intros k Hk. rewrite bytes_at_at by lia. destruct (Z.ltb_spec k n).
  - rewrite at_app_l by (rewrite bytes_at_length; lia). by rewrite bytes_at_at by lia.
  - rewrite at_app_r by (rewrite bytes_at_length; lia). rewrite bytes_at_length by lia.
    rewrite bytes_at_at by lia. f_equal. lia.
Qed.

Lemma put_hdr_hdr s p len flags :
  0 <= p -> p + 8 <= length s -> in_range 32 len -> in_range 32 flags -> hdr (put_hdr s p len flags) p = (len, flags).
Proof.
  intros Hp Hl Hlen Hfl. unfold hdr, word.
  pose proof (write_inside s p (le_bytes 4 len ++ le_bytes 4 flags) Hp) as Hw.
  rewrite length_app, !le_bytes_length in Hw. specialize (Hw ltac:(lia)).
  change (Z.of_nat (4 + 4)) with (4 + 4) in Hw. unfold put_hdr.
  rewrite bytes_at_app in Hw by (rewrite ?write_bytes_length; rewrite ?length_app, ?le_bytes_length; lia).
  apply app_inj_1 in Hw as [-> ->]; [by rewrite !le_value_bytes_4|].
  rewrite bytes_at_length, le_bytes_length; [done|lia|lia|].
  rewrite write_bytes_length; rewrite ?length_app, ?le_bytes_length; lia.
Qed.

(** ** Items in a row *)

Definition csize (d : list Z) : Z := rbHEADER_SIZE + rbALIGN_SIZE (length d).

Lemma csize_spec d : length d < 2 ^ 31 -> 8 + length d <= csize d <= 11 + length d /\ aligned (csize d).
Proof.
  intros Hd. unfold csize, rbHEADER_SIZE. destruct (align_size_spec (length d) ltac:(lia)) as [H1 H2].
  unfold aligned in *. split; [lia|]. zlia.
Qed.

(** [d] is written, with its header, at [p]. *)
Definition item_at (s : list Z) (p : Z) (d : list Z) : Prop :=
  hdr s p = (length d : Z, rbITEM_WRITTEN_FLAG) /\ bytes_at s (p + 8) (length d) = d.

Fixpoint seg (s : list Z) (p : Z) (ds : list (list Z)) (e : Z) : Prop :=
  match ds with
  | [] => p = e
  | d :: ds => length d < 2 ^ 31 /\ item_at s p d /\ seg s (p + csize d) ds e
  end.

Lemma seg_le s p ds e : seg s p ds e -> p <= e.
Proof.
  revert p. induction ds as [|d ds IH]; intros p; cbn [seg]; [lia|].
  intros (Hd & _ & H). apply IH in H. pose proof (csize_spec d Hd). lia.
Qed.

Lemma seg_aligned s p ds e : seg s p ds e -> aligned p -> aligned e.
Proof.
  revert p. induction ds as [|d ds IH]; intros p; cbn [seg]; [by intros ->|].
  intros (Hd & _ & H) Hp. apply (IH _ H). pose proof (csize_spec d Hd) as [_ Ha]. unfold aligned in *. zlia.
Qed.

Lemma item_agree s s' lo hi p d :
  agree s s' lo hi -> length s' = length s -> 0 <= lo <= p -> length d < 2 ^ 31 -> p + csize d <= hi -> hi <= length s ->
  item_at s p d -> item_at s' p d.
Proof.
  intros Ha Hl Hlo Hd Hhi Hs [Hh Hb]. pose proof (csize_spec d Hd). split.
  - rewrite <- Hh. apply (agree_hdr s s' lo hi); (done || lia).
  - rewrite <- Hb at 2. apply (agree_bytes s s' lo hi); (done || lia).
Qed.

Lemma seg_agree s s' p ds e :
  agree s s' p e -> length s' = length s -> 0 <= p -> e <= length s -> seg s p ds e -> seg s' p ds e.
Proof.
  revert p. induction ds as [|d ds IH]; intros p Ha Hl Hp He; cbn [seg]; [done|].
  intros (Hd & Hi & H). pose proof (seg_le _ _ _ _ H) as Hle. pose proof (csize_spec d Hd).
  split; [done|]. split; [apply (item_agree s s' p e); (done || lia)|].
  apply IH; [|done|lia|done|done]. intros k Hk. apply Ha. lia.
Qed.

Lemma seg_app s p ds1 ds2 e :
  seg s p (ds1 ++ ds2) e <-> exists m, seg s p ds1 m /\ seg s m ds2 e.
Proof.
  revert p. induction ds1 as [|d ds1 IH]; intros p; cbn [seg app].
  - split; [intros H; by exists p|intros (m & -> & H); done].
  - rewrite IH. split; [intros (Hd & Hi & m & H1 & H2); eauto|intros (m & (Hd & Hi & H1) & H2); eauto].
Qed.

(** ** The items of a ring *)

(** The place of a pointer near the end of the storage. *)
Definition nrm (size x : Z) : Z := if size - x <? 8 then 0 else x.

Lemma nrm_small size x : x + 8 <= size -> nrm size x = x.
Proof. intros Hx. unfold nrm. destruct (Z.ltb_spec (size - x) 8); lia. Qed.

Lemma nrm_end size x : size - x < 8 -> nrm size x = 0.
Proof. intros Hx. unfold nrm. destruct (Z.ltb_spec (size - x) 8); lia. Qed.

Lemma nrm_code size x p : 0 <= x <= size -> size < 2 ^ 31 -> (if u32 (size - x) <? rbHEADER_SIZE then 0 else x) = p ->
  p = nrm size x.
Proof. intros Hx Hs <-. unfold nrm, rbHEADER_SIZE. by rewrite u32_small by lia. Qed.

(** A dummy item lies at [p]. *)
Definition dummy_at (s : list Z) (p : Z) : bool := has (snd (hdr s p)) rbITEM_DUMMY_DATA_FLAG.

(** Items from [f] to [a]. *)
Inductive layout (s : list Z) (size f a : Z) : bool -> list (list Z) -> Prop :=
  | layout_line ds : f <= a -> seg s f ds a -> layout s size f a false ds
  | layout_wrap ds1 ds2 e :
      a <= f -> seg s f ds1 e -> e <= size ->
      (size - e < 8 \/ (e + 8 <= size /\ dummy_at s e = true /\ ds2 <> [])) ->
      seg s 0 ds2 a -> layout s size f a (a =? f) (ds1 ++ ds2).

(** Where the first item is. *)
Definition start (s : list Z) (p : Z) : Z := if dummy_at s p then 0 else p.

Lemma item_not_dummy s p d : item_at s p d -> dummy_at s p = false.
Proof. intros [H _]. unfold dummy_at. by rewrite H. Qed.

Lemma layout_first s size f a full d ds :
  0 <= f -> f + 8 <= size -> aligned f -> a + 8 <= size -> layout s size f a full (d :: ds) ->
  length d < 2 ^ 31 /\ item_at s (start s f) d /\ 0 <= start s f /\ start s f + csize d <= size /\ aligned (start s f).
Proof.
  intros Hf Hf8 Hal Ha H. unfold start. inversion H as [ds' Hle Hs|ds1 ds2 e Hle Hs He Ht Hs2]; subst.
  - cbn in Hs. destruct Hs as (Hd & Hi & Hs). rewrite (item_not_dummy _ _ _ Hi).
    apply seg_le in Hs. split; [done|]. split; [done|]. split; [lia|]. split; [lia|done].
  - destruct ds1 as [|d1 ds1]; cbn [app] in *.
    + subst ds2. cbn in Hs. subst e. destruct Ht as [Ht|(_ & -> & _)]; [lia|].
      cbn in Hs2. destruct Hs2 as (Hd & Hi & Hs2). apply seg_le in Hs2. pose proof (csize_spec d Hd).
      split; [done|]. split; [done|]. split; [lia|]. split; [lia|done].
    + simplify_eq/=. destruct Hs as (Hd & Hi & Hs). rewrite (item_not_dummy _ _ _ Hi).
      apply seg_le in Hs. split; [done|]. split; [done|]. split; [lia|]. split; [lia|done].
Qed.

(** Where the read pointer is once the items of [h] have been read. *)
Definition read_pos (s : list Z) (size f : Z) (h : list (list Z)) : Z :=
  match h with [] => f | d :: _ => nrm size (start s f + csize d) end.

(** [h]: the item received and not returned; [w]: the items that wait. *)
Record item_repr (r : Ringbuffer_t) (h w : list (list Z)) : Prop := ItemRepr {
  ir_type : xType r = RINGBUF_TYPE_NOSPLIT;
  ir_byte : has (uxRingbufferFlags r) rbBYTE_BUFFER_FLAG = false;
  ir_split : has (uxRingbufferFlags r) rbALLOW_SPLIT_FLAG = false;
  ir_size : 16 <= xSize r < 2 ^ 31;
  ir_aligned : aligned (xSize r);
  ir_max : xMaxItemSize r = rbALIGN_SIZE (xSize r / 2) - rbHEADER_SIZE;
  ir_len : length (storage r) = Z.to_nat (xSize r);
  ir_free : 0 <= pucFree r /\ pucFree r + 8 <= xSize r /\ aligned (pucFree r);
  ir_acq : 0 <= pucAcquire r /\ pucAcquire r + 8 <= xSize r /\ aligned (pucAcquire r);
  ir_write : pucWrite r = pucAcquire r;
  ir_read : pucRead r = read_pos (storage r) (xSize r) (pucFree r) h;
  ir_items : xItemsWaiting r = length w;
  ir_held : (length h <= 1)%nat;
  ir_max_items : Forall (fun d : list Z => length d <= xMaxItemSize r) (h ++ w);
  ir_layout : layout (storage r) (xSize r) (pucFree r) (pucAcquire r) (is_full r) (h ++ w);
}.

Lemma ir_max_bound r h w : item_repr r h w ->
  xSize r <= 2 * (xMaxItemSize r + 8) <= xSize r + 4 /\ aligned (xMaxItemSize r).
Proof.
  intros H. pose proof (ir_size _ _ _ H). pose proof (ir_aligned _ _ _ H) as Ha. rewrite (ir_max _ _ _ H).
  unfold rbHEADER_SIZE, aligned in *. rewrite align_size by zlia. zlia.
Qed.

(** The layout is empty or the pointers and the full flag tell that it is not. *)
Lemma layout_nonempty s size f a full d ds :
  layout s size f a full (d :: ds) -> 0 <= f -> f + 8 <= size -> a = f -> full = true.
Proof.
  intros H Hf Hf8 ->. inversion H as [ds' Hle Hs|ds1 ds2 e Hle Hs He Ht Hs2]; subst; [|by rewrite Z.eqb_refl].
  cbn in Hs. destruct Hs as (Hd & _ & Hs). apply seg_le in Hs. pose proof (csize_spec d Hd). lia.
Qed.

Lemma first_item r h w d ds : item_repr r h w -> h ++ w = d :: ds ->
  length d < 2 ^ 31 /\ item_at (storage r) (start (storage r) (pucFree r)) d /\ 0 <= start (storage r) (pucFree r) /\
  start (storage r) (pucFree r) + csize d <= xSize r /\ aligned (start (storage r) (pucFree r)).
Proof.
  intros H E. pose proof (ir_layout _ _ _ H) as Hl. rewrite E in Hl.
  pose proof (ir_free _ _ _ H). pose proof (ir_acq _ _ _ H). eapply layout_first; [..|exact Hl]; tauto.
Qed.

Lemma item_avail r w : item_repr r [] w -> items_to_read r = (0 <? length w).
Proof.
  intros H. unfold items_to_read. rewrite (ir_items _ _ _ H), (ir_read _ _ _ H), (ir_write _ _ _ H). cbn [read_pos].
  destruct (Z.ltb_spec 0 (length w)) as [Hw|]; [|done]. cbn [andb].
  destruct w as [|d w]; [cbn in Hw; lia|]. pose proof (ir_free _ _ _ H).
  destruct (Z.eqb_spec (pucFree r) (pucAcquire r)) as [E|]; [|done]. cbn [negb orb].
  eapply layout_nonempty; [exact (ir_layout _ _ _ H)|lia..].
Qed.

(** ** Receiving *)

(** The buffer after the first item has been read. *)
Definition got (d : list Z) (r : Ringbuffer_t) : Ringbuffer_t :=
  with_read (nrm (xSize r) (start (storage r) (pucFree r) + csize d)) (with_waiting (xItemsWaiting r - 1) r).

Lemma get_item r d w :
  item_repr r [] (d :: w) ->
  prvGetItemDefault r = Some (got d r, (start (storage r) (pucFree r) + 8, length d : Z, false)).
Proof.
  intros H. destruct (first_item r [] (d :: w) d w H eq_refl) as (Hd & [Hh _] & Hp0 & Hp & Ha).
  pose proof (item_avail _ _ H) as Hav. pose proof (ir_free _ _ _ H) as (Hf & Hf8 & Hfa).
  pose proof (ir_read _ _ _ H) as Hr. cbn in Hr. pose proof (ir_size _ _ _ H) as Hsz.
  pose proof (csize_spec d Hd) as [Hc _]. pose proof (ir_max_items _ _ _ H) as Hm. apply Forall_cons in Hm as [Hm _].
  assert (Hpos : forall p, 0 <= p -> p + csize d <= xSize r ->
    u32 (rbHEADER_SIZE + rbALIGN_SIZE (length d)) = csize d).
  { intros p _ Hle. unfold csize in *. apply u32_small. unfold rbHEADER_SIZE in *.
    pose proof (align_size_spec (length d) ltac:(lia)). lia. }
  assert (Heta : with_read (pucFree r) r = r) by (rewrite <- Hr; by destruct r).
  unfold prvGetItemDefault. rewrite Hr, header_hdr by lia.
  destruct (hdr (storage r) (pucFree r)) as [len flags] eqn:E. rewrite Hav.
  rewrite (proj2 (Z.ltb_lt 0 _)) by (cbn; lia). rewrite check_aligned by done.
  unfold pucHead at 1, pucTail at 1.
  rewrite (proj2 (Z.leb_le 0 (pucFree r))), (proj2 (Z.ltb_lt (pucFree r) (xSize r))) by lia. cbn [andb].
  set (p0 := start (storage r) (pucFree r)) in *.
  assert (Hstep : ((len <=? xMaxItemSize r) || has flags rbITEM_DUMMY_DATA_FLAG) = true /\
    (if has flags rbITEM_DUMMY_DATA_FLAG then
       let! (len, flags) := header (pucRead (with_read pucHead r)) (with_read pucHead r) in
       if len <=? xMaxItemSize (with_read pucHead r) then Some (with_read pucHead r, len, flags) else None
     else Some (r, len, flags)) = Some (with_read p0 r, length d : Z, rbITEM_WRITTEN_FLAG)).
  { unfold p0, start, dummy_at in *. rewrite E in *. cbn [snd] in *.
    destruct (has flags rbITEM_DUMMY_DATA_FLAG) eqn:Ed.
    - split; [apply orb_true_r|]. unfold pucHead. rb_simpl. rewrite header_hdr by (rb_simpl; lia). rb_simpl. rewrite Hh.
      by rewrite (proj2 (Z.leb_le _ _)) by done.
    - rewrite E in Hh. injection Hh as -> ->. rewrite (proj2 (Z.leb_le _ _)) by done. split; [done|]. by rewrite Heta. }
  destruct Hstep as [-> ->]. rb_simpl. unfold pucHead, pucTail. rb_simpl.
  match goal with |- context [if ?b then _ else _] => replace b with true end.
  2: { unfold rbHEADER_SIZE. symmetry. case_test; to_prop; rewrite andb_true_iff, ?Z.leb_le, ?Z.ltb_lt; lia. }
  rewrite (Hpos p0) by lia. unfold got. do 2 f_equal.
  unfold nrm. rewrite u32_small by lia. unfold rbHEADER_SIZE. fold p0. by case_match.
Qed.

Lemma got_repr r d w : item_repr r [] (d :: w) -> item_repr (got d r) [d] w.
Proof.
  intros [? ? ? ? ? ? ? ? ? ? Hr Hi ? ? ?]. unfold got. split; unfold is_full; rb_simpl; try done.
  cbn [length] in Hi. lia.
Qed.

(** ** Returning *)

Lemma seg_empty s p ds e : seg s p ds e -> e <= p -> ds = [] /\ p = e.
Proof.
  destruct ds as [|d ds]; [done|]. cbn [seg]. intros (Hd & _ & H) He. apply seg_le in H.
  pose proof (csize_spec d Hd). lia.
Qed.

(** Taking the first item away: what is left, when the storage is the same but
    for the header of that item and the one at the free pointer. *)
Lemma layout_pop s s' size f a full d w :
  let p0 := start s f in let f' := nrm size (p0 + csize d) in
  layout s size f a full (d :: w) -> 0 <= f -> f + 8 <= size -> 0 <= a -> a + 8 <= size ->
  length s = Z.to_nat size -> length s' = length s ->
  (forall k, 0 <= k < size -> ~ p0 <= k < p0 + 8 -> ~ f <= k < f + 8 -> at_ s' k = at_ s k) ->
  (f' = f /\ w = [] /\ a = f /\ full = true) \/ (f' <> f /\ layout s' size f' a false w).
Proof.
  intros p0 f' H Hf Hf8 Ha Ha8 Hl Hl' Hs'. subst p0 f'. unfold start in *.
  inversion H as [ds' Hle Hs|ds1 ds2 e Hle Hs He Ht Hs2]; subst.
  - cbn in Hs. destruct Hs as (Hd & Hi & Hs). rewrite (item_not_dummy _ _ _ Hi) in *.
    pose proof (seg_le _ _ _ _ Hs). pose proof (csize_spec d Hd). rewrite nrm_small by lia. right. split; [lia|].
    apply layout_line; [done|]. apply (seg_agree s); try lia; [|done]. intros k Hk. apply Hs'; lia.
  - destruct ds1 as [|d1 ds1]; cbn [app] in *.
    + subst ds2. cbn in Hs. subst e. destruct Ht as [Ht|(_ & Hdm & _)]; [lia|]. rewrite Hdm in *.
      cbn in Hs2. destruct Hs2 as (Hd & Hi & Hs2). pose proof (seg_le _ _ _ _ Hs2). pose proof (csize_spec d Hd).
      rewrite nrm_small by lia. destruct (Z.eq_dec (0 + csize d) f) as [E|E].
      * left. apply seg_empty in Hs2 as [-> <-]; [|lia]. split; [done|]. split; [done|]. split; [done|]. by apply Z.eqb_eq.
      * right. split; [done|]. apply layout_line; [done|]. apply (seg_agree s); try lia; [|done].
        intros k Hk. apply Hs'; lia.
    + simplify_eq/=. destruct Hs as (Hd & Hi & Hs). rewrite (item_not_dummy _ _ _ Hi) in *.
      pose proof (seg_le _ _ _ _ Hs). pose proof (csize_spec d Hd).
      assert (Hag : forall lo hi, 0 <= lo -> hi <= f \/ f + 8 <= lo -> hi <= size -> agree s s' lo hi).
      { intros lo hi Hlo Ho Hhi k Hk. apply Hs'; lia. }
      destruct (Z.ltb_spec (size - (f + csize d)) 8) as [Hend|Hend].
      * rewrite nrm_end by done.
        assert (Hds : ds1 = [] /\ f + csize d = e).
        { destruct ds1 as [|d1 ds1]; [done|]. cbn in Hs. destruct Hs as (Hd1 & _ & Hs). apply seg_le in Hs.
          pose proof (csize_spec d1 Hd1). lia. }
        destruct Hds as [-> <-]. destruct Ht as [_|(Ht & _)]; [|lia]. cbn [app] in *.
        destruct (Z.eq_dec 0 f) as [E|E].
        -- left. apply seg_empty in Hs2 as [-> E2]; [|lia]. split; [done|]. split; [done|]. split; [lia|]. apply Z.eqb_eq. lia.
        -- right. split; [done|]. apply layout_line; [done|]. apply (seg_agree s); try lia; [|done]. apply Hag; lia.
      * rewrite nrm_small by lia. right. split; [lia|].
        replace false with (a =? f + csize d) by (apply Z.eqb_neq; lia).
        apply layout_wrap with (e := e); [lia| |done| |].
        -- apply (seg_agree s); try lia; [|done]. apply Hag; lia.
        -- destruct Ht as [Ht|(He8 & Hdm & Hne)]; [by left|right]. split; [done|]. split; [|done].
           rewrite <- Hdm. unfold dummy_at. f_equal. f_equal. apply (agree_hdr s s' e (e + 8)); try lia. apply Hag; lia.
        -- apply (seg_agree s); try lia; [|done]. apply Hag; lia.
Qed.

Lemma free_stop n r :
  0 <= pucFree r -> pucFree r + 8 <= xSize r -> pucFree r = pucRead r -> advance_free (S n) r = Some r.
Proof.
  intros H1 H2 H3. cbn [advance_free]. rewrite header_hdr by lia.
  destruct (hdr (storage r) (pucFree r)) as [len flags]. by rewrite H3, Z.eqb_refl, andb_false_r.
Qed.

Lemma free_item n r d flags :
  0 <= pucFree r -> pucFree r + csize d <= xSize r -> xSize r < 2 ^ 31 -> length d < 2 ^ 31 -> pucFree r <> pucRead r ->
  hdr (storage r) (pucFree r) = (length d : Z, flags) ->
  has flags rbITEM_FREE_FLAG = true -> has flags rbITEM_DUMMY_DATA_FLAG = false ->
  advance_free (S n) r = advance_free n (with_free (nrm (xSize r) (pucFree r + csize d)) r).
Proof.
  intros Hf Hs Hs31 Hd Hne Hh Hfr Hdm. pose proof (csize_spec d Hd). cbn [advance_free]. rewrite header_hdr, Hh by lia.
  rewrite Hfr, Hdm, (proj2 (Z.eqb_neq _ _)) by done. cbn [orb andb negb].
  replace (u32 (rbALIGN_SIZE (length d) + rbHEADER_SIZE)) with (csize d).
  2: { unfold csize in *. rewrite Z.add_comm. symmetry. apply u32_small. lia. }
  unfold pucHead, pucTail. rb_simpl. rewrite (proj2 (Z.leb_le _ _)) by lia. rb_simpl.
  f_equal. unfold nrm. rewrite u32_small by lia. unfold rbHEADER_SIZE. by case_match.
Qed.

Lemma free_dummy n r len flags :
  0 <= pucFree r -> pucFree r + 8 <= xSize r -> 16 <= xSize r < 2 ^ 31 -> pucFree r <> pucRead r ->
  hdr (storage r) (pucFree r) = (len, flags) -> has flags rbITEM_DUMMY_DATA_FLAG = true ->
  advance_free (S n) r =
    advance_free n (with_free 0 (with_storage (put_hdr (storage r) (pucFree r) len (set_flag flags rbITEM_FREE_FLAG)) r)).
Proof.
  intros Hf Hs Hs31 Hne Hh Hdm. cbn [advance_free]. rewrite header_hdr, Hh by lia.
  rewrite Hdm, orb_true_r, (proj2 (Z.eqb_neq _ _)) by done. cbn [andb negb].
  rewrite set_header_put by lia. unfold pucHead, pucTail. rb_simpl.
  rewrite u32_small by lia. unfold rbHEADER_SIZE. by rewrite (proj2 (Z.ltb_ge _ _)) by lia.
Qed.

Lemma layout_dummy_first s size f a full d ds :
  layout s size f a full (d :: ds) -> f + 8 <= size -> dummy_at s f = true -> csize d <= f.
Proof.
  intros H Hf Hdm. inversion H as [ds' Hle Hs|ds1 ds2 e Hle Hs He Ht Hs2]; subst.
  - cbn in Hs. destruct Hs as (_ & Hi & _). by rewrite (item_not_dummy _ _ _ Hi) in Hdm.
  - destruct ds1 as [|d1 ds1]; cbn [app] in *; simplify_eq/=.
    + destruct Hs2 as (_ & _ & Hs2). apply seg_le in Hs2. lia.
    + destruct Hs as (_ & Hi & _). by rewrite (item_not_dummy _ _ _ Hi) in Hdm.
Qed.

Lemma item_fuel_3 r : 16 <= xSize r -> exists n, item_fuel r = S (S (S n)).
Proof.
  intros Hs. unfold item_fuel, rbHEADER_SIZE. exists (Z.to_nat (xSize r / 8)).
  assert (0 <= xSize r / 8) by zlia. lia.
Qed.

(** The free pointer reaches the read pointer. *)
Lemma free_reaches_read r d flags :
  let f := pucFree r in let p0 := start (storage r) f in
  16 <= xSize r < 2 ^ 31 -> length (storage r) = Z.to_nat (xSize r) -> 0 <= f -> f + 8 <= xSize r ->
  length d < 2 ^ 31 -> 0 <= p0 -> p0 + csize d <= xSize r ->
  (dummy_at (storage r) f = true -> csize d <= f) ->
  hdr (storage r) p0 = (length d : Z, flags) -> has flags rbITEM_FREE_FLAG = true -> has flags rbITEM_DUMMY_DATA_FLAG = false ->
  pucRead r = nrm (xSize r) (p0 + csize d) ->
  exists s', advance_free (item_fuel r) r = Some (with_free (pucRead r) (with_storage s' r)) /\
    length s' = length (storage r) /\ forall k, 0 <= k < xSize r -> ~ f <= k < f + 8 -> at_ s' k = at_ (storage r) k.
Proof.
  intros f p0 Hsz Hl Hf Hf8 Hd Hp0 Hp Hdf Hh Hfr Hdm Hr. destruct (item_fuel_3 r ltac:(lia)) as [n ->].
  pose proof (csize_spec d Hd) as [Hc _].
  assert (Hr0 : 0 <= pucRead r /\ pucRead r + 8 <= xSize r).
  { rewrite Hr. unfold nrm. destruct (Z.ltb_spec (xSize r - (p0 + csize d)) 8); lia. }
  destruct (Z.eq_dec f (pucRead r)) as [E|E].
  { exists (storage r). rewrite free_stop by lia. split; [|done]. rewrite <- E. by destruct r. }
  unfold p0, start in *. destruct (dummy_at (storage r) f) eqn:Ed.
  - unfold dummy_at in Ed. destruct (hdr (storage r) f) as [len fl] eqn:Eh. cbn [snd] in Ed.
    specialize (Hdf eq_refl).
    exists (put_hdr (storage r) f len (set_flag fl rbITEM_FREE_FLAG)).
    rewrite (free_dummy _ _ len fl) by done. set (s1 := put_hdr _ _ _ _). fold f in s1.
    assert (Hl1 : length s1 = length (storage r)) by (apply put_hdr_length; lia).
    assert (Hout : forall lo hi, 0 <= lo -> hi <= f \/ f + 8 <= lo -> agree (storage r) s1 lo hi)
      by (intros; apply put_hdr_outside; lia).
    assert (Hh1 : hdr s1 0 = (length d : Z, flags)).
    { rewrite <- Hh. apply (agree_hdr _ _ 0 f); try lia. apply Hout; lia. }
    destruct (Z.eq_dec 0 (pucRead r)) as [E0|E0].
    + exfalso. rewrite Hr in E0. rewrite nrm_small in E0 by lia. lia.
    + rewrite (free_item _ _ d flags) by (rb_simpl; (done || lia)). rb_simpl.
      rewrite <- Hr. rewrite free_stop by (rb_simpl; (done || lia)). split; [done|]. split; [done|].
      intros k Hk Hne. apply (Hout k (k + 1)); lia.
  - exists (storage r). rewrite (free_item _ _ d flags) by (done || lia). fold f. rewrite <- Hr.
    rewrite free_stop by (rb_simpl; (done || lia)). split; [by destruct r|done].
Qed.

Lemma reset_full_flags r : exists f, reset_full r = with_flags f r /\
  has f rbBUFFER_FULL_FLAG = is_full r && (pucFree r =? pucAcquire r) && negb (pucFree r =? pucRead r) /\
  forall g, Z.land rbBUFFER_FULL_FLAG g = 0 -> has f g = has (uxRingbufferFlags r) g.
Proof.
  unfold reset_full. assert (Hk : exists f, r = with_flags f r /\ has f rbBUFFER_FULL_FLAG = is_full r /\
    forall g, Z.land rbBUFFER_FULL_FLAG g = 0 -> has f g = has (uxRingbufferFlags r) g)
    by (exists (uxRingbufferFlags r); by destruct r).
  assert (Hc : exists f, clear_full r = with_flags f r /\ has f rbBUFFER_FULL_FLAG = false /\
    forall g, Z.land rbBUFFER_FULL_FLAG g = 0 -> has f g = has (uxRingbufferFlags r) g).
  { exists (clear_flag (uxRingbufferFlags r) rbBUFFER_FULL_FLAG). split; [done|]. split; [apply has_clear_same|].
    intros g. apply has_clear_other. }
  destruct (is_full r), (pucFree r =? pucAcquire r), (pucFree r =? pucRead r); cbn [negb andb]; done.
Qed.

Lemma return_item r d w :
  item_repr r [d] w ->
  exists r', vRingbufferReturnItem (start (storage r) (pucFree r) + 8) r = Some r' /\ item_repr r' [] w /\ xSize r' = xSize r.
Proof.
  intros H. destruct (first_item r [d] w d w H eq_refl) as (Hd & Hi & Hp0 & Hp & Hpa).
  pose proof (ir_layout _ _ _ H) as Hlay. pose proof (ir_max_items _ _ _ H) as Hm. cbn [app] in Hlay, Hm.
  apply Forall_cons in Hm as [Hm Hmw]. pose proof (csize_spec d Hd) as [Hc Hca].
  destruct H as [Ht Hby Hsp Hsz Hal Hmx Hl (Hf & Hf8 & Hfa) (Ha & Ha8 & Haa) Hw Hr Hit _ _ _]. cbn [read_pos] in Hr.
  set (f := pucFree r) in *. set (p0 := start (storage r) f) in *.
  set (s1 := put_hdr (storage r) p0 (length d) 9).
  assert (Hl1 : length s1 = length (storage r)) by (apply put_hdr_length; lia).
  assert (Hout : forall lo hi, 0 <= lo -> hi <= p0 \/ p0 + 8 <= lo -> agree (storage r) s1 lo hi)
    by (intros; apply put_hdr_outside; lia).
  assert (Hh1 : hdr s1 p0 = (length d : Z, 9)) by (apply put_hdr_hdr; unfold in_range; lia).
  pose proof (layout_dummy_first _ _ _ _ _ _ _ Hlay Hf8) as Hdf.
  assert (Hst : start s1 f = p0 /\ (dummy_at s1 f = true -> csize d <= f)).
  { unfold p0, start in *. destruct (dummy_at (storage r) f) eqn:Ed.
    - specialize (Hdf eq_refl). assert (E : dummy_at s1 f = true).
      { unfold dummy_at in *. rewrite (agree_hdr (storage r) s1 f (f + 8)); try lia; [done|]. apply Hout; lia. }
      by rewrite E.
    - assert (E : dummy_at s1 f = false) by (unfold dummy_at; by rewrite Hh1). by rewrite E. }
  destruct Hst as [Hst Hdf1].
  unfold vRingbufferReturnItem, vReturnItem, prvReturnItemDefault. rewrite Ht.
  rewrite check_aligned by (unfold aligned in *; zlia). unfold pucHead, pucTail, rbHEADER_SIZE in *.
  rewrite (proj2 (Z.leb_le 0 _)), (proj2 (Z.leb_le (p0 + 8) (xSize r))) by lia.
  replace (p0 + 8 - 8) with p0 by lia. rewrite header_hdr by lia. destruct Hi as [Hh _]. rewrite Hh.
  rewrite (proj2 (Z.leb_le _ _)) by done.
  change (has rbITEM_WRITTEN_FLAG rbITEM_DUMMY_DATA_FLAG) with false. change (has rbITEM_WRITTEN_FLAG rbITEM_FREE_FLAG) with false.
  change (set_flag (clear_flag rbITEM_WRITTEN_FLAG rbITEM_SPLIT_FLAG) rbITEM_FREE_FLAG) with 9. cbn [negb].
  rewrite set_header_put by lia. fold s1.
  destruct (free_reaches_read (with_storage s1 r) d 9) as (s' & E & Hl' & Hs'); rb_simpl; fold f;
    rewrite ?Hst; try done; try (rewrite ?Hl1; done).
  rewrite E. clear E. rb_simpl.
  destruct (reset_full_flags (with_free (pucRead r) (with_storage s' (with_storage s1 r)))) as (fl & -> & Hfull & Hoth).
  rb_simpl. eexists. split; [reflexivity|]. split; [|done].
  assert (Hag : forall k, 0 <= k < xSize r -> ~ p0 <= k < p0 + 8 -> ~ f <= k < f + 8 -> at_ s' k = at_ (storage r) k).
  { intros k Hk H1 H2. rewrite Hs' by done. destruct (Z.ltb_spec k p0); [apply (Hout 0 p0)|apply (Hout (p0 + 8) (xSize r))]; lia. }
  pose proof (layout_pop (storage r) s' _ _ _ _ d w Hlay Hf Hf8 Ha Ha8 Hl ltac:(lia) Hag) as Hpop.
  fold f p0 in Hpop. rewrite <- Hr in Hpop.
  assert (Hnew : has fl rbBUFFER_FULL_FLAG = false /\ layout s' (xSize r) (pucRead r) (pucAcquire r) false w).
  { rewrite Hfull. unfold is_full. rb_simpl. destruct Hpop as [(E & -> & E2 & _)|[Hne Hlay']].
    - rewrite Z.eqb_refl, !andb_false_r. split; [done|]. apply layout_line; [lia|]. cbn. lia.
    - split; [|done]. fold (is_full r). destruct (is_full r) eqn:Ef; [|done]. cbn [andb].
      destruct (Z.eqb_spec (pucRead r) (pucAcquire r)) as [E|]; [|done]. exfalso.
      inversion Hlay as [|ds1 ds2 e ? ? ? ? ? Hfl]; subst. lia. }
  destruct Hnew as [Hnf Hlay'].
  assert (Hr0 : 0 <= pucRead r /\ pucRead r + 8 <= xSize r /\ aligned (pucRead r)).
  { rewrite Hr. unfold nrm. unfold aligned in *. destruct (Z.ltb_spec (xSize r - (p0 + csize d)) 8); [split; [lia|]; split; [lia|done]|].
    split; [lia|]. split; [lia|]. zlia. }
  split; unfold is_full; rb_simpl; rewrite ?Hoth by done; rewrite ?Hnf; try done; try lia; cbn; lia.
Qed.

(** ** Sending *)

Lemma write_stop n r :
  0 <= pucWrite r -> pucWrite r + 8 <= xSize r -> pucWrite r = pucAcquire r -> advance_write (S n) r = Some r.
Proof.
  intros H1 H2 H3. cbn [advance_write]. rewrite header_hdr by lia.
  destruct (hdr (storage r) (pucWrite r)) as [len flags]. by rewrite H3, Z.eqb_refl, andb_false_r.
Qed.

Lemma write_item n r d flags :
  0 <= pucWrite r -> pucWrite r + csize d <= xSize r -> xSize r < 2 ^ 31 -> length d < 2 ^ 31 -> pucWrite r <> pucAcquire r ->
  hdr (storage r) (pucWrite r) = (length d : Z, flags) ->
  has flags rbITEM_WRITTEN_FLAG = true -> has flags rbITEM_DUMMY_DATA_FLAG = false ->
  advance_write (S n) r = advance_write n (with_write (nrm (xSize r) (pucWrite r + csize d)) r).
Proof.
  intros Hf Hs Hs31 Hd Hne Hh Hfr Hdm. pose proof (csize_spec d Hd). cbn [advance_write]. rewrite header_hdr, Hh by lia.
  rewrite Hfr, Hdm, (proj2 (Z.eqb_neq _ _)) by done. cbn [orb andb negb].
  replace (u32 (rbALIGN_SIZE (length d) + rbHEADER_SIZE)) with (csize d).
  2: { unfold csize in *. rewrite Z.add_comm. symmetry. apply u32_small. lia. }
  unfold pucHead, pucTail. rb_simpl. rewrite (proj2 (Z.leb_le _ _)) by lia. rb_simpl.
  f_equal. unfold nrm. rewrite u32_small by lia. unfold rbHEADER_SIZE. by case_match.
Qed.

Lemma write_dummy n r len flags :
  0 <= pucWrite r -> pucWrite r + 8 <= xSize r -> 16 <= xSize r < 2 ^ 31 -> pucWrite r <> pucAcquire r ->
  hdr (storage r) (pucWrite r) = (len, flags) -> has flags rbITEM_DUMMY_DATA_FLAG = true ->
  advance_write (S n) r =
    advance_write n (with_write 0 (with_storage (put_hdr (storage r) (pucWrite r) len (set_flag flags rbITEM_WRITTEN_FLAG)) r)).
Proof.
  intros Hf Hs Hs31 Hne Hh Hdm. cbn [advance_write]. rewrite header_hdr, Hh by lia.
  rewrite Hdm, orb_true_r, (proj2 (Z.eqb_neq _ _)) by done. cbn [andb negb].
  rewrite set_header_put by lia. unfold pucHead, pucTail. rb_simpl.
  rewrite u32_small by lia. unfold rbHEADER_SIZE. by rewrite (proj2 (Z.ltb_ge _ _)) by lia.
Qed.

Lemma wrap_acquire_nrm x r : 0 <= x <= xSize r -> xSize r < 2 ^ 31 ->
  wrap_acquire (with_acquire x r) = with_acquire (nrm (xSize r) x) r.
Proof.
  intros Hx Hs. unfold wrap_acquire, nrm, pucHead, pucTail, rbHEADER_SIZE. rb_simpl. rewrite u32_small by lia.
  by case_match.
Qed.

(** Where an item goes, and the storage with the dummy item before it. *)
Definition place (d : list Z) (r : Ringbuffer_t) : Z * list Z :=
  if xSize r - pucAcquire r <? csize d
  then (0, put_hdr (storage r) (pucAcquire r) 0 rbITEM_DUMMY_DATA_FLAG)
  else (pucAcquire r, storage r).

Lemma acquire_place d r :
  let '(a0, s0) := place d r in
  16 <= xSize r < 2 ^ 31 -> length (storage r) = Z.to_nat (xSize r) -> length d < 2 ^ 31 ->
  0 <= pucAcquire r -> pucAcquire r + 8 <= xSize r -> aligned (pucAcquire r) -> a0 + csize d <= xSize r ->
  prvAcquireItemNoSplit (length d) r =
    Some (check_full (with_acquire (nrm (xSize r) (a0 + csize d)) (with_storage (put_hdr s0 a0 (length d) 0) r)), a0 + 8).
Proof.
  destruct (place d r) as [a0 s0] eqn:E. intros Hsz Hl Hd Ha Ha8 Hal Hp. pose proof (csize_spec d Hd) as [Hc _].
  unfold prvAcquireItemNoSplit. rewrite check_aligned by done. unfold pucHead, pucTail.
  rewrite (proj2 (Z.leb_le 0 _)), (proj2 (Z.ltb_lt (pucAcquire r) (xSize r))) by lia. cbn [andb].
  rewrite u32_small by lia. unfold rbHEADER_SIZE in *. rewrite (proj2 (Z.leb_le 8 _)) by lia.
  replace (u32 (rbALIGN_SIZE (length d) + 8)) with (csize d)
    by (unfold csize, rbHEADER_SIZE in *; rewrite (Z.add_comm _ 8); symmetry; apply u32_small; lia).
  unfold place in E. unfold csize in E at 1. fold (csize d) in E.
  destruct (Z.ltb_spec (xSize r - pucAcquire r) (csize d)) as [Hw|Hw]; injection E as <- <-.
  - rewrite set_header_put by lia. rb_simpl. rewrite set_header_put by (rb_simpl; lia). rb_simpl.
    unfold csize, rbHEADER_SIZE in *. rewrite wrap_acquire_nrm by (rb_simpl; lia). done.
  - rewrite set_header_put by lia. rb_simpl. unfold csize, rbHEADER_SIZE in *.
    rewrite wrap_acquire_nrm by (rb_simpl; lia). done.
Qed.

Lemma check_full_flags r : exists f, check_full r = with_flags f r /\
  has f rbBUFFER_FULL_FLAG = is_full r || (pucAcquire r =? pucFree r) /\
  forall g, Z.land rbBUFFER_FULL_FLAG g = 0 -> has f g = has (uxRingbufferFlags r) g.
Proof.
  unfold check_full. destruct (pucAcquire r =? pucFree r).
  - exists (set_flag (uxRingbufferFlags r) rbBUFFER_FULL_FLAG). split; [done|].
    split; [rewrite has_set; by rewrite !orb_true_r|]. intros g Hg. rewrite has_set. unfold has at 2. rewrite Hg.
    by rewrite orb_false_r.
  - exists (uxRingbufferFlags r). rewrite orb_false_r. by destruct r.
Qed.

(** The storage once the item is written and marked. *)
Definition written (s0 : list Z) (a0 : Z) (d : list Z) : list Z :=
  put_hdr (write_bytes (put_hdr s0 a0 (length d) 0) (a0 + 8) d) a0 (length d) rbITEM_WRITTEN_FLAG.

Lemma written_spec s0 a0 d :
  length d < 2 ^ 31 -> 0 <= a0 -> a0 + csize d <= length s0 ->
  length (written s0 a0 d) = length s0 /\ item_at (written s0 a0 d) a0 d /\
  forall lo hi, 0 <= lo -> hi <= a0 \/ a0 + csize d <= lo -> agree s0 (written s0 a0 d) lo hi.
Proof.
  intros Hd Ha Hs. pose proof (csize_spec d Hd) as [Hc _]. unfold written.
  set (s1 := put_hdr s0 a0 (length d) 0). assert (Hl1 : length s1 = length s0) by (apply put_hdr_length; lia).
  set (s2 := write_bytes s1 (a0 + 8) d). assert (Hl2 : length s2 = length s0) by (rewrite <- Hl1; apply write_bytes_length; lia).
  split; [rewrite put_hdr_length; lia|]. split; [split|].
  - apply put_hdr_hdr; unfold in_range, rbITEM_WRITTEN_FLAG; lia.
  - rewrite (agree_bytes s2 _ (a0 + 8) (a0 + 8 + length d)); try lia; rewrite ?put_hdr_length by lia; try lia.
    + apply write_inside; lia.
    + apply put_hdr_outside; lia.
  - intros lo hi Hlo Ho k Hk. rewrite (put_hdr_outside s2 a0 _ _ k (k + 1)) by lia.
    unfold s2. rewrite (write_outside s1 (a0 + 8) d k (k + 1)) by lia. apply (put_hdr_outside s0 a0 _ _ k (k + 1)); lia.
Qed.

(** The write pointer reaches the acquire pointer. *)
Lemma write_reaches_acquire r d a :
  let a0 := if dummy_at (storage r) (pucWrite r) && (xSize r - pucWrite r <? csize d) then 0 else pucWrite r in
  16 <= xSize r < 2 ^ 31 -> length (storage r) = Z.to_nat (xSize r) -> 0 <= pucWrite r -> pucWrite r + 8 <= xSize r ->
  length d < 2 ^ 31 -> a0 + csize d <= xSize r -> csize d + 8 <= xSize r -> a0 = pucWrite r \/ a0 + csize d <= pucWrite r ->
  item_at (storage r) a0 d -> a = nrm (xSize r) (a0 + csize d) -> pucAcquire r = a ->
  (dummy_at (storage r) (pucWrite r) = true -> hdr (storage r) (pucWrite r) = (0, rbITEM_DUMMY_DATA_FLAG)) ->
  exists s', advance_write (item_fuel r) r = Some (with_write a (with_storage s' r)) /\ length s' = length (storage r) /\
    (forall lo hi, 0 <= lo -> hi <= pucWrite r \/ pucWrite r + 8 <= lo -> agree (storage r) s' lo hi) /\
    (a0 = pucWrite r -> s' = storage r) /\ (dummy_at (storage r) (pucWrite r) = true -> dummy_at s' (pucWrite r) = true).
Proof.
  intros a0 Hsz Hl Hw Hw8 Hd Hp Hc8 Hpos Hi Ha Hacq Hdm. destruct (item_fuel_3 r ltac:(lia)) as [n ->].
  pose proof (csize_spec d Hd) as [Hc _]. pose proof Hi as [Hh _].
  assert (Ha0 : 0 <= a /\ a + 8 <= xSize r).
  { rewrite Ha. unfold nrm. destruct (Z.ltb_spec (xSize r - (a0 + csize d)) 8); unfold a0 in *; case_match; lia. }
  destruct (Z.eq_dec (pucWrite r) a) as [E|E].
  { exists (storage r). rewrite write_stop by lia. rewrite <- E. split; [by destruct r|]. done. }
  unfold a0 in *. destruct (dummy_at (storage r) (pucWrite r)) eqn:Ed; cbn [andb] in *.
  - destruct (Z.ltb_spec (xSize r - pucWrite r) (csize d)) as [Hlt|Hge].
    + unfold dummy_at in Ed. destruct (hdr (storage r) (pucWrite r)) as [len fl] eqn:Eh. cbn [snd] in Ed.
      set (s1 := put_hdr (storage r) (pucWrite r) len (set_flag fl rbITEM_WRITTEN_FLAG)). exists s1.
      assert (Hl1 : length s1 = length (storage r)) by (apply put_hdr_length; lia).
      assert (Hout : forall lo hi, 0 <= lo -> hi <= pucWrite r \/ pucWrite r + 8 <= lo -> agree (storage r) s1 lo hi)
        by (intros; apply put_hdr_outside; lia).
      assert (Hh1 : hdr s1 0 = (length d : Z, rbITEM_WRITTEN_FLAG)).
      { rewrite <- Hh. apply (agree_hdr _ _ 0 (pucWrite r)); try lia. apply Hout; lia. }
      rewrite (write_dummy _ _ len fl) by (done || lia). fold s1.
      rewrite nrm_small in Ha by lia. rewrite (write_item _ _ d rbITEM_WRITTEN_FLAG) by (rb_simpl; (done || lia)). rb_simpl.
      rewrite nrm_small by lia. rewrite <- Ha. rewrite write_stop by (rb_simpl; lia).
      split; [done|]. split; [done|]. split; [done|]. split; [lia|]. intros _.
      specialize (Hdm eq_refl). injection Hdm as -> ->. unfold dummy_at, s1. by rewrite put_hdr_hdr by (unfold in_range; (lia || done)).
    + by rewrite (item_not_dummy _ _ _ Hi) in Ed.
  - exists (storage r). rewrite (write_item _ _ d rbITEM_WRITTEN_FLAG) by (done || lia). rewrite <- Ha.
    rewrite write_stop by (rb_simpl; lia). split; [by destruct r|]. done.
Qed.

(** The buffer after a copy. *)
Lemma copy_item d r :
  let '(a0, s0) := place d r in
  let a' := nrm (xSize r) (a0 + csize d) in
  16 <= xSize r < 2 ^ 31 -> length (storage r) = Z.to_nat (xSize r) -> length d <= xMaxItemSize r -> length d < 2 ^ 31 ->
  0 <= pucAcquire r -> pucAcquire r + 8 <= xSize r -> aligned (pucAcquire r) -> pucWrite r = pucAcquire r ->
  csize d + 8 <= xSize r -> (xSize r - pucAcquire r < csize d -> csize d <= pucAcquire r) ->
  exists s' f,
    prvCopyItemNoSplit d r = Some (with_flags f (with_acquire a' (with_write a' (with_waiting (xItemsWaiting r + 1)
      (with_storage s' r))))) /\
    has f rbBUFFER_FULL_FLAG = is_full r || (a' =? pucFree r) /\
    (forall g, Z.land rbBUFFER_FULL_FLAG g = 0 -> has f g = has (uxRingbufferFlags r) g) /\
    length s' = length (storage r) /\ item_at s' a0 d /\
    (a0 <> pucAcquire r -> dummy_at s' (pucAcquire r) = true) /\
    (forall lo hi, 0 <= lo -> hi <= a0 \/ a0 + csize d <= lo ->
       (a0 <> pucAcquire r -> hi <= pucAcquire r \/ pucAcquire r + 8 <= lo) -> agree (storage r) s' lo hi).
Proof.
  pose proof (acquire_place d r) as Hacq. destruct (place d r) as [a0 s0] eqn:E.
  intros a' Hsz Hl Hm Hd Ha Ha8 Hal Hw Hc8 Hwrap. pose proof (csize_spec d Hd) as [Hc Hca].
  assert (Hs0 : a0 + csize d <= xSize r /\ 0 <= a0 /\ aligned a0 /\ length s0 = length (storage r) /\
    (a0 <> pucAcquire r -> hdr s0 (pucAcquire r) = (0, rbITEM_DUMMY_DATA_FLAG) /\ a0 = 0 /\ csize d <= pucAcquire r /\ xSize r - pucAcquire r < csize d) /\
    (a0 = pucAcquire r -> s0 = storage r) /\
    forall lo hi, 0 <= lo -> (a0 <> pucAcquire r -> hi <= pucAcquire r \/ pucAcquire r + 8 <= lo) -> agree (storage r) s0 lo hi).
  { unfold place in E. destruct (Z.ltb_spec (xSize r - pucAcquire r) (csize d)) as [Hlt|Hge]; injection E as <- <-.
    - specialize (Hwrap Hlt). split; [lia|]. split; [lia|]. split; [done|]. split; [apply put_hdr_length; lia|].
      split; [intros _; split; [apply put_hdr_hdr; unfold in_range, rbITEM_DUMMY_DATA_FLAG; lia|lia]|]. split; [lia|].
      intros lo hi Hlo Ho. apply put_hdr_outside; lia.
    - split; [lia|]. split; [lia|]. split; [done|]. split; [done|]. split; [lia|]. by split. }
  destruct Hs0 as (Hp & Ha0 & Hal0 & Hl0 & Hdum & Hsame & Hout0).
  specialize (Hacq Hsz Hl Hd Ha Ha8 Hal Hp).
  destruct (written_spec s0 a0 d Hd Ha0 ltac:(lia)) as (Hl1 & Hi & Hout1).
  unfold prvCopyItemNoSplit. rewrite Hacq. clear Hacq. fold a'.
  destruct (check_full_flags (with_acquire a' (with_storage (put_hdr s0 a0 (length d) 0) r))) as (f & -> & Hf & Hg).
  rb_simpl. rewrite store_ok by (rb_simpl; lia). rb_simpl.
  assert (Hlh : length (put_hdr s0 a0 (length d) 0) = length (storage r)) by (rewrite put_hdr_length; lia).
  assert (Hlw : length (write_bytes (put_hdr s0 a0 (length d) 0) (a0 + 8) d) = length (storage r))
    by (rewrite write_bytes_length; lia).
  assert (Hhdr : hdr (write_bytes (put_hdr s0 a0 (length d) 0) (a0 + 8) d) a0 = (length d : Z, 0)).
  { rewrite (agree_hdr (put_hdr s0 a0 (length d) 0) _ a0 (a0 + 8)); try lia.
    - apply put_hdr_hdr; unfold in_range; lia.
    - apply write_outside; lia. }
  unfold prvSendItemDoneNoSplit. rewrite check_aligned by (unfold aligned in *; zlia).
  unfold pucHead, pucTail, rbHEADER_SIZE. rb_simpl.
  rewrite (proj2 (Z.leb_le 0 _)), (proj2 (Z.leb_le (a0 + 8) (xSize r))) by lia.
  replace (a0 + 8 - 8) with a0 by lia. rewrite header_hdr by (rb_simpl; lia). rb_simpl. rewrite Hhdr.
  rewrite (proj2 (Z.leb_le _ _)) by done. change (has 0 rbITEM_DUMMY_DATA_FLAG) with false.
  change (has 0 rbITEM_WRITTEN_FLAG) with false. cbn [negb].
  change (set_flag (clear_flag 0 rbITEM_SPLIT_FLAG) rbITEM_WRITTEN_FLAG) with rbITEM_WRITTEN_FLAG.
  rewrite set_header_put by (rb_simpl; lia). rb_simpl. fold (written s0 a0 d).
  match goal with |- context [advance_write _ ?x] => set (r1 := x) end.
  assert (Hdw : dummy_at (written s0 a0 d) (pucAcquire r) = true ->
    hdr (written s0 a0 d) (pucAcquire r) = (0, rbITEM_DUMMY_DATA_FLAG) /\ xSize r - pucAcquire r < csize d /\ a0 = 0).
  { intros Hdm. destruct (Z.eq_dec a0 (pucAcquire r)) as [Ea|Ea].
    - rewrite <- Ea in Hdm. by rewrite (item_not_dummy _ _ _ Hi) in Hdm.
    - destruct (Hdum Ea) as (Hh & H0 & Hle & Hlt). split; [|done]. rewrite <- Hh.
      apply (agree_hdr _ _ (pucAcquire r) (pucAcquire r + 8)); try lia. apply Hout1; lia. }
  assert (Hdr : a0 <> pucAcquire r -> dummy_at (written s0 a0 d) (pucAcquire r) = true).
  { intros Ea. destruct (Hdum Ea) as (Hh & H0 & Hle & Hlt). unfold dummy_at.
    rewrite (agree_hdr s0 _ (pucAcquire r) (pucAcquire r + 8)); try lia; [by rewrite Hh|]. apply Hout1; lia. }
  assert (Ea0 : (if dummy_at (written s0 a0 d) (pucAcquire r) && (xSize r - pucAcquire r <? csize d) then 0
                 else pucAcquire r) = a0).
  { destruct (dummy_at (written s0 a0 d) (pucAcquire r)) eqn:Ed; cbn [andb].
    - destruct (Hdw eq_refl) as (_ & Hlt & ->). by rewrite (proj2 (Z.ltb_lt _ _)).
    - destruct (Z.eq_dec a0 (pucAcquire r)) as [Ea|Ea]; [done|]. discriminate (Hdr Ea). }
  destruct (write_reaches_acquire r1 d a') as (s' & E' & Hl' & Hout' & Hsame' & Hdm'); subst r1; rb_simpl;
    rewrite ?Hw, ?Ea0; try done; try lia.
  { intros Hdm. by apply Hdw. }
  rewrite Hw, ?Ea0 in *. rewrite E'. exists s', f. split; [done|]. split; [exact Hf|]. split; [exact Hg|].
  split; [lia|].
  assert (Hagree : forall lo hi, 0 <= lo -> (a0 <> pucAcquire r -> hi <= pucAcquire r \/ pucAcquire r + 8 <= lo) ->
    agree (written s0 a0 d) s' lo hi).
  { intros lo hi Hlo Ho. destruct (Z.eq_dec a0 (pucAcquire r)) as [Ea|Ea]; [by rewrite (Hsame' Ea)|]. apply Hout'; auto. }
  split; [|split].
  - apply (item_agree (written s0 a0 d) s' a0 (a0 + csize d)); try lia; [|done]. apply Hagree; [lia|].
    intros Ea. destruct (Hdum Ea) as (_ & H0 & Hle & _). lia.
  - auto.
  - intros lo hi Hlo Ho Ho2 k Hk. rewrite (Hagree lo hi Hlo Ho2) by done. rewrite (Hout1 lo hi Hlo Ho) by done.
    by apply (Hout0 lo hi).
Qed.

(** Whether an item fits now. *)
Definition room (d : list Z) (r : Ringbuffer_t) : bool :=
  if pucAcquire r =? pucFree r then negb (is_full r)
  else if pucAcquire r <? pucFree r then csize d <=? pucFree r - pucAcquire r
  else (csize d <=? xSize r - pucAcquire r) || (csize d <=? pucFree r).

Lemma item_fits r h w d : item_repr r h w -> length d < 2 ^ 31 - 11 ->
  xCheckItemFits r (length d) r = Some (room d r).
Proof.
  intros H Hd. pose proof (csize_spec d ltac:(lia)) as [Hc _].
  destruct H as [Ht _ Hsp Hsz _ _ _ (Hf & Hf8 & _) (Ha & Ha8 & Haa) _ _ _ _ _ _].
  unfold xCheckItemFits. rewrite Ht. unfold prvCheckItemFitsDefault, room. rewrite check_aligned by done.
  unfold pucHead, pucTail. rewrite (proj2 (Z.leb_le 0 _)), (proj2 (Z.ltb_lt (pucAcquire r) (xSize r))) by lia. cbn [andb].
  replace (u32 (rbALIGN_SIZE (length d) + rbHEADER_SIZE)) with (csize d).
  2: { unfold csize in *. rewrite Z.add_comm. symmetry. apply u32_small. lia. }
  rewrite Hsp. f_equal. destruct (Z.eqb_spec (pucAcquire r) (pucFree r)); [done|].
  destruct (Z.ltb_spec (pucAcquire r) (pucFree r)); [by rewrite u32_small by lia|].
  rewrite !u32_small by lia. rewrite Z.sub_0_r. by destruct (csize d <=? xSize r - pucAcquire r).
Qed.

Lemma layout_inv s size f a full cs : layout s size f a full cs ->
  (full = false /\ f <= a /\ seg s f cs a) \/
  exists ds1 ds2 e, cs = ds1 ++ ds2 /\ full = (a =? f) /\ a <= f /\ seg s f ds1 e /\ e <= size /\
    (size - e < 8 \/ (e + 8 <= size /\ dummy_at s e = true /\ ds2 <> [])) /\ seg s 0 ds2 a.
Proof. intros []; [by left|right; eauto 10]. Qed.

(** An item written at the acquire pointer, or at the start after a dummy. *)
Lemma layout_push_here s s' size f a full cs d :
  layout s size f a full cs -> full = false -> 0 <= f -> f + 8 <= size -> 0 <= a -> a + csize d <= size ->
  length s = Z.to_nat size -> length s' = length s -> length d < 2 ^ 31 -> (a < f -> a + csize d <= f) -> csize d + 8 <= size ->
  item_at s' a d -> (forall lo hi, 0 <= lo -> hi <= a \/ a + csize d <= lo -> agree s s' lo hi) ->
  layout s' size f (nrm size (a + csize d)) (nrm size (a + csize d) =? f) (cs ++ [d]).
Proof.
  intros H Hfull Hf Hf8 Ha Ha8 Hl Hl' Hd Hroom Hc8 Hi Hag. pose proof (csize_spec d Hd) as [Hc _].
  apply layout_inv in H as [(_ & Hle & Hs)|(ds1 & ds2 & e & -> & -> & Hle & Hs & He & Ht & Hs2)].
  - assert (Hs' : seg s' f (cs ++ [d]) (a + csize d)).
    { apply seg_app. exists a. split; [apply (seg_agree s); try lia; [apply Hag; lia|done]|]. cbn. done. }
    destruct (Z.ltb_spec (size - (a + csize d)) 8) as [Hend|Hend].
    + rewrite nrm_end by done. rewrite <- (app_nil_r (cs ++ [d])).
      apply layout_wrap with (e := a + csize d); [lia|done|lia|by left|done].
    + rewrite nrm_small by lia. rewrite (proj2 (Z.eqb_neq _ _)) by lia. apply layout_line; [lia|done].
  - apply Z.eqb_neq in Hfull. specialize (Hroom ltac:(lia)). rewrite nrm_small by lia. rewrite <- app_assoc.
    pose proof (seg_le _ _ _ _ Hs). pose proof (seg_le _ _ _ _ Hs2).
    apply layout_wrap with (e := e); [lia| |done| |].
    + apply (seg_agree s); try lia; [apply Hag; lia|done].
    + destruct Ht as [Ht|(He8 & Hdm & Hne)]; [by left|right]. split; [done|]. split; [|by destruct ds2].
      rewrite <- Hdm. unfold dummy_at. f_equal. f_equal. apply (agree_hdr s s' e (e + 8)); try lia. apply Hag; lia.
    + apply seg_app. exists a. split; [apply (seg_agree s); try lia; [apply Hag; lia|done]|]. cbn. done.
Qed.

Lemma layout_push_wrapped s s' size f a full cs d :
  layout s size f a full cs -> f <= a -> 0 <= f -> f + 8 <= size -> a + 8 <= size -> csize d <= f -> full = false ->
  length s = Z.to_nat size -> length s' = length s -> length d < 2 ^ 31 ->
  item_at s' 0 d -> dummy_at s' a = true ->
  (forall lo hi, 0 <= lo -> csize d <= lo -> hi <= a \/ a + 8 <= lo -> agree s s' lo hi) ->
  layout s' size f (csize d) (csize d =? f) (cs ++ [d]).
Proof.
  intros H Hfa Hf Hf8 Ha8 Hc Hfull Hl Hl' Hd Hi Hdm Hag. pose proof (csize_spec d Hd) as [Hc0 _].
  apply layout_inv in H as [(_ & Hle & Hs)|(ds1 & ds2 & e & -> & -> & Hle & Hs & He & Ht & Hs2)].
  - apply layout_wrap with (e := a); [done| |lia|right; split; [done|]; by split|cbn; done].
    apply (seg_agree s); try lia; [apply Hag; lia|done].
  - apply Z.eqb_neq in Hfull. lia.
Qed.

(** The first of the items is not touched by writing in the free space. *)
Lemma layout_first_bound s size f a full d ds :
  layout s size f a full (d :: ds) -> 0 <= f -> f + 8 <= size -> length d < 2 ^ 31 -> f < a -> f + 8 <= a.
Proof.
  intros H Hf Hf8 Hd Hfa. inversion H as [ds' Hle Hs|ds1 ds2 e Hle Hs He Ht Hs2]; subst; [|lia].
  cbn in Hs. destruct Hs as (_ & _ & Hs). apply seg_le in Hs. pose proof (csize_spec d Hd). lia.
Qed.

Lemma send_item r h w d :
  item_repr r h w -> length d <= xMaxItemSize r -> room d r = true ->
  exists r', prvCopyItemNoSplit d r = Some r' /\ item_repr r' h (w ++ [d]) /\ xSize r' = xSize r /\
    pucFree r' = pucFree r /\ (h <> [] -> start (storage r') (pucFree r') = start (storage r) (pucFree r)).
Proof.
  intros H Hm Hroom. pose proof (ir_max_bound _ _ _ H) as [Hmb Hma].
  destruct H as [Ht Hby Hsp Hsz Hal Hmx Hl (Hf & Hf8 & Hfa) (Ha & Ha8 & Haa) Hw Hr Hit Hh Hmi Hlay].
  assert (Hd : length d < 2 ^ 31) by lia. pose proof (csize_spec d Hd) as [Hc Hca].
  assert (Hc8 : csize d <= xMaxItemSize r + 8 /\ csize d + 8 <= xSize r).
  { unfold csize, rbHEADER_SIZE in *. pose proof (align_size_spec (length d) ltac:(lia)) as [? ?]. unfold aligned in *. zlia. }
  unfold room in Hroom.
  assert (Hnf : is_full r = false /\ (pucAcquire r < pucFree r -> pucAcquire r + csize d <= pucFree r) /\
    (xSize r - pucAcquire r < csize d -> pucFree r <= pucAcquire r /\ csize d <= pucFree r)).
  { assert (Hlf : pucAcquire r <> pucFree r -> is_full r = false)
      by (apply layout_inv in Hlay as [(? & _)|(? & ? & ? & _ & -> & _)]; intros; [done|by apply Z.eqb_neq]).
    destruct (Z.eqb_spec (pucAcquire r) (pucFree r)) as [E|E]; [apply negb_true_iff in Hroom|specialize (Hlf E)].
    - split; [done|]. split; [lia|]. intros Hlt. split; [lia|]. rewrite <- E. unfold aligned in *. zlia.
    - split; [done|]. destruct (Z.ltb_spec (pucAcquire r) (pucFree r)); to_prop; [lia|].
      apply orb_true_iff in Hroom. rewrite !Z.leb_le in Hroom. lia. }
  destruct Hnf as (Hnf & Hroom1 & Hroom2).
  pose proof (copy_item d r) as Hcopy. destruct (place d r) as [a0 s0] eqn:E.
  destruct Hcopy as (s' & fl & -> & Hfull & Hoth & Hl' & Hi & Hdm & Hag); try done; try lia.
  eexists. split; [reflexivity|]. rb_simpl. rewrite Hnf in Hfull. cbn [orb] in Hfull.
  assert (Hlay' : layout s' (xSize r) (pucFree r) (nrm (xSize r) (a0 + csize d)) (nrm (xSize r) (a0 + csize d) =? pucFree r)
      ((h ++ w) ++ [d]) /\ (h <> [] -> dummy_at s' (pucFree r) = dummy_at (storage r) (pucFree r)) /\
      0 <= nrm (xSize r) (a0 + csize d) /\ nrm (xSize r) (a0 + csize d) + 8 <= xSize r /\
      aligned (nrm (xSize r) (a0 + csize d))).
  { assert (Hfirst : h <> [] -> pucFree r < pucAcquire r -> pucFree r + 8 <= pucAcquire r).
    { destruct h as [|x h]; [done|]. intros _. cbn in Hlay. apply (layout_first_bound _ _ _ _ _ _ _ Hlay); try done.
      cbn in Hmi. apply Forall_cons in Hmi as [Hx _]. lia. }
    assert (Hne : h <> [] -> pucFree r <> pucAcquire r).
    { destruct h as [|x h]; [done|]. intros _ Eq. cbn in Hlay.
      by rewrite (layout_nonempty _ _ _ _ _ _ _ Hlay Hf Hf8 (eq_sym Eq)) in Hnf. }
    assert (Hdum : forall lo hi, agree (storage r) s' lo hi -> lo = pucFree r -> hi = pucFree r + 8 ->
      dummy_at s' (pucFree r) = dummy_at (storage r) (pucFree r)).
    { intros lo hi Hx -> ->. unfold dummy_at. f_equal. f_equal.
      apply (agree_hdr _ _ (pucFree r) (pucFree r + 8)); (done || lia). }
    unfold place in E. destruct (Z.ltb_spec (xSize r - pucAcquire r) (csize d)) as [Hlt|Hge]; injection E as <- <-.
    - specialize (Hroom2 Hlt). specialize (Hdm ltac:(lia)). rewrite Z.add_0_l in *. rewrite nrm_small by lia.
      split; [|split; [|split; [lia|split; [lia|done]]]].
      + apply (layout_push_wrapped (storage r)) with (a := pucAcquire r) (full := is_full r); (done || lia || (intros; apply Hag; intros; lia)).
      + intros Hh0. specialize (Hfirst Hh0). specialize (Hne Hh0). apply (Hdum (pucFree r) (pucFree r + 8)); [apply Hag; intros; lia|done|done].
    - split; [|split].
      + apply (layout_push_here (storage r)) with (full := is_full r); (done || lia || (intros; apply Hag; intros; (done || lia))).
      + intros Hh0. specialize (Hfirst Hh0). specialize (Hne Hh0).
        apply (Hdum (pucFree r) (pucFree r + 8)); [apply Hag; intros; lia|done|done].
      + unfold nrm. destruct (Z.ltb_spec (xSize r - (pucAcquire r + csize d)) 8); unfold aligned in *;
          (split; [lia|split; [lia|zlia]]). }
  destruct Hlay' as (Hlay' & Hst & Hn0 & Hn8 & Hna).
  assert (Hstart : h <> [] -> start s' (pucFree r) = start (storage r) (pucFree r))
    by (intros Hne; unfold start; by rewrite (Hst Hne)).
  split; [|split; [done|]; split; [done|exact Hstart]].
  split; unfold is_full; rb_simpl; rewrite ?Hoth by done; rewrite ?Hfull; try done; try lia.
  - rewrite Hr. unfold read_pos. destruct h; [done|]. by rewrite Hstart.
  - rewrite length_app. cbn. lia.
  - rewrite app_assoc. apply Forall_app. split; [done|]. by constructor.
  - by rewrite app_assoc.
Qed.

Lemma room_empty r d : item_repr r [] [] -> room d r = true.
Proof.
  intros H. pose proof (ir_layout _ _ _ H) as Hl. pose proof (ir_free _ _ _ H) as (Hf & Hf8 & _). unfold room.
  apply layout_inv in Hl as [(-> & Hle & Hs)|(ds1 & ds2 & e & E & _ & Hle & Hs & He & Ht & Hs2)].
  - cbn in Hs. rewrite Hs, Z.eqb_refl. done.
  - symmetry in E. apply app_nil in E as [-> ->]. cbn in Hs. subst e. destruct Ht as [Ht|(_ & _ & Ht)]; [lia|done].
Qed.

Lemma send_public r h w d :
  item_repr r h w ->
  let ok := (length d <=? xMaxItemSize r) && room d r in
  exists r', xRingbufferSend d r = Some (r', ok) /\ item_repr r' h (if ok then w ++ [d] else w) /\ xSize r' = xSize r /\
    pucFree r' = pucFree r /\ (h <> [] -> start (storage r') (pucFree r') = start (storage r) (pucFree r)).
Proof.
  intros H ok. subst ok. pose proof (ir_max_bound _ _ _ H) as [Hmb _]. pose proof (ir_size _ _ _ H) as Hsz.
  unfold xRingbufferSend. rewrite (ir_byte _ _ _ H). cbn [andb].
  destruct (Z.ltb_spec (xMaxItemSize r) (length d)) as [Hm|Hm].
  { exists r. by rewrite (proj2 (Z.leb_gt _ _)) by lia. }
  rewrite (proj2 (Z.leb_le (length d) _)) by lia. cbn [andb]. unfold send_generic. rewrite (item_fits r h w d H) by lia.
  destruct (room d r) eqn:E; [|by exists r]. unfold vCopyItem. rewrite (ir_type _ _ _ H).
  destruct (send_item r h w d H Hm E) as (r' & -> & Hr'). by exists r'.
Qed.

Lemma receive_public r w : item_repr r [] w ->
  xRingbufferReceive r =
    match w with
    | [] => Some (r, None)
    | d :: _ => Some (got d r, Some (Received (start (storage r) (pucFree r) + 8, length d : Z) None))
    end.
Proof.
  intros H. unfold xRingbufferReceive, prvReceiveGeneric, prvCheckItemAvail.
  rewrite (ir_byte _ _ _ H). cbn [andb]. rewrite (item_avail r w H).
  destruct w as [|d w]; [done|]. rewrite (proj2 (Z.ltb_lt 0 _)) by (cbn; lia). rewrite (get_item r d w H).
  change (uxRingbufferFlags (got d r)) with (uxRingbufferFlags r). by rewrite (ir_split _ _ _ H).
Qed.

(** ** A client of the buffer

    The client returns an item before it receives the next one. *)

Inductive item_op := ISend (d : list Z) | IReceive | IReturn.
Inductive item_event := ISent (d : list Z) (ok : bool) | IGot (d : list Z) | IGaveBack (d : list Z) | INothing.

Record item_client := ItemClient { ibuffer : Ringbuffer_t; iholding : option (Z * Z) }.

Definition item_step (op : item_op) (c : item_client) : option (item_client * item_event) :=
  let r := ibuffer c in
  match op, iholding c with
  | ISend d, _ => let! (r, ok) := xRingbufferSend d r in Some (ItemClient r (iholding c), ISent d ok)
  | IReceive, None =>
      let! (r, it) := xRingbufferReceive r in
      match it with
      | Some it => let '(p, n) := item1 it in Some (ItemClient r (Some (p, n)), IGot (bytes_at (storage r) p n))
      | None => Some (ItemClient r None, INothing)
      end
  | IReturn, Some (p, n) =>
      let! r' := vRingbufferReturnItem p r in Some (ItemClient r' None, IGaveBack (bytes_at (storage r) p n))
  | _, _ => Some (c, INothing)
  end.

Fixpoint item_run (ops : list item_op) (c : item_client) : option (item_client * list item_event) :=
  match ops with
  | [] => Some (c, [])
  | op :: ops => let! (c, e) := item_step op c in let! (c, es) := item_run ops c in Some (c, e :: es)
  end.

(** The specification: a queue of items, of which the client may hold the
    first. An item that is not too large is accepted by an empty queue. *)
Inductive items_step (max : Z) : list (list Z) * list (list Z) -> item_op -> item_event -> list (list Z) * list (list Z) -> Prop :=
  | items_send h q d ok :
      (ok = true -> length d <= max) -> (h = [] -> q = [] -> length d <= max -> ok = true) ->
      items_step max (h, q) (ISend d) (ISent d ok) (h, if ok : bool then q ++ [d] else q)
  | items_receive d q : items_step max ([], d :: q) IReceive (IGot d) ([d], q)
  | items_receive_nothing h q : h <> [] \/ q = [] -> items_step max (h, q) IReceive INothing (h, q)
  | items_return d q : items_step max ([d], q) IReturn (IGaveBack d) ([], q)
  | items_return_nothing q : items_step max ([], q) IReturn INothing ([], q).

Inductive items_run (max : Z) :
    list (list Z) * list (list Z) -> list item_op -> list item_event -> list (list Z) * list (list Z) -> Prop :=
  | items_run_nil s : items_run max s [] [] s
  | items_run_cons s op e s' ops es s'' :
      items_step max s op e s' -> items_run max s' ops es s'' -> items_run max s (op :: ops) (e :: es) s''.

#[local] Hint Constructors items_step items_run : core.

Definition sent_items (es : list item_event) : list (list Z) :=
  omap (fun e => match e with ISent d true => Some d | _ => None end) es.
Definition returned_items (es : list item_event) : list (list Z) :=
  omap (fun e => match e with IGaveBack d => Some d | _ => None end) es.

Lemma items_run_stream max s ops es s' :
  items_run max s ops es s' -> s.1 ++ s.2 ++ sent_items es = returned_items es ++ s'.1 ++ s'.2.
Proof.
  unfold sent_items, returned_items.
  induction 1 as [s|s op e s' ops es s'' Hs _ IH]; cbn; [by rewrite app_nil_r|].
  destruct Hs as [h q d [] Hok He|d q|h q Hn|d q|q]; cbn in *; rewrite <- ?app_assoc in *; try done.
  by rewrite <- IH.
Qed.

Definition iclient_repr (size : Z) (c : item_client) (s : list (list Z) * list (list Z)) : Prop :=
  item_repr (ibuffer c) s.1 s.2 /\ xSize (ibuffer c) = size /\
  match iholding c with
  | Some (p, n) => exists d, s.1 = [d] /\ p = start (storage (ibuffer c)) (pucFree (ibuffer c)) + 8 /\ n = length d
  | None => s.1 = []
  end.

(** The largest item of a buffer of a size. *)
Definition max_item (size : Z) : Z := rbALIGN_SIZE (size / 2) - rbHEADER_SIZE.

Lemma item_step_refines size c s op : iclient_repr size c s ->
  exists c' e s', item_step op c = Some (c', e) /\ items_step (max_item size) s op e s' /\ iclient_repr size c' s'.
Proof.
  destruct s as [h q]. intros (H & <- & Hh). cbn [fst snd] in *. pose proof (ir_max _ _ _ H) as Hmax.
  fold (max_item (xSize (ibuffer c))) in Hmax. destruct op as [d| |]; cbn [item_step].
  - destruct (send_public _ h q d H) as (r' & -> & Hr' & Hs & Hfr & Hst). rewrite Hmax in *.
    exists (ItemClient r' (iholding c)). do 2 eexists. split; [reflexivity|]. split.
    + constructor.
      * by intros [?%Z.leb_le _]%andb_true_iff.
      * intros -> -> Hd. rewrite (room_empty _ _ H), andb_true_r. by apply Z.leb_le.
    + split; [exact Hr'|]. split; [exact Hs|]. cbn. destruct (iholding c) as [[p n]|]; [|done].
      destruct Hh as (d' & -> & -> & ->). exists d'. split; [done|]. by rewrite Hst.
  - destruct (iholding c) as [[p n]|] eqn:Eh.
    + destruct Hh as (d' & -> & Hpn). exists c, INothing, ([d'], q). split; [done|]. split; [constructor; by left|].
      split; [done|]. split; [done|]. rewrite Eh. by exists d'.
    + subst h. rewrite (receive_public _ q H). destruct q as [|d q].
      * exists (ItemClient (ibuffer c) None), INothing, ([], []). split; [done|]. split; [constructor; by right|]. by split.
      * destruct (first_item _ [] (d :: q) d q H eq_refl) as (_ & [_ Hb] & _).
        eexists. exists (IGot d), ([d], q). cbn [item1]. change (storage (got d (ibuffer c))) with (storage (ibuffer c)).
        rewrite Hb. split; [reflexivity|]. split; [constructor|]. split; [by apply got_repr|]. split; [done|]. by exists d.
  - destruct (iholding c) as [[p n]|] eqn:Eh.
    + destruct Hh as (d & -> & -> & ->). destruct (first_item _ [d] q d q H eq_refl) as (_ & [_ Hb] & _).
      destruct (return_item _ d q H) as (r' & -> & Hr' & Hs). rewrite Hb.
      exists (ItemClient r' None), (IGaveBack d), ([], q). split; [done|]. split; [constructor|]. by split.
    + subst h. exists c, INothing, ([], q). split; [done|]. split; [constructor|]. split; [done|]. by rewrite Eh.
Qed.

Lemma item_run_refines size ops : forall c s, iclient_repr size c s ->
  exists c' es s', item_run ops c = Some (c', es) /\ items_run (max_item size) s ops es s' /\ iclient_repr size c' s'.
Proof.
  induction ops as [|op ops IH]; intros c s H; [exists c, [], s; by split|].
  destruct (item_step_refines size c s op H) as (c1 & e & s1 & E & Hq & H1).
  destruct (IH c1 s1 H1) as (c2 & es & s2 & E2 & Hq2 & H2).
  exists c2, (e :: es), s2. cbn [item_run]. rewrite E, E2. eauto.
Qed.

Lemma new_item_repr size s :
  16 <= size < 2 ^ 31 -> aligned size -> length s = Z.to_nat size ->
  item_repr (prvInitializeNewRingbuffer size RINGBUF_TYPE_NOSPLIT s) [] [].
Proof.
  intros Hs Ha Hl. unfold prvInitializeNewRingbuffer. split; unfold is_full; rb_simpl; try done; try lia.
  - unfold rbHEADER_SIZE. rewrite align_size by zlia. rewrite u32_small; [done|]. unfold aligned in Ha. zlia.
  - split; [lia|]. split; [lia|done].
  - split; [lia|]. split; [lia|done].
  - cbn. lia.
  - by apply layout_line.
Qed.

(** The free size a buffer reports, against what it accepts. *)
Lemma free_size_room r h w d :
  item_repr r h w -> length d <= xMaxItemSize r ->
  (room d r = true -> length d <= xRingbufferGetCurFreeSize r) /\
  (0 < length d -> length d <= xRingbufferGetCurFreeSize r -> room d r = true).
Proof.
  intros H Hm. pose proof (ir_max_bound _ _ _ H) as [Hmb Hma]. pose proof (ir_layout _ _ _ H) as Hl.
  destruct H as [Ht _ _ Hsz Hal _ _ (Hf & Hf8 & Hfa) (Ha & Ha8 & Haa) _ _ _ _ _ _].
  pose proof (align_size_spec (length d) ltac:(lia)) as [Hc Hca].
  unfold xRingbufferGetCurFreeSize, xGetCurMaxSize, prvGetCurMaxSizeNoSplit, limit_size, room, csize, pucHead, pucTail,
    rbHEADER_SIZE. rewrite Ht. unfold aligned in *.
  assert (Hfull : is_full r = true -> pucAcquire r = pucFree r).
  { intros E. apply layout_inv in Hl as [(E2 & _)|(? & ? & ? & _ & E2 & _)]; rewrite E in E2; [done|].
    symmetry in E2. by apply Z.eqb_eq. }
  destruct (is_full r) eqn:E.
  - rewrite (Hfull eq_refl), Z.eqb_refl. split; [done|]. lia.
  - destruct (Z.eqb_spec (pucAcquire r) (pucFree r)), (Z.ltb_spec (pucAcquire r) (pucFree r)); try lia; cbn [negb];
      rewrite ?orb_true_iff, ?Z.leb_le; repeat case_test; to_prop; split; intros; try zlia.
Qed.

Definition new_client (size : Z) (s : list Z) : item_client :=
  ItemClient (prvInitializeNewRingbuffer size RINGBUF_TYPE_NOSPLIT s) None.

Lemma new_client_repr size s : 16 <= size < 2 ^ 31 -> aligned size -> length s = Z.to_nat size ->
  iclient_repr size (new_client size s) ([], []).
Proof. intros. split; [by apply new_item_repr|]. by split. Qed.

(** C30: A no-split buffer is a bounded queue of items. No call of a client that
    returns an item before it receives the next one fails an assertion, leaves
    the storage or loops for ever; items come out whole, in the order they were
    accepted, and are intact when they are returned; an item that is not larger
    than the reported maximum is always accepted by an empty buffer. *)
Theorem no_split_buffer_is_queue (size : Z) (s : list Z) (ops : list item_op) :
  16 <= size < 2 ^ 31 -> aligned size -> length s = Z.to_nat size ->
  exists c es h q,
    item_run ops (new_client size s) = Some (c, es) /\
    items_run (xRingbufferGetMaxItemSize (ibuffer (new_client size s))) ([], []) ops es (h, q) /\
    sent_items es = returned_items es ++ h ++ q.
Proof.
  intros Hs Ha Hl. pose proof (new_client_repr size s Hs Ha Hl) as H.
  destruct (item_run_refines size ops _ _ H) as (c & es & [h q] & E & Hq & _).
  exists c, es, h, q. split; [done|].
  replace (xRingbufferGetMaxItemSize (ibuffer (new_client size s))) with (max_item size)
    by (symmetry; apply (ir_max _ _ _ (proj1 H))).
  split; [done|]. by apply (items_run_stream _ _ _ _ _ Hq).
Qed.

(** The free size that a no-split buffer reports is what it accepts: at
    every point of such a client's run, an item of a positive length is
    accepted exactly when it is not longer. *)
Theorem no_split_free_size (size : Z) (s : list Z) (ops : list item_op) (d : list Z) :
  16 <= size < 2 ^ 31 -> aligned size -> length s = Z.to_nat size ->
  0 < length d <= xRingbufferGetMaxItemSize (ibuffer (new_client size s)) ->
  exists c es r', item_run ops (new_client size s) = Some (c, es) /\
    xRingbufferSend d (ibuffer c) = Some (r', length d <=? xRingbufferGetCurFreeSize (ibuffer c)).
Proof.
  intros Hs Ha Hl Hd. pose proof (new_client_repr size s Hs Ha Hl) as H.
  destruct (item_run_refines size ops _ _ H) as (c & es & [h q] & E & _ & Hr & Hsz & _).
  destruct (send_public _ h q d Hr) as (r' & Hsend & _). exists c, es, r'. split; [done|]. cbn [fst snd] in *.
  assert (Hmax : xMaxItemSize (ibuffer c) = xRingbufferGetMaxItemSize (ibuffer (new_client size s))).
  { rewrite (ir_max _ _ _ Hr), Hsz. symmetry. apply (ir_max _ _ _ (proj1 H)). }
  rewrite Hsend. do 2 f_equal. rewrite Hmax, (proj2 (Z.leb_le _ _)) by lia. cbn [andb].
  destruct (free_size_room _ h q d Hr ltac:(lia)) as [H1 H2].
  apply eq_true_iff_eq. rewrite Z.leb_le. split; [done|]. apply H2. lia.
Qed.

Module ItemExample.

Definition item (x : Z) (n : nat) : list Z := replicate n x.

(** The third item does not fit before the end: it goes to the start. *)
Definition ops : list item_op :=
  [ISend (item 1 5); ISend (item 2 10); IReceive; IReturn; IReceive; ISend (item 3 9); IReturn; ISend (item 4 30);
   IReceive; ISend (item 5 0); IReturn; IReceive; IReturn; IReceive].

Lemma no_split_buffer_is_queue_witness :
  (snd <$> item_run ops (new_client 56 (replicate 56 0))) = Some [ISent (item 1 5) true; ISent (item 2 10) true;
    IGot (item 1 5); IGaveBack (item 1 5); IGot (item 2 10); ISent (item 3 9) true; IGaveBack (item 2 10);
    ISent (item 4 30) false; IGot (item 3 9); ISent (item 5 0) true; IGaveBack (item 3 9); IGot (item 5 0);
    IGaveBack (item 5 0); INothing] /\
  exists c es h q, item_run ops (new_client 56 (replicate 56 0)) = Some (c, es) /\
    items_run (xRingbufferGetMaxItemSize (ibuffer (new_client 56 (replicate 56 0)))) ([], []) ops es (h, q) /\
    sent_items es = returned_items es ++ h ++ q.
Proof.
  split; [vm_compute; reflexivity|]. apply (no_split_buffer_is_queue 56 (replicate 56 0) ops); [lia|done|done].
Defined.

Lemma no_split_free_size_witness :
  exists c es r', item_run [ISend (item 1 5)] (new_client 56 (replicate 56 0)) = Some (c, es) /\
    xRingbufferSend (item 2 20) (ibuffer c) = Some (r', 20%nat <=? xRingbufferGetCurFreeSize (ibuffer c)).
Proof.
  apply (no_split_free_size 56 (replicate 56 0) [ISend (item 1 5)] (item 2 20)); [lia|done|done|].
  vm_compute. split; [done|congruence].
Defined.

(** ** Where the item buffers fail *)

Definition b64 : Ringbuffer_t := prvInitializeNewRingbuffer 64 RINGBUF_TYPE_NOSPLIT (replicate 64 0).

(** Two items fill the buffer and both are received. Returning the first one
    empties the buffer, although the second one is still held: its bytes at 40
    are overwritten by the second send. *)
Example full_buffer_return_frees_all :
  (let! (r, _) := xRingbufferSend (item 1 24) b64 in
   let! (r, _) := xRingbufferSend (item 2 24) r in
   let! (r, first) := xRingbufferReceive r in
   let! (r, second) := xRingbufferReceive r in
   let! r := vRingbufferReturnItem 8 r in
   let! (r, _) := xRingbufferSend (item 3 24) r in
   let! (r, ok) := xRingbufferSend (item 4 24) r in
   Some (first, second, ok, bytes_at (storage r) 40 24)) =
  Some (Some (Received (8, 24) None), Some (Received (40, 24) None), true, item 4 24).
Proof. vm_compute. reflexivity. Qed.

(** Two items are acquired and fill the buffer, only the second one is
    completed: the reception gives the first one, which was never written. *)
Example full_buffer_unsent_item_received :
  (let! (r, first) := xRingbufferSendAcquire 24 b64 in
   let! (r, second) := xRingbufferSendAcquire 24 r in
   let! r := xRingbufferSendComplete 40 r in
   let! (r, it) := xRingbufferReceive r in Some (first, second, it)) =
  Some (Some 8, Some 40, Some (Received (8, 24) None)).
Proof. vm_compute. reflexivity. Qed.

(** With the second item one word shorter the buffer is not full, and nothing
    is received. *)
Example unsent_item_not_received :
  (let! (r, _) := xRingbufferSendAcquire 24 b64 in
   let! (r, _) := xRingbufferSendAcquire 16 r in
   let! r := xRingbufferSendComplete 40 r in
   let! (r, it) := xRingbufferReceive r in Some it) = Some None.
Proof. vm_compute. reflexivity. Qed.

(** The largest item of a no-split buffer of 8 bytes is computed below zero:
    the send writes outside the storage. *)
Example tiny_buffer_overflows :
  let r := prvInitializeNewRingbuffer 8 RINGBUF_TYPE_NOSPLIT (replicate 8 0) in
  xRingbufferGetMaxItemSize r = 2 ^ 32 - 4 /\ xRingbufferSend [1; 2; 3; 4; 5] r = None.
Proof. split; vm_compute; reflexivity. Qed.

(** [xRingbufferReceive] gives no place for a second part: on an allow-split
    buffer it writes through a null pointer. *)
Example allow_split_receive_null :
  (let! (r, _) := xRingbufferSend (item 1 8) (prvInitializeNewRingbuffer 64 RINGBUF_TYPE_ALLOWSPLIT (replicate 64 0)) in
   xRingbufferReceive r) = None.
Proof. vm_compute. reflexivity. Qed.

(** The size is not rounded up by [xRingbufferCreateWithCaps]. *)
Example create_with_caps_aborts :
  xRingbufferCreateWithCaps (fun n => Some (replicate (Z.to_nat n) 0)) true 30 RINGBUF_TYPE_NOSPLIT = None.
Proof. vm_compute. reflexivity. Qed.

End ItemExample.
