(* ===== verification/SplitArgv.v ===== *)
(** * Splitting a command line ([components/console/split_argv.c])

    [esp_console_split_argv] splits a line into arguments in place: the
    arguments are written over the line, below the place that is read. *)

From S2P Require Import Prelude.

#[local] Open Scope abort_scope.

Definition QUOTE : Z := 34.
Definition ESCAPE : Z := 92.
Definition SPACE : Z := 32.

(** [SS_ARG_ESCAPED] and [SS_QUOTED_ARG_ESCAPED] are [SS_ARG] and
    [SS_QUOTED_ARG] with [SS_FLAG_ESCAPE]. *)
Inductive split_state_t := SS_SPACE | SS_ARG | SS_QUOTED_ARG | SS_ARG_ESCAPED | SS_QUOTED_ARG_ESCAPED.

#[export] Instance split_state_eq_dec : EqDecision split_state_t.
Proof. solve_decision. Defined.

(** The memory of the line; [in_ptr], [out_ptr], [next_arg_start] and the
    elements of [argv] are offsets into it. *)
Record split_st := Split {
  line : list Z;
  in_ptr : nat;
  out_ptr : nat;
  state : split_state_t;
  next_arg_start : nat;
  argv : list nat;
}.

(** What the [switch] does with a character: the new state, the character to
    write, whether an argument starts here, and whether it ends. *)
Definition split_switch (st : split_state_t) (char_in : Z) : split_state_t * option Z * bool * bool :=
  match st with
  | SS_SPACE =>
      if char_in =? SPACE then (SS_SPACE, None, false, false)
      else if char_in =? QUOTE then (SS_QUOTED_ARG, None, true, false)
      else if char_in =? ESCAPE then (SS_ARG_ESCAPED, None, true, false)
      else (SS_ARG, Some char_in, true, false)
  | SS_QUOTED_ARG =>
      if char_in =? QUOTE then (SS_SPACE, Some 0, false, true)
      else if char_in =? ESCAPE then (SS_QUOTED_ARG_ESCAPED, None, false, false)
      else (SS_QUOTED_ARG, Some char_in, false, false)
  | SS_ARG_ESCAPED | SS_QUOTED_ARG_ESCAPED =>
      (match st with SS_ARG_ESCAPED => SS_ARG | _ => SS_QUOTED_ARG end,
       if (char_in =? ESCAPE) || (char_in =? QUOTE) || (char_in =? SPACE) then Some char_in else None, false, false)
  | SS_ARG =>
      if char_in =? SPACE then (SS_SPACE, Some 0, false, true)
      else if char_in =? ESCAPE then (SS_ARG_ESCAPED, None, false, false)
      else (SS_ARG, Some char_in, false, false)
  end.

(** One turn of the loop: [Some None] when it ends, [None] when it reads past
    the memory of the line. *)
Definition split_turn (argv_size : nat) (s : split_st) : option (option split_st) :=
  if negb (length (argv s) <? argv_size - 1)%nat then Some None
  else
    match line s !! in_ptr s with
    | None => None
    | Some char_in =>
        if char_in =? 0 then Some None
        else
          let '(st, char_out, starts, ends) := split_switch (state s) char_in in
          let start := if starts then out_ptr s else next_arg_start s in
          let argv' := if ends then argv s ++ [start] else argv s in
          Some (Some match char_out with
                     | Some c => Split (<[out_ptr s := c]> (line s)) (S (in_ptr s)) (S (out_ptr s)) st start argv'
                     | None => Split (line s) (S (in_ptr s)) (out_ptr s) st start argv'
                     end)
    end.

Fixpoint split_loop (fuel : nat) (argv_size : nat) (s : split_st) : option split_st :=
  match fuel with
  | O => None
  | S fuel =>
      let! turn := split_turn argv_size s in
      match turn with Some s => split_loop fuel argv_size s | None => Some s end
  end.

(** The line and the offsets of the arguments. Each turn reads one character:
    the fuel is the length of the line. An [argv] without a place for the final
    null pointer is written past its end. *)
Definition esp_console_split_argv (l : list Z) (argv_size : nat) : option (list Z * list nat) :=
  if (argv_size =? 0)%nat then None
  else
  let! s := split_loop (S (length l)) argv_size (Split l 0 0 SS_SPACE 0 []) in
  let l := <[out_ptr s := 0]> (line s) in
  let argv := match state s with
              | SS_SPACE => argv s
              | _ => if (length (argv s) <? argv_size - 1)%nat then argv s ++ [next_arg_start s] else argv s
              end in
  Some (l, argv).

(** The string at an offset. *)
Fixpoint c_string (l : list Z) : list Z :=
  match l with
  | [] => []
  | c :: l => if c =? 0 then [] else c :: c_string l
  end.

(** ** The reference: a tokenizer of the characters *)

(** [n] arguments are still taken; [cur] is what the current one has so far. *)
Fixpoint tokens (n : nat) (st : split_state_t) (cur : list Z) (cs : list Z) : list (list Z) :=
  match n with
  | O => []
  | S n' =>
      match cs with
      | [] => match st with SS_SPACE => [] | _ => [cur] end
      | c :: cs =>
          let '(st, o, starts, ends) := split_switch st c in
          if ends : bool then cur :: tokens n' st [] cs
          else tokens n st ((if starts : bool then [] else cur) ++ match o with Some o => [o] | None => [] end) cs
      end
  end.

(** A quoted argument: quotes and escapes are escaped. *)
Definition quote (a : list Z) : list Z :=
  QUOTE :: mbind (fun c => if (c =? QUOTE) || (c =? ESCAPE) then [ESCAPE; c] else [c]) a ++ [QUOTE].

Fixpoint command_line (args : list (list Z)) : list Z :=
  match args with
  | [] => []
  | a :: args => quote a ++ SPACE :: command_line args
  end.

(** ** The memory while the line is split *)

(** Arguments as they are written, each with its final zero. *)
Definition flat (args : list (list Z)) : list Z := args ≫= (fun a => a ++ [0]).

(** Their offsets, from [p] on. *)
Fixpoint offsets (p : nat) (args : list (list Z)) : list nat :=
  match args with
  | [] => []
  | a :: args => p :: offsets (p + length a + 1) args
  end.

Definition no_zero (a : list Z) : Prop := Forall (fun c => c <> 0) a.

Lemma flat_cons a args : flat (a :: args) = a ++ 0 :: flat args.
Proof. unfold flat. cbn. by rewrite <- app_assoc. Qed.

Lemma flat_app a b : flat (a ++ b) = flat a ++ flat b.
Proof. apply bind_app. Qed.

Lemma flat_snoc args a : flat (args ++ [a]) = flat args ++ a ++ [0].
Proof. rewrite flat_app. f_equal. unfold flat. cbn. by rewrite app_nil_r. Qed.

Lemma offsets_length p args : length (offsets p args) = length args.
Proof. revert p. induction args as [|a args IH]; intros p; cbn; [done|]. by rewrite IH. Qed.

Lemma offsets_snoc p args a : offsets p (args ++ [a]) = offsets p args ++ [p + length (flat args)]%nat.
Proof.
  revert p. induction args as [|b args IH]; intros p; cbn; [by rewrite Nat.add_0_r|].
  rewrite IH. unfold flat. cbn. rewrite !length_app. cbn. do 3 f_equal. lia.
Qed.

Lemma c_string_app a l : no_zero a -> c_string (a ++ 0 :: l) = a.
Proof.
  induction 1 as [|c a Hc _ IH]; cbn; [done|]. destruct (Z.eqb_spec c 0); [done|]. by rewrite IH.
Qed.

Lemma offsets_strings p args W rest :
  length W = p -> Forall no_zero args ->
  (fun o => c_string (drop o (W ++ flat args ++ rest))) <$> offsets p args = args.
Proof.
  intros <- H. revert W. induction H as [|a args Ha _ IH]; intros W; cbn [offsets fmap list_fmap]; [done|].
  rewrite flat_cons. f_equal.
  - rewrite drop_app_length, <- !app_assoc. by apply c_string_app.
  - specialize (IH (W ++ a ++ [0])). rewrite !length_app in IH. cbn [length] in IH.
    replace (length W + length a + 1)%nat with (length W + (length a + 1))%nat by lia.
    etransitivity; [|exact IH]. apply list_fmap_ext. intros i o _. by rewrite <- !app_assoc.
Qed.

(** [args] are split, [cur] is the current argument, [J] has been read and not
    been written over, [cs] is still to be read. *)
Record split_inv (s : split_st) (args : list (list Z)) (cur J cs rest : list Z) : Prop := SplitInv {
  si_line : line s = flat args ++ cur ++ J ++ cs ++ 0 :: rest;
  si_out : out_ptr s = length (flat args ++ cur);
  si_in : in_ptr s = length (flat args ++ cur ++ J);
  si_argv : argv s = offsets 0 args;
  si_start : state s <> SS_SPACE -> next_arg_start s = length (flat args);
  si_cur : state s = SS_SPACE -> cur = [];
  si_args : Forall no_zero args;
  si_nz : no_zero cur;
}.

Lemma inv_look s args cur J cs rest : split_inv s args cur J cs rest ->
  line s !! in_ptr s = Some (match cs with [] => 0 | c :: _ => c end).
Proof.
  intros H. rewrite (si_in _ _ _ _ _ _ H), (si_line _ _ _ _ _ _ H).
  replace (flat args ++ cur ++ J ++ cs ++ 0 :: rest) with ((flat args ++ cur ++ J) ++ cs ++ 0 :: rest)
    by (by rewrite <- !app_assoc).
  destruct cs as [|c cs]; [by apply list_lookup_middle|]. by apply (list_lookup_middle _ (cs ++ 0 :: rest)).
Qed.

(** Writing at the end of what is written. *)
Lemma write_out (W J : list Z) c o (tail : list Z) :
  <[length W := o]> (W ++ J ++ c :: tail) = (W ++ [o]) ++ drop 1 (J ++ [c]) ++ tail.
Proof.
  rewrite insert_app_r_alt by lia. rewrite Nat.sub_diag, <- app_assoc. f_equal.
  destruct J as [|j J]; cbn; [done|]. rewrite drop_0. by rewrite <- app_assoc.
Qed.

Lemma switch_out st c st' o starts ends : split_switch st c = (st', o, starts, ends) -> c <> 0 ->
  (ends = true -> o = Some 0 /\ st' = SS_SPACE /\ starts = false /\ st <> SS_SPACE) /\
  (ends = false -> o <> Some 0 /\ (st' = SS_SPACE -> o = None /\ st = SS_SPACE) /\ (starts = true <-> st = SS_SPACE /\ st' <> SS_SPACE)).
Proof.
  intros E Hc. destruct st; cbn [split_switch] in E; unfold QUOTE, ESCAPE, SPACE in E;
    destruct (Z.eqb_spec c 32), (Z.eqb_spec c 34), (Z.eqb_spec c 92); cbn in E; try lia; injection E as <- <- <- <-;
    split; intuition congruence.
Qed.

Lemma turn_inv n s args cur J c cs rest s' :
  split_inv s args cur J (c :: cs) rest -> c <> 0 -> split_turn n s = Some (Some s') ->
  let '(st, o, starts, ends) := split_switch (state s) c in
  state s' = st /\
  if ends : bool then exists J', split_inv s' (args ++ [cur]) [] J' cs rest
  else exists J', split_inv s' args ((if starts : bool then [] else cur) ++ match o with Some o => [o] | None => [] end) J' cs rest.
Proof.
  intros [Hl Ho Hi Ha Hst Hcur Hargs Hnz] Hc. unfold split_turn.
  destruct (negb _); [done|]. rewrite Hi.
  assert (Hl' : line s = (flat args ++ cur ++ J) ++ c :: cs ++ 0 :: rest) by (rewrite Hl, <- !app_assoc; done).
  rewrite Hl', list_lookup_middle by done. destruct (Z.eqb_spec c 0); [done|].
  destruct (split_switch (state s) c) as [[[st o] starts] ends] eqn:E.
  pose proof (switch_out _ _ _ _ _ _ E Hc) as [He1 He2]. intros [= <-].
  assert (Hw : forall o, <[out_ptr s := o]> (line s) = flat args ++ cur ++ [o] ++ drop 1 (J ++ [c]) ++ cs ++ 0 :: rest).
  { intros o'. rewrite Ho, Hl', <- !app_assoc, (app_assoc (flat args)), write_out, <- !app_assoc. done. }
  assert (Hlen : length (drop 1 (J ++ [c])) = length J) by (rewrite length_drop, length_app; cbn; lia).
  destruct ends.
  - destruct (He1 eq_refl) as (-> & -> & -> & Hne). split; [done|]. exists (drop 1 (J ++ [c])).
    split; cbn [line in_ptr out_ptr state next_arg_start argv]; try done.
    + rewrite <- Hl', Hw, flat_snoc. by rewrite <- !app_assoc.
    + rewrite app_nil_r, flat_snoc, Ho, !length_app. cbn [length]. lia.
    + rewrite flat_snoc, !length_app, Hlen. cbn [length]. lia.
    + rewrite Ha, (Hst Hne), offsets_snoc. done.
    + apply Forall_app. by repeat constructor.
    + constructor.
  - destruct (He2 eq_refl) as (Hno & Hsp & Hstart).
    assert (Hcur0 : starts = true -> cur = []) by (intros Es; apply Hcur; tauto).
    assert (Hcur' : (if starts : bool then [] else cur) = cur) by (destruct starts; [by rewrite Hcur0|done]).
    rewrite Hcur'. split; [by destruct o|].
    assert (Hstart' : st <> SS_SPACE -> (if starts : bool then out_ptr s else next_arg_start s) = length (flat args)).
    { intros Hst'. destruct starts.
      - rewrite Ho, Hcur0, app_nil_r by done. done.
      - apply Hst. intros Es. by assert (false = true) by tauto. }
    destruct o as [o|].
    + exists (drop 1 (J ++ [c])). split; cbn [line in_ptr out_ptr state next_arg_start argv]; try done.
      * rewrite <- Hl', Hw. by rewrite <- !app_assoc.
      * rewrite Ho, !length_app. cbn [length]. lia.
      * rewrite !length_app, Hlen. cbn [length]. lia.
      * intros Es. by destruct (Hsp Es).
      * apply Forall_app. split; [done|]. constructor; [congruence|constructor].
    + exists (J ++ [c]). rewrite app_nil_r. split; cbn [line in_ptr out_ptr state next_arg_start argv]; try done.
      * by rewrite <- Hl', Hl, <- !app_assoc.
      * rewrite !length_app. cbn [length]. lia.
      * intros Es. apply Hcur. tauto.
Qed.

Lemma turn_length n s s' : split_turn n s = Some (Some s') -> length (line s') = length (line s).
Proof.
  unfold split_turn. intros E. repeat case_match; simplify_eq/=; by rewrite ?length_insert.
Qed.

(** The last argument, when the loop ends. *)
Definition last_arg (n : nat) (st : split_state_t) (args : list (list Z)) (cur : list Z) : list (list Z) :=
  match st with SS_SPACE => [] | _ => if (length args <? n)%nat then [cur] else [] end.

Lemma loop_tokens n : forall cs fuel s args cur J rest,
  split_inv s args cur J cs rest -> no_zero cs -> (length cs < fuel)%nat -> (length args <= n - 1)%nat ->
  exists s' args' cur' J' cs', split_loop fuel n s = Some s' /\ length (line s') = length (line s) /\
    split_inv s' args' cur' J' cs' rest /\
    args' ++ last_arg (n - 1) (state s') args' cur' = args ++ tokens (n - 1 - length args) (state s) cur cs.
Proof.
  induction cs as [|c cs IH]; intros fuel s args cur J rest Hinv Hnz Hf Hlen; (destruct fuel as [|fuel]; [lia|]); cbn [split_loop].
  - assert (Hturn : split_turn n s = Some None).
    { unfold split_turn. case_match; [done|]. by rewrite (inv_look _ _ _ _ _ _ Hinv). }
    rewrite Hturn. exists s, args, cur, J, []. split; [done|]. split; [done|]. split; [done|]. f_equal. unfold last_arg.
    destruct (n - 1 - length args)%nat eqn:E; cbn [tokens].
    + rewrite (proj2 (Nat.ltb_ge _ _)) by lia. by destruct (state s).
    + rewrite (proj2 (Nat.ltb_lt _ _)) by lia. by destruct (state s).
  - inversion_clear Hnz as [|? ? Hc Hcs]. destruct (split_turn n s) as [[s1|]|] eqn:E; cbn [option_bind mbind].
    + pose proof (turn_inv n s args cur J c cs rest s1 Hinv Hc E) as Ht.
      assert (Hroom : (length args < n - 1)%nat).
      { unfold split_turn in E. rewrite (si_argv _ _ _ _ _ _ Hinv), offsets_length in E.
        destruct (Nat.ltb_spec (length args) (n - 1)); [done|]. done. }
      destruct (n - 1 - length args)%nat as [|m] eqn:Em; [lia|]. cbn [tokens].
      destruct (split_switch (state s) c) as [[[st o] starts] ends]. destruct Ht as [Hst Ht]. cbn [length] in Hf. destruct ends.
      * destruct Ht as [J' Ht]. destruct (IH fuel s1 (args ++ [cur]) [] J' rest Ht Hcs ltac:(lia)) as (s' & args' & cur' & J2 & cs' & H1 & Hl & H2 & H3).
        { rewrite length_app. cbn. lia. }
        exists s', args', cur', J2, cs'. split; [done|]. split; [by rewrite Hl, (turn_length n s s1)|]. split; [done|]. rewrite H3, length_app, <- app_assoc. cbn.
        replace (n - 1 - (length args + 1))%nat with m by lia.
        by rewrite Hst.
      * destruct Ht as [J' Ht]. destruct (IH fuel s1 args _ J' rest Ht Hcs ltac:(lia) Hlen) as (s' & args' & cur' & J2 & cs' & H1 & Hl & H2 & H3).
        exists s', args', cur', J2, cs'. split; [done|]. split; [by rewrite Hl, (turn_length n s s1)|]. split; [done|]. by rewrite H3, Em, Hst.
    + exists s, args, cur, J, (c :: cs). split; [done|]. split; [done|]. split; [done|]. f_equal.
      assert (Hfull : (n - 1 <= length args)%nat).
      { unfold split_turn in E. rewrite (si_argv _ _ _ _ _ _ Hinv), offsets_length in E.
        destruct (Nat.ltb_spec (length args) (n - 1)); [|done]. cbn [negb] in E.
        rewrite (inv_look _ _ _ _ _ _ Hinv) in E.
        destruct (Z.eqb_spec c 0); [done|]. by destruct (split_switch _ _) as [[[? []] ?] ?]. }
      replace (n - 1 - length args)%nat with 0%nat by lia. cbn [tokens]. unfold last_arg.
      rewrite (proj2 (Nat.ltb_ge _ _)) by lia. by destruct (state s).
    + exfalso. unfold split_turn in E. rewrite (inv_look _ _ _ _ _ _ Hinv) in E. by repeat case_match.
Qed.

(** The line and the arguments at the end. *)
Lemma split_end n s args cur J cs rest :
  split_inv s args cur J cs rest ->
  let l' := <[out_ptr s := 0]> (line s) in
  let argv' := match state s with
               | SS_SPACE => argv s
               | _ => if (length (argv s) <? n)%nat then argv s ++ [next_arg_start s] else argv s
               end in
  ((fun o => c_string (drop o l')) <$> argv') = args ++ last_arg n (state s) args cur /\
  drop (length (flat args ++ cur ++ J ++ cs ++ [0])) l' = rest.
Proof.
  intros Hinv l' argv'. pose proof Hinv as [Hl Ho Hi Ha Hst Hcur Hargs Hnz].
  assert (Hl' : l' = flat args ++ cur ++ 0 :: drop 1 (J ++ cs ++ [0]) ++ rest).
  { unfold l'. rewrite Ho, Hl, (app_assoc (flat args)), insert_app_r_alt, Nat.sub_diag, <- app_assoc by lia.
    do 2 f_equal. rewrite !(app_assoc J). destruct (J ++ cs); cbn; [done|]. rewrite drop_0. by rewrite <- app_assoc. }
  split.
  - assert (Hplain : ((fun o => c_string (drop o l')) <$> argv s) = args).
    { rewrite Ha, Hl'. by apply (offsets_strings 0 args []). }
    unfold last_arg, argv'. rewrite Ha, offsets_length, <- Ha.
    destruct (decide (state s = SS_SPACE)) as [E|E]; [rewrite E, Hplain; by rewrite app_nil_r|].
    assert (Hlast : ((fun o => c_string (drop o l')) <$> (argv s ++ [next_arg_start s])) = args ++ [cur]).
    { rewrite fmap_app, Hplain. f_equal. cbn. rewrite (Hst E), Hl', drop_app_length. by rewrite c_string_app. }
    destruct (state s); [done|..]; case_match; by rewrite ?app_nil_r.
  - replace l' with ((flat args ++ cur ++ 0 :: drop 1 (J ++ cs ++ [0])) ++ rest) by (rewrite Hl', <- !app_assoc; done).
    apply drop_app_length'. rewrite !length_app. cbn [length].
    rewrite length_drop, !length_app. cbn [length]. lia.
Qed.

Lemma split_spec (cs rest : list Z) (argv_size : nat) :
  no_zero cs -> (0 < argv_size)%nat ->
  exists l' offs, esp_console_split_argv (cs ++ 0 :: rest) argv_size = Some (l', offs) /\
    ((fun o => c_string (drop o l')) <$> offs) = tokens (argv_size - 1) SS_SPACE [] cs /\
    length l' = length (cs ++ 0 :: rest) /\ drop (length cs + 1) l' = rest.
Proof.
  intros Hnz Hn. set (s := Split (cs ++ 0 :: rest) 0 0 SS_SPACE 0 []).
  assert (Hinv : split_inv s [] [] [] cs rest) by (split; try done; by constructor).
  destruct (loop_tokens argv_size cs (S (length (cs ++ 0 :: rest))) s [] [] [] rest Hinv Hnz)
    as (s' & args' & cur' & J' & cs' & E & Hlen & Hinv' & Htok); [rewrite length_app; lia|cbn; lia|].
  unfold esp_console_split_argv. destruct (Nat.eqb_spec argv_size 0); [lia|]. fold s. rewrite E.
  destruct (split_end (argv_size - 1) s' args' cur' J' cs' rest Hinv') as [H1 H2].
  do 2 eexists. split; [reflexivity|]. rewrite Nat.sub_0_r in Htok. cbn [app] in Htok.
  split; [change (tokens (argv_size - 1) (state s) [] cs) with (tokens (argv_size - 1) SS_SPACE [] cs) in Htok; by rewrite <- Htok|].
  split; [by rewrite length_insert|]. etransitivity; [|exact H2]. f_equal.
  subst s. cbn [line] in Hlen. rewrite (si_line _ _ _ _ _ _ Hinv') in Hlen.
  rewrite !length_app in *. cbn [length] in *. lia.
Qed.

(** ** Quoting *)

Lemma tokens_quoted n a : forall cur cs,
  tokens (S n) SS_QUOTED_ARG cur (mbind (fun c => if (c =? QUOTE) || (c =? ESCAPE) then [ESCAPE; c] else [c]) a ++ QUOTE :: cs)
  = (cur ++ a) :: tokens n SS_SPACE [] cs.
Proof.
  induction a as [|c a IH]; intros cur cs; cbn [mbind list_bind app].
  - cbn. by rewrite app_nil_r.
  - destruct (Z.eqb_spec c QUOTE) as [->|Hq]; [|destruct (Z.eqb_spec c ESCAPE) as [->|He]]; cbn [orb app].
    + etransitivity; [|etransitivity; [apply (IH (cur ++ [QUOTE]))|by rewrite <- app_assoc]]. cbn. by rewrite app_nil_r.
    + etransitivity; [|etransitivity; [apply (IH (cur ++ [ESCAPE]))|by rewrite <- app_assoc]]. cbn. by rewrite app_nil_r.
    + etransitivity; [|etransitivity; [apply (IH (cur ++ [c]))|by rewrite <- app_assoc]].
      cbn [tokens split_switch app]. rewrite (proj2 (Z.eqb_neq c QUOTE)), (proj2 (Z.eqb_neq c ESCAPE)) by done. done.
Qed.

Lemma tokens_command_line args : forall n, tokens n SS_SPACE [] (command_line args) = take n args.
Proof.
  induction args as [|a args IH]; intros [|n]; cbn [command_line take]; try done.
  unfold quote. rewrite <- app_comm_cons, <- app_assoc. cbn [app].
  etransitivity; [|etransitivity; [apply (tokens_quoted n a [] (SPACE :: command_line args))|]]; [done|].
  f_equal. rewrite <- IH. destruct n; [by destruct (command_line args)|]. done.
Qed.

Lemma command_line_no_zero args : Forall no_zero args -> no_zero (command_line args).
Proof.
  induction 1 as [|a args Ha _ IH]; cbn [command_line]; [constructor|].
  unfold quote, no_zero in *. constructor; [done|]. apply Forall_app. split; [|by constructor].
  apply Forall_app. split; [|by repeat constructor].
  induction Ha as [|c a Hc _ IHa]; cbn; [constructor|]. apply Forall_app. split; [|done].
  case_match; by repeat constructor.
Qed.

(** Splitting a line in place gives the arguments that a tokenizer of its
    characters gives, at most [argv_size - 1] of them; it ends, stays inside the
    line and leaves the memory behind it alone. *)
Theorem split_in_place (cs rest : list Z) (argv_size : nat) :
  no_zero cs -> (0 < argv_size)%nat ->
  exists l' offs, esp_console_split_argv (cs ++ 0 :: rest) argv_size = Some (l', offs) /\
    ((fun o => c_string (drop o l')) <$> offs) = tokens (argv_size - 1) SS_SPACE [] cs /\
    length l' = length (cs ++ 0 :: rest) /\ drop (length cs + 1) l' = rest.
Proof. apply split_spec. Qed.

(** C38: Arguments are quoted without loss: a line of quoted arguments, whatever
    their bytes but zero, is split into these arguments. *)
Theorem quoted_arguments_round_trip (args : list (list Z)) (argv_size : nat) :
  Forall no_zero args -> (length args < argv_size)%nat ->
  exists l' offs, esp_console_split_argv (command_line args ++ [0]) argv_size = Some (l', offs) /\
    ((fun o => c_string (drop o l')) <$> offs) = args.
Proof.
  intros Hargs Hn. destruct (split_spec (command_line args) [] argv_size) as (l' & offs & E & Htok & _).
  { by apply command_line_no_zero. }
  { lia. }
  exists l', offs. split; [exact E|]. rewrite Htok, tokens_command_line. apply take_ge. lia.
Qed.

Module SplitExample.

(** [wifi "my net" C:\\x] *)
Definition cs : list Z :=
  [119; 105; 102; 105; 32; 34; 109; 121; 32; 110; 101; 116; 34; 32; 67; 58; 92; 92; 120].

Lemma split_in_place_witness :
  (exists l', esp_console_split_argv (cs ++ 0 :: [7; 7]) 8 = Some (l', [0; 5; 12]%nat)) /\
  exists l' offs, esp_console_split_argv (cs ++ 0 :: [7; 7]) 8 = Some (l', offs) /\
    ((fun o => c_string (drop o l')) <$> offs) =
      [[119; 105; 102; 105]; [109; 121; 32; 110; 101; 116]; [67; 58; 92; 120]] /\
    length l' = 22%nat /\ drop 20 l' = [7; 7].
Proof.
  split; [eexists; vm_compute; reflexivity|].
  apply (split_in_place cs [7; 7] 8); [|lia]. unfold cs, no_zero. repeat constructor; lia.
Defined.

Lemma quoted_arguments_round_trip_witness :
  exists l' offs, esp_console_split_argv (command_line [[34; 92; 32]; []; [97]] ++ [0]) 4 = Some (l', offs) /\
    ((fun o => c_string (drop o l')) <$> offs) = [[34; 92; 32]; []; [97]].
Proof.
  apply (quoted_arguments_round_trip [[34; 92; 32]; []; [97]] 4); [|cbn; lia].
  unfold no_zero. repeat constructor; lia.
Defined.

End SplitExample.
