(* ===== verification/EventNodes.v ===== *)
(** * Registered event handlers ([components/esp_event/esp_event.c])

    The handlers of an event loop are kept in a list of loop nodes; a loop node
    holds handlers for every event and base nodes, a base node handlers for
    every event of its base and id nodes, an id node handlers for one event. *)

From S2P Require Import Prelude EspErr.

#[local] Open Scope abort_scope.

(** The application names an event base by the address of a string of its own,
    or none: [ESP_EVENT_ANY_BASE] is [NULL]. *)
Abbreviation esp_event_base_t := (option Z) (only parsing).
Abbreviation ESP_EVENT_ANY_BASE := (@None Z) (only parsing).

(** The base a node is for: the library has a static string of its own,
    [esp_event_any_base], for handlers of every base. *)
Inductive node_base := esp_event_any_base | Base (address : Z).

Definition ESP_EVENT_ANY_ID : Z := -1.

#[export] Instance node_base_eq_dec : EqDecision node_base.
Proof. solve_decision. Defined.

(** [ctx] is the address of the context, which identifies the instance. A
    handler node is its context: nothing else refers to it. *)
Record handler_node := Handler { ctx : Z; handler : Z; arg : Z }.

Record id_node := IdNode { id : Z; id_handlers : list handler_node }.

Record base_node := BaseNode {
  base : node_base;
  base_handlers : list handler_node;
  id_nodes : list id_node;
}.

Record loop_node := LoopNode { loop_handlers : list handler_node; base_nodes : list base_node }.

#[export] Instance handler_node_eq_dec : EqDecision handler_node.
Proof. solve_decision. Defined.

(** [SLIST_EMPTY] *)
Definition SLIST_EMPTY {A} (l : list A) : bool := match l with [] => true | _ => false end.

(** The results of the next allocations, in order. *)
Definition calloc (mem : list (option Z)) : option Z * list (option Z) :=
  match mem with [] => (None, []) | r :: mem => (r, mem) end.

(** The place of the last element with [p], as the loops over nodes find it. *)
Fixpoint last_index {A} (p : A -> bool) (l : list A) : option nat :=
  match l with
  | [] => None
  | x :: l =>
      match last_index p l with
      | Some n => Some (S n)
      | None => if p x then Some 0%nat else None
      end
  end.

(** ** Adding *)

(** The legacy loop: the first node with the handler gets the argument. *)
Fixpoint overwrite_arg (hs : list handler_node) (event_handler event_handler_arg : Z) : option (list handler_node) :=
  match hs with
  | [] => None
  | it :: hs =>
      if handler it =? event_handler then Some (Handler (ctx it) (handler it) event_handler_arg :: hs)
      else match overwrite_arg hs event_handler event_handler_arg with
           | Some hs => Some (it :: hs)
           | None => None
           end
  end.

(** What an addition gives: an error, which leaves the nodes as they were, or
    the address stored through [handler_ctx] and the new node. *)
Definition added (A : Type) : Type := esp_err_t + (option Z * A).

Definition map_added {A B} (f : A -> B) (r : added A) : added B :=
  match r with inl err => inl err | inr (c, x) => inr (c, f x) end.

Definition handler_instances_add (mem : list (option Z)) (handlers : list handler_node)
    (event_handler event_handler_arg : Z) (legacy : bool) : added (list handler_node) :=
  let '(handler_instance, mem) := calloc mem in
  match handler_instance with
  | None => inl ESP_ERR_NO_MEM
  | Some _ =>
      let '(context, _) := calloc mem in
      match context with
      | None => inl ESP_ERR_NO_MEM
      | Some context =>
          match (if legacy then overwrite_arg handlers event_handler event_handler_arg else None) with
          | Some handlers => inr (None, handlers)
          | None => inr (Some context, handlers ++ [Handler context event_handler event_handler_arg])
          end
      end
  end.

Definition base_node_add_handler (mem : list (option Z)) (bn : base_node) (event_id : Z)
    (event_handler event_handler_arg : Z) (legacy : bool) : added base_node :=
  if event_id =? ESP_EVENT_ANY_ID then
    map_added (fun hs => BaseNode (base bn) hs (id_nodes bn))
      (handler_instances_add mem (base_handlers bn) event_handler event_handler_arg legacy)
  else
    match last_index (fun it => id it =? event_id) (id_nodes bn) with
    | None =>
        let '(node, mem) := calloc mem in
        match node with
        | None => inl ESP_ERR_NO_MEM
        | Some _ =>
            map_added (fun hs => BaseNode (base bn) (base_handlers bn) (id_nodes bn ++ [IdNode event_id hs]))
              (handler_instances_add mem [] event_handler event_handler_arg legacy)
        end
    | Some n =>
        match id_nodes bn !! n with
        | None => inl ESP_ERR_NO_MEM   (* not the index of a node *)
        | Some it =>
            map_added (fun hs => BaseNode (base bn) (base_handlers bn) (<[n := IdNode (id it) hs]> (id_nodes bn)))
              (handler_instances_add mem (id_handlers it) event_handler event_handler_arg legacy)
        end
    end.

(** Whether a new base node is made: when there is none for the base, and so
    that a handler for a whole base is not put before others that were
    registered earlier. *)
Definition needs_base_node (bn last_base_node : base_node) (event_base : node_base) (event_id : Z) : bool :=
  (negb (SLIST_EMPTY (id_nodes bn)) && (event_id =? ESP_EVENT_ANY_ID)) ||
  (negb (bool_decide (base last_base_node = event_base)) && negb (SLIST_EMPTY (id_nodes last_base_node)) &&
   (event_id =? ESP_EVENT_ANY_ID)).

Definition loop_node_add_handler (mem : list (option Z)) (ln : loop_node) (event_base : node_base)
    (event_id : Z) (event_handler event_handler_arg : Z) (legacy : bool) : added loop_node :=
  if bool_decide (event_base = esp_event_any_base) && (event_id =? ESP_EVENT_ANY_ID) then
    map_added (fun hs => LoopNode hs (base_nodes ln))
      (handler_instances_add mem (loop_handlers ln) event_handler event_handler_arg legacy)
  else
    let new_node :=
      let '(node, mem) := calloc mem in
      match node with
      | None => inl ESP_ERR_NO_MEM
      | Some _ =>
          map_added (fun bn => LoopNode (loop_handlers ln) (base_nodes ln ++ [bn]))
            (base_node_add_handler mem (BaseNode event_base [] []) event_id event_handler event_handler_arg legacy)
      end in
    match last (base_nodes ln), last_index (fun it => bool_decide (base it = event_base)) (base_nodes ln) with
    | Some last_base_node, Some n =>
        match base_nodes ln !! n with
        | None => inl ESP_ERR_NO_MEM   (* not the index of a node *)
        | Some bn =>
            if needs_base_node bn last_base_node event_base event_id then new_node
            else
              map_added (fun bn => LoopNode (loop_handlers ln) (<[n := bn]> (base_nodes ln)))
                (base_node_add_handler mem bn event_id event_handler event_handler_arg legacy)
        end
    | _, _ => new_node
    end.

(** The static address stands for "any base" inside the library. *)
Definition any_base (event_base : esp_event_base_t) : node_base :=
  match event_base with None => esp_event_any_base | Some address => Base address end.

Definition is_loop_level (event_base : node_base) (event_id : Z) : bool :=
  bool_decide (event_base = esp_event_any_base) && (event_id =? ESP_EVENT_ANY_ID).

Definition register_nodes (mem : list (option Z)) (loop_nodes : list loop_node)
    (event_base : node_base) (event_id : Z) (event_handler event_handler_arg : Z) (legacy : bool)
    : added (list loop_node) :=
  let new_node :=
    let '(node, mem) := calloc mem in
    match node with
    | None => inl ESP_ERR_NO_MEM
    | Some _ =>
        map_added (fun ln => loop_nodes ++ [ln])
          (loop_node_add_handler mem (LoopNode [] []) event_base event_id event_handler event_handler_arg legacy)
    end in
  match last loop_nodes with
  | None => new_node
  | Some last_loop_node =>
      if negb (SLIST_EMPTY (base_nodes last_loop_node)) && is_loop_level event_base event_id then new_node
      else
        map_added (fun ln => <[(length loop_nodes - 1)%nat := ln]> loop_nodes)
          (loop_node_add_handler mem last_loop_node event_base event_id event_handler event_handler_arg legacy)
  end.

(** The error, the address stored through [handler_ctx_arg], the nodes; [None]
    when the assertion that there is a handler fails. *)
Definition esp_event_handler_register_with_internal (mem : list (option Z)) (loop_nodes : list loop_node)
    (event_base : esp_event_base_t) (event_id : Z) (event_handler event_handler_arg : Z) (legacy : bool)
    : option (esp_err_t * option Z * list loop_node) :=
  assert! negb (event_handler =? 0);;
  if bool_decide (event_base = ESP_EVENT_ANY_BASE) && negb (event_id =? ESP_EVENT_ANY_ID)
  then Some (ESP_ERR_INVALID_ARG, None, loop_nodes)
  else
    match register_nodes mem loop_nodes (any_base event_base) event_id event_handler event_handler_arg legacy with
    | inl err => Some (err, None, loop_nodes)
    | inr (c, loop_nodes) => Some (ESP_OK, c, loop_nodes)
    end.

(** No address of a context is asked for. *)
Definition esp_event_handler_register_with mem loop_nodes event_base event_id event_handler event_handler_arg :
    option (esp_err_t * option Z * list loop_node) :=
  let! r := esp_event_handler_register_with_internal mem loop_nodes event_base event_id event_handler event_handler_arg true in
  let '(err, _, loop_nodes) := r in Some (err, None, loop_nodes).

Definition esp_event_handler_instance_register_with mem loop_nodes event_base event_id event_handler event_handler_arg :=
  esp_event_handler_register_with_internal mem loop_nodes event_base event_id event_handler event_handler_arg false.

(** ** Removing *)

(** Whether a node is the one to remove: by its handler, or by the address of
    its context. *)
Definition remove_match (handler_ctx : handler_node) (legacy : bool) (it : handler_node) : bool :=
  if legacy then handler it =? handler handler_ctx else ctx it =? ctx handler_ctx.

Fixpoint handler_instances_remove (hs : list handler_node) (handler_ctx : handler_node) (legacy : bool) :
    esp_err_t * list handler_node :=
  match hs with
  | [] => (ESP_ERR_NOT_FOUND, [])
  | it :: hs =>
      if remove_match handler_ctx legacy it then (ESP_OK, hs)
      else let '(res, hs) := handler_instances_remove hs handler_ctx legacy in (res, it :: hs)
  end.

Fixpoint id_nodes_remove (nodes : list id_node) (event_id : Z) (handler_ctx : handler_node) (legacy : bool) :
    esp_err_t * list id_node :=
  match nodes with
  | [] => (ESP_ERR_NOT_FOUND, [])
  | it :: nodes =>
      if id it =? event_id then
        let '(res, hs) := handler_instances_remove (id_handlers it) handler_ctx legacy in
        if is_ok res && SLIST_EMPTY hs then (ESP_OK, nodes)
        else let '(res, nodes) := id_nodes_remove nodes event_id handler_ctx legacy in
             (res, IdNode (id it) hs :: nodes)
      else let '(res, nodes) := id_nodes_remove nodes event_id handler_ctx legacy in (res, it :: nodes)
  end.

Definition base_node_remove_handler (bn : base_node) (event_id : Z) (handler_ctx : handler_node) (legacy : bool) :
    esp_err_t * base_node :=
  if event_id =? ESP_EVENT_ANY_ID then
    let '(res, hs) := handler_instances_remove (base_handlers bn) handler_ctx legacy in
    (res, BaseNode (base bn) hs (id_nodes bn))
  else
    let '(res, ids) := id_nodes_remove (id_nodes bn) event_id handler_ctx legacy in
    (res, BaseNode (base bn) (base_handlers bn) ids).

Fixpoint base_nodes_remove (nodes : list base_node) (event_base : node_base) (event_id : Z)
    (handler_ctx : handler_node) (legacy : bool) : esp_err_t * list base_node :=
  match nodes with
  | [] => (ESP_ERR_NOT_FOUND, [])
  | it :: nodes =>
      if bool_decide (base it = event_base) then
        let '(res, it) := base_node_remove_handler it event_id handler_ctx legacy in
        if is_ok res && (SLIST_EMPTY (base_handlers it) && SLIST_EMPTY (id_nodes it)) then (ESP_OK, nodes)
        else let '(res, nodes) := base_nodes_remove nodes event_base event_id handler_ctx legacy in (res, it :: nodes)
      else let '(res, nodes) := base_nodes_remove nodes event_base event_id handler_ctx legacy in (res, it :: nodes)
  end.

Definition loop_node_remove_handler (ln : loop_node) (event_base : node_base) (event_id : Z)
    (handler_ctx : handler_node) (legacy : bool) : esp_err_t * loop_node :=
  if is_loop_level event_base event_id then
    let '(res, hs) := handler_instances_remove (loop_handlers ln) handler_ctx legacy in
    (res, LoopNode hs (base_nodes ln))
  else
    let '(res, bases) := base_nodes_remove (base_nodes ln) event_base event_id handler_ctx legacy in
    (res, LoopNode (loop_handlers ln) bases).

Fixpoint loop_nodes_remove (nodes : list loop_node) (event_base : node_base) (event_id : Z)
    (handler_ctx : handler_node) (legacy : bool) : list loop_node :=
  match nodes with
  | [] => []
  | it :: nodes =>
      let '(res, it) := loop_node_remove_handler it event_base event_id handler_ctx legacy in
      if is_ok res && (SLIST_EMPTY (base_nodes it) && SLIST_EMPTY (loop_handlers it)) then nodes
      else it :: loop_nodes_remove nodes event_base event_id handler_ctx legacy
  end.

Definition esp_event_handler_unregister_with_internal (loop_nodes : list loop_node) (event_base : esp_event_base_t)
    (event_id : Z) (handler_ctx : handler_node) (legacy : bool) : esp_err_t * list loop_node :=
  if bool_decide (event_base = ESP_EVENT_ANY_BASE) && negb (event_id =? ESP_EVENT_ANY_ID)
  then (ESP_ERR_INVALID_ARG, loop_nodes)
  else (ESP_OK, loop_nodes_remove loop_nodes (any_base event_base) event_id handler_ctx legacy).

Definition esp_event_handler_unregister_with loop_nodes event_base event_id event_handler :=
  esp_event_handler_unregister_with_internal loop_nodes event_base event_id (Handler 0 event_handler 0) true.

(** The instance is the address of a context; what is stored there is read
    only by the legacy functions. *)
Definition esp_event_handler_instance_unregister_with loop_nodes event_base event_id (handler_ctx_arg : Z) :=
  if handler_ctx_arg =? 0 then (ESP_ERR_INVALID_ARG, loop_nodes)
  else esp_event_handler_unregister_with_internal loop_nodes event_base event_id (Handler handler_ctx_arg 0 0) false.

(** The contexts that are freed, in order. *)
Definition handler_instances_remove_all (hs : list handler_node) : list Z := ctx <$> hs.

Definition base_node_remove_all_handler (bn : base_node) : list Z :=
  handler_instances_remove_all (base_handlers bn) ++
  (id_nodes bn ≫= fun it => handler_instances_remove_all (id_handlers it)).

Definition loop_node_remove_all_handler (ln : loop_node) : list Z :=
  handler_instances_remove_all (loop_handlers ln) ++ (base_nodes ln ≫= base_node_remove_all_handler).

(** ** The handlers of an event, in the order [esp_event_loop_run] calls them *)

Fixpoint id_nodes_run (nodes : list id_node) (post_id : Z) : list handler_node :=
  match nodes with
  | [] => []
  | it :: nodes => if id it =? post_id then id_handlers it else id_nodes_run nodes post_id
  end.

Fixpoint base_nodes_run (nodes : list base_node) (post_base : node_base) (post_id : Z) : list handler_node :=
  match nodes with
  | [] => []
  | it :: nodes =>
      (if bool_decide (base it = post_base) then base_handlers it ++ id_nodes_run (id_nodes it) post_id else []) ++
      base_nodes_run nodes post_base post_id
  end.

Fixpoint loop_nodes_run (nodes : list loop_node) (post_base : node_base) (post_id : Z) : list handler_node :=
  match nodes with
  | [] => []
  | it :: nodes =>
      loop_handlers it ++ base_nodes_run (base_nodes it) post_base post_id ++ loop_nodes_run nodes post_base post_id
  end.

(** ** Registrations *)

(** A handler and the events it is registered for. *)
Record registration := Reg { r_base : node_base; r_id : Z; r_node : handler_node }.

(** What an event matches: handlers of every event, of its base, of its id. *)
Definition matches (b : node_base) (i : Z) (r : registration) : bool :=
  is_loop_level (r_base r) (r_id r) ||
  (bool_decide (r_base r = b) && ((r_id r =? ESP_EVENT_ANY_ID) || (r_id r =? i))).

(** The registrations the nodes hold, in the order of the nodes. *)
Definition id_regs (b : node_base) (n : id_node) : list registration := Reg b (id n) <$> id_handlers n.

Definition base_regs (bn : base_node) : list registration :=
  (Reg (base bn) ESP_EVENT_ANY_ID <$> base_handlers bn) ++ (id_nodes bn ≫= id_regs (base bn)).

Definition node_regs (ln : loop_node) : list registration :=
  (Reg esp_event_any_base ESP_EVENT_ANY_ID <$> loop_handlers ln) ++ (base_nodes ln ≫= base_regs).

Definition loop_regs (nodes : list loop_node) : list registration := nodes ≫= node_regs.

(** Nodes are not empty, an id node is not for every id, a base node not for
    every base, and a base node has one node for an id. *)
Definition wf_id (n : id_node) : Prop := id n <> ESP_EVENT_ANY_ID /\ id_handlers n <> [].

Record wf_base (bn : base_node) : Prop := WfBase {
  wb_base : base bn <> esp_event_any_base;
  wb_ids : NoDup (id <$> id_nodes bn);
  wb_nodes : Forall wf_id (id_nodes bn);
  wb_some : base_handlers bn <> [] \/ id_nodes bn <> [];
}.

Record wf_loop_node (ln : loop_node) : Prop := WfLoop {
  wl_bases : Forall wf_base (base_nodes ln);
  wl_some : loop_handlers ln <> [] \/ base_nodes ln <> [];
}.

Definition wf_nodes (nodes : list loop_node) : Prop := Forall wf_loop_node nodes.

(** ** Lists *)

Lemma filter_none {A} (P : A -> Prop) `{forall x, Decision (P x)} l : Forall (fun x => ~ P x) l -> filter P l = [].
Proof. induction 1 as [|x l Hx _ IH]; [done|]. by rewrite filter_cons_False. Qed.

Lemma filter_every {A} (P : A -> Prop) `{forall x, Decision (P x)} l : Forall P l -> filter P l = l.
Proof. induction 1 as [|x l Hx _ IH]; [done|]. by rewrite filter_cons_True, IH. Qed.

Lemma last_index_some {A} (p : A -> bool) l n : last_index p l = Some n ->
  exists pre x post, l = pre ++ x :: post /\ length pre = n /\ p x = true /\ Forall (fun y => p y = false) post.
Proof.
  revert n. induction l as [|x l IH]; intros n; cbn; [done|]. destruct (last_index p l) as [m|] eqn:E.
  - intros [= <-]. destruct (IH m eq_refl) as (pre & y & post & -> & <- & Hy & Hpost). by exists (x :: pre), y, post.
  - destruct (p x) eqn:Ex; [|done]. intros [= <-]. exists [], x, l. do 3 (split; [done|]).
    clear IH. induction l as [|y l IH]; [constructor|]. cbn in E.
    destruct (last_index p l); [done|]. destruct (p y) eqn:Ey; [done|]. constructor; [done|]. by apply IH.
Qed.

Lemma last_index_none {A} (p : A -> bool) l : last_index p l = None -> Forall (fun y => p y = false) l.
Proof.
  induction l as [|x l IH]; cbn; [constructor|]. destruct (last_index p l); [done|].
  destruct (p x) eqn:Ex; [done|]. intros _. constructor; auto.
Qed.

Lemma insert_middle {A} (pre : list A) x post y n : length pre = n -> <[n := y]> (pre ++ x :: post) = pre ++ y :: post.
Proof. intros <-. rewrite insert_app_r_alt by lia. by rewrite Nat.sub_diag. Qed.

Lemma SLIST_EMPTY_true {A} (l : list A) : SLIST_EMPTY l = true <-> l = [].
Proof. by destruct l. Qed.

(** ** The order of dispatch *)

Section Matches.
Context (b : node_base) (i : Z) (Hi : i <> ESP_EVENT_ANY_ID).

Lemma matches_loop n : matches b i (Reg esp_event_any_base ESP_EVENT_ANY_ID n).
Proof. done. Qed.

Lemma matches_id c j n : c <> esp_event_any_base -> j <> ESP_EVENT_ANY_ID -> matches b i (Reg c j n) <-> c = b /\ j = i.
Proof.
  intros Hc Hj. unfold matches, is_loop_level. cbn [r_base r_id].
  rewrite bool_decide_eq_false_2 by done. rewrite (proj2 (Z.eqb_neq j _)) by done. cbn.
  rewrite andb_True, bool_decide_spec. destruct (Z.eqb_spec j i); cbn; intuition.
Qed.

Lemma matches_base c n : c <> esp_event_any_base -> matches b i (Reg c ESP_EVENT_ANY_ID n) <-> c = b.
Proof.
  intros Hc. unfold matches, is_loop_level. cbn [r_base r_id].
  rewrite bool_decide_eq_false_2 by done. rewrite Z.eqb_refl. cbn. rewrite andb_True, bool_decide_spec. intuition.
Qed.

Lemma ids_filter nodes : b <> esp_event_any_base -> NoDup (id <$> nodes) -> Forall wf_id nodes ->
  r_node <$> filter (fun r => matches b i r) (nodes ≫= id_regs b) = id_nodes_run nodes i.
Proof.
  intros Hb. induction nodes as [|n nodes IH]; intros Hd Hwf; cbn; [done|]. rewrite filter_app, fmap_app.
  cbn in Hd. apply NoDup_cons in Hd as [Hn Hd]. inversion_clear Hwf as [|? ? [Hid _] Hwf'].
  destruct (Z.eqb_spec (id n) i) as [E|E].
  - unfold id_regs at 1. rewrite filter_every; [|apply Forall_fmap, Forall_true; intros x; cbn; by rewrite matches_id].
    rewrite <- list_fmap_compose, filter_none, app_nil_r; [by apply list_fmap_id|].
    apply Forall_bind, Forall_forall. intros m Hm. apply Forall_fmap, Forall_true. intros x. cbn.
    rewrite Forall_forall in Hwf'. rewrite matches_id by (try done; apply Hwf', Hm).
    intros [_ Em]. apply Hn. rewrite E, <- Em. by apply list_elem_of_fmap_2.
  - rewrite filter_none; [by apply IH|]. apply Forall_fmap, Forall_true. intros x. cbn. rewrite matches_id by done. tauto.
Qed.

Lemma base_other bn : wf_base bn -> base bn <> b -> Forall (fun r => ~ matches b i r) (base_regs bn).
Proof.
  intros [Hb _ Hn _] E. apply Forall_app. split.
  - apply Forall_fmap, Forall_true. intros x. cbn. by rewrite matches_base.
  - apply Forall_bind, Forall_forall. intros n Hn'. apply Forall_fmap, Forall_true. intros x. cbn.
    rewrite Forall_forall in Hn. rewrite matches_id by (try done; apply Hn, Hn'). tauto.
Qed.

Lemma bases_filter nodes : Forall wf_base nodes ->
  r_node <$> filter (fun r => matches b i r) (nodes ≫= base_regs) = base_nodes_run nodes b i.
Proof.
  induction 1 as [|bn nodes Hbn _ IH]; cbn; [done|]. rewrite filter_app, fmap_app, IH. f_equal. case_bool_decide as E.
  - destruct Hbn as [Hb Hd Hn _]. unfold base_regs. rewrite filter_app, fmap_app. f_equal.
    + rewrite filter_every; [rewrite <- list_fmap_compose; by apply list_fmap_id|].
      apply Forall_fmap, Forall_true. intros x. cbn. by rewrite matches_base.
    + rewrite E. apply ids_filter; [by rewrite <- E|done|done].
  - by rewrite filter_none by (by apply base_other).
Qed.

(** Dispatch calls the registrations that match, in the order of the nodes. *)
Lemma run_filter nodes : wf_nodes nodes ->
  loop_nodes_run nodes b i = r_node <$> filter (fun r => matches b i r) (loop_regs nodes).
Proof.
  induction 1 as [|ln nodes Hln _ IH]; [done|]. cbn [loop_nodes_run].
  change (loop_regs (ln :: nodes)) with (node_regs ln ++ loop_regs nodes). rewrite filter_app, fmap_app, <- IH. unfold node_regs.
  rewrite filter_app, fmap_app, bases_filter by apply Hln. rewrite <- app_assoc. f_equal.
  rewrite filter_every; [rewrite <- list_fmap_compose; symmetry; by apply list_fmap_id|].
  by apply Forall_fmap, Forall_true.
Qed.

End Matches.

(** ** Adding appends a registration, or overwrites an argument *)

Fixpoint enough (k : nat) (mem : list (option Z)) : bool :=
  match k, mem with
  | O, _ => true
  | S k, Some _ :: mem => enough k mem
  | _, _ => false
  end.

(** The argument of the instance at [c] is replaced. *)
Definition set_arg (c a : Z) (r : registration) : registration :=
  if ctx (r_node r) =? c then Reg (r_base r) (r_id r) (Handler (ctx (r_node r)) (handler (r_node r)) a) else r.

Definition ctxs (l : list registration) : list Z := (fun r => ctx (r_node r)) <$> l.

(** [L'] has [r] after everything in [L] that an event it matches matches. *)
Definition appends (L L' : list registration) (r : registration) : Prop :=
  L' ≡ₚ L ++ [r] /\
  forall b i, i <> ESP_EVENT_ANY_ID -> filter (fun r => matches b i r) L' = filter (fun r => matches b i r) (L ++ [r]).

Definition overwrites (L L' : list registration) (b : node_base) (i h a : Z) : Prop :=
  exists n, Reg b i n ∈ L /\ handler n = h /\ (NoDup (ctxs L) -> L' = set_arg (ctx n) a <$> L).

Lemma appends_here L r : appends L (L ++ [r]) r.
Proof. by split. Qed.

Lemma appends_between pre L L' r post :
  appends L L' r ->
  (forall b i, i <> ESP_EVENT_ANY_ID -> matches b i r -> Forall (fun r => ~ matches b i r) post) ->
  appends (pre ++ L ++ post) (pre ++ L' ++ post) r.
Proof.
  intros [Hp Hf] Hpost. split; [rewrite Hp; solve_Permutation|]. intros b i Hi.
  rewrite !filter_app, (Hf b i Hi), filter_app, <- !app_assoc. do 2 f_equal.
  destruct (decide (matches b i r)) as [Hm|Hm].
  - rewrite (filter_none _ post) by (by apply Hpost). by rewrite app_nil_r.
  - by rewrite filter_cons_False, filter_nil, app_nil_r by done.
Qed.

Lemma set_arg_other c a L : c ∉ ctxs L -> set_arg c a <$> L = L.
Proof.
  induction L as [|r L IH]; cbn; [done|]. intros Hc. apply not_elem_of_cons in Hc as [Hr Hc]. rewrite (IH Hc).
  unfold set_arg. by rewrite (proj2 (Z.eqb_neq _ _)).
Qed.

Lemma overwrites_between pre L L' post b i h a :
  overwrites L L' b i h a -> overwrites (pre ++ L ++ post) (pre ++ L' ++ post) b i h a.
Proof.
  intros (n & Hn & Hh & HL). exists n. split; [set_solver|]. split; [done|]. intros Hd.
  unfold ctxs in *. rewrite !fmap_app in Hd. apply NoDup_app in Hd as (Hd1 & Hd2 & Hd).
  apply NoDup_app in Hd as (Hd & Hd3 & _). rewrite !fmap_app.
  assert (Hin : ctx n ∈ ctxs L) by (by apply (list_elem_of_fmap_2 (fun r => ctx (r_node r)) _ (Reg b i n))).
  rewrite (set_arg_other _ _ pre), (set_arg_other _ _ post), HL; [done|done|..]; intros Hc.
  - by apply (Hd3 (ctx n)).
  - by apply (Hd2 (ctx n) Hc), elem_of_app; left.
Qed.

(** What an addition may give. *)
Definition adds {A} (regs : A -> list registration) (wf : A -> Prop) (k : nat) (mem : list (option Z)) (x : A)
    (b : node_base) (i h a : Z) (legacy : bool) (r : added A) : Prop :=
  match r with
  | inl err => err = ESP_ERR_NO_MEM /\ enough k mem = false
  | inr (Some c, x') => Some c ∈ mem /\ wf x' /\ appends (regs x) (regs x') (Reg b i (Handler c h a))
  | inr (None, x') => legacy = true /\ wf x' /\ overwrites (regs x) (regs x') b i h a
  end.

Lemma adds_map {A B} regs wf regs' wf' k mem (x : A) (y : B) b i h a legacy r (f : A -> B) pre post :
  adds regs wf k mem x b i h a legacy r ->
  regs' y = pre ++ regs x ++ post ->
  (forall x', wf x' -> wf' (f x') /\ regs' (f x') = pre ++ regs x' ++ post) ->
  (forall b' i' c, i' <> ESP_EVENT_ANY_ID -> matches b' i' (Reg b i (Handler c h a)) ->
     Forall (fun r => ~ matches b' i' r) post) ->
  adds regs' wf' k mem y b i h a legacy (map_added f r).
Proof.
  intros Hr Hy Hf Hpost. destruct r as [err|[[c|] x']]; cbn in *; [done|..].
  - destruct Hr as (Hc & Hx & Ha). destruct (Hf x' Hx) as [Hw Hx']. rewrite Hy, Hx'.
    split; [done|]. split; [done|]. apply appends_between; [done|]. intros b' i'. apply Hpost.
  - destruct Hr as (Hl & Hx & Ho). destruct (Hf x' Hx) as [Hw Hx']. rewrite Hy, Hx'.
    split; [done|]. split; [done|]. by apply overwrites_between.
Qed.

(** A node that is put at the end of a list. *)
Lemma adds_new {A B} regs wf regs' wf' k mem (x : A) (y : B) b i h a legacy r (f : A -> B) node :
  adds regs wf k mem x b i h a legacy r -> regs x = [] ->
  (forall x', wf x' -> wf' (f x') /\ regs' (f x') = regs' y ++ regs x') ->
  adds regs' wf' (S k) (Some node :: mem) y b i h a legacy (map_added f r).
Proof.
  intros Hr Hx Hf. destruct r as [err|[[c|] x']]; cbn in *; [done|..].
  - destruct Hr as (Hc & Hw & [Hp Ha]). destruct (Hf x' Hw) as [Hw' Hx'].
    split; [by constructor|]. split; [done|]. rewrite Hx' . rewrite Hx in *.
    split; [by rewrite Hp|]. intros b' i' Hi. by rewrite !filter_app, (Ha b' i' Hi).
  - destruct Hr as (_ & _ & (n & Hn & _)). rewrite Hx in Hn. by apply elem_of_nil in Hn.
Qed.

Lemma adds_more {A} regs wf k k' mem (x : A) b i h a legacy r :
  adds regs wf k mem x b i h a legacy r -> (k <= k')%nat -> adds regs wf k' mem x b i h a legacy r.
Proof.
  intros Hr Hk. destruct r as [err|[[c|] x']]; cbn in *; [|done..]. destruct Hr as [-> He]. split; [done|].
  revert k' mem Hk He. induction k as [|k IH]; intros k' mem Hk He; cbn in He; [done|]. destruct k' as [|k']; [lia|].
  cbn. destruct mem as [|[n|] mem]; try done. apply IH; [lia|done].
Qed.

Lemma overwrite_arg_spec hs h a hs' : overwrite_arg hs h a = Some hs' -> forall b i,
  hs' <> [] /\ overwrites (Reg b i <$> hs) (Reg b i <$> hs') b i h a.
Proof.
  revert hs'. induction hs as [|n hs IH]; intros hs'; cbn; [done|]. destruct (Z.eqb_spec (handler n) h) as [E|E].
  - intros [= <-] b i. split; [done|]. exists n. split; [by constructor|]. split; [done|]. cbn. intros Hd.
    apply NoDup_cons in Hd as [Hn Hd]. rewrite set_arg_other by done. unfold set_arg. cbn. by rewrite Z.eqb_refl.
  - destruct (overwrite_arg hs h a) as [hs1|] eqn:E1; [|done]. intros [= <-] b i.
    destruct (IH hs1 eq_refl b i) as (Hne & n' & Hn & Hh & HL). split; [done|]. exists n'.
    split; [by constructor|]. split; [done|]. cbn. intros Hd. apply NoDup_cons in Hd as [Hd0 Hd]. rewrite (HL Hd).
    f_equal. unfold set_arg. cbn. rewrite (proj2 (Z.eqb_neq _ _)); [done|]. intros Ec. apply Hd0. rewrite Ec.
    by apply (list_elem_of_fmap_2 (fun r => ctx (r_node r)) _ (Reg b i n')).
Qed.

Lemma handler_instances_add_adds mem hs b i h a legacy :
  adds (fun hs => Reg b i <$> hs) (fun hs => hs <> []) 2 mem hs b i h a legacy (handler_instances_add mem hs h a legacy).
Proof.
  unfold handler_instances_add. destruct mem as [|[n|] mem]; try done. cbn [calloc].
  destruct mem as [|[c|] mem]; try done. cbn [calloc].
  destruct (if legacy then _ else None) as [hs'|] eqn:E; cbn.
  - destruct legacy; [|done]. split; [done|]. by apply overwrite_arg_spec.
  - split; [set_solver|]. split; [by destruct hs|]. rewrite fmap_app. apply appends_here.
Qed.

Lemma last_id_split (nodes : list id_node) i n : last_index (fun it => id it =? i) nodes = Some n ->
  exists pre x post, nodes = pre ++ x :: post /\ length pre = n /\ id x = i /\ Forall (fun y => id y <> i) post.
Proof.
  intros E. apply last_index_some in E as (pre & x & post & -> & Hl & Hx & Hpost). exists pre, x, post.
  split; [done|]. split; [done|]. split; [by apply Z.eqb_eq|].
  eapply Forall_impl; [exact Hpost|]. intros y Hy. by apply Z.eqb_neq.
Qed.

Lemma last_base_split (nodes : list base_node) b n :
  last_index (fun it => bool_decide (base it = b)) nodes = Some n ->
  exists pre x post, nodes = pre ++ x :: post /\ length pre = n /\ base x = b /\ Forall (fun y => base y <> b) post.
Proof.
  intros E. apply last_index_some in E as (pre & x & post & -> & Hl & Hx & Hpost). exists pre, x, post.
  split; [done|]. split; [done|]. split; [by apply bool_decide_eq_true in Hx|].
  eapply Forall_impl; [exact Hpost|]. intros y Hy. by apply bool_decide_eq_false in Hy.
Qed.

(** Nodes for other ids of the base are not reached by the event. *)
Lemma ids_unmatched b i b' i' c post : i' <> ESP_EVENT_ANY_ID -> b <> esp_event_any_base -> i <> ESP_EVENT_ANY_ID ->
  matches b' i' (Reg b i c) -> Forall wf_id post -> Forall (fun y => id y <> i) post ->
  Forall (fun r => ~ matches b' i' r) (post ≫= id_regs b).
Proof.
  intros Hi' Hb Hi Hm Hw Hp. apply matches_id in Hm as [-> ->]; [|done..]. rewrite Forall_forall in Hw, Hp.
  apply Forall_bind, Forall_forall. intros x Hx. apply Forall_fmap, Forall_true. intros m. cbn.
  rewrite matches_id by (try done; by apply Hw). intros [_ E]. by apply (Hp x).
Qed.

Lemma base_node_add_adds mem bn b i h a legacy :
  base bn = b -> b <> esp_event_any_base -> NoDup (id <$> id_nodes bn) -> Forall wf_id (id_nodes bn) ->
  (i = ESP_EVENT_ANY_ID -> id_nodes bn = []) ->
  adds base_regs wf_base 3 mem bn b i h a legacy (base_node_add_handler mem bn i h a legacy).
Proof.
  intros Hb Hany Hd Hw Hi. unfold base_node_add_handler. destruct (Z.eqb_spec i ESP_EVENT_ANY_ID) as [->|Hi'].
  - rewrite (Hi eq_refl). eapply (adds_more _ _ 2); [|lia].
    apply (adds_map _ _ _ _ _ _ _ _ _ _ _ _ _ _ _ [] [] (handler_instances_add_adds mem (base_handlers bn) b ESP_EVENT_ANY_ID h a legacy)).
    + unfold base_regs. by rewrite (Hi eq_refl), Hb.
    + intros hs Hhs. split; [split; cbn; try done; [by rewrite Hb|constructor|by left]|]. unfold base_regs. cbn. by rewrite Hb.
    + constructor.
  - destruct (last_index _ _) as [n|] eqn:E.
    + apply last_id_split in E as (pre & x & post & E & Hn & Hx & Hpost).
      rewrite E, (list_lookup_middle _ _ _ _ (eq_sym Hn)). eapply (adds_more _ _ 2); [|lia].
      rewrite E in Hw, Hd. apply Forall_app in Hw as [Hw1 Hw]. inversion_clear Hw as [|? ? [Hx1 _] Hw2].
      apply (adds_map _ _ _ _ _ _ _ _ _ _ _ _ _ _ _ ((Reg b ESP_EVENT_ANY_ID <$> base_handlers bn) ++ (pre ≫= id_regs b)) (post ≫= id_regs b)
               (handler_instances_add_adds mem (id_handlers x) b i h a legacy)).
      * unfold base_regs. rewrite E, Hb, bind_app. cbn. unfold id_regs at 2. by rewrite Hx, <- app_assoc.
      * intros hs Hhs. rewrite insert_middle by done. split.
        -- split; cbn; [by rewrite Hb|rewrite fmap_app in *; exact Hd|apply Forall_app; split; [done|by constructor]|right; by destruct pre].
        -- unfold base_regs. cbn. rewrite Hb, bind_app. cbn. unfold id_regs at 2. cbn. by rewrite Hx, <- app_assoc.
      * intros b' i' c Hne Hm. by apply (ids_unmatched b i b' i' (Handler c h a)).
    + apply last_index_none in E. destruct mem as [|[node|] mem]; cbn [calloc]; try done.
      eapply (adds_new _ _ _ _ 2); [apply (handler_instances_add_adds mem [] b i h a legacy)|done|]. intros hs Hhs. split.
      * split; cbn; [by rewrite Hb| |apply Forall_app; split; [done|by apply Forall_singleton]|right; by destruct (id_nodes bn)].
        rewrite fmap_app. apply NoDup_app. split; [done|]. split; [|apply NoDup_singleton].
        intros j Hj ->%list_elem_of_singleton. cbn in Hj. apply list_elem_of_fmap in Hj as (y & Hy & Hy').
        rewrite Forall_forall in E. specialize (E y Hy'). cbn in E. by rewrite <- Hy, Z.eqb_refl in E.
      * unfold base_regs. cbn. rewrite bind_app, <- app_assoc. cbn. rewrite app_nil_r, Hb. done.
Qed.

Lemma base_wf_id bn : wf_base bn -> NoDup (id <$> id_nodes bn) /\ Forall wf_id (id_nodes bn).
Proof. by intros []. Qed.

Lemma is_loop_level_spec b i : is_loop_level b i = true <-> b = esp_event_any_base /\ i = ESP_EVENT_ANY_ID.
Proof. unfold is_loop_level. rewrite andb_true_iff, bool_decide_eq_true, Z.eqb_eq. done. Qed.

Lemma bases_unmatched b i b' i' c post : i' <> ESP_EVENT_ANY_ID -> b <> esp_event_any_base ->
  matches b' i' (Reg b i c) -> Forall wf_base post -> Forall (fun y => base y <> b) post ->
  Forall (fun r => ~ matches b' i' r) (post ≫= base_regs).
Proof.
  intros Hi' Hb Hm Hw Hp. assert (b = b') as ->.
  { destruct (Z.eq_dec i ESP_EVENT_ANY_ID) as [->|Hi]; [by apply matches_base in Hm|by apply matches_id in Hm as [-> _]]. }
  apply Forall_bind, Forall_forall. intros x Hx. rewrite Forall_forall in Hw, Hp. by apply base_other; auto.
Qed.

Lemma loop_node_add_adds mem ln b i h a legacy :
  Forall wf_base (base_nodes ln) -> (b = esp_event_any_base -> i = ESP_EVENT_ANY_ID /\ base_nodes ln = []) ->
  adds node_regs wf_loop_node 4 mem ln b i h a legacy (loop_node_add_handler mem ln b i h a legacy).
Proof.
  intros Hw Hany. unfold loop_node_add_handler. fold (is_loop_level b i). destruct (is_loop_level b i) eqn:El.
  - apply is_loop_level_spec in El as [-> ->]. destruct (Hany eq_refl) as [_ Hb]. rewrite Hb. eapply (adds_more _ _ 2); [|lia].
    apply (adds_map _ _ _ _ _ _ _ _ _ _ _ _ _ _ _ [] [] (handler_instances_add_adds mem (loop_handlers ln) _ _ h a legacy)).
    + unfold node_regs. by rewrite Hb.
    + intros hs Hhs. split; [|done]. split; [constructor|by left].
    + constructor.
  - assert (Hb : b <> esp_event_any_base).
    { intros E. destruct (Hany E) as [-> _]. by rewrite (proj2 (is_loop_level_spec b ESP_EVENT_ANY_ID)) in El. }
    set (new_node := let '(_, _) := calloc mem in _). assert (Hnew : adds node_regs wf_loop_node 4 mem ln b i h a legacy new_node).
    { subst new_node. destruct mem as [|[node|] mem]; cbn [calloc]; try done.
      apply (adds_new base_regs wf_base _ _ 3 _ (BaseNode b [] [])); [|done|].
      - apply base_node_add_adds; by try constructor.
      - intros bn Hbn. split.
        + split; cbn; [apply Forall_app; split; [done|by apply Forall_singleton]|right; by destruct (base_nodes ln)].
        + unfold node_regs. cbn. rewrite bind_app, <- app_assoc. cbn. by rewrite app_nil_r. }
    destruct (last (base_nodes ln)) as [last_bn|]; [|done]. destruct (last_index _ _) as [n|] eqn:E; [|done].
    apply last_base_split in E as (pre & x & post & E & Hn & Hx & Hpost). rewrite E, (list_lookup_middle _ _ _ _ (eq_sym Hn)).
    destruct (needs_base_node x last_bn b i) eqn:En; [exact Hnew|]. eapply (adds_more _ _ 3); [|lia].
    rewrite E in Hw. apply Forall_app in Hw as [Hw1 Hw]. inversion_clear Hw as [|? ? Hx1 Hw2].
    destruct (base_wf_id x Hx1) as [Hd Hids].
    eapply (adds_map base_regs wf_base _ _ _ _ x _ _ _ _ _ _ _ _ ((Reg esp_event_any_base ESP_EVENT_ANY_ID <$> loop_handlers ln) ++ (pre ≫= base_regs)) (post ≫= base_regs)).
    + apply base_node_add_adds; try done. intros ->. unfold needs_base_node in En. rewrite Z.eqb_refl, !andb_true_r in En.
      apply orb_false_iff in En as [En _]. apply negb_false_iff in En. by apply SLIST_EMPTY_true.
    + unfold node_regs. rewrite E, bind_app. cbn. by rewrite <- app_assoc.
    + intros bn Hbn. rewrite insert_middle by done. split.
      * split; cbn; [apply Forall_app; split; [done|by constructor]|right; by destruct pre].
      * unfold node_regs. cbn. rewrite bind_app. cbn. by rewrite <- app_assoc.
    + intros b' i' c Hi' Hm. by apply (bases_unmatched b i b' i' (Handler c h a)).
Qed.

Lemma register_nodes_adds mem nodes b i h a legacy :
  wf_nodes nodes -> (b = esp_event_any_base -> i = ESP_EVENT_ANY_ID) ->
  adds loop_regs wf_nodes 5 mem nodes b i h a legacy (register_nodes mem nodes b i h a legacy).
Proof.
  intros Hw Hany. unfold register_nodes. set (new_node := let '(_, _) := calloc mem in _).
  assert (Hnew : adds loop_regs wf_nodes 5 mem nodes b i h a legacy new_node).
  { subst new_node. destruct mem as [|[node|] mem]; cbn [calloc]; try done.
    apply (adds_new node_regs wf_loop_node _ _ 4 _ (LoopNode [] [])); [|done|].
    - apply loop_node_add_adds; [constructor|auto].
    - intros ln Hln. split; [apply Forall_app; split; [done|by apply Forall_singleton]|].
      unfold loop_regs. rewrite bind_app. cbn. by rewrite app_nil_r. }
  destruct (last nodes) as [ln|] eqn:E; [|done]. destruct (negb _ && _) eqn:En; [exact Hnew|].
  apply last_Some in E as [init ->]. pose proof Hw as [Hw1 [Hw2 _]%Forall_cons_1]%Forall_app.
  eapply (adds_more _ _ 4); [|lia].
  eapply (adds_map node_regs wf_loop_node _ _ _ _ ln _ _ _ _ _ _ _ _ (loop_regs init) []).
  - apply loop_node_add_adds; [apply Hw2|]. intros Eb. split; [by apply Hany|]. subst b. rewrite Hany in En by done.
    rewrite (proj2 (is_loop_level_spec _ _)), andb_true_r in En by done. apply negb_false_iff in En. by apply SLIST_EMPTY_true.
  - unfold loop_regs. rewrite bind_app. done.
  - intros ln' Hln. rewrite insert_middle by (rewrite length_app; cbn; lia). split.
    + apply Forall_app. split; [done|by apply Forall_singleton].
    + unfold loop_regs. rewrite bind_app. done.
  - constructor.
Qed.

(** ** Removing *)

Section Remove.
Context (hc : handler_node) (legacy : bool) (b : node_base) (i : Z).

(** The registrations that are asked to be removed. *)
Definition targets (r : registration) : bool :=
  bool_decide (r_base r = b) && (r_id r =? i) && remove_match hc legacy (r_node r).

Definition kept (L : list registration) : list registration := filter (fun r => ~ targets r) L.

Definition hits (L : list registration) : Prop := filter (fun r => targets r) L <> [].

(** The only registration to remove is removed, if there is one. *)
Definition removes (L L' : list registration) : Prop :=
  (length (filter (fun r => targets r) L) <= 1)%nat -> L' = kept L.

Lemma removes_app L1 L1' L2 L2' : removes L1 L1' -> removes L2 L2' -> removes (L1 ++ L2) (L1' ++ L2').
Proof.
  intros H1 H2 Hl. rewrite filter_app, length_app in Hl. unfold kept. rewrite filter_app.
  by rewrite H1, H2 by lia.
Qed.

Lemma kept_all L : filter (fun r => targets r) L = [] -> kept L = L.
Proof.
  induction L as [|r L IH]; [done|]. unfold kept. rewrite filter_cons. case_decide as E; [done|]. intros HL.
  rewrite filter_cons_True by done. f_equal. by apply IH.
Qed.

Lemma removes_none L : Forall (fun r => ~ targets r) L -> removes L L.
Proof. intros H _. symmetry. apply kept_all. by apply filter_none. Qed.

Lemma removes_stop L1 L2 : removes L1 [] -> hits L1 -> removes (L1 ++ L2) L2.
Proof.
  unfold hits. intros H1 Hh Hl. rewrite filter_app, length_app in Hl. unfold kept. rewrite filter_app.
  destruct (filter _ L1) as [|r l] eqn:E; [done|]. cbn in Hl.
  fold (kept L1) (kept L2). rewrite <- H1 by (rewrite E; cbn; lia). cbn. symmetry. apply kept_all.
  by destruct (filter _ L2); [|cbn in Hl; lia].
Qed.

Lemma hits_l L1 L2 : hits L1 -> hits (L1 ++ L2).
Proof. unfold hits. rewrite filter_app. intros H E. by apply app_eq_nil in E as [? _]. Qed.

Lemma hits_r L1 L2 : hits L2 -> hits (L1 ++ L2).
Proof. unfold hits. rewrite filter_app. intros H E. by apply app_eq_nil in E as [_ ?]. Qed.

Lemma untargeted b' i' hs : ~ (b' = b /\ i' = i) -> Forall (fun r => ~ targets r) (Reg b' i' <$> hs).
Proof.
  intros H. apply Forall_fmap, Forall_true. intros x. unfold targets. cbn. rewrite !andb_True, bool_decide_spec.
  destruct (Z.eqb_spec i' i); cbn; tauto.
Qed.

Lemma handlers_remove hs :
  let '(res, hs') := handler_instances_remove hs hc legacy in
  removes (Reg b i <$> hs) (Reg b i <$> hs') /\
  if is_ok res then hits (Reg b i <$> hs) else hs' = hs.
Proof.
  induction hs as [|x hs IH]; cbn; [done|].
  assert (Ht : targets (Reg b i x) = remove_match hc legacy x).
  { unfold targets. cbn. by rewrite bool_decide_eq_true_2, Z.eqb_refl. }
  destruct (remove_match hc legacy x) eqn:E.
  - assert (Hh : hits [Reg b i x]) by (unfold hits; by rewrite filter_cons_True by (by rewrite Ht)).
    split; [|exact (hits_l _ _ Hh)]. apply (removes_stop [Reg b i x]); [|done].
    intros _. unfold kept. rewrite filter_cons_False; [done|]. rewrite Ht. intros H. by apply H.
  - destruct (handler_instances_remove hs hc legacy) as [res hs']. destruct IH as [IH1 IH2]. split.
    + apply (removes_app [_] [_]); [|done]. apply removes_none. constructor; [rewrite Ht; intros []|constructor].
    + destruct (is_ok res); [by apply (hits_r [_])|by rewrite IH2].
Qed.

Lemma ids_remove nodes :
  Forall wf_id nodes ->
  let '(res, nodes') := id_nodes_remove nodes i hc legacy in
  removes (nodes ≫= id_regs b) (nodes' ≫= id_regs b) /\ Forall wf_id nodes' /\
  (id <$> nodes') `sublist_of` (id <$> nodes) /\
  if is_ok res then hits (nodes ≫= id_regs b) else (nodes <> [] -> nodes' <> []).
Proof.
  induction 1 as [|n nodes [Hn1 Hn2] Hw IH]; cbn; [repeat split; by try constructor|].
  destruct (id_nodes_remove nodes i hc legacy) as [res nodes']. destruct IH as (IH1 & IH2 & IH3 & IH4).
  destruct (Z.eqb_spec (id n) i) as [E|E].
  - pose proof (handlers_remove (id_handlers n)) as Hh.
    destruct (handler_instances_remove (id_handlers n) hc legacy) as [res1 hs]. destruct Hh as [Hr Hh].
    destruct (is_ok res1 && SLIST_EMPTY hs) eqn:Ee.
    + apply andb_true_iff in Ee as [Er ->%SLIST_EMPTY_true]. rewrite Er in Hh.
      replace (id_regs b n) with (Reg b i <$> id_handlers n) by (unfold id_regs; by rewrite E).
      split; [by apply removes_stop|]. split; [done|]. split; [by apply sublist_cons|]. cbn. by apply hits_l.
    + assert (Hhs : hs <> []).
      { destruct (is_ok res1); [|by rewrite Hh]. intros ->. done. }
      split; [apply removes_app; [|done]; unfold id_regs; cbn; by rewrite E|]. split; [by constructor|].
      split; [by apply sublist_skip|]. destruct (is_ok res); [by apply hits_r|done].
  - split; [apply removes_app; [|done]; apply removes_none, untargeted; tauto|]. split; [by constructor|].
    split; [by apply sublist_skip|]. destruct (is_ok res); [by apply hits_r|done].
Qed.

Lemma base_remove bn :
  wf_base bn -> base bn = b ->
  let '(res, bn') := base_node_remove_handler bn i hc legacy in
  removes (base_regs bn) (base_regs bn') /\ (base_handlers bn' <> [] \/ id_nodes bn' <> [] -> wf_base bn') /\
  if is_ok res then hits (base_regs bn) else base_handlers bn' <> [] \/ id_nodes bn' <> [].
Proof.
  intros [Hb Hd Hw Hs] E. unfold base_node_remove_handler, base_regs. rewrite E. destruct (Z.eqb_spec i ESP_EVENT_ANY_ID) as [Ei|Ei].
  - pose proof (handlers_remove (base_handlers bn)) as Hh.
    destruct (handler_instances_remove (base_handlers bn) hc legacy) as [res hs]. destruct Hh as [Hr Hh]. cbn.
    rewrite Ei in Hr, Hh. split.
    + apply removes_app; [done|]. apply removes_none, Forall_bind. eapply Forall_impl; [exact Hw|].
      intros n [Hn _]. apply untargeted. rewrite Ei. tauto.
    + split; [intros Hne; split; cbn; by rewrite <- ?E|]. destruct (is_ok res); [by apply hits_l|by rewrite Hh].
  - pose proof (ids_remove (id_nodes bn) Hw) as Hi. destruct (id_nodes_remove (id_nodes bn) i hc legacy) as [res ids].
    destruct Hi as (Hr & Hw' & Hsub & Hh). cbn. split.
    + apply removes_app; [|done]. apply removes_none, untargeted. intros [_ ?]. by apply Ei.
    + split; [intros Hne; split; cbn; [by rewrite <- E|by eapply sublist_NoDup|done|done]|].
      destruct (is_ok res); [by apply hits_r|]. destruct Hs as [Hs|Hs]; [by left|right; by apply Hh].
Qed.

Lemma bases_remove nodes :
  Forall wf_base nodes ->
  let '(res, nodes') := base_nodes_remove nodes b i hc legacy in
  removes (nodes ≫= base_regs) (nodes' ≫= base_regs) /\ Forall wf_base nodes' /\
  if is_ok res then hits (nodes ≫= base_regs) else (nodes <> [] -> nodes' <> []).
Proof.
  induction 1 as [|bn nodes Hbn Hw IH]; cbn; [repeat split; by try constructor|].
  destruct (base_nodes_remove nodes b i hc legacy) as [res nodes']. destruct IH as (IH1 & IH2 & IH3).
  case_bool_decide as E.
  - pose proof (base_remove bn Hbn E) as Hb. destruct (base_node_remove_handler bn i hc legacy) as [res1 bn'].
    destruct Hb as (Hr & Hwf & Hh). destruct (is_ok res1 && _) eqn:Ee.
    + apply andb_true_iff in Ee as [Er [He1%SLIST_EMPTY_true He2%SLIST_EMPTY_true]%andb_true_iff]. rewrite Er in Hh.
      assert (Hr' : removes (base_regs bn) []) by (unfold base_regs at 2 in Hr; rewrite He1, He2 in Hr; exact Hr).
      split; [by apply removes_stop|]. split; [done|]. cbn. by apply hits_l.
    + assert (Hs : base_handlers bn' <> [] \/ id_nodes bn' <> []).
      { destruct (is_ok res1); [|done]. destruct (base_handlers bn'), (id_nodes bn'); try done; by (left + right). }
      split; [by apply removes_app|]. split; [constructor; auto|]. destruct (is_ok res); [by apply hits_r|done].
  - split.
    + apply removes_app; [|done]. apply removes_none. unfold base_regs. apply Forall_app. split; [apply untargeted; tauto|].
      apply Forall_bind, Forall_true. intros n. apply untargeted. tauto.
    + split; [by constructor|]. destruct (is_ok res); [by apply hits_r|done].
Qed.

Lemma loop_node_remove ln :
  wf_loop_node ln -> (b = esp_event_any_base -> i = ESP_EVENT_ANY_ID) ->
  let '(res, ln') := loop_node_remove_handler ln b i hc legacy in
  removes (node_regs ln) (node_regs ln') /\ (base_nodes ln' <> [] \/ loop_handlers ln' <> [] -> wf_loop_node ln') /\
  if is_ok res then hits (node_regs ln) else base_nodes ln' <> [] \/ loop_handlers ln' <> [].
Proof.
  intros [Hw Hs] Hany. unfold loop_node_remove_handler, node_regs. destruct (is_loop_level b i) eqn:El.
  - apply is_loop_level_spec in El as [Eb Ei]. pose proof (handlers_remove (loop_handlers ln)) as Hh.
    destruct (handler_instances_remove (loop_handlers ln) hc legacy) as [res hs]. destruct Hh as [Hr Hh]. cbn. rewrite Eb, Ei in Hr, Hh. split.
    + apply removes_app; [done|]. apply removes_none, Forall_bind. eapply Forall_impl; [exact Hw|].
      intros bn [Hb _ _ _]. unfold base_regs. rewrite Eb in *. apply Forall_app. split; [apply untargeted; rewrite Eb; tauto|].
      apply Forall_bind, Forall_true. intros n. apply untargeted. rewrite Eb. tauto.
    + split; [intros [?|?]; split; auto|]. destruct (is_ok res); [by apply hits_l|]. rewrite Hh. tauto.
  - pose proof (bases_remove (base_nodes ln) Hw) as Hb. destruct (base_nodes_remove (base_nodes ln) b i hc legacy) as [res bases].
    destruct Hb as (Hr & Hw' & Hh). cbn. split.
    + apply removes_app; [|done]. apply removes_none, untargeted. intros [Eb Ei].
      by rewrite (proj2 (is_loop_level_spec b i)) in El.
    + split; [intros [?|?]; split; auto|]. destruct (is_ok res); [by apply hits_r|].
      destruct Hs as [Hs|Hs]; [by right|left; by apply Hh].
Qed.

Lemma loops_remove nodes :
  wf_nodes nodes -> (b = esp_event_any_base -> i = ESP_EVENT_ANY_ID) ->
  removes (loop_regs nodes) (loop_regs (loop_nodes_remove nodes b i hc legacy)) /\
  wf_nodes (loop_nodes_remove nodes b i hc legacy).
Proof.
  intros Hw Hany. induction Hw as [|ln nodes Hln Hw [IH1 IH2]]; [split; [done|constructor]|]. cbn [loop_nodes_remove].
  pose proof (loop_node_remove ln Hln Hany) as H. destruct (loop_node_remove_handler ln b i hc legacy) as [res ln'].
  destruct H as (Hr & Hwf & Hh).
  change (loop_regs (ln :: nodes)) with (node_regs ln ++ loop_regs nodes). destruct (is_ok res && _) eqn:Ee.
  - apply andb_true_iff in Ee as [Er [He1%SLIST_EMPTY_true He2%SLIST_EMPTY_true]%andb_true_iff]. rewrite Er in Hh.
    assert (Hr' : removes (node_regs ln) []) by (unfold node_regs at 2 in Hr; rewrite He1, He2 in Hr; exact Hr).
    split; [by apply removes_stop|done].
  - assert (Hs : base_nodes ln' <> [] \/ loop_handlers ln' <> []).
    { destruct (is_ok res); [|done]. destruct (base_nodes ln'), (loop_handlers ln'); try done; by (left + right). }
    split; [by apply (removes_app _ (node_regs ln'))|constructor; auto].
Qed.

End Remove.

Lemma any_base_id b i : bool_decide (b = ESP_EVENT_ANY_BASE) && negb (i =? ESP_EVENT_ANY_ID) = false ->
  any_base b = esp_event_any_base -> i = ESP_EVENT_ANY_ID.
Proof. intros E Hb. destruct b; [done|]. by apply negb_false_iff, Z.eqb_eq in E. Qed.

(** C39: The nodes stay well formed whatever is registered and unregistered and
    whichever allocations fail: none is left empty, none for an event twice
    within a base node; a registration that fails changes nothing. *)
Theorem handler_nodes_well_formed nodes :
  wf_nodes nodes ->
  (forall mem event_base event_id event_handler event_handler_arg legacy err c nodes',
     esp_event_handler_register_with_internal mem nodes event_base event_id event_handler event_handler_arg legacy
       = Some (err, c, nodes') ->
     wf_nodes nodes' /\ (err <> ESP_OK -> nodes' = nodes)) /\
  (forall event_base event_id handler_ctx legacy,
     wf_nodes (esp_event_handler_unregister_with_internal nodes event_base event_id handler_ctx legacy).2).
Proof.
  intros Hw. split.
  - intros mem b i h a legacy err c nodes'. unfold esp_event_handler_register_with_internal.
    destruct (negb (h =? 0)); [|done]. destruct (bool_decide _ && _) eqn:E; [intros [= <- <- <-]; done|].
    pose proof (register_nodes_adds mem nodes (any_base b) i h a legacy Hw (any_base_id b i E)) as H.
    destruct (register_nodes _ _ _ _ _ _ _) as [e|[[c'|] nodes1]]; intros [= <- <- <-]; [done|..]; (split; [apply H|done]).
  - intros b i hc legacy. unfold esp_event_handler_unregister_with_internal.
    destruct (bool_decide _ && _) eqn:E; [done|]. apply loops_remove; [done|]. by apply any_base_id.
Qed.

Module NodesExample.

Definition A : esp_event_base_t := Some 1.
Definition C : esp_event_base_t := Some 2.
Definition mem (c : Z) : list (option Z) := repeat (Some c) 5.

(** Registers the handlers of a list, the contexts at 100, 101, ... *)
Fixpoint register_all (c : Z) (l : list (esp_event_base_t * Z * Z)) (legacy : bool) (nodes : list loop_node) :=
  match l with
  | [] => nodes
  | (b, i, h) :: l =>
      match esp_event_handler_register_with_internal (mem c) nodes b i h 0 legacy with
      | Some (_, _, nodes) => register_all (c + 1) l legacy nodes
      | None => nodes
      end
  end.

Definition nodes : list loop_node :=
  register_all 100 [(A, 5, 7); (ESP_EVENT_ANY_BASE, -1, 8); (A, -1, 9); (A, 5, 7)] false [].

Lemma nodes_wf : wf_nodes nodes.
Proof.
  assert (nodes = [LoopNode [] [BaseNode (Base 1) [] [IdNode 5 [Handler 100 7 0]]];
                   LoopNode [Handler 101 8 0] [BaseNode (Base 1) [Handler 102 9 0] [IdNode 5 [Handler 103 7 0]]]]) as ->
    by (vm_compute; reflexivity).
  repeat apply Forall_cons_2; [..|by apply Forall_nil_2]; (split; cbn; [|by (left + right)]);
    repeat apply Forall_cons_2; try apply Forall_nil_2; (split; cbn; [done|apply NoDup_singleton| |by (left + right)]);
    apply Forall_cons_2; by try apply Forall_nil_2.
Qed.

Lemma handler_nodes_well_formed_witness :
  wf_nodes (esp_event_handler_unregister_with_internal nodes A 5 (Handler 103 0 0) false).2.
Proof. apply (handler_nodes_well_formed nodes). exact nodes_wf. Defined.

(** A handler that is registered twice for the events of a base is called
    twice, when a handler for an event of another base came in between, and is
    still called after it is unregistered. *)
Example registered_twice :
  let nodes := register_all 100 [(A, -1, 7); (C, 1, 8); (A, -1, 7)] true [] in
  (handler <$> loop_nodes_run nodes (any_base A) 3) = [7; 7] /\
  (handler <$> loop_nodes_run (esp_event_handler_unregister_with nodes A (-1) 7).2 (any_base A) 3) = [7].
Proof. vm_compute. done. Qed.

End NodesExample.
