(* ===== verification/EventLoop.v ===== *)
(** * Event loops ([components/esp_event/esp_event.c], [default_event_loop.c])

    Posting copies the data of an event and queues it; running a loop takes the
    events off the queue, calls their handlers and frees the copies. *)

From S2P Require Import Prelude EspErr EventNodes.

#[local] Open Scope abort_scope.

(** [CONFIG_ESP_EVENT_POST_FROM_ISR] is set: the data of an event is the
    address of a copy, or up to four bytes in the same word. *)
Record esp_event_post_instance_t := Post {
  data_allocated : bool;
  data_set : bool;
  p_base : node_base;
  p_id : Z;
  data : Z;
}.

(** Tasks are handles, 0 is no task. *)
Record esp_event_loop_instance_t := Loop {
  name : string;
  queue : list esp_event_post_instance_t;
  queue_length : nat;
  task : Z;
  running_task : Z;
  loop_nodes : list loop_node;
}.

(** The loop, and the copies of the data of events on the heap. *)
Record loop_state := LoopState { loop : esp_event_loop_instance_t; heap : gmap Z (list Z) }.

Record esp_event_loop_args_t := LoopArgs { queue_size : nat; task_name : option string }.

(** The call of a handler, with the bytes it finds through [event_data]. *)
Record call := Call { c_handler : Z; c_arg : Z; c_base : node_base; c_id : Z; c_data : option (list Z) }.

Definition portMAX_DELAY : Z := UINT32_MAX.

Definition with_queue (q : list esp_event_post_instance_t) (l : esp_event_loop_instance_t) : esp_event_loop_instance_t :=
  Loop (name l) q (queue_length l) (task l) (running_task l) (loop_nodes l).
Definition with_running (t : Z) (l : esp_event_loop_instance_t) : esp_event_loop_instance_t :=
  Loop (name l) (queue l) (queue_length l) (task l) t (loop_nodes l).
Definition with_nodes (ns : list loop_node) (l : esp_event_loop_instance_t) : esp_event_loop_instance_t :=
  Loop (name l) (queue l) (queue_length l) (task l) (running_task l) ns.

(** ** Creating and deleting a loop *)

(** What the allocations and the creation of the task give. *)
Definition esp_event_loop_create (event_loop_args : option esp_event_loop_args_t) (event_loop : bool)
    (loop_allocated queue_created mutex_created : bool) (task_created : option Z)
    : esp_err_t * option esp_event_loop_instance_t :=
  match event_loop_args with
  | None => (ESP_ERR_INVALID_ARG, None)
  | Some args =>
      if negb event_loop then (ESP_ERR_INVALID_ARG, None)
      else if negb loop_allocated then (ESP_ERR_NO_MEM, None)
      else if negb queue_created then (ESP_ERR_NO_MEM, None)
      else if negb mutex_created then (ESP_ERR_NO_MEM, None)
      else
        match task_name args with
        | Some n =>
            match task_created with
            | None => (ESP_FAIL, None)
            | Some t => (ESP_OK, Some (Loop n [] (queue_size args) t 0 []))
            end
        | None => (ESP_OK, Some (Loop EmptyString [] (queue_size args) 0 0 []))
        end
  end.

(** [None]: an address that is not of a copy is freed. *)
Definition post_instance_delete (h : gmap Z (list Z)) (post : esp_event_post_instance_t) : option (gmap Z (list Z)) :=
  if data_allocated post && negb (data post =? 0)
  then match h !! data post with Some _ => Some (delete (data post) h) | None => None end
  else Some h.

Fixpoint drop_posts (q : list esp_event_post_instance_t) (h : gmap Z (list Z)) : option (gmap Z (list Z)) :=
  match q with
  | [] => Some h
  | post :: q => let! h := post_instance_delete h post in drop_posts q h
  end.

(** The contexts that are freed, and the copies that are left. *)
Definition esp_event_loop_delete (s : loop_state) : option (esp_err_t * list Z * gmap Z (list Z)) :=
  let! h := drop_posts (queue (loop s)) (heap s) in
  Some (ESP_OK, loop_nodes (loop s) ≫= loop_node_remove_all_handler, h).

(** ** Posting *)

(** A queue that is full stays so while the sender waits. *)
Definition xQueueSendToBack (l : esp_event_loop_instance_t) (post : esp_event_post_instance_t) (ticks_to_wait : Z) :
    option esp_event_loop_instance_t :=
  if (length (queue l) <? queue_length l)%nat then Some (with_queue (queue l ++ [post]) l) else None.

(** [memcpy] of [n] bytes from a buffer; [None] reads past its end. *)
Definition read_bytes (d : list Z) (n : nat) : option (list Z) :=
  if (n <=? length d)%nat then Some (take n d) else None.

Definition has_data (event_data : option (list Z)) (event_data_size : nat) : option (list Z) :=
  match event_data with Some d => if (event_data_size =? 0)%nat then None else Some d | None => None end.

(** Queueing: without a task of its own, the loop is asked for the task that
    runs it; that task must not wait for itself. *)
Definition queue_post (l : esp_event_loop_instance_t) (h : gmap Z (list Z)) (post : esp_event_post_instance_t)
    (ticks_to_wait current_task : Z) (mutex_taken : bool) : option (esp_err_t * loop_state) :=
  let result :=
    if task l =? 0 then
      if mutex_taken then
        if negb (running_task l =? current_task) then xQueueSendToBack l post ticks_to_wait
        else xQueueSendToBack l post 0
      else None
    else if negb (task l =? current_task) then xQueueSendToBack l post ticks_to_wait
    else xQueueSendToBack l post 0 in
  match result with
  | None => let! h := post_instance_delete h post in Some (ESP_ERR_TIMEOUT, LoopState l h)
  | Some l => Some (ESP_OK, LoopState l h)
  end.

(** [event_data_copy] is what the allocation of the copy gives. *)
Definition esp_event_post_to (s : loop_state) (event_base : esp_event_base_t) (event_id : Z)
    (event_data : option (list Z)) (event_data_size : nat) (ticks_to_wait : Z)
    (event_data_copy : option Z) (current_task : Z) (mutex_taken : bool) : option (esp_err_t * loop_state) :=
  match event_base with
  | None => Some (ESP_ERR_INVALID_ARG, s)
  | Some b =>
      if event_id =? ESP_EVENT_ANY_ID then Some (ESP_ERR_INVALID_ARG, s)
      else
        match has_data event_data event_data_size with
        | None => queue_post (loop s) (heap s) (Post false false (Base b) event_id 0) ticks_to_wait current_task mutex_taken
        | Some d =>
            match event_data_copy with
            | None => Some (ESP_ERR_NO_MEM, s)
            | Some p =>
                let! bytes := read_bytes d event_data_size in
                queue_post (loop s) (<[p := bytes]> (heap s)) (Post true true (Base b) event_id p)
                  ticks_to_wait current_task mutex_taken
            end
        end
  end.

Definition esp_event_isr_post_to (s : loop_state) (event_base : esp_event_base_t) (event_id : Z)
    (event_data : option (list Z)) (event_data_size : nat) : option (esp_err_t * loop_state) :=
  match event_base with
  | None => Some (ESP_ERR_INVALID_ARG, s)
  | Some b =>
      if event_id =? ESP_EVENT_ANY_ID then Some (ESP_ERR_INVALID_ARG, s)
      else if (4 <? event_data_size)%nat then Some (ESP_ERR_INVALID_ARG, s)
      else
        let! post :=
          match has_data event_data event_data_size with
          | None => Some (Post false false (Base b) event_id 0)
          | Some d =>
              let! bytes := read_bytes d event_data_size in
              Some (Post false true (Base b) event_id (le_value bytes))
          end in
        match xQueueSendToBack (loop s) post 0 with
        | None => let! h := post_instance_delete (heap s) post in Some (ESP_FAIL, LoopState (loop s) h)
        | Some l => Some (ESP_OK, LoopState l (heap s))
        end
  end.

(** ** Running *)

(** [None]: the handler is given an address that is not of a copy. *)
Definition handler_execute (h : gmap Z (list Z)) (post : esp_event_post_instance_t) (node : handler_node) : option call :=
  let! data_ptr :=
    (if data_set post then
       if data_allocated post then match h !! data post with Some bytes => Some (Some bytes) | None => None end
       else Some (Some (le_bytes 4 (data post)))
     else Some None) in
  Some (Call (handler node) (arg node) (p_base post) (p_id post) data_ptr).

Fixpoint execute_all (h : gmap Z (list Z)) (post : esp_event_post_instance_t) (nodes : list handler_node) :
    option (list call) :=
  match nodes with
  | [] => Some []
  | n :: nodes =>
      let! c := handler_execute h post n in
      let! cs := execute_all h post nodes in
      Some (c :: cs)
  end.

(** The loop over what is queued: it ends when the queue is empty, or when
    [ticks_to_run] have passed by the clock, which is read once for each event. *)
Fixpoint run_posts (q : list esp_event_post_instance_t) (current_task ticks_to_run : Z) (clock : nat -> Z)
    (marker remaining_ticks : Z) (s : loop_state) : option (list call * loop_state) :=
  match q with
  | [] => Some ([], s)
  | post :: q =>
      let l := with_running current_task (with_queue q (loop s)) in
      let! calls := execute_all (heap s) post (loop_nodes_run (loop_nodes l) (p_base post) (p_id post)) in
      let! h := post_instance_delete (heap s) post in
      let go_on marker remaining_ticks :=
        let! r := run_posts q current_task ticks_to_run (fun n => clock (S n)) marker remaining_ticks
                    (LoopState (with_running 0 l) h) in
        Some (calls ++ r.1, r.2) in
      if negb (ticks_to_run =? portMAX_DELAY) then
        let end_ := clock 0%nat in
        let remaining_ticks := s64 (remaining_ticks - u32 (end_ - marker)) in
        if remaining_ticks <=? 0 then Some (calls, LoopState l h) else go_on end_ remaining_ticks
      else go_on marker remaining_ticks
  end.

Definition esp_event_loop_run (s : loop_state) (ticks_to_run current_task : Z) (clock : nat -> Z) :
    option (esp_err_t * list call * loop_state) :=
  let! r := run_posts (queue (loop s)) current_task ticks_to_run (fun n => clock (S n)) (clock 0%nat) ticks_to_run s in
  Some (ESP_OK, r.1, r.2).

(** ** Registering in a loop *)

Definition loop_register (s : loop_state) mem event_base event_id event_handler event_handler_arg (legacy : bool) :
    option (esp_err_t * option Z * loop_state) :=
  let! r := (if legacy then esp_event_handler_register_with mem (loop_nodes (loop s)) event_base event_id event_handler event_handler_arg
             else esp_event_handler_instance_register_with mem (loop_nodes (loop s)) event_base event_id event_handler event_handler_arg) in
  let '(err, c, ns) := r in
  Some (err, c, LoopState (with_nodes ns (loop s)) (heap s)).

Definition loop_unregister (s : loop_state) event_base event_id (h : Z) (legacy : bool) : esp_err_t * loop_state :=
  let '(err, ns) :=
    (if legacy then esp_event_handler_unregister_with (loop_nodes (loop s)) event_base event_id h
     else esp_event_handler_instance_unregister_with (loop_nodes (loop s)) event_base event_id h) in
  (err, LoopState (with_nodes ns (loop s)) (heap s)).

(** ** The default loop *)

Definition esp_event_loop_create_default (s_default_loop : option loop_state) (event_queue_size : nat)
    (loop_allocated queue_created mutex_created : bool) (task_created : option Z) : esp_err_t * option loop_state :=
  match s_default_loop with
  | Some _ => (ESP_ERR_INVALID_STATE, s_default_loop)
  | None =>
      let '(err, l) := esp_event_loop_create (Some (LoopArgs event_queue_size (Some "sys_evt"%string))) true
                         loop_allocated queue_created mutex_created task_created in
      if is_ok err then (err, match l with Some l => Some (LoopState l ∅) | None => None end) else (err, None)
  end.

Definition esp_event_loop_delete_default (s_default_loop : option loop_state) : option (esp_err_t * option loop_state) :=
  match s_default_loop with
  | None => Some (ESP_ERR_INVALID_STATE, None)
  | Some s =>
      let! r := esp_event_loop_delete s in
      let '(err, _, _) := r in
      if is_ok err then Some (ESP_OK, None) else Some (err, s_default_loop)
  end.

Definition esp_event_handler_register (s_default_loop : option loop_state) mem event_base event_id event_handler
    event_handler_arg : option (esp_err_t * option loop_state) :=
  match s_default_loop with
  | None => Some (ESP_ERR_INVALID_STATE, None)
  | Some s =>
      let! r := loop_register s mem event_base event_id event_handler event_handler_arg true in
      let '(err, _, s) := r in Some (err, Some s)
  end.

Definition esp_event_handler_instance_register (s_default_loop : option loop_state) mem event_base event_id event_handler
    event_handler_arg : option (esp_err_t * option Z * option loop_state) :=
  match s_default_loop with
  | None => Some (ESP_ERR_INVALID_STATE, None, None)
  | Some s =>
      let! r := loop_register s mem event_base event_id event_handler event_handler_arg false in
      let '(err, c, s) := r in Some (err, c, Some s)
  end.

Definition esp_event_handler_unregister (s_default_loop : option loop_state) event_base event_id event_handler :
    esp_err_t * option loop_state :=
  match s_default_loop with
  | None => (ESP_ERR_INVALID_STATE, None)
  | Some s => let '(err, s) := loop_unregister s event_base event_id event_handler true in (err, Some s)
  end.

Definition esp_event_handler_instance_unregister (s_default_loop : option loop_state) event_base event_id (context : Z) :
    esp_err_t * option loop_state :=
  match s_default_loop with
  | None => (ESP_ERR_INVALID_STATE, None)
  | Some s => let '(err, s) := loop_unregister s event_base event_id context false in (err, Some s)
  end.

Definition esp_event_post (s_default_loop : option loop_state) event_base event_id event_data event_data_size
    ticks_to_wait event_data_copy current_task mutex_taken : option (esp_err_t * option loop_state) :=
  match s_default_loop with
  | None => Some (ESP_ERR_INVALID_STATE, None)
  | Some s =>
      let! r := esp_event_post_to s event_base event_id event_data event_data_size ticks_to_wait event_data_copy
                  current_task mutex_taken in
      Some (r.1, Some r.2)
  end.

Definition esp_event_isr_post (s_default_loop : option loop_state) event_base event_id event_data event_data_size :
    option (esp_err_t * option loop_state) :=
  match s_default_loop with
  | None => Some (ESP_ERR_INVALID_STATE, None)
  | Some s =>
      let! r := esp_event_isr_post_to s event_base event_id event_data event_data_size in
      Some (r.1, Some r.2)
  end.

(** ** What a loop promises: a queue of events, handlers in the order of
    their registration *)

Record event := Event { e_base : node_base; e_id : Z; e_data : option (list Z) }.

Record loop_spec := Spec { regs : list registration; events : list event; room : nat }.

(** What is asked of a loop, with what its surroundings give. *)
Inductive op :=
| Register (mem : list (option Z)) (b : esp_event_base_t) (i h a : Z) (legacy : bool)
| Unregister (b : esp_event_base_t) (i h : Z) (legacy : bool)
| PostTo (b : esp_event_base_t) (i : Z) (d : option (list Z)) (size : nat) (ticks : Z) (copy : option Z) (current : Z) (mutex : bool)
| IsrPost (b : esp_event_base_t) (i : Z) (d : option (list Z)) (size : nat)
| Run (ticks current : Z) (clock : nat -> Z).

Record outcome := Outcome { o_err : esp_err_t; o_ctx : option Z; o_calls : list call }.

Definition step (s : loop_state) (o : op) : option (outcome * loop_state) :=
  match o with
  | Register mem b i h a legacy =>
      let! r := loop_register s mem b i h a legacy in let '(err, c, s) := r in Some (Outcome err c [], s)
  | Unregister b i h legacy => let '(err, s) := loop_unregister s b i h legacy in Some (Outcome err None [], s)
  | PostTo b i d size ticks copy current mutex =>
      let! r := esp_event_post_to s b i d size ticks copy current mutex in Some (Outcome r.1 None [], r.2)
  | IsrPost b i d size => let! r := esp_event_isr_post_to s b i d size in Some (Outcome r.1 None [], r.2)
  | Run ticks current clock =>
      let! r := esp_event_loop_run s ticks current clock in let '(err, cs, s) := r in Some (Outcome err None cs, s)
  end.

Fixpoint run_ops (s : loop_state) (ops : list op) : option (list outcome * loop_state) :=
  match ops with
  | [] => Some ([], s)
  | o :: ops =>
      let! r := step s o in
      let! r' := run_ops r.2 ops in
      Some (r.1 :: r'.1, r'.2)
  end.

(** The calls that an event makes. *)
Definition deliver (rs : list registration) (e : event) : list call :=
  (fun r => Call (handler (r_node r)) (arg (r_node r)) (e_base e) (e_id e) (e_data e)) <$>
  filter (fun r => matches (e_base e) (e_id e) r) rs.

(** The node that an unregistration is for. *)
Definition asked (h : Z) (legacy : bool) : handler_node := if legacy then Handler 0 h 0 else Handler h 0 0.

Definition bad_key (b : esp_event_base_t) (i : Z) : bool :=
  bool_decide (b = ESP_EVENT_ANY_BASE) && negb (i =? ESP_EVENT_ANY_ID).

(** The data a handler is given: a copy, or four bytes from an interrupt. *)
Definition posted (d : option (list Z)) (size : nat) : option (list Z) := take size <$> has_data d size.
Definition posted_isr (d : option (list Z)) (size : nat) : option (list Z) :=
  (fun d => take size d ++ replicate (4 - size) 0) <$> has_data d size.

Inductive post_spec (s : loop_spec) (b : esp_event_base_t) (i : Z) (d : option (list Z)) (full : esp_err_t) :
    esp_err_t -> loop_spec -> Prop :=
| post_refused : b = ESP_EVENT_ANY_BASE \/ i = ESP_EVENT_ANY_ID -> post_spec s b i d full ESP_ERR_INVALID_ARG s
| post_queued base : b = Some base -> i <> ESP_EVENT_ANY_ID -> (length (events s) < room s)%nat ->
    post_spec s b i d full ESP_OK (Spec (regs s) (events s ++ [Event (Base base) i d]) (room s))
| post_full base : b = Some base -> i <> ESP_EVENT_ANY_ID -> (room s <= length (events s))%nat ->
    post_spec s b i d full full s.

Inductive spec_step (s : loop_spec) : op -> outcome -> loop_spec -> Prop :=
| spec_register_invalid mem b i h a legacy : bad_key b i ->
    spec_step s (Register mem b i h a legacy) (Outcome ESP_ERR_INVALID_ARG None []) s
| spec_register_no_mem mem b i h a legacy : ~ bad_key b i -> enough 5 mem = false ->
    spec_step s (Register mem b i h a legacy) (Outcome ESP_ERR_NO_MEM None []) s
| spec_register mem b i h a legacy c : ~ bad_key b i -> Some c ∈ mem ->
    spec_step s (Register mem b i h a legacy) (Outcome ESP_OK (if legacy : bool then None else Some c) [])
      (Spec (regs s ++ [Reg (any_base b) i (Handler c h a)]) (events s) (room s))
| spec_overwrite mem b i h a n : ~ bad_key b i -> Reg (any_base b) i n ∈ regs s -> handler n = h ->
    spec_step s (Register mem b i h a true) (Outcome ESP_OK None [])
      (Spec (set_arg (ctx n) a <$> regs s) (events s) (room s))
| spec_unregister_invalid b i h legacy : bad_key b i \/ (legacy = false /\ h = 0) ->
    spec_step s (Unregister b i h legacy) (Outcome ESP_ERR_INVALID_ARG None []) s
| spec_unregister b i h legacy : ~ bad_key b i ->
    spec_step s (Unregister b i h legacy) (Outcome ESP_OK None [])
      (Spec (kept (asked h legacy) legacy (any_base b) i (regs s)) (events s) (room s))
| spec_post b i d size ticks copy current mutex err s' : post_spec s b i (posted d size) ESP_ERR_TIMEOUT err s' ->
    spec_step s (PostTo b i d size ticks copy current mutex) (Outcome err None []) s'
| spec_post_no_mem b i d size ticks current mutex : b <> None -> i <> ESP_EVENT_ANY_ID -> posted d size <> None ->
    spec_step s (PostTo b i d size ticks None current mutex) (Outcome ESP_ERR_NO_MEM None []) s
| spec_post_no_mutex b i d size ticks copy current : b <> None -> i <> ESP_EVENT_ANY_ID ->
    spec_step s (PostTo b i d size ticks copy current false) (Outcome ESP_ERR_TIMEOUT None []) s
| spec_isr_large b i d size : (4 < size)%nat ->
    spec_step s (IsrPost b i d size) (Outcome ESP_ERR_INVALID_ARG None []) s
| spec_isr_post b i d size err s' : (size <= 4)%nat -> post_spec s b i (posted_isr d size) ESP_FAIL err s' ->
    spec_step s (IsrPost b i d size) (Outcome err None []) s'
| spec_run ticks current clock n : (n <= length (events s))%nat -> (0 < length (events s) -> 0 < n)%nat ->
    (ticks = portMAX_DELAY -> n = length (events s)) ->
    spec_step s (Run ticks current clock) (Outcome ESP_OK None (take n (events s) ≫= deliver (regs s)))
      (Spec (regs s) (drop n (events s)) (room s)).

Inductive spec_runs (s : loop_spec) : list op -> list outcome -> loop_spec -> Prop :=
| runs_nil : spec_runs s [] [] s
| runs_cons o ops out outs s1 s2 : spec_step s o out s1 -> spec_runs s1 ops outs s2 ->
    spec_runs s (o :: ops) (out :: outs) s2.

(** ** The promise is kept *)

(** What the surroundings of a loop promise: handlers are not null, allocated
    addresses are new, data is as long as it is said to be, and a handler that
    is unregistered by its address is registered for these events once. *)
Definition admissible (s : loop_state) (o : op) : Prop :=
  match o with
  | Register mem _ _ h _ _ => h <> 0 /\ forall c, Some c ∈ mem -> c ∉ ctxs (loop_regs (loop_nodes (loop s)))
  | Unregister b i h legacy => legacy = true ->
      (length (filter (fun r => targets (asked h true) true (any_base b) i r) (loop_regs (loop_nodes (loop s)))) <= 1)%nat
  | PostTo _ _ d size _ copy _ _ =>
      (forall x, d = Some x -> (size <= length x)%nat) /\ (forall p, copy = Some p -> p <> 0 /\ heap s !! p = None)
  | IsrPost _ _ d size => forall x, d = Some x -> (size <= length x)%nat /\ Forall (in_range 8) x
  | Run _ _ _ => True
  end.

Inductive contract : loop_state -> list op -> Prop :=
| contract_nil s : contract s []
| contract_cons s o ops : admissible s o -> (forall out s', step s o = Some (out, s') -> contract s' ops) ->
    contract s (o :: ops).

(** The copies that queued events own. *)
Definition ptrs (q : list esp_event_post_instance_t) : list Z :=
  data <$> filter (fun p => data_allocated p) q.

Record holds (h : gmap Z (list Z)) (p : esp_event_post_instance_t) (e : event) : Prop := Holds {
  ho_base : p_base p = e_base e;
  ho_id : p_id p = e_id e;
  ho_any : p_id p <> ESP_EVENT_ANY_ID;
  ho_data : if data_set p then
              if data_allocated p then data p <> 0 /\ h !! data p = e_data e /\ e_data e <> None
              else e_data e = Some (le_bytes 4 (data p))
            else data_allocated p = false /\ e_data e = None;
}.

Record nodes_abs (nodes : list loop_node) (rs : list registration) : Prop := NodesAbs {
  na_wf : wf_nodes nodes;
  na_nodup : NoDup (ctxs rs);
  na_perm : loop_regs nodes ≡ₚ rs;
  na_order : forall b i, i <> ESP_EVENT_ANY_ID ->
    filter (fun r => matches b i r) (loop_regs nodes) = filter (fun r => matches b i r) rs;
}.

Record queue_abs (q : list esp_event_post_instance_t) (h : gmap Z (list Z)) (evs : list event) : Prop := QueueAbs {
  qa_holds : Forall2 (holds h) q evs;
  qa_nodup : NoDup (ptrs q);
  qa_heap : dom h = list_to_set (ptrs q);
}.

Record abs (s : loop_state) (sp : loop_spec) : Prop := Abs {
  a_nodes : nodes_abs (loop_nodes (loop s)) (regs sp);
  a_queue : queue_abs (queue (loop s)) (heap s) (events sp);
  a_room : queue_length (loop s) = room sp;
}.

(** *** Registrations *)

Lemma nodes_abs_ctxs nodes rs : nodes_abs nodes rs -> ctxs (loop_regs nodes) ≡ₚ ctxs rs.
Proof. intros H. unfold ctxs. by rewrite (na_perm _ _ H). Qed.

Lemma set_arg_matches b i c a r : matches b i (set_arg c a r) = matches b i r.
Proof. unfold set_arg. by case_match. Qed.

Lemma set_arg_ctxs c a (rs : list registration) : ctxs (set_arg c a <$> rs) = ctxs rs.
Proof.
  unfold ctxs. rewrite <- list_fmap_compose. apply list_fmap_ext. intros _ r _. unfold set_arg. cbn. by case_match.
Qed.

Lemma filter_set_arg b i c a (rs : list registration) :
  filter (fun r => matches b i r) (set_arg c a <$> rs) = set_arg c a <$> filter (fun r => matches b i r) rs.
Proof.
  induction rs as [|r rs IH]; [done|]. rewrite fmap_cons, !filter_cons, set_arg_matches, IH. by case_decide.
Qed.

Lemma filter_swap {A} (P Q : A -> Prop) `{forall x, Decision (P x)} `{forall x, Decision (Q x)} (l : list A) :
  filter P (filter Q l) = filter Q (filter P l).
Proof. rewrite !list_filter_filter. apply list_filter_iff. tauto. Qed.

Lemma NoDup_fmap_filter {A B} (f : A -> B) (P : A -> Prop) `{forall x, Decision (P x)} l :
  NoDup (f <$> l) -> NoDup (f <$> filter P l).
Proof.
  induction l as [|x l IH]; [done|]. rewrite fmap_cons, NoDup_cons, filter_cons. intros [Hx Hl].
  case_decide; [|by apply IH]. rewrite fmap_cons, NoDup_cons. split; [|by apply IH].
  intros Hin. apply Hx. apply list_elem_of_fmap in Hin as (y & -> & [_ Hy]%list_elem_of_filter). by apply list_elem_of_fmap_2.
Qed.

Lemma nodes_abs_append nodes nodes' rs r :
  nodes_abs nodes rs -> wf_nodes nodes' -> appends (loop_regs nodes) (loop_regs nodes') r ->
  ctx (r_node r) ∉ ctxs rs -> nodes_abs nodes' (rs ++ [r]).
Proof.
  intros [Hw Hd Hp Ho] Hw' [Hp' Ho'] Hc. split; [done|..].
  - unfold ctxs. rewrite fmap_app. apply NoDup_app. split; [done|]. split; [|apply NoDup_singleton].
    intros c Hin ->%list_elem_of_singleton. done.
  - by rewrite Hp', Hp.
  - intros b i Hi. rewrite Ho', !filter_app, Ho by done. done.
Qed.

Lemma nodes_abs_overwrite nodes nodes' rs b i h a :
  nodes_abs nodes rs -> wf_nodes nodes' -> overwrites (loop_regs nodes) (loop_regs nodes') b i h a ->
  exists n, Reg b i n ∈ rs /\ handler n = h /\ nodes_abs nodes' (set_arg (ctx n) a <$> rs).
Proof.
  intros Ha Hw' (n & Hn & Hh & HL). pose proof Ha as [Hw Hd Hp Ho]. exists n.
  split; [by rewrite <- Hp|]. split; [done|].
  assert (HL' : loop_regs nodes' = set_arg (ctx n) a <$> loop_regs nodes) by (apply HL; by rewrite (nodes_abs_ctxs _ _ Ha)).
  split; [done|by rewrite set_arg_ctxs|by rewrite HL', Hp|].
  intros b' i' Hi. by rewrite HL', !filter_set_arg, Ho.
Qed.

Lemma nodes_abs_remove nodes rs hc legacy b i :
  nodes_abs nodes rs -> (b = esp_event_any_base -> i = ESP_EVENT_ANY_ID) ->
  (length (filter (fun r => targets hc legacy b i r) (loop_regs nodes)) <= 1)%nat ->
  nodes_abs (loop_nodes_remove nodes b i hc legacy) (kept hc legacy b i rs).
Proof.
  intros [Hw Hd Hp Ho] Hany Hl. destruct (loops_remove hc legacy b i nodes Hw Hany) as [Hr Hw'].
  specialize (Hr Hl). split; [done|..].
  - by apply NoDup_fmap_filter.
  - rewrite Hr. unfold kept. by rewrite Hp.
  - intros b' i' Hi. rewrite Hr. unfold kept. rewrite (filter_swap _ _ (loop_regs nodes)), (filter_swap _ _ rs).
    by rewrite Ho.
Qed.

Lemma register_sim s sp mem b i h a legacy :
  abs s sp -> admissible s (Register mem b i h a legacy) ->
  exists out s' sp', step s (Register mem b i h a legacy) = Some (out, s') /\
    spec_step sp (Register mem b i h a legacy) out sp' /\ abs s' sp'.
Proof.
  intros Ha [Hh Hmem]. pose proof Ha as [Hn Hq Hroom].
  assert (E : step s (Register mem b i h a legacy) =
    match esp_event_handler_register_with_internal mem (loop_nodes (loop s)) b i h a legacy with
    | Some (err, c, ns) =>
        Some (Outcome err (if legacy then None else c) [], LoopState (with_nodes ns (loop s)) (heap s))
    | None => None
    end).
  { cbn. unfold loop_register, esp_event_handler_register_with, esp_event_handler_instance_register_with.
    destruct legacy; by destruct (esp_event_handler_register_with_internal _ _ _ _ _ _ _) as [[[? ?] ?]|]. }
  rewrite E. clear E. unfold esp_event_handler_register_with_internal. rewrite (proj2 (Z.eqb_neq h 0)) by done. cbn [negb].
  assert (Hsame : LoopState (with_nodes (loop_nodes (loop s)) (loop s)) (heap s) = s) by (by destruct s as [[] ?]).
  fold (bad_key b i). destruct (bad_key b i) eqn:Ek.
  - do 3 eexists. split; [reflexivity|]. rewrite Hsame. split; [|exact Ha].
    destruct legacy; by apply spec_register_invalid; rewrite Ek.
  - assert (Hk : ~ bad_key b i) by (rewrite Ek; intros []).
    pose proof (register_nodes_adds mem _ (any_base b) i h a legacy (na_wf _ _ Hn) (any_base_id b i Ek)) as Hadd.
    destruct (register_nodes _ _ _ _ _ _ _) as [err|[[c|] ns]]; cbn in Hadd.
    + destruct Hadd as [-> He]. do 3 eexists. split; [reflexivity|]. rewrite Hsame. split; [|exact Ha].
      destruct legacy; by apply spec_register_no_mem.
    + destruct Hadd as (Hc & Hw & Hap). do 3 eexists. split; [reflexivity|].
      split; [by apply (spec_register _ mem b i h a legacy c)|]. split; [|exact Hq|exact Hroom].
      apply (nodes_abs_append _ _ _ _ Hn Hw Hap). cbn. rewrite <- (nodes_abs_ctxs _ _ Hn). by apply Hmem.
    + destruct Hadd as (-> & Hw & Hov). destruct (nodes_abs_overwrite _ _ _ _ _ _ _ Hn Hw Hov) as (n & Hin & Hhn & Hn').
      do 3 eexists. split; [reflexivity|]. split; [by apply spec_overwrite|]. by split.
Qed.

Lemma NoDup_targets c b i rs :
  NoDup (ctxs rs) -> (length (filter (fun r => targets (asked c false) false b i r) rs) <= 1)%nat.
Proof.
  induction rs as [|r rs IH]; [cbn; lia|]. unfold ctxs. rewrite fmap_cons, NoDup_cons, filter_cons. intros [Hr Hd].
  case_decide as E; [|by apply IH]. rewrite filter_none; [cbn; lia|]. apply Forall_forall. intros r' Hr' E'.
  apply Hr. unfold targets, remove_match in E, E'. cbn in E, E'. rewrite !andb_True in E, E'.
  destruct E as [_ E%Is_true_true%Z.eqb_eq], E' as [_ E'%Is_true_true%Z.eqb_eq]. rewrite E, <- E'.
  by apply (list_elem_of_fmap_2 (fun r => ctx (r_node r))).
Qed.

Lemma unregister_sim s sp b i h legacy :
  abs s sp -> admissible s (Unregister b i h legacy) ->
  exists out s' sp', step s (Unregister b i h legacy) = Some (out, s') /\
    spec_step sp (Unregister b i h legacy) out sp' /\ abs s' sp'.
Proof.
  intros Ha Hadm. pose proof Ha as [Hn Hq Hroom].
  assert (Hsame : LoopState (with_nodes (loop_nodes (loop s)) (loop s)) (heap s) = s) by (by destruct s as [[] ?]).
  cbn [step]. unfold loop_unregister.
  replace (if legacy then esp_event_handler_unregister_with (loop_nodes (loop s)) b i h
           else esp_event_handler_instance_unregister_with (loop_nodes (loop s)) b i h)
    with (if negb legacy && (h =? 0) then (ESP_ERR_INVALID_ARG, loop_nodes (loop s))
          else esp_event_handler_unregister_with_internal (loop_nodes (loop s)) b i (asked h legacy) legacy) by (by destruct legacy).
  destruct (negb legacy && (h =? 0)) eqn:E0.
  - do 3 eexists. split; [reflexivity|]. rewrite Hsame. split; [|exact Ha]. apply spec_unregister_invalid. right.
    apply andb_true_iff in E0 as [?%negb_true_iff ?%Z.eqb_eq]. done.
  - unfold esp_event_handler_unregister_with_internal. fold (bad_key b i). destruct (bad_key b i) eqn:Ek.
    + do 3 eexists. split; [reflexivity|]. rewrite Hsame. split; [|exact Ha]. apply spec_unregister_invalid. left. by rewrite Ek.
    + do 3 eexists. split; [reflexivity|]. split; [apply spec_unregister; rewrite Ek; intros []|].
      split; [|exact Hq|exact Hroom]. apply nodes_abs_remove; [done|by apply any_base_id|].
      destruct legacy; [by apply Hadm|]. apply NoDup_targets. rewrite (nodes_abs_ctxs _ _ Hn). apply Hn.
Qed.

(** *** The queue and the copies *)

Lemma holds_insert h p e k v : holds h p e -> h !! k = None -> holds (<[k := v]> h) p e.
Proof.
  intros [Hb Hi Ha Hd] Hk. split; try done. destruct (data_set p); [|done]. destruct (data_allocated p); [|done].
  destruct Hd as (H0 & He & Hne). split; [done|]. split; [|done]. rewrite lookup_insert_ne; [done|]. intros ->. congruence.
Qed.

Lemma holds_delete h p e k : holds h p e -> (data_allocated p -> data p <> k) -> holds (delete k h) p e.
Proof.
  intros [Hb Hi Ha Hd] Hk. split; try done. destruct (data_set p); [|done]. destruct (data_allocated p); [|done].
  destruct Hd as (H0 & He & Hne). split; [done|]. split; [|done]. rewrite lookup_delete_ne; [done|]. intros ->. by apply Hk.
Qed.

(** What is sent: a post whose copy, if it has one, was put on the heap. *)
Definition fresh_post (h h1 : gmap Z (list Z)) (p : esp_event_post_instance_t) : Prop :=
  if data_allocated p then data p <> 0 /\ h !! data p = None /\ exists bytes, h1 = <[data p := bytes]> h else h1 = h.

Lemma fresh_post_delete h h1 p : fresh_post h h1 p -> post_instance_delete h1 p = Some h.
Proof.
  unfold fresh_post, post_instance_delete. destruct (data_allocated p); [|by intros ->].
  intros (H0 & Hn & bytes & ->). rewrite (proj2 (Z.eqb_neq _ 0)) by done. cbn.
  rewrite lookup_insert_eq. by rewrite delete_insert_id.
Qed.

Lemma queue_abs_snoc q h evs h1 p e :
  queue_abs q h evs -> fresh_post h h1 p -> holds h1 p e -> queue_abs (q ++ [p]) h1 (evs ++ [e]).
Proof.
  intros [Hh Hd Hheap] Hf He. unfold fresh_post in Hf.
  assert (Hq : Forall2 (holds h1) q evs).
  { destruct (data_allocated p); [|by subst]. destruct Hf as (_ & Hn & bytes & ->).
    eapply Forall2_impl; [exact Hh|]. intros. by apply holds_insert. }
  assert (Hp : ptrs (q ++ [p]) = ptrs q ++ (if data_allocated p then [data p] else [])).
  { unfold ptrs. rewrite filter_app, fmap_app, filter_cons, filter_nil. by destruct (data_allocated p). }
  split; [by apply Forall2_app; [|constructor]|..]; rewrite Hp; destruct (data_allocated p).
  - apply NoDup_app. split; [done|]. split; [|apply NoDup_singleton]. intros k Hk ->%list_elem_of_singleton.
    destruct Hf as (_ & Hn & _). apply not_elem_of_dom in Hn. apply Hn. rewrite Hheap. by apply elem_of_list_to_set.
  - by rewrite app_nil_r.
  - destruct Hf as (_ & _ & bytes & ->). rewrite dom_insert_L, Hheap, list_to_set_app_L. cbn. by rewrite union_empty_r_L, (comm_L (∪)).
  - by rewrite app_nil_r; subst.
Qed.

Lemma difference_disjoint_singleton (k : Z) (X : gset Z) : k ∉ X -> ({[k]} ∪ X) ∖ {[k]} = X.
Proof. intros H. apply set_eq. intros x. rewrite elem_of_difference, elem_of_union, !elem_of_singleton. split; [tauto|]. intros Hx. split; [by right|by intros ->]. Qed.

Lemma queue_abs_pop p q h e evs :
  queue_abs (p :: q) h (e :: evs) ->
  holds h p e /\ exists h1, post_instance_delete h p = Some h1 /\ queue_abs q h1 evs.
Proof.
  intros [Hh Hd Hheap]. inversion_clear Hh as [|? ? ? ? He Hq]. split; [done|].
  unfold ptrs in Hd, Hheap. rewrite filter_cons in Hd, Hheap. unfold post_instance_delete. pose proof (ho_data _ _ _ He) as Hp.
  destruct (data_allocated p) eqn:Ea; cbn [andb] in *.
  - destruct (data_set p); [|by destruct Hp]. destruct Hp as (H0 & Hl & Hne). rewrite (proj2 (Z.eqb_neq _ 0)) by done. cbn [negb].
    destruct (h !! data p) as [bytes|] eqn:El; [|congruence]. eexists. split; [reflexivity|].
    cbn in Hd, Hheap. apply NoDup_cons in Hd as [Hn Hd]. split; [|done|].
    + clear Hd Hheap Hl Hne. induction Hq as [|p' e' q evs Hp Hq IH]; constructor.
      * apply holds_delete; [done|]. intros Hal E. apply Hn. apply list_elem_of_fmap. exists p'.
        split; [done|]. apply list_elem_of_filter. split; [done|by constructor].
      * apply IH. intros (x & Hx & [Hx1 Hx2]%list_elem_of_filter)%list_elem_of_fmap. apply Hn, list_elem_of_fmap. exists x.
        split; [done|]. apply list_elem_of_filter. split; [done|by constructor].
    + rewrite dom_delete_L, Hheap. apply difference_disjoint_singleton. by rewrite elem_of_list_to_set.
  - eexists. split; [reflexivity|]. by split.
Qed.

Lemma execute_holds h p e nodes : holds h p e ->
  execute_all h p nodes = Some ((fun n => Call (handler n) (arg n) (e_base e) (e_id e) (e_data e)) <$> nodes).
Proof.
  intros [Hb Hi _ Hd]. induction nodes as [|n nodes IH]; [done|]. cbn [execute_all]. rewrite IH. unfold handler_execute.
  rewrite Hb, Hi. destruct (data_set p); [|by destruct Hd as [_ ->]].
  destruct (data_allocated p); [|by rewrite Hd]. destruct Hd as (_ & -> & Hne). by destruct (e_data e).
Qed.

(** *** Posting *)

Lemma send_abs s sp h1 p e l :
  abs s sp -> fresh_post (heap s) h1 p -> holds h1 p e -> xQueueSendToBack (loop s) p l =
  if (length (events sp) <? room sp)%nat then Some (with_queue (queue (loop s) ++ [p]) (loop s)) else None.
Proof.
  intros [_ [Hq _ _] Hr] _ _. unfold xQueueSendToBack. by rewrite (Forall2_length _ _ _ Hq), Hr.
Qed.

Lemma abs_queued s sp h1 p e :
  abs s sp -> fresh_post (heap s) h1 p -> holds h1 p e ->
  abs (LoopState (with_queue (queue (loop s) ++ [p]) (loop s)) h1) (Spec (regs sp) (events sp ++ [e]) (room sp)).
Proof. intros [Hn Hq Hr] Hf He. split; [exact Hn|by eapply queue_abs_snoc|exact Hr]. Qed.

Lemma loop_state_eta s : LoopState (loop s) (heap s) = s.
Proof. by destruct s. Qed.

(** What both functions do with a post. *)
Lemma send_sim s sp h1 p e base full :
  abs s sp -> fresh_post (heap s) h1 p -> holds h1 p e -> e_base e = Base base -> e_id e <> ESP_EVENT_ANY_ID ->
  forall ticks r, xQueueSendToBack (loop s) p ticks = r ->
  exists err s' sp', match r with
                     | None => let! h := post_instance_delete h1 p in Some (full, LoopState (loop s) h)
                     | Some l => Some (ESP_OK, LoopState l h1)
                     end = Some (err, s') /\
    post_spec sp (Some base) (e_id e) (e_data e) full err sp' /\ abs s' sp'.
Proof.
  intros Ha Hf He Hb Hi ticks r <-. rewrite (send_abs _ _ _ _ _ _ Ha Hf He). destruct (Nat.ltb_spec (length (events sp)) (room sp)).
  - do 3 eexists. split; [reflexivity|]. split; [|by eapply abs_queued].
    destruct e as [b i d]. cbn in *. subst b. by apply (post_queued _ _ _ _ _ base).
  - rewrite (fresh_post_delete _ _ _ Hf). do 3 eexists. split; [reflexivity|]. rewrite loop_state_eta. split; [|done].
    by apply (post_full _ _ _ _ _ base).
Qed.

(** *** Running *)

Lemma run_posts_sim ticks current : forall q clock marker remaining s sp,
  abs s sp -> queue (loop s) = q ->
  exists n s', run_posts q current ticks clock marker remaining s = Some (take n (events sp) ≫= deliver (regs sp), s') /\
    abs s' (Spec (regs sp) (drop n (events sp)) (room sp)) /\ (n <= length (events sp))%nat /\
    (0 < length (events sp) -> 0 < n)%nat /\ (ticks = portMAX_DELAY -> n = length (events sp)).
Proof.
  induction q as [|p q IH]; intros clock marker remaining s [rs evs rm] Ha Eq; pose proof Ha as [Hn Hq Hr]; rewrite Eq in Hq; cbn in *.
  - inversion_clear Hq as [Hh _ _]. inversion Hh; subst evs. exists 0%nat, s. cbn. split; [done|]. by split.
  - pose proof (qa_holds _ _ _ Hq) as Hh. destruct evs as [|e evs]; [by inversion Hh|].
    destruct (queue_abs_pop _ _ _ _ _ Hq) as (He & h1 & Hdel & Hq').
    rewrite (execute_holds _ _ _ _ He), Hdel, (run_filter (p_base p) (p_id p)) by (apply He || apply Hn).
    set (l := with_running current (with_queue q (loop s))).
    assert (Hcalls : (fun n => Call (handler n) (arg n) (e_base e) (e_id e) (e_data e)) <$>
        (r_node <$> filter (fun r => matches (p_base p) (p_id p) r) (loop_regs (loop_nodes (loop s)))) = deliver rs e).
    { unfold deliver. rewrite (na_order _ _ Hn) by apply He.
      rewrite (ho_base _ _ _ He), (ho_id _ _ _ He), <- list_fmap_compose. done. }
    rewrite Hcalls.
    assert (Hstop : forall t, abs (LoopState (with_running t l) h1) (Spec rs evs rm)) by (intros t; by split).
    assert (Hgo : forall clock marker remaining, exists n s',
      (let! r := run_posts q current ticks clock marker remaining (LoopState (with_running 0 l) h1) in
       Some (deliver rs e ++ r.1, r.2)) = Some (take n (e :: evs) ≫= deliver rs, s') /\
      abs s' (Spec rs (drop n (e :: evs)) rm) /\ (n <= S (length evs))%nat /\ (0 < S (length evs) -> 0 < n)%nat /\
      (ticks = portMAX_DELAY -> n = S (length evs))).
    { intros clock' marker' remaining'.
      destruct (IH clock' marker' remaining' _ _ (Hstop 0) eq_refl) as (n & s' & E & Hs' & Hn1 & Hn2 & Hn3). cbn in *.
      rewrite E. exists (S n), s'. split; [done|]. split; [done|]. split; [lia|]. split; [lia|].
      intros Et. by rewrite Hn3. }
    destruct (Z.eqb_spec ticks portMAX_DELAY) as [Et|Et]; cbn [negb]; [apply Hgo|].
    destruct (_ <=? 0); [|apply Hgo]. exists 1%nat, (LoopState l h1). cbn. rewrite app_nil_r, drop_0. split; [done|].
    split; [exact (Hstop current)|]. split; [lia|]. split; [lia|done].
Qed.

Lemma run_sim s sp ticks current clock :
  abs s sp -> exists out s' sp', step s (Run ticks current clock) = Some (out, s') /\
    spec_step sp (Run ticks current clock) out sp' /\ abs s' sp'.
Proof.
  intros Ha. cbn [step]. unfold esp_event_loop_run.
  destruct (run_posts_sim ticks current _ (fun n => clock (S n)) (clock 0%nat) ticks s sp Ha eq_refl) as (n & s' & E & Hs' & H1 & H2 & H3).
  rewrite E. do 3 eexists. split; [reflexivity|]. split; [by apply spec_run|done].
Qed.

(** *** Each operation *)

Lemma queue_post_sim s sp h1 p base i d size ticks copy current mutex :
  abs s sp -> fresh_post (heap s) h1 p -> holds h1 p (Event (Base base) i (posted d size)) -> i <> ESP_EVENT_ANY_ID ->
  exists out s' sp',
    (let! r := queue_post (loop s) h1 p ticks current mutex in Some (Outcome r.1 None [], r.2)) = Some (out, s') /\
    spec_step sp (PostTo (Some base) i d size ticks copy current mutex) out sp' /\ abs s' sp'.
Proof.
  intros Ha Hf He Hi. unfold queue_post.
  assert (Hpost : forall t, exists out s' sp',
    (let! r := match xQueueSendToBack (loop s) p t with
               | None => let! h := post_instance_delete h1 p in Some (ESP_ERR_TIMEOUT, LoopState (loop s) h)
               | Some l => Some (ESP_OK, LoopState l h1) end in Some (Outcome r.1 None [], r.2)) = Some (out, s') /\
    spec_step sp (PostTo (Some base) i d size ticks copy current mutex) out sp' /\ abs s' sp').
  { intros t. destruct (send_sim s sp h1 p _ base ESP_ERR_TIMEOUT Ha Hf He eq_refl Hi t _ eq_refl) as (err & s' & sp' & E & Hs & Ha').
    rewrite E. do 3 eexists. split; [reflexivity|]. split; [by apply spec_post|done]. }
  destruct (task (loop s) =? 0); [|by destruct (negb _)].
  destruct mutex; [by destruct (negb _)|]. rewrite (fresh_post_delete _ _ _ Hf), loop_state_eta.
  do 3 eexists. split; [reflexivity|]. split; [by apply spec_post_no_mutex|done].
Qed.

Lemma has_data_some d size x : has_data d size = Some x -> d = Some x.
Proof. unfold has_data. intros E. by repeat case_match; simplify_eq. Qed.

Lemma post_sim s sp b i d size ticks copy current mutex :
  abs s sp -> admissible s (PostTo b i d size ticks copy current mutex) ->
  exists out s' sp', step s (PostTo b i d size ticks copy current mutex) = Some (out, s') /\
    spec_step sp (PostTo b i d size ticks copy current mutex) out sp' /\ abs s' sp'.
Proof.
  intros Ha [Hd Hcopy]. cbn [step]. unfold esp_event_post_to.
  destruct b as [base|]; [|do 3 eexists; split; [reflexivity|]; split; [apply spec_post, post_refused; by left|done]].
  destruct (Z.eqb_spec i ESP_EVENT_ANY_ID) as [Ei|Ei];
    [do 3 eexists; split; [reflexivity|]; split; [apply spec_post, post_refused; by right|done]|].
  destruct (has_data d size) as [x|] eqn:Ed.
  - destruct copy as [p|].
    + unfold read_bytes. rewrite (proj2 (Nat.leb_le _ _)) by (by apply Hd, (has_data_some _ size)).
      destruct (Hcopy p eq_refl) as [H0 Hp]. apply queue_post_sim; try done.
      * split; [done|]. split; [done|]. by eexists.
      * unfold posted. rewrite Ed. split; try done. cbn. split; [done|]. by rewrite lookup_insert_eq.
    + do 3 eexists. split; [reflexivity|]. split; [|done]. apply spec_post_no_mem; [done|done|]. unfold posted. by rewrite Ed.
  - apply queue_post_sim; try done. unfold posted. rewrite Ed. by split.
Qed.

Lemma le_bytes_padded k bs : Forall (in_range 8) bs -> le_bytes (length bs + k) (le_value bs) = bs ++ replicate k 0.
Proof.
  induction 1 as [|b bs Hb _ IH]; cbn [length le_value Nat.add app].
  - induction k as [|k IH]; [done|]. change (0 :: le_bytes k 0 = 0 :: replicate k 0). f_equal. exact IH.
  - cbn [le_bytes]. unfold in_range in Hb. change (2 ^ 8) with 256 in Hb.
    replace (b + 256 * le_value bs) with (b + le_value bs * 256) by lia.
    rewrite Z.mod_add, Z.div_add, Z.mod_small, Z.div_small by lia. by rewrite Z.add_0_l, IH.
Qed.

Lemma isr_sim s sp b i d size :
  abs s sp -> admissible s (IsrPost b i d size) ->
  exists out s' sp', step s (IsrPost b i d size) = Some (out, s') /\
    spec_step sp (IsrPost b i d size) out sp' /\ abs s' sp'.
Proof.
  intros Ha Hd. cbn [step]. unfold esp_event_isr_post_to.
  assert (Hbad : b = None \/ i = ESP_EVENT_ANY_ID -> spec_step sp (IsrPost b i d size) (Outcome ESP_ERR_INVALID_ARG None []) sp).
  { intros Hb. destruct (Nat.lt_ge_cases 4 size); [by apply spec_isr_large|]. apply spec_isr_post; [done|]. by apply post_refused. }
  destruct b as [base|]; [|do 3 eexists; split; [reflexivity|]; split; [apply Hbad; by left|done]].
  destruct (Z.eqb_spec i ESP_EVENT_ANY_ID) as [Ei|Ei]; [do 3 eexists; split; [reflexivity|]; split; [apply Hbad; by right|done]|].
  destruct (Nat.ltb_spec 4 size) as [H4|H4]; [do 3 eexists; split; [reflexivity|]; split; [by apply spec_isr_large|done]|].
  assert (Hsend : forall p, fresh_post (heap s) (heap s) p -> holds (heap s) p (Event (Base base) i (posted_isr d size)) ->
    exists out s' sp', (let! r := match xQueueSendToBack (loop s) p 0 with
       | None => let! h := post_instance_delete (heap s) p in Some (ESP_FAIL, LoopState (loop s) h)
       | Some l => Some (ESP_OK, LoopState l (heap s)) end in Some (Outcome r.1 None [], r.2)) = Some (out, s') /\
    spec_step sp (IsrPost (Some base) i d size) out sp' /\ abs s' sp').
  { intros p Hf He. destruct (send_sim s sp (heap s) p _ base ESP_FAIL Ha Hf He eq_refl Ei 0 _ eq_refl) as (err & s' & sp' & E & Hs & Ha').
    rewrite E. do 3 eexists. split; [reflexivity|]. split; [by apply spec_isr_post|done]. }
  unfold posted_isr in Hsend. destruct (has_data d size) as [x|] eqn:Ed; cbn in Hsend.
  - destruct (Hd x (has_data_some _ _ _ Ed)) as [Hl Hx]. unfold read_bytes. rewrite (proj2 (Nat.leb_le _ _)) by done.
    apply Hsend; [done|]. split; try done. cbn [data_set data_allocated e_data data].
    assert (Hlen : length (take size x) = size) by (rewrite length_take; lia).
    pose proof (le_bytes_padded (4 - size) (take size x) (Forall_take _ _ _ Hx)) as Hb. rewrite Hlen in Hb.
    replace (size + (4 - size))%nat with 4%nat in Hb by lia. by rewrite Hb.
  - apply Hsend; by split.
Qed.

Lemma step_sim s sp o : abs s sp -> admissible s o ->
  exists out s' sp', step s o = Some (out, s') /\ spec_step sp o out sp' /\ abs s' sp'.
Proof.
  destruct o; [apply register_sim|apply unregister_sim|apply post_sim|apply isr_sim|intros H _; by apply run_sim].
Qed.

Lemma run_ops_sim ops : forall s sp, abs s sp -> contract s ops ->
  exists outs s' sp', run_ops s ops = Some (outs, s') /\ spec_runs sp ops outs sp' /\ abs s' sp'.
Proof.
  induction ops as [|o ops IH]; intros s sp Ha Hc; cbn [run_ops].
  - do 3 eexists. split; [reflexivity|]. split; [constructor|done].
  - inversion_clear Hc as [|? ? ? Hadm Hnext]. destruct (step_sim s sp o Ha Hadm) as (out & s1 & sp1 & E & Hs & Ha1).
    destruct (IH s1 sp1 Ha1 (Hnext _ _ E)) as (outs & s' & sp' & E' & Hr & Ha'). rewrite E. cbn. rewrite E'.
    do 3 eexists. split; [reflexivity|]. split; [by econstructor|done].
Qed.

Lemma created_abs args la qc mc tc l :
  esp_event_loop_create (Some args) true la qc mc tc = (ESP_OK, Some l) ->
  abs (LoopState l ∅) (Spec [] [] (queue_size args)).
Proof.
  intros E. assert (loop_nodes l = [] /\ queue l = [] /\ queue_length l = queue_size args) as (E1 & E2 & E3).
  { unfold esp_event_loop_create in E. cbn in E. repeat case_match; by simplify_eq/=. }
  split; cbn; [|by rewrite E2; split; [constructor|constructor|rewrite dom_empty_L]|exact E3].
  rewrite E1. split; by try constructor.
Qed.

(** *** Deletion *)

Lemma drop_posts_all q : forall h evs, queue_abs q h evs -> drop_posts q h = Some ∅.
Proof.
  induction q as [|p q IH]; intros h evs Hq; cbn.
  - f_equal. apply dom_empty_inv_L. exact (qa_heap _ _ _ Hq).
  - pose proof (qa_holds _ _ _ Hq) as Hh. destruct evs as [|e evs]; [by inversion Hh|].
    destruct (queue_abs_pop _ _ _ _ _ Hq) as (_ & h1 & -> & Hq'). by eapply IH.
Qed.

Lemma freed_handlers b i hs : handler_instances_remove_all hs = ctxs (Reg b i <$> hs).
Proof. unfold handler_instances_remove_all, ctxs. by rewrite <- list_fmap_compose. Qed.

Lemma ctxs_app l1 l2 : ctxs (l1 ++ l2) = ctxs l1 ++ ctxs l2.
Proof. apply fmap_app. Qed.

Lemma freed_bind {A} (f : A -> list Z) (g : A -> list registration) l :
  (forall x, f x = ctxs (g x)) -> l ≫= f = ctxs (l ≫= g).
Proof. intros H. induction l as [|x l IH]; [done|]. cbn. by rewrite ctxs_app, H, IH. Qed.

Lemma freed_nodes nodes : nodes ≫= loop_node_remove_all_handler = ctxs (loop_regs nodes).
Proof.
  apply freed_bind. intros ln. unfold loop_node_remove_all_handler, node_regs. rewrite ctxs_app. f_equal; [apply freed_handlers|].
  apply freed_bind. intros bn. unfold base_node_remove_all_handler, base_regs. rewrite ctxs_app. f_equal; [apply freed_handlers|].
  apply freed_bind. intros n. apply freed_handlers.
Qed.

(** ** The properties *)

(** C32: A loop is a bounded first-in first-out queue of events, each of which
    calls the handlers registered for it in the order of their registration,
    with the data that was posted: no operation of a loop fails an assertion or
    touches memory it does not own, and its results are those of the queue. *)
Theorem event_loop_refines args loop_allocated queue_created mutex_created task_created l ops :
  esp_event_loop_create (Some args) true loop_allocated queue_created mutex_created task_created = (ESP_OK, Some l) ->
  contract (LoopState l ∅) ops ->
  exists outs s sp, run_ops (LoopState l ∅) ops = Some (outs, s) /\
    spec_runs (Spec [] [] (queue_size args)) ops outs sp /\
    forall b i, i <> ESP_EVENT_ANY_ID ->
      loop_nodes_run (loop_nodes (loop s)) b i = r_node <$> filter (fun r => matches b i r) (regs sp).
Proof.
  intros Hl Hc. destruct (run_ops_sim ops _ _ (created_abs _ _ _ _ _ _ Hl) Hc) as (outs & s & sp & E & Hr & [Hn _ _]).
  exists outs, s, sp. split; [exact E|]. split; [exact Hr|]. intros b i Hi.
  rewrite (run_filter b i) by (exact Hi || apply Hn). by rewrite (na_order _ _ Hn).
Qed.

(** C35: The copies on the heap are those of the queued events, each owned by
    one of them, so none is leaked, freed twice or used after it is freed;
    deleting the loop frees all of them, and every context once. *)
Theorem event_data_owned args loop_allocated queue_created mutex_created task_created l ops :
  esp_event_loop_create (Some args) true loop_allocated queue_created mutex_created task_created = (ESP_OK, Some l) ->
  contract (LoopState l ∅) ops ->
  exists outs s freed, run_ops (LoopState l ∅) ops = Some (outs, s) /\
    dom (heap s) = list_to_set (ptrs (queue (loop s))) /\ NoDup (ptrs (queue (loop s))) /\
    esp_event_loop_delete s = Some (ESP_OK, freed, ∅) /\
    NoDup freed /\ freed = ctxs (loop_regs (loop_nodes (loop s))).
Proof.
  intros Hl Hc. destruct (run_ops_sim ops _ _ (created_abs _ _ _ _ _ _ Hl) Hc) as (outs & s & sp & E & _ & [Hn Hq _]).
  exists outs, s, (ctxs (loop_regs (loop_nodes (loop s)))). split; [exact E|]. split; [apply Hq|]. split; [apply Hq|].
  split; [unfold esp_event_loop_delete; by rewrite (drop_posts_all _ _ _ Hq), freed_nodes|]. split; [|done].
  rewrite (nodes_abs_ctxs _ _ Hn). apply Hn.
Qed.

Module LoopExample.

Definition l : esp_event_loop_instance_t := Loop EmptyString [] 3 0 0 [].

Definition mem (c : Z) : list (option Z) := repeat (Some c) 5.

Definition ops : list op :=
  [Register (mem 100) (Some 1) 5 7 0 false; Register (mem 101) None (-1) 8 1 false;
   PostTo (Some 1) 5 (Some [1; 2; 3]) 3 0 (Some 500) 9 true; IsrPost (Some 1) 6 (Some [4]) 1;
   PostTo (Some 2) 5 (Some [1; 2; 3]) 3 0 (Some 501) 9 true; PostTo (Some 2) 5 None 0 0 None 9 true;
   Run 10 9 (fun n => 5 * n); Unregister (Some 1) 5 100 false].

Lemma mem_fresh c0 (L : list Z) : bool_decide (c0 ∉ L) = true -> forall c, Some c ∈ mem c0 -> c ∉ L.
Proof. intros H c Hc. apply bool_decide_eq_true in H. by apply list_elem_of_In, repeat_spec in Hc as [= ->]. Qed.

Ltac check_contract :=
  repeat (apply contract_cons;
          [cbn [admissible]; repeat split;
           first [done | apply mem_fresh; reflexivity
                 |intros; simplify_eq; cbn; first [done | lia | vm_compute; reflexivity | solve [repeat first [apply Forall_nil_2|apply Forall_cons_2]; unfold in_range; lia]]]
          |cbn; intros ? ? [= <- <-]]);
  try apply contract_nil.

Lemma ops_contract : contract (LoopState l ∅) ops.
Proof. unfold ops. check_contract. Qed.

(** The handler of the event comes before the one of all events, which was
    registered later; the fourth post finds the queue full; the run stops after
    the second event, when its time is over. *)
Lemma event_loop_refines_witness :
  (exists s, run_ops (LoopState l ∅) ops = Some
     ([Outcome ESP_OK (Some 100) []; Outcome ESP_OK (Some 101) []; Outcome ESP_OK None []; Outcome ESP_OK None [];
       Outcome ESP_OK None []; Outcome ESP_ERR_TIMEOUT None [];
       Outcome ESP_OK None [Call 7 0 (Base 1) 5 (Some [1; 2; 3]); Call 8 1 (Base 1) 5 (Some [1; 2; 3]);
                            Call 8 1 (Base 1) 6 (Some [4; 0; 0; 0])];
       Outcome ESP_OK None []], s)) /\
  exists outs s sp, run_ops (LoopState l ∅) ops = Some (outs, s) /\ spec_runs (Spec [] [] 3) ops outs sp /\
    forall b i, i <> ESP_EVENT_ANY_ID ->
      loop_nodes_run (loop_nodes (loop s)) b i = r_node <$> filter (fun r => matches b i r) (regs sp).
Proof.
  split; [eexists; vm_compute; reflexivity|].
  apply (event_loop_refines (LoopArgs 3 None) true true true None l ops); [reflexivity|exact ops_contract].
Defined.

Lemma event_data_owned_witness :
  exists outs s freed, run_ops (LoopState l ∅) ops = Some (outs, s) /\
    dom (heap s) = list_to_set (ptrs (queue (loop s))) /\ NoDup (ptrs (queue (loop s))) /\
    esp_event_loop_delete s = Some (ESP_OK, freed, ∅) /\ NoDup freed /\ freed = ctxs (loop_regs (loop_nodes (loop s))).
Proof.
  apply (event_data_owned (LoopArgs 3 None) true true true None l ops); [reflexivity|exact ops_contract].
Defined.

(** A run that ends because its time is over leaves the loop marked as run by
    its task, so a later post of that task does not wait for room in the queue. *)
Example running_task_stays :
  exists s, (let! r := run_ops (LoopState l ∅) (take 7 ops) in Some (running_task (loop r.2))) = Some s /\ s = 9.
Proof. eexists. vm_compute. done. Qed.

End LoopExample.
