(* ===== verification/GestureApp.v ===== *)
(** * The gesture controller
    ([codes/ble_gesture_suite/bleGestureControl/AppController.cpp],
    [ImuSensor.cpp], [BleTransport.cpp])

    The firmware of the suite: it reads a motion sensor and streams its samples
    to a BLE client, shows the state of the link with a LED, and publishes a
    status text. *)

From S2P Require Import Prelude.
From stdpp Require Import pretty.
From Stdlib Require Import SpecFloat.

#[local] Open Scope abort_scope.
#[local] Open Scope Z_scope.

(** ** [AppConfig.h] *)

Definition kImuAddressPrimary : Z := 0x68.
Definition kImuAddressSecondary : Z := 0x69.
Definition kPairingBlinkIntervalMs : Z := 150.
Definition kBreathingPeriodMs : Z := 2200.
Definition kImuPublishIntervalMs : Z := 20.

(** ** [ImuSensor] *)

Record ImuSample := Sample { ax : Z; ay : Z; az : Z; gx : Z; gy : Z; gz : Z; temp : Z; timestampMs : Z }.

Record ImuSensor := Imu { deviceAddress_ : Z; ready_ : bool }.

Definition toInt16 (high low : Z) : Z := swrap 16 (Z.lor (Z.shiftl high 8) low).

(** [ack] is what the bus answers at an address, 0 for an acknowledgement;
    [wake] what it answers to the write that wakes the sensor up. *)
Definition ImuSensor_begin (ack : Z -> Z) (wake : Z) : bool * ImuSensor :=
  let address :=
    if ack kImuAddressPrimary =? 0 then kImuAddressPrimary
    else if ack kImuAddressSecondary =? 0 then kImuAddressSecondary else 0 in
  if address =? 0 then (false, Imu address false)
  else if negb (wake =? 0) then (false, Imu address false)
  else (true, Imu address true).

(** A transfer from the sensor: the answer of the bus to the register number,
    how many bytes it says it got, and the bytes that are read from it. *)
Record wire_read := WireRead { wr_ack : Z; wr_received : Z; wr_bytes : list Z }.

Definition readRegs (w : wire_read) (length_ : nat) : option (list Z) :=
  if negb (wr_ack w =? 0) then None
  else if negb (wr_received w =? length_) then None
  else Some (take length_ (wr_bytes w)).

Definition raw_byte (raw : list Z) (i : nat) : Z := default 0 (raw !! i).

Definition readSample (imu : ImuSensor) (w : wire_read) (now : Z) : option ImuSample :=
  if negb (ready_ imu) then None
  else
    let! raw := readRegs w 14 in
    let r i := raw_byte raw i in
    Some (Sample (toInt16 (r 0%nat) (r 1%nat)) (toInt16 (r 2%nat) (r 3%nat)) (toInt16 (r 4%nat) (r 5%nat))
            (toInt16 (r 8%nat) (r 9%nat)) (toInt16 (r 10%nat) (r 11%nat)) (toInt16 (r 12%nat) (r 13%nat))
            (toInt16 (r 6%nat) (r 7%nat)) now).

(** ** [BleTransport] *)

(** The values of the two characteristics, which exist once BLE has begun. *)
Record BleTransport := Ble {
  statusCharacteristic_ : option string;
  imuCharacteristic_ : option string;
  clientConnected_ : bool;
}.

(** What leaves the controller: a level of the LED's pin, a value of a
    characteristic and whether the client is notified. *)
Inductive output := AnalogWrite (level : Z) | StatusValue (text : string) (notified : bool) | ImuValue (text : string) (notified : bool).

Definition BleTransport_begin : BleTransport := Ble (Some "BOOTING"%string) (Some "IMU,0,0,0,0,0,0,0,0"%string) false.

Definition BleTransport_publishStatus (b : BleTransport) (status : string) : BleTransport * list output :=
  match statusCharacteristic_ b with
  | None => (b, [])
  | Some _ => (Ble (Some status) (imuCharacteristic_ b) (clientConnected_ b), [StatusValue status (clientConnected_ b)])
  end.

Definition BleTransport_publishImuData (b : BleTransport) (payload : string) : BleTransport * list output :=
  match imuCharacteristic_ b with
  | None => (b, [])
  | Some _ => (Ble (statusCharacteristic_ b) (Some payload) (clientConnected_ b), [ImuValue payload (clientConnected_ b)])
  end.

(** ** [AppController] *)

Inductive BleIndicatorMode := Pairing | Connected | Disconnected.

#[export] Instance mode_eq_dec : EqDecision BleIndicatorMode.
Proof. solve_decision. Defined.

Definition bleModeToText (mode : BleIndicatorMode) : string :=
  match mode with Pairing => "PAIRING" | Connected => "CONNECTED" | Disconnected => "DISCONNECTED" end.

Definition buildStatusText (mode : BleIndicatorMode) (imuReady : bool) (imuReadFailCount : Z) : string :=
  "BLE:" +:+ bleModeToText mode +:+ ",IMU:" +:+ (if imuReady then "READY" else "NOT_READY") +:+
  ",IMU_FAIL:" +:+ pretty imuReadFailCount.

Inductive esp_reset_reason_t :=
| ESP_RST_UNKNOWN | ESP_RST_POWERON | ESP_RST_EXT | ESP_RST_SW | ESP_RST_PANIC | ESP_RST_INT_WDT | ESP_RST_TASK_WDT
| ESP_RST_WDT | ESP_RST_DEEPSLEEP | ESP_RST_BROWNOUT | ESP_RST_SDIO
| ESP_RST_USB | ESP_RST_JTAG | ESP_RST_EFUSE | ESP_RST_PWR_GLITCH | ESP_RST_CPU_LOCKUP.

Definition resetReasonToText (reason : esp_reset_reason_t) : string :=
  match reason with
  | ESP_RST_POWERON => "POWERON" | ESP_RST_SW => "SW" | ESP_RST_PANIC => "PANIC" | ESP_RST_INT_WDT => "INT_WDT"
  | ESP_RST_TASK_WDT => "TASK_WDT" | ESP_RST_WDT => "WDT" | ESP_RST_DEEPSLEEP => "DEEPSLEEP"
  | ESP_RST_BROWNOUT => "BROWNOUT" | ESP_RST_SDIO => "SDIO" | _ => "UNKNOWN"
  end.

(** [snprintf] into a buffer of [size] bytes keeps what fits before the zero. *)
Definition snprintf (size : nat) (s : string) : string := String.substring 0 (size - 1) s.

Definition imu_format (s : ImuSample) : string :=
  "IMU," +:+ pretty (timestampMs s) +:+ "," +:+ pretty (ax s) +:+ "," +:+ pretty (ay s) +:+ "," +:+ pretty (az s) +:+ "," +:+
  pretty (gx s) +:+ "," +:+ pretty (gy s) +:+ "," +:+ pretty (gz s) +:+ "," +:+ pretty (temp s).

Definition buildImuText (s : ImuSample) : string := snprintf 128 (imu_format s).

(** [now] of every operation is what [millis()] gives there. *)
Record AppController := App {
  bleTransport_ : BleTransport;
  imuSensor_ : ImuSensor;
  bleIndicatorMode_ : BleIndicatorMode;
  blinkOutputOn_ : bool;
  lastBlinkToggleMs_ : Z;
  lastImuPublishMs_ : Z;
  imuReadFailCount_ : Z;
  lastImuReadFailLogMs_ : Z;
  bootResetReason_ : string;
}.

Definition with_ble (b : BleTransport) (a : AppController) : AppController :=
  App b (imuSensor_ a) (bleIndicatorMode_ a) (blinkOutputOn_ a) (lastBlinkToggleMs_ a) (lastImuPublishMs_ a)
    (imuReadFailCount_ a) (lastImuReadFailLogMs_ a) (bootResetReason_ a).
Definition with_blink (m : BleIndicatorMode) (on : bool) (t : Z) (a : AppController) : AppController :=
  App (bleTransport_ a) (imuSensor_ a) m on t (lastImuPublishMs_ a)
    (imuReadFailCount_ a) (lastImuReadFailLogMs_ a) (bootResetReason_ a).
Definition with_publish (t : Z) (a : AppController) : AppController :=
  App (bleTransport_ a) (imuSensor_ a) (bleIndicatorMode_ a) (blinkOutputOn_ a) (lastBlinkToggleMs_ a) t
    (imuReadFailCount_ a) (lastImuReadFailLogMs_ a) (bootResetReason_ a).
Definition with_fails (n t : Z) (a : AppController) : AppController :=
  App (bleTransport_ a) (imuSensor_ a) (bleIndicatorMode_ a) (blinkOutputOn_ a) (lastBlinkToggleMs_ a) (lastImuPublishMs_ a)
    n t (bootResetReason_ a).

(** The LED is on when its pin is low. *)
Definition writeIndicatorLevel (brightness : Z) : output := AnalogWrite (wrap 8 (255 - brightness)).

Definition status_text (a : AppController) (fails : Z) : string :=
  buildStatusText (bleIndicatorMode_ a) (ready_ (imuSensor_ a)) fails +:+ ",RST:" +:+ bootResetReason_ a.

Definition publishStatus (a : AppController) : AppController * list output :=
  let '(b, out) := BleTransport_publishStatus (bleTransport_ a) (status_text a (imuReadFailCount_ a)) in
  (with_ble b a, out).

Definition publishImuSample (a : AppController) (s : ImuSample) : AppController * list output :=
  let '(b, out) := BleTransport_publishImuData (bleTransport_ a) (buildImuText s) in (with_ble b a, out).

Definition setBleIndicatorMode (mode : BleIndicatorMode) (now : Z) (a : AppController) : AppController * list output :=
  (with_blink mode false now a, match mode with Disconnected => [writeIndicatorLevel 0] | _ => [] end).

(** Single-precision floating point. *)
Definition f32_of_Z (z : Z) : spec_float := binary_normalize 24 128 z 0 false.

(** [static_cast<uint8_t>] of a float: its integral part, undefined if that is
    not a value of the type. *)
Definition f32_to_u8 (f : spec_float) : option Z :=
  let integral :=
    match f with
    | S754_zero _ => Some 0
    | S754_finite s m e =>
        let n := if 0 <=? e then Zpos m * 2 ^ e else Zpos m / 2 ^ (- e) in
        Some (if s then - n else n)
    | _ => None
    end in
  match integral with Some n => if (0 <=? n) && (n <? 256) then Some n else None | None => None end.

(** The brightness of the breathing LED. *)
Definition breathing_brightness (now : Z) : option Z :=
  let phaseMs := now mod kBreathingPeriodMs in
  let halfPeriod := SFdiv 24 128 (f32_of_Z kBreathingPeriodMs) (f32_of_Z 2) in
  let brightness :=
    if SFltb (f32_of_Z phaseMs) halfPeriod then SFdiv 24 128 (f32_of_Z phaseMs) halfPeriod
    else SFdiv 24 128 (f32_of_Z (u32 (kBreathingPeriodMs - phaseMs))) halfPeriod in
  f32_to_u8 (SFmul 24 128 brightness (f32_of_Z 255)).

Definition updateBleIndicator (now : Z) (a : AppController) : option (AppController * list output) :=
  match bleIndicatorMode_ a with
  | Disconnected => Some (a, [writeIndicatorLevel 0])
  | Pairing =>
      if kPairingBlinkIntervalMs <=? u32 (now - lastBlinkToggleMs_ a) then
        let on := negb (blinkOutputOn_ a) in
        Some (with_blink Pairing on now a, [writeIndicatorLevel (if on then 255 else 0)])
      else Some (a, [])
  | Connected =>
      let! brightness := breathing_brightness now in Some (a, [writeIndicatorLevel brightness])
  end.

(** [now_led], [now] and [now_sample] are the three readings of the clock. *)
Definition tick (now_led now : Z) (w : wire_read) (now_sample : Z) (a : AppController) : option (AppController * list output) :=
  let! r := updateBleIndicator now_led a in
  let '(a, led) := r in
  if negb (clientConnected_ (bleTransport_ a)) || negb (ready_ (imuSensor_ a)) then Some (a, led)
  else if u32 (now - lastImuPublishMs_ a) <? kImuPublishIntervalMs then Some (a, led)
  else
    match readSample (imuSensor_ a) w now_sample with
    | None =>
        let fails := u32 (imuReadFailCount_ a + 1) in
        if 1000 <=? u32 (now - lastImuReadFailLogMs_ a) then
          let '(a, out) := publishStatus (with_fails fails now a) in Some (a, led ++ out)
        else Some (with_fails fails (lastImuReadFailLogMs_ a) a, led)
    | Some sample =>
        let a := with_publish now a in
        let '(a, status) :=
          if negb (imuReadFailCount_ a =? 0) then publishStatus (with_fails 0 (lastImuReadFailLogMs_ a) a) else (a, []) in
        let '(a, out) := publishImuSample a sample in
        Some (a, led ++ status ++ out)
    end.

Definition onBleConnected (now : Z) (a : AppController) : AppController * list output :=
  let '(a, led) := setBleIndicatorMode Connected now a in
  let '(a, out) := publishStatus a in (a, led ++ out).

Definition onBleDisconnected (now : Z) (a : AppController) : AppController * list output :=
  let '(a, led) := setBleIndicatorMode Pairing now a in
  let '(a, out) := publishStatus a in (a, led ++ out).

(** The transport keeps the flag and calls the controller back. *)
Definition handleConnect (now : Z) (a : AppController) : AppController * list output :=
  let b := bleTransport_ a in
  onBleConnected now (with_ble (Ble (statusCharacteristic_ b) (imuCharacteristic_ b) true) a).

Definition handleDisconnect (now : Z) (a : AppController) : AppController * list output :=
  let b := bleTransport_ a in
  onBleDisconnected now (with_ble (Ble (statusCharacteristic_ b) (imuCharacteristic_ b) false) a).

(** Before [begin]. *)
Definition AppController_new : AppController :=
  App (Ble None None false) (Imu 0 false) Disconnected false 0 0 0 0 EmptyString.

Definition AppController_begin (reason : esp_reset_reason_t) (ack : Z -> Z) (wake now_mode now_publish : Z) :
    AppController * list output :=
  let a := AppController_new in
  let flash := [writeIndicatorLevel 255; writeIndicatorLevel 0] in
  let '(_, imu) := ImuSensor_begin ack wake in
  let a := App BleTransport_begin imu (bleIndicatorMode_ a) (blinkOutputOn_ a) (lastBlinkToggleMs_ a) (lastImuPublishMs_ a)
             (imuReadFailCount_ a) (lastImuReadFailLogMs_ a) (resetReasonToText reason) in
  let '(a, led) := setBleIndicatorMode Pairing now_mode a in
  let '(a, out) := publishStatus (with_publish now_publish a) in
  (a, writeIndicatorLevel 0 :: flash ++ flash ++ led ++ out).

(** ** The LED *)

(** The triangle wave, in integers. *)
Definition triangle (now : Z) : Z :=
  let p := now mod kBreathingPeriodMs in 255 * (if p <? 1100 then p else 2200 - p) / 1100.

Lemma forallb_seq (P : Z -> bool) n : forallb P (Z.of_nat <$> seq 0 n) = true -> forall p, 0 <= p < n -> P p = true.
Proof.
  intros H p Hp. rewrite forallb_forall in H. apply H, list_elem_of_In, list_elem_of_fmap. exists (Z.to_nat p).
  split; [lia|]. apply elem_of_seq. lia.
Qed.

(** Rounding of the floating-point computation does not show. *)
Lemma breathing_is_triangle now : breathing_brightness now = Some (triangle now).
Proof.
  assert (H : forall p, 0 <= p < 2200%nat -> bool_decide (breathing_brightness p = Some (triangle p)) = true)
    by (apply forallb_seq; vm_compute; reflexivity).
  assert (Hp : 0 <= now mod 2200 < 2200) by (apply Z.mod_pos_bound; lia).
  specialize (H _ Hp). apply bool_decide_eq_true in H.
  unfold breathing_brightness, triangle in *. change kBreathingPeriodMs with 2200 in *.
  by rewrite Zmod_mod in H.
Qed.

Lemma triangle_range now : 0 <= triangle now <= 255.
Proof.
  unfold triangle. change kBreathingPeriodMs with 2200.
  assert (Hp : 0 <= now mod 2200 < 2200) by (apply Z.mod_pos_bound; lia).
  set (p := now mod 2200) in *. clearbody p. case_match; split; try (apply Z.div_pos; lia);
    apply Z.le_trans with (255 * 1100 / 1100); try done; apply Z.div_le_mono; lia.
Qed.

(** ** The text of a sample *)

Lemma substring_all s n : (String.length s <= n)%nat -> String.substring 0 n s = s.
Proof.
  revert n. induction s as [|c s IH]; intros [|n]; cbn; intros H; try done; [lia|]. f_equal. apply IH. lia.
Qed.

Lemma string_length_app s1 s2 : String.length (s1 +:+ s2) = (String.length s1 + String.length s2)%nat.
Proof. induction s1 as [|c s1 IH]; [done|]. change (S (String.length (s1 +:+ s2)) = S (String.length s1 + String.length s2)). by rewrite IH. Qed.

Lemma pretty_go_length k : forall x s, (x < 10 ^ N.of_nat k)%N ->
  (String.length (pretty_N_go x s) <= k + String.length s)%nat.
Proof.
  induction k as [|k IH]; intros x s Hx.
  - assert (x = 0%N) as -> by (cbn in Hx; lia). by rewrite pretty_N_go_0.
  - destruct (decide (0 < x)%N) as [H|H]; [|assert (x = 0%N) as -> by lia; rewrite pretty_N_go_0; lia].
    rewrite pretty_N_go_step by done. etransitivity; [apply IH|cbn; lia].
    apply N.Div0.div_lt_upper_bound. rewrite Nat2N.inj_succ, N.pow_succ_r' in Hx. lia.
Qed.

Lemma pretty_length (z : Z) k : (0 < k)%nat -> Z.abs z < 10 ^ k ->
  (String.length (pretty z) <= k + (if (z <? 0)%Z then 1 else 0))%nat.
Proof.
  intros Hk Hz. assert (Hn : forall p, Zpos p < 10 ^ k -> (String.length (pretty (Npos p)) <= k)%nat).
  { intros p Hp. change (pretty (N.pos p)) with (pretty_N_go (N.pos p) ""). etransitivity; [apply (pretty_go_length k)|cbn; lia].
    apply N2Z.inj_lt. rewrite N2Z.inj_pow, nat_N_Z. exact Hp. }
  destruct z as [|p|p]; cbn [Z.ltb Z.compare]; [cbn; lia|rewrite Nat.add_0_r; by apply (Hn p)|].
  change (pretty (Z.neg p)) with ("-" +:+ pretty (Npos p)). rewrite string_length_app. specialize (Hn p Hz).
  change (String.length "-") with 1%nat. lia.
Qed.

Definition is_int16 (z : Z) : Prop := - 2 ^ 15 <= z < 2 ^ 15.

Lemma int16_length z : is_int16 z -> (String.length (pretty z) <= 6)%nat.
Proof.
  intros Hz. unfold is_int16 in Hz. etransitivity; [apply (pretty_length z 5); [lia|]|case_match; lia].
  change (10 ^ 5%nat) with 100000. lia.
Qed.

Record wf_sample (s : ImuSample) : Prop := WfSample {
  ws_time : in_range 32 (timestampMs s);
  ws_values : Forall is_int16 [ax s; ay s; az s; gx s; gy s; gz s; temp s];
}.

(** The buffer holds the text of every sample. *)
Lemma imu_text_complete s : wf_sample s -> buildImuText s = imu_format s.
Proof.
  intros [Ht Hv]. unfold buildImuText, snprintf. apply substring_all. unfold imu_format. rewrite !string_length_app.
  repeat (apply Forall_cons_1 in Hv as [?%int16_length Hv]).
  assert (Hl : (String.length (pretty (timestampMs s)) <= 10)%nat).
  { unfold in_range in Ht. etransitivity; [apply (pretty_length _ 10); [lia|]|rewrite (proj2 (Z.ltb_ge _ 0)); lia].
    change (10 ^ 10%nat) with 10000000000. lia. }
  cbn [String.length]. lia.
Qed.

Lemma toInt16_range h l : is_int16 (toInt16 h l).
Proof.
  unfold toInt16, swrap, is_int16. change (16 - 1) with 15.
  pose proof (Z.mod_pos_bound (Z.lor (Z.shiftl h 8) l + 2 ^ 15) (2 ^ 16)). lia.
Qed.

Lemma readSample_wf imu w now s : readSample imu w now = Some s -> in_range 32 now -> wf_sample s.
Proof.
  unfold readSample. destruct (negb _); [done|]. destruct (readRegs w 14); [|done]. intros [= <-] Hn.
  split; [exact Hn|]. cbn. repeat (apply Forall_cons_2; [apply toInt16_range|]). apply Forall_nil_2.
Qed.

(** ** The controller *)

Definition imu_texts (out : list output) : list (string * bool) :=
  omap (fun o => match o with ImuValue t n => Some (t, n) | _ => None end) out.

Definition led_levels (out : list output) : list Z :=
  omap (fun o => match o with AnalogWrite l => Some l | _ => None end) out.

(** The link is shown as it is, and the status says what the controller knows,
    but for failures of the last second. *)
Record app_inv (a : AppController) : Prop := AppInv {
  ai_mode : bleIndicatorMode_ a = if clientConnected_ (bleTransport_ a) then Connected else Pairing;
  ai_status : exists c, statusCharacteristic_ (bleTransport_ a) = Some (status_text a c) /\ 0 <= c <= imuReadFailCount_ a;
  ai_imu : is_Some (imuCharacteristic_ (bleTransport_ a));
  ai_fails : in_range 32 (imuReadFailCount_ a);
}.

(** The controller after some turns, connections and disconnections. It has
    not failed 2^32 times in a row to read the sensor. *)
Inductive ctl_reachable : AppController -> Prop :=
| reach_begin reason ack wake now_mode now_publish :
    ctl_reachable (AppController_begin reason ack wake now_mode now_publish).1
| reach_tick a now_led now w now_sample a' out :
    ctl_reachable a -> imuReadFailCount_ a < UINT32_MAX -> in_range 32 now_sample ->
    tick now_led now w now_sample a = Some (a', out) -> ctl_reachable a'
| reach_connect a now : ctl_reachable a -> ctl_reachable (handleConnect now a).1
| reach_disconnect a now : ctl_reachable a -> ctl_reachable (handleDisconnect now a).1.

Lemma publish_spec a : is_Some (statusCharacteristic_ (bleTransport_ a)) ->
  publishStatus a =
    (with_ble (Ble (Some (status_text a (imuReadFailCount_ a))) (imuCharacteristic_ (bleTransport_ a)) (clientConnected_ (bleTransport_ a))) a,
     [StatusValue (status_text a (imuReadFailCount_ a)) (clientConnected_ (bleTransport_ a))]).
Proof. intros [t Ht]. unfold publishStatus, BleTransport_publishStatus. by rewrite Ht. Qed.

Lemma publish_inv a :
  is_Some (statusCharacteristic_ (bleTransport_ a)) -> is_Some (imuCharacteristic_ (bleTransport_ a)) ->
  bleIndicatorMode_ a = (if clientConnected_ (bleTransport_ a) then Connected else Pairing) ->
  in_range 32 (imuReadFailCount_ a) -> app_inv (publishStatus a).1.
Proof.
  intros Hs Hi Hm Hf. rewrite (publish_spec a Hs). split; [exact Hm| |exact Hi|exact Hf].
  exists (imuReadFailCount_ a). split; [done|]. unfold in_range in Hf. cbn. lia.
Qed.

Lemma inv_status a : app_inv a -> is_Some (statusCharacteristic_ (bleTransport_ a)).
Proof. intros [_ [c [-> _]] _ _]. by eexists. Qed.

Lemma connect_inv a now : app_inv a -> app_inv (handleConnect now a).1.
Proof.
  intros Ha. pose proof (inv_status a Ha). destruct Ha as [_ _ Hi Hf].
  unfold handleConnect, onBleConnected, setBleIndicatorMode. set (a1 := with_blink _ _ _ _).
  assert (Hp : app_inv (publishStatus a1).1) by (by apply publish_inv). by destruct (publishStatus a1).
Qed.

Lemma disconnect_inv a now : app_inv a -> app_inv (handleDisconnect now a).1.
Proof.
  intros Ha. pose proof (inv_status a Ha). destruct Ha as [_ _ Hi Hf].
  unfold handleDisconnect, onBleDisconnected, setBleIndicatorMode. set (a1 := with_blink _ _ _ _).
  assert (Hp : app_inv (publishStatus a1).1) by (by apply publish_inv). by destruct (publishStatus a1).
Qed.

Lemma begin_inv reason ack wake now_mode now_publish :
  app_inv (AppController_begin reason ack wake now_mode now_publish).1.
Proof.
  unfold AppController_begin. destruct (ImuSensor_begin ack wake) as [ok imu]. cbn [setBleIndicatorMode].
  set (a1 := with_publish _ _). assert (Hp : app_inv (publishStatus a1).1).
  { apply publish_inv; [by eexists|by eexists|done|]. unfold in_range. cbn. lia. }
  by destruct (publishStatus a1).
Qed.

(** The LED changes nothing but itself. *)
Lemma led_spec now a : app_inv a -> exists on t led,
  updateBleIndicator now a = Some (with_blink (bleIndicatorMode_ a) on t a, led) /\
  Forall (fun l => 0 <= l <= 255) (led_levels led) /\ imu_texts led = [].
Proof.
  intros [Hm _ _ _]. unfold updateBleIndicator.
  assert (Hsame : a = with_blink (bleIndicatorMode_ a) (blinkOutputOn_ a) (lastBlinkToggleMs_ a) a) by (by destruct a).
  assert (Hw : forall b, Forall (fun l => 0 <= l <= 255) (led_levels [writeIndicatorLevel b])).
  { intros b. apply Forall_cons_2; [|apply Forall_nil_2]. pose proof (wrap_range 8 (255 - b)). unfold in_range in *. lia. }
  destruct (bleIndicatorMode_ a) eqn:E.
  - destruct (_ <=? _).
    + exists (negb (blinkOutputOn_ a)), now, [writeIndicatorLevel (if negb (blinkOutputOn_ a) then 255 else 0)].
      split; [done|]. split; [apply Hw|done].
    + exists (blinkOutputOn_ a), (lastBlinkToggleMs_ a), []. rewrite <- Hsame. split; [done|]. split; [apply Forall_nil_2|done].
  - rewrite breathing_is_triangle. exists (blinkOutputOn_ a), (lastBlinkToggleMs_ a), [writeIndicatorLevel (triangle now)].
    rewrite <- Hsame. split; [done|]. split; [apply Hw|done].
  - by destruct (clientConnected_ _).
Qed.

Lemma with_blink_inv m on t a : app_inv a -> bleIndicatorMode_ a = m -> app_inv (with_blink m on t a).
Proof. intros [Hm [c [Hs Hc]] Hi Hf] <-. by split; [|exists c|..]. Qed.

Lemma fail_inv t a : app_inv a -> imuReadFailCount_ a < UINT32_MAX ->
  app_inv (with_fails (u32 (imuReadFailCount_ a + 1)) t a).
Proof.
  intros [Hm [c [Hs Hc]] Hi Hf] Hmax. unfold in_range, UINT32_MAX in *.
  assert (E : u32 (imuReadFailCount_ a + 1) = imuReadFailCount_ a + 1) by (apply u32_small; lia).
  split; [exact Hm|exists c; split; [exact Hs|cbn; lia]|exact Hi|]. cbn. unfold in_range. lia.
Qed.

Lemma publish_sample_spec a s : is_Some (imuCharacteristic_ (bleTransport_ a)) ->
  publishImuSample a s =
    (with_ble (Ble (statusCharacteristic_ (bleTransport_ a)) (Some (buildImuText s)) (clientConnected_ (bleTransport_ a))) a,
     [ImuValue (buildImuText s) (clientConnected_ (bleTransport_ a))]).
Proof. intros [t Ht]. unfold publishImuSample, BleTransport_publishImuData. by rewrite Ht. Qed.

Lemma outputs_app out1 out2 : imu_texts (out1 ++ out2) = imu_texts out1 ++ imu_texts out2 /\
  led_levels (out1 ++ out2) = led_levels out1 ++ led_levels out2.
Proof. split; apply omap_app. Qed.

(** A sample that was read: a status without failures comes first, if the
    status told of some. *)
Lemma sample_spec now s led b :
  app_inv b -> wf_sample s -> clientConnected_ (bleTransport_ b) = true ->
  Forall (fun l => 0 <= l <= 255) (led_levels led) -> imu_texts led = [] ->
  exists a' out,
    (let '(a, status) :=
       if negb (imuReadFailCount_ b =? 0) then publishStatus (with_fails 0 (lastImuReadFailLogMs_ b) (with_publish now b))
       else (with_publish now b, []) in
     let '(a, out) := publishImuSample a s in
     Some (a, led ++ status ++ out)) = Some (a', out) /\ app_inv a' /\
    Forall (fun l => 0 <= l <= 255) (led_levels out) /\
    imu_texts out = [(imu_format s, true)] /\ lastImuPublishMs_ a' = now /\
    statusCharacteristic_ (bleTransport_ a') = Some (status_text a' 0).
Proof.
  intros Hb Hs Ec Hled Himu. pose proof (inv_status b Hb) as Hst. pose proof Hb as [Hm [c [Hc Hcb]] Hi Hf]. rewrite Ec in Hm.
  destruct (Z.eqb_spec (imuReadFailCount_ b) 0) as [E|E]; cbn [negb].
  - rewrite (publish_sample_spec (with_publish now b)) by done. do 2 eexists. split; [reflexivity|].
    assert (c = 0) as -> by lia. rewrite !(proj1 (outputs_app _ _)), !(proj2 (outputs_app _ _)), Himu. cbn. rewrite Ec.
    rewrite (imu_text_complete s Hs), app_nil_r.
    split; [split; cbn; [done|exists 0; split; [exact Hc|lia]|by eexists|exact Hf]|]. by split.
  - rewrite publish_spec by done. rewrite publish_sample_spec by done. do 2 eexists. split; [reflexivity|].
    rewrite !(proj1 (outputs_app _ _)), !(proj2 (outputs_app _ _)), Himu. cbn. rewrite Ec.
    rewrite (imu_text_complete s Hs), app_nil_r.
    split; [split; cbn; [done|exists 0; split; [done|lia]|by eexists|unfold in_range; lia]|]. by split.
Qed.

(** A turn: samples are streamed when there is a client and a sensor, not more
    often than asked for, each complete, and the status that is read with it
    tells of no failure. *)
Lemma tick_spec now_led now w now_sample a :
  app_inv a -> imuReadFailCount_ a < UINT32_MAX -> in_range 32 now_sample ->
  exists a' out, tick now_led now w now_sample a = Some (a', out) /\ app_inv a' /\
    Forall (fun l => 0 <= l <= 255) (led_levels out) /\
    let sample := if clientConnected_ (bleTransport_ a) && (kImuPublishIntervalMs <=? u32 (now - lastImuPublishMs_ a))
                  then readSample (imuSensor_ a) w now_sample else None in
    match sample with
    | Some s => imu_texts out = [(imu_format s, true)] /\ lastImuPublishMs_ a' = now /\
        statusCharacteristic_ (bleTransport_ a') = Some (status_text a' 0)
    | None => imu_texts out = [] /\ lastImuPublishMs_ a' = lastImuPublishMs_ a
    end.
Proof.
  intros Ha Hmax Hnow. unfold tick. destruct (led_spec now_led a Ha) as (on & t & led & -> & Hled & Himu).
  pose proof (with_blink_inv _ on t a Ha eq_refl) as Hb. set (b := with_blink _ on t a) in *.
  change (clientConnected_ (bleTransport_ a)) with (clientConnected_ (bleTransport_ b)).
  change (lastImuPublishMs_ a) with (lastImuPublishMs_ b). change (imuSensor_ a) with (imuSensor_ b).
  change (imuReadFailCount_ a) with (imuReadFailCount_ b) in Hmax.
  assert (Hquiet : forall P : Prop, P -> exists a' out, Some (b, led) = Some (a', out) /\ app_inv a' /\
    Forall (fun l => 0 <= l <= 255) (led_levels out) /\ imu_texts out = [] /\ lastImuPublishMs_ a' = lastImuPublishMs_ b)
    by (intros _ _; by exists b, led).
  clearbody b. clear Ha a. destruct (clientConnected_ (bleTransport_ b)) eqn:Ec; cbn [negb orb andb]; [|by apply (Hquiet True)].
  rewrite (Z.leb_antisym (u32 (now - lastImuPublishMs_ b)) kImuPublishIntervalMs).
  destruct (u32 (now - lastImuPublishMs_ b) <? kImuPublishIntervalMs); cbn [negb andb].
  { destruct (negb (ready_ (imuSensor_ b))); by apply (Hquiet True). }
  destruct (ready_ (imuSensor_ b)) eqn:Er; cbn [negb]; [|unfold readSample; rewrite Er; by apply (Hquiet True)].
  destruct (readSample (imuSensor_ b) w now_sample) as [s|] eqn:Es.
  - apply (sample_spec now s led b); try done. by eapply readSample_wf.
  - pose proof (fail_inv (lastImuReadFailLogMs_ b) b Hb Hmax) as Hf. destruct (1000 <=? _).
    + pose proof (fail_inv now b Hb Hmax) as Hf'. pose proof Hf' as [Hm' _ Hi' Hr']. pose proof (inv_status _ Hf') as Hst.
      pose proof (publish_inv _ Hst Hi' Hm' Hr') as Hp. rewrite (publish_spec _ Hst) in Hp |- *. do 2 eexists.
      split; [reflexivity|]. split; [exact Hp|]. rewrite (proj1 (outputs_app _ _)), (proj2 (outputs_app _ _)), Himu.
      cbn. by rewrite app_nil_r.
    + by exists (with_fails (u32 (imuReadFailCount_ b + 1)) (lastImuReadFailLogMs_ b) b), led.
Qed.

Lemma controller_inv a : ctl_reachable a -> app_inv a.
Proof.
  induction 1 as [| a now_led now w now_sample a' out _ Ha Hmax Hnow E |a now _ Ha|a now _ Ha].
  - apply begin_inv.
  - destruct (tick_spec now_led now w now_sample a Ha Hmax Hnow) as (a1 & out1 & E1 & Ha1 & _). congruence.
  - by apply connect_inv.
  - by apply disconnect_inv.
Qed.


Module GestureExample.

Definition ack (address : Z) : Z := if address =? 0x68 then 0 else 2.
Definition raw : wire_read := WireRead 0 14 [255; 255; 0; 1; 64; 0; 240; 96; 0; 0; 127; 255; 128; 0].

Definition app : AppController :=
  (handleConnect 2000 (AppController_begin ESP_RST_POWERON ack 0 1000 1001).1).1.

Lemma app_reachable : ctl_reachable app.
Proof. apply reach_connect, reach_begin. Qed.


(** The breathing LED does not start over with a new connection: its brightness
    depends on the clock only. *)
Example breathing_keeps_phase :
  (led_levels <$> (snd <$> tick 3300 3300 raw 3300 (handleConnect 3300 app).1)) = Some [0].
Proof. vm_compute. reflexivity. Qed.

End GestureExample.
