(* ===== verification/EspEfuse.v ===== *)
(** * eFuses ([components/efuse/src/esp_efuse_utility.c], [esp_efuse_api.c],
    [esp_efuse_fields.c], and [esp32s3/esp_efuse_utility.c] for the chip)

    Fields are lists of runs of bits in the blocks of the eFuse array. Reading
    gathers the bits of a field into bytes; writing spreads them over buffers,
    which are then burnt block by block. A burnt bit stays set. The chip is the
    ESP32-S3 without virtual eFuses. *)

From S2P Require Import Prelude EspErr.

#[local] Open Scope abort_scope.

Definition ESP_OK_EFUSE_CNT : esp_err_t := ESP_ERR_OTHER 0x1601.
Definition ESP_ERR_EFUSE_CNT_IS_FULL : esp_err_t := ESP_ERR_OTHER 0x1602.
Definition ESP_ERR_EFUSE_REPEATED_PROG : esp_err_t := ESP_ERR_OTHER 0x1603.
Definition ESP_ERR_CODING : esp_err_t := ESP_ERR_OTHER 0x1604.
Definition ESP_ERR_DAMAGED_READING : esp_err_t := ESP_ERR_OTHER 0x1606.

Record esp_efuse_desc_t := Desc { efuse_block : nat; bit_start : Z; bit_count : Z }.

Definition EFUSE_BLK0 : nat := 0.
Definition EFUSE_BLK_MAX : nat := 11.

(** The registers of each block, [range_read_addr_blocks] and
    [range_write_addr_blocks]. *)
Definition block_registers : list nat := [6; 6; 8; 8; 8; 8; 8; 8; 8; 8; 8]%nat.

Inductive esp_efuse_coding_scheme_t := EFUSE_CODING_SCHEME_NONE | EFUSE_CODING_SCHEME_RS.

Definition esp_efuse_get_coding_scheme (blk : nat) : esp_efuse_coding_scheme_t :=
  if (blk =? EFUSE_BLK0)%nat then EFUSE_CODING_SCHEME_NONE else EFUSE_CODING_SCHEME_RS.

(** The eFuse controller: the read registers of all blocks, reloading them,
    burning the words of a block (with the check values that the ROM computes
    from them), and the coding error of a block. *)
Class EfuseHal (H : Type) := {
  registers : H -> list (list Z);
  efuse_hal_read : H -> H;
  efuse_hal_program : H -> nat -> list Z -> H;
  efuse_hal_is_coding_error_in_block : H -> nat -> bool;
}.

(** ** Bits of a field in registers *)

Definition get_mask (bit_count shift : Z) : Z :=
  u32 (Z.shiftl (if bit_count =? 32 then 0xFFFFFFFF else u32 (Z.shiftl 1 bit_count - 1)) shift).

Definition get_reg_num (bit_start bit_count i_reg : Z) : Z :=
  let num_reg := i_reg + bit_start / 32 in
  if Z.quot (bit_start + bit_count - 1) 32 <? num_reg then -1 else num_reg.

Definition get_starting_bit_num_in_reg (bit_start i_reg : Z) : Z := if i_reg =? 0 then bit_start mod 32 else 0.

(** The loop over [n] bits from [num_bit] on. *)
Fixpoint count_bits_loop (n : nat) (num_bit last_used_bit i_reg num_reg ret_count : Z) : Z :=
  match n with
  | O => 0
  | S n =>
      let ret_count := ret_count + 1 in
      if ((num_bit + 1) mod 32 =? 0) || (num_bit =? last_used_bit) then
        if i_reg =? num_reg then ret_count
        else count_bits_loop n (num_bit + 1) last_used_bit i_reg (num_reg + 1) 0
      else count_bits_loop n (num_bit + 1) last_used_bit i_reg num_reg ret_count
  end.

Definition get_count_bits_in_reg (bit_start bit_count i_reg : Z) : Z :=
  count_bits_loop (Z.to_nat bit_count) bit_start (bit_start + bit_count - 1) i_reg 0 0.

Definition check_range_of_bits (offset_in_bits size_bits : Z) : bool := negb (256 <? offset_in_bits + size_bits).

Definition esp_efuse_utility_get_number_of_items (bits size_of_base : Z) : Z :=
  bits / size_of_base + (if 0 <? bits mod size_of_base then 1 else 0).

Fixpoint esp_efuse_get_field_size (field : list esp_efuse_desc_t) : Z :=
  match field with [] => 0 | d :: field => bit_count d + esp_efuse_get_field_size field end.

(** A byte of a buffer, [None] outside it. *)
Definition blob_at (blob : list Z) (bits : Z) : option Z := blob !! Z.to_nat (bits / 8).

Definition blob_or (blob : list Z) (bits x : Z) : option (list Z) :=
  let! b := blob_at blob bits in Some (<[Z.to_nat (bits / 8) := Z.lor b (u8 x)]> blob).

(** The loop of [esp_efuse_utility_fill_buff]; a turn for each byte. *)
Fixpoint fill_buff_loop (fuel : nat) (v : Z) (blob : list Z) (bits_counter bit_count shift_bit sum_shift : Z) :
    option (list Z * Z) :=
  if bit_count <=? 0 then Some (blob, bits_counter)
  else
    match fuel with
    | O => None
    | S fuel =>
        let sum_shift := sum_shift + shift_bit in
        let! blob := blob_or blob bits_counter (Z.shiftr v sum_shift) in
        let shift_bit := if 8 <? bit_count then 8 else bit_count in
        fill_buff_loop fuel v blob (bits_counter + shift_bit) (bit_count - shift_bit) shift_bit sum_shift
    end.

Definition fill_buff (reg : Z) (bit_start bit_count : Z) (blob : list Z) (bits_counter : Z) : option (list Z * Z) :=
  let v := Z.land (Z.shiftr reg bit_start) (get_mask bit_count 0) in
  let shift_bit := bits_counter mod 8 in
  if negb (shift_bit =? 0) then
    let! blob := blob_or blob bits_counter (Z.shiftl v shift_bit) in
    let shift_bit := if 8 - shift_bit <? bit_count then 8 - shift_bit else bit_count in
    fill_buff_loop (Z.to_nat bit_count) v blob (bits_counter + shift_bit) (bit_count - shift_bit) shift_bit 0
  else fill_buff_loop (Z.to_nat bit_count) v blob bits_counter bit_count shift_bit 0.

(** The loop of [fill_reg]. *)
Fixpoint fill_reg_loop (fuel : nat) (reg_to_write : Z) (blob : list Z) (filled_bits bit_count shift_reg : Z) : option (Z * Z) :=
  if bit_count <=? 0 then Some (reg_to_write, filled_bits)
  else
    match fuel with
    | O => None
    | S fuel =>
        let! b := blob_at blob filled_bits in
        let shift_bit := if 8 <? bit_count then 8 else bit_count in
        fill_reg_loop fuel (Z.lor reg_to_write (u32 (Z.shiftl (Z.land b (get_mask shift_bit 0)) shift_reg))) blob
          (filled_bits + shift_bit) (bit_count - shift_bit) (shift_reg + 8)
    end.

Definition fill_reg (bit_start_in_reg bit_count_in_reg : Z) (blob : list Z) (filled_bits : Z) : option (Z * Z) :=
  let shift_bit := filled_bits mod 8 in
  let! r :=
    (if negb (shift_bit =? 0) then
       let! b := blob_at blob filled_bits in
       let temp := Z.shiftr b shift_bit in
       let shift_bit := if 8 - shift_bit <? bit_count_in_reg then 8 - shift_bit else bit_count_in_reg in
       fill_reg_loop (Z.to_nat bit_count_in_reg) (Z.land temp (get_mask shift_bit 0)) blob (filled_bits + shift_bit)
         (bit_count_in_reg - shift_bit) shift_bit
     else fill_reg_loop (Z.to_nat bit_count_in_reg) 0 blob filled_bits bit_count_in_reg shift_bit) in
  Some (u32 (Z.shiftl (fst r) bit_start_in_reg), snd r).

Fixpoint popcount (n : nat) (x : Z) : Z :=
  match n with O => 0 | S n => popcount n x + (if Z.testbit x n then 1 else 0) end.

(** The loop of [set_cnt_in_reg] over [n] bits from [i] on. *)
Fixpoint set_cnt_loop (n : nat) (i reg_masked reg_to_write cnt : Z) : Z * Z :=
  match n with
  | O => (reg_to_write, cnt)
  | S n =>
      if Z.land reg_masked (u32 (Z.shiftl 1 i)) =? 0 then
        let reg_to_write := Z.lor reg_to_write (u32 (Z.shiftl 1 i)) in
        let cnt := u32 (cnt - 1) in
        if cnt =? 0 then (reg_to_write, cnt) else set_cnt_loop n (i + 1) reg_masked reg_to_write cnt
      else set_cnt_loop n (i + 1) reg_masked reg_to_write cnt
  end.

Definition set_cnt_in_reg (bit_start_in_reg bit_count_used_in_reg reg_masked cnt : Z) : option (Z * Z) :=
  assert! bit_start_in_reg + bit_count_used_in_reg <=? 32;;
  Some (set_cnt_loop (Z.to_nat bit_count_used_in_reg) bit_start_in_reg reg_masked 0 cnt).

(** From [esp_efuse_table.c] of the chip. *)
Definition ESP_EFUSE_SECURE_VERSION : list esp_efuse_desc_t := [Desc EFUSE_BLK0 142 16].
Definition ESP_EFUSE_SECURE_VERSION_NUM_BLOCK : nat := EFUSE_BLK0.

Section Efuse.
Context {H : Type} `{EfuseHal H}.

(** The controller, the write buffers, and the statics [s_burn_counter] and
    [s_batch_writing_mode]. *)
Record efuse_state := EfuseState {
  hw : H;
  write_mass_blocks : list (list Z);
  s_burn_counter : Z;
  s_batch_writing_mode : Z;
}.

Definition with_hw (h : H) (s : efuse_state) : efuse_state :=
  EfuseState h (write_mass_blocks s) (s_burn_counter s) (s_batch_writing_mode s).
Definition with_wr (wr : list (list Z)) (s : efuse_state) : efuse_state :=
  EfuseState (hw s) wr (s_burn_counter s) (s_batch_writing_mode s).
Definition count_burn (s : efuse_state) : efuse_state :=
  EfuseState (hw s) (write_mass_blocks s) (u32 (s_burn_counter s + 1)) (s_batch_writing_mode s).
Definition with_batch (n : Z) (s : efuse_state) : efuse_state :=
  EfuseState (hw s) (write_mass_blocks s) (s_burn_counter s) n.

(** A register of a block; [None] is a failed assertion. *)
Definition reg_of (blocks : list (list Z)) (blk num_reg : nat) : option Z := let! b := blocks !! blk in b !! num_reg.

Definition esp_efuse_utility_read_reg (blk num_reg : nat) (s : efuse_state) : option Z := reg_of (registers (hw s)) blk num_reg.

Definition write_reg (blk num_reg : nat) (value : Z) (s : efuse_state) : option efuse_state :=
  let! b := write_mass_blocks s !! blk in
  let! w := b !! num_reg in
  Some (with_wr (<[blk := <[num_reg := Z.lor w value]> b]> (write_mass_blocks s)) s).

Definition esp_efuse_utility_write_reg (blk num_reg : nat) (reg_to_write : Z) (s : efuse_state) : option (esp_err_t * efuse_state) :=
  let! reg := esp_efuse_utility_read_reg blk num_reg s in
  if negb (Z.land reg reg_to_write =? 0) then Some (ESP_ERR_EFUSE_REPEATED_PROG, s)
  else let! s := write_reg blk num_reg reg_to_write s in Some (ESP_OK, s).

(** ** What is done to each register of a field *)

(** [efuse_func_proc_t]: on the register, the block, the first bit, the bits, the
    object that [ptr] points to and [bits_counter]. *)
Definition func_proc (A : Type) : Type := nat -> nat -> Z -> Z -> A -> Z -> efuse_state -> option (esp_err_t * A * Z * efuse_state).

Definition esp_efuse_utility_fill_buff : func_proc (list Z) := fun num_reg blk bit_start bit_count blob bits_counter s =>
  let! reg := esp_efuse_utility_read_reg blk num_reg s in
  let! r := fill_buff reg bit_start bit_count blob bits_counter in
  Some (ESP_OK, fst r, snd r, s).

Definition esp_efuse_utility_count_once : func_proc Z := fun num_reg blk bit_start bit_count cnt bits_counter s =>
  let! reg := esp_efuse_utility_read_reg blk num_reg s in
  Some (ESP_OK, u32 (cnt + popcount 32 (Z.land reg (get_mask bit_count bit_start))), bits_counter + bit_count, s).

Definition esp_efuse_utility_write_blob : func_proc (list Z) := fun num_reg blk bit_start bit_count blob bits_counter s =>
  let! r := fill_reg bit_start bit_count blob bits_counter in
  let! w := esp_efuse_utility_write_reg blk num_reg (fst r) s in
  Some (fst w, blob, snd r, snd w).

Definition esp_efuse_utility_write_cnt : func_proc Z := fun num_reg blk bit_start bit_count set_bits bits_counter s =>
  let! reg := esp_efuse_utility_read_reg blk num_reg s in
  let mask := get_mask bit_count bit_start in
  let reg_masked_bits := Z.land reg mask in
  let! w := (if negb (Z.lxor reg_masked_bits mask =? 0) then
               let! r := set_cnt_in_reg bit_start bit_count reg_masked_bits set_bits in
               let! s := write_reg blk num_reg (fst r) s in Some (snd r, s)
             else Some (set_bits, s)) in
  Some (if fst w =? 0 then ESP_OK_EFUSE_CNT else ESP_OK, fst w, bits_counter + bit_count, snd w).

(** The inner loop of [esp_efuse_utility_process]; a field's run is in 256 bits,
    so in 8 registers. *)
Fixpoint process_run {A} (fuel : nat) (func : func_proc A) (d : esp_efuse_desc_t) (req_size i_reg : Z) (ptr : A) (bits_counter : Z)
    (s : efuse_state) : option (esp_err_t * A * Z * efuse_state) :=
  if req_size <=? bits_counter then Some (ESP_OK, ptr, bits_counter, s)
  else
    let num_reg := get_reg_num (bit_start d) (bit_count d) i_reg in
    if num_reg =? -1 then Some (ESP_OK, ptr, bits_counter, s)
    else
      match fuel with
      | O => None
      | S fuel =>
          let start_bit := get_starting_bit_num_in_reg (bit_start d) i_reg in
          let num_bits := get_count_bits_in_reg (bit_start d) (bit_count d) i_reg in
          let num_bits := if req_size <? bits_counter + num_bits then req_size - bits_counter else num_bits in
          let! r := func (Z.to_nat num_reg) (efuse_block d) start_bit num_bits ptr bits_counter s in
          match r with
          | (ESP_OK, ptr, bits_counter, s) => process_run fuel func d req_size (i_reg + 1) ptr bits_counter s
          | r => Some r
          end
      end.

Definition RUN_FUEL : nat := 8.

Fixpoint process_runs {A} (func : func_proc A) (field : list esp_efuse_desc_t) (req_size : Z) (ptr : A) (bits_counter : Z)
    (s : efuse_state) : option (esp_err_t * A * Z * efuse_state) :=
  match field with
  | [] => Some (ESP_OK, ptr, bits_counter, s)
  | d :: field =>
      if req_size <=? bits_counter then Some (ESP_OK, ptr, bits_counter, s)
      else if negb (check_range_of_bits (bit_start d) (bit_count d)) then Some (ESP_ERR_CODING, ptr, bits_counter, s)
      else
        let! r := process_run RUN_FUEL func d req_size 0 ptr bits_counter s in
        match r with
        | (ESP_OK, ptr, bits_counter, s) => process_runs func field req_size ptr bits_counter s
        | r => Some r
        end
  end.

(** [reading]: the function is one of the two of the read calls. No burn happens
    while this runs, so the counter does not change; it is odd during one. *)
Definition esp_efuse_utility_process {A} (func : func_proc A) (reading : bool) (field : list esp_efuse_desc_t) (ptr : A)
    (ptr_size_bits : Z) (s : efuse_state) : option (esp_err_t * A * efuse_state) :=
  let field_len := esp_efuse_get_field_size field in
  let req_size := if ptr_size_bits =? 0 then field_len else Z.min ptr_size_bits field_len in
  let! r := process_runs func field req_size ptr 0 s in
  let '(err, ptr, bits_counter, s) := r in
  let err := if is_ok err && reading && (Z.land (s_burn_counter s) 1 =? 1) then ESP_ERR_DAMAGED_READING else err in
  assert! bits_counter <=? req_size;;
  Some (err, ptr, s).

(** ** Burning *)

Definition empty_blocks : list (list Z) := map (fun n => replicate n 0) block_registers.

Definition esp_efuse_utility_clear_program_registers (s : efuse_state) : efuse_state := with_hw (efuse_hal_read (hw s)) s.

Definition esp_efuse_utility_reset (s : efuse_state) : efuse_state :=
  with_wr empty_blocks (count_burn (esp_efuse_utility_clear_program_registers (count_burn s))).

Definition esp_efuse_utility_is_correct_written_data (blk : nat) (h : H) (w_data : list Z) : bool :=
  let r_data := default [] (registers h !! blk) in
  bool_decide (w_data = r_data) || forallb (fun '(r, w) => Z.land r w =? w) (combine r_data w_data).

(** Up to five reads, until one shows a coding error. *)
Fixpoint read_errors (n : nat) (blk : nat) (h : H) (coding_error_after : bool) : H * bool :=
  match n with
  | O => (h, coding_error_after)
  | S n =>
      let h := efuse_hal_read h in
      if efuse_hal_is_coding_error_in_block h blk then (h, true) else read_errors n blk h false
  end.

(** The [do] loop of [esp_efuse_utility_burn_chip], with [n] attempts left; the
    results are [correct_written_data] and [coding_error_occurred]. *)
Fixpoint burn_attempts (n : nat) (blk : nat) (w_data : list Z) (coding_error_before : bool) (h : H) : H * bool * bool :=
  let h := efuse_hal_program h blk w_data in
  let '(h, coding_error_after) := read_errors 5 blk h false in
  let coding_error_occurred := xorb coding_error_before coding_error_after && negb coding_error_before in
  let correct_written_data := esp_efuse_utility_is_correct_written_data blk h w_data in
  match n with
  | S (S _ as n) => if negb correct_written_data || coding_error_occurred then burn_attempts n blk w_data coding_error_before h
                    else (h, correct_written_data, coding_error_occurred)
  | _ => (h, correct_written_data, coding_error_occurred)
  end.

(** The loop over the blocks, the last first. *)
Fixpoint burn_blocks (blks : list nat) (wr : list (list Z)) (h : H) (error : esp_err_t) : H * esp_err_t :=
  match blks with
  | [] => (h, error)
  | blk :: blks =>
      let w_data := default [] (wr !! blk) in
      if forallb (fun w => w =? 0) w_data then burn_blocks blks wr h error
      else if negb (is_ok error) then burn_blocks blks wr h error
      else
        let '(h, correct_written_data, coding_error_occurred) :=
          burn_attempts 3 blk w_data (efuse_hal_is_coding_error_in_block h blk) h in
        let error := if coding_error_occurred && (blk =? 0)%nat then ESP_FAIL else error in
        let error := if negb correct_written_data then ESP_FAIL else error in
        burn_blocks blks wr h error
  end.

Definition burn_order : list nat := rev (seq 0 EFUSE_BLK_MAX).

Definition esp_efuse_utility_burn_chip (s : efuse_state) : esp_err_t * efuse_state :=
  let '(h, error) := burn_blocks burn_order (write_mass_blocks s) (hw s) ESP_OK in
  (error, esp_efuse_utility_reset (with_hw h s)).

Definition esp_efuse_utility_burn_efuses (s : efuse_state) : esp_err_t * efuse_state :=
  let '(err, s) := esp_efuse_utility_burn_chip (count_burn s) in (err, count_burn s).

(** A block with the RS coding is written as a whole, once. *)
Definition esp_efuse_utility_apply_new_coding_scheme (s : efuse_state) : esp_err_t :=
  let forbidden blk :=
    match esp_efuse_get_coding_scheme blk with
    | EFUSE_CODING_SCHEME_RS =>
        existsb (fun w => negb (w =? 0)) (default [] (write_mass_blocks s !! blk)) &&
        existsb (fun r => negb (r =? 0)) (default [] (registers (hw s) !! blk))
    | EFUSE_CODING_SCHEME_NONE => false
    end in
  if existsb forbidden (seq 1 (EFUSE_BLK_MAX - 1)) then ESP_ERR_CODING else ESP_OK.

(** ** The calls; their lock is recursive and held to the end, so each is one step *)

Definition memset0 (dst : list Z) (n : nat) : option (list Z) :=
  assert! (n <=? length dst)%nat;; Some (replicate n 0 ++ drop n dst).

(** The read calls repeat a damaged reading; [None] also says that they never end. *)
Definition esp_efuse_read_field_blob (field : list esp_efuse_desc_t) (dst : list Z) (dst_size_bits : Z) (s : efuse_state) :
    option (esp_err_t * list Z) :=
  if dst_size_bits =? 0 then Some (ESP_ERR_INVALID_ARG, dst)
  else
    let! dst := memset0 dst (Z.to_nat (esp_efuse_utility_get_number_of_items dst_size_bits 8)) in
    let! r := esp_efuse_utility_process esp_efuse_utility_fill_buff true field dst dst_size_bits s in
    let '(err, dst, _) := r in
    if bool_decide (err = ESP_ERR_DAMAGED_READING) then None else Some (err, dst).

Definition esp_efuse_read_field_bit (field : list esp_efuse_desc_t) (s : efuse_state) : option bool :=
  let! r := esp_efuse_read_field_blob field [0] 1 s in
  assert! is_ok (fst r);;
  Some (negb (default 0 (snd r !! 0%nat) =? 0)).

Definition esp_efuse_read_field_cnt (field : list esp_efuse_desc_t) (s : efuse_state) : option (esp_err_t * Z) :=
  let! r := esp_efuse_utility_process esp_efuse_utility_count_once true field 0 0 s in
  let '(err, cnt, _) := r in
  if bool_decide (err = ESP_ERR_DAMAGED_READING) then None else Some (err, cnt).

(** The beginning and the end of a write call, outside batch mode. *)
Definition begin_write (s : efuse_state) : efuse_state :=
  if s_batch_writing_mode s =? 0 then esp_efuse_utility_reset s else s.

Definition end_write (err : esp_err_t) (s : efuse_state) : esp_err_t * efuse_state :=
  if s_batch_writing_mode s =? 0 then
    let '(err, s) :=
      if is_ok err then
        let err := esp_efuse_utility_apply_new_coding_scheme s in
        if is_ok err then esp_efuse_utility_burn_efuses s else (err, s)
      else (err, s) in
    (err, esp_efuse_utility_reset s)
  else (err, s).

Definition esp_efuse_write_field_blob (field : list esp_efuse_desc_t) (src : list Z) (src_size_bits : Z) (s : efuse_state) :
    option (esp_err_t * efuse_state) :=
  if src_size_bits =? 0 then Some (ESP_ERR_INVALID_ARG, s)
  else
    let! r := esp_efuse_utility_process esp_efuse_utility_write_blob false field src src_size_bits (begin_write s) in
    let '(err, _, s) := r in
    Some (end_write err s).

Definition esp_efuse_write_field_cnt (field : list esp_efuse_desc_t) (cnt : Z) (s : efuse_state) : option (esp_err_t * efuse_state) :=
  if cnt =? 0 then Some (ESP_ERR_INVALID_ARG, s)
  else
    let! r := esp_efuse_utility_process esp_efuse_utility_write_cnt false field cnt 0 (begin_write s) in
    let '(err, cnt, s) := r in
    let err := if negb (cnt =? 0) then ESP_ERR_EFUSE_CNT_IS_FULL else err in
    let err := if bool_decide (err = ESP_OK_EFUSE_CNT) then ESP_OK else err in
    Some (end_write err s).

(** [field[0]] of an empty field is a null pointer. *)
Definition esp_efuse_write_field_bit (field : list esp_efuse_desc_t) (s : efuse_state) : option (esp_err_t * efuse_state) :=
  let! d := field !! 0%nat in
  if negb (bit_count d =? 1) then Some (ESP_ERR_INVALID_ARG, s)
  else
    let! r := esp_efuse_read_field_blob field [0] 1 s in
    if negb (is_ok (fst r)) || negb (default 0 (snd r !! 0%nat) =? 0) then Some (fst r, s)
    else esp_efuse_write_field_blob field [1] 1 s.

(** A run as the block calls build it: the members are 8 and 16 bits wide. *)
Definition block_field (blk : nat) (offset_in_bits size_bits : Z) : list esp_efuse_desc_t :=
  [Desc blk (u8 offset_in_bits) (u16 size_bits)].

Definition bad_block (blk : nat) (size_bits : Z) : bool :=
  (blk =? EFUSE_BLK0)%nat || (EFUSE_BLK_MAX <=? blk)%nat || (size_bits =? 0).

Definition esp_efuse_read_block (blk : nat) (dst_key : list Z) (offset_in_bits size_bits : Z) (s : efuse_state) :
    option (esp_err_t * list Z) :=
  if bad_block blk size_bits then Some (ESP_ERR_INVALID_ARG, dst_key)
  else esp_efuse_read_field_blob (block_field blk offset_in_bits size_bits) dst_key size_bits s.

Definition esp_efuse_write_block (blk : nat) (src_key : list Z) (offset_in_bits size_bits : Z) (s : efuse_state) :
    option (esp_err_t * efuse_state) :=
  if bad_block blk size_bits then Some (ESP_ERR_INVALID_ARG, s)
  else esp_efuse_write_field_blob (block_field blk offset_in_bits size_bits) src_key size_bits s.

Definition esp_efuse_read_reg (blk num_reg : nat) (s : efuse_state) : option Z :=
  let! r := esp_efuse_read_block blk (replicate 4 0) (u32 (num_reg * 32)) 32 s in
  assert! is_ok (fst r);;
  Some (le_value (snd r)).

Definition esp_efuse_write_reg (blk num_reg : nat) (val : Z) (s : efuse_state) : option (esp_err_t * efuse_state) :=
  let! r := esp_efuse_utility_write_reg blk num_reg val (begin_write s) in
  Some (end_write (fst r) (snd r)).

Definition esp_efuse_batch_write_begin (s : efuse_state) : option (esp_err_t * efuse_state) :=
  assert! 0 <=? s_batch_writing_mode s;;
  let s := with_batch (s_batch_writing_mode s + 1) s in
  Some (ESP_OK, if s_batch_writing_mode s =? 1 then esp_efuse_utility_reset s else s).

Definition esp_efuse_batch_write_cancel (s : efuse_state) : esp_err_t * efuse_state :=
  if s_batch_writing_mode s =? 0 then (ESP_ERR_INVALID_STATE, s)
  else
    let s := with_batch (s_batch_writing_mode s - 1) s in
    (ESP_OK, if s_batch_writing_mode s =? 0 then esp_efuse_utility_reset s else s).

Definition esp_efuse_batch_write_commit (s : efuse_state) : esp_err_t * efuse_state :=
  if s_batch_writing_mode s =? 0 then (ESP_ERR_INVALID_STATE, s)
  else
    let s := with_batch (s_batch_writing_mode s - 1) s in
    if s_batch_writing_mode s =? 0 then
      let err := esp_efuse_utility_apply_new_coding_scheme s in
      if is_ok err then esp_efuse_utility_burn_efuses s else (err, esp_efuse_utility_reset s)
    else (ESP_OK, s).

(** ** The secure version: as many ones as the version says *)

Context (APP_SEC_VER_SIZE_EFUSE_FIELD : Z).

Definition secure_version_size : Z := Z.min APP_SEC_VER_SIZE_EFUSE_FIELD (esp_efuse_get_field_size ESP_EFUSE_SECURE_VERSION).

Definition esp_efuse_read_secure_version (s : efuse_state) : option Z :=
  let! r := esp_efuse_read_field_blob ESP_EFUSE_SECURE_VERSION (replicate 4 0) secure_version_size s in
  Some (popcount 32 (Z.land (le_value (snd r)) (Z.shiftl 1 secure_version_size - 1))).

Definition esp_efuse_check_secure_version (secure_version : Z) (s : efuse_state) : option bool :=
  let! sec_ver_hw := esp_efuse_read_secure_version s in Some (sec_ver_hw <=? secure_version).

Definition esp_efuse_update_secure_version (secure_version : Z) (s : efuse_state) : option (esp_err_t * efuse_state) :=
  if secure_version_size <? secure_version then Some (ESP_ERR_INVALID_ARG, s)
  else
    match esp_efuse_get_coding_scheme ESP_EFUSE_SECURE_VERSION_NUM_BLOCK with
    | EFUSE_CODING_SCHEME_RS => Some (ESP_ERR_NOT_SUPPORTED, s)
    | EFUSE_CODING_SCHEME_NONE =>
        let! sec_ver_hw := esp_efuse_read_secure_version s in
        if sec_ver_hw <? secure_version then
          let num_bit_hw := u32 (Z.shiftl 1 sec_ver_hw - 1) in
          let num_bit_app := u32 (Z.shiftl 1 secure_version - 1) in
          let new_bits := u32 (num_bit_app - num_bit_hw) in
          let! r := esp_efuse_write_field_blob ESP_EFUSE_SECURE_VERSION (le_bytes 4 new_bits) secure_version_size s in
          Some (ESP_OK, snd r)
        else if secure_version <? sec_ver_hw then Some (ESP_FAIL, s)
        else Some (ESP_OK, s)
    end.

End Efuse.

Arguments efuse_state : clear implicits.
