(* ===== verification/EfuseFields.v ===== *)
(** * The bits of eFuse fields

    [field_bits] lists the places of a field's bits. The functions of
    [EspEfuse] that work on a register at a time treat these bits in order:
    [process_spec] reduces a property of a whole field to one step. *)

From S2P Require Import Prelude EspErr EspEfuse.

(** A bit of the blocks: the block, and the place in it. *)
Definition block_bit (blocks : list (list Z)) (p : nat * Z) : bool :=
  match reg_of blocks (fst p) (Z.to_nat (snd p / 32)) with Some w => Z.testbit w (snd p mod 32) | None => false end.

Definition run_bits (d : esp_efuse_desc_t) : list (nat * Z) := (fun k => (efuse_block d, bit_start d + Z.of_nat k)) <$> seq 0 (Z.to_nat (bit_count d)).

Definition field_bits (field : list esp_efuse_desc_t) : list (nat * Z) := field ≫= run_bits.

Definition blob_bit (blob : list Z) (j : Z) : bool :=
  match blob_at blob j with Some b => Z.testbit b (j mod 8) | None => false end.

(** A run that is in its block. *)
Definition run_ok (d : esp_efuse_desc_t) : Prop :=
  0 <= bit_start d /\ 0 < bit_count d /\
  exists n : nat, block_registers !! efuse_block d = Some n /\ bit_start d + bit_count d <= 32 * n.

(** ** One register *)

Lemma testbit_shiftl_1_sub n i : 0 <= n -> 0 <= i -> Z.testbit (Z.shiftl 1 n - 1) i = (i <? n).
Proof.
  intros Hn Hi. rewrite Z.shiftl_1_l, Z.sub_1_r, <- Z.ones_equiv. rewrite Z.testbit_ones_nonneg by lia. done.
Qed.

Lemma get_mask_bits n shift i : 0 <= n <= 32 -> 0 <= shift -> 0 <= i ->
  Z.testbit (get_mask n shift) i = (shift <=? i) && (i <? shift + n) && (i <? 32).
Proof.
  intros Hn Hs Hi. unfold get_mask. rewrite wrap_testbit by lia. rewrite Z.shiftl_spec by lia.
  destruct (Z.ltb_spec i 32); [|by rewrite !andb_false_r]. rewrite andb_true_r. cbn [andb].
  destruct (Z.leb_spec shift i); cbn [andb]; [|by rewrite Z.testbit_neg_r by lia].
  destruct (Z.eqb_spec n 32) as [->|].
  - change 0xFFFFFFFF with (Z.ones 32). rewrite Z.testbit_ones_nonneg by lia. by destruct (Z.ltb_spec (i - shift) 32), (Z.ltb_spec i (shift + 32)); lia || done.
  - rewrite wrap_testbit, testbit_shiftl_1_sub by lia.
    by destruct (Z.ltb_spec (i - shift) 32), (Z.ltb_spec (i - shift) n), (Z.ltb_spec i (shift + n)); lia || done.
Qed.

Lemma count_bits_loop_spec n : forall start nb last i ret,
  Z.of_nat n = last - nb + 1 -> 0 <= start <= nb -> nb <= last -> nb / 32 <= start / 32 + i -> start / 32 + i <= last / 32 ->
  ret = nb - Z.max start (32 * (nb / 32)) ->
  count_bits_loop n nb last i (nb / 32 - start / 32) ret =
  Z.min (last + 1) (32 * (start / 32 + i + 1)) - Z.max start (32 * (start / 32 + i)).
Proof.
  induction n as [|n IH]; intros start nb last i ret Hn Hs Hl Hi Hi' ->; [lia|]. cbn [count_bits_loop].
  destruct (Z.eqb_spec ((nb + 1) mod 32) 0) as [E|E], (Z.eqb_spec nb last) as [E'|E']; cbn [orb].
  1-3: destruct (Z.eqb_spec i (nb / 32 - start / 32)) as [->|Hne].
  1, 3, 5: Z.to_euclidean_division_equations; lia.
  1, 3: exfalso; subst; lia.
  - replace (nb / 32 - start / 32 + 1) with ((nb + 1) / 32 - start / 32) by (Z.to_euclidean_division_equations; lia).
    apply IH; Z.to_euclidean_division_equations; lia.
  - replace (nb / 32 - start / 32) with ((nb + 1) / 32 - start / 32) by (Z.to_euclidean_division_equations; lia).
    apply IH; Z.to_euclidean_division_equations; lia.
Qed.

(** The bits of register [i_reg] of a run. *)
Lemma get_count_bits_spec start cnt i : 0 <= start -> 0 < cnt -> 0 <= i -> start / 32 + i <= (start + cnt - 1) / 32 ->
  get_count_bits_in_reg start cnt i = Z.min (start + cnt) (32 * (start / 32 + i + 1)) - Z.max start (32 * (start / 32 + i)).
Proof.
  intros Hs Hc Hi Hl. unfold get_count_bits_in_reg. replace 0 with (start / 32 - start / 32) at 1 by lia.
  rewrite (count_bits_loop_spec _ start start); [f_equal; lia|lia|lia|lia|lia|exact Hl|]. Z.to_euclidean_division_equations; lia.
Qed.

(** ** Bytes *)

Lemma blob_at_some blob j : 0 <= j -> j < 8 * length blob -> is_Some (blob_at blob j).
Proof. intros Hj Hl. apply lookup_lt_is_Some. apply Nat2Z.inj_lt. rewrite Z2Nat.id by (Z.to_euclidean_division_equations; lia). Z.to_euclidean_division_equations; lia. Qed.

Lemma blob_or_spec blob c x : 0 <= c < 8 * length blob ->
  exists blob', blob_or blob c x = Some blob' /\ length blob' = length blob /\
    forall j, 0 <= j -> blob_bit blob' j = blob_bit blob j || ((j / 8 =? c / 8) && Z.testbit x (j mod 8)).
Proof.
  intros Hc. unfold blob_or. destruct (blob_at_some blob c) as [b Hb]; [lia|lia|]. rewrite Hb. eexists. split; [reflexivity|].
  split; [apply length_insert|]. intros j Hj. unfold blob_bit, blob_at in *. destruct (Z.eqb_spec (j / 8) (c / 8)) as [->|Hne].
  - rewrite list_lookup_insert_eq by (by apply lookup_lt_Some in Hb). rewrite Hb, Z.lor_spec, wrap_testbit by (Z.to_euclidean_division_equations; lia).
    replace (j mod 8 <? 8) with true; [done|]. symmetry. apply Z.ltb_lt. Z.to_euclidean_division_equations; lia.
  - cbn [andb]. rewrite orb_false_r, list_lookup_insert_ne; [done|]. intros E. apply Hne. apply Z2Nat.inj in E; Z.to_euclidean_division_equations; lia.
Qed.

Lemma fill_buff_loop_spec (fuel : nat) : forall v blob c bc shift sum,
  0 <= c -> (bc = 0 \/ c mod 8 = 0) -> 0 <= bc <= fuel -> 0 <= sum + shift -> in_range (sum + shift + bc) v -> c + bc <= 8 * length blob ->
  exists blob', fill_buff_loop fuel v blob c bc shift sum = Some (blob', c + bc) /\ length blob' = length blob /\
    forall j, 0 <= j -> blob_bit blob' j = blob_bit blob j || ((c <=? j) && Z.testbit v (j - c + (sum + shift))).
Proof.
  induction fuel as [|fuel IH]; intros v blob c bc shift sum Hc Hm Hbc Ho Hv Hl; cbn [fill_buff_loop].
  1: assert (bc = 0) as -> by lia.
  2: destruct (Z.leb_spec bc 0) as [Hz|Hpos]; [assert (bc = 0) as -> by lia|].
  1-2: exists blob; rewrite Z.add_0_r in *; split; [done|]; split; [done|]; intros j Hj; destruct (Z.leb_spec c j); cbn [andb];
    [rewrite (in_range_testbit _ v _ Hv) by lia|]; by rewrite orb_false_r.
  destruct Hm as [|Hm]; [lia|]. set (o := sum + shift) in *.
  destruct (blob_or_spec blob c (Z.shiftr v o)) as (b1 & -> & Hl1 & Hb1); [lia|].
  set (sb := if 8 <? bc then 8 else bc). assert (Hsb : 0 < sb <= 8 /\ sb <= bc /\ (sb = 8 \/ sb = bc)) by (subst sb; destruct (Z.ltb_spec 8 bc); lia).
  destruct (IH v b1 (c + sb) (bc - sb) sb o) as (b2 & -> & Hl2 & Hb2); [lia| |lia|lia| |lia|].
  { destruct Hsb as (_ & _ & [->| ->]); [right|left; lia]. Z.to_euclidean_division_equations; lia. }
  { by replace (o + sb + (bc - sb)) with (o + bc) by lia. }
  exists b2. split; [do 2 f_equal; lia|]. split; [congruence|]. intros j Hj. rewrite Hb2, Hb1 by done. rewrite <- orb_assoc. f_equal.
  replace (j - (c + sb) + (o + sb)) with (j - c + o) by lia. rewrite Z.shiftr_spec by (Z.to_euclidean_division_equations; lia).
  destruct (Z.eqb_spec (j / 8) (c / 8)) as [E|E]; cbn [andb].
  - replace (j mod 8 + o) with (j - c + o) by (Z.to_euclidean_division_equations; lia).
    replace (c <=? j) with true by (symmetry; apply Z.leb_le; Z.to_euclidean_division_equations; lia). cbn [andb].
    destruct (c + sb <=? j); cbn [andb]; by rewrite ?orb_diag, ?orb_false_r.
  - cbn [orb]. destruct (Z.leb_spec (c + sb) j), (Z.leb_spec c j); cbn [andb]; try done; [lia|exfalso].
    destruct Hsb as (Hsb8 & _ & _). clearbody sb o. Z.to_euclidean_division_equations; lia.
Qed.

(** The bits of a register that a run uses, from bit 0 on. *)
Lemma masked_bits reg start num k : 0 <= start -> 0 < num <= 32 -> 0 <= k ->
  Z.testbit (Z.land (Z.shiftr reg start) (get_mask num 0)) k = (k <? num) && Z.testbit reg (start + k).
Proof.
  intros Hs Hn Hk. rewrite Z.land_spec, Z.shiftr_spec, get_mask_bits by lia. rewrite Z.add_0_l, (Z.add_comm k).
  replace (0 <=? k) with true by (symmetry; apply Z.leb_le; lia). cbn [andb].
  destruct (Z.ltb_spec k num), (Z.ltb_spec k 32); cbn [andb]; rewrite ?andb_true_r, ?andb_false_r; done || lia.
Qed.

Lemma masked_range reg start num : 0 <= start -> 0 < num <= 32 -> in_range num (Z.land (Z.shiftr reg start) (get_mask num 0)).
Proof.
  intros Hs Hn. apply in_range_bits; [lia|apply Z.land_nonneg; right; apply wrap_range; lia|]. intros k Hk.
  rewrite masked_bits by lia. destruct (Z.ltb_spec k num); [lia|done].
Qed.

Lemma fill_buff_spec reg start num blob c : 0 <= start -> 0 < num -> start + num <= 32 -> 0 <= c -> c + num <= 8 * length blob ->
  exists blob', fill_buff reg start num blob c = Some (blob', c + num) /\ length blob' = length blob /\
    forall j, 0 <= j -> blob_bit blob' j = blob_bit blob j || ((c <=? j) && (j <? c + num) && Z.testbit reg (start + (j - c))).
Proof.
  intros Hs Hn Hsn Hc Hl. unfold fill_buff. set (v := Z.land (Z.shiftr reg start) (get_mask num 0)).
  pose proof (masked_range reg start num Hs ltac:(lia)) as Hv. fold v in Hv.
  assert (Hbit : forall j, 0 <= j -> (c <=? j) && Z.testbit v (j - c) = (c <=? j) && (j <? c + num) && Z.testbit reg (start + (j - c))).
  { intros j Hj. destruct (Z.leb_spec c j); [|done]. cbn [andb]. subst v. rewrite masked_bits by lia.
    by destruct (Z.ltb_spec (j - c) num), (Z.ltb_spec j (c + num)); lia || done. }
  destruct (Z.eqb_spec (c mod 8) 0) as [E|E]; cbn [negb].
  - destruct (fill_buff_loop_spec (Z.to_nat num) v blob c num (c mod 8) 0) as (b & -> & Hlb & Hb); [lia|by right|lia|lia|by rewrite E|lia|].
    exists b. split; [done|]. split; [done|]. intros j Hj. rewrite Hb, E, Z.add_0_r by done. by rewrite Hbit.
  - set (sh := c mod 8) in *. assert (Hsh : 0 < sh < 8) by (subst sh; Z.to_euclidean_division_equations; lia).
    destruct (blob_or_spec blob c (Z.shiftl v sh)) as (b1 & -> & Hl1 & Hb1); [lia|].
    set (sb := if 8 - sh <? num then 8 - sh else num). assert (Hsb : 0 < sb /\ (sb = 8 - sh /\ sb <= num \/ sb = num /\ num <= 8 - sh)) by (subst sb; destruct (Z.ltb_spec (8 - sh) num); lia).
    destruct (fill_buff_loop_spec (Z.to_nat num) v b1 (c + sb) (num - sb) sb 0) as (b2 & -> & Hl2 & Hb2); [lia| |lia|lia| |lia|].
    { destruct Hsb as (_ & [[-> _]|[-> _]]); [right|left; lia]. subst sh. Z.to_euclidean_division_equations; lia. }
    { by replace (0 + sb + (num - sb)) with num by lia. }
    exists b2. split; [do 2 f_equal; lia|]. split; [congruence|]. intros j Hj. rewrite Hb2, Hb1 by done. rewrite <- orb_assoc, <- Hbit by done. f_equal.
    replace (j - (c + sb) + (0 + sb)) with (j - c) by lia. rewrite Z.shiftl_spec by (Z.to_euclidean_division_equations; lia).
    destruct (Z.eqb_spec (j / 8) (c / 8)) as [Ej|Ej]; cbn [andb].
    + replace (j mod 8 - sh) with (j - c) by (subst sh; Z.to_euclidean_division_equations; lia).
      destruct (Z.leb_spec (c + sb) j), (Z.leb_spec c j); cbn [andb]; rewrite ?orb_diag, ?orb_false_r; try done; [lia|by rewrite Z.testbit_neg_r by lia].
    + cbn [orb]. destruct (Z.leb_spec (c + sb) j), (Z.leb_spec c j); cbn [andb]; try done; [lia|].
      rewrite (in_range_testbit num v) by (done || lia || (subst sh; Z.to_euclidean_division_equations; lia)). done.
Qed.

(** The bytes stay bytes. *)
Lemma blob_or_range blob c x blob' : Forall (in_range 8) blob -> blob_or blob c x = Some blob' -> Forall (in_range 8) blob'.
Proof.
  unfold blob_or. destruct (blob_at blob c) as [b|] eqn:Eb; [|done]. intros Hr [= <-]. apply Forall_insert; [done|].
  pose proof (Forall_lookup_1 _ _ _ _ Hr Eb) as Hb. pose proof (wrap_range 8 x ltac:(lia)) as Hx. unfold in_range in Hb, Hx.
  apply in_range_bits; [lia|apply Z.lor_nonneg; lia|]. intros i Hi. by rewrite Z.lor_spec, !(in_range_testbit 8).
Qed.

Lemma fill_buff_range reg start num blob c blob' c' : Forall (in_range 8) blob -> fill_buff reg start num blob c = Some (blob', c') ->
  Forall (in_range 8) blob'.
Proof.
  assert (Hloop : forall fuel v blob c bc shift sum, Forall (in_range 8) blob ->
    fill_buff_loop fuel v blob c bc shift sum = Some (blob', c') -> Forall (in_range 8) blob').
  { induction fuel as [|fuel IH]; intros v bl k bc shift sum Hr; cbn [fill_buff_loop]; (destruct (bc <=? 0); [by intros [= <- _]|]); [done|].
    destruct (blob_or bl k _) as [b1|] eqn:E; [|done]. intros Hl. eapply IH; [|exact Hl]. by eapply blob_or_range. }
  intros Hr. unfold fill_buff. destruct (negb _); [|by apply Hloop].
  destruct (blob_or blob c _) as [b1|] eqn:E; [|done]. apply Hloop. by eapply blob_or_range.
Qed.

Lemma le_bytes_bits (n : nat) : forall x j, 0 <= j < 8 * n -> blob_bit (le_bytes n x) j = Z.testbit x j.
Proof.
  unfold blob_bit, blob_at. induction n as [|n IH]; intros x j Hj; [lia|]. cbn [le_bytes].
  destruct (Z.lt_ge_cases j 8) as [Hlt|Hge].
  - replace (Z.to_nat (j / 8)) with 0%nat by (Z.to_euclidean_division_equations; lia). cbn [lookup list_lookup].
    replace (j mod 8) with j by (Z.to_euclidean_division_equations; lia). change 256 with (2 ^ 8). apply Z.mod_pow2_bits_low. lia.
  - replace (Z.to_nat (j / 8)) with (S (Z.to_nat ((j - 8) / 8))) by (Z.to_euclidean_division_equations; lia). cbn [lookup list_lookup].
    replace (j mod 8) with ((j - 8) mod 8) by (Z.to_euclidean_division_equations; lia). etrans; [exact (IH (x / 256) (j - 8) ltac:(lia))|].
    change 256 with (2 ^ 8). rewrite <- Z.shiftr_div_pow2, Z.shiftr_spec by lia. f_equal. lia.
Qed.

Lemma byte_bits blob c b k n : blob_at blob c = Some b -> 0 <= c -> c mod 8 = 0 -> 0 <= k < n -> 0 < n <= 8 ->
  Z.testbit (Z.land b (get_mask n 0)) k = blob_bit blob (c + k).
Proof.
  intros Hb Hc Hm Hk Hn. rewrite Z.land_spec, get_mask_bits by lia. unfold blob_bit, blob_at in *.
  replace ((c + k) / 8) with (c / 8) by (Z.to_euclidean_division_equations; lia). rewrite Hb.
  replace ((c + k) mod 8) with k by (Z.to_euclidean_division_equations; lia).
  by destruct (Z.leb_spec 0 k), (Z.ltb_spec k (0 + n)), (Z.ltb_spec k 32); cbn [andb]; rewrite ?andb_true_r; lia || done.
Qed.

Lemma masked_high b n k : 0 <= n <= 32 -> n <= k -> Z.testbit (Z.land b (get_mask n 0)) k = false.
Proof. intros Hn Hk. rewrite Z.land_spec, get_mask_bits by lia. destruct (Z.ltb_spec k (0 + n)); [lia|]. by rewrite !andb_false_r. Qed.

Lemma fill_reg_loop_spec (fuel : nat) : forall reg blob c bc shift,
  0 <= c -> (bc = 0 \/ c mod 8 = 0 /\ shift + bc <= 32) -> 0 <= bc <= fuel -> 0 <= shift -> c + bc <= 8 * length blob ->
  exists r, fill_reg_loop fuel reg blob c bc shift = Some (r, c + bc) /\
    forall i, 0 <= i -> Z.testbit r i = Z.testbit reg i || ((shift <=? i) && (i <? shift + bc) && blob_bit blob (c + (i - shift))).
Proof.
  induction fuel as [|fuel IH]; intros reg blob c bc shift Hc Hm Hbc Hs Hl; cbn [fill_reg_loop].
  1: assert (bc = 0) as -> by lia.
  2: destruct (Z.leb_spec bc 0) as [Hz|Hpos]; [assert (bc = 0) as -> by lia|].
  1-2: exists reg; split; [by rewrite Z.add_0_r|]; intros i Hi; destruct (Z.leb_spec shift i), (Z.ltb_spec i (shift + 0)); cbn [andb]; [lia|..]; by rewrite orb_false_r.
  destruct Hm as [|[Hm Hw]]; [lia|]. destruct (blob_at_some blob c) as [b Hb]; [lia|lia|]. rewrite Hb.
  set (sb := if 8 <? bc then 8 else bc). assert (Hsb : 0 < sb <= 8 /\ sb <= bc /\ (sb = 8 \/ sb = bc)) by (subst sb; destruct (Z.ltb_spec 8 bc); lia).
  clearbody sb. destruct (IH (Z.lor reg (u32 (Z.shiftl (Z.land b (get_mask sb 0)) shift))) blob (c + sb) (bc - sb) (shift + 8)) as (r & -> & Hr);
    [lia| |lia|lia|lia|].
  { destruct Hsb as (_ & _ & [->| ->]); [right|left; lia]. split; [Z.to_euclidean_division_equations; lia|lia]. }
  exists r. split; [do 2 f_equal; lia|]. intros i Hi. rewrite Hr by done. rewrite Z.lor_spec, <- orb_assoc. f_equal.
  rewrite wrap_testbit, Z.shiftl_spec by lia. replace (c + sb + (i - (shift + 8))) with (c + (i - shift) + (sb - 8)) by lia.
  destruct (Z.leb_spec shift i) as [Hsi|Hsi]; cbn [andb].
  2: { rewrite Z.testbit_neg_r, andb_false_r by lia. destruct (Z.leb_spec (shift + 8) i); [lia|done]. }
  destruct (Z.lt_ge_cases (i - shift) sb) as [Hin|Hout].
  - rewrite (byte_bits blob c b (i - shift) sb) by (done || lia). destruct (Z.ltb_spec i 32), (Z.ltb_spec i (shift + bc)), (Z.leb_spec (shift + 8) i);
      cbn [andb]; try lia. by rewrite orb_false_r.
  - rewrite masked_high, andb_false_r by lia. cbn [orb]. destruct Hsb as (_ & _ & [->| ->]).
    + rewrite Z.sub_diag, Z.add_0_r. by destruct (Z.leb_spec (shift + 8) i), (Z.ltb_spec i (shift + 8 + (bc - 8))), (Z.ltb_spec i (shift + bc)); cbn [andb]; lia || done.
    + by destruct (Z.leb_spec (shift + 8) i), (Z.ltb_spec i (shift + 8 + (bc - bc))), (Z.ltb_spec i (shift + bc)); cbn [andb]; lia || done.
Qed.

Lemma fill_reg_spec start num blob c : 0 <= start -> 0 < num -> start + num <= 32 -> 0 <= c -> c + num <= 8 * length blob ->
  exists w, fill_reg start num blob c = Some (w, c + num) /\ in_range 32 w /\
    forall i, 0 <= i -> Z.testbit w i = (start <=? i) && (i <? start + num) && blob_bit blob (c + (i - start)).
Proof.
  intros Hs Hn Hsn Hc Hl. unfold fill_reg.
  assert (Hr : exists r, (if negb (c mod 8 =? 0) then match blob_at blob c with
      | Some b => fill_reg_loop (Z.to_nat num) (Z.land (Z.shiftr b (c mod 8)) (get_mask (if 8 - c mod 8 <? num then 8 - c mod 8 else num) 0)) blob
          (c + (if 8 - c mod 8 <? num then 8 - c mod 8 else num)) (num - (if 8 - c mod 8 <? num then 8 - c mod 8 else num))
          (if 8 - c mod 8 <? num then 8 - c mod 8 else num)
      | None => None end else fill_reg_loop (Z.to_nat num) 0 blob c num (c mod 8)) = Some (r, c + num) /\
    forall i, 0 <= i -> Z.testbit r i = (i <? num) && blob_bit blob (c + i)).
  { destruct (Z.eqb_spec (c mod 8) 0) as [E|E]; cbn [negb].
    - destruct (fill_reg_loop_spec (Z.to_nat num) 0 blob c num (c mod 8)) as (r & -> & Hr); [lia|right; lia|lia|lia|lia|].
      exists r. split; [done|]. intros i Hi. rewrite Hr, E, Z.bits_0 by done. cbn [orb]. rewrite Z.add_0_l, Z.sub_0_r.
      by destruct (Z.leb_spec 0 i); [|lia].
    - set (sh := c mod 8) in *. assert (Hsh : 0 < sh < 8) by (subst sh; Z.to_euclidean_division_equations; lia).
      set (sb := if 8 - sh <? num then 8 - sh else num).
      assert (Hsb : 0 < sb /\ sb <= num /\ sb <= 8 - sh /\ (sb = 8 - sh \/ sb = num)) by (subst sb; destruct (Z.ltb_spec (8 - sh) num); lia).
      clearbody sb. destruct (blob_at_some blob c) as [b Hb]; [lia|lia|]. rewrite Hb.
      destruct (fill_reg_loop_spec (Z.to_nat num) (Z.land (Z.shiftr b sh) (get_mask sb 0)) blob (c + sb) (num - sb) sb) as (r & -> & Hr); [lia| |lia|lia|lia|].
      { destruct Hsb as (_ & _ & _ & [->| ->]); [right|left; lia]. split; [subst sh; Z.to_euclidean_division_equations; lia|lia]. }
      exists r. split; [do 2 f_equal; lia|]. intros i Hi. rewrite Hr, masked_bits by lia.
      replace (c + sb + (i - sb)) with (c + i) by lia.
      destruct (Z.ltb_spec i sb) as [Hlt|Hge]; cbn [andb].
      + replace (sb <=? i) with false by (symmetry; apply Z.leb_gt; lia). cbn [andb]. rewrite orb_false_r.
        replace (i <? num) with true by (symmetry; apply Z.ltb_lt; lia). cbn [andb]. unfold blob_bit, blob_at in *.
        replace ((c + i) / 8) with (c / 8) by (subst sh; Z.to_euclidean_division_equations; lia). rewrite Hb. f_equal.
        subst sh. Z.to_euclidean_division_equations; lia.
      + replace (sb <=? i) with true by (symmetry; apply Z.leb_le; lia). by replace (sb + (num - sb)) with num by lia. }
  destruct Hr as (r & E & Hr). unfold blob_at in *. rewrite E. cbn [fst snd]. eexists. split; [reflexivity|]. split; [apply wrap_range; lia|].
  intros i Hi. rewrite wrap_testbit, Z.shiftl_spec by lia. destruct (Z.leb_spec start i) as [|].
  - rewrite Hr by lia. by destruct (Z.ltb_spec i 32), (Z.ltb_spec (i - start) num), (Z.ltb_spec i (start + num)); cbn [andb]; lia || done.
  - rewrite Z.testbit_neg_r by lia. by rewrite andb_false_r.
Qed.

(** ** A whole field *)

Definition run_slice (d : esp_efuse_desc_t) (m n : nat) : list (nat * Z) := (fun k => (efuse_block d, bit_start d + Z.of_nat k)) <$> seq m n.

Lemma run_slice_length d m n : length (run_slice d m n) = n.
Proof. unfold run_slice. by rewrite length_fmap, length_seq. Qed.

Lemma run_bits_slice d m : drop m (run_bits d) = run_slice d m (Z.to_nat (bit_count d) - m).
Proof. unfold run_bits, run_slice. by rewrite <- fmap_drop, drop_seq. Qed.

Lemma run_slice_app d m n1 n2 : run_slice d m (n1 + n2) = run_slice d m n1 ++ run_slice d (m + n1) n2.
Proof. unfold run_slice. by rewrite seq_app, fmap_app. Qed.

Lemma run_slice_take d m n k : take k (run_slice d m n) = run_slice d m (k `min` n).
Proof. unfold run_slice. by rewrite <- fmap_take, take_seq. Qed.

Lemma field_size_bits field : Forall run_ok field -> esp_efuse_get_field_size field = length (field_bits field).
Proof.
  induction 1 as [|d field (_ & Hc & _) _ IH]; [done|]. cbn [esp_efuse_get_field_size]. rewrite IH. unfold field_bits. cbn [mbind list_bind].
  rewrite length_app. unfold run_bits at 2. rewrite length_fmap, length_seq. unfold field_bits. lia.
Qed.

Section Process.
Context {H A : Type} `{EfuseHal H} (func : func_proc (H := H) A) (req : Z).
Context (P : list (nat * Z) -> A -> efuse_state H -> Prop) (Q : list (nat * Z) -> esp_err_t -> A -> efuse_state H -> Prop).

(** [ps] is done, or an error has stopped it after some of it. *)
Definition processed (ps : list (nat * Z)) (r : option (esp_err_t * A * Z * efuse_state H)) : Prop :=
  match r with
  | Some (ESP_OK, ptr, c, s) => c = length ps /\ P ps ptr s
  | Some (e, ptr, c, s) => c <= req /\ exists ps', ps' `prefix_of` ps /\ Q ps' e ptr s
  | None => False
  end.

Lemma processed_error ps ps' e ptr c s : is_ok e = false -> ps `prefix_of` ps' ->
  processed ps (Some (e, ptr, c, s)) -> processed ps' (Some (e, ptr, c, s)).
Proof. intros He Hp. destruct e; try done; intros (Hc & qs & Hq & HQ); split; try done; exists qs; (split; [by etrans|done]). Qed.

(** What one step must do. *)
Definition step_ok : Prop := forall ps d m (n : nat) ptr s,
  run_ok d -> (m + n <= Z.to_nat (bit_count d))%nat -> (0 < n)%nat -> length ps + n <= req ->
  (bit_start d + m) mod 32 + n <= 32 -> P ps ptr s ->
  processed (ps ++ run_slice d m n)
    (func (Z.to_nat ((bit_start d + m) / 32)) (efuse_block d) ((bit_start d + m) mod 32) n ptr (length ps) s).

Context (Hstep : step_ok).

Lemma process_run_spec d (fuel : nat) : run_ok d -> forall i ps ptr s,
  0 <= i -> (bit_start d + bit_count d - 1) / 32 < bit_start d / 32 + i + fuel -> length ps <= req -> P ps ptr s ->
  let m := Z.to_nat (Z.max (bit_start d) (32 * (bit_start d / 32 + i)) - bit_start d) in
  processed (ps ++ take (Z.to_nat req - length ps) (drop m (run_bits d))) (process_run fuel func d req i ptr (length ps) s).
Proof.
  intros Hd. pose proof Hd as (Hbs & Hcnt & _). induction fuel as [|fuel IH]; intros i ps ptr s Hi Hfuel Hlen HP m; cbn [process_run];
    (destruct (Z.leb_spec req (length ps)) as [Hreq|Hreq];
      [replace (Z.to_nat req - length ps)%nat with 0%nat by lia; cbn [take]; by rewrite app_nil_r|]);
    unfold get_reg_num; rewrite Z.quot_div_nonneg by lia;
    (destruct (Z.ltb_spec ((bit_start d + bit_count d - 1) / 32) (i + bit_start d / 32)) as [Hend|Hmore];
      [cbn [Z.eqb]; rewrite run_bits_slice; replace (Z.to_nat (bit_count d) - m)%nat with 0%nat by (subst m; Z.to_euclidean_division_equations; lia);
       unfold run_slice; cbn [seq fmap list_fmap]; by rewrite take_nil, app_nil_r|]); [lia|].
  replace (i + bit_start d / 32 =? -1) with false by (symmetry; apply Z.eqb_neq; Z.to_euclidean_division_equations; lia).
  rewrite get_count_bits_spec by lia. set (cur := Z.max (bit_start d) (32 * (bit_start d / 32 + i))) in *.
  set (num := Z.min (bit_start d + bit_count d) (32 * (bit_start d / 32 + i + 1)) - cur).
  assert (Hcur : cur = bit_start d + m /\ cur / 32 = i + bit_start d / 32 /\ 0 < num /\ cur mod 32 + num <= 32 /\ cur + num <= bit_start d + bit_count d)
    by (subst m num cur; Z.to_euclidean_division_equations; lia).
  destruct Hcur as (Hm & Hdiv & Hnum & Hfit & Hlast).
  assert (Hst : get_starting_bit_num_in_reg (bit_start d) i = cur mod 32).
  { unfold get_starting_bit_num_in_reg. subst cur. destruct (Z.eqb_spec i 0) as [->|]; Z.to_euclidean_division_equations; lia. }
  rewrite Hst, <- Hdiv. set (n' := if req <? length ps + num then req - length ps else num).
  assert (Hn' : 0 < n' <= num /\ length ps + n' <= req /\ (length ps + n' = req \/ n' = num)) by (subst n'; destruct (Z.ltb_spec req (length ps + num)); lia).
  replace n' with (Z.of_nat (Z.to_nat n')) by lia. rewrite Hm.
  set (m' := Z.to_nat (Z.max (bit_start d) (32 * (bit_start d / 32 + (i + 1))) - bit_start d)).
  assert (E : take (Z.to_nat req - length ps) (drop m (run_bits d)) = run_slice d m (Z.to_nat n') ++
    take (Z.to_nat req - length (ps ++ run_slice d m (Z.to_nat n'))) (drop m' (run_bits d))).
  { rewrite length_app, run_slice_length, !run_bits_slice, !run_slice_take. clearbody n'.
    destruct Hn' as (Hpos & Hle & [Hreached| ->]).
    - replace (Z.to_nat req - (length ps + Z.to_nat n'))%nat with 0%nat by lia. rewrite Nat.min_0_l.
      change (run_slice d m' 0) with (@nil (nat * Z)). rewrite app_nil_r. f_equal. lia.
    - assert (Hm' : m' = (m + Z.to_nat num)%nat \/ (Z.to_nat (bit_count d) = m + Z.to_nat num /\ Z.to_nat (bit_count d) <= m')%nat).
      { clear -Hm Hnum Hlast Hbs Hcnt. subst m' num cur m. lia. }
      destruct Hm' as [-> |[Hc Hm']].
      + rewrite <- run_slice_app. f_equal. lia.
      + replace (Z.to_nat (bit_count d) - m')%nat with 0%nat by lia. rewrite Nat.min_0_r. unfold run_slice at 3. cbn [seq fmap list_fmap].
        rewrite app_nil_r. f_equal. lia. }
  rewrite E, app_assoc.
  pose proof (Hstep ps d m (Z.to_nat n') ptr s Hd ltac:(lia) ltac:(lia) ltac:(lia) ltac:(rewrite <- Hm; lia) HP) as Hs. clearbody n'.
  destruct (func _ _ _ _ _ _ _) as [[[[err ptr'] c'] s']|]; [|done].
  destruct (is_ok err) eqn:Eo; [apply is_ok_true in Eo as ->|destruct err; try done; by apply (processed_error _ _ _ _ _ _ Eo (prefix_app_r _ _ _ (reflexivity _)) Hs)].
  destruct Hs as [-> HP'].
  replace (length ps + Z.to_nat n') with (Z.of_nat (length (ps ++ run_slice d m (Z.to_nat n')))) by (rewrite length_app, run_slice_length; lia).
  by apply (IH (i + 1) (ps ++ run_slice d m (Z.to_nat n')) ptr' s'); [lia|lia|rewrite length_app, run_slice_length; lia|].
Qed.

Lemma process_runs_spec field : Forall run_ok field -> forall ps ptr s, length ps <= req -> P ps ptr s ->
  processed (ps ++ take (Z.to_nat req - length ps) (field_bits field)) (process_runs func field req ptr (length ps) s).
Proof.
  induction 1 as [|d field Hd Hf IH]; intros ps ptr s Hlen HP; cbn [process_runs].
  - unfold field_bits. cbn [mbind list_bind]. rewrite take_nil, app_nil_r. done.
  - destruct (Z.leb_spec req (length ps)) as [Hreq|Hreq].
    { replace (Z.to_nat req - length ps)%nat with 0%nat by lia. cbn [take]. by rewrite app_nil_r. }
    pose proof Hd as (Hbs & Hcnt & n & Hn & Hend).
    assert (Hn8 : (n <= 8)%nat).
    { refine (Forall_lookup_1 (fun n => n <= 8)%nat block_registers _ _ _ Hn). repeat constructor; lia. }
    unfold check_range_of_bits. replace (256 <? bit_start d + bit_count d) with false by (symmetry; apply Z.ltb_ge; lia). cbn [negb].
    pose proof (process_run_spec d RUN_FUEL Hd 0 ps ptr s ltac:(lia)
      ltac:(unfold RUN_FUEL; Z.to_euclidean_division_equations; lia) Hlen HP) as Hr. cbv zeta in Hr.
    replace (Z.to_nat (Z.max (bit_start d) (32 * (bit_start d / 32 + 0)) - bit_start d)) with 0%nat in Hr by (Z.to_euclidean_division_equations; lia).
    rewrite drop_0 in Hr. unfold field_bits. cbn [mbind list_bind]. fold (mbind (M := list) run_bits field). fold (field_bits field). rewrite take_app, app_assoc.
    destruct (process_run _ _ _ _ _ _ _ _) as [[[[err ptr'] c'] s']|]; [|done].
    destruct (is_ok err) eqn:Eo; [apply is_ok_true in Eo as ->|destruct err; try done; by apply (processed_error _ _ _ _ _ _ Eo (prefix_app_r _ _ _ (reflexivity _)) Hr)].
    destruct Hr as [-> HP']. specialize (IH (ps ++ take (Z.to_nat req - length ps) (run_bits d)) ptr' s' ltac:(rewrite length_app, length_take; lia) HP').
    rewrite length_app, length_take in *.
    replace (Z.to_nat req - length ps - length (run_bits d))%nat
      with (Z.to_nat req - (length ps + (Z.to_nat req - length ps) `min` length (run_bits d)))%nat by lia. exact IH.
Qed.

(** The whole of [esp_efuse_utility_process]. *)
Lemma process_spec (reading : bool) field ptr ptr_size_bits s :
  Forall run_ok field -> (req = if ptr_size_bits =? 0 then esp_efuse_get_field_size field else Z.min ptr_size_bits (esp_efuse_get_field_size field)) ->
  0 <= req -> P [] ptr s -> (reading = true -> forall ps ptr s, P ps ptr s -> Z.land (s_burn_counter s) 1 = 0) ->
  match esp_efuse_utility_process func reading field ptr ptr_size_bits s with
  | Some (ESP_OK, ptr', s') => P (take (Z.to_nat req) (field_bits field)) ptr' s'
  | Some (e, ptr', s') => exists ps, ps `prefix_of` take (Z.to_nat req) (field_bits field) /\ Q ps e ptr' s'
  | None => False
  end.
Proof.
  intros Hf Hreq Hpos HP Heven. unfold esp_efuse_utility_process. rewrite <- Hreq.
  pose proof (process_runs_spec field Hf [] ptr s ltac:(done) HP) as Hr. cbn [length app] in Hr. rewrite Nat.sub_0_r in Hr.
  change (Z.of_nat 0) with 0 in Hr. destruct (process_runs func field req ptr 0 s) as [[[[err ptr'] c] s']|]; [|done].
  destruct (is_ok err) eqn:Eo.
  - apply is_ok_true in Eo as ->. destruct Hr as [-> HP']. cbn [andb].
    assert (Hodd : reading && (Z.land (s_burn_counter s') 1 =? 1) = false) by (destruct reading; [by rewrite (Heven eq_refl _ _ _ HP')|done]).
    rewrite Hodd. replace (length (take (Z.to_nat req) (field_bits field)) <=? req) with true; [done|].
    symmetry. apply Z.leb_le. rewrite length_take. lia.
  - cbn [andb]. destruct err; try done; destruct Hr as (Hc & HQ); by replace (c <=? req) with true by (symmetry; by apply Z.leb_le).
Qed.
End Process.
