(* ===== verification/EfuseApi.v ===== *)
(** * What the eFuse calls promise

    Reading gives the bits of the field; a write outside batch mode that
    succeeds sets exactly the bits asked for, whatever it returns it clears none
    and sets no other, and errors found before burning change nothing. *)

From S2P Require Import Prelude EspErr EspEfuse EfuseFields.

(** Blocks of the chip's shape. *)
Definition blocks_wf (blocks : list (list Z)) : Prop :=
  length <$> blocks = block_registers /\ Forall (Forall (in_range 32)) blocks.

(** The controller: registers of this shape, which reading does not change;
    burning clears no bit and sets only bits of its data. It may fail to set
    some. *)
Class EfuseLaws (H : Type) `{EfuseHal H} : Prop := {
  registers_wf : forall h, blocks_wf (registers h);
  read_registers : forall h, registers (efuse_hal_read h) = registers h;
  program_keeps : forall h blk data p, block_bit (registers h) p = true -> block_bit (registers (efuse_hal_program h blk data)) p = true;
  program_only : forall h blk data p, block_bit (registers (efuse_hal_program h blk data)) p = true ->
    block_bit (registers h) p = true \/
    fst p = blk /\ exists w, data !! Z.to_nat (snd p / 32) = Some w /\ Z.testbit w (snd p mod 32) = true;
}.

(** ** Registers and their bits *)

Lemma blocks_length blocks blk : blocks_wf blocks -> length (default [] (blocks !! blk)) = default 0%nat (block_registers !! blk).
Proof. intros [<- _]. rewrite list_lookup_fmap. by destruct (blocks !! blk). Qed.

Lemma blocks_reg blocks blk (n num : nat) : blocks_wf blocks -> block_registers !! blk = Some n -> (num < n)%nat ->
  exists w, reg_of blocks blk num = Some w /\ in_range 32 w.
Proof.
  intros [Hs Hr] Hn Hlt. assert (Hb : (length <$> blocks) !! blk = Some n) by by rewrite Hs.
  rewrite list_lookup_fmap in Hb. destruct (blocks !! blk) as [b|] eqn:Eb; [|done]. injection Hb as <-.
  destruct (lookup_lt_is_Some_2 b num Hlt) as [w Hw]. exists w. unfold reg_of. rewrite Eb. split; [done|].
  exact (Forall_lookup_1 _ _ _ _ (Forall_lookup_1 _ _ _ _ Hr Eb) Hw).
Qed.

(** The register of a slice of a run, and its bits. *)
Lemma slice_register blocks d m (n : nat) : blocks_wf blocks -> run_ok d -> (m + n <= Z.to_nat (bit_count d))%nat -> (0 < n)%nat ->
  (bit_start d + m) mod 32 + n <= 32 ->
  exists w, reg_of blocks (efuse_block d) (Z.to_nat ((bit_start d + m) / 32)) = Some w /\ in_range 32 w /\
    forall k, 0 <= k < n -> block_bit blocks (efuse_block d, bit_start d + (m + k)) = Z.testbit w ((bit_start d + m) mod 32 + k).
Proof.
  intros Hw (Hs & Hc & nr & Hnr & Hend) Hm Hn Hfit.
  destruct (blocks_reg blocks (efuse_block d) nr (Z.to_nat ((bit_start d + m) / 32)) Hw Hnr) as (w & Ew & Hr).
  { apply Nat2Z.inj_lt. rewrite Z2Nat.id by (Z.to_euclidean_division_equations; lia). Z.to_euclidean_division_equations; lia. }
  exists w. split; [done|]. split; [done|]. intros k Hk. unfold block_bit. cbn [fst snd].
  replace ((bit_start d + (m + k)) / 32) with ((bit_start d + m) / 32) by (Z.to_euclidean_division_equations; lia).
  rewrite Ew. f_equal. Z.to_euclidean_division_equations; lia.
Qed.

Lemma run_slice_lookup d m n k : run_slice d m n !! k = if (k <? n)%nat then Some (efuse_block d, bit_start d + (m + k)%nat) else None.
Proof.
  unfold run_slice. rewrite list_lookup_fmap. destruct (Nat.ltb_spec k n).
  - by rewrite lookup_seq_lt by lia.
  - by rewrite lookup_seq_ge by lia.
Qed.

Section Api.
Context {H : Type} `{EfuseLaws H}.

Implicit Types s : efuse_state H.

(** The chip's bits. *)
Definition chip_bit s : nat * Z -> bool := block_bit (registers (hw s)).

(** Between calls the counter is even. *)
Definition idle s : Prop := Z.land (s_burn_counter s) 1 = 0.

(** ** Reading *)

Definition read_so_far (dst : list Z) s (ps : list (nat * Z)) (blob : list Z) s' : Prop :=
  s' = s /\ length blob = length dst /\ (Forall (in_range 8) dst -> Forall (in_range 8) blob) /\
  forall j, 0 <= j -> blob_bit blob j = blob_bit dst j || match ps !! Z.to_nat j with Some p => chip_bit s p | None => false end.

Lemma fill_buff_step dst s req : req <= 8 * length dst ->
  step_ok (H := H) esp_efuse_utility_fill_buff req (read_so_far dst s) (fun _ _ _ _ => False).
Proof.
  intros Hreq ps d m n blob s' Hd Hm Hn Hle Hfit (-> & Hlen & Hrng & Hbits). unfold esp_efuse_utility_fill_buff, esp_efuse_utility_read_reg.
  destruct (slice_register (registers (hw s)) d m n (registers_wf _) Hd Hm Hn Hfit) as (w & -> & _ & Hwb).
  destruct (fill_buff_spec w ((bit_start d + m) mod 32) n blob (length ps)) as (b & Efb & Hlb & Hb);
    [Z.to_euclidean_division_equations; lia|lia|lia|lia|lia|].
  rewrite Efb. cbn [processed fst snd]. rewrite length_app, run_slice_length. split; [lia|]. split; [done|]. split; [congruence|].
  split; [intros Hd0; by apply (fill_buff_range _ _ _ _ _ _ _ (Hrng Hd0) Efb)|].
  intros j Hj. rewrite Hb, Hbits, <- orb_assoc by done. f_equal.
  destruct (Z.leb_spec (length ps) j) as [Hge|Hlt]; cbn [andb].
  - rewrite (lookup_ge_None_2 ps) by lia. cbn [orb]. rewrite lookup_app_r, run_slice_lookup by lia.
    destruct (Z.ltb_spec j (length ps + n)) as [Hin|Hout], (Nat.ltb_spec (Z.to_nat j - length ps) n); try lia.
    cbn [andb]. rewrite <- Hwb by lia. unfold chip_bit. do 3 f_equal. lia.
  - rewrite lookup_app_l by lia. by rewrite orb_false_r.
Qed.

(** Byte [j] of what a read returns. *)
Lemma memset0_bits dst n dst' j : memset0 dst n = Some dst' -> 0 <= j ->
  length dst' = length dst /\ blob_bit dst' j = if j <? 8 * n then false else blob_bit dst j.
Proof.
  unfold memset0. destruct (Nat.leb_spec n (length dst)); [|done]. intros [= <-] Hj. split; [rewrite length_app, length_replicate, length_drop; lia|].
  unfold blob_bit, blob_at. destruct (Z.ltb_spec j (8 * n)) as [Hlt|Hge].
  - rewrite lookup_app_l by (rewrite length_replicate; apply Nat2Z.inj_lt; rewrite Z2Nat.id; Z.to_euclidean_division_equations; lia).
    rewrite lookup_replicate_2 by (apply Nat2Z.inj_lt; rewrite Z2Nat.id; Z.to_euclidean_division_equations; lia). by rewrite Z.bits_0.
  - assert (Hle : (n <= Z.to_nat (j / 8))%nat) by (apply Nat2Z.inj_le; rewrite Z2Nat.id; Z.to_euclidean_division_equations; lia).
    rewrite lookup_app_r by (by rewrite length_replicate). rewrite length_replicate, lookup_drop.
    replace (n + (Z.to_nat (j / 8) - n))%nat with (Z.to_nat (j / 8)) by lia. done.
Qed.

Lemma memset0_range dst n dst' : memset0 dst n = Some dst' -> Forall (in_range 8) dst -> Forall (in_range 8) dst'.
Proof.
  unfold memset0. destruct (n <=? length dst)%nat; [|done]. intros [= <-] Hr. apply Forall_app. split; [|by apply Forall_drop].
  apply Forall_replicate. unfold in_range. lia.
Qed.

Lemma number_of_items bits : 0 <= bits -> bits <= 8 * esp_efuse_utility_get_number_of_items bits 8 < bits + 8.
Proof. intros Hb. unfold esp_efuse_utility_get_number_of_items. destruct (Z.ltb_spec 0 (bits mod 8)); Z.to_euclidean_division_equations; lia. Qed.

(** Bit [j] of a field that is read with [size] bits. *)
Definition field_bit s (field : list esp_efuse_desc_t) (j : Z) : bool :=
  match field_bits field !! Z.to_nat j with Some p => chip_bit s p | None => false end.

Lemma read_field_spec s field dst size : Forall run_ok field -> idle s -> 0 < size ->
  esp_efuse_utility_get_number_of_items size 8 <= length dst ->
  exists dst', esp_efuse_read_field_blob field dst size s = Some (ESP_OK, dst') /\ length dst' = length dst /\ (Forall (in_range 8) dst -> Forall (in_range 8) dst') /\
    forall j, 0 <= j -> blob_bit dst' j =
      if j <? 8 * esp_efuse_utility_get_number_of_items size 8 then (j <? size) && field_bit s field j else blob_bit dst j.
Proof.
  intros Hf Hidle Hsize Hdst. unfold esp_efuse_read_field_blob. replace (size =? 0) with false by (symmetry; apply Z.eqb_neq; lia).
  pose proof (number_of_items size ltac:(lia)) as Hit. set (n := esp_efuse_utility_get_number_of_items size 8) in *.
  destruct (memset0 dst (Z.to_nat n)) as [d0|] eqn:E0.
  2: { unfold memset0 in E0. by destruct (Nat.leb_spec (Z.to_nat n) (length dst)); [|lia]. }
  pose proof (fun j Hj => memset0_bits dst (Z.to_nat n) d0 j E0 Hj) as Hz. destruct (Hz 0 ltac:(lia)) as [Hl0 _].
  pose proof (process_spec (A := list Z) esp_efuse_utility_fill_buff (Z.min size (esp_efuse_get_field_size field)) (read_so_far d0 s) (fun _ _ _ _ => False)
    (fill_buff_step d0 s (Z.min size (esp_efuse_get_field_size field)) ltac:(lia)) true field d0 size s Hf) as Hp.
  replace (size =? 0) with false in Hp by (symmetry; apply Z.eqb_neq; lia).
  specialize (Hp eq_refl ltac:(rewrite field_size_bits by done; lia)).
  specialize (Hp ltac:(split; [done|]; split; [done|]; split; [done|]; intros j Hj; by rewrite lookup_nil, orb_false_r)
    ltac:(by intros _ ps ptr s' (-> & _))).
  destruct (esp_efuse_utility_process _ _ _ _ _ _) as [[[err d1] s1]|]; [|done]. destruct err; try (by destruct Hp as (? & _ & [])). destruct Hp as (-> & Hl1 & Hrng & Hb).
  exists d1. rewrite bool_decide_false by done. split; [done|]. split; [congruence|].
  split; [intros Hd0; by apply Hrng, (memset0_range _ _ _ E0)|]. intros j Hj. rewrite Hb by done.
  destruct (Hz j Hj) as [_ Hz']. rewrite Hz', Z2Nat.id by lia. unfold field_bit.
  destruct (Z.ltb_spec j (8 * n)) as [Hin|Hout].
  - cbn [orb]. destruct (Z.ltb_spec j size) as [Hjs|Hjs]; cbn [andb].
    + destruct (Z.lt_ge_cases j (esp_efuse_get_field_size field)).
      * by rewrite lookup_take_lt by lia.
      * rewrite field_size_bits in * by done. by rewrite lookup_take_ge, lookup_ge_None_2 by lia.
    + by rewrite lookup_take_ge by lia.
  - rewrite lookup_take_ge by lia. by rewrite orb_false_r.
Qed.

(** ** Preparing a write *)

(** A bit that waits in the write buffers. *)
Definition pending s : nat * Z -> bool := block_bit (write_mass_blocks s).

(** Only the write buffers may differ. *)
Definition same_chip s s' : Prop :=
  hw s' = hw s /\ s_burn_counter s' = s_burn_counter s /\ s_batch_writing_mode s' = s_batch_writing_mode s /\
  blocks_wf (write_mass_blocks s').

Lemma write_reg_spec blk (num n : nat) v s : blocks_wf (write_mass_blocks s) -> block_registers !! blk = Some n -> (num < n)%nat -> in_range 32 v ->
  exists s', write_reg blk num v s = Some s' /\ same_chip s s' /\
    forall p, 0 <= snd p -> pending s' p = pending s p || (bool_decide (fst p = blk) && (snd p / 32 =? num) && Z.testbit v (snd p mod 32)).
Proof.
  intros Hw Hn Hlt Hv. destruct (blocks_reg _ _ _ _ Hw Hn Hlt) as (w & Ew & Hrw). destruct Hw as [Hs Hr].
  unfold write_reg, reg_of in *. destruct (write_mass_blocks s !! blk) as [b|] eqn:Eb; [|done]. rewrite Ew. eexists. split; [reflexivity|].
  assert (Hor : in_range 32 (Z.lor w v)).
  { unfold in_range in Hrw, Hv. apply in_range_bits; [lia|apply Z.lor_nonneg; lia|]. intros i Hi. rewrite Z.lor_spec, !(in_range_testbit 32) by (done || lia). done. }
  split.
  - split; [done|]. split; [done|]. split; [done|]. cbn [write_mass_blocks with_wr]. split.
    + rewrite list_fmap_insert, <- Hs. apply list_insert_id. by rewrite length_insert, list_lookup_fmap, Eb.
    + apply Forall_insert; [done|]. apply Forall_insert; [|done]. exact (Forall_lookup_1 _ _ _ _ Hr Eb).
  - intros [pb pi] Hp. cbn [fst snd] in *. unfold pending, block_bit, reg_of. cbn [write_mass_blocks with_wr fst snd].
    case_bool_decide as Hpb; [subst pb|].
    + rewrite list_lookup_insert_eq by (by eapply lookup_lt_Some). rewrite Eb. cbn [andb].
      destruct (Z.eqb_spec (pi / 32) num) as [Ei|Ei].
      * rewrite Ei, Nat2Z.id, list_lookup_insert_eq by (by eapply lookup_lt_Some). by rewrite Ew, Z.lor_spec.
      * rewrite list_lookup_insert_ne by (intros Hx; apply Ei; Z.to_euclidean_division_equations; lia). cbn [andb]. by rewrite orb_false_r.
    + rewrite list_lookup_insert_ne by congruence. cbn [andb]. by rewrite orb_false_r.
Qed.

Lemma run_slice_elem d (m n : nat) p : p ∈ run_slice d m n <-> exists k, (k < n)%nat /\ p = (efuse_block d, bit_start d + (m + k)).
Proof.
  unfold run_slice. rewrite list_elem_of_fmap. split.
  - intros (k & -> & Hk%elem_of_seq). exists (k - m)%nat. split; [lia|]. f_equal. lia.
  - intros (k & Hk & ->). exists (m + k)%nat. rewrite elem_of_seq. split; [f_equal|]; lia.
Qed.

(** Where a register's bit in a slice is. *)
Lemma slice_place d (m n : nat) (p : nat * Z) : 0 <= bit_start d -> (bit_start d + m) mod 32 + n <= 32 -> 0 <= snd p ->
  fst p = efuse_block d -> snd p / 32 = (bit_start d + m) / 32 ->
  (bit_start d + m) mod 32 <= snd p mod 32 < (bit_start d + m) mod 32 + n ->
  exists k : nat, (k < n)%nat /\ p = (efuse_block d, bit_start d + (m + k)) /\ Z.of_nat k = snd p mod 32 - (bit_start d + m) mod 32.
Proof.
  intros Hs Hfit Hp Hb Hq Hr. exists (Z.to_nat (snd p mod 32 - (bit_start d + m) mod 32)). split; [lia|]. split; [|lia].
  destruct p as [pb pi]. cbn [fst snd] in *. f_equal; [done|]. Z.to_euclidean_division_equations; lia.
Qed.

Lemma slice_place_inv d (m n k : nat) : 0 <= bit_start d -> (bit_start d + m) mod 32 + n <= 32 -> (k < n)%nat ->
  (bit_start d + (m + k)) / 32 = (bit_start d + m) / 32 /\ (bit_start d + (m + k)) mod 32 = (bit_start d + m) mod 32 + k.
Proof. intros. Z.to_euclidean_division_equations; lia. Qed.

Definition write_so_far (src : list Z) s (ps : list (nat * Z)) (blob : list Z) s' : Prop :=
  blob = src /\ same_chip s s' /\
  (forall p, 0 <= snd p -> pending s' p = true <-> pending s p = true \/ exists j : nat, ps !! j = Some p /\ blob_bit src j = true) /\
  (forall (j : nat) p, ps !! j = Some p -> blob_bit src j = true -> chip_bit s p = false).

Lemma land_zero_bits x y i : Z.land x y = 0 -> 0 <= i -> Z.testbit y i = true -> Z.testbit x i = false.
Proof. intros Hz Hi Hy. pose proof (f_equal (fun z => Z.testbit z i) Hz) as E. cbn in E. rewrite Z.land_spec, Z.bits_0, Hy, andb_true_r in E. done. Qed.

Lemma land_nonzero_bit x y : in_range 32 x -> Z.land x y <> 0 -> exists i, 0 <= i /\ Z.testbit x i = true /\ Z.testbit y i = true.
Proof.
  intros Hx Hz. exists (Z.log2 (Z.land x y)). split; [apply Z.log2_nonneg|]. apply andb_true_iff. rewrite <- Z.land_spec.
  apply Z.bit_log2. unfold in_range in Hx. enough (0 <= Z.land x y) by lia. apply Z.land_nonneg. lia.
Qed.

Lemma write_blob_step src s req : req <= 8 * length src ->
  step_ok (H := H) esp_efuse_utility_write_blob req (write_so_far src s)
    (fun ps e _ s' => e = ESP_ERR_EFUSE_REPEATED_PROG /\ same_chip s s' /\
      exists (j : nat) p, ps !! j = Some p /\ blob_bit src j = true /\ chip_bit s p = true).
Proof.
  intros Hreq ps d m n blob s' Hd Hm Hn Hle Hfit (-> & Hsame & Hpend & Hfree). unfold esp_efuse_utility_write_blob.
  pose proof Hd as (Hs & Hc & nr & Hnr & Hend).
  destruct (fill_reg_spec ((bit_start d + m) mod 32) n src (length ps)) as (v & -> & Hrv & Hv); [Z.to_euclidean_division_equations; lia|lia|lia|lia|lia|].
  cbn [fst snd]. unfold esp_efuse_utility_write_reg, esp_efuse_utility_read_reg. destruct Hsame as (Eh & Ec & Eb & Hwf). rewrite Eh.
  destruct (slice_register (registers (hw s)) d m n (registers_wf _) Hd Hm Hn Hfit) as (w & -> & Hrw & Hwb).
  destruct (Z.eqb_spec (Z.land w v) 0) as [Hz|Hz]; cbn [negb].
  2: { cbn [processed fst snd]. split; [lia|]. exists (ps ++ run_slice d m n). split; [done|]. split; [done|]. split; [done|].
    destruct (land_nonzero_bit w v Hrw Hz) as (i & Hi & Ew & Ev). rewrite Hv in Ev by done. rewrite !andb_true_iff, Z.leb_le, Z.ltb_lt in Ev.
    destruct Ev as [Hin Ev]. set (k := Z.to_nat (i - (bit_start d + m) mod 32)).
    exists (length ps + k)%nat, (efuse_block d, bit_start d + (m + k)%nat). rewrite lookup_app_r, run_slice_lookup by lia.
    replace (length ps + k - length ps)%nat with k by lia. destruct (Nat.ltb_spec k n); [|lia]. split; [done|]. split.
    - rewrite <- Ev. f_equal. lia.
    - unfold chip_bit. rewrite Nat2Z.inj_add, Hwb by lia. rewrite <- Ew. f_equal. lia. }
  destruct (write_reg_spec (efuse_block d) (Z.to_nat ((bit_start d + m) / 32)) nr v s' Hwf Hnr) as (s1 & -> & (Eh1 & Ec1 & Eb1 & Hwf1) & Hp1);
    [apply Nat2Z.inj_lt; rewrite Z2Nat.id by (Z.to_euclidean_division_equations; lia); Z.to_euclidean_division_equations; lia|exact Hrv|].
  cbn [processed fst snd]. rewrite length_app, run_slice_length. split; [lia|]. split; [done|]. split; [split; [congruence|]; split; [congruence|]; split; [congruence|done]|].
  assert (Hnew : forall k : nat, (k < n)%nat -> Z.testbit v ((bit_start d + m) mod 32 + k) = blob_bit src (length ps + k)).
  { intros k Hk. rewrite Hv by (Z.to_euclidean_division_equations; lia). replace (length ps + ((bit_start d + m) mod 32 + k - (bit_start d + m) mod 32)) with (length ps + k) by lia.
    by destruct (Z.leb_spec ((bit_start d + m) mod 32) ((bit_start d + m) mod 32 + k)), (Z.ltb_spec ((bit_start d + m) mod 32 + k) ((bit_start d + m) mod 32 + n)); cbn [andb]; lia || done. }
  split.
  - intros p Hp. rewrite Hp1, orb_true_iff, (Hpend p Hp) by done. split.
    + intros [[Hx|(j & Hj & Hb)]|Hx]; [by left|right; exists j; split; [by apply lookup_app_l_Some|done]|].
      rewrite !andb_true_iff, bool_decide_eq_true, Z.eqb_eq in Hx. destruct Hx as [[Hb Hq] Ht].
      rewrite Z2Nat.id in Hq by (Z.to_euclidean_division_equations; lia).
      assert (Hrange : (bit_start d + m) mod 32 <= snd p mod 32 < (bit_start d + m) mod 32 + n).
      { rewrite Hv in Ht by (Z.to_euclidean_division_equations; lia). rewrite !andb_true_iff, Z.leb_le, Z.ltb_lt in Ht. tauto. }
      destruct (slice_place d m n p Hs Hfit Hp Hb Hq Hrange) as (k & Hk & -> & Ek). right. exists (length ps + k)%nat. split.
      * rewrite lookup_app_r by lia. replace (length ps + k - length ps)%nat with k by lia. rewrite run_slice_lookup.
        destruct (Nat.ltb_spec k n); [f_equal; f_equal; lia|lia].
      * rewrite Nat2Z.inj_add, <- Hnew by done. rewrite <- Ht. f_equal. lia.
    + intros [Hx|(j & Hj & Hb)]; [left; by left|]. apply lookup_app_Some in Hj as [Hj|[Hlen Hj]]; [left; right; by exists j|right].
      rewrite run_slice_lookup in Hj. destruct (Nat.ltb_spec (j - length ps) n) as [Hk|]; [|done]. injection Hj as <-. cbn [fst snd].
      rewrite Nat2Z.inj_add. destruct (slice_place_inv d m n (j - length ps) Hs Hfit Hk) as [-> ->].
      rewrite bool_decide_true, Z2Nat.id, Z.eqb_refl, Hnew by (done || (Z.to_euclidean_division_equations; lia)). cbn [andb]. rewrite <- Hb. f_equal. lia.
  - intros j p Hj Hb. apply lookup_app_Some in Hj as [Hj|[Hlen Hj]]; [by apply (Hfree j)|].
    rewrite run_slice_lookup in Hj. destruct (Nat.ltb_spec (j - length ps) n) as [Hk|]; [|done]. injection Hj as <-.
    unfold chip_bit. rewrite Nat2Z.inj_add, Hwb by lia. apply (land_zero_bits w v); [done|Z.to_euclidean_division_equations; lia|].
    rewrite Hnew by done. rewrite <- Hb. f_equal. lia.
Qed.
(** ** Burning *)

(** From [h] to [h'] no bit of the chip is cleared, and only bits of [new] are set. *)
Definition burnt (new : nat * Z -> Prop) (h h' : H) : Prop :=
  (forall p, block_bit (registers h) p = true -> block_bit (registers h') p = true) /\
  (forall p, 0 <= snd p -> block_bit (registers h') p = true -> block_bit (registers h) p = true \/ new p).

Lemma burnt_refl new h h' : registers h' = registers h -> burnt new h h'.
Proof. intros E. split; intros p; rewrite E; auto. Qed.

Lemma burnt_trans new h1 h2 h3 : burnt new h1 h2 -> burnt new h2 h3 -> burnt new h1 h3.
Proof. intros [A1 B1] [A2 B2]. split; [auto|]. intros p Hp Hb. destruct (B2 p Hp Hb); auto. Qed.

Lemma burnt_weaken (new new' : nat * Z -> Prop) h h' : (forall p, 0 <= snd p -> new p -> new' p) -> burnt new h h' -> burnt new' h h'.
Proof. intros Hn [A B]. split; [done|]. intros p Hp Hb. destruct (B p Hp Hb); auto. Qed.

(** The bits of a block's write buffer. *)
Definition in_block (blk : nat) (w_data : list Z) (p : nat * Z) : Prop :=
  fst p = blk /\ exists w, w_data !! Z.to_nat (snd p / 32) = Some w /\ Z.testbit w (snd p mod 32) = true.

Lemma program_burnt h blk w_data : burnt (in_block blk w_data) h (efuse_hal_program h blk w_data).
Proof. split; [intros p; apply program_keeps|intros p _; apply program_only]. Qed.

Lemma read_errors_registers n blk : forall h e, registers (fst (read_errors n blk h e)) = registers h.
Proof.
  induction n as [|n IH]; intros h e; [done|]. cbn [read_errors]. destruct (efuse_hal_is_coding_error_in_block _ _).
  - apply read_registers.
  - rewrite IH. apply read_registers.
Qed.

Lemma burn_attempts_spec n blk w_data before : forall h,
  let '(h', correct, _) := burn_attempts n blk w_data before h in
  burnt (in_block blk w_data) h h' /\ correct = esp_efuse_utility_is_correct_written_data blk h' w_data.
Proof.
  induction n as [|n IH]; intros h; cbn [burn_attempts];
    pose proof (read_errors_registers 5 blk (efuse_hal_program h blk w_data) false) as Er;
    destruct (read_errors 5 _ _ _) as [h1 after]; cbn [fst] in Er;
    (assert (Hb : burnt (in_block blk w_data) h h1)
      by (eapply burnt_trans; [apply program_burnt|by apply burnt_refl])).
  - done.
  - destruct n as [|n]; [done|]. destruct (negb _ || _); [|done]. specialize (IH h1).
    destruct (burn_attempts (S n) _ _ _ _) as [[h2 c] e]. destruct IH as [Hb2 ->]. split; [|done]. by eapply burnt_trans.
Qed.

Lemma combine_lookup {A B} (l : list A) (k : list B) i x y : l !! i = Some x -> k !! i = Some y -> In (x, y) (combine l k).
Proof.
  revert k i. induction l as [|a l IH]; intros [|b k] [|i] Hx Hy; try done; cbn in *; [left; congruence|right; by eapply IH].
Qed.

Lemma correct_data_bits blk h w_data p : blocks_wf (registers h) -> length w_data = length (default [] (registers h !! blk)) ->
  esp_efuse_utility_is_correct_written_data blk h w_data = true -> 0 <= snd p -> in_block blk w_data p -> block_bit (registers h) p = true.
Proof.
  intros Hwf Hlen Hc Hp [<- (w & Hw & Hb)]. unfold esp_efuse_utility_is_correct_written_data in Hc. unfold block_bit, reg_of.
  destruct (registers h !! fst p) as [b|]; cbn [default] in *.
  2: { unfold id in Hlen. destruct w_data; done. }
  unfold default, id in Hc, Hlen. apply orb_true_iff in Hc as [Hc%bool_decide_eq_true|Hc].
  - subst w_data. by rewrite Hw.
  - destruct (lookup_lt_is_Some_2 b (Z.to_nat (snd p / 32))) as [r Hr]; [rewrite <- Hlen; by eapply lookup_lt_Some|].
    rewrite Hr. rewrite forallb_forall in Hc. specialize (Hc (r, w)). cbn beta iota in Hc.
    assert (Hin : In (r, w) (combine b w_data)).
    { by eapply combine_lookup. }
    specialize (Hc Hin). apply Z.eqb_eq in Hc. rewrite <- Hc, Z.land_spec, andb_true_iff in Hb. tauto.
Qed.
Lemma burn_blocks_spec wr blks : blocks_wf wr -> forall h error, error = ESP_OK \/ error = ESP_FAIL ->
  let '(h', error') := burn_blocks blks wr h error in
  burnt (fun p => block_bit wr p = true) h h' /\ (error' = ESP_OK \/ error' = ESP_FAIL) /\
  (error' = ESP_OK -> error = ESP_OK /\
    forall p, 0 <= snd p -> fst p ∈ blks -> block_bit wr p = true -> block_bit (registers h') p = true).
Proof.
  intros Hwr. induction blks as [|blk blks IH]; intros h error He; cbn [burn_blocks].
  { split; [by apply burnt_refl|]. split; [done|]. intros ->. split; [done|]. intros p _ Hin. by apply elem_of_nil in Hin. }
  set (w_data := default [] (wr !! blk)).
  assert (Hmem : forall p, in_block blk w_data p <-> fst p = blk /\ block_bit wr p = true).
  { intros p. unfold in_block, block_bit, reg_of. split.
    - intros [<- (w & Hw & Hb)]. split; [done|]. subst w_data. destruct (wr !! fst p) as [b|]; [|done]. cbn in Hw. by rewrite Hw.
    - intros [<- Hb]. split; [done|]. subst w_data. destruct (wr !! fst p) as [b|]; [|done]. cbn. destruct (b !! _) as [w|]; [|done]. by exists w. }
  destruct (forallb (fun w => w =? 0) w_data) eqn:Ez.
  { specialize (IH h error He). destruct (burn_blocks blks wr h error) as [h' error']. destruct IH as (Hb & He' & Hall).
    split; [done|]. split; [done|]. intros Ho. destruct (Hall Ho) as [Ho1 Hset]. split; [done|]. intros p Hp Hin Hw.
    apply elem_of_cons in Hin as [Hin|Hin]; [|by apply Hset]. exfalso.
    destruct (proj2 (Hmem p) (conj Hin Hw)) as [_ (w & Ew & Hbit)]. rewrite forallb_forall in Ez.
    assert (Hw0 : (w =? 0) = true) by (apply Ez, list_elem_of_In; by eapply list_elem_of_lookup_2).
    apply Z.eqb_eq in Hw0 as ->. by rewrite Z.bits_0 in Hbit. }
  destruct (is_ok error) eqn:Eo; cbn [negb].
  2: { specialize (IH h error He). destruct (burn_blocks blks wr h error) as [h' error']. destruct IH as (Hb & He' & Hall).
    split; [done|]. split; [done|]. intros Ho. destruct (Hall Ho) as [-> _]. done. }
  apply is_ok_true in Eo as ->. pose proof (burn_attempts_spec 3 blk w_data (efuse_hal_is_coding_error_in_block h blk) h) as Hatt.
  destruct (burn_attempts 3 _ _ _ _) as [[h1 correct] occurred]. destruct Hatt as [Hb1 Hcorrect].
  set (error1 := if negb correct then ESP_FAIL else _).
  assert (He1 : (error1 = ESP_OK \/ error1 = ESP_FAIL) /\ (error1 = ESP_OK -> correct = true))
    by (subst error1; destruct (occurred && _), correct; cbn [negb]; (split; [first [by left|by right]|done])).
  destruct He1 as [He1 Hok1]. specialize (IH h1 error1 He1). clearbody error1. destruct (burn_blocks blks wr h1 error1) as [h' error'].
  destruct IH as (Hb & He' & Hall). split; [|split; [done|]].
  - eapply burnt_trans; [|exact Hb]. eapply burnt_weaken; [|exact Hb1]. intros p _ Hp%Hmem. tauto.
  - intros Ho. destruct (Hall Ho) as [Ho1 Hset]. split; [done|]. intros p Hp Hin Hw.
    apply elem_of_cons in Hin as [Hin|Hin]; [|by apply Hset]. apply (proj1 Hb).
    apply (correct_data_bits blk h1 w_data p); [apply registers_wf| |by rewrite <- Hcorrect, Hok1|done|by apply Hmem].
    subst w_data. rewrite !(blocks_length _ blk) by (done || apply registers_wf). done.
Qed.
(** ** The end of a write call *)

Lemma u32_parity x : u32 x mod 2 = x mod 2.
Proof. unfold wrap. apply Z.mod_mod_divide. by exists (2 ^ 31). Qed.

Lemma counter_even c : Z.land (u32 (u32 (c + 1) + 1)) 1 = Z.land c 1.
Proof.
  change 1 with (Z.ones 1) at 3 4. rewrite !Z.land_ones by lia. change (2 ^ 1) with 2.
  rewrite u32_parity, <- Zplus_mod_idemp_l, u32_parity. Z.to_euclidean_division_equations; lia.
Qed.

Lemma reset_spec s : let s' := esp_efuse_utility_reset s in
  registers (hw s') = registers (hw s) /\ (idle s -> idle s') /\ s_batch_writing_mode s' = s_batch_writing_mode s /\
  write_mass_blocks s' = empty_blocks.
Proof.
  cbn. split; [apply read_registers|]. split; [|done]. unfold idle. cbn. by rewrite counter_even.
Qed.

Lemma empty_wf : blocks_wf empty_blocks.
Proof. split; [done|]. repeat constructor; unfold in_range; lia. Qed.

Lemma empty_bit p : 0 <= snd p -> block_bit empty_blocks p = false.
Proof.
  intros Hp. unfold block_bit, reg_of, empty_blocks. rewrite list_lookup_fmap. destruct (block_registers !! fst p) as [n|]; [|done]. cbn.
  destruct (replicate n 0 !! _) eqn:E; [|done]. apply lookup_replicate in E as [-> _]. apply Z.bits_0.
Qed.

Lemma block_bit_order blocks p : blocks_wf blocks -> block_bit blocks p = true -> fst p ∈ burn_order.
Proof.
  intros [Hs _]. unfold block_bit, reg_of. destruct (blocks !! fst p) as [b|] eqn:E; [|done]. intros _.
  assert (Hlt : (fst p < length block_registers)%nat) by (rewrite <- Hs, length_fmap; by eapply lookup_lt_Some).
  unfold burn_order. rewrite list_elem_of_In, <- in_rev, <- list_elem_of_In. apply elem_of_seq. change (length block_registers) with EFUSE_BLK_MAX in Hlt. lia.
Qed.

Lemma block_nonzero blocks blk : blocks_wf blocks ->
  existsb (fun w => negb (w =? 0)) (default [] (blocks !! blk)) = true <-> exists i, 0 <= i /\ block_bit blocks (blk, i) = true.
Proof.
  intros [_ Hr]. unfold block_bit, reg_of. cbn [fst snd]. destruct (blocks !! blk) as [b|] eqn:Eb; cbn.
  2: { split; [done|]. by intros (i & _ & ?). }
  rewrite existsb_exists. split.
  - intros (w & Hin & Hw). apply list_elem_of_In, list_elem_of_lookup in Hin as [n Hn]. apply negb_true_iff, Z.eqb_neq in Hw.
    pose proof (Forall_lookup_1 _ _ _ _ (Forall_lookup_1 _ _ _ _ Hr Eb) Hn) as Hwr.
    destruct (land_nonzero_bit w w Hwr ltac:(by rewrite Z.land_diag)) as (i & Hi & Hb & _).
    assert (i < 32) by (destruct (Z.lt_ge_cases i 32); [done|]; by rewrite (in_range_testbit 32) in Hb by done).
    exists (32 * n + i). split; [lia|]. replace (Z.to_nat ((32 * n + i) / 32)) with n by (Z.to_euclidean_division_equations; lia).
    rewrite Hn. rewrite <- Hb. f_equal. Z.to_euclidean_division_equations; lia.
  - intros (i & Hi & Hb). destruct (b !! Z.to_nat (i / 32)) as [w|] eqn:E; [|done]. exists w.
    split; [apply list_elem_of_In; by eapply list_elem_of_lookup_2|]. apply negb_true_iff, Z.eqb_neq. intros ->. by rewrite Z.bits_0 in Hb.
Qed.

(** A block with the RS coding scheme that has bits takes no more. *)
Definition rs_conflict (new : nat * Z -> Prop) s : Prop :=
  exists blk i k, blk <> EFUSE_BLK0 /\ 0 <= i /\ 0 <= k /\ new (blk, i) /\ chip_bit s (blk, k) = true.

Lemma rs_conflict_ext (new new' : nat * Z -> Prop) s s' : (forall p, 0 <= snd p -> new p <-> new' p) ->
  registers (hw s) = registers (hw s') -> rs_conflict new s <-> rs_conflict new' s'.
Proof.
  intros Hn Er. unfold rs_conflict, chip_bit. rewrite Er.
  split; intros (blk & i & k & Hb & Hi & Hk & Hp & Hc); exists blk, i, k; (do 3 (split; [done|])); (split; [by apply (Hn (blk, i) Hi)|done]).
Qed.

Lemma coding_conflict s : blocks_wf (write_mass_blocks s) ->
  esp_efuse_utility_apply_new_coding_scheme s = ESP_ERR_CODING <-> rs_conflict (fun p => pending s p = true) s.
Proof.
  intros Hw. unfold esp_efuse_utility_apply_new_coding_scheme. set (forbidden := fun blk : nat => _).
  assert (Hf : forall blk, forbidden blk = true <-> blk <> EFUSE_BLK0 /\ exists i k, 0 <= i /\ 0 <= k /\ pending s (blk, i) = true /\ chip_bit s (blk, k) = true).
  { intros blk. subst forbidden. cbn beta. unfold esp_efuse_get_coding_scheme. destruct (Nat.eqb_spec blk EFUSE_BLK0) as [->|Hne].
    - split; [done|]. by intros [? _].
    - rewrite andb_true_iff, (block_nonzero _ blk Hw), (block_nonzero _ blk (registers_wf _)). unfold pending, chip_bit. split; [intros [(i & ? & ?) (k & ? & ?)]; split; [done|by exists i, k]|intros (_ & i & k & ? & ? & ? & ?); split; [by exists i|by exists k]]. }
  destruct (existsb forbidden _) eqn:E; (split; [intros HE|intros (blk & i & k & Hb & Hi & Hk & Hp & Hc)]); try done.
  - apply existsb_exists in E as (blk & _ & (Hb & i & k & ?)%Hf). exists blk, i, k. tauto.
  - exfalso. assert (Hin : fst (blk, i) ∈ burn_order) by (by apply (block_bit_order (write_mass_blocks s))).
    unfold burn_order in Hin. rewrite list_elem_of_In, <- in_rev, <- list_elem_of_In, elem_of_seq in Hin. cbn [fst] in Hin.
    unfold EFUSE_BLK0 in Hb. enough (existsb forbidden (seq 1 (EFUSE_BLK_MAX - 1)) = true) by congruence.
    apply existsb_exists. exists blk. split; [apply list_elem_of_In, elem_of_seq; lia|]. apply Hf. split; [done|by exists i, k].
Qed.

(** Outside batch mode, with [s] prepared without error. *)
Lemma end_write_spec s err s' : s_batch_writing_mode s = 0 -> blocks_wf (write_mass_blocks s) -> end_write ESP_OK s = (err, s') ->
  burnt (fun p => pending s p = true) (hw s) (hw s') /\ (idle s -> idle s') /\ s_batch_writing_mode s' = 0 /\
  (err = ESP_ERR_CODING <-> rs_conflict (fun p => pending s p = true) s) /\
  (err = ESP_OK /\ (forall p, 0 <= snd p -> pending s p = true -> chip_bit s' p = true) \/
   err = ESP_FAIL \/
   err = ESP_ERR_CODING /\ registers (hw s') = registers (hw s)).
Proof.
  intros Hm Hwf. unfold end_write. rewrite Hm. cbn [Z.eqb is_ok]. destruct (is_ok (esp_efuse_utility_apply_new_coding_scheme s)) eqn:Ec.
  - unfold esp_efuse_utility_burn_efuses, esp_efuse_utility_burn_chip.
    pose proof (burn_blocks_spec (write_mass_blocks s) burn_order Hwf (hw s) ESP_OK ltac:(by left)) as Hb.
    change (write_mass_blocks (count_burn s)) with (write_mass_blocks s). change (hw (count_burn s)) with (hw s).
    destruct (burn_blocks _ _ _ _) as [h error]. destruct Hb as (Hb & He & Hall). intros [= <- <-].
    set (s1 := esp_efuse_utility_reset _).
    assert (Er : registers (hw s1) = registers h) by (subst s1; cbn; by rewrite !read_registers).
    split; [eapply burnt_trans; [exact Hb|by apply burnt_refl]|].
    split; [unfold idle; subst s1; cbn; by rewrite !counter_even|]. split; [done|].
    split; [rewrite <- (coding_conflict s Hwf); split; [by destruct He as [-> | ->]|]; intros E; by rewrite E in Ec|].
    destruct He as [-> | ->]; [left|by right; left]. split; [done|]. intros p Hp Hpend. unfold chip_bit. rewrite Er.
    apply (proj2 (Hall eq_refl) p Hp); [by apply (block_bit_order (write_mass_blocks s))|done].
  - assert (esp_efuse_utility_apply_new_coding_scheme s = ESP_ERR_CODING) as Ecod.
    { unfold esp_efuse_utility_apply_new_coding_scheme in *. by destruct (existsb _ _). }
    intros [= <- <-]. destruct (reset_spec s) as (Er & Hi & Hbm & _). split; [by apply burnt_refl|]. split; [done|]. split; [congruence|].
    split; [split; [by rewrite <- coding_conflict|done]|]. by right; right.
Qed.
(** ** Writing a field *)

(** The places of the bits that a write of [size] bits of [src] is to set. *)
Definition asked (field : list esp_efuse_desc_t) (src : list Z) (size : Z) (p : nat * Z) : Prop :=
  exists j : nat, j < size /\ field_bits field !! j = Some p /\ blob_bit src j = true.

Lemma begin_write_spec s : s_batch_writing_mode s = 0 ->
  registers (hw (begin_write s)) = registers (hw s) /\ (idle s -> idle (begin_write s)) /\ s_batch_writing_mode (begin_write s) = 0 /\
  write_mass_blocks (begin_write s) = empty_blocks.
Proof. intros Hm. unfold begin_write. rewrite Hm. cbn [Z.eqb]. pose proof (reset_spec s) as Hr. by rewrite Hm in Hr. Qed.

(** A write call of [s] that has prepared the bits [new] ends in [s1]. *)
Lemma finish_write s s1 (new : nat * Z -> Prop) : s_batch_writing_mode s = 0 -> same_chip (begin_write s) s1 ->
  (forall p, 0 <= snd p -> pending s1 p = true <-> new p) -> (forall p, new p -> 0 <= snd p) ->
  let '(err, s') := end_write ESP_OK s1 in
  (idle s -> idle s') /\ s_batch_writing_mode s' = 0 /\ burnt new (hw s) (hw s') /\
  (err = ESP_ERR_CODING <-> rs_conflict new s) /\
  (err = ESP_OK /\ (forall p, new p -> chip_bit s' p = true) \/ err = ESP_FAIL \/
   err = ESP_ERR_CODING /\ registers (hw s') = registers (hw s)).
Proof.
  intros Hm (Eh & Ec & Eb & Hwf) Hnew Hplace. destruct (begin_write_spec s Hm) as (Er & Hidle & Hm0 & _).
  destruct (end_write ESP_OK s1) as [err s'] eqn:Ee. apply end_write_spec in Ee as (Hb & Hi & Hm' & Hcod & Hcases); [|congruence|done].
  split; [intros Hidl; apply Hi; unfold idle; rewrite Ec; by apply Hidle|]. split; [done|]. split.
  { eapply burnt_trans; [apply burnt_refl; exact Er|]. eapply burnt_weaken; [|rewrite <- Eh; exact Hb]. intros p Hp0. by apply Hnew. }
  split; [rewrite Hcod; apply rs_conflict_ext; [done|congruence]|].
  destruct Hcases as [[-> Hset]|[->|[-> Er']]]; [left|by right; left|right; right; split; congruence].
  split; [done|]. intros p Hp. pose proof (Hplace p Hp). apply Hset; [done|]. by apply Hnew.
Qed.

(** A write call of [s] that has failed before burning in [s1]. *)
Lemma abort_write s s1 err : s_batch_writing_mode s = 0 -> same_chip (begin_write s) s1 -> is_ok err = false ->
  exists s', end_write err s1 = (err, s') /\ (idle s -> idle s') /\ s_batch_writing_mode s' = 0 /\ registers (hw s') = registers (hw s).
Proof.
  intros Hm (Eh & Ec & Eb & _) He. destruct (begin_write_spec s Hm) as (Er & Hidle & Hm0 & _). destruct (reset_spec s1) as (Er1 & Hi1 & Hm1 & _).
  unfold end_write. rewrite Eb, Hm0, He. cbn [Z.eqb]. eexists. split; [reflexivity|].
  split; [intros Hidl; apply Hi1; unfold idle; rewrite Ec; by apply Hidle|]. split; congruence.
Qed.

Lemma asked_take field size (j : nat) p : Forall run_ok field -> 0 < size ->
  take (Z.to_nat (Z.min size (esp_efuse_get_field_size field))) (field_bits field) !! j = Some p <-> j < size /\ field_bits field !! j = Some p.
Proof.
  intros Hf Hs. rewrite field_size_bits, lookup_take_Some by done. split; [intros [? ?]; split; [lia|done]|].
  intros [Hj Hp]. pose proof (lookup_lt_Some _ _ _ Hp). split; [done|lia].
Qed.

Lemma field_bits_place field (j : nat) p : Forall run_ok field -> field_bits field !! j = Some p -> 0 <= snd p.
Proof.
  intros Hf Hp%list_elem_of_lookup_2. unfold field_bits in Hp. apply list_elem_of_bind in Hp as (d & Hp & Hd).
  rewrite Forall_forall in Hf. destruct (Hf d Hd) as (Hs & _). unfold run_bits in Hp. apply list_elem_of_fmap in Hp as (k & -> & _). cbn. lia.
Qed.

Lemma write_field_spec s field src size :
  s_batch_writing_mode s = 0 -> Forall run_ok field -> 0 < size <= 8 * length src ->
  exists err s', esp_efuse_write_field_blob field src size s = Some (err, s') /\
    (idle s -> idle s') /\ s_batch_writing_mode s' = 0 /\ burnt (asked field src size) (hw s) (hw s') /\
    (err = ESP_ERR_CODING <-> (forall p, asked field src size p -> chip_bit s p = false) /\ rs_conflict (asked field src size) s) /\
    (err = ESP_OK /\ (forall p, asked field src size p -> chip_bit s p = false /\ chip_bit s' p = true) \/
     err = ESP_FAIL /\ (forall p, asked field src size p -> chip_bit s p = false) \/
     registers (hw s') = registers (hw s) /\
       (err = ESP_ERR_EFUSE_REPEATED_PROG /\ (exists p, asked field src size p /\ chip_bit s p = true) \/
        err = ESP_ERR_CODING)).
Proof.
  intros Hm Hf Hsize. unfold esp_efuse_write_field_blob. replace (size =? 0) with false by (symmetry; apply Z.eqb_neq; lia).
  destruct (begin_write_spec s Hm) as (Er & Hidle & Hm0 & Hw0). set (s0 := begin_write s) in *.
  set (req := Z.min size (esp_efuse_get_field_size field)).
  pose proof (process_spec esp_efuse_utility_write_blob req (write_so_far src s0) _ (write_blob_step src s0 req ltac:(subst req; lia))
    false field src size s0 Hf) as Hp. replace (size =? 0) with false in Hp by (symmetry; apply Z.eqb_neq; lia).
  specialize (Hp eq_refl ltac:(subst req; rewrite field_size_bits by done; lia)).
  assert (Hstart : write_so_far src s0 [] src s0).
  { split; [done|]. split; [by (repeat split; try done; rewrite Hw0; apply empty_wf)|]. split; [|by intros j p ?].
    intros p Hpp. split; [auto|]. intros [?|(j & ? & _)]; done. }
  specialize (Hp Hstart ltac:(done)). destruct (esp_efuse_utility_process _ _ _ _ _ _) as [[[err b] s1]|]; [|done].
  assert (Hchip : forall p, chip_bit s0 p = chip_bit s p) by (intros p; unfold chip_bit; by rewrite Er).
  destruct (is_ok err) eqn:Eo.
  - apply is_ok_true in Eo as ->. destruct Hp as (_ & Hsame & Hpend & Hfree).
    assert (Hask : forall p, 0 <= snd p -> pending s1 p = true <-> asked field src size p).
    { intros p Hp0. rewrite Hpend by done. unfold pending at 1. rewrite Hw0, empty_bit by done. unfold asked. split.
      - intros [|(j & Hj%asked_take & Hb)]; [done|exists j; tauto|done|lia].
      - intros (j & Hj & Hp & Hb). right. exists j. split; [apply asked_take; [done|lia|done]|done]. }
    assert (Hclear : forall p, asked field src size p -> chip_bit s p = false).
    { intros p (j & Hj & Hp & Hb). rewrite <- Hchip. apply (Hfree j); [apply asked_take; [done|lia|done]|done]. }
    pose proof (finish_write s s1 (asked field src size) Hm Hsame Hask ltac:(intros p (j & _ & Hp & _); by eapply field_bits_place)) as Hfin.
    destruct (end_write ESP_OK s1) as [err' s']. exists err', s'. split; [done|]. destruct Hfin as (? & ? & ? & ? & Hcases).
    do 3 (split; [done|]). split; [tauto|]. destruct Hcases as [[-> ?]|[->|[-> ?]]]; [left; auto|by right; left|tauto].
  - assert (exists ps, ps `prefix_of` take (Z.to_nat req) (field_bits field) /\ err = ESP_ERR_EFUSE_REPEATED_PROG /\ same_chip s0 s1 /\
      exists (j : nat) p, ps !! j = Some p /\ blob_bit src j = true /\ chip_bit s0 p = true) as (ps & Hpre & -> & Hsame & j & p & Hj & Hb & Hc)
      by (by destruct err).
    destruct (abort_write s s1 ESP_ERR_EFUSE_REPEATED_PROG Hm Hsame eq_refl) as (s' & -> & Hi & Hm' & Er').
    eexists _, s'. do 3 (split; [done|]). split; [by apply burnt_refl|].
    assert (Ha : asked field src size p).
    { eapply prefix_lookup_Some in Hj; [|exact Hpre]. exists j. apply asked_take in Hj; [tauto|done|lia]. }
    rewrite Hchip in Hc. split; [split; [done|intros [Hall _]; rewrite Hall in Hc by done; done]|]. do 2 right. split; [done|].
    left. split; [done|]. by exists p.
Qed.
End Api.
