(* ===== verification/EfuseCnt.v ===== *)
(** * Counting and setting bits of an eFuse field

    Reading the number of set bits of a field, and preparing the first clear
    bits of a field to be set. *)

From S2P Require Import Prelude EspErr EspEfuse EfuseFields EfuseApi.

(** ** Bits of one register *)

Lemma popcount_filter n x : popcount n x = length (List.filter (fun k => Z.testbit x (Z.of_nat k)) (seq 0 n)).
Proof.
  induction n as [|n IH]; [done|]. cbn [popcount]. rewrite seq_S, List.filter_app, length_app, IH. cbn. destruct (Z.testbit x n); cbn; lia.
Qed.

Lemma filterb_none {A} (f : A -> bool) l : (forall x, x ∈ l -> f x = false) -> List.filter f l = [].
Proof. induction l as [|x l IH]; intros Hf; [done|]. cbn. rewrite (Hf x), IH; [done|intros y Hy; apply Hf; by right|by left]. Qed.

Lemma filter_ext_elem {A} (f g : A -> bool) l : (forall x, x ∈ l -> f x = g x) -> List.filter f l = List.filter g l.
Proof. intros Hfg. apply List.filter_ext_in. intros x Hx%list_elem_of_In. by apply Hfg. Qed.

Lemma popcount_masked w (start n : nat) : (start + n <= 32)%nat -> (0 < n)%nat ->
  popcount 32 (Z.land w (get_mask n start)) = length (List.filter (fun k => Z.testbit w (Z.of_nat k)) (seq start n)).
Proof.
  intros Hfit Hn. rewrite popcount_filter. f_equal. f_equal.
  replace 32%nat with (start + (n + (32 - start - n)))%nat by lia. rewrite !seq_app, !List.filter_app.
  assert (Hb : forall k : nat, (k < 32)%nat -> Z.testbit (Z.land w (get_mask n start)) k = Z.testbit w k && ((start <=? k) && (k <? start + n))%nat).
  { intros k Hk. rewrite Z.land_spec, get_mask_bits by lia. f_equal.
    destruct (Z.leb_spec start k), (Nat.leb_spec start k), (Z.ltb_spec k (start + n)), (Nat.ltb_spec k (start + n)), (Z.ltb_spec k 32); cbn; lia || done. }
  rewrite (filterb_none _ (seq 0 start)), (filterb_none _ (seq (0 + start + n) _)), app_nil_r.
  - cbn [app]. apply filter_ext_elem. intros k Hk%elem_of_seq. rewrite Hb by lia.
    destruct (Nat.leb_spec start k), (Nat.ltb_spec k (start + n)); try lia. apply andb_true_r.
  - intros k Hk%elem_of_seq. rewrite Hb by lia. destruct (Nat.ltb_spec k (start + n)); [lia|]. by rewrite !andb_false_r.
  - intros k Hk%elem_of_seq. rewrite Hb by lia. destruct (Nat.leb_spec start k); [lia|]. by rewrite andb_false_r.
Qed.

Lemma bit_mask_spec x i : 0 <= i < 32 -> (Z.land x (u32 (Z.shiftl 1 i)) =? 0) = negb (Z.testbit x i).
Proof.
  intros Hi. assert (E : u32 (Z.shiftl 1 i) = 2 ^ i).
  { rewrite Z.shiftl_1_l. apply Z.mod_small. split; [lia|]. apply Z.pow_lt_mono_r; lia. }
  rewrite E. destruct (Z.testbit x i) eqn:Eb; cbn [negb].
  - apply Z.eqb_neq. intros Hz. pose proof (f_equal (fun z => Z.testbit z i) Hz) as Hz'. cbn beta in Hz'.
    by rewrite Z.land_spec, Eb, Z.pow2_bits_true, Z.bits_0 in Hz' by lia.
  - apply Z.eqb_eq, Z.bits_inj'. intros k Hk. rewrite Z.land_spec, Z.bits_0, Z.pow2_bits_eqb by lia.
    destruct (Z.eqb_spec i k) as [<-|]; [by rewrite Eb|by rewrite andb_false_r].
Qed.

(** The first clear bits are set, as many as are asked for. *)
Lemma set_cnt_loop_spec n : forall (i : nat) masked reg cnt, (i + n <= 32)%nat -> 0 < cnt -> in_range 32 cnt ->
  let free := List.filter (fun k : nat => negb (Z.testbit masked k)) (seq i n) in
  let '(reg', cnt') := set_cnt_loop n i masked reg cnt in
  cnt' = Z.max 0 (cnt - length free) /\ (0 <= reg -> 0 <= reg') /\
  forall k : nat, Z.testbit reg' k = Z.testbit reg k || bool_decide (k ∈ take (Z.to_nat cnt) free).
Proof.
  induction n as [|n IH]; intros i masked reg cnt Hi Hc Hr free.
  { cbn. split; [subst free; cbn; lia|]. split; [done|]. intros k. subst free. cbn. rewrite take_nil, bool_decide_false by (by intros ?%elem_of_nil). by rewrite orb_false_r. }
  cbn [set_cnt_loop]. rewrite bit_mask_spec by lia. subst free. cbn [seq List.filter].
  replace (Z.of_nat i + 1) with (Z.of_nat (S i)) by lia.
  destruct (Z.testbit masked i) eqn:Eb; cbn [negb]; [apply (IH (S i) masked reg cnt); [lia|done|done]|].
  assert (Ew : u32 (cnt - 1) = cnt - 1) by (apply Z.mod_small; unfold in_range in Hr; lia). rewrite Ew.
  assert (Hbit : forall k : nat, Z.testbit (Z.lor reg (u32 (Z.shiftl 1 i))) k = Z.testbit reg k || bool_decide (k = i)).
  { intros k. rewrite Z.lor_spec, wrap_testbit, Z.shiftl_1_l, Z.pow2_bits_eqb by lia. f_equal.
    case_bool_decide as E; [subst; rewrite Z.eqb_refl|]; [destruct (Z.ltb_spec i 32); [done|lia]|].
    destruct (Z.eqb_spec i k); [lia|]. apply andb_false_r. }
  assert (Hcons : forall (c : nat) (l : list nat) (k : nat), Z.testbit reg k || bool_decide (k ∈ take (S c) (i :: l)) =
    Z.testbit reg k || bool_decide (k = i) || bool_decide (k ∈ take c l)).
  { intros c l k. rewrite <- orb_assoc. f_equal. cbn [take]. rewrite <- bool_decide_or. by apply bool_decide_ext, elem_of_cons. }
  assert (Hnn : 0 <= reg -> 0 <= Z.lor reg (u32 (Z.shiftl 1 i))).
  { intros. apply Z.lor_nonneg. split; [done|]. apply wrap_range. lia. }
  replace (Z.to_nat cnt) with (S (Z.to_nat (cnt - 1))) by lia.
  destruct (Z.eqb_spec (cnt - 1) 0) as [E|E].
  - split; [cbn [length]; lia|]. split; [exact Hnn|]. intros k. rewrite Hcons, Hbit, E. destruct (bool_decide (k ∈ take (Z.to_nat 0) _)) eqn:Ed; [|by rewrite orb_false_r].
    apply bool_decide_eq_true in Ed. by apply elem_of_nil in Ed.
  - specialize (IH (S i) masked (Z.lor reg (u32 (Z.shiftl 1 i))) (cnt - 1) ltac:(lia) ltac:(lia) ltac:(unfold in_range in *; lia)).
    cbv zeta in IH. destruct (set_cnt_loop _ _ _ _ _) as [reg' cnt']. destruct IH as (-> & Hnn' & IH). split; [cbn [length]; lia|]. split; [auto|].
    intros k. by rewrite IH, Hbit, Hcons.
Qed.

Lemma take_filter_lt c f (st n k : nat) : (st + n <= 32)%nat -> k ∈ take c (List.filter f (seq st n)) -> (k < 32)%nat.
Proof.
  intros Hst Hk. apply elem_of_take in Hk as (i & Hk%list_elem_of_lookup_2 & _). apply list_elem_of_In, List.filter_In in Hk as [Hk _].
  apply list_elem_of_In, elem_of_seq in Hk. lia.
Qed.

Lemma set_cnt_in_reg_spec (st n : nat) masked c : (st + n <= 32)%nat -> 0 < c -> in_range 32 c ->
  let free := List.filter (fun k : nat => negb (Z.testbit masked k)) (seq st n) in
  exists v c', set_cnt_in_reg st n masked c = Some (v, c') /\ c' = Z.max 0 (c - length free) /\ in_range 32 v /\
    forall k : nat, Z.testbit v k = true <-> k ∈ take (Z.to_nat c) free.
Proof.
  intros Hst Hc Hr free. unfold set_cnt_in_reg. replace (st + n <=? 32) with true by (symmetry; apply Z.leb_le; lia). rewrite Nat2Z.id.
  pose proof (set_cnt_loop_spec n st masked 0 c Hst Hc Hr) as Hl. cbv zeta in Hl. fold free in Hl.
  destruct (set_cnt_loop n st masked 0 c) as [v c1]. destruct Hl as (Hc1 & Hv & Hbits).
  assert (Hin : forall k : nat, Z.testbit v k = true <-> k ∈ take (Z.to_nat c) free).
  { intros k. rewrite Hbits, Z.bits_0. cbn [orb]. apply bool_decide_eq_true. }
  exists v, c1. split; [done|]. split; [done|]. split; [|done].
  apply in_range_bits; [lia|by apply Hv|]. intros i Hi. destruct (Z.testbit v i) eqn:Eb; [|done].
  rewrite <- (Z2Nat.id i) in Eb by lia. apply Hin, take_filter_lt in Eb; [lia|done].
Qed.

(** ** The places of a slice, by the bits of its register *)

Definition reg_place (blk reg : nat) (k : nat) : nat * Z := (blk, 32 * reg + k).

Lemma run_slice_reg d (m n : nat) : 0 <= bit_start d -> (bit_start d + m) mod 32 + n <= 32 ->
  run_slice d m n = reg_place (efuse_block d) (Z.to_nat ((bit_start d + m) / 32)) <$> seq (Z.to_nat ((bit_start d + m) mod 32)) n.
Proof.
  intros Hs Hfit. apply list_eq. intros i. rewrite run_slice_lookup, list_lookup_fmap. destruct (Nat.ltb_spec i n).
  - rewrite lookup_seq_lt by done. cbn. unfold reg_place. do 2 f_equal. Z.to_euclidean_division_equations; lia.
  - by rewrite lookup_seq_ge by done.
Qed.

Lemma filter_fmap {A B} (f : B -> bool) (g : A -> B) l : List.filter f (g <$> l) = g <$> List.filter (fun x => f (g x)) l.
Proof. induction l as [|x l IH]; [done|]. cbn. destruct (f (g x)); cbn; by rewrite IH. Qed.

Section Cnt.
Context {H : Type} `{EfuseLaws H}.

Implicit Types s : efuse_state H.

(** The set and the clear bits among some places. *)
Definition set_bits s (ps : list (nat * Z)) : list (nat * Z) := List.filter (chip_bit s) ps.
Definition free_bits s (ps : list (nat * Z)) : list (nat * Z) := List.filter (fun p => negb (chip_bit s p)) ps.

Lemma slice_bits s d (m n : nat) : run_ok d -> (m + n <= Z.to_nat (bit_count d))%nat -> (0 < n)%nat ->
  (bit_start d + m) mod 32 + n <= 32 ->
  let blk := efuse_block d in let reg := Z.to_nat ((bit_start d + m) / 32) in let st := Z.to_nat ((bit_start d + m) mod 32) in
  exists w, esp_efuse_utility_read_reg blk reg s = Some w /\ in_range 32 w /\
    set_bits s (run_slice d m n) = reg_place blk reg <$> List.filter (fun k => Z.testbit w (Z.of_nat k)) (seq st n) /\
    free_bits s (run_slice d m n) = reg_place blk reg <$> List.filter (fun k => negb (Z.testbit w (Z.of_nat k))) (seq st n).
Proof.
  intros Hd Hm Hn Hfit blk reg st. destruct (slice_register (registers (hw s)) d m n (registers_wf _) Hd Hm Hn Hfit) as (w & Ew & Hr & Hw).
  exists w. split; [done|]. split; [done|]. destruct Hd as (Hs & _ & _). unfold set_bits, free_bits. rewrite run_slice_reg, !filter_fmap by done.
  assert (Hb : forall k, k ∈ seq st n -> chip_bit s (reg_place blk reg k) = Z.testbit w (Z.of_nat k)).
  { intros k Hk%elem_of_seq. unfold chip_bit. specialize (Hw (k - st) ltac:(lia)). unfold reg_place. subst blk reg st.
    etrans; [|etrans; [exact Hw|]]; do 2 f_equal; Z.to_euclidean_division_equations; lia. }
  split; f_equal; apply filter_ext_elem; intros k Hk; by rewrite Hb.
Qed.

(** ** Counting *)

Definition counted s (ps : list (nat * Z)) (n : Z) s' : Prop := s' = s /\ n = length (set_bits s ps).

Lemma count_once_step s req : req < 2 ^ 32 ->
  step_ok (H := H) esp_efuse_utility_count_once req (counted s) (fun _ _ _ _ => False).
Proof.
  intros Hreq ps d m n cnt s' Hd Hm Hn Hle Hfit (-> & ->). unfold esp_efuse_utility_count_once.
  destruct (slice_bits s d m n Hd Hm Hn Hfit) as (w & Ew & _ & Es & _). rewrite Ew. cbn [processed].
  rewrite length_app, run_slice_length. split; [lia|]. split; [done|]. unfold set_bits in *. rewrite List.filter_app, length_app, Es, length_fmap.
  replace ((bit_start d + m) mod 32) with (Z.of_nat (Z.to_nat ((bit_start d + m) mod 32))) at 1 by (Z.to_euclidean_division_equations; lia).
  rewrite popcount_masked by (Z.to_euclidean_division_equations; lia). rewrite Nat2Z.inj_add. apply Z.mod_small. split; [lia|].
  pose proof (List.filter_length_le (chip_bit s) ps). pose proof (List.filter_length_le (fun k => Z.testbit w (Z.of_nat k)) (seq (Z.to_nat ((bit_start d + m) mod 32)) n)) as Hl.
  rewrite length_seq in Hl. lia.
Qed.

Lemma read_cnt_spec s field : Forall run_ok field -> idle s -> esp_efuse_get_field_size field < 2 ^ 32 ->
  esp_efuse_read_field_cnt field s = Some (ESP_OK, Z.of_nat (length (set_bits s (field_bits field)))).
Proof.
  intros Hf Hidle Hsize. unfold esp_efuse_read_field_cnt.
  pose proof (process_spec (A := Z) esp_efuse_utility_count_once (esp_efuse_get_field_size field) (counted s) _
    (count_once_step s _ Hsize) true field 0 0 s Hf eq_refl) as Hp. rewrite field_size_bits in Hp at 1 by done.
  specialize (Hp ltac:(lia) ltac:(done) ltac:(by intros _ ps n s' (-> & _))).
  destruct (esp_efuse_utility_process _ _ _ _ _ _) as [[[err n] s']|]; [|done]. destruct err; try (by destruct Hp as (? & _ & [])).
  destruct Hp as (-> & ->). rewrite bool_decide_false by done. rewrite take_ge by (rewrite field_size_bits by done; lia). done.
Qed.

(** ** Setting the first clear bits *)

(** [c] bits of [cnt] are left after [ps]. *)
Definition chosen_so_far (cnt : Z) s (ps : list (nat * Z)) (c : Z) s' : Prop :=
  same_chip s s' /\ c = Z.max 0 (cnt - length (free_bits s ps)) /\
  forall p, 0 <= snd p -> pending s' p = true <-> pending s p = true \/ p ∈ take (Z.to_nat cnt) (free_bits s ps).

Lemma chosen_extend cnt s ps c s' qs c1 s1 : 0 < c -> chosen_so_far cnt s ps c s' -> same_chip s s1 ->
  c1 = Z.max 0 (c - length (free_bits s qs)) ->
  (forall p, 0 <= snd p -> pending s1 p = true <-> pending s' p = true \/ p ∈ take (Z.to_nat c) (free_bits s qs)) ->
  chosen_so_far cnt s (ps ++ qs) c1 s1.
Proof.
  intros Hc (_ & Ec & Hp) Hs -> Hp1. unfold chosen_so_far, free_bits in *. split; [done|]. rewrite List.filter_app, length_app. split; [lia|].
  intros p Hp0. rewrite Hp1, Hp, take_app, elem_of_app by done. rewrite (take_ge (List.filter _ ps)) by lia.
  replace (Z.to_nat cnt - length (List.filter (fun p => negb (chip_bit s p)) ps))%nat with (Z.to_nat c) by lia. tauto.
Qed.

Lemma write_cnt_step cnt s req : 0 < cnt -> in_range 32 cnt ->
  step_ok (H := H) esp_efuse_utility_write_cnt req (fun ps c s' => 0 < c /\ chosen_so_far cnt s ps c s')
    (fun ps e c s' => e = ESP_OK_EFUSE_CNT /\ c = 0 /\ chosen_so_far cnt s ps c s').
Proof.
  intros Hcnt Hr ps d m n c s' Hd Hm Hn Hle Hfit (Hc & Hsame & Ec & Hpend). unfold esp_efuse_utility_write_cnt.
  destruct (slice_bits s d m n Hd Hm Hn Hfit) as (w & Ew & Hrw & _ & Ef).
  set (blk := efuse_block d) in *. set (reg := Z.to_nat ((bit_start d + m) / 32)) in *. set (st := Z.to_nat ((bit_start d + m) mod 32)) in *.
  replace ((bit_start d + m) mod 32) with (Z.of_nat st) by (subst st; Z.to_euclidean_division_equations; lia).
  assert (Hst : (st + n <= 32)%nat) by (subst st; Z.to_euclidean_division_equations; lia).
  destruct Hsame as (Eh & Eb & Em & Hwf).
  assert (Ew' : esp_efuse_utility_read_reg blk reg s' = Some w) by (unfold esp_efuse_utility_read_reg in *; by rewrite Eh). rewrite Ew'.
  set (mask := get_mask n st). set (masked := Z.land w mask).
  assert (Hmasked : forall k : nat, k ∈ seq st n -> Z.testbit masked k = Z.testbit w k).
  { intros k Hk%elem_of_seq. subst masked mask. rewrite Z.land_spec, get_mask_bits by lia.
    destruct (Z.leb_spec st k), (Z.ltb_spec k (st + n)), (Z.ltb_spec k 32); try lia. apply andb_true_r. }
  rewrite (filter_ext_elem _ (fun k : nat => negb (Z.testbit masked k))) in Ef by (intros k Hk; by rewrite Hmasked).
  enough (exists c1 s1, (if negb (Z.lxor masked mask =? 0) then match set_cnt_in_reg st n masked c with
      | Some r => match write_reg blk reg (fst r) s' with Some s0 => Some (snd r, s0) | None => None end | None => None end else Some (c, s')) = Some (c1, s1) /\
      chosen_so_far cnt s (ps ++ run_slice d m n) c1 s1) as (c1 & s1 & E & Hch).
  { rewrite E. cbn [fst snd]. destruct (Z.eqb_spec c1 0) as [->|Hne]; cbn [processed]; rewrite length_app, run_slice_length.
    - split; [lia|]. by exists (ps ++ run_slice d m n).
    - split; [lia|]. split; [|done]. destruct Hch as (_ & -> & _). lia. }
  destruct (Z.eqb_spec (Z.lxor masked mask) 0) as [Hx|Hx]; cbn [negb].
  - assert (Hnone : List.filter (fun k : nat => negb (Z.testbit masked k)) (seq st n) = []).
    { apply filterb_none. intros k Hk. pose proof Hk as Hk'%elem_of_seq. apply Z.lxor_eq in Hx. rewrite Hx. subst mask.
      rewrite get_mask_bits by lia. destruct (Z.leb_spec st k), (Z.ltb_spec k (st + n)), (Z.ltb_spec k 32); lia || done. }
    exists c, s'. split; [done|]. apply (chosen_extend cnt s ps c s'); [done|done|done| |].
    + rewrite Ef, Hnone. cbn. lia.
    + intros p _. rewrite Ef, Hnone. cbn [fmap list_fmap]. rewrite take_nil, elem_of_nil. tauto.
  - destruct (set_cnt_in_reg_spec st n masked c Hst Hc) as (v & c1 & -> & -> & Hvr & Hin); [unfold in_range in *; lia|]. cbn [fst snd].
    pose proof Hd as (Hs & _ & nr & Hnr & Hend).
    destruct (write_reg_spec blk reg nr v s' Hwf Hnr) as (s1 & -> & (Eh1 & Eb1 & Em1 & Hwf1) & Hp1);
      [subst reg; apply Nat2Z.inj_lt; rewrite Z2Nat.id by (Z.to_euclidean_division_equations; lia); Z.to_euclidean_division_equations; lia|done|].
    eexists _, s1. split; [reflexivity|]. apply (chosen_extend cnt s ps c s'); [done|done|split; [congruence|split; [congruence|split; [congruence|done]]]| |].
    + by rewrite Ef, length_fmap.
    + intros p Hp. rewrite Hp1, orb_true_iff, !andb_true_iff, bool_decide_eq_true, Z.eqb_eq, Ef, <- fmap_take, list_elem_of_fmap by done.
      apply or_iff_compat_l. split.
      * intros [[Hb Hq] Ht]. exists (Z.to_nat (snd p mod 32)). split; [unfold reg_place; destruct p as [pb pi]; cbn [fst snd] in *; f_equal; [done|Z.to_euclidean_division_equations; lia]|].
        apply Hin. by rewrite Z2Nat.id by (Z.to_euclidean_division_equations; lia).
      * intros (k & -> & Hk). pose proof (take_filter_lt _ _ _ _ _ Hst Hk). cbn [reg_place fst snd]. split; [split; [done|Z.to_euclidean_division_equations; lia]|].
        replace ((32 * reg + k) mod 32) with (Z.of_nat k) by (Z.to_euclidean_division_equations; lia). by apply Hin.
Qed.

Lemma write_cnt_spec s field cnt : s_batch_writing_mode s = 0 -> Forall run_ok field -> 0 < cnt -> in_range 32 cnt ->
  let free := free_bits s (field_bits field) in
  let chosen p := p ∈ take (Z.to_nat cnt) free in
  exists err s', esp_efuse_write_field_cnt field cnt s = Some (err, s') /\
    (idle s -> idle s') /\ s_batch_writing_mode s' = 0 /\ burnt chosen (hw s) (hw s') /\
    (err = ESP_ERR_EFUSE_CNT_IS_FULL <-> length free < cnt) /\ (err = ESP_ERR_CODING <-> cnt <= length free /\ rs_conflict chosen s) /\
    (err = ESP_OK /\ (forall p, chosen p -> chip_bit s' p = true) \/ err = ESP_FAIL \/
     registers (hw s') = registers (hw s) /\ (err = ESP_ERR_EFUSE_CNT_IS_FULL \/ err = ESP_ERR_CODING)).
Proof.
  intros Hm Hf Hcnt Hr free chosen. unfold esp_efuse_write_field_cnt. replace (cnt =? 0) with false by (symmetry; apply Z.eqb_neq; lia).
  destruct (begin_write_spec s Hm) as (Er & Hidle & Hm0 & Hw0). set (s0 := begin_write s) in *.
  assert (Hfree : forall ps, free_bits s0 ps = free_bits s ps) by (intros ps; unfold free_bits, chip_bit; by rewrite Er).
  assert (Hstart : 0 < cnt /\ chosen_so_far cnt s0 [] cnt s0).
  { split; [done|]. split; [by (repeat split; try done; rewrite Hw0; apply empty_wf)|]. cbn. split; [lia|].
    intros p _. rewrite take_nil, elem_of_nil. tauto. }
  pose proof (process_spec esp_efuse_utility_write_cnt (esp_efuse_get_field_size field) _ _ (write_cnt_step cnt s0 _ Hcnt Hr)
    false field cnt 0 s0 Hf eq_refl ltac:(rewrite field_size_bits by done; lia) Hstart ltac:(done)) as Hp.
  rewrite field_size_bits, Nat2Z.id, take_ge in Hp by done.
  destruct (esp_efuse_utility_process _ _ _ _ _ _) as [[[err c] s1]|]; [|done].
  destruct (is_ok err) eqn:Eo.
  - apply is_ok_true in Eo as ->. destruct Hp as (Hc & Hsame & Ec & _). rewrite Hfree in Ec. fold free in Ec.
    replace (c =? 0) with false by (symmetry; apply Z.eqb_neq; lia). cbn [negb]. rewrite bool_decide_false by done.
    destruct (abort_write s s1 ESP_ERR_EFUSE_CNT_IS_FULL Hm Hsame eq_refl) as (s' & -> & Hi & Hm' & Er').
    eexists _, s'. do 3 (split; [done|]). split; [by apply burnt_refl|]. split; [split; [lia|done]|]. split; [split; [done|lia]|]. right; right. auto.
  - assert (exists ps, ps `prefix_of` field_bits field /\ err = ESP_OK_EFUSE_CNT /\ c = 0 /\ chosen_so_far cnt s0 ps c s1)
      as (ps & [rest Hpre] & -> & -> & Hsame & Ec & Hpend) by (by destruct err).
    cbn [Z.eqb negb]. rewrite bool_decide_true by done. rewrite Hfree in *.
    assert (Efree : free = free_bits s ps ++ free_bits s rest) by (subst free; rewrite Hpre; apply List.filter_app).
    assert (Hask : forall p, 0 <= snd p -> pending s1 p = true <-> chosen p).
    { intros p Hp0. rewrite Hpend by done. unfold pending at 1. rewrite Hw0, empty_bit by done. subst chosen. cbn beta.
      rewrite Efree, take_app_le by lia. split; [intros [?|?]; done|by right]. }
    assert (Hplace : forall p, chosen p -> 0 <= snd p).
    { intros p Hc. apply elem_of_take in Hc as (i & Hc%list_elem_of_lookup_2 & _). apply list_elem_of_In, List.filter_In in Hc as [Hc _].
      apply list_elem_of_In, list_elem_of_lookup in Hc as [j Hc]. by eapply field_bits_place. }
    pose proof (finish_write s s1 chosen Hm Hsame Hask Hplace) as Hfin. destruct (end_write ESP_OK s1) as [err' s'].
    assert (Hlen : cnt <= length free) by (rewrite Efree, length_app; lia).
    exists err', s'. split; [done|]. destruct Hfin as (? & ? & ? & Hcod & Hcases). do 3 (split; [done|]).
    split; [split; [by destruct Hcases as [[-> _]|[->|[-> _]]]|lia]|]. split; [tauto|]. tauto.
Qed.
End Cnt.
