(* ===== verification/EfuseWrite.v ===== *)
(** * Writing eFuse fields

    What a write call does to the chip, on every branch, and that what has been
    written is read back. [Chip] is a controller on which the calls are run. *)

From S2P Require Import Prelude EspErr EspEfuse EfuseFields EfuseApi EfuseCnt.

(** ** A chip, of whose fuses some cannot be burnt *)
Module Chip.

Record chip := { fuse : nat -> nat -> Z; stuck : nat -> nat -> Z }.

Definition chip_registers (c : chip) : list (list Z) :=
  imap (fun blk n => (fun i => u32 (fuse c blk i)) <$> seq 0 n) block_registers.

Definition program (c : chip) (blk : nat) (data : list Z) : chip :=
  {| fuse := fun b i => if (b =? blk)%nat then Z.lor (fuse c b i) (Z.ldiff (default 0 (data !! i)) (stuck c b i)) else fuse c b i;
     stuck := stuck c |}.

#[export] Instance chip_hal : EfuseHal chip := {|
  registers := chip_registers;
  efuse_hal_read := fun c => c;
  efuse_hal_program := program;
  efuse_hal_is_coding_error_in_block := fun _ _ => false;
|}.

Definition blank : chip := {| fuse := fun _ _ => 0; stuck := fun _ _ => 0 |}.

Definition powered (c : chip) : efuse_state chip := EfuseState c empty_blocks 0 0.

Lemma chip_block_bit c p : block_bit (chip_registers c) p = true <->
  exists n, block_registers !! fst p = Some n /\ (Z.to_nat (snd p / 32) < n)%nat /\
    Z.testbit (fuse c (fst p) (Z.to_nat (snd p / 32))) (snd p mod 32) = true.
Proof.
  unfold block_bit, reg_of, chip_registers. rewrite list_lookup_imap. destruct (block_registers !! fst p) as [n|]; cbn.
  2: { split; [done|]. by intros (n & ? & _). }
  assert (Hm : 0 <= snd p mod 32 < 32) by (apply Z.mod_pos_bound; lia).
  rewrite list_lookup_fmap. destruct (Nat.lt_ge_cases (Z.to_nat (snd p / 32)) n) as [Hlt|Hge].
  - rewrite lookup_seq_lt by done. cbn. rewrite wrap_testbit by lia. destruct (Z.ltb_spec (snd p mod 32) 32); [|lia]. cbn [andb].
    split; [intros Hb; by exists n|]. by intros (n' & [= <-] & _ & Hb).
  - rewrite lookup_seq_ge by done. cbn. split; [done|]. intros (n' & [= <-] & ? & _). lia.
Qed.

#[export] Instance chip_laws : EfuseLaws chip.
Proof.
  split.
  - intros c. split; [done|]. cbn. repeat (apply Forall_cons; split; [repeat (apply Forall_cons; split; [apply wrap_range; lia|]); by apply Forall_nil|]).
    by apply Forall_nil.
  - done.
  - intros c blk data p (n & Hn & Hlt & Hb)%chip_block_bit. apply chip_block_bit. exists n. split; [done|]. split; [done|]. cbn.
    destruct (_ =? _)%nat; [|done]. rewrite Z.lor_spec, Hb. done.
  - intros c blk data p (n & Hn & Hlt & Hb)%chip_block_bit. cbn in Hb. change registers with chip_registers. rewrite chip_block_bit.
    destruct (Nat.eqb_spec (fst p) blk) as [E|E]; [|left; by exists n].
    rewrite Z.lor_spec, orb_true_iff in Hb. destruct Hb as [Hb|Hb]; [left; by exists n|right]. split; [done|].
    rewrite Z.ldiff_spec in Hb by (apply Z.mod_pos_bound; lia). apply andb_true_iff in Hb as [Hb _].
    destruct (data !! Z.to_nat (snd p / 32)) as [w|]; [by exists w|]. cbn in Hb. by rewrite Z.bits_0 in Hb.
Qed.
End Chip.

Section Write.
Context {H : Type} `{EfuseLaws H}.

Implicit Types s : efuse_state H.

(** Bits of the chip after a call that reached its end. *)
Lemma burnt_bit new s s' p : 0 <= snd p -> burnt new (hw s) (hw s') -> (new p -> chip_bit s' p = true) ->
  chip_bit s' p = true <-> chip_bit s p = true \/ new p.
Proof. intros Hp [Hkeep Honly] Hnew. unfold chip_bit in *. split; [by apply Honly|]. intros [Hb|Hn]; [by apply Hkeep|by apply Hnew]. Qed.

(** ** Places of a field, none of them twice *)

Lemma asked_nth field src size (j : nat) p : NoDup (field_bits field) -> field_bits field !! j = Some p ->
  asked field src size p <-> j < size /\ blob_bit src j = true.
Proof.
  intros Hnd Hp. split; [intros (i & Hi & Hp' & Hb)|intros [Hj Hb]; by exists j].
  rewrite (NoDup_lookup _ _ _ _ Hnd Hp Hp'). done.
Qed.

Lemma filter_taken (l : list (nat * Z)) : forall k, NoDup l -> List.filter (fun p => bool_decide (p ∈ take k l)) l = take k l.
Proof.
  induction l as [|x l IH]; intros [|k] Hnd; try done.
  - cbn [take]. apply filterb_none. intros p _. apply bool_decide_false. by intros ?%elem_of_nil.
  - apply NoDup_cons in Hnd as [Hx Hnd]. cbn [take List.filter]. rewrite bool_decide_true by (by left). f_equal. etrans; [|exact (IH k Hnd)].
    apply filter_ext_elem. intros p Hp. apply bool_decide_ext. rewrite elem_of_cons. split; [|by right]. intros [->|?]; done.
Qed.

Lemma filter_filter {A} (f g : A -> bool) l : (forall x, f x = true -> g x = true) -> List.filter f (List.filter g l) = List.filter f l.
Proof.
  intros Hfg. induction l as [|x l IH]; [done|]. cbn. destruct (g x) eqn:Eg; cbn; rewrite IH; [done|].
  destruct (f x) eqn:Ef; [|done]. by rewrite (Hfg x Ef) in Eg.
Qed.

Lemma filter_or {A} (f g : A -> bool) l : (forall x, x ∈ l -> f x && g x = false) ->
  length (List.filter (fun x => f x || g x) l) = (length (List.filter f l) + length (List.filter g l))%nat.
Proof.
  induction l as [|x l IH]; intros Hd; [done|]. cbn. pose proof (Hd x ltac:(by left)) as Hx.
  specialize (IH ltac:(intros y Hy; apply Hd; by right)). destruct (f x), (g x); cbn in *; done || lia.
Qed.

(** ** The properties *)

(** C8: [esp_efuse_write_field_blob] outside batch mode. It always returns. It clears no bit of the chip and sets
    only bits of the field that the source asks for; all of them when it returns [ESP_OK]. It refuses exactly the
    writes that ask for a bit which is set ([ESP_ERR_EFUSE_REPEATED_PROG]), and of the others exactly those to a
    block with the RS coding that has a bit ([ESP_ERR_CODING]); then, and with every error but that of the
    burning, the chip is unchanged. *)
Theorem write_field_burns s field src size :
  s_batch_writing_mode s = 0 -> Forall run_ok field -> 0 < size <= 8 * length src ->
  exists err s', esp_efuse_write_field_blob field src size s = Some (err, s') /\
    burnt (asked field src size) (hw s) (hw s') /\
    (err = ESP_ERR_EFUSE_REPEATED_PROG <-> exists p, asked field src size p /\ chip_bit s p = true) /\
    (err = ESP_ERR_CODING <-> (forall p, asked field src size p -> chip_bit s p = false) /\ rs_conflict (asked field src size) s) /\
    (err = ESP_OK -> forall p, asked field src size p -> chip_bit s' p = true) /\
    (err <> ESP_OK -> err <> ESP_FAIL -> registers (hw s') = registers (hw s)).
Proof.
  intros Hm Hf Hsize. destruct (write_field_spec s field src size Hm Hf Hsize) as (err & s' & E & _ & _ & Hb & Hcod & Hcases).
  exists err, s'. split; [done|]. split; [done|].
  assert (Hset : forall p, chip_bit s p = false -> chip_bit s p = true -> False) by (intros p -> ; done).
  destruct Hcases as [[-> Ha]|[[-> Ha]|[Er [[-> Hex]| ->]]]]; (split; [split; [try done|]; try (intros (p & Hp & Hc))|split; [done|split; [try done|done]]]).
  - destruct (Hset p); [by apply Ha|done].
  - intros _ p Hp. by apply Ha.
  - destruct (Hset p); [by apply Ha|done].
  - done.
  - exfalso. destruct Hcod as [Hcod _]. destruct (Hcod eq_refl) as [Hclear _]. destruct (Hset p); [by apply Hclear|done].
Qed.

(** C9: what has been written is read back. When [esp_efuse_write_field_blob] returns [ESP_OK],
    [esp_efuse_read_field_blob] gives each bit of the field that was set before or that the source asks for,
    and no other; bits beyond the field are read as 0. *)
Theorem write_then_read s field src size dst s' :
  s_batch_writing_mode s = 0 -> idle s -> Forall run_ok field -> NoDup (field_bits field) -> 0 < size <= 8 * length src ->
  esp_efuse_utility_get_number_of_items size 8 <= length dst ->
  esp_efuse_write_field_blob field src size s = Some (ESP_OK, s') ->
  exists dst', esp_efuse_read_field_blob field dst size s' = Some (ESP_OK, dst') /\ length dst' = length dst /\
    forall j, 0 <= j < size -> blob_bit dst' j = (j <? esp_efuse_get_field_size field) && (field_bit s field j || blob_bit src j).
Proof.
  intros Hm Hidle Hf Hnd Hsize Hdst Ew. destruct (write_field_spec s field src size Hm Hf Hsize) as (err & s1 & E & Hi & _ & Hb & _ & Hcases).
  rewrite Ew in E. injection E as <- <-. specialize (Hi Hidle).
  destruct (read_field_spec s' field dst size Hf Hi ltac:(lia) Hdst) as (dst' & -> & Hl & _ & Hbits). exists dst'. do 2 (split; [done|]).
  intros j Hj. rewrite Hbits by lia. pose proof (number_of_items size ltac:(lia)) as Hit.
  destruct (Z.ltb_spec j (8 * esp_efuse_utility_get_number_of_items size 8)); [|lia]. destruct (Z.ltb_spec j size); [|lia]. cbn [andb].
  unfold field_bit. rewrite field_size_bits by done. destruct (Z.ltb_spec j (length (field_bits field))) as [Hin|Hout].
  2: { rewrite lookup_ge_None_2 by lia. done. }
  destruct (lookup_lt_is_Some_2 (field_bits field) (Z.to_nat j)) as [p Hp]; [lia|]. rewrite Hp. cbn [andb].
  pose proof (field_bits_place _ _ _ Hf Hp) as Hp0. apply eq_true_iff_eq. rewrite orb_true_iff.
  rewrite (burnt_bit (asked field src size) s s' p Hp0 Hb).
  - rewrite (asked_nth field src size _ p Hnd Hp), Z2Nat.id by lia. tauto.
  - intros Ha. destruct Hcases as [[_ Hok]|[[? _]|[_ [[? _]|?]]]]; try done. by apply Hok.
Qed.

(** [esp_efuse_write_field_cnt] outside batch mode sets that many bits more. It fails with
    [ESP_ERR_EFUSE_CNT_IS_FULL] exactly when the field has fewer clear bits, and the chip is then unchanged; it
    sets bits of the field only and clears none; with [ESP_OK], [esp_efuse_read_field_cnt] counts [cnt] more. *)
Theorem write_cnt_counts s field cnt :
  s_batch_writing_mode s = 0 -> idle s -> Forall run_ok field -> NoDup (field_bits field) -> esp_efuse_get_field_size field < 2 ^ 32 ->
  0 < cnt -> in_range 32 cnt ->
  exists before err s', esp_efuse_read_field_cnt field s = Some (ESP_OK, before) /\
    esp_efuse_write_field_cnt field cnt s = Some (err, s') /\
    burnt (fun p => p ∈ field_bits field) (hw s) (hw s') /\
    (err = ESP_ERR_EFUSE_CNT_IS_FULL <-> esp_efuse_get_field_size field < before + cnt) /\
    (err <> ESP_OK -> err <> ESP_FAIL -> registers (hw s') = registers (hw s)) /\
    (err = ESP_OK -> esp_efuse_read_field_cnt field s' = Some (ESP_OK, before + cnt)).
Proof.
  intros Hm Hidle Hf Hnd Hsize Hcnt Hr. destruct (write_cnt_spec s field cnt Hm Hf Hcnt Hr) as (err & s' & Ew & Hi & _ & Hb & Hfull & _ & Hcases).
  specialize (Hi Hidle). set (bits := field_bits field) in *. set (free := free_bits s bits) in *.
  exists (Z.of_nat (length (set_bits s bits))), err, s'. rewrite !read_cnt_spec by done. fold bits.
  assert (Hsum : (length (set_bits s bits) + length free)%nat = length bits) by (unfold set_bits; subst free; apply List.filter_length).
  assert (Hfield : forall p, p ∈ take (Z.to_nat cnt) free -> p ∈ bits).
  { intros p Hc. apply elem_of_take in Hc as (i & Hc%list_elem_of_lookup_2 & _). apply list_elem_of_In, List.filter_In in Hc as [Hc _].
    by apply list_elem_of_In. }
  split; [done|]. split; [done|]. split; [eapply burnt_weaken; [|exact Hb]; intros p _; apply Hfield|].
  split; [rewrite Hfull, field_size_bits by done; fold bits; lia|].
  split; [intros; by destruct Hcases as [[? _]|[?|[? _]]]|].
  intros ->. do 2 f_equal. destruct Hcases as [[_ Hset]|[?|[_ [?|?]]]]; [|done..].
  assert (Hlen : cnt <= length free) by (destruct (Z.le_gt_cases cnt (length free)) as [|Hlt]; [done|]; by apply Hfull in Hlt).
  assert (Hfree : forall p, bool_decide (p ∈ take (Z.to_nat cnt) free) = true -> chip_bit s p = false).
  { intros p (i & Hp%list_elem_of_lookup_2 & _)%bool_decide_eq_true%elem_of_take. apply list_elem_of_In, List.filter_In in Hp as [_ Hp].
    by apply negb_true_iff. }
  assert (Echip : forall p, p ∈ bits -> chip_bit s' p = chip_bit s p || bool_decide (p ∈ take (Z.to_nat cnt) free)).
  { intros p [j Hj]%list_elem_of_lookup. apply eq_true_iff_eq. rewrite orb_true_iff, bool_decide_eq_true.
    apply (burnt_bit (fun p => p ∈ take (Z.to_nat cnt) free)); [by eapply field_bits_place|done|apply Hset]. }
  unfold set_bits at 1. rewrite (filter_ext_elem _ _ bits Echip), filter_or.
  - fold (set_bits s bits). rewrite Nat2Z.inj_add. f_equal.
    enough (List.filter (fun p => bool_decide (p ∈ take (Z.to_nat cnt) free)) bits = take (Z.to_nat cnt) free) as -> by (rewrite length_take; lia).
    rewrite <- (filter_filter _ (fun p => negb (chip_bit s p)) bits) by (intros p Hp; by rewrite (Hfree p Hp)).
    apply filter_taken. apply NoDup_ListNoDup, List.NoDup_filter. by apply NoDup_ListNoDup.
  - intros p _. case_bool_decide as Hp; [|apply andb_false_r]. by rewrite (Hfree p) by (by apply bool_decide_eq_true).
Qed.
End Write.

(** ** Fields of a chip *)

Import Chip.

(** Two runs of block 3, the first of them over two registers. *)
Definition two_runs : list esp_efuse_desc_t := [Desc 3 28 8; Desc 3 70 5].

Lemma two_runs_ok : Forall run_ok two_runs /\ NoDup (field_bits two_runs).
Proof.
  split; [|apply (bool_decide_unpack _); by vm_compute].
  repeat constructor; cbn; try lia; exists 8%nat; (split; [done|lia]).
Qed.

Lemma write_field_burns_witness :
  exists s', esp_efuse_write_field_blob two_runs [0xA5; 0x13] 13 (powered blank) = Some (ESP_OK, s') /\
    chip_bit s' (3%nat, 28) = true /\ chip_bit s' (3%nat, 30) = true.
Proof.
  destruct (write_field_burns (powered blank) two_runs [0xA5; 0x13] 13 eq_refl (proj1 two_runs_ok) ltac:(cbn; lia))
    as (err & s' & E & _ & _ & _ & Hset & _).
  assert (err = ESP_OK) as -> by (vm_compute in E; congruence). exists s'. split; [exact E|].
  split; apply Hset; [done| |done|]; [exists 0%nat|exists 2%nat]; (split; [done|]; split; done).
Defined.

(** A second write that asks for one of these bits is refused. *)
Example repeated_write :
  match esp_efuse_write_field_blob two_runs [0xA5; 0x13] 13 (powered blank) with
  | Some (ESP_OK, s) => fst <$> esp_efuse_write_field_blob two_runs [0x04] 8 s = Some ESP_ERR_EFUSE_REPEATED_PROG
  | _ => False
  end.
Proof. by vm_compute. Qed.

Lemma write_then_read_witness :
  exists s' dst', esp_efuse_write_field_blob two_runs [0xA5; 0x13] 13 (powered blank) = Some (ESP_OK, s') /\
    esp_efuse_read_field_blob two_runs [0; 0xFF] 13 s' = Some (ESP_OK, dst') /\ blob_bit dst' 7 = true /\ blob_bit dst' 10 = false.
Proof.
  destruct (esp_efuse_write_field_blob two_runs [0xA5; 0x13] 13 (powered blank)) as [[err s']|] eqn:E; [|vm_compute in E; done].
  assert (err = ESP_OK) as -> by (vm_compute in E; congruence).
  destruct (write_then_read (powered blank) two_runs [0xA5; 0x13] 13 [0; 0xFF] s' eq_refl eq_refl (proj1 two_runs_ok) (proj2 two_runs_ok)
    ltac:(cbn; lia) ltac:(done) E) as (dst' & Er & _ & Hb).
  exists s', dst'. split; [reflexivity|]. split; [exact Er|]. split; (rewrite Hb by lia); reflexivity.
Defined.

Lemma write_cnt_counts_witness :
  exists s', esp_efuse_write_field_cnt two_runs 6 (powered blank) = Some (ESP_OK, s') /\
    esp_efuse_read_field_cnt two_runs s' = Some (ESP_OK, 6).
Proof.
  destruct (write_cnt_counts (powered blank) two_runs 6 eq_refl eq_refl (proj1 two_runs_ok) (proj2 two_runs_ok)
    ltac:(done) ltac:(done) ltac:(split; done)) as (before & err & s' & Eb & E & _ & _ & _ & Hok).
  assert (before = 0) as -> by (vm_compute in Eb; congruence).
  assert (err = ESP_OK) as -> by (vm_compute in E; congruence). exists s'. split; [exact E|]. by apply Hok.
Defined.

Example cnt_is_full : fst <$> esp_efuse_write_field_cnt two_runs 14 (powered blank) = Some ESP_ERR_EFUSE_CNT_IS_FULL.
Proof. by vm_compute. Qed.

(** In batch mode a call that fails leaves the bits it has prepared, and the commit burns them. *)
Example failed_batch_write_is_burnt :
  let s := powered {| fuse := fun b i => if ((b =? 0) && (i =? 3))%nat then 1 else 0; stuck := fun _ _ => 0 |} in
  match esp_efuse_batch_write_begin s with
  | Some (_, s) =>
      match esp_efuse_write_field_blob [Desc 0 95 2] [3] 2 s with
      | Some (err, s) => err = ESP_ERR_EFUSE_REPEATED_PROG /\ fst (esp_efuse_batch_write_commit s) = ESP_OK /\
          chip_bit (snd (esp_efuse_batch_write_commit s)) (0%nat, 95) = true
      | None => False
      end
  | None => False
  end.
Proof. by vm_compute. Qed.

(** Two counting calls of a batch choose the same bits. *)
Example batch_counts_once :
  match esp_efuse_batch_write_begin (powered blank) with
  | Some (_, s) =>
      match esp_efuse_write_field_cnt two_runs 2 s with
      | Some (ESP_OK, s) =>
          match esp_efuse_write_field_cnt two_runs 2 s with
          | Some (ESP_OK, s) => esp_efuse_read_field_cnt two_runs (snd (esp_efuse_batch_write_commit s)) = Some (ESP_OK, 2)
          | _ => False
          end
      | _ => False
      end
  | None => False
  end.
Proof. by vm_compute. Qed.

(** The block calls narrow the offset to a byte: register 8 of a block is register 0. *)
Example read_reg_wraps :
  esp_efuse_read_reg 3 8 (powered {| fuse := fun b i => if (i =? 0)%nat then 0x1234 else 0; stuck := fun _ _ => 0 |}) = Some 0x1234.
Proof. by vm_compute. Qed.
