(* ===== verification/EfuseVersion.v ===== *)
(** * The secure version of the eFuses: anti-rollback

    The version is the number of ones in a field of block 0; it is advanced by
    setting the next bits. *)

From S2P Require Import Prelude EspErr EspEfuse EfuseFields EfuseApi EfuseCnt EfuseWrite.

Definition version_place (k : nat) : nat * Z := (EFUSE_BLK0, 142 + k).

Lemma version_bits : field_bits ESP_EFUSE_SECURE_VERSION = version_place <$> seq 0 16.
Proof. done. Qed.

Lemma version_field_ok : Forall run_ok ESP_EFUSE_SECURE_VERSION.
Proof. repeat constructor; cbn; try lia. exists 6%nat. split; [done|lia]. Qed.

Lemma new_bits_spec (k v : Z) j : 0 <= k <= v -> v <= 16 -> 0 <= j ->
  Z.testbit (u32 (u32 (Z.shiftl 1 v - 1) - u32 (Z.shiftl 1 k - 1))) j = (k <=? j) && (j <? v).
Proof.
  intros Hk Hv Hj. assert (Hp : forall x, 0 <= x <= 16 -> 1 <= 2 ^ x <= 2 ^ 16) by (intros x Hx; split; [|apply Z.pow_le_mono_r; lia]; change 1 with (2 ^ 0); apply Z.pow_le_mono_r; lia).
  pose proof (Hp v ltac:(lia)). pose proof (Hp k ltac:(lia)). assert (2 ^ k <= 2 ^ v) by (apply Z.pow_le_mono_r; lia).
  rewrite !Z.shiftl_1_l, !(wrap_small 32 (2 ^ _ - 1)) by (unfold in_range; lia). rewrite wrap_small by (unfold in_range; lia).
  replace (2 ^ v - 1 - (2 ^ k - 1)) with (Z.shiftl (Z.ones (v - k)) k).
  2: { rewrite Z.shiftl_mul_pow2, Z.ones_equiv, <- Z.sub_1_r, Z.mul_sub_distr_r, <- Z.pow_add_r by lia. replace (v - k + k) with v by lia. lia. }
  rewrite Z.shiftl_spec by done. destruct (Z.leb_spec k j); [|by rewrite Z.testbit_neg_r by lia].
  rewrite Z.testbit_ones_nonneg by lia. cbn [andb]. by destruct (Z.ltb_spec (j - k) (v - k)), (Z.ltb_spec j v); lia || done.
Qed.

Lemma count_below (n : nat) v : 0 <= v <= n -> Z.of_nat (length (List.filter (fun k : nat => k <? v) (seq 0 n))) = v.
Proof.
  intros Hv. replace n with (Z.to_nat v + (n - Z.to_nat v))%nat by lia.
  rewrite seq_app, List.filter_app, (filterb_none _ (seq (0 + _) _)), app_nil_r.
  - rewrite (filter_ext_elem _ (fun _ => true)); [rewrite List.filter_true, length_seq; lia|].
    intros k Hk%elem_of_seq. apply Z.ltb_lt. lia.
  - intros k Hk%elem_of_seq. apply Z.ltb_ge. lia.
Qed.

Lemma filter_le {A} (f g : A -> bool) l : (forall x, x ∈ l -> f x = true -> g x = true) ->
  (length (List.filter f l) <= length (List.filter g l))%nat.
Proof.
  induction l as [|x l IH]; intros Hfg; [done|]. cbn. specialize (IH ltac:(intros y Hy; apply Hfg; by right)).
  pose proof (Hfg x ltac:(by left)) as Hx. destruct (f x); [rewrite Hx by done; cbn; lia|]. destruct (g x); cbn; lia.
Qed.

Section Version.
Context {H : Type} `{EfuseLaws H} (APP_SEC_VER_SIZE_EFUSE_FIELD : Z).
Hypothesis size_configured : 0 < APP_SEC_VER_SIZE_EFUSE_FIELD.

Implicit Types s : efuse_state H.

#[local] Abbreviation size := (secure_version_size APP_SEC_VER_SIZE_EFUSE_FIELD).

Lemma size_bounds : 0 < size <= 16.
Proof. unfold secure_version_size. cbn. lia. Qed.

Lemma read_version_spec s : idle s ->
  esp_efuse_read_secure_version APP_SEC_VER_SIZE_EFUSE_FIELD s =
  Some (Z.of_nat (length (List.filter (fun k => chip_bit s (version_place k)) (seq 0 (Z.to_nat size))))).
Proof.
  intros Hidle. pose proof size_bounds as Hsize. unfold esp_efuse_read_secure_version.
  pose proof (number_of_items size ltac:(lia)) as Hit.
  destruct (read_field_spec s ESP_EFUSE_SECURE_VERSION (replicate 4 0) size version_field_ok Hidle ltac:(lia)) as (dst & -> & Hl & Hr & Hb);
    [cbn; lia|]. cbn [fst snd]. f_equal. rewrite popcount_filter. f_equal.
  specialize (Hr ltac:(repeat constructor; unfold in_range; lia)). rewrite length_replicate in Hl.
  assert (Hbit : forall k : nat, (k < 32)%nat -> Z.testbit (Z.land (le_value dst) (Z.shiftl 1 size - 1)) k =
    (k <? Z.to_nat size)%nat && chip_bit s (version_place k)).
  { intros k Hk. rewrite Z.land_spec, testbit_shiftl_1_sub by lia. rewrite <- (le_bytes_bits 4) by lia.
    rewrite <- Hl, le_bytes_value, Hb by (done || lia). unfold field_bit. rewrite version_bits, list_lookup_fmap, Nat2Z.id.
    destruct (Z.ltb_spec k size), (Nat.ltb_spec k (Z.to_nat size)); try lia.
    destruct (Z.ltb_spec k (8 * esp_efuse_utility_get_number_of_items size 8)); [|lia]. rewrite lookup_seq_lt by lia. cbn [andb]. by rewrite andb_true_r. }
  replace 32%nat with (Z.to_nat size + (32 - Z.to_nat size))%nat by lia. rewrite seq_app, List.filter_app, (filterb_none _ (seq (0 + _) _)), app_nil_r.
  - f_equal. apply filter_ext_elem. intros k Hk%elem_of_seq. rewrite Hbit by lia. by destruct (Nat.ltb_spec k (Z.to_nat size)); [|lia].
  - intros k Hk%elem_of_seq. rewrite Hbit by lia. by destruct (Nat.ltb_spec k (Z.to_nat size)); [lia|].
Qed.

(** The version is [v], its ones being the first bits. *)
Definition version_is s (v : Z) : Prop := forall k : nat, k < size -> chip_bit s (version_place k) = (k <? v).

Lemma read_version_is s v : idle s -> 0 <= v <= size -> version_is s v ->
  esp_efuse_read_secure_version APP_SEC_VER_SIZE_EFUSE_FIELD s = Some v.
Proof.
  intros Hidle Hv Hver. rewrite read_version_spec by done. f_equal. rewrite <- (count_below (Z.to_nat size) v) by lia.
  do 2 f_equal. apply filter_ext_elem. intros k Hk%elem_of_seq. apply Hver. lia.
Qed.

(** The bits that an update from [k] to [v] asks for. *)
Definition new_version_bits (k v : Z) : list Z := le_bytes 4 (u32 (u32 (Z.shiftl 1 v - 1) - u32 (Z.shiftl 1 k - 1))).

Lemma asked_version k v p : 0 <= k <= v -> v <= size ->
  asked ESP_EFUSE_SECURE_VERSION (new_version_bits k v) size p <-> exists j : nat, k <= j < v /\ p = version_place j.
Proof.
  intros Hk Hv. pose proof size_bounds as Hsize. unfold asked, new_version_bits. setoid_rewrite version_bits. setoid_rewrite list_lookup_fmap_Some.
  split.
  - intros (j & Hj & (j' & Hp & [-> Hj']%lookup_seq) & Hb). exists j. rewrite le_bytes_bits, new_bits_spec, andb_true_iff, Z.leb_le, Z.ltb_lt in Hb by lia.
    by rewrite Nat.add_0_l in Hp.
  - intros (j & Hj & ->). exists j. split; [lia|]. split; [exists j; split; [done|]; apply lookup_seq; lia|].
    rewrite le_bytes_bits, new_bits_spec, andb_true_iff, Z.leb_le, Z.ltb_lt by lia. lia.
Qed.

(** Bits [k] to [v - 1] of the version have been burnt, not necessarily all. *)
Lemma burnt_version s s' k v : idle s' -> version_is s k -> 0 <= k <= v -> v <= size ->
  burnt (asked ESP_EFUSE_SECURE_VERSION (new_version_bits k v) size) (hw s) (hw s') ->
  exists k', esp_efuse_read_secure_version APP_SEC_VER_SIZE_EFUSE_FIELD s' = Some k' /\ k <= k' <= v.
Proof.
  intros Hidle Hver Hk Hv [Hkeep Honly]. rewrite read_version_spec by done. eexists. split; [reflexivity|].
  pose proof size_bounds as Hsize. rewrite <- (count_below (Z.to_nat size) k), <- (count_below (Z.to_nat size) v) by lia.
  split; apply Nat2Z.inj_le, filter_le; intros j Hj%elem_of_seq.
  - intros Hb. apply Hkeep. change (chip_bit s (version_place j) = true). by rewrite Hver by lia.
  - intros Hb. apply Z.ltb_lt. destruct (Honly (version_place j)) as [Hb'|Ha]; [cbn; lia|done| |].
    + change (chip_bit s (version_place j) = true) in Hb'. rewrite Hver in Hb' by lia. apply Z.ltb_lt in Hb'. lia.
    + apply asked_version in Ha as (i & Hi & E); [|lia|lia]. unfold version_place in E. injection E as E. lia.
Qed.

Lemma write_version_spec s k v : s_batch_writing_mode s = 0 -> idle s -> version_is s k -> 0 <= k <= v -> v <= size ->
  exists err s', esp_efuse_write_field_blob ESP_EFUSE_SECURE_VERSION (new_version_bits k v) size s = Some (err, s') /\ idle s' /\
    (err = ESP_OK \/ err = ESP_FAIL) /\
    burnt (asked ESP_EFUSE_SECURE_VERSION (new_version_bits k v) size) (hw s) (hw s') /\ (err = ESP_OK -> version_is s' v).
Proof.
  intros Hm Hidle Hver Hk Hv. pose proof size_bounds as Hsize.
  assert (Hlen : 0 < size <= 8 * length (new_version_bits k v)) by (unfold new_version_bits; rewrite le_bytes_length; lia).
  destruct (write_field_spec s _ _ _ Hm version_field_ok Hlen) as (err & s' & E & Hi & _ & Hb & Hcod & Hcases).
  exists err, s'. split; [done|]. split; [by apply Hi|].
  assert (Hclear : forall p, asked ESP_EFUSE_SECURE_VERSION (new_version_bits k v) size p -> chip_bit s p = false).
  { intros p (j & Hj & ->)%asked_version; [|lia|lia]. rewrite Hver by lia. apply Z.ltb_ge. lia. }
  assert (Herr : err = ESP_OK \/ err = ESP_FAIL).
  { destruct Hcases as [[-> _]|[[-> _]|[_ [[-> (p & Ha & Hp)]| ->]]]]; [by left|by right|by rewrite Hclear in Hp|exfalso].
    destruct (proj1 Hcod eq_refl) as [_ (blk & i & c & Hblk & _ & _ & Ha & _)].
    apply asked_version in Ha as (j & _ & [= -> _]); [done|lia|lia]. }
  split; [done|]. split; [done|]. intros ->. destruct Hcases as [[_ Ha]|[[? _]|[_ [[? _]|?]]]]; [|done..].
  intros j Hj. apply eq_true_iff_eq.
  rewrite (burnt_bit _ s s' (version_place j) ltac:(cbn; lia) Hb) by (intros Hp; by apply Ha).
  rewrite asked_version, Hver, !Z.ltb_lt by lia. unfold version_place. split; [intros [?|(i & Hi' & [= E'])]; lia|].
  intros Hjv. destruct (Z.lt_ge_cases j k); [by left|right; by exists j].
Qed.

End Version.

(** ** An update on a chip *)

Import Chip.

(** Version 2, to be raised to 5. *)
Definition version_2 : efuse_state chip :=
  powered {| fuse := fun b i => if ((b =? 0) && (i =? 4))%nat then 0xC000 else 0; stuck := fun _ _ => 0 |}.

Lemma version_2_is : version_is 16 version_2 2.
Proof.
  intros k Hk. change (secure_version_size 16) with 16 in Hk. unfold version_2.
  do 16 (destruct k as [|k]; [done|]). lia.
Qed.


(** On a chip whose next bit cannot be burnt the update still returns [ESP_OK], and the version stays. *)
Example update_ignores_the_write :
  let s := powered {| fuse := fun b i => if ((b =? 0) && (i =? 4))%nat then 0xC000 else 0; stuck := fun _ _ => 0x10000 |} in
  match esp_efuse_update_secure_version 16 3 s with
  | Some (err, s') => err = ESP_OK /\ esp_efuse_read_secure_version 16 s' = Some 2 /\
      fst <$> esp_efuse_write_field_blob ESP_EFUSE_SECURE_VERSION (new_version_bits 2 3) 16 s = Some ESP_FAIL
  | None => False
  end.
Proof. vm_compute. auto. Qed.
