(* ===== verification/HttpdUri.v ===== *)
(** * URI handlers of the HTTP server ([esp_http_server/src/httpd_uri.c])

    The table of registered handlers, the matching of URIs, and the choice of the
    handler of a request. Strings are their bytes up to the terminating 0. *)

From S2P Require Import Prelude EspErr.

#[local] Open Scope abort_scope.

Definition ESP_ERR_HTTPD_HANDLERS_FULL : esp_err_t := ESP_ERR_OTHER 0xb001.
Definition ESP_ERR_HTTPD_HANDLER_EXISTS : esp_err_t := ESP_ERR_OTHER 0xb002.
Definition ESP_ERR_HTTPD_ALLOC_MEM : esp_err_t := ESP_ERR_OTHER 0xb007.

Inductive httpd_err_code_t :=
| HTTPD_500_INTERNAL_SERVER_ERROR
| HTTPD_501_METHOD_NOT_IMPLEMENTED
| HTTPD_505_VERSION_NOT_SUPPORTED
| HTTPD_400_BAD_REQUEST
| HTTPD_401_UNAUTHORIZED
| HTTPD_403_FORBIDDEN
| HTTPD_404_NOT_FOUND
| HTTPD_405_METHOD_NOT_ALLOWED
| HTTPD_408_REQ_TIMEOUT
| HTTPD_411_LENGTH_REQUIRED
| HTTPD_414_URI_TOO_LONG
| HTTPD_431_REQ_HDR_FIELDS_TOO_LARGE.

Definition ASTERISK : Z := 42.
Definition QUESTION : Z := 63.

(** ** Matching *)

(** [strncmp(s1, s2, n) == 0]; past its end a string reads 0. *)
Fixpoint strncmp_eq (n : nat) (s1 s2 : list Z) : bool :=
  match n with
  | O => true
  | S n =>
      let c1 := default 0 (head s1) in
      let c2 := default 0 (head s2) in
      (c1 =? c2) && ((c1 =? 0) || strncmp_eq n (tail s1) (tail s2))
  end.

Definition char_at (s : list Z) (i : nat) : Z := default 0 (s !! i).

Definition httpd_uri_match_simple (uri1 uri2 : list Z) (len2 : nat) : bool :=
  (length uri1 =? len2)%nat && strncmp_eq len2 uri1 uri2.

Definition httpd_uri_match_wildcard (template uri : list Z) (len : nat) : bool :=
  let tpl_len := length template in
  let last := if (0 <? tpl_len)%nat then char_at template (tpl_len - 1) else 0 in
  let prevlast := if (1 <? tpl_len)%nat then char_at template (tpl_len - 2) else 0 in
  let asterisk := (last =? ASTERISK) || ((prevlast =? ASTERISK) && (last =? QUESTION)) in
  let quest := (last =? QUESTION) || ((prevlast =? QUESTION) && (last =? ASTERISK)) in
  let special := (Nat.b2n asterisk + Nat.b2n quest * 2)%nat in
  if (tpl_len <? special)%nat then false
  else
    let exact_match_chars := (tpl_len - special)%nat in
    if (len <? exact_match_chars)%nat then false
    else if negb quest then
      if negb asterisk && negb (len =? exact_match_chars)%nat then false
      else strncmp_eq exact_match_chars template uri
    else if (exact_match_chars <? len)%nat && negb (char_at template exact_match_chars =? char_at uri exact_match_chars) then false
    else if negb (strncmp_eq exact_match_chars template uri) then false
    else asterisk || (len <=? exact_match_chars + 1)%nat.

(** ** The table *)

Record httpd_uri_t := Uri { uri : list Z; method : Z; handler : nat; user_ctx : option nat }.

(** An element of [hd_calls]: null, a registered handler, or a pointer to memory
    that has been freed. *)
Inductive call_slot := Null | Call (h : httpd_uri_t) | Freed.

(** [hd_calls] has [config.max_uri_handlers] elements. *)
Record httpd_uris := HttpdUris {
  hd_calls : list call_slot;
  uri_match_fn : option (list Z -> list Z -> nat -> bool);
}.

Definition with_calls (calls : list call_slot) (hd : httpd_uris) : httpd_uris := HttpdUris calls (uri_match_fn hd).

Definition uri_matches (hd : httpd_uris) : list Z -> list Z -> nat -> bool := default httpd_uri_match_simple (uri_match_fn hd).

(** The loop of [httpd_find_uri_handler]; [None]: freed memory is read. *)
Fixpoint find_loop (hd : httpd_uris) (calls : list call_slot) (u : list Z) (uri_len : nat) (m : Z) (err : httpd_err_code_t) :
    option (option httpd_uri_t * httpd_err_code_t) :=
  match calls with
  | [] | Null :: _ => Some (None, err)
  | Freed :: _ => None
  | Call h :: calls =>
      if uri_matches hd (uri h) u uri_len then
        if method h =? m then Some (Some h, HTTPD_500_INTERNAL_SERVER_ERROR)
        else find_loop hd calls u uri_len m HTTPD_405_METHOD_NOT_ALLOWED
      else find_loop hd calls u uri_len m err
  end.

Definition httpd_find_uri_handler (hd : httpd_uris) (u : list Z) (uri_len : nat) (m : Z) :
    option (option httpd_uri_t * httpd_err_code_t) :=
  find_loop hd (hd_calls hd) u uri_len m HTTPD_404_NOT_FOUND.

(** The loop of [httpd_register_uri_handler]; the answers of [malloc] and [strdup]. *)
Fixpoint register_loop (calls : list call_slot) (h : httpd_uri_t) (malloc_ok strdup_ok : bool) : esp_err_t * list call_slot :=
  match calls with
  | [] => (ESP_ERR_HTTPD_HANDLERS_FULL, [])
  | Null :: calls =>
      if negb malloc_ok then (ESP_ERR_HTTPD_ALLOC_MEM, Null :: calls)
      else if negb strdup_ok then (ESP_ERR_HTTPD_ALLOC_MEM, Freed :: calls)
      else (ESP_OK, Call h :: calls)
  | c :: calls => let '(err, calls) := register_loop calls h malloc_ok strdup_ok in (err, c :: calls)
  end.

Definition httpd_register_uri_handler (hd : httpd_uris) (h : httpd_uri_t) (malloc_ok strdup_ok : bool) : option (esp_err_t * httpd_uris) :=
  let! r := httpd_find_uri_handler hd (uri h) (length (uri h)) (method h) in
  match fst r with
  | Some _ => Some (ESP_ERR_HTTPD_HANDLER_EXISTS, hd)
  | None =>
      let '(err, calls) := register_loop (hd_calls hd) h malloc_ok strdup_ok in
      Some (err, with_calls calls hd)
  end.

(** The handlers behind a removed one move up, then comes a null. *)
Fixpoint shift_loop (calls : list call_slot) : list call_slot :=
  match calls with
  | [] => [Null]
  | Null :: calls => Null :: Null :: calls
  | c :: calls => c :: shift_loop calls
  end.

Fixpoint unregister_loop (calls : list call_slot) (u : list Z) (m : Z) : option (esp_err_t * list call_slot) :=
  match calls with
  | [] | Null :: _ => Some (ESP_ERR_NOT_FOUND, calls)
  | Freed :: _ => None
  | Call h :: calls =>
      if (method h =? m) && bool_decide (uri h = u) then Some (ESP_OK, shift_loop calls)
      else let! r := unregister_loop calls u m in Some (fst r, Call h :: snd r)
  end.

Definition httpd_unregister_uri_handler (hd : httpd_uris) (u : list Z) (m : Z) : option (esp_err_t * httpd_uris) :=
  let! r := unregister_loop (hd_calls hd) u m in Some (fst r, with_calls (snd r) hd).

(** The loop of [httpd_unregister_uri] over [n] elements from [i] on; the result
    is the table, [i] and [j]. *)
Fixpoint unregister_uri_loop (n : nat) (calls : list call_slot) (u : list Z) (i j : nat) : option (list call_slot * nat * nat) :=
  match n with
  | O => Some (calls, i, j)
  | S n =>
      match calls !! i with
      | Some (Call h) =>
          if bool_decide (uri h = u) then unregister_uri_loop n (<[i := Null]> calls) u (S i) (S j)
          else unregister_uri_loop n (<[(i - j)%nat := Call h]> calls) u (S i) j
      | Some Null => Some (calls, i, j)
      | Some Freed | None => None
      end
  end.

Definition httpd_unregister_uri (hd : httpd_uris) (u : list Z) : option (esp_err_t * httpd_uris) :=
  let! r := unregister_uri_loop (length (hd_calls hd)) (hd_calls hd) u 0 0 in
  let '(calls, i, j) := r in
  let calls := foldl (fun calls k => <[k := Null]> calls) calls (seq (i - j) j) in
  Some (if (j =? 0)%nat then ESP_ERR_NOT_FOUND else ESP_OK, with_calls calls hd).

Fixpoint unregister_all_loop (calls : list call_slot) : option (list call_slot) :=
  match calls with
  | [] | Null :: _ => Some calls
  | Freed :: _ => None
  | Call h :: calls => let! calls := unregister_all_loop calls in Some (Null :: calls)
  end.

Definition httpd_unregister_all_uri_handlers (hd : httpd_uris) : option httpd_uris :=
  let! calls := unregister_all_loop (hd_calls hd) in Some (with_calls calls hd).

(** ** A request *)

(** What is done for a request: an error response, nothing, or a handler's call. *)
Inductive uri_action := RESPOND (err : httpd_err_code_t) | NO_PATH | INVOKE (h : httpd_uri_t).

(** [path] is the offset and length of the path in [req_uri], if the URL has one;
    [handle_err] and [invoke] are what responding and the handlers return. *)
Definition httpd_uri (hd : httpd_uris) (req_uri : list Z) (path : option (nat * nat)) (m : Z)
    (handle_err : httpd_err_code_t -> esp_err_t) (invoke : httpd_uri_t -> esp_err_t) : option (esp_err_t * uri_action) :=
  let! r := (match path with
             | Some (off, len) => httpd_find_uri_handler hd (drop off req_uri) len m
             | None => Some (None, HTTPD_500_INTERNAL_SERVER_ERROR)
             end) in
  match r with
  | (Some h, _) => Some (if negb (is_ok (invoke h)) then ESP_FAIL else ESP_OK, INVOKE h)
  | (None, HTTPD_404_NOT_FOUND) => Some (handle_err HTTPD_404_NOT_FOUND, RESPOND HTTPD_404_NOT_FOUND)
  | (None, HTTPD_405_METHOD_NOT_ALLOWED) => Some (handle_err HTTPD_405_METHOD_NOT_ALLOWED, RESPOND HTTPD_405_METHOD_NOT_ALLOWED)
  | (None, _) => Some (ESP_FAIL, NO_PATH)
  end.
