(* ===== verification/HttpdTable.v ===== *)
(** * What the table of URI handlers does

    Wildcard matching is what its documentation says; the array of handlers is a
    list in the order of registration; a request reaches the first handler that
    matches it. *)

From S2P Require Import Prelude EspErr HttpdUri.

#[local] Open Scope abort_scope.

(** ** The documented matching

    "?" makes the character before it optional, "*" lets anything follow, both
    together let anything follow the optional character; elsewhere they are
    ordinary characters. *)
Inductive wildcard_spec : list Z -> list Z -> Prop :=
| match_exact t : last t <> Some ASTERISK -> last t <> Some QUESTION -> wildcard_spec t t
| match_star p r : last p <> Some QUESTION -> wildcard_spec (p ++ [ASTERISK]) (p ++ r)
| match_without p c : c <> ASTERISK -> wildcard_spec (p ++ [c; QUESTION]) p
| match_with p c : c <> ASTERISK -> wildcard_spec (p ++ [c; QUESTION]) (p ++ [c])
| match_both_without p c q : q = [QUESTION; ASTERISK] \/ q = [ASTERISK; QUESTION] -> wildcard_spec (p ++ c :: q) p
| match_both_with p c q r : q = [QUESTION; ASTERISK] \/ q = [ASTERISK; QUESTION] -> wildcard_spec (p ++ c :: q) (p ++ c :: r).

(** ** The table as a list *)

(** Of a URI with [len] characters, by the matching function [fm]. *)
Definition matches (fm : list Z -> list Z -> nat -> bool) (u : list Z) (len : nat) (h : httpd_uri_t) : bool := fm (uri h) u len.

Definition find_first (fm : list Z -> list Z -> nat -> bool) (l : list httpd_uri_t) (u : list Z) (len : nat) (m : Z) : option httpd_uri_t :=
  List.find (fun h => matches fm u len h && (method h =? m)) l.

(** The error that goes with no handler. *)
Definition no_handler (fm : list Z -> list Z -> nat -> bool) (l : list httpd_uri_t) (u : list Z) (len : nat) : httpd_err_code_t :=
  if existsb (matches fm u len) l then HTTPD_405_METHOD_NOT_ALLOWED else HTTPD_404_NOT_FOUND.

(** The handlers [l] fill the table of [max] elements from its start. *)
Definition table_ok (hd : httpd_uris) (max : nat) (l : list httpd_uri_t) : Prop :=
  exists free, hd_calls hd = (Call <$> l) ++ replicate free Null /\ max = (length l + free)%nat.

Fixpoint remove_first (u : list Z) (m : Z) (l : list httpd_uri_t) : list httpd_uri_t :=
  match l with
  | [] => []
  | h :: l => if (method h =? m) && bool_decide (uri h = u) then l else h :: remove_first u m l
  end.

(** The calls that change the table, and what each does to the list. *)
Inductive uri_op :=
| Register (h : httpd_uri_t) (malloc_ok : bool)
| Unregister (u : list Z) (m : Z)
| UnregisterUri (u : list Z)
| UnregisterAll.

Definition run_op (op : uri_op) (hd : httpd_uris) : option (esp_err_t * httpd_uris) :=
  match op with
  | Register h malloc_ok => httpd_register_uri_handler hd h malloc_ok true
  | Unregister u m => httpd_unregister_uri_handler hd u m
  | UnregisterUri u => httpd_unregister_uri hd u
  | UnregisterAll => let! hd := httpd_unregister_all_uri_handlers hd in Some (ESP_OK, hd)
  end.

Definition spec_op (fm : list Z -> list Z -> nat -> bool) (max : nat) (op : uri_op) (l : list httpd_uri_t) : esp_err_t * list httpd_uri_t :=
  match op with
  | Register h malloc_ok =>
      if find_first fm l (uri h) (length (uri h)) (method h) is Some _ then (ESP_ERR_HTTPD_HANDLER_EXISTS, l)
      else if (length l =? max)%nat then (ESP_ERR_HTTPD_HANDLERS_FULL, l)
      else if negb malloc_ok then (ESP_ERR_HTTPD_ALLOC_MEM, l)
      else (ESP_OK, l ++ [h])
  | Unregister u m =>
      if existsb (fun h => (method h =? m) && bool_decide (uri h = u)) l then (ESP_OK, remove_first u m l) else (ESP_ERR_NOT_FOUND, l)
  | UnregisterUri u =>
      (if existsb (fun h => bool_decide (uri h = u)) l then ESP_OK else ESP_ERR_NOT_FOUND, List.filter (fun h => negb (bool_decide (uri h = u))) l)
  | UnregisterAll => (ESP_OK, [])
  end.

Fixpoint run_ops (ops : list uri_op) (hd : httpd_uris) : option (list esp_err_t * httpd_uris) :=
  match ops with
  | [] => Some ([], hd)
  | op :: ops => let! r := run_op op hd in let! rs := run_ops ops (snd r) in Some (fst r :: fst rs, snd rs)
  end.

Fixpoint spec_ops (fm : list Z -> list Z -> nat -> bool) (max : nat) (ops : list uri_op) (l : list httpd_uri_t) : list esp_err_t * list httpd_uri_t :=
  match ops with
  | [] => ([], l)
  | op :: ops => let r := spec_op fm max op l in let rs := spec_ops fm max ops (snd r) in (fst r :: fst rs, snd rs)
  end.

(** The table that [httpd_start] makes. *)
Definition httpd_uris_init (max_uri_handlers : nat) (match_fn : option (list Z -> list Z -> nat -> bool)) : httpd_uris :=
  HttpdUris (replicate max_uri_handlers Null) match_fn.

(** A string of C holds no 0. *)
Definition no_nul (s : list Z) : Prop := Forall (fun c => c <> 0) s.

(** ** Comparison of strings *)

Lemma strncmp_eq_spec n : forall s1 s2, no_nul (take n s1) -> (n <= length s1)%nat -> strncmp_eq n s1 s2 = bool_decide (take n s1 = take n s2).
Proof.
  induction n as [|n IH]; intros s1 s2 Hs Hl; [by rewrite bool_decide_true|].
  destruct s1 as [|c1 s1]; [cbn in Hl; lia|]. apply Forall_cons in Hs as [Hc Hs]. cbn in Hl.
  cbn [strncmp_eq head tail default]. unfold default, id. replace (c1 =? 0) with false by (symmetry; by apply Z.eqb_neq). cbn [orb].
  destruct s2 as [|c2 s2]; cbn [head tail take].
  - replace (c1 =? 0) with false by (symmetry; by apply Z.eqb_neq). by rewrite bool_decide_false.
  - rewrite IH by (done || lia). apply eq_true_iff_eq. rewrite andb_true_iff, Z.eqb_eq, !bool_decide_eq_true. split; [intros [-> ->]; done|by intros [= -> ->]].
Qed.

Lemma match_simple_spec s u rest : no_nul s -> httpd_uri_match_simple s (u ++ rest) (length u) = bool_decide (s = u).
Proof.
  intros Hs. unfold httpd_uri_match_simple. destruct (Nat.eqb_spec (length s) (length u)) as [E|E]; cbn [andb].
  - rewrite strncmp_eq_spec by (by apply Forall_take || lia). rewrite take_app_length, take_ge by lia. done.
  - rewrite bool_decide_false; [done|]. intros ->. done.
Qed.

(** ** Wildcards *)

Lemma char_at_last s : s <> [] -> char_at s (length s - 1) = default 0 (last s).
Proof. intros Hs. unfold char_at. rewrite last_lookup. do 2 f_equal. lia. Qed.

(** The function on a template that ends in [x]. *)
Lemma match_wildcard_snoc p x u len :
  httpd_uri_match_wildcard (p ++ [x]) u len =
  let prevlast := default 0 (last p) in
  let asterisk := (x =? ASTERISK) || ((prevlast =? ASTERISK) && (x =? QUESTION)) in
  let quest := (x =? QUESTION) || ((prevlast =? QUESTION) && (x =? ASTERISK)) in
  let special := (Nat.b2n asterisk + Nat.b2n quest * 2)%nat in
  if (length p + 1 <? special)%nat then false
  else
    let exact := (length p + 1 - special)%nat in
    if (len <? exact)%nat then false
    else if negb quest then if negb asterisk && negb (len =? exact)%nat then false else strncmp_eq exact (p ++ [x]) u
    else if (exact <? len)%nat && negb (char_at (p ++ [x]) exact =? char_at u exact) then false
    else if negb (strncmp_eq exact (p ++ [x]) u) then false
    else asterisk || (len <=? exact + 1)%nat.
Proof.
  unfold httpd_uri_match_wildcard. rewrite length_app. cbn [length].
  replace (0 <? length p + 1)%nat with true by (symmetry; apply Nat.ltb_lt; lia).
  assert (Hl : char_at (p ++ [x]) (length p + 1 - 1) = x).
  { unfold char_at. rewrite lookup_app_r by lia. by replace (length p + 1 - 1 - length p)%nat with 0%nat by lia. }
  rewrite Hl. assert (Hp : (if (1 <? length p + 1)%nat then char_at (p ++ [x]) (length p + 1 - 2) else 0) = default 0 (last p)); [|by rewrite Hp].
  destruct p as [|c p]; [done|]. destruct (Nat.ltb_spec 1 (length (c :: p) + 1)); [|cbn in *; lia].
  rewrite <- char_at_last by done. unfold char_at. rewrite lookup_app_l by (cbn; lia). do 2 f_equal. cbn. lia.
Qed.

Section Wildcard.
Context (u rest : list Z).

Ltac lits := repeat match goal with
  | |- context [?x =? ?y] => first [replace (x =? y) with false by (symmetry; apply Z.eqb_neq; first [done|congruence]) | replace (x =? y) with true by (symmetry; apply Z.eqb_eq; done)]
  end.

Lemma match_wildcard_exact t : no_nul t -> last t <> Some ASTERISK -> last t <> Some QUESTION ->
  httpd_uri_match_wildcard t (u ++ rest) (length u) = bool_decide (t = u).
Proof.
  intros Hn Ha Hq. rewrite <- (match_simple_spec t u rest) by done.
  destruct t as [|x p _] using rev_ind; [unfold httpd_uri_match_wildcard, httpd_uri_match_simple; cbn; by destruct u|].
  rewrite last_snoc in Ha, Hq. rewrite match_wildcard_snoc. cbv zeta. lits. rewrite !andb_false_r. cbn [orb Nat.b2n Nat.mul Nat.add negb andb].
  unfold httpd_uri_match_simple. rewrite length_app. cbn [length]. rewrite Nat.sub_0_r.
  destruct (Nat.ltb_spec (length p + 1) 0); [lia|].
  destruct (Nat.ltb_spec (length u) (length p + 1)), (Nat.eqb_spec (length u) (length p + 1)), (Nat.eqb_spec (length p + 1) (length u)); try lia; cbn [andb negb]; try done.
  by replace (length u) with (length p + 1)%nat.
Qed.

(** [p] begins [u]. *)
Lemma strncmp_prefix p q : no_nul p -> (length p <= length u)%nat ->
  strncmp_eq (length p) (p ++ q) (u ++ rest) = true <-> exists r, u = p ++ r.
Proof.
  intros Hn Hl. rewrite strncmp_eq_spec, take_app_length, take_app_le, bool_decide_eq_true by (rewrite ?take_app_length, ?length_app; done || lia).
  split; [intros Hp; exists (drop (length p) u); by rewrite Hp at 1; rewrite take_drop|]. intros [r ->]. by rewrite take_app_length.
Qed.

Lemma match_wildcard_star p : no_nul p -> last p <> Some QUESTION ->
  httpd_uri_match_wildcard (p ++ [ASTERISK]) (u ++ rest) (length u) = true <-> exists r, u = p ++ r.
Proof.
  intros Hn Hq. rewrite match_wildcard_snoc. cbv zeta.
  replace (default 0 (last p) =? QUESTION) with false by (symmetry; apply Z.eqb_neq; by destruct (last p) as [c|]; [cbn; congruence|]).
  rewrite Z.eqb_refl. change (ASTERISK =? QUESTION) with false. rewrite !andb_false_r. cbn [orb andb Nat.b2n Nat.mul Nat.add negb].
  destruct (Nat.ltb_spec (length p + 1) 1); [lia|]. replace (length p + 1 - 1)%nat with (length p) by lia.
  destruct (Nat.ltb_spec (length u) (length p)) as [Hlt|Hle]; [|by apply strncmp_prefix].
  split; [done|]. intros [r ->]. rewrite length_app in Hlt. lia.
Qed.

(** What is left of the function once the template's end is known. *)
Lemma match_wildcard_optional p c q asterisk : no_nul p ->
  (if (length u <? length p)%nat then false
   else if (length p <? length u)%nat && negb (c =? char_at (u ++ rest) (length p)) then false
   else if negb (strncmp_eq (length p) (p ++ c :: q) (u ++ rest)) then false
   else asterisk || (length u <=? length p + 1)%nat) = true <->
  u = p \/ exists r, u = p ++ c :: r /\ (asterisk = true \/ r = []).
Proof.
  intros Hn. destruct (Nat.ltb_spec (length u) (length p)) as [Hlt|Hle].
  { split; [done|]. intros [-> |(r & -> & _)]; rewrite ?length_app in Hlt; lia. }
  pose proof (strncmp_prefix p (c :: q) Hn Hle) as Hpre. destruct (strncmp_eq _ _ _).
  - destruct (proj1 Hpre eq_refl) as [r Hr]. cbn [negb]. destruct r as [|d r].
    + rewrite app_nil_r in Hr. subst p. rewrite Nat.ltb_irrefl. cbn [andb]. replace (length u <=? length u + 1)%nat with true by (symmetry; apply Nat.leb_le; lia).
      rewrite orb_true_r. tauto.
    + assert (Hlen : (length u = length p + S (length r))%nat) by (rewrite Hr, length_app; done).
      replace (length p <? length u)%nat with true by (symmetry; apply Nat.ltb_lt; lia). cbn [andb].
      assert (Hc : char_at (u ++ rest) (length p) = d) by (unfold char_at; rewrite Hr, <- app_assoc, lookup_app_r, Nat.sub_diag by lia; done). rewrite Hc.
      destruct (Z.eqb_spec c d) as [->|Hne]; cbn [negb].
      * rewrite orb_true_iff, Nat.leb_le. split.
        -- intros [?|?]; right; exists r; (split; [done|]); [by left|right]. destruct r; [done|cbn in *; lia].
        -- intros [-> |(r' & E & [?| ->])]; [exfalso; cbn in *; lia|by left|right]. rewrite E, length_app. cbn. lia.
      * split; [done|]. rewrite Hr. intros [E|(r' & E & _)]; [apply (f_equal length) in E; rewrite length_app in E; cbn in E; lia|].
        apply app_inv_head in E. congruence.
  - cbn [negb]. assert (Hno : ~ exists r, u = p ++ r) by (intros Hx; by apply Hpre in Hx). 
    assert (Hneg : ~ (u = p \/ exists r, u = p ++ c :: r /\ (asterisk = true \/ r = []))).
    { intros [-> |(r & -> & _)]; apply Hno; [exists []; by rewrite app_nil_r|by eexists]. }
    by destruct (_ && _).
Qed.

Lemma char_at_middle p c q : char_at (p ++ c :: q) (length p) = c.
Proof. unfold char_at. by rewrite lookup_app_r, Nat.sub_diag by lia. Qed.

Lemma match_wildcard_quest p c : no_nul p -> c <> ASTERISK ->
  httpd_uri_match_wildcard (p ++ [c; QUESTION]) (u ++ rest) (length u) = true <-> u = p \/ u = p ++ [c].
Proof.
  intros Hn Hc. assert (Hnext : u = p \/ u = p ++ [c] <-> u = p \/ exists r, u = p ++ c :: r /\ (false = true \/ r = [])).
  { split; [intros [?|?]; [by left|right; by exists []; auto]|]. intros [?|(r & ? & [?| ->])]; auto; done. }
  rewrite Hnext, <- (match_wildcard_optional p c [QUESTION] false Hn). rewrite <- (char_at_middle p c [QUESTION]) at 2.
  change [c; QUESTION] with ([c] ++ [QUESTION]). rewrite app_assoc, match_wildcard_snoc. cbv zeta.
  rewrite last_snoc. cbn [default]. unfold default, id. rewrite Z.eqb_refl. change (QUESTION =? ASTERISK) with false.
  replace (c =? ASTERISK) with false by (symmetry; by apply Z.eqb_neq). rewrite !andb_false_r, length_app. cbn [orb andb Nat.b2n Nat.mul Nat.add negb length].
  destruct (Nat.ltb_spec (length p + 1 + 1) 2); [lia|]. by replace (length p + 1 + 1 - 2)%nat with (length p) by lia.
Qed.

Lemma match_wildcard_both p c q : no_nul p -> q = [QUESTION; ASTERISK] \/ q = [ASTERISK; QUESTION] ->
  httpd_uri_match_wildcard (p ++ c :: q) (u ++ rest) (length u) = true <-> u = p \/ exists r, u = p ++ c :: r.
Proof.
  intros Hn Hq. assert (Hnext : (u = p \/ exists r, u = p ++ c :: r) <-> u = p \/ exists r, u = p ++ c :: r /\ (true = true \/ r = [])).
  { split; (intros [?|[r Hr]]; [by left|right; exists r]); [by auto|tauto]. }
  rewrite Hnext, <- (match_wildcard_optional p c q true Hn). rewrite <- (char_at_middle p c q) at 2.
  assert (Hsnoc : exists y x, q = [y; x] /\ (x =? ASTERISK) || (y =? ASTERISK) && (x =? QUESTION) = true /\
    (x =? QUESTION) || (y =? QUESTION) && (x =? ASTERISK) = true) by (destruct Hq as [-> | ->]; by do 2 eexists).
  destruct Hsnoc as (y & x & -> & Ea & Eq). change (c :: [y; x]) with ([c; y] ++ [x]). rewrite app_assoc, match_wildcard_snoc. cbv zeta.
  change [c; y] with ([c] ++ [y]). rewrite app_assoc, last_snoc. unfold default, id. rewrite Ea, Eq, !length_app. cbn [length Nat.b2n Nat.mul Nat.add negb orb].
  destruct (Nat.ltb_spec (length p + 1 + 1 + 1) 3); [lia|]. by replace (length p + 1 + 1 + 1 - 3)%nat with (length p) by lia.
Qed.
End Wildcard.

Lemma no_nul_app p q : no_nul (p ++ q) -> no_nul p.
Proof. by intros [? _]%Forall_app. Qed.

(** [httpd_uri_match_wildcard] is the matching that its documentation describes: on every template and every URI,
    whatever follows the part of the buffer to be tested. *)
Theorem wildcard_matching t u rest : no_nul t ->
  httpd_uri_match_wildcard t (u ++ rest) (length u) = true <-> wildcard_spec t u.
Proof.
  intros Hn. split.
  - destruct t as [|x p _] using rev_ind.
    { rewrite match_wildcard_exact, bool_decide_eq_true by done. intros <-. by apply match_exact. }
    pose proof (no_nul_app _ _ Hn) as Hp. destruct (decide (x = ASTERISK)) as [->|Ha]; [|destruct (decide (x = QUESTION)) as [->|Hq]].
    + destruct (decide (last p = Some QUESTION)) as [Hl|Hl]; [|rewrite match_wildcard_star by done; intros [r ->]; by apply match_star].
      apply last_Some in Hl as [p' ->]. destruct p' as [|c p' _] using rev_ind; [done|]. rewrite <- !app_assoc in *. cbn [app] in *.
      rewrite match_wildcard_both by (by eauto using no_nul_app || auto). intros [-> |[r ->]]; [apply match_both_without|apply match_both_with]; auto.
    + destruct p as [|c p' _] using rev_ind; [done|]. destruct (decide (c = ASTERISK)) as [->|Hc].
      * destruct p' as [|c p' _] using rev_ind; [done|]. rewrite <- !app_assoc in *. cbn [app] in *.
        rewrite match_wildcard_both by (by eauto using no_nul_app || auto). intros [-> |[r ->]]; [apply match_both_without|apply match_both_with]; auto.
      * rewrite <- !app_assoc in *. cbn [app] in *. rewrite match_wildcard_quest by eauto using no_nul_app.
        intros [-> | ->]; [by apply match_without|by apply match_with].
    + rewrite match_wildcard_exact, bool_decide_eq_true by (done || (rewrite last_snoc; congruence)). intros <-.
      apply match_exact; rewrite last_snoc; congruence.
  - destruct 1.
    + rewrite match_wildcard_exact by done. by apply bool_decide_eq_true.
    + rewrite match_wildcard_star by eauto using no_nul_app. by eexists.
    + rewrite match_wildcard_quest by eauto using no_nul_app. by left.
    + rewrite match_wildcard_quest by eauto using no_nul_app. by right.
    + rewrite match_wildcard_both by eauto using no_nul_app. by left.
    + rewrite match_wildcard_both by eauto using no_nul_app. right. by eexists.
Qed.

(** ** The operations on a table that holds a list *)

Section Table.
Context (hd : httpd_uris).

Abbreviation table l free := ((Call <$> l) ++ replicate free Null).

Lemma find_loop_spec l free u len m : forall err,
  find_loop hd (table l free) u len m err =
  Some (match find_first (uri_matches hd) l u len m with
        | Some h => (Some h, HTTPD_500_INTERNAL_SERVER_ERROR)
        | None => (None, if existsb (matches (uri_matches hd) u len) l then HTTPD_405_METHOD_NOT_ALLOWED else err)
        end).
Proof.
  unfold find_first, matches. induction l as [|h l IH]; intros err; cbn; [by destruct free|].
  destruct (uri_matches hd (uri h) u len); cbn [andb orb]; [|apply IH]. destruct (method h =? m); cbn [andb]; [done|].
  rewrite IH. destruct (List.find _ l); [done|]. by destruct (existsb _ l).
Qed.

Lemma register_loop_spec l free h malloc_ok : register_loop (table l free) h malloc_ok true =
  match free with
  | O => (ESP_ERR_HTTPD_HANDLERS_FULL, table l free)
  | S free => if malloc_ok : bool then (ESP_OK, table (l ++ [h]) free) else (ESP_ERR_HTTPD_ALLOC_MEM, table l (S free))
  end.
Proof.
  induction l as [|h' l IH]; cbn [fmap list_fmap app]; [destruct free, malloc_ok; done|]. cbn [register_loop]. rewrite IH.
  destruct free, malloc_ok; done.
Qed.

Lemma shift_loop_spec l free : shift_loop (table l free) = table l (S free).
Proof. induction l as [|h l IH]; cbn; [by destruct free|by rewrite IH]. Qed.

Lemma unregister_loop_spec l free u m : unregister_loop (table l free) u m =
  Some (if existsb (fun h => (method h =? m) && bool_decide (uri h = u)) l then (ESP_OK, table (remove_first u m l) (S free))
        else (ESP_ERR_NOT_FOUND, table l free)).
Proof.
  induction l as [|h l IH]; cbn; [by destruct free|]. destruct ((method h =? m) && bool_decide (uri h = u)); cbn [orb]; [by rewrite shift_loop_spec|].
  rewrite IH. by destruct (existsb _ l).
Qed.

Lemma unregister_all_loop_spec l free : unregister_all_loop (table l free) = Some (replicate (length l + free) Null).
Proof. induction l as [|h l IH]; cbn; [by destruct free|by rewrite IH]. Qed.

Definition kept (u : list Z) : list httpd_uri_t -> list httpd_uri_t := List.filter (fun h => negb (bool_decide (uri h = u))).

Lemma kept_length u l : if existsb (fun h => bool_decide (uri h = u)) l then (length (kept u l) < length l)%nat else length (kept u l) = length l.
Proof.
  unfold kept. induction l as [|h l IH]; [done|]. cbn. pose proof (List.filter_length_le (fun h => negb (bool_decide (uri h = u))) l).
  destruct (bool_decide (uri h = u)); cbn; [lia|]. destruct (existsb _ l); lia.
Qed.

(** The kept handlers are at the start; [gap] is what the moved and the removed
    ones have left behind. *)
Lemma unregister_uri_loop_spec u free l : forall done gap,
  exists gap', unregister_uri_loop (length l + free) ((Call <$> done) ++ gap ++ table l free) u (length done + length gap) (length gap) =
    Some ((Call <$> done ++ kept u l) ++ gap' ++ replicate free Null, length done + length gap + length l, length gap')%nat /\
    length (kept u l) + length gap' = length l + length gap.
Proof.
  induction l as [|h l IH]; intros dn gap.
  { exists gap. cbn [kept List.filter length Nat.add fmap list_fmap app]. rewrite app_nil_r, Nat.add_0_r. split; [|lia].
    destruct free as [|free]; [done|]. cbn [unregister_uri_loop replicate].
    rewrite lookup_app_r, lookup_app_r by (rewrite length_fmap; lia). rewrite length_fmap.
    by replace (length dn + length gap - length dn - length gap)%nat with 0%nat by lia. }
  cbn [length Nat.add unregister_uri_loop fmap list_fmap app].
  rewrite lookup_app_r, lookup_app_r by (rewrite length_fmap; lia). rewrite length_fmap.
  replace (length dn + length gap - length dn - length gap)%nat with 0%nat by lia. cbn [lookup list_lookup].
  unfold kept. cbn [List.filter]. fold (kept u l). destruct (bool_decide (uri h = u)); cbn [negb].
  - rewrite insert_app_r_alt, insert_app_r_alt by (rewrite length_fmap; lia). rewrite length_fmap.
    replace (length dn + length gap - length dn - length gap)%nat with 0%nat by lia. cbn [insert list_insert].
    destruct (IH dn (gap ++ [Null])) as (gap' & E & Hl). rewrite length_app in *. cbn [length] in *. rewrite <- app_assoc in E. cbn [app] in E.
    exists gap'. replace (S (length dn + length gap)) with (length dn + (length gap + 1))%nat by lia.
    replace (S (length gap)) with (length gap + 1)%nat by lia. rewrite E. split; [do 3 f_equal; lia|lia].
  - replace (length dn + length gap - length gap)%nat with (length dn) by lia.
    rewrite insert_app_r_alt by (by rewrite length_fmap). rewrite length_fmap, Nat.sub_diag.
    assert (Hgap : exists gap1, <[0%nat := Call h]> (gap ++ Call h :: table l free) = Call h :: gap1 ++ table l free /\ length gap1 = length gap).
    { destruct gap as [|g gap]; [by exists []|]. exists (gap ++ [Call h]). cbn. rewrite <- app_assoc, length_app. cbn. split; [done|lia]. }
    destruct Hgap as (gap1 & -> & Hg). destruct (IH (dn ++ [h]) gap1) as (gap' & E & Hl).
    rewrite fmap_app, <- !app_assoc, length_app, Hg in E. cbn [fmap list_fmap app length] in E.
    exists gap'. replace (S (length dn + length gap)) with (length dn + 1 + length gap)%nat by lia. rewrite E.
    rewrite <- ?app_assoc. cbn [app length]. split; [do 3 f_equal; lia|lia].
Qed.

Lemma nullify_spec gap : forall pre post, foldl (fun calls k => <[k := Null]> calls) (pre ++ gap ++ post) (seq (length pre) (length gap)) =
  pre ++ replicate (length gap) Null ++ post.
Proof.
  induction gap as [|g gap IH]; intros pre post; [done|]. cbn [length seq foldl replicate app].
  rewrite insert_app_r_alt, Nat.sub_diag by lia. cbn [insert list_insert]. specialize (IH (pre ++ [Null]) post).
  rewrite length_app, <- !app_assoc in IH. cbn [length app] in IH. by rewrite Nat.add_1_r in IH.
Qed.

Lemma register_spec l max h malloc_ok : table_ok hd max l ->
  let r := spec_op (uri_matches hd) max (Register h malloc_ok) l in
  exists hd', httpd_register_uri_handler hd h malloc_ok true = Some (fst r, hd') /\ uri_match_fn hd' = uri_match_fn hd /\ table_ok hd' max (snd r).
Proof.
  intros (free & E & Hmax). unfold httpd_register_uri_handler, httpd_find_uri_handler. rewrite E, find_loop_spec, register_loop_spec. cbn [spec_op].
  destruct (find_first _ l _ _ _); cbn [fst snd]; [exists hd; split; [done|]; split; [done|by exists free]|].
  destruct (Nat.eqb_spec (length l) max), free as [|free]; try lia; [|destruct malloc_ok]; cbn [fst snd negb]; eexists; (split; [reflexivity|]); (split; [done|]).
  - by exists 0%nat.
  - exists free. rewrite length_app. cbn. split; [done|lia].
  - by exists (S free).
Qed.

Lemma unregister_spec l max u m : table_ok hd max l ->
  let r := spec_op (uri_matches hd) max (Unregister u m) l in
  exists hd', httpd_unregister_uri_handler hd u m = Some (fst r, hd') /\ uri_match_fn hd' = uri_match_fn hd /\ table_ok hd' max (snd r).
Proof.
  intros (free & E & Hmax). unfold httpd_unregister_uri_handler. rewrite E, unregister_loop_spec. cbn [spec_op fst snd].
  destruct (existsb _ l) eqn:Ex; eexists; (split; [reflexivity|]); (split; [done|]); [|by exists free]. exists (S free). split; [done|]. rewrite Hmax.
  clear -Ex. induction l as [|h l IH]; [done|]. cbn in *. destruct ((method h =? m) && bool_decide (uri h = u)); cbn in *; [lia|]. specialize (IH Ex). lia.
Qed.

Lemma unregister_uri_spec l max u : table_ok hd max l ->
  let r := spec_op (uri_matches hd) max (UnregisterUri u) l in
  exists hd', httpd_unregister_uri hd u = Some (fst r, hd') /\ uri_match_fn hd' = uri_match_fn hd /\ table_ok hd' max (snd r).
Proof.
  intros (free & E & Hmax). unfold httpd_unregister_uri. rewrite E.
  destruct (unregister_uri_loop_spec u free l [] []) as (gap & El & Hl). cbn [app fmap list_fmap length Nat.add] in El. cbn [length] in Hl.
  rewrite length_app, length_fmap, length_replicate, El. cbn [spec_op fst snd].
  pose proof (kept_length u l) as Hk.
  assert (Ee : (if (length gap =? 0)%nat then ESP_ERR_NOT_FOUND else ESP_OK) =
    (if existsb (fun h => bool_decide (uri h = u)) l then ESP_OK else ESP_ERR_NOT_FOUND)).
  { destruct (existsb _ l), (Nat.eqb_spec (length gap) 0); lia || done. }
  rewrite Ee. eexists. split; [reflexivity|]. split; [reflexivity|].
  exists (length gap + free)%nat. cbn [hd_calls with_calls]. replace (length l - length gap)%nat with (length (Call <$> kept u l)) by (rewrite length_fmap; lia).
  rewrite nullify_spec, replicate_add. split; [done|]. fold (kept u l). lia.
Qed.

Lemma unregister_all_spec l max : table_ok hd max l ->
  exists hd', httpd_unregister_all_uri_handlers hd = Some hd' /\ uri_match_fn hd' = uri_match_fn hd /\ table_ok hd' max [].
Proof.
  intros (free & E & Hmax). unfold httpd_unregister_all_uri_handlers. rewrite E, unregister_all_loop_spec. eexists. split; [reflexivity|].
  split; [done|]. exists (length l + free)%nat. cbn. split; [done|lia].
Qed.

Lemma run_op_spec op l max : table_ok hd max l ->
  let r := spec_op (uri_matches hd) max op l in
  exists hd', run_op op hd = Some (fst r, hd') /\ uri_match_fn hd' = uri_match_fn hd /\ table_ok hd' max (snd r).
Proof.
  intros Hok. destruct op as [h malloc_ok|u m|u|]; cbn [run_op]; [by apply register_spec|by apply unregister_spec|by apply unregister_uri_spec|].
  destruct (unregister_all_spec l max Hok) as (hd' & -> & ? & ?). by exists hd'.
Qed.

(** A request whose URL has a path. *)
Lemma httpd_uri_spec l max req_uri off len m handle_err invoke : table_ok hd max l ->
  httpd_uri hd req_uri (Some (off, len)) m handle_err invoke =
  Some (match find_first (uri_matches hd) l (drop off req_uri) len m with
        | Some h => (if is_ok (invoke h) then ESP_OK else ESP_FAIL, INVOKE h)
        | None => let e := no_handler (uri_matches hd) l (drop off req_uri) len in (handle_err e, RESPOND e)
        end).
Proof.
  intros (free & E & _). unfold httpd_uri, httpd_find_uri_handler, no_handler. rewrite E, find_loop_spec.
  destruct (find_first _ _ _ _ _) as [h|]; [by destruct (is_ok (invoke h))|]. by destruct (existsb _ l).
Qed.
End Table.

Lemma run_ops_spec ops : forall hd l max, table_ok hd max l ->
  let r := spec_ops (uri_matches hd) max ops l in
  exists hd', run_ops ops hd = Some (fst r, hd') /\ uri_match_fn hd' = uri_match_fn hd /\ table_ok hd' max (snd r).
Proof.
  induction ops as [|op ops IH]; intros hd l max Hok; [by exists hd|]. cbn [run_ops spec_ops fst snd].
  destruct (run_op_spec hd op l max Hok) as (hd1 & -> & Ef & Hok1). cbn [fst snd].
  destruct (IH hd1 _ max Hok1) as (hd2 & E2 & Ef2 & Hok2). assert (Em : uri_matches hd1 = uri_matches hd) by (unfold uri_matches; by rewrite Ef).
  rewrite Em in E2, Hok2. rewrite E2. exists hd2. split; [done|]. split; [congruence|done].
Qed.

Lemma init_ok max match_fn : table_ok (httpd_uris_init max match_fn) max [].
Proof. by exists max. Qed.


(** ** With the default matching *)

Section Simple.

Definition key (h : httpd_uri_t) : list Z * Z := (uri h, method h).

(** No two handlers for the same URI and method. *)
Definition distinct (l : list httpd_uri_t) : Prop := NoDup (key <$> l) /\ Forall (fun h => no_nul (uri h)) l.

Definition op_strings (op : uri_op) : Prop := match op with Register h _ => no_nul (uri h) | _ => True end.

(** The calls that may remove [h]. *)
Definition removes (h : httpd_uri_t) (op : uri_op) : bool :=
  match op with
  | Register _ _ => false
  | Unregister u m => (method h =? m) && bool_decide (uri h = u)
  | UnregisterUri u => bool_decide (uri h = u)
  | UnregisterAll => true
  end.

Lemma find_first_simple l u rest m : Forall (fun h => no_nul (uri h)) l ->
  find_first httpd_uri_match_simple l (u ++ rest) (length u) m = List.find (fun h => bool_decide (key h = (u, m))) l.
Proof.
  unfold find_first, matches. induction 1 as [|h l Hh _ IH]; [done|]. cbn. rewrite IH, match_simple_spec by done.
  assert (E : bool_decide (uri h = u) && (method h =? m) = bool_decide (key h = (u, m))); [|by rewrite E].
  apply eq_true_iff_eq. rewrite andb_true_iff, !bool_decide_eq_true, Z.eqb_eq. unfold key. split; [intros [-> ->]; done|by intros [= -> ->]].
Qed.

Lemma find_first_distinct l h : distinct l -> h ∈ l -> List.find (fun h' => bool_decide (key h' = key h)) l = Some h.
Proof.
  intros [Hnd _]. induction l as [|h' l IH]; intros Hin; [by apply elem_of_nil in Hin|]. cbn. apply NoDup_cons in Hnd as [Hn Hnd].
  apply elem_of_cons in Hin as [<-|Hin]; [by rewrite bool_decide_true|]. rewrite bool_decide_false; [by apply IH|].
  intros E. apply Hn. rewrite E. by apply list_elem_of_fmap_2.
Qed.

Lemma filter_distinct f l : distinct l -> distinct (List.filter f l).
Proof.
  intros [Hnd Hs]. split.
  - induction l as [|h l IH]; [done|]. cbn in *. apply NoDup_cons in Hnd as [Hn Hnd]. apply Forall_cons in Hs as [_ Hs].
    specialize (IH Hnd Hs). destruct (f h); [|exact IH]. cbn. apply NoDup_cons. split; [|exact IH]. intros (h' & E & Hin)%list_elem_of_fmap. apply Hn. rewrite E.
    apply list_elem_of_fmap_2. apply list_elem_of_In, List.filter_In in Hin as [Hin _]. by apply list_elem_of_In.
  - apply Forall_forall. intros h Hin. apply list_elem_of_In, List.filter_In in Hin as [Hin _]. rewrite Forall_forall in Hs. by apply Hs, list_elem_of_In.
Qed.

Lemma filter_all_true {A} (f : A -> bool) l : (forall x, x ∈ l -> f x = true) -> List.filter f l = l.
Proof. induction l as [|x l IH]; intros Hf; [done|]. cbn. rewrite (Hf x), IH; [done|intros y Hy; apply Hf; by right|by left]. Qed.

Lemma remove_first_filter u m l : distinct l -> remove_first u m l = List.filter (fun h => negb (bool_decide (key h = (u, m)))) l.
Proof.
  intros [Hnd _]. induction l as [|h l IH]; [done|]. cbn in *. apply NoDup_cons in Hnd as [Hn Hnd].
  assert (E : (method h =? m) && bool_decide (uri h = u) = bool_decide (key h = (u, m))).
  { apply eq_true_iff_eq. rewrite andb_true_iff, !bool_decide_eq_true, Z.eqb_eq. unfold key. split; [intros [-> ->]; done|by intros [= -> ->]]. }
  rewrite E. clear E. case_bool_decide as Hk; cbn; [|by rewrite IH]. symmetry.
  apply filter_all_true. intros h' Hin. rewrite bool_decide_false; [done|]. intros E'. apply Hn. rewrite Hk, <- E'. by apply list_elem_of_fmap_2.
Qed.

Lemma spec_op_distinct op max l : distinct l -> op_strings op -> distinct (snd (spec_op httpd_uri_match_simple max op l)).
Proof.
  intros Hd Hop. destruct op as [h malloc_ok|u m|u|]; cbn.
  - cbn in Hop. pose proof (find_first_simple l (uri h) [] (method h) (proj2 Hd)) as Hf. rewrite app_nil_r in Hf. rewrite Hf.
    destruct (List.find _ l) eqn:E; [done|]. destruct (_ =? _)%nat; [done|]. destruct malloc_ok; [|done]. cbn. destruct Hd as [Hnd Hs]. split.
    + rewrite fmap_app. apply NoDup_app. split; [done|]. split; [|apply NoDup_singleton].
      intros k (h' & -> & Hin)%list_elem_of_fmap Hk. apply list_elem_of_singleton in Hk. apply list_elem_of_In in Hin.
      pose proof (List.find_none _ _ E h' Hin) as Hn. cbn in Hn. by rewrite bool_decide_true in Hn.
    + apply Forall_app. split; [done|]. by apply Forall_singleton.
  - destruct (existsb _ l); [|done]. cbn. rewrite remove_first_filter by done. by apply filter_distinct.
  - by apply filter_distinct.
  - split; [apply NoDup_nil_2|by apply Forall_nil].
Qed.

Lemma spec_op_keeps op max l h : distinct l -> removes h op = false -> h ∈ l -> h ∈ snd (spec_op httpd_uri_match_simple max op l).
Proof.
  intros Hd Hr Hin. destruct op as [h' malloc_ok|u m|u|]; cbn in *.
  - destruct (find_first _ l _ _ _); [done|]. destruct (_ =? _)%nat; [done|]. destruct malloc_ok; [|done]. cbn. apply elem_of_app. by left.
  - destruct (existsb _ l); [|done]. cbn. rewrite remove_first_filter by done. apply list_elem_of_In, List.filter_In. split; [by apply list_elem_of_In|].
    apply negb_true_iff, bool_decide_eq_false. intros [= Hu Hm]. rewrite Hm, Z.eqb_refl, bool_decide_true in Hr; done.
  - apply list_elem_of_In, List.filter_In. split; [by apply list_elem_of_In|]. by rewrite Hr.
  - done.
Qed.

Lemma spec_ops_distinct ops max : forall l, distinct l -> Forall op_strings ops -> distinct (snd (spec_ops httpd_uri_match_simple max ops l)).
Proof.
  induction ops as [|op ops IH]; intros l Hd Hops; [done|]. apply Forall_cons in Hops as [Hop Hops]. cbn. apply IH; [|done]. by apply spec_op_distinct.
Qed.

Lemma spec_ops_keeps ops max h : forall l, distinct l -> Forall op_strings ops -> Forall (fun op => removes h op = false) ops ->
  h ∈ l -> h ∈ snd (spec_ops httpd_uri_match_simple max ops l).
Proof.
  induction ops as [|op ops IH]; intros l Hd Hops Hr Hin; [done|]. apply Forall_cons in Hops as [Hop Hops]. apply Forall_cons in Hr as [Hr1 Hr]. cbn.
  apply IH; [by apply spec_op_distinct|done|done|by apply spec_op_keeps].
Qed.

(** A handler that has been registered is served. With the default matching, whatever was registered or removed
    before, and whatever is registered or removed after except itself, a request for its path and method (the path
    anywhere in the request's URI, followed by anything) calls this handler and no other. *)
Theorem registered_is_served max before h malloc_ok after errs1 errs2 hd1 hd2 hd3 pre rest handle_err invoke :
  Forall op_strings before -> no_nul (uri h) -> Forall op_strings after -> Forall (fun op => removes h op = false) after ->
  run_ops before (httpd_uris_init max None) = Some (errs1, hd1) ->
  httpd_register_uri_handler hd1 h malloc_ok true = Some (ESP_OK, hd2) ->
  run_ops after hd2 = Some (errs2, hd3) ->
  httpd_uri hd3 (pre ++ uri h ++ rest) (Some (length pre, length (uri h))) (method h) handle_err invoke =
  Some (if is_ok (invoke h) then ESP_OK else ESP_FAIL, INVOKE h).
Proof.
  intros Hbefore Hh Hafter Hr E1 E2 E3. set (fm := httpd_uri_match_simple).
  destruct (run_ops_spec before _ [] max (init_ok max None)) as (hd1' & E1' & Ef1 & Hok1). rewrite E1 in E1'. injection E1' as _ <-.
  assert (Em1 : uri_matches hd1 = fm) by (unfold uri_matches; by rewrite Ef1).
  destruct (run_op_spec hd1 (Register h malloc_ok) _ max Hok1) as (hd2' & E2' & Ef2 & Hok2). cbn [run_op] in E2'. rewrite E2 in E2'.
  rewrite Em1 in Hok2, E2'. change (uri_matches (httpd_uris_init max None)) with fm in *.
  assert (Hd1 : distinct (snd (spec_ops fm max before []))) by (apply spec_ops_distinct; [split; [apply NoDup_nil_2|by apply Forall_nil]|done]).
  set (l1 := snd (spec_ops fm max before [])) in *.
  assert (Hd2 : distinct (snd (spec_op fm max (Register h malloc_ok) l1))) by (by apply spec_op_distinct).
  assert (Hin2 : h ∈ snd (spec_op fm max (Register h malloc_ok) l1)).
  { cbn [spec_op] in E2' |- *. destruct (find_first fm l1 _ _ _); [done|]. destruct (_ =? _)%nat; [done|]. destruct malloc_ok; [|done].
    cbn. apply elem_of_app. right. by apply list_elem_of_singleton. }
  injection E2' as _ <-. set (l2 := snd (spec_op fm max (Register h malloc_ok) l1)) in *.
  assert (Em2 : uri_matches hd2 = fm) by (unfold uri_matches; by rewrite Ef2, Ef1).
  destruct (run_ops_spec after hd2 l2 max Hok2) as (hd3' & E3' & Ef3 & Hok3). rewrite E3 in E3'. injection E3' as _ <-.
  rewrite Em2 in Hok3. assert (Em3 : uri_matches hd3 = fm) by (unfold uri_matches; by rewrite Ef3, Ef2, Ef1).
  rewrite (httpd_uri_spec hd3 _ max) by exact Hok3. rewrite drop_app_length, Em3.
  assert (Hd3 : distinct (snd (spec_ops fm max after l2))) by (by apply spec_ops_distinct).
  rewrite find_first_simple by apply Hd3. change (uri h, method h) with (key h). rewrite find_first_distinct; [done|done|]. by apply spec_ops_keeps.
Qed.
End Simple.

(** ** Computed *)
Module UriExample.

Definition str (s : string) : list Z := (fun c => Z.of_nat (Ascii.nat_of_ascii c)) <$> String.list_ascii_of_string s.

Definition wild (template u : string) : bool := httpd_uri_match_wildcard (str template) (str u) (String.length u).

(** The examples of the documentation. *)
Example documented_matches :
  wild "*" "/x" && wild "/foo/?" "/foo" && wild "/foo/?" "/foo/" && wild "/foo/*" "/foo/" && wild "/foo/*" "/foo/bar" &&
  wild "/foo/?*" "/foo/" && wild "/foo/?*" "/foo/bar" && wild "/foo/*?" "/foo" = true.
Proof. reflexivity. Qed.

Example documented_mismatches :
  wild "/foo/*" "/foo" || wild "/foo/*" "/fo" || wild "/foo/?*" "/foox" || wild "/foo/?*" "/fo" = false.
Proof. reflexivity. Qed.

(** When [strdup] fails the slot keeps a pointer to freed memory, and the next request reads it. *)
Example dangling_handler :
  match httpd_register_uri_handler (httpd_uris_init 4 None) (Uri (str "/a") 1 1 None) true false with
  | Some (err, hd) => err = ESP_ERR_HTTPD_ALLOC_MEM /\ httpd_find_uri_handler hd (str "/b") 2 1 = None
  | None => False
  end.
Proof. split; reflexivity. Qed.

End UriExample.

Lemma wildcard_matching_witness : no_nul (UriExample.str "/a/?*") /\ wildcard_spec (UriExample.str "/a/?*") (UriExample.str "/a/b").
Proof.
  assert (Hn : no_nul (UriExample.str "/a/?*")) by (cbn; repeat constructor; done). split; [exact Hn|].
  apply (wildcard_matching (UriExample.str "/a/?*") (UriExample.str "/a/b") (UriExample.str "?x=1") Hn). reflexivity.
Defined.

Lemma registered_is_served_witness :
  exists hd, httpd_uri hd (UriExample.str "http://h/b?x") (Some (8, 2)%nat) 1 (fun _ => ESP_FAIL) (fun _ => ESP_OK) =
    Some (ESP_OK, INVOKE (Uri (UriExample.str "/b") 1 7 None)).
Proof.
  set (a := Uri (UriExample.str "/a") 1 5 None). set (b := Uri (UriExample.str "/b") 1 7 None).
  destruct (run_ops [Register a true] (httpd_uris_init 4 None)) as [[errs1 hd1]|] eqn:E1; [|discriminate E1].
  destruct (httpd_register_uri_handler hd1 b true true) as [[err hd2]|] eqn:E2; [|injection E1 as <- <-; discriminate E2].
  destruct (run_ops [UnregisterUri (UriExample.str "/a"); Unregister (UriExample.str "/b") 2] hd2) as [[errs2 hd3]|] eqn:E3.
  2: { injection E1 as <- <-. injection E2 as <- <-. discriminate E3. }
  assert (err = ESP_OK) as -> by (injection E1 as <- <-; injection E2 as <- <-; reflexivity).
  assert (Hs : no_nul (uri b)) by (cbn; repeat constructor; done).
  exists hd3. apply (registered_is_served 4 [Register a true] b true [UnregisterUri (UriExample.str "/a"); Unregister (UriExample.str "/b") 2]
    errs1 errs2 hd1 hd2 hd3 (UriExample.str "http://h") (UriExample.str "?x") (fun _ => ESP_FAIL) (fun _ => ESP_OK)).
  - repeat constructor; done.
  - exact Hs.
  - repeat constructor.
  - repeat constructor.
  - exact E1.
  - exact E2.
  - exact E3.
Defined.
