(* ===== verification/HttpdSess.v ===== *)
(** * Sessions of the HTTP server ([esp_http_server/src/httpd_sess.c], and the
    loop of the server in [httpd_main.c])

    A session is an open socket with its contexts. Sessions live in an array of
    slots; a slot whose [fd] is -1 is free. The server task alone changes them;
    other tasks ask it to by control messages. *)

From S2P Require Import Prelude EspErr.

(** ** The state *)

(** Contexts and the functions that free them are numbers; [free] is [None].
    The functions that send and receive are not modelled. *)
Record sock_db := SockDb {
  fd : Z;
  ctx : option nat;
  ignore_sess_ctx_changes : bool;
  transport_ctx : option nat;
  free_ctx : option nat;
  free_transport_ctx : option nat;
  lru_counter : Z;
  lru_socket : bool;
  for_async_req : bool;
}.

(** [memset(session, 0, sizeof(struct sock_db))] *)
Definition sock_zero : sock_db := SockDb 0 None false None None None 0 false false.

(** The members of [httpd_req_t] that belong to the session. *)
Record httpd_req := HttpdReq { sess_ctx : option nat; req_free_ctx : option nat; req_ignore_sess_ctx_changes : bool }.

Inductive ctrl_msg := HTTPD_CTRL_SHUTDOWN | HTTPD_CTRL_WORK_CLOSE (session : nat) | HTTPD_CTRL_WORK_OTHER.

(** What the world sees of the server. [SERVED] marks the use of a session, by a
    request that has been processed or by [httpd_sess_update_lru_counter]; the
    others are calls that the server makes. *)
Inductive sess_event :=
| ACCEPTED (fd : Z)
| CLOSE (fd : Z)
| DISCONNECTED (fd : Z)
| CONNECTED (fd : Z)
| SERVED (fd : Z)
| FREE (free_fn : option nat) (c : nat).

Record httpd_data := HttpdData {
  max_open_sockets : nat;
  lru_purge_enable : bool;
  has_open_fn : bool;
  hd_sd : list sock_db;
  hd_sd_active_count : Z;
  hd_lru_counter : Z;
  hd_req : httpd_req;
  hd_req_sd : option nat;
  ctrl : list ctrl_msg;
  stopping : bool;
  log : list sess_event;
}.

(** Updates of one member; the newest event is the head of [log]. *)
Definition with_sd (sd : list sock_db) (hd : httpd_data) : httpd_data :=
  HttpdData (max_open_sockets hd) (lru_purge_enable hd) (has_open_fn hd) sd (hd_sd_active_count hd) (hd_lru_counter hd) (hd_req hd)
    (hd_req_sd hd) (ctrl hd) (stopping hd) (log hd).
Definition with_count (n : Z) (hd : httpd_data) : httpd_data :=
  HttpdData (max_open_sockets hd) (lru_purge_enable hd) (has_open_fn hd) (hd_sd hd) n (hd_lru_counter hd) (hd_req hd)
    (hd_req_sd hd) (ctrl hd) (stopping hd) (log hd).
Definition with_lru (n : Z) (hd : httpd_data) : httpd_data :=
  HttpdData (max_open_sockets hd) (lru_purge_enable hd) (has_open_fn hd) (hd_sd hd) (hd_sd_active_count hd) n (hd_req hd)
    (hd_req_sd hd) (ctrl hd) (stopping hd) (log hd).
Definition with_req (r : httpd_req) (sd : option nat) (hd : httpd_data) : httpd_data :=
  HttpdData (max_open_sockets hd) (lru_purge_enable hd) (has_open_fn hd) (hd_sd hd) (hd_sd_active_count hd) (hd_lru_counter hd) r
    sd (ctrl hd) (stopping hd) (log hd).
Definition with_ctrl (c : list ctrl_msg) (b : bool) (hd : httpd_data) : httpd_data :=
  HttpdData (max_open_sockets hd) (lru_purge_enable hd) (has_open_fn hd) (hd_sd hd) (hd_sd_active_count hd) (hd_lru_counter hd) (hd_req hd)
    (hd_req_sd hd) c b (log hd).
Definition emit (e : sess_event) (hd : httpd_data) : httpd_data :=
  HttpdData (max_open_sockets hd) (lru_purge_enable hd) (has_open_fn hd) (hd_sd hd) (hd_sd_active_count hd) (hd_lru_counter hd) (hd_req hd)
    (hd_req_sd hd) (ctrl hd) (stopping hd) (e :: log hd).

Definition slot (hd : httpd_data) (i : nat) : sock_db := default sock_zero (hd_sd hd !! i).
Definition upd_slot (i : nat) (f : sock_db -> sock_db) (hd : httpd_data) : httpd_data := with_sd (alter f i (hd_sd hd)) hd.

Definition set_fd (n : Z) (s : sock_db) : sock_db :=
  SockDb n (ctx s) (ignore_sess_ctx_changes s) (transport_ctx s) (free_ctx s) (free_transport_ctx s) (lru_counter s) (lru_socket s) (for_async_req s).
Definition set_sctx (c fr : option nat) (s : sock_db) : sock_db :=
  SockDb (fd s) c (ignore_sess_ctx_changes s) (transport_ctx s) fr (free_transport_ctx s) (lru_counter s) (lru_socket s) (for_async_req s).
Definition set_ignore (b : bool) (s : sock_db) : sock_db :=
  SockDb (fd s) (ctx s) b (transport_ctx s) (free_ctx s) (free_transport_ctx s) (lru_counter s) (lru_socket s) (for_async_req s).
Definition set_tctx (c fr : option nat) (s : sock_db) : sock_db :=
  SockDb (fd s) (ctx s) (ignore_sess_ctx_changes s) c (free_ctx s) fr (lru_counter s) (lru_socket s) (for_async_req s).
Definition set_lru (n : Z) (s : sock_db) : sock_db :=
  SockDb (fd s) (ctx s) (ignore_sess_ctx_changes s) (transport_ctx s) (free_ctx s) (free_transport_ctx s) n (lru_socket s) (for_async_req s).
Definition set_lru_socket (b : bool) (s : sock_db) : sock_db :=
  SockDb (fd s) (ctx s) (ignore_sess_ctx_changes s) (transport_ctx s) (free_ctx s) (free_transport_ctx s) (lru_counter s) b (for_async_req s).
Definition set_async (b : bool) (s : sock_db) : sock_db :=
  SockDb (fd s) (ctx s) (ignore_sess_ctx_changes s) (transport_ctx s) (free_ctx s) (free_transport_ctx s) (lru_counter s) (lru_socket s) b.

(** ** Deleting *)

(** [httpd_sess_free_ctx] on a member that holds [c]; the caller clears the member. *)
Definition httpd_sess_free_ctx (c : option nat) (free_fn : option nat) (hd : httpd_data) : httpd_data :=
  match c with Some c => emit (FREE free_fn c) hd | None => hd end.

Definition httpd_sess_clear_ctx (i : nat) (hd : httpd_data) : httpd_data :=
  let hd :=
    match ctx (slot hd i) with
    | Some _ => upd_slot i (set_sctx None None) (httpd_sess_free_ctx (ctx (slot hd i)) (free_ctx (slot hd i)) hd)
    | None => hd
    end in
  match transport_ctx (slot hd i) with
  | Some _ => upd_slot i (set_tctx None None) (httpd_sess_free_ctx (transport_ctx (slot hd i)) (free_transport_ctx (slot hd i)) hd)
  | None => hd
  end.

(** Closing is [close_fn], if there is one, which is to close the socket. *)
Definition httpd_sess_delete (i : nat) (hd : httpd_data) : httpd_data :=
  if fd (slot hd i) <? 0 then hd
  else
    let hd := emit (CLOSE (fd (slot hd i))) hd in
    let hd := emit (DISCONNECTED (fd (slot hd i))) hd in
    let hd := httpd_sess_clear_ctx i hd in
    let hd := upd_slot i (set_fd (-1)) hd in
    let hd := with_count (hd_sd_active_count hd - 1) hd in
    if hd_sd_active_count hd =? 0 then with_lru 0 hd else hd.

(** ** Going through the sessions *)

(** [f] gets the place of a session and says whether to go on. *)
Fixpoint sess_enum_from {C} (n i : nat) (f : nat -> C -> httpd_data -> bool * C * httpd_data) (context : C) (hd : httpd_data) : C * httpd_data :=
  match n with
  | O => (context, hd)
  | S n =>
      let '(go, context, hd) := f i context hd in
      if go then sess_enum_from n (S i) f context hd else (context, hd)
  end.

Definition httpd_sess_enum {C} (f : nat -> C -> httpd_data -> bool * C * httpd_data) (context : C) (hd : httpd_data) : C * httpd_data :=
  sess_enum_from (max_open_sockets hd) 0 f context hd.

Inductive task_t :=
| HTTPD_TASK_INIT
| HTTPD_TASK_GET_ACTIVE
| HTTPD_TASK_GET_FREE
| HTTPD_TASK_FIND_FD
| HTTPD_TASK_SET_DESCRIPTOR
| HTTPD_TASK_DELETE_INVALID
| HTTPD_TASK_FIND_LOWEST_LRU
| HTTPD_TASK_CLOSE.

Record enum_context_t := EnumContext { ctx_fd : Z; fdset : list Z; max_fd : Z; ctx_lru_counter : Z; session : option nat }.

Definition enum_context : enum_context_t := EnumContext 0 [] 0 0 None.

Section Loop.

(** What [fcntl] says of a descriptor, and whether [httpd_sess_pending] finds
    data of a session that has been received already. *)
Context (fd_is_valid : Z -> bool) (httpd_sess_pending : Z -> bool).

Definition enum_function (task : task_t) (i : nat) (c : enum_context_t) (hd : httpd_data) : bool * enum_context_t * httpd_data :=
  let s := slot hd i in
  let found (b : bool) := if b then (false, EnumContext (ctx_fd c) (fdset c) (max_fd c) (ctx_lru_counter c) (Some i), hd) else (true, c, hd) in
  match task with
  | HTTPD_TASK_INIT => (true, c, upd_slot i (fun s => set_sctx None (free_ctx s) (set_fd (-1) s)) hd)
  | HTTPD_TASK_GET_ACTIVE => found (negb (fd s =? -1))
  | HTTPD_TASK_GET_FREE => found (fd s <? 0)
  | HTTPD_TASK_FIND_FD => found (fd s =? ctx_fd c)
  | HTTPD_TASK_SET_DESCRIPTOR =>
      if negb (fd s =? -1) then
        (true, EnumContext (ctx_fd c) (fd s :: fdset c) (if max_fd c <? fd s then fd s else max_fd c) (ctx_lru_counter c) (session c), hd)
      else (true, c, hd)
  | HTTPD_TASK_DELETE_INVALID => (true, c, if negb (fd_is_valid (fd s)) then httpd_sess_delete i hd else hd)
  | HTTPD_TASK_FIND_LOWEST_LRU =>
      if fd s =? -1 then (false, c, hd)
      else if negb (for_async_req s) && (lru_counter s <? ctx_lru_counter c) then
        (true, EnumContext (ctx_fd c) (fdset c) (max_fd c) (lru_counter s) (Some i), hd)
      else (true, c, hd)
  | HTTPD_TASK_CLOSE => (true, c, if negb (fd s =? -1) then httpd_sess_delete i hd else hd)
  end.

Definition httpd_sess_get_free (hd : httpd_data) : option nat :=
  if hd_sd_active_count hd =? max_open_sockets hd then None
  else session (fst (httpd_sess_enum (enum_function HTTPD_TASK_GET_FREE) enum_context hd)).

Definition httpd_is_sess_available (hd : httpd_data) : bool := if httpd_sess_get_free hd is Some _ then true else false.

Definition find_fd (sockfd : Z) (hd : httpd_data) : option nat :=
  session (fst (httpd_sess_enum (enum_function HTTPD_TASK_FIND_FD) (EnumContext sockfd [] 0 0 None) hd)).

Definition httpd_sess_get (sockfd : Z) (hd : httpd_data) : option nat :=
  if (max_open_sockets hd =? 0)%nat then None
  else
    match hd_req_sd hd with
    | Some i => if fd (slot hd i) =? sockfd then Some i else find_fd sockfd hd
    | None => find_fd sockfd hd
    end.

(** [open_answer] is what [open_fn] returns. *)
Definition httpd_sess_new (newfd : Z) (open_answer : esp_err_t) (hd : httpd_data) : esp_err_t * httpd_data :=
  match httpd_sess_get newfd hd with
  | Some _ => (ESP_FAIL, hd)
  | None =>
      match httpd_sess_get_free hd with
      | None => (ESP_FAIL, hd)
      | Some i =>
          let hd := upd_slot i (fun _ => set_fd newfd sock_zero) hd in
          let hd := with_count (hd_sd_active_count hd + 1) hd in
          if has_open_fn hd && negb (is_ok open_answer) then (open_answer, httpd_sess_delete i hd) else (ESP_OK, hd)
      end
  end.

(** ** Contexts *)

Definition httpd_sess_get_ctx (sockfd : Z) (hd : httpd_data) : option nat :=
  match httpd_sess_get sockfd hd with
  | None => None
  | Some i => if bool_decide (hd_req_sd hd = Some i) then sess_ctx (hd_req hd) else ctx (slot hd i)
  end.

Definition httpd_sess_set_ctx (sockfd : Z) (c free_fn : option nat) (hd : httpd_data) : httpd_data :=
  match httpd_sess_get sockfd hd with
  | None => hd
  | Some i =>
      let r := hd_req hd in
      if bool_decide (hd_req_sd hd = Some i) then
        if negb (bool_decide (sess_ctx r = c)) then
          let hd := if negb (bool_decide (ctx (slot hd i) = sess_ctx r)) then httpd_sess_free_ctx (sess_ctx r) (req_free_ctx r) hd else hd in
          with_req (HttpdReq c free_fn (req_ignore_sess_ctx_changes r)) (hd_req_sd hd) hd
        else with_req (HttpdReq (sess_ctx r) free_fn (req_ignore_sess_ctx_changes r)) (hd_req_sd hd) hd
      else
        if negb (bool_decide (ctx (slot hd i) = c)) then
          upd_slot i (set_sctx c free_fn) (httpd_sess_free_ctx (ctx (slot hd i)) (free_ctx (slot hd i)) hd)
        else upd_slot i (set_sctx (ctx (slot hd i)) free_fn) hd
  end.

Definition httpd_sess_get_transport_ctx (sockfd : Z) (hd : httpd_data) : option nat :=
  match httpd_sess_get sockfd hd with Some i => transport_ctx (slot hd i) | None => None end.

Definition httpd_sess_set_transport_ctx (sockfd : Z) (c free_fn : option nat) (hd : httpd_data) : httpd_data :=
  match httpd_sess_get sockfd hd with
  | None => hd
  | Some i =>
      if negb (bool_decide (transport_ctx (slot hd i) = c)) then
        upd_slot i (set_tctx c free_fn) (httpd_sess_free_ctx (transport_ctx (slot hd i)) (free_transport_ctx (slot hd i)) hd)
      else upd_slot i (set_tctx (transport_ctx (slot hd i)) free_fn) hd
  end.

(** ** A request *)

Definition httpd_req_cleanup (hd : httpd_data) : httpd_data :=
  match hd_req_sd hd with
  | None => hd
  | Some i =>
      let r := hd_req hd in
      let s := slot hd i in
      let hd := if negb (req_ignore_sess_ctx_changes r) && negb (bool_decide (ctx s = sess_ctx r)) then httpd_sess_free_ctx (ctx s) (free_ctx s) hd else hd in
      let hd := upd_slot i (fun s => set_ignore (req_ignore_sess_ctx_changes r) (set_sctx (sess_ctx r) (req_free_ctx r) s)) hd in
      with_req r None hd
  end.

(** [httpd_parse_req] reads and parses the request and calls its handler. *)
Definition httpd_req_new (i : nat) (httpd_parse_req : httpd_data -> esp_err_t * httpd_data) (hd : httpd_data) : esp_err_t * httpd_data :=
  let s := slot hd i in
  let hd := with_req (HttpdReq (ctx s) (free_ctx s) (ignore_sess_ctx_changes s)) (Some i) hd in
  let '(ret, hd) := httpd_parse_req hd in
  (ret, if negb (is_ok ret) then httpd_req_cleanup hd else hd).

(** [purged]: what is left of the body could be read. *)
Definition httpd_req_delete (purged : bool) (hd : httpd_data) : esp_err_t * httpd_data :=
  (if purged : bool then ESP_OK else ESP_FAIL, httpd_req_cleanup hd).

Definition httpd_sess_process (i : nat) (httpd_parse_req : httpd_data -> esp_err_t * httpd_data) (purged : bool) (hd : httpd_data) :
    esp_err_t * httpd_data :=
  let '(ret, hd) := httpd_req_new i httpd_parse_req hd in
  if negb (is_ok ret) then (ESP_FAIL, hd)
  else
    let '(ret, hd) := httpd_req_delete purged hd in
    if negb (is_ok ret) then (ESP_FAIL, hd)
    else
      let hd := with_lru (u64 (hd_lru_counter hd + 1)) hd in
      let hd := upd_slot i (set_lru (hd_lru_counter hd)) hd in
      (ESP_OK, emit (SERVED (fd (slot hd i))) hd).

(** ** Closing *)

Definition httpd_sess_update_lru_counter (sockfd : Z) (hd : httpd_data) : esp_err_t * httpd_data :=
  match find_fd sockfd hd with
  | Some i =>
      let hd := with_lru (u64 (hd_lru_counter hd + 1)) hd in
      let hd := upd_slot i (set_lru (hd_lru_counter hd)) hd in
      (ESP_OK, emit (SERVED (fd (slot hd i))) hd)
  | None => (ESP_ERR_NOT_FOUND, hd)
  end.

(** The work that is queued for closing a session. *)
Definition httpd_sess_close (i : nat) (hd : httpd_data) : httpd_data :=
  if (lru_counter (slot hd i) =? 0) && negb (lru_socket (slot hd i)) then hd
  else httpd_sess_delete i (upd_slot i (set_lru_socket false) hd).

(** [sent]: the control message could be sent. *)
Definition httpd_queue_work (msg : ctrl_msg) (sent : bool) (hd : httpd_data) : esp_err_t * httpd_data :=
  if sent : bool then (ESP_OK, with_ctrl (ctrl hd ++ [msg]) (stopping hd) hd) else (ESP_FAIL, hd).

Definition httpd_sess_trigger_close_ (i : nat) (sent : bool) (hd : httpd_data) : esp_err_t * httpd_data :=
  httpd_queue_work (HTTPD_CTRL_WORK_CLOSE i) sent hd.

Definition httpd_sess_trigger_close (sockfd : Z) (sent : bool) (hd : httpd_data) : esp_err_t * httpd_data :=
  match httpd_sess_get sockfd hd with
  | None => (ESP_ERR_NOT_FOUND, hd)
  | Some i => httpd_sess_trigger_close_ i sent hd
  end.

Definition lowest_lru (hd : httpd_data) : option nat :=
  session (fst (httpd_sess_enum (enum_function HTTPD_TASK_FIND_LOWEST_LRU) (EnumContext (-1) [] 0 UINT64_MAX None) hd)).

Definition httpd_sess_close_lru (sent : bool) (hd : httpd_data) : esp_err_t * httpd_data :=
  match lowest_lru hd with
  | None => (ESP_OK, hd)
  | Some i => httpd_sess_trigger_close_ i sent (upd_slot i (set_lru_socket true) hd)
  end.

Definition httpd_sess_delete_invalid (hd : httpd_data) : httpd_data :=
  snd (httpd_sess_enum (enum_function HTTPD_TASK_DELETE_INVALID) enum_context hd).
Definition httpd_sess_close_all (hd : httpd_data) : httpd_data := snd (httpd_sess_enum (enum_function HTTPD_TASK_CLOSE) enum_context hd).
Definition httpd_sess_init (hd : httpd_data) : httpd_data := snd (httpd_sess_enum (enum_function HTTPD_TASK_INIT) enum_context hd).

(** The descriptors to wait for, and the largest. *)
Definition httpd_sess_set_descriptors (hd : httpd_data) : list Z * Z :=
  let c := fst (httpd_sess_enum (enum_function HTTPD_TASK_SET_DESCRIPTOR) (EnumContext 0 [] (-1) 0 None) hd) in (fdset c, max_fd c).

(** [max_fds] is the size of [client_fds]. *)
Fixpoint client_list (sd : list sock_db) (max_fds : nat) (client_fds : list Z) : esp_err_t * list Z :=
  match sd with
  | [] => (ESP_OK, client_fds)
  | s :: sd =>
      if negb (fd s =? -1) then
        if (length client_fds <? max_fds)%nat then client_list sd max_fds (client_fds ++ [fd s]) else (ESP_ERR_INVALID_ARG, client_fds)
      else client_list sd max_fds client_fds
  end.

Definition httpd_get_client_list (max_fds : nat) (hd : httpd_data) : esp_err_t * list Z :=
  if (max_fds =? 0)%nat then (ESP_ERR_INVALID_ARG, []) else client_list (hd_sd hd) max_fds [].

(** ** Asynchronous handlers *)

Definition httpd_req_async_handler_begin (hd : httpd_data) : httpd_data :=
  match hd_req_sd hd with Some i => upd_slot i (set_async true) hd | None => hd end.

(** [i] is the session that the copy of the request points to. *)
Definition httpd_req_async_handler_complete (i : nat) (hd : httpd_data) : httpd_data := upd_slot i (set_async false) hd.

(** ** The server task *)

(** What the world answers in a turn of the server: [select], the descriptors
    that are ready, each request with whether its rest can be read, [accept],
    setting the options of the socket, [open_fn], and sending to itself. *)
Record turn := Turn {
  select_ok : bool;
  ready : Z -> bool;
  ctrl_ready : bool;
  listen_ready : bool;
  parse_req : nat -> httpd_data -> esp_err_t * httpd_data;
  purged : nat -> bool;
  accept_fd : Z;
  sockopt_ok : bool;
  open_answer : esp_err_t;
  sent_ok : bool;
}.

Definition httpd_accept_conn (t : turn) (hd : httpd_data) : esp_err_t * httpd_data :=
  if lru_purge_enable hd && negb (httpd_is_sess_available hd) then httpd_sess_close_lru (sent_ok t) hd
  else if accept_fd t <? 0 then (ESP_FAIL, hd)
  else
    let hd := emit (ACCEPTED (accept_fd t)) hd in
    if negb (sockopt_ok t) then (ESP_FAIL, emit (CLOSE (accept_fd t)) hd)
    else
      let '(ret, hd) := httpd_sess_new (accept_fd t) (open_answer t) hd in
      if negb (is_ok ret) then (ESP_FAIL, emit (CLOSE (accept_fd t)) hd)
      else (ESP_OK, emit (CONNECTED (accept_fd t)) hd).

(** A message that cannot be received is dropped. *)
Definition httpd_process_ctrl_msg (hd : httpd_data) : httpd_data :=
  match ctrl hd with
  | [] => hd
  | HTTPD_CTRL_SHUTDOWN :: c => with_ctrl c true hd
  | HTTPD_CTRL_WORK_CLOSE i :: c => httpd_sess_close i (with_ctrl c (stopping hd) hd)
  | HTTPD_CTRL_WORK_OTHER :: c => with_ctrl c (stopping hd) hd
  end.

Definition httpd_process_session (t : turn) (read_set : list Z) (i : nat) (c : unit) (hd : httpd_data) : bool * unit * httpd_data :=
  let n := fd (slot hd i) in
  if n <? 0 then (true, c, hd)
  else if (bool_decide (n ∈ read_set) && ready t n) || httpd_sess_pending n then
    let '(ret, hd) := httpd_sess_process i (parse_req t i) (purged t i) hd in
    (true, c, if negb (is_ok ret) then httpd_sess_delete i hd else hd)
  else (true, c, hd).

Definition httpd_server (t : turn) (hd : httpd_data) : esp_err_t * httpd_data :=
  let listening := lru_purge_enable hd || httpd_is_sess_available hd in
  let read_set := fst (httpd_sess_set_descriptors hd) in
  if negb (select_ok t) then (ESP_OK, httpd_sess_delete_invalid hd)
  else
    let hd := if ctrl_ready t then httpd_process_ctrl_msg hd else hd in
    if ctrl_ready t && stopping hd then (ESP_FAIL, hd)
    else
      let hd := snd (httpd_sess_enum (httpd_process_session t read_set) tt hd) in
      let hd := if listening && listen_ready t then snd (httpd_accept_conn t hd) else hd in
      (ESP_OK, hd).

End Loop.

(** The data that [httpd_create] allocates, cleared. *)
Definition httpd_create (max : nat) (purge open_fn : bool) : httpd_data :=
  HttpdData max purge open_fn (replicate max sock_zero) 0 0 (HttpdReq None None false) None [] false [].
