(* ===== verification/HttpdServe.v ===== *)
(** * What the server does with its sockets and sessions

    Every socket that is accepted is closed once; the session that is given up
    for a new one is the one that has not been used for the longest time. *)

From S2P Require Import Prelude EspErr HttpdSess.

(** ** Runs of the server *)

(** What a handler, or another task between the turns of the server, may call. *)
Inductive sess_op :=
| SetCtx (sockfd : Z) (c free_fn : option nat)
| SetTransportCtx (sockfd : Z) (c free_fn : option nat)
| TriggerClose (sockfd : Z) (sent : bool)
| UpdateLru (sockfd : Z)
| AsyncBegin
| AsyncComplete (i : nat)
| QueueWork (sent : bool).

Section Serve.
Context (fd_is_valid : Z -> bool) (httpd_sess_pending : Z -> bool).

Abbreviation get_free := (httpd_sess_get_free fd_is_valid).
Abbreviation get := (httpd_sess_get fd_is_valid).
Abbreviation server := (httpd_server fd_is_valid httpd_sess_pending).

Definition run_sess_op (op : sess_op) (hd : httpd_data) : httpd_data :=
  match op with
  | SetCtx n c f => httpd_sess_set_ctx fd_is_valid n c f hd
  | SetTransportCtx n c f => httpd_sess_set_transport_ctx fd_is_valid n c f hd
  | TriggerClose n sent => snd (httpd_sess_trigger_close fd_is_valid n sent hd)
  | UpdateLru n => snd (httpd_sess_update_lru_counter fd_is_valid n hd)
  | AsyncBegin => httpd_req_async_handler_begin hd
  | AsyncComplete i => httpd_req_async_handler_complete i hd
  | QueueWork sent => snd (httpd_queue_work HTTPD_CTRL_WORK_OTHER sent hd)
  end.

Definition run_sess_ops (ops : list sess_op) (hd : httpd_data) : httpd_data := foldl (fun hd op => run_sess_op op hd) hd ops.

(** The requests of a turn change the sessions through these calls, and
    [open_fn], if there is one, accepts the sockets. *)
Definition turn_ok (t : turn) : Prop :=
  (forall i hd, exists ops err, parse_req t i hd = (err, run_sess_ops ops hd)) /\ open_answer t = ESP_OK.

Inductive reachable (max : nat) (purge open_fn : bool) : httpd_data -> Prop :=
| reach_start : reachable max purge open_fn (httpd_sess_init fd_is_valid (httpd_create max purge open_fn))
| reach_turn t hd : reachable max purge open_fn hd -> turn_ok t -> reachable max purge open_fn (snd (server t hd))
| reach_op op hd : reachable max purge open_fn hd -> reachable max purge open_fn (run_sess_op op hd).

(** ** The books of the server *)

(** What matters of the sockets: for each slot the socket and the time of its
    last use, and of the log what was connected and used, and what was accepted
    and closed. *)
Record books := Books {
  slots : list (Z * Z);
  count : Z;
  clock : Z;
  uses : list sess_event;
  opened : list Z;
  shut : list Z;
}.

Definition accepted (l : list sess_event) : list Z := omap (fun e => match e with ACCEPTED n => Some n | _ => None end) l.
Definition closed (l : list sess_event) : list Z := omap (fun e => match e with CLOSE n => Some n | _ => None end) l.
Definition used_events (l : list sess_event) : list sess_event :=
  omap (fun e => match e with CONNECTED _ | SERVED _ => Some e | _ => None end) l.

#[global] Arguments accepted : simpl never.
#[global] Arguments closed : simpl never.
#[global] Arguments used_events : simpl never.

Definition books_of (hd : httpd_data) : books :=
  Books ((fun s => (fd s, lru_counter s)) <$> hd_sd hd) (hd_sd_active_count hd) (hd_lru_counter hd) (used_events (log hd)) (accepted (log hd))
    (closed (log hd)).

Definition open_sockets (sl : list (Z * Z)) : list Z := List.filter (fun n => negb (n =? -1)) (fst <$> sl).

(** The sockets of the sessions. *)
Definition used (hd : httpd_data) : list Z := open_sockets (slots (books_of hd)).

(** When the socket was used last since it was connected, counted in events; 0
    is not at all. The newest event comes first. *)
Fixpoint last_use (l : list sess_event) (n : Z) : nat :=
  match l with
  | [] => 0
  | SERVED m :: l' => if m =? n then length l else last_use l' n
  | CONNECTED m :: l' => if m =? n then 0 else last_use l' n
  | _ :: l' => last_use l' n
  end.

(** The counters order the sessions the way they were used. *)
Definition clocks_ok (b : books) : Prop :=
  0 <= clock b <= length (uses b) /\
  forall i j n l m k, slots b !! i = Some (n, l) -> slots b !! j = Some (m, k) -> n <> -1 -> m <> -1 ->
    0 <= l <= clock b /\ (0 < l <-> (0 < last_use (uses b) n)%nat) /\ (l < k <-> (last_use (uses b) n < last_use (uses b) m)%nat).

Record books_ok (max : nat) (b : books) : Prop := {
  ok_length : length (slots b) = max;
  ok_fds : Forall (fun s => -1 <= s.1) (slots b);
  ok_distinct : NoDup (open_sockets (slots b));
  ok_count : count b = length (open_sockets (slots b));
  ok_sockets : opened b ≡ₚ shut b ++ open_sockets (slots b);
  ok_clocks : length (uses b) < UINT64_MAX -> clocks_ok b;
}.

Definition msg_ok (max : nat) (m : ctrl_msg) : Prop := match m with HTTPD_CTRL_WORK_CLOSE i => (i < max)%nat | _ => True end.

Record sess_ok (max : nat) (hd : httpd_data) : Prop := {
  ok_max : max_open_sockets hd = max;
  ok_req : forall i, hd_req_sd hd = Some i -> (i < max)%nat;
  ok_ctrl : Forall (msg_ok max) (ctrl hd);
  ok_books : books_ok max (books_of hd);
}.

(** *** Steps of the books *)

Lemma open_sockets_app l1 l2 : open_sockets (l1 ++ l2) = open_sockets l1 ++ open_sockets l2.
Proof. unfold open_sockets. by rewrite fmap_app, List.filter_app. Qed.

Lemma open_sockets_insert sl i n l x : sl !! i = Some (n, l) ->
  exists l1 l2, open_sockets sl = l1 ++ open_sockets [(n, l)] ++ l2 /\ open_sockets (<[i := x]> sl) = l1 ++ open_sockets [x] ++ l2.
Proof.
  intros E. exists (open_sockets (take i sl)), (open_sockets (drop (S i) sl)). rewrite <-!open_sockets_app. split; f_equal.
  - cbn. symmetry. by apply take_drop_middle.
  - apply insert_take_drop. by eapply lookup_lt_Some.
Qed.

#[local] Arguments open_sockets : simpl never.

Lemma open_sockets_In sl n : n ∈ open_sockets sl <-> n <> -1 /\ exists i l, sl !! i = Some (n, l).
Proof.
  unfold open_sockets. rewrite list_elem_of_In, filter_In, <-list_elem_of_In, list_elem_of_fmap.
  destruct (Z.eqb_spec n (-1)); cbn; split; try (intuition congruence).
  - intros [([m l] & -> & [i Hi]%list_elem_of_lookup) _]. split; [done|]. by exists i, l.
  - intros (_ & i & l & Hi). split; [|done]. exists (n, l). split; [done|]. by eapply list_elem_of_lookup_2.
Qed.

Lemma open_sockets_close sl i n l : sl !! i = Some (n, l) -> n <> -1 -> open_sockets sl ≡ₚ n :: open_sockets (<[i := (-1, l)]> sl).
Proof.
  intros E Hn. destruct (open_sockets_insert _ _ _ _ (-1, l) E) as (l1 & l2 & -> & ->). unfold open_sockets. cbn.
  rewrite (proj2 (Z.eqb_neq n (-1)) Hn). cbn. symmetry. apply Permutation_middle.
Qed.

Lemma open_sockets_open sl i n l k : sl !! i = Some (-1, l) -> n <> -1 -> open_sockets (<[i := (n, k)]> sl) ≡ₚ n :: open_sockets sl.
Proof.
  intros E Hn. destruct (open_sockets_insert _ _ _ _ (n, k) E) as (l1 & l2 & -> & ->). unfold open_sockets. cbn.
  rewrite (proj2 (Z.eqb_neq n (-1)) Hn). cbn. symmetry. apply Permutation_middle.
Qed.

Lemma open_sockets_same sl i n l k : sl !! i = Some (n, l) -> open_sockets (<[i := (n, k)]> sl) = open_sockets sl.
Proof. intros E. by destruct (open_sockets_insert _ _ _ _ (n, k) E) as (l1 & l2 & -> & ->). Qed.

Lemma open_socket_unique sl i j n l k : NoDup (open_sockets sl) -> n <> -1 -> sl !! i = Some (n, l) -> sl !! j = Some (n, k) -> i = j.
Proof.
  intros Hd Hn Hi Hj. destruct (decide (i = j)) as [|Hne]; [done|]. rewrite (open_sockets_close _ _ _ _ Hi Hn) in Hd.
  apply NoDup_cons_1_1 in Hd. contradict Hd. apply open_sockets_In. split; [done|]. exists j, k. by rewrite list_lookup_insert_ne.
Qed.

Lemma last_use_le l n : (last_use l n <= length l)%nat.
Proof. induction l as [|[] l IH]; cbn; try destruct (_ =? n); cbn; lia. Qed.

(** The books without the clocks: closing, opening, and a socket that is
    accepted and closed at once. *)
Lemma books_close max b i n l : books_ok max b -> slots b !! i = Some (n, l) -> 0 <= n ->
  books_ok max (Books (<[i := (-1, l)]> (slots b)) (count b - 1) (if count b - 1 =? 0 then 0 else clock b) (uses b) (opened b) (n :: shut b)).
Proof.
  intros [Hl Hf Hd Hc Hs Hk] Hi Hn. pose proof (open_sockets_close _ _ _ _ Hi ltac:(lia)) as Hp.
  pose proof Hd as Hd'. rewrite Hp in Hd'. apply NoDup_cons_1_2 in Hd'. split; cbn.
  - by rewrite length_insert.
  - by apply Forall_insert.
  - done.
  - apply Permutation_length in Hp. cbn [length] in Hp. lia.
  - rewrite Hs, Hp. symmetry. apply Permutation_middle.
  - intros Hb. destruct (Hk Hb) as [Hr Hk']. split; cbn; [destruct (_ =? 0); lia|].
    intros i' j' n' l' m' k' Hi' Hj' Hn' Hm'.
    apply list_lookup_insert_Some in Hi' as [(_ & [= <- _] & _)|[Hne Hi']]; [done|].
    apply list_lookup_insert_Some in Hj' as [(_ & [= <- _] & _)|[Hnj Hj']]; [done|].
    destruct (Z.eqb_spec (count b - 1) 0) as [E|]; [|by eapply Hk'].
    apply Permutation_length in Hp. cbn [length] in Hp. assert (Hin : n' ∈ open_sockets (<[i := (-1, l)]> (slots b))).
    { apply open_sockets_In. split; [done|]. exists i', l'. by rewrite list_lookup_insert_ne. }
    destruct (open_sockets (<[i := (-1, l)]> (slots b))); [by apply not_elem_of_nil in Hin|cbn [length] in Hp; lia].
Qed.

Lemma books_reject max b n : books_ok max b -> books_ok max (Books (slots b) (count b) (clock b) (uses b) (n :: opened b) (n :: shut b)).
Proof. intros []. split; try done. cbn. by constructor. Qed.

Lemma books_open max b i m l n : books_ok max b -> slots b !! i = Some (m, l) -> m < 0 -> 0 <= n -> n ∉ open_sockets (slots b) ->
  books_ok max (Books (<[i := (n, 0)]> (slots b)) (count b + 1) (clock b) (CONNECTED n :: uses b) (n :: opened b) (shut b)).
Proof.
  intros [Hl Hf Hd Hc Hs Hk] Hi Hm Hn Hnew. assert (m = -1) as ->.
  { pose proof (Forall_lookup_1 _ _ _ _ Hf Hi) as H. cbn in H. lia. }
  pose proof (open_sockets_open _ _ n _ 0 Hi ltac:(lia)) as Hp. split; cbn.
  - by rewrite length_insert.
  - apply Forall_insert; cbn; [done|lia].
  - rewrite Hp. by constructor.
  - apply Permutation_length in Hp. cbn [length] in Hp. lia.
  - rewrite Hs, Hp. apply Permutation_middle.
  - intros Hb. destruct (Hk ltac:(lia)) as [Hr Hk']. split; cbn; [lia|].
    assert (forall j m' k, j <> i -> slots b !! j = Some (m', k) -> m' <> -1 -> (n =? m') = false) as Hother.
    { intros j m' k _ Hj Hm'. apply Z.eqb_neq. intros <-. apply Hnew, open_sockets_In. split; [done|]. by exists j, k. }
    intros i' j' n' l' m' k' Hi' Hj' Hn' Hm'.
    apply list_lookup_insert_Some in Hi' as [(-> & [= <- <-] & _)|[Hne Hi']];
      apply list_lookup_insert_Some in Hj' as [(-> & [= <- <-] & _)|[Hnj Hj']]; rewrite ?Z.eqb_refl, ?(Hother _ _ _ (not_eq_sym Hne) Hi' Hn'), ?(Hother _ _ _ (not_eq_sym Hnj) Hj' Hm').
    + lia.
    + destruct (Hk' _ _ _ _ _ _ Hj' Hj' Hm' Hm'). lia.
    + destruct (Hk' _ _ _ _ _ _ Hi' Hi' Hn' Hn'). lia.
    + by eapply Hk'.
Qed.

Lemma books_serve max b i n l : books_ok max b -> slots b !! i = Some (n, l) ->
  books_ok max (Books (<[i := (n, u64 (clock b + 1))]> (slots b)) (count b) (u64 (clock b + 1)) (SERVED n :: uses b) (opened b) (shut b)).
Proof.
  intros [Hl Hf Hd Hc Hs Hk] Hi. pose proof (open_sockets_same _ _ _ _ (u64 (clock b + 1)) Hi) as Hp. split; cbn; rewrite ?Hp; try done.
  - by rewrite length_insert.
  - apply Forall_insert; [done|]. apply (Forall_lookup_1 _ _ _ _ Hf Hi).
  - intros Hb. destruct (Hk ltac:(lia)) as [Hr Hk'].
    assert (u64 (clock b + 1) = clock b + 1) as -> by (apply Z.mod_small; unfold UINT64_MAX in *; lia). split; cbn; [lia|].
    assert (forall j m' k, j <> i -> slots b !! j = Some (m', k) -> m' <> -1 -> (n =? m') = false) as Hother.
    { intros j m' k Hne Hj Hm'. apply Z.eqb_neq. intros <-. apply Hne. by eapply open_socket_unique. }
    pose proof (last_use_le (uses b)) as Hle.
    intros i' j' n' l' m' k' Hi' Hj' Hn' Hm'.
    apply list_lookup_insert_Some in Hi' as [(-> & [= <- <-] & _)|[Hne Hi']];
      apply list_lookup_insert_Some in Hj' as [(-> & [= <- <-] & _)|[Hnj Hj']]; rewrite ?Z.eqb_refl, ?(Hother _ _ _ (not_eq_sym Hne) Hi' Hn'), ?(Hother _ _ _ (not_eq_sym Hnj) Hj' Hm').
    + lia.
    + destruct (Hk' _ _ _ _ _ _ Hj' Hj' Hm' Hm'). specialize (Hle m'). lia.
    + destruct (Hk' _ _ _ _ _ _ Hi' Hi' Hn' Hn'). specialize (Hle n'). lia.
    + destruct (Hk' _ _ _ _ _ _ Hi' Hj' Hn' Hm'). lia.
Qed.

(** ** Calls that leave the books alone *)

Definition quiet (hd hd' : httpd_data) : Prop :=
  max_open_sockets hd' = max_open_sockets hd /\ hd_req_sd hd' = hd_req_sd hd /\ ctrl hd' = ctrl hd /\ books_of hd' = books_of hd.

#[local] Instance quiet_refl : Reflexive quiet.
Proof. by intros hd. Qed.

#[local] Instance quiet_trans : Transitive quiet.
Proof. unfold quiet. intros a b c (-> & -> & -> & ->). tauto. Qed.

Lemma quiet_ok max hd hd' : quiet hd hd' -> sess_ok max hd -> sess_ok max hd'.
Proof. intros (E1 & E2 & E3 & E4) []. split; congruence || (rewrite ?E2, ?E3; auto). Qed.

Definition keeps (f : sock_db -> sock_db) : Prop := forall s, fd (f s) = fd s /\ lru_counter (f s) = lru_counter s.

Lemma slots_upd i f hd s : hd_sd hd !! i = Some s ->
  slots (books_of (upd_slot i f hd)) = <[i := (fd (f s), lru_counter (f s))]> (slots (books_of hd)).
Proof.
  intros E. cbn. apply list_eq. intros j. rewrite list_lookup_fmap. destruct (decide (j = i)) as [->|Hne].
  - rewrite list_lookup_alter_eq, list_lookup_insert_eq by (rewrite length_fmap; by eapply lookup_lt_Some). by rewrite E.
  - by rewrite list_lookup_alter_ne, list_lookup_insert_ne, list_lookup_fmap.
Qed.

Lemma quiet_upd i f hd : keeps f -> quiet hd (upd_slot i f hd).
Proof.
  intros H. split_and!; try done. unfold books_of. cbn. f_equal. apply list_eq. intros j. rewrite !list_lookup_fmap.
  destruct (decide (j = i)) as [->|Hne]; [rewrite list_lookup_alter_eq|by rewrite list_lookup_alter_ne].
  destruct (hd_sd hd !! i); [|done]. cbn. by destruct (H s) as [-> ->].
Qed.

Lemma quiet_free_ctx c fr hd : quiet hd (httpd_sess_free_ctx c fr hd).
Proof. by destruct c. Qed.

Lemma quiet_emit e hd : match e with FREE _ _ | DISCONNECTED _ => True | _ => False end -> quiet hd (emit e hd).
Proof. by destruct e. Qed.

Create HintDb sess.
#[local] Hint Resolve quiet_upd quiet_free_ctx quiet_emit : sess.

Lemma keeps_sctx c fr : keeps (set_sctx c fr). Proof. done. Qed.
Lemma keeps_tctx c fr : keeps (set_tctx c fr). Proof. done. Qed.
Lemma keeps_socket b : keeps (set_lru_socket b). Proof. done. Qed.
Lemma keeps_async b : keeps (set_async b). Proof. done. Qed.
#[local] Hint Resolve keeps_sctx keeps_tctx keeps_socket keeps_async : sess.

Lemma quiet_clear_ctx i hd : quiet hd (httpd_sess_clear_ctx i hd).
Proof.
  assert (forall h, quiet h (match ctx (slot h i) with
    | Some _ => upd_slot i (set_sctx None None) (httpd_sess_free_ctx (ctx (slot h i)) (free_ctx (slot h i)) h) | None => h end)) as H.
  { intros h. destruct (ctx (slot h i)); [|done]. etransitivity; [|eauto with sess]. eauto with sess. }
  unfold httpd_sess_clear_ctx. etransitivity; [apply H|]. destruct (transport_ctx _); [|done]. etransitivity; [|eauto with sess]. eauto with sess.
Qed.

(** The part of the invariant that the searches rely on: it says nothing of the log. *)
Definition shape_ok (max : nat) (hd : httpd_data) : Prop :=
  max_open_sockets hd = max /\ (forall i, hd_req_sd hd = Some i -> (i < max)%nat) /\ length (slots (books_of hd)) = max /\
  Forall (fun s => -1 <= s.1) (slots (books_of hd)) /\ hd_sd_active_count hd = length (used hd).

Lemma ok_shape max hd : sess_ok max hd -> shape_ok max hd.
Proof. by intros [? ? ? []]. Qed.

(** The slots that there are. *)
Lemma slot_Some max i hd : shape_ok max hd -> (i < max)%nat ->
  exists s, hd_sd hd !! i = Some s /\ slot hd i = s /\ slots (books_of hd) !! i = Some (fd s, lru_counter s) /\ -1 <= fd s.
Proof.
  intros (_ & _ & Hl & Hf & _) Hi. rewrite <-Hl in Hi. cbn in Hi. rewrite length_fmap in Hi. destruct (lookup_lt_is_Some_2 _ _ Hi) as [s Hs].
  assert (slots (books_of hd) !! i = Some (fd s, lru_counter s)) as Hb by (cbn; by rewrite list_lookup_fmap, Hs).
  exists s. split_and!; [done|unfold slot; by rewrite Hs|done|apply (Forall_lookup_1 _ _ _ _ Hf Hb)].
Qed.

Lemma delete_free i hd : fd (slot hd i) < 0 -> httpd_sess_delete i hd = hd.
Proof. unfold httpd_sess_delete. by intros ->%Z.ltb_lt. Qed.

(** Deleting closes the socket and frees the slot. *)
Lemma delete_books max i hd s : sess_ok max hd -> hd_sd hd !! i = Some s -> 0 <= fd s ->
  let b := books_of hd in let hd' := httpd_sess_delete i hd in
  books_of hd' = Books (<[i := (-1, lru_counter s)]> (slots b)) (count b - 1) (if count b - 1 =? 0 then 0 else clock b) (uses b) (opened b) (fd s :: shut b)
  /\ max_open_sockets hd' = max_open_sockets hd /\ hd_req_sd hd' = hd_req_sd hd /\ ctrl hd' = ctrl hd.
Proof.
  intros Hok Hs Hn. unfold httpd_sess_delete. assert (slot hd i = s) as Es by (unfold slot; by rewrite Hs).
  rewrite Es. destruct (Z.ltb_spec (fd s) 0); [lia|].
  set (h0 := emit (DISCONNECTED (fd (slot (emit (CLOSE (fd s)) hd) i))) (emit (CLOSE (fd s)) hd)). destruct (quiet_clear_ctx i h0) as (Hm & Hr & Hc & Hb). set (h1 := httpd_sess_clear_ctx i h0) in *.
  assert (slots (books_of h1) !! i = Some (fd s, lru_counter s)) as Hi by (rewrite Hb; cbn; by rewrite list_lookup_fmap, Hs).
  cbn in Hi. rewrite list_lookup_fmap in Hi. destruct (hd_sd h1 !! i) as [s1|] eqn:E1; [|done]. injection Hi as E2 E3.
  pose proof (slots_upd i (set_fd (-1)) h1 s1 E1) as Hsl. rewrite Hb in Hsl. cbn in Hsl. rewrite E3 in Hsl.
  injection Hb as Hb1 Hb2 Hb3 Hb4 Hb5 Hb6.
  assert (hd_sd_active_count (with_count (hd_sd_active_count (upd_slot i (set_fd (-1)) h1) - 1) (upd_slot i (set_fd (-1)) h1)) = hd_sd_active_count hd - 1) as Ec
    by (cbn; by rewrite Hb2).
  rewrite Ec. destruct (_ =? 0); split_and!; try done; unfold books_of; cbn; rewrite ?Hb2, ?Hb3, ?Hb4, ?Hb5, ?Hb6, ?Hsl; done.
Qed.

Lemma delete_ok max i hd : (i < max)%nat -> sess_ok max hd -> sess_ok max (httpd_sess_delete i hd).
Proof.
  intros Hi Hok. destruct (slot_Some _ _ _ (ok_shape _ _ Hok) Hi) as (s & Hs & Es & Hb & Hfd).
  destruct (decide (fd s < 0)); [rewrite delete_free by (by rewrite Es); done|].
  destruct (delete_books _ _ _ _ Hok Hs ltac:(lia)) as (Eb & Em & Er & Ec). destruct Hok as [Hm Hr Hc Hbk].
  split; rewrite ?Em, ?Er, ?Ec, ?Eb; try done. apply books_close with (n := fd s); [done..|lia].
Qed.

(** ** Going through the sessions *)

Lemma sess_enum_ind {C} (f : nat -> C -> httpd_data -> bool * C * httpd_data) (P : C -> httpd_data -> Prop) m :
  (forall i c hd, (i < m)%nat -> P c hd -> P (snd (fst (f i c hd))) (snd (f i c hd))) ->
  forall n i c hd, (i + n <= m)%nat -> P c hd -> let '(c', hd') := sess_enum_from n i f c hd in P c' hd'.
Proof.
  intros Hf. induction n as [|n IH]; intros i c hd Hi HP; [done|]. cbn [sess_enum_from]. specialize (Hf i c hd ltac:(lia) HP).
  destruct (f i c hd) as [[go c'] hd']. cbn in Hf. destruct go; [|done]. apply IH; [lia|done].
Qed.

(** The searches: [p] says of which session. *)
Definition searches (task : task_t) (c : enum_context_t) (p : sock_db -> bool) : Prop :=
  forall i c' hd, ctx_fd c' = ctx_fd c -> enum_function fd_is_valid task i c' hd =
    if p (slot hd i) then (false, EnumContext (ctx_fd c') (fdset c') (max_fd c') (ctx_lru_counter c') (Some i), hd) else (true, c', hd).

Lemma search_spec task c p hd : searches task c p -> session c = None ->
  let r := session (fst (httpd_sess_enum (enum_function fd_is_valid task) c hd)) in
  match r with
  | Some i => (i < max_open_sockets hd)%nat /\ p (slot hd i) = true /\ forall j, (j < i)%nat -> p (slot hd j) = false
  | None => forall j, (j < max_open_sockets hd)%nat -> p (slot hd j) = false
  end.
Proof.
  intros Hs Hn. unfold httpd_sess_enum.
  enough (forall n i, (forall j, (j < i)%nat -> p (slot hd j) = false) ->
    match session (fst (sess_enum_from n i (enum_function fd_is_valid task) c hd)) with
    | Some k => (k < i + n)%nat /\ p (slot hd k) = true /\ forall j, (j < k)%nat -> p (slot hd j) = false
    | None => forall j, (j < i + n)%nat -> p (slot hd j) = false
    end) as H by (apply (H _ 0%nat); intros; lia).
  induction n as [|n IH]; intros i Hbefore; cbn [sess_enum_from].
  - cbn [fst]. rewrite Hn. intros j Hj. apply Hbefore. lia.
  - rewrite Hs by done. destruct (p (slot hd i)) eqn:E; cbn [fst session].
    + split; [lia|]. done.
    + specialize (IH (S i)). replace (i + S n)%nat with (S i + n)%nat by lia. apply IH. intros j Hj.
      destruct (decide (j = i)) as [->|]; [done|]. apply Hbefore. lia.
Qed.

Lemma get_free_search : searches HTTPD_TASK_GET_FREE enum_context (fun s => fd s <? 0).
Proof. intros i c hd _. cbn. by destruct (fd (slot hd i) <? 0). Qed.

Lemma find_fd_search n : searches HTTPD_TASK_FIND_FD (EnumContext n [] 0 0 None) (fun s => fd s =? n).
Proof. intros i c hd E. cbn in *. rewrite E. by destruct (fd (slot hd i) =? n). Qed.

Lemma find_fd_spec n hd : match find_fd fd_is_valid n hd with
  | Some i => (i < max_open_sockets hd)%nat /\ fd (slot hd i) = n
  | None => forall j, (j < max_open_sockets hd)%nat -> fd (slot hd j) <> n
  end.
Proof.
  pose proof (search_spec _ _ _ hd (find_fd_search n) eq_refl) as H. cbn zeta in H. unfold find_fd. destruct (session _).
  - destruct H as (Hi & ->%Z.eqb_eq & _). done.
  - intros j Hj. by apply Z.eqb_neq, H.
Qed.

(** A session that is not found is not there. *)
Lemma get_spec max n hd : shape_ok max hd -> match get n hd with
  | Some i => (i < max)%nat /\ fd (slot hd i) = n
  | None => n ∉ used hd
  end.
Proof.
  intros Hok. pose proof Hok as (Hm & Hr & Hl & _).
  assert (match find_fd fd_is_valid n hd with Some i => (i < max)%nat /\ fd (slot hd i) = n | None => n ∉ used hd end) as Hf.
  { pose proof (find_fd_spec n hd) as H. rewrite Hm in H. destruct (find_fd _ _ _); [done|].
    intros (_ & i & l & Hi)%open_sockets_In. assert (i < max)%nat as Hlt.
    { rewrite <-Hl. by eapply lookup_lt_Some. }
    destruct (slot_Some _ _ _ Hok Hlt) as (s & Hs & Es & Hb & _). rewrite Hb in Hi. injection Hi as Hi _. apply (H i Hlt). congruence. }
  unfold httpd_sess_get. destruct (Nat.eqb_spec (max_open_sockets hd) 0) as [E|].
  - intros (_ & i & l & Hi)%open_sockets_In. apply lookup_lt_Some in Hi. rewrite Hl in Hi. lia.
  - destruct (hd_req_sd hd) as [i|]; [|done]. destruct (Z.eqb_spec (fd (slot hd i)) n); [auto|done].
Qed.

Lemma get_free_spec max hd : shape_ok max hd -> match get_free hd with
  | Some i => (i < max)%nat /\ fd (slot hd i) < 0
  | None => forall i, (i < max)%nat -> 0 <= fd (slot hd i)
  end.
Proof.
  intros Hok. pose proof Hok as (Hm & _ & Hl & _ & Hc). pose proof (search_spec _ _ _ hd get_free_search eq_refl) as H. cbn zeta in H.
  unfold httpd_sess_get_free. destruct (Z.eqb_spec (hd_sd_active_count hd) (max_open_sockets hd)) as [E|].
  - intros i Hi. destruct (slot_Some _ _ _ Hok Hi) as (s & Hs & -> & Hb & Hfd). destruct (decide (fd s = -1)) as [En|]; [|lia].
    assert (length (open_sockets (slots (books_of hd))) < max)%nat as Hlt.
    { apply lookup_lt_Some in Hb as Hb'. rewrite Hl in Hb'.
      rewrite <-Hl. rewrite <-(take_drop_middle _ _ _ Hb), En, open_sockets_app, !length_app. unfold open_sockets at 2. cbn [fst fmap list_fmap List.filter].
      cbn [length]. pose proof (List.filter_length_le (fun n => negb (n =? -1)) (fst <$> take i (slots (books_of hd)))).
      pose proof (List.filter_length_le (fun n => negb (n =? -1)) (fst <$> drop (S i) (slots (books_of hd)))) as H2.
      rewrite !length_fmap in *. unfold open_sockets. cbn in *. lia. }
    unfold used in Hc. cbn in Hc, Hlt. lia.
  - destruct (session _); [rewrite Hm in H; destruct H as (Hi & H%Z.ltb_lt & _); done|]. rewrite Hm in H. intros i Hi. by apply Z.ltb_ge, H.
Qed.

(** ** Every call keeps the books in order *)

Section Calls.
Context {max : nat}.
Implicit Types hd : httpd_data.
Abbreviation ok := (sess_ok max).

Lemma ok_upd i f hd : keeps f -> ok hd -> ok (upd_slot i f hd).
Proof. intros. by eapply quiet_ok; [apply quiet_upd|]. Qed.

Lemma ok_free_ctx c fr hd : ok hd -> ok (httpd_sess_free_ctx c fr hd).
Proof. intros. by eapply quiet_ok; [apply quiet_free_ctx|]. Qed.

Lemma ok_with_req r hd : ok hd -> ok (with_req r (hd_req_sd hd) hd).
Proof. by intros []. Qed.

Lemma ok_with_req_to r i hd : match i with Some i => (i < max)%nat | None => True end -> ok hd -> ok (with_req r i hd).
Proof. intros Hi []. split; try done. cbn. by intros j ->. Qed.

Lemma ok_with_ctrl c b hd : Forall (msg_ok max) c -> ok hd -> ok (with_ctrl c b hd).
Proof. by intros Hc []. Qed.

Lemma ok_queue msg sent hd : msg_ok max msg -> ok hd -> ok (snd (httpd_queue_work msg sent hd)).
Proof.
  intros Hm Hok. destruct sent; [|done]. apply ok_with_ctrl; [|done]. apply Forall_app. split; [apply Hok|by constructor].
Qed.

(** A use of session [i] sets its counter. *)
Lemma ok_serve i hd : (i < max)%nat -> ok hd ->
  let hd := with_lru (u64 (hd_lru_counter hd + 1)) hd in
  let hd := upd_slot i (set_lru (hd_lru_counter hd)) hd in ok (emit (SERVED (fd (slot hd i))) hd).
Proof.
  intros Hi Hok. destruct (slot_Some _ _ _ (ok_shape _ _ Hok) Hi) as (s & Hs & Es & Hb & _). cbn zeta. set (h1 := with_lru _ hd).
  pose proof (slots_upd i (set_lru (hd_lru_counter h1)) h1 s Hs) as Hsl. cbn in Hsl.
  assert (fd (slot (upd_slot i (set_lru (hd_lru_counter h1)) h1) i) = fd s) as ->.
  { unfold slot. cbn. by rewrite list_lookup_alter_eq, Hs. }
  pose proof (books_serve _ _ _ _ _ (ok_books _ _ Hok) Hb) as H. destruct Hok. split; try done.
  unfold books_of at 1. cbn. by rewrite Hsl.
Qed.

Lemma get_ok n hd i : ok hd -> get n hd = Some i -> (i < max)%nat.
Proof. intros Hok E. pose proof (get_spec max n hd (ok_shape _ _ Hok)) as H. rewrite E in H. apply H. Qed.

#[local] Hint Resolve ok_upd ok_free_ctx ok_with_req ok_queue ok_serve delete_ok get_ok : sess.

(** Whatever a handler or another task calls. *)
Lemma op_ok op hd : ok hd -> ok (run_sess_op op hd).
Proof.
  intros Hok. destruct op as [n c f|n c f|n sent|n| |i|sent]; cbn [run_sess_op].
  - unfold httpd_sess_set_ctx. destruct (get n hd); [|done]. repeat (case_match || apply ok_with_req || apply ok_upd || apply ok_free_ctx); done.
  - unfold httpd_sess_set_transport_ctx. destruct (get n hd); [|done]. case_match; eauto with sess.
  - unfold httpd_sess_trigger_close. destruct (get n hd) eqn:E; [|done]. apply ok_queue; [|done]. by apply (get_ok n hd).
  - unfold httpd_sess_update_lru_counter. pose proof (find_fd_spec n hd) as H. destruct (find_fd _ n hd); [|done].
    rewrite (ok_max _ _ Hok) in H. destruct H. by apply ok_serve.
  - unfold httpd_req_async_handler_begin. destruct (hd_req_sd hd); eauto with sess.
  - apply ok_upd; auto with sess.
  - by apply ok_queue.
Qed.

Lemma ops_ok ops hd : ok hd -> ok (run_sess_ops ops hd).
Proof. revert hd. induction ops as [|op ops IH]; intros hd Hok; [done|]. cbn. by apply IH, op_ok. Qed.

(** *** Requests *)

Lemma cleanup_ok hd : ok hd -> ok (httpd_req_cleanup hd).
Proof.
  intros Hok. unfold httpd_req_cleanup. destruct (hd_req_sd hd); [|done]. apply ok_with_req_to; [done|].
  apply ok_upd; [done|]. destruct (_ && _); eauto with sess.
Qed.

Lemma process_ok t i purge hd : turn_ok t -> (i < max)%nat -> ok hd -> ok (snd (httpd_sess_process i (parse_req t i) purge hd)).
Proof.
  intros [Hp _] Hi Hok. unfold httpd_sess_process, httpd_req_new, httpd_req_delete. set (h0 := with_req _ _ _).
  assert (ok h0) as H0 by (by apply ok_with_req_to). destruct (Hp i h0) as (ops & err & ->). pose proof (ops_ok ops _ H0) as H1.
  destruct (is_ok err); cbn [negb snd]; [|by apply cleanup_ok]. apply cleanup_ok in H1. destruct purge; [|done]. change (is_ok ESP_OK) with true. cbn [negb snd].
  by apply ok_serve.
Qed.

(** *** Closing *)

Lemma close_ok i hd : (i < max)%nat -> ok hd -> ok (httpd_sess_close i hd).
Proof. intros Hi Hok. unfold httpd_sess_close. destruct (_ && _); eauto with sess. Qed.

Lemma ctrl_msg_ok hd : ok hd -> ok (httpd_process_ctrl_msg hd).
Proof.
  intros Hok. unfold httpd_process_ctrl_msg. pose proof (ok_ctrl _ _ Hok) as Hc. destruct (ctrl hd) as [|m c]; [done|].
  apply Forall_cons in Hc as [Hm Hc]. destruct m; try by apply ok_with_ctrl. apply close_ok; [done|]. by apply ok_with_ctrl.
Qed.

Lemma enum_task_ok task c hd : task <> HTTPD_TASK_INIT -> ok hd -> ok (snd (httpd_sess_enum (enum_function fd_is_valid task) c hd)).
Proof.
  intros Ht Hok. unfold httpd_sess_enum. pose proof (sess_enum_ind (enum_function fd_is_valid task) (fun _ hd => ok hd) max) as H.
  rewrite (ok_max _ _ Hok). specialize (H ltac:(intros; destruct task; try done; cbn; repeat case_match; cbn; eauto with sess) max 0%nat c hd ltac:(lia) Hok).
  by destruct (sess_enum_from _ _ _ _ _).
Qed.

Lemma lowest_lru_lt hd i : ok hd -> lowest_lru fd_is_valid hd = Some i -> (i < max)%nat.
Proof.
  intros Hok E. pose proof (sess_enum_ind (enum_function fd_is_valid HTTPD_TASK_FIND_LOWEST_LRU)
    (fun c _ => forall i, session c = Some i -> (i < max)%nat) max) as H.
  unfold lowest_lru, httpd_sess_enum in E. rewrite (ok_max _ _ Hok) in E.
  specialize (H ltac:(intros i' c h Hi' Hc; cbn; repeat case_match; cbn; intros; simplify_eq; eauto) max 0%nat (EnumContext (-1) [] 0 UINT64_MAX None) hd
    ltac:(lia) ltac:(done)).
  destruct (sess_enum_from _ _ _ _ _). by apply H.
Qed.

(** *** Accepting *)

Lemma new_spec n answer hd : shape_ok max hd -> 0 <= n ->
  let '(ret, hd') := httpd_sess_new fd_is_valid n answer hd in
  if is_ok ret then
    (n ∉ used hd) /\ exists i m l, slots (books_of hd) !! i = Some (m, l) /\ m < 0 /\
      books_of hd' = Books (<[i := (n, 0)]> (slots (books_of hd))) (hd_sd_active_count hd + 1) (hd_lru_counter hd) (used_events (log hd)) (accepted (log hd)) (closed (log hd))
      /\ max_open_sockets hd' = max_open_sockets hd /\ hd_req_sd hd' = hd_req_sd hd /\ ctrl hd' = ctrl hd
  else answer = ESP_OK -> hd' = hd.
Proof.
  intros Hsh Hn. unfold httpd_sess_new. pose proof (get_spec max n hd Hsh) as Hg. destruct (get n hd); [done|].
  pose proof (get_free_spec max hd Hsh) as Hf. destruct (get_free hd) as [i|]; [|done]. destruct Hf as [Hi Hfree].
  destruct (slot_Some _ _ _ Hsh Hi) as (s & Hs & Es & Hb & _). cbn [has_open_fn with_count upd_slot with_sd].
  destruct (has_open_fn hd && negb (is_ok answer)) eqn:Eo.
  - apply andb_true_iff in Eo as [_ Ea]. destruct (is_ok answer) eqn:E; [done|]. intros ->. done.
  - change (is_ok ESP_OK) with true. split; [done|]. exists i, (fd s), (lru_counter s). split_and!; try done; [congruence|].
    pose proof (slots_upd i (fun _ => set_fd n sock_zero) hd s Hs) as Hsl. unfold books_of at 1. cbn in *. by rewrite Hsl.
Qed.

Lemma accept_ok t hd : open_answer t = ESP_OK -> ok hd -> ok (snd (httpd_accept_conn fd_is_valid t hd)).
Proof.
  intros Ht Hok. unfold httpd_accept_conn. destruct (_ && _).
  { unfold httpd_sess_close_lru. destruct (lowest_lru fd_is_valid hd) as [i|] eqn:E; [|done]. apply ok_queue; [by apply (lowest_lru_lt hd)|].
    apply ok_upd; auto with sess. }
  destruct (Z.ltb_spec (accept_fd t) 0); [done|]. set (h1 := emit (ACCEPTED (accept_fd t)) hd).
  assert (ok (emit (CLOSE (accept_fd t)) h1)) as Hrej.
  { destruct Hok as [? ? ? Hb]. split; try done. apply (books_reject _ _ (accept_fd t) Hb). }
  destruct (sockopt_ok t); cbn [negb]; [|done]. assert (shape_ok max h1) as Hsh by apply (ok_shape _ _ Hok).
  pose proof (new_spec (accept_fd t) (open_answer t) h1 Hsh ltac:(done)) as H1. destruct (httpd_sess_new _ _ _ _) as [ret h2].
  destruct (is_ok ret); cbn [negb snd].
  - destruct H1 as (Hnew & i & m & l & Hb & Hm & Ebk & Em & Er & Ec). destruct Hok as [Hmax Hreq Hctrl Hbk]. split; cbn [emit max_open_sockets hd_req_sd ctrl].
    + by rewrite Em.
    + by rewrite Er.
    + by rewrite Ec.
    + pose proof (books_open _ _ _ _ _ (accept_fd t) Hbk Hb Hm ltac:(lia) Hnew) as H2. unfold books_of in *. cbn in *.
      injection Ebk as E1 E2 E3 E4 E5 E6. unfold used_events, accepted, closed in *. cbn. by rewrite E1, E2, E3, E4, E5, E6.
  - by rewrite (H1 Ht).
Qed.

End Calls.

(** ** Runs *)

Lemma session_ok max t set i c hd : turn_ok t -> (i < max)%nat -> sess_ok max hd ->
  sess_ok max (snd (httpd_process_session httpd_sess_pending t set i c hd)).
Proof.
  intros Ht Hi Hok. unfold httpd_process_session. destruct (_ <? _); [done|]. destruct (_ || _); [|done].
  pose proof (process_ok t i (purged t i) hd Ht Hi Hok) as H. destruct (httpd_sess_process _ _ _ _) as [ret h]. cbn in *.
  destruct (is_ok ret); cbn; [done|]. by apply delete_ok.
Qed.

Lemma turn_keeps max t hd : turn_ok t -> sess_ok max hd -> sess_ok max (snd (server t hd)).
Proof.
  intros Ht Hok. unfold httpd_server. destruct (select_ok t); cbn [negb snd]; [|by apply enum_task_ok].
  set (h1 := if ctrl_ready t then _ else _). assert (sess_ok max h1) as H1 by (subst h1; destruct (ctrl_ready t); [by apply ctrl_msg_ok|done]).
  destruct (_ && stopping h1); [done|]. cbn [snd]. set (set := fst _). set (h2 := snd (httpd_sess_enum _ _ _)).
  assert (sess_ok max h2) as H2.
  { subst h2. unfold httpd_sess_enum. rewrite (ok_max _ _ H1).
    pose proof (sess_enum_ind (httpd_process_session httpd_sess_pending t set) (fun _ hd => sess_ok max hd) max) as H.
    specialize (H ltac:(intros; by apply session_ok) max 0%nat tt h1 ltac:(lia) H1). by destruct (sess_enum_from _ _ _ _ _). }
  destruct (_ && _); [|done]. apply accept_ok; [apply Ht|done].
Qed.

(** Going through all sessions, when [f] never stops. *)
Lemma sess_enum_all {C} (f : nat -> C -> httpd_data -> bool * C * httpd_data) (P : nat -> C -> httpd_data -> Prop) m :
  (forall i c hd, (i < m)%nat -> P i c hd -> fst (fst (f i c hd)) = true /\ P (S i) (snd (fst (f i c hd))) (snd (f i c hd))) ->
  forall n i c hd, (i + n = m)%nat -> P i c hd -> let '(c', hd') := sess_enum_from n i f c hd in P m c' hd'.
Proof.
  intros Hf. induction n as [|n IH]; intros i c hd Hi HP; cbn [sess_enum_from]; [by replace m with i by lia|].
  specialize (Hf i c hd ltac:(lia) HP). destruct (f i c hd) as [[go c'] hd']. cbn in Hf. destruct Hf as [-> Hf]. apply IH; [lia|done].
Qed.

Lemma init_state max purge open_fn : let hd := httpd_sess_init fd_is_valid (httpd_create max purge open_fn) in
  hd_sd hd = replicate max (set_fd (-1) sock_zero) /\ with_sd [] hd = with_sd [] (httpd_create max purge open_fn).
Proof.
  unfold httpd_sess_init, httpd_sess_enum. pose proof (sess_enum_all (enum_function fd_is_valid HTTPD_TASK_INIT)
    (fun i _ hd => hd_sd hd = replicate i (set_fd (-1) sock_zero) ++ replicate (max - i) sock_zero /\ with_sd [] hd = with_sd [] (httpd_create max purge open_fn))
    max) as H.
  assert (forall i (c : enum_context_t) hd, (i < max)%nat ->
    hd_sd hd = replicate i (set_fd (-1) sock_zero) ++ replicate (max - i) sock_zero /\ with_sd [] hd = with_sd [] (httpd_create max purge open_fn) ->
    true = true /\ hd_sd (upd_slot i (fun s => set_sctx None (free_ctx s) (set_fd (-1) s)) hd) = replicate (S i) (set_fd (-1) sock_zero) ++ replicate (max - S i) sock_zero
      /\ with_sd [] (upd_slot i (fun s => set_sctx None (free_ctx s) (set_fd (-1) s)) hd) = with_sd [] (httpd_create max purge open_fn)) as Hstep.
  { intros i c hd Hi [E1 E2]. split; [done|]. split; [|done]. cbn [hd_sd upd_slot with_sd]. rewrite E1.
    replace (max - i)%nat with (S (max - S i)) by lia. rewrite <-(Nat.add_0_r i) at 1. rewrite <-(length_replicate i (set_fd (-1) sock_zero)) at 1.
    rewrite alter_app_r. cbn. change (SockDb (-1) None false None None None 0 false false) with (set_fd (-1) sock_zero).
    by rewrite app_comm_cons, replicate_cons_app, <-app_assoc. }
  specialize (H Hstep max 0%nat enum_context (httpd_create max purge open_fn) eq_refl).
  cbn [max_open_sockets httpd_create]. specialize (H ltac:(split; [cbn; by rewrite Nat.sub_0_r|done])). destruct (sess_enum_from _ _ _ _ _) as [c' hd']. cbn [snd].
  destruct H as [-> ->]. by rewrite Nat.sub_diag, app_nil_r.
Qed.

Lemma sess_init_ok max purge open_fn : sess_ok max (httpd_sess_init fd_is_valid (httpd_create max purge open_fn)).
Proof.
  destruct (init_state max purge open_fn) as [Es Eo]. set (hd := httpd_sess_init _ _) in *. destruct hd; cbn in *. injection Eo as -> -> -> -> -> -> -> -> -> ->.
  assert (open_sockets ((fun s => (fd s, lru_counter s)) <$> replicate max (set_fd (-1) sock_zero)) = []) as E.
  { rewrite fmap_replicate. unfold open_sockets. rewrite fmap_replicate. clear. induction max; [done|]. cbn. done. }
  subst hd_sd. split; try done. split; cbn; rewrite ?E; try done.
  - by rewrite length_fmap, length_replicate.
  - rewrite fmap_replicate. apply Forall_replicate. cbn. lia.
  - constructor.
  - intros _. split; cbn; [lia|]. intros i j n l m k Hi _ Hn _. rewrite fmap_replicate in Hi.
    apply lookup_replicate in Hi as [[= -> ->] _]. done.
Qed.

Lemma reachable_ok max purge open_fn hd : reachable max purge open_fn hd -> sess_ok max hd.
Proof. induction 1; [apply sess_init_ok|by apply turn_keeps|by apply op_ok]. Qed.

(** ** Stopping *)

Lemma close_all_used max hd : sess_ok max hd -> used (httpd_sess_close_all fd_is_valid hd) = [].
Proof.
  intros Hok. unfold httpd_sess_close_all, httpd_sess_enum. rewrite (ok_max _ _ Hok).
  pose proof (sess_enum_all (enum_function fd_is_valid HTTPD_TASK_CLOSE)
    (fun i _ hd => sess_ok max hd /\ forall j n l, (j < i)%nat -> slots (books_of hd) !! j = Some (n, l) -> n = -1) max) as H.
  assert (forall i (c : enum_context_t) h, (i < max)%nat -> sess_ok max h /\ (forall j n l, (j < i)%nat -> slots (books_of h) !! j = Some (n, l) -> n = -1) ->
    let h' := if negb (fd (slot h i) =? -1) then httpd_sess_delete i h else h in
    true = true /\ sess_ok max h' /\ forall j n l, (j < S i)%nat -> slots (books_of h') !! j = Some (n, l) -> n = -1) as Hstep.
  { intros i c h Hi [Hh Hfree]. destruct (slot_Some _ _ _ (ok_shape _ _ Hh) Hi) as (s & Hs & Es & Hb & Hfd). rewrite Es.
    destruct (Z.eqb_spec (fd s) (-1)) as [E|E]; cbn zeta; cbn [negb].
    - split_and!; [done..|]. intros j n l Hj Hl. destruct (decide (j = i)) as [->|]; [|apply (Hfree j n l); [lia|done]].
      rewrite Hb in Hl. injection Hl as <- _. done.
    - split_and!; [done|by apply delete_ok|]. destruct (delete_books _ _ _ _ Hh Hs ltac:(lia)) as (-> & _). cbn [slots].
      intros j n l Hj [(_ & [= <- _] & _)|[Hne Hl]]%list_lookup_insert_Some; [done|]. apply (Hfree j n l); [lia|done]. }
  specialize (H Hstep max 0%nat enum_context hd eq_refl ltac:(split; [done|]; intros; lia)). destruct (sess_enum_from _ _ _ _ _) as [c' hd'].
  destruct H as [Hok' Hfree]. cbn [snd]. unfold used. destruct (open_sockets _) as [|n u] eqn:E; [done|].
  assert (n ∈ open_sockets (slots (books_of hd'))) as (Hn & j & l & Hj)%open_sockets_In by (rewrite E; left).
  contradict Hn. apply (Hfree j n l); [|done]. rewrite <-(ok_length _ _ (ok_books _ _ Hok')). by eapply lookup_lt_Some.
Qed.

(** ** The session that has not been used for the longest time *)

Definition use_of (hd : httpd_data) (i : nat) : nat := last_use (used_events (log hd)) (fd (slot hd i)).

(** A use is later when the counter is larger. *)
Lemma counters_order max hd i j : sess_ok max hd -> length (used_events (log hd)) < UINT64_MAX -> (i < max)%nat -> (j < max)%nat ->
  0 <= fd (slot hd i) -> 0 <= fd (slot hd j) ->
  lru_counter (slot hd i) < UINT64_MAX /\ (lru_counter (slot hd i) < lru_counter (slot hd j) <-> (use_of hd i < use_of hd j)%nat).
Proof.
  intros Hok Hu Hi Hj Hfi Hfj. destruct (slot_Some _ _ _ (ok_shape _ _ Hok) Hi) as (s & Hs & Es & Hb & _).
  destruct (slot_Some _ _ _ (ok_shape _ _ Hok) Hj) as (s' & Hs' & Es' & Hb' & _). unfold use_of. rewrite Es, Es' in *.
  destruct (ok_clocks _ _ (ok_books _ _ Hok) Hu) as [Hc Hk]. specialize (Hk _ _ _ _ _ _ Hb Hb' ltac:(lia) ltac:(lia)). cbn in *. lia.
Qed.

Lemma lowest_lru_spec max hd : sess_ok max hd -> length (used_events (log hd)) < UINT64_MAX -> (forall i, (i < max)%nat -> 0 <= fd (slot hd i)) ->
  match lowest_lru fd_is_valid hd with
  | Some i => (i < max)%nat /\ for_async_req (slot hd i) = false /\
      forall j, (j < max)%nat -> for_async_req (slot hd j) = false -> (use_of hd i <= use_of hd j)%nat
  | None => forall j, (j < max)%nat -> for_async_req (slot hd j) = true
  end.
Proof.
  intros Hok Hu Hall. pose proof (fun i j => counters_order max hd i j Hok Hu) as Hord.
  unfold lowest_lru, httpd_sess_enum. rewrite (ok_max _ _ Hok).
  pose proof (sess_enum_all (enum_function fd_is_valid HTTPD_TASK_FIND_LOWEST_LRU) (fun i c h => h = hd /\
    match session c with
    | Some k => (k < max)%nat /\ ctx_lru_counter c = lru_counter (slot hd k) /\ for_async_req (slot hd k) = false /\
        forall j, (j < i)%nat -> for_async_req (slot hd j) = false -> lru_counter (slot hd k) <= lru_counter (slot hd j)
    | None => ctx_lru_counter c = UINT64_MAX /\ forall j, (j < i)%nat -> for_async_req (slot hd j) = true
    end) max) as H.
  assert (forall P Q : nat -> Prop, forall i, (forall j, (j < i)%nat -> P j -> Q j) -> (P i -> Q i) -> forall j, (j < S i)%nat -> P j -> Q j) as Hsnoc.
  { intros P Q i Hbefore Hi j Hj HP. destruct (decide (j = i)) as [->|]; [auto|apply Hbefore; [lia|done]]. }
  lapply H; clear H; [intros H|].
  - specialize (H max 0%nat (EnumContext (-1) [] 0 UINT64_MAX None) hd eq_refl ltac:(cbn; split_and!; try done; intros; lia)).
    destruct (sess_enum_from _ _ _ _ _) as [c h]. cbn [fst]. destruct H as [_ H]. destruct (session c) as [k|]; [|apply H].
    destruct H as (Hk & _ & Ha & Hle). split_and!; [done..|]. intros j Hj Haj. specialize (Hle j Hj Haj).
    destruct (Hord j k Hj Hk (Hall j Hj) (Hall k Hk)) as [_ Hlt]. lia.
  - intros i c h Hi [-> H]. cbn. destruct (Z.eqb_spec (fd (slot hd i)) (-1)); [pose proof (Hall i Hi); lia|].
    destruct (for_async_req (slot hd i)) eqn:Ea; cbn [negb andb].
    + cbn. split_and!; [done..|]. destruct (session c); [|split; [apply H|]].
      * destruct H as (? & ? & ? & H). split_and!; [done..|]. apply Hsnoc; [done|congruence].
      * intros j Hj. destruct (decide (j = i)) as [->|]; [done|]. apply H. lia.
    + destruct (Z.ltb_spec (lru_counter (slot hd i)) (ctx_lru_counter c)); cbn; split_and!; try done.
      * apply Hsnoc; [|done]. intros j Hj Haj. destruct (session c) as [k|]; [|destruct H as [_ H]; by rewrite H in Haj].
        destruct H as (? & Ec & ? & H). specialize (H j Hj Haj). lia.
      * destruct (session c) as [k|].
        -- destruct H as (? & Ec & ? & H). split_and!; [done..|]. apply Hsnoc; [done|]. lia.
        -- destruct H as [Ec _]. destruct (Hord i i Hi Hi (Hall i Hi) (Hall i Hi)). lia.
Qed.

(** ** The properties *)


(** C12: with [lru_purge_enable], a connection that finds no free slot has the
    session closed that was used last before all others: the server marks it and
    sends itself the order, and when it takes the order that session is deleted
    and no other, so that the next connection finds a slot. Sessions with an
    asynchronous request are left out; when all have one, nothing happens. *)
Theorem lru_purge max purge open_fn t hd : reachable max purge open_fn hd -> length (used_events (log hd)) < UINT64_MAX ->
  lru_purge_enable hd = true -> get_free hd = None -> ctrl hd = [] -> sent_ok t = true ->
  let hd' := httpd_process_ctrl_msg (snd (httpd_accept_conn fd_is_valid t hd)) in
  (forall j, (j < max)%nat -> for_async_req (slot hd j) = true) /\ hd' = hd \/
  exists i, (i < max)%nat /\ for_async_req (slot hd i) = false /\
    (forall j, (j < max)%nat -> for_async_req (slot hd j) = false -> (use_of hd i <= use_of hd j)%nat) /\
    used hd ≡ₚ fd (slot hd i) :: used hd' /\ closed (log hd') = fd (slot hd i) :: closed (log hd) /\ get_free hd' <> None.
Proof.
  intros Hr Hu Hp Hg Hc Ht. pose proof (reachable_ok _ _ _ _ Hr) as Hok. pose proof (get_free_spec _ _ (ok_shape _ _ Hok)) as Hall.
  rewrite Hg in Hall. pose proof (lowest_lru_spec _ _ Hok Hu Hall) as Hl. unfold httpd_accept_conn, httpd_is_sess_available, httpd_sess_close_lru.
  rewrite Hp, Hg. cbn [andb negb]. destruct (lowest_lru fd_is_valid hd) as [i|]; [right|left; split; [done|]; unfold httpd_process_ctrl_msg; cbn [snd]; by rewrite Hc].
  destruct Hl as (Hi & Ha & Hle). exists i. split; [done|]. split; [done|]. split; [done|]. rewrite Ht. unfold httpd_sess_trigger_close_, httpd_queue_work, httpd_process_ctrl_msg.
  cbn [snd ctrl with_ctrl upd_slot with_sd]. rewrite Hc. cbn [app]. set (h1 := with_ctrl [] _ _).
  destruct (slot_Some _ _ _ (ok_shape _ _ Hok) Hi) as (s & Hs & Es & Hb & _). specialize (Hall i Hi). rewrite Es in *.
  assert (hd_sd h1 !! i = Some (set_lru_socket true s)) as Hs1 by (cbn; by rewrite list_lookup_alter_eq, Hs).
  assert (books_of h1 = books_of hd) as Eb1 by apply (quiet_upd i (set_lru_socket true) hd (keeps_socket true)).
  assert (sess_ok max h1) as Hok1.
  { apply ok_with_ctrl; [constructor|]. apply ok_with_ctrl; [constructor; [done|constructor]|]. apply ok_upd; [apply keeps_socket|done]. }
  unfold httpd_sess_close. assert (slot h1 i = set_lru_socket true s) as -> by (unfold slot; by rewrite Hs1). cbn [lru_socket set_lru_socket negb andb].
  rewrite andb_false_r. set (h2 := upd_slot i (set_lru_socket false) h1).
  assert (hd_sd h2 !! i = Some (set_lru_socket false (set_lru_socket true s))) as Hs2 by (cbn [hd_sd h2 upd_slot with_sd]; by rewrite list_lookup_alter_eq, Hs1).
  assert (sess_ok max h2) as Hok2 by (apply ok_upd; [apply keeps_socket|done]).
  assert (books_of h2 = books_of hd) as Eb2 by (rewrite <-Eb1; apply (quiet_upd i (set_lru_socket false) h1 (keeps_socket false))).
  destruct (delete_books _ _ _ _ Hok2 Hs2 Hall) as (Eb & _). rewrite Eb2 in Eb. cbn [lru_counter set_lru_socket fd] in Eb.
  pose proof (delete_ok max i h2 Hi Hok2) as Hok3. set (h3 := httpd_sess_delete i h2) in *. split_and!.
  - unfold used. rewrite Eb. cbn [slots]. apply open_sockets_close; [done|lia].
  - change (closed (log h3)) with (shut (books_of h3)). by rewrite Eb.
  - intros E. pose proof (get_free_spec _ _ (ok_shape _ _ Hok3)) as H. rewrite E in H. specialize (H i Hi).
    destruct (slot_Some _ _ _ (ok_shape _ _ Hok3) Hi) as (s3 & _ & E3 & Hb3 & _). rewrite E3 in H. rewrite Eb in Hb3. cbn [slots] in Hb3.
    rewrite list_lookup_insert_eq in Hb3 by (by eapply lookup_lt_Some). injection Hb3 as Hb3 _. lia.
Qed.

End Serve.

(** ** A server with two slots *)

Module ServeExample.

Definition valid (_ : Z) : bool := true.
Definition pending (_ : Z) : bool := false.

(** A request that is answered, and one whose handler starts an asynchronous one. *)
Definition answered (_ : nat) (hd : httpd_data) : esp_err_t * httpd_data := (ESP_OK, run_sess_ops valid [] hd).
Definition deferred (_ : nat) (hd : httpd_data) : esp_err_t * httpd_data := (ESP_OK, run_sess_ops valid [AsyncBegin] hd).

(** A client connects with socket [n]; the clients [l] ask for something. *)
Definition connects (n : Z) : turn := Turn true (fun _ => false) false true answered (fun _ => true) n true ESP_OK true.
Definition asks (l : list Z) : turn := Turn true (fun n => bool_decide (n ∈ l)) false false answered (fun _ => true) (-1) true ESP_OK true.
Definition defers (l : list Z) : turn := Turn true (fun n => bool_decide (n ∈ l)) false false deferred (fun _ => true) (-1) true ESP_OK true.
Definition refused (n : Z) : turn := Turn true (fun _ => false) false true answered (fun _ => true) n true ESP_FAIL true.
Definition ordered : turn := Turn true (fun _ => false) true false answered (fun _ => true) (-1) true ESP_OK true.

Definition start (open_fn : bool) : httpd_data := httpd_sess_init valid (httpd_create 2 true open_fn).
Definition run (ts : list turn) (hd : httpd_data) : httpd_data := foldl (fun hd t => snd (httpd_server valid pending t hd)) hd ts.

Lemma answers_ok t : (parse_req t = answered \/ parse_req t = deferred) -> open_answer t = ESP_OK -> turn_ok valid t.
Proof.
  intros Hp Ho. split; [|done]. intros i hd. destruct Hp as [->| ->]; [by exists [], ESP_OK|by exists [AsyncBegin], ESP_OK].
Qed.

Lemma run_reachable open_fn ts : Forall (turn_ok valid) ts -> reachable valid pending 2 true open_fn (run ts (start open_fn)).
Proof.
  intros Hts. unfold run. assert (reachable valid pending 2 true open_fn (start open_fn)) as H by apply reach_start.
  revert H. generalize (start open_fn). induction Hts as [|t ts Ht Hts IH]; intros hd H; [done|]. cbn. by apply IH, reach_turn.
Qed.

(** 5 and 6 connect, 6 asks for something, and then 5 does. *)
Definition busy : list turn := [connects 5; connects 6; asks [6]; asks [5]].

Lemma busy_ok : Forall (turn_ok valid) busy.
Proof. unfold busy. repeat (apply Forall_cons_2; [apply answers_ok; [left|]; reflexivity|]). apply Forall_nil_2. Qed.


Lemma lru_purge_witness :
  let hd := run busy (start false) in
  used hd ≡ₚ 6 :: used (httpd_process_ctrl_msg (snd (httpd_accept_conn valid (connects 7) hd))).
Proof.
  destruct (lru_purge valid pending 2 true false (connects 7) (run busy (start false)) (run_reachable false _ busy_ok) ltac:(vm_compute; reflexivity)
    ltac:(vm_compute; reflexivity) ltac:(vm_compute; reflexivity) ltac:(vm_compute; reflexivity) eq_refl) as [[H _]|(i & Hi & _ & Hle & Hu & _)].
  - specialize (H 0%nat ltac:(lia)). vm_compute in H. discriminate H.
  - assert (i = 1%nat) as ->; [|exact Hu].
    specialize (Hle 1%nat ltac:(lia) ltac:(vm_compute; reflexivity)). destruct i as [|[|]]; [vm_compute in Hle|reflexivity|]; lia.
Defined.

(** When [open_fn] refuses a socket, it is closed by [httpd_sess_delete] and again
    by [httpd_accept_conn]. *)
Example refused_socket_closed_twice :
  let hd := run [refused 5] (start true) in accepted (log hd) = [5] /\ closed (log hd) = [5; 5].
Proof. vm_compute. done. Qed.

(** [httpd_sess_trigger_close] of a session that has served no request yet
    reports success, and the session stays. *)
Example unused_session_not_closed :
  let '(err, hd) := httpd_sess_trigger_close valid 5 true (run [connects 5] (start false)) in
  err = ESP_OK /\ used (run [ordered] hd) = [5].
Proof. vm_compute. done. Qed.

(** The order to close names a slot: asked twice to close 5, the server closes 6,
    which has come to the same slot. *)
Example later_session_closed :
  let trigger hd := snd (httpd_sess_trigger_close valid 5 true hd) in
  let hd := trigger (trigger (run [connects 5; asks [5]] (start false))) in
  closed (log (run [ordered; connects 6; asks [6]; ordered] hd)) = [6; 5].
Proof. vm_compute. done. Qed.

(** With asynchronous requests in all sessions no slot is made free. *)
Example all_asynchronous :
  let hd := run [connects 5; connects 6; defers [5; 6]; connects 7; ordered] (start false) in used hd = [5; 6] /\ ctrl hd = [].
Proof. vm_compute. done. Qed.

End ServeExample.
