(* ===== verification/Vfs.v ===== *)
(** * The virtual file system ([vfs/vfs.c])

    File systems and devices are registered under a path prefix or for
    descriptors; a call is passed on to the driver that the path or the
    descriptor belongs to. Selecting is in [VfsSelect]. *)

From S2P Require Import Prelude EspErr.

#[local] Open Scope abort_scope.

(** ** Limits and error numbers *)

Definition VFS_MAX_COUNT : nat := 8.
Definition MAX_FDS : nat := 64.
Definition ESP_VFS_PATH_MAX : nat := 15.
Definition ESP_VFS_FLAG_CONTEXT_PTR : Z := 1.
Definition ESP_VFS_FLAG_READONLY_FS : Z := 2.

Definition O_RDONLY : Z := 0.
Definition O_ACCMODE : Z := 3.

Definition ENOENT : Z := 2.
Definition EINTR : Z := 4.
Definition EBADF : Z := 9.
Definition ENOMEM : Z := 12.
Definition EXDEV : Z := 18.
Definition EINVAL : Z := 22.
Definition EROFS : Z := 30.
Definition ENOSYS : Z := 88.

Definition SLASH : Z := 47.

(** ** Drivers *)

(** The members of [esp_vfs_t] that calls are passed on to. *)
Inductive vfs_func :=
| F_write | F_lseek | F_read | F_pread | F_pwrite | F_open | F_close | F_fstat
| F_stat | F_link | F_unlink | F_rename | F_opendir | F_readdir | F_readdir_r | F_telldir | F_seekdir | F_closedir
| F_mkdir | F_rmdir | F_fcntl | F_ioctl | F_fsync | F_access | F_truncate | F_ftruncate | F_utime
| F_tcsetattr | F_tcgetattr | F_tcdrain | F_tcflush | F_tcflow | F_tcgetsid | F_tcsendbreak.

#[global] Instance vfs_func_eq_dec : EqDecision vfs_func.
Proof. solve_decision. Defined.

(** Arguments: numbers, pointers among them, and paths without their final zero. *)
Inductive varg := Num (z : Z) | Path (p : list Z).

(** The three sets of descriptors that [select] works on, as one set. *)
Inductive set_kind := READ | WRITE | ERROR.

#[global] Instance set_kind_eq_dec : EqDecision set_kind.
Proof. solve_decision. Defined.

#[global] Instance set_kind_countable : Countable set_kind.
Proof.
  refine (inj_countable' (fun k => match k with READ => 0%nat | WRITE => 1%nat | ERROR => 2%nat end)
    (fun n => match n with 0%nat => READ | 1%nat => WRITE | _ => ERROR end) _). by intros [].
Defined.

Definition fd_sets : Type := gset (set_kind * Z).

Section Vfs.

(** What the drivers keep. *)
Context {W : Type}.
Implicit Types w : W.

(** A driver function that is missing is [None]. [start_select] is given the
    descriptors to watch, and returns an argument for [end_select] and the sets
    as it leaves them. *)
Record esp_vfs_t := EspVfs {
  flags : Z;
  func : vfs_func -> option (list varg -> W -> Z * W);
  start_select : option (Z -> fd_sets -> W -> esp_err_t * Z * fd_sets * W);
  socket_select : option (Z -> fd_sets -> W -> Z * fd_sets * W);
  get_socket_select_semaphore : option (W -> W);
  end_select : option (Z -> W -> esp_err_t * W);
}.

(** [path_prefix_len] is [None] for [LEN_PATH_PREFIX_IGNORED]. *)
Record vfs_entry_t := VfsEntry {
  vfs : esp_vfs_t;
  path_prefix : list Z;
  path_prefix_len : option nat;
  ctx : Z;
  offset : nat;
}.

Record fd_table_t := FdEntry {
  permanent : bool;
  has_pending_close : bool;
  has_pending_select : bool;
  vfs_index : Z;
  local_fd : Z;
}.

Definition FD_TABLE_ENTRY_UNUSED : fd_table_t := FdEntry false false false (-1) (u8 (-1)).

(** [dirs] is the member [dd_vfs_idx] of the directory streams, by their address. *)
Record vfs_state := VfsState {
  s_vfs : list (option vfs_entry_t);
  s_vfs_count : nat;
  s_fd_table : list fd_table_t;
  dirs : gmap Z Z;
  world : W;
}.

Definition vfs_start w : vfs_state := VfsState (replicate VFS_MAX_COUNT None) 0 (replicate MAX_FDS FD_TABLE_ENTRY_UNUSED) ∅ w.

Definition with_vfs (l : list (option vfs_entry_t)) (n : nat) (s : vfs_state) : vfs_state := VfsState l n (s_fd_table s) (dirs s) (world s).
Definition with_fds (t : list fd_table_t) (s : vfs_state) : vfs_state := VfsState (s_vfs s) (s_vfs_count s) t (dirs s) (world s).
Definition with_dirs (d : gmap Z Z) (s : vfs_state) : vfs_state := VfsState (s_vfs s) (s_vfs_count s) (s_fd_table s) d (world s).
Definition with_world w (s : vfs_state) : vfs_state := VfsState (s_vfs s) (s_vfs_count s) (s_fd_table s) (dirs s) w.

(** [s_vfs[i]], for [i] below [VFS_MAX_COUNT]. *)
Definition vfs_at (i : nat) (s : vfs_state) : option vfs_entry_t := mjoin (s_vfs s !! i).

(** ** Registering *)

(** The first free place of [s_vfs] from [i] on, [n] places looked at. *)
Fixpoint free_index (n i : nat) (s : vfs_state) : nat :=
  match n with
  | O => i
  | S n => match vfs_at i s with None => i | Some _ => free_index n (S i) s end
  end.

Definition esp_vfs_register_common (base_path : list Z) (len : option nat) (v : esp_vfs_t) (c : Z) (malloc_ok : bool) (s : vfs_state) :
    esp_err_t * option nat * vfs_state :=
  let bad :=
    match len with
    | Some len =>
        (len =? 1)%nat || (ESP_VFS_PATH_MAX <? len)%nat ||
        ((2 <=? len)%nat && (negb (bool_decide (base_path !! 0%nat = Some SLASH)) || bool_decide (base_path !! (len - 1)%nat = Some SLASH)))
    | None => false
    end in
  if bad : bool then (ESP_ERR_INVALID_ARG, None, s)
  else if negb malloc_ok then (ESP_ERR_NO_MEM, None, s)
  else
    let index := free_index (s_vfs_count s) 0 s in
    if (index =? s_vfs_count s)%nat && (VFS_MAX_COUNT <=? s_vfs_count s)%nat then (ESP_ERR_NO_MEM, None, s)
    else
      let count := if (index =? s_vfs_count s)%nat then S (s_vfs_count s) else s_vfs_count s in
      let entry := VfsEntry v (match len with Some _ => base_path | None => [] end) len c index in
      (ESP_OK, Some index, with_vfs (<[index := Some entry]> (s_vfs s)) count s).

Definition esp_vfs_register (base_path : list Z) (v : esp_vfs_t) (c : Z) (malloc_ok : bool) (s : vfs_state) : esp_err_t * vfs_state :=
  let '(err, _, s) := esp_vfs_register_common base_path (Some (length base_path)) v c malloc_ok s in (err, s).

Definition free_vfs (index : nat) (s : vfs_state) : vfs_state := with_vfs (<[index := None]> (s_vfs s)) (s_vfs_count s) s.

(** The loop of [esp_vfs_register_fd_range] over [n] descriptors from [i] on;
    [None] when one is in use. *)
Fixpoint range_loop (n i : nat) (index : nat) (t : list fd_table_t) : option (list fd_table_t) * nat * list fd_table_t :=
  match n with
  | O => (Some t, i, t)
  | S n =>
      match t !! i with
      | Some e =>
          if negb (vfs_index e =? -1) then (None, i, t)
          else range_loop n (S i) index (<[i := FdEntry true (has_pending_close e) (has_pending_select e) index (u8 i)]> t)
      | None => (None, i, t)
      end
  end.

(** The entries [min] to [i - 1] of [index] are given up again. *)
Definition range_undo (min i : nat) (index : nat) (t : list fd_table_t) : list fd_table_t :=
  imap (fun j e => if (min <=? j)%nat && (j <? i)%nat && (vfs_index e =? index) then FD_TABLE_ENTRY_UNUSED else e) t.

Definition esp_vfs_register_fd_range (v : esp_vfs_t) (c : Z) (min_fd max_fd : Z) (malloc_ok : bool) (s : vfs_state) : esp_err_t * vfs_state :=
  if (min_fd <? 0) || (max_fd <? 0) || (MAX_FDS <? min_fd) || (MAX_FDS <? max_fd) || (max_fd <? min_fd) then (ESP_ERR_INVALID_ARG, s)
  else
    match esp_vfs_register_common [] None v c malloc_ok s with
    | (ESP_OK, Some index, s) =>
        match range_loop (Z.to_nat (max_fd - min_fd)) (Z.to_nat min_fd) index (s_fd_table s) with
        | (Some t, _, _) => (ESP_OK, with_fds t s)
        | (None, i, t) => (ESP_ERR_INVALID_ARG, with_fds (range_undo (Z.to_nat min_fd) i index t) (free_vfs index s))
        end
    | (ret, _, s) => (ret, s)
    end.

(** The id is -1 when the call fails. *)
Definition esp_vfs_register_with_id (v : esp_vfs_t) (c : Z) (malloc_ok : bool) (s : vfs_state) : esp_err_t * Z * vfs_state :=
  let '(err, index, s) := esp_vfs_register_common [] None v c malloc_ok s in (err, match index with Some i => Z.of_nat i | None => -1 end, s).

Definition esp_vfs_unregister_with_id (vfs_id : Z) (s : vfs_state) : esp_err_t * vfs_state :=
  if (vfs_id <? 0) || (VFS_MAX_COUNT <=? vfs_id) then (ESP_ERR_INVALID_ARG, s)
  else
    match vfs_at (Z.to_nat vfs_id) s with
    | None => (ESP_ERR_INVALID_ARG, s)
    | Some _ =>
        let s := free_vfs (Z.to_nat vfs_id) s in
        (ESP_OK, with_fds (imap (fun j e => if (j <? VFS_MAX_COUNT)%nat && (vfs_index e =? vfs_id) then FD_TABLE_ENTRY_UNUSED else e) (s_fd_table s)) s)
    end.

(** The prefix of [e] is [base_path]. *)
Definition has_prefix (base_path : list Z) (e : vfs_entry_t) : bool :=
  match path_prefix_len e with
  | Some n => (length base_path =? n)%nat && bool_decide (take n base_path = take n (path_prefix e))
  | None => false
  end.

(** The first entry with this prefix, of [n] from [i] on. *)
Fixpoint prefix_index (base_path : list Z) (n i : nat) (s : vfs_state) : option nat :=
  match n with
  | O => None
  | S n =>
      match vfs_at i s with
      | Some e => if has_prefix base_path e then Some i else prefix_index base_path n (S i) s
      | None => prefix_index base_path n (S i) s
      end
  end.

Definition esp_vfs_unregister (base_path : list Z) (s : vfs_state) : esp_err_t * vfs_state :=
  match prefix_index base_path (s_vfs_count s) 0 s with
  | Some i => esp_vfs_unregister_with_id i s
  | None => (ESP_ERR_INVALID_STATE, s)
  end.

Definition set_readonly (e : vfs_entry_t) : vfs_entry_t :=
  VfsEntry
    (EspVfs (Z.lor (flags (vfs e)) ESP_VFS_FLAG_READONLY_FS) (func (vfs e)) (start_select (vfs e)) (socket_select (vfs e))
      (get_socket_select_semaphore (vfs e)) (end_select (vfs e))) (path_prefix e) (path_prefix_len e) (ctx e) (offset e).

Definition esp_vfs_set_readonly_flag (base_path : list Z) (s : vfs_state) : esp_err_t * vfs_state :=
  match prefix_index base_path (s_vfs_count s) 0 s with
  | Some i => (ESP_OK, with_vfs (alter (fmap set_readonly) i (s_vfs s)) (s_vfs_count s) s)
  | None => (ESP_ERR_INVALID_STATE, s)
  end.

(** The first unused descriptor. *)
Definition unused_fd (t : list fd_table_t) : option nat := fst <$> list_find (fun e => vfs_index e = -1) t.

(** An entry is taken: the pending marks stay as they are. *)
Definition take_fd (i : nat) (perm : bool) (index local : Z) (t : list fd_table_t) : list fd_table_t :=
  alter (fun e => FdEntry perm (has_pending_close e) (has_pending_select e) index (u8 local)) i t.

Definition esp_vfs_register_fd_with_local_fd (vfs_id local : Z) (perm : bool) (s : vfs_state) : esp_err_t * option nat * vfs_state :=
  if (vfs_id <? 0) || (s_vfs_count s <=? vfs_id) then (ESP_ERR_INVALID_ARG, None, s)
  else
    match unused_fd (s_fd_table s) with
    | Some i => (ESP_OK, Some i, with_fds (take_fd i perm vfs_id (if 0 <=? local then local else i) (s_fd_table s)) s)
    | None => (ESP_ERR_NO_MEM, None, s)
    end.

Definition esp_vfs_register_fd (vfs_id : Z) (s : vfs_state) : esp_err_t * option nat * vfs_state :=
  esp_vfs_register_fd_with_local_fd vfs_id (-1) true s.

Definition fd_at (fd : Z) (s : vfs_state) : fd_table_t := default FD_TABLE_ENTRY_UNUSED (s_fd_table s !! Z.to_nat fd).

Definition release_fd (fd : Z) (s : vfs_state) : vfs_state := with_fds (<[Z.to_nat fd := FD_TABLE_ENTRY_UNUSED]> (s_fd_table s)) s.

Definition esp_vfs_unregister_fd (vfs_id fd : Z) (s : vfs_state) : esp_err_t * vfs_state :=
  if (vfs_id <? 0) || (s_vfs_count s <=? vfs_id) || (fd <? 0) || (MAX_FDS <=? fd) then (ESP_ERR_INVALID_ARG, s)
  else
    let item := fd_at fd s in
    if permanent item && (vfs_index item =? vfs_id) && (local_fd item =? fd) then (ESP_OK, release_fd fd s)
    else (ESP_ERR_INVALID_ARG, s).

(** ** Finding the driver *)

Definition get_vfs_for_index (index : Z) (s : vfs_state) : option vfs_entry_t :=
  if (index <? 0) || (s_vfs_count s <=? index) then None else vfs_at (Z.to_nat index) s.

Definition fd_valid (fd : Z) : bool := (fd <? MAX_FDS) && (0 <=? fd).

Definition get_vfs_for_fd (fd : Z) (s : vfs_state) : option vfs_entry_t :=
  if fd_valid fd then get_vfs_for_index (vfs_index (fd_at fd s)) s else None.

Definition get_local_fd (v : option vfs_entry_t) (fd : Z) (s : vfs_state) : Z :=
  match v with
  | Some _ => if fd_valid fd then local_fd (fd_at fd s) else -1
  | None => -1
  end.

(** The [strncmp] of the assertion compares up to the length of the prefix. *)
Definition translate_path (e : vfs_entry_t) (src_path : list Z) : option (list Z) :=
  match path_prefix_len e with
  | Some n =>
      if bool_decide (take n src_path = take n (path_prefix e)) then
        Some (if (length src_path =? n)%nat then [SLASH] else drop n src_path)
      else None
  | None => None
  end.

(** The loop of [get_vfs_for_path] over [n] entries from [i] on; [best_len] is
    [best_match_prefix_len]. *)
Fixpoint path_loop (n i : nat) (path : list Z) (best : option vfs_entry_t) (best_len : Z) (s : vfs_state) : option vfs_entry_t :=
  match n with
  | O => best
  | S n =>
      match vfs_at i s with
      | Some e =>
          match path_prefix_len e with
          | Some m =>
              if (length path <? m)%nat || negb (bool_decide (take m path = take m (path_prefix e))) then path_loop n (S i) path best best_len s
              else if (m =? 0)%nat && (if best is None then true else false) then path_loop n (S i) path (Some e) best_len s
              else if (m <? length path)%nat && negb (bool_decide (path !! m = Some SLASH)) then path_loop n (S i) path best best_len s
              else if best_len <? m then path_loop n (S i) path (Some e) m s
              else path_loop n (S i) path best best_len s
          | None => path_loop n (S i) path best best_len s
          end
      | None => path_loop n (S i) path best best_len s
      end
  end.

Definition get_vfs_for_path (path : list Z) (s : vfs_state) : option vfs_entry_t := path_loop (s_vfs_count s) 0 path None (-1) s.

(** ** Calls *)

(** A call returns what the driver returns, or fails with an error number of its
    own and returns -1 or NULL. *)
Inductive vfs_result := Err (errno : Z) | Ret (ret : Z).

(** [CHECK_AND_CALL], [CHECK_AND_CALLV] and [CHECK_AND_CALLP]. *)
Definition check_and_call (e : vfs_entry_t) (f : vfs_func) (args : list varg) (s : vfs_state) : vfs_result * vfs_state :=
  match func (vfs e) f with
  | None => (Err ENOSYS, s)
  | Some call =>
      let args := if negb (Z.land (flags (vfs e)) ESP_VFS_FLAG_CONTEXT_PTR =? 0) then Num (ctx e) :: args else args in
      let '(ret, w) := call args (world s) in (Ret ret, with_world w s)
  end.

Definition is_readonly (e : vfs_entry_t) : bool := negb (Z.land (flags (vfs e)) ESP_VFS_FLAG_READONLY_FS =? 0).

(** [CHECK_VFS_READONLY_FLAG] *)
Definition check_readonly (e : vfs_entry_t) (s : vfs_state) (k : option (vfs_result * vfs_state)) : option (vfs_result * vfs_state) :=
  if is_readonly e then Some (Err EROFS, s) else k.

Definition esp_vfs_open (path : list Z) (fl mode : Z) (s : vfs_state) : option (vfs_result * vfs_state) :=
  match get_vfs_for_path path s with
  | None => Some (Err ENOENT, s)
  | Some e =>
      if negb (Z.land fl O_ACCMODE =? O_RDONLY) && is_readonly e then Some (Err EROFS, s)
      else
        let! path_within_vfs := translate_path e path in
        match check_and_call e F_open [Path path_within_vfs; Num fl; Num mode] s with
        | (Err n, s) => Some (Err n, s)
        | (Ret fd_within_vfs, s) =>
            if 0 <=? fd_within_vfs then
              match unused_fd (s_fd_table s) with
              | Some i => Some (Ret i, with_fds (take_fd i false (offset e) fd_within_vfs (s_fd_table s)) s)
              | None =>
                  match check_and_call e F_close [Num fd_within_vfs] s with
                  | (Err n, s) => Some (Err n, s)
                  | (Ret _, s) => Some (Err ENOMEM, s)
                  end
              end
            else Some (Ret (-1), s)
        end
  end.

(** The calls on a descriptor. *)
Definition fd_call (f : vfs_func) (fd : Z) (args : list varg) (s : vfs_state) : vfs_result * vfs_state :=
  let v := get_vfs_for_fd fd s in
  let local := get_local_fd v fd s in
  match v with
  | None => (Err EBADF, s)
  | Some e => if local <? 0 then (Err EBADF, s) else check_and_call e f (Num local :: args) s
  end.

Definition esp_vfs_write (fd data size : Z) := fd_call F_write fd [Num data; Num size].
Definition esp_vfs_lseek (fd size mode : Z) := fd_call F_lseek fd [Num size; Num mode].
Definition esp_vfs_read (fd dst size : Z) := fd_call F_read fd [Num dst; Num size].
Definition esp_vfs_pread (fd dst size off : Z) := fd_call F_pread fd [Num dst; Num size; Num off].
Definition esp_vfs_pwrite (fd src size off : Z) := fd_call F_pwrite fd [Num src; Num size; Num off].
Definition esp_vfs_fstat (fd st : Z) := fd_call F_fstat fd [Num st].
Definition esp_vfs_fcntl_r (fd cmd arg : Z) := fd_call F_fcntl fd [Num cmd; Num arg].
Definition esp_vfs_ioctl (fd cmd args : Z) := fd_call F_ioctl fd [Num cmd; Num args].
Definition esp_vfs_fsync (fd : Z) := fd_call F_fsync fd [].
Definition tcgetattr (fd p : Z) := fd_call F_tcgetattr fd [Num p].
Definition tcsetattr (fd optional_actions p : Z) := fd_call F_tcsetattr fd [Num optional_actions; Num p].
Definition tcdrain (fd : Z) := fd_call F_tcdrain fd [].
Definition tcflush (fd sel : Z) := fd_call F_tcflush fd [Num sel].
Definition tcflow (fd action : Z) := fd_call F_tcflow fd [Num action].
Definition tcgetsid (fd : Z) := fd_call F_tcgetsid fd [].
Definition tcsendbreak (fd duration : Z) := fd_call F_tcsendbreak fd [Num duration].

(** The descriptor is given up once the driver has been called. *)
Definition esp_vfs_close (fd : Z) (s : vfs_state) : vfs_result * vfs_state :=
  match fd_call F_close fd [] s with
  | (Err n, s) => (Err n, s)
  | (Ret ret, s) =>
      let e := fd_at fd s in
      (Ret ret,
        if negb (permanent e) then
          if has_pending_select e then
            with_fds (<[Z.to_nat fd := FdEntry (permanent e) true (has_pending_select e) (vfs_index e) (local_fd e)]> (s_fd_table s)) s
          else release_fd fd s
        else s)
  end.

Definition esp_vfs_ftruncate (fd len : Z) (s : vfs_state) : vfs_result * vfs_state :=
  let v := get_vfs_for_fd fd s in
  let local := get_local_fd v fd s in
  match v with
  | None => (Err EBADF, s)
  | Some e =>
      if local <? 0 then (Err EBADF, s)
      else if is_readonly e then (Err EROFS, s)
      else check_and_call e F_ftruncate [Num local; Num len] s
  end.

(** *** The calls on a path *)

Definition path_call (f : vfs_func) (modifies : bool) (path : list Z) (args : list varg) (s : vfs_state) : option (vfs_result * vfs_state) :=
  match get_vfs_for_path path s with
  | None => Some (Err ENOENT, s)
  | Some e =>
      let call := let! path_within_vfs := translate_path e path in Some (check_and_call e f (Path path_within_vfs :: args) s) in
      if modifies then check_readonly e s call else call
  end.

Definition esp_vfs_stat (path : list Z) (st : Z) := path_call F_stat false path [Num st].
Definition esp_vfs_utime (path : list Z) (times : Z) := path_call F_utime false path [Num times].
Definition esp_vfs_access (path : list Z) (amode : Z) := path_call F_access false path [Num amode].
Definition esp_vfs_unlink (path : list Z) := path_call F_unlink true path [].
Definition esp_vfs_mkdir (name : list Z) (mode : Z) := path_call F_mkdir true name [Num mode].
Definition esp_vfs_rmdir (name : list Z) := path_call F_rmdir true name [].
Definition esp_vfs_truncate (path : list Z) (len : Z) := path_call F_truncate true path [Num len].

(** Entries are compared by address; each is in the place [offset] of [s_vfs]. *)
Definition same_vfs (e : vfs_entry_t) (e2 : option vfs_entry_t) : bool :=
  match e2 with Some e2 => (offset e =? offset e2)%nat | None => false end.

Definition esp_vfs_link (n1 n2 : list Z) (s : vfs_state) : option (vfs_result * vfs_state) :=
  match get_vfs_for_path n1 s with
  | None => Some (Err ENOENT, s)
  | Some e =>
      if negb (same_vfs e (get_vfs_for_path n2 s)) then Some (Err EXDEV, s)
      else
        check_readonly e s
          (let! path1_within_vfs := translate_path e n1 in
           let! path2_within_vfs := translate_path e n2 in
           Some (check_and_call e F_link [Path path1_within_vfs; Path path2_within_vfs] s))
  end.

Definition esp_vfs_rename (src dst : list Z) (s : vfs_state) : option (vfs_result * vfs_state) :=
  match get_vfs_for_path src s with
  | None => Some (Err ENOENT, s)
  | Some e =>
      check_readonly e s
        (if negb (same_vfs e (get_vfs_for_path dst s)) then Some (Err EXDEV, s)
         else
           check_readonly e s
             (let! src_within_vfs := translate_path e src in
              let! dst_within_vfs := translate_path e dst in
              Some (check_and_call e F_rename [Path src_within_vfs; Path dst_within_vfs] s)))
  end.

(** *** Directories *)

(** A stream that is not NULL is marked with the place of its driver. *)
Definition esp_vfs_opendir (name : list Z) (s : vfs_state) : option (vfs_result * vfs_state) :=
  let! r := path_call F_opendir false name [] s in
  match r with
  | (Ret ret, s1) =>
      match get_vfs_for_path name s with
      | Some e => Some (Ret ret, if ret =? 0 then s1 else with_dirs (<[ret := Z.of_nat (offset e)]> (dirs s1)) s1)
      | None => None
      end
  | (Err n, s1) => Some (Err n, s1)
  end.

(** A stream that [esp_vfs_opendir] has not marked is [None]. *)
Definition dir_call (f : vfs_func) (pdir : Z) (args : list varg) (s : vfs_state) : option (vfs_result * vfs_state) :=
  let! index := dirs s !! pdir in
  match get_vfs_for_index index s with
  | None => Some (Err EBADF, s)
  | Some e => Some (check_and_call e f (Num pdir :: args) s)
  end.

Definition esp_vfs_readdir (pdir : Z) := dir_call F_readdir pdir [].
Definition esp_vfs_readdir_r (pdir entry out_dirent : Z) := dir_call F_readdir_r pdir [Num entry; Num out_dirent].
Definition esp_vfs_telldir (pdir : Z) := dir_call F_telldir pdir [].
Definition esp_vfs_seekdir (pdir loc : Z) := dir_call F_seekdir pdir [Num loc].
Definition esp_vfs_rewinddir (pdir : Z) := esp_vfs_seekdir pdir 0.
Definition esp_vfs_closedir (pdir : Z) := dir_call F_closedir pdir [].

End Vfs.

Arguments esp_vfs_t : clear implicits.
Arguments vfs_entry_t : clear implicits.
Arguments vfs_state : clear implicits.
