(* ===== verification/VfsPath.v ===== *)
(** * Paths of the virtual file system

    A path goes to the file system with the longest prefix that ends at a
    component of the path, and what is read-only is not changed. *)

From S2P Require Import Prelude EspErr Vfs.

#[local] Open Scope abort_scope.

Section Path.
Context {W : Type}.
Implicit Types (s : vfs_state W) (e b : vfs_entry_t W).

Definition registered s e : Prop := exists i, (i < s_vfs_count s)%nat /\ vfs_at i s = Some e.

Definition prefix_len e : nat := default 0%nat (path_prefix_len e).

(** The prefix of [e] is [path], or its leading components, or it is empty. *)
Definition serves e (path : list Z) : bool :=
  match path_prefix_len e with
  | Some m =>
      (m <=? length path)%nat && bool_decide (take m path = take m (path_prefix e)) &&
      ((m =? 0)%nat || (m =? length path)%nat || bool_decide (path !! m = Some SLASH))
  | None => false
  end.

(** The state of the loop that looks for the longest prefix. *)
Definition best_so_far s (path : list Z) (i : nat) (best : option (vfs_entry_t W)) (best_len : Z) : Prop :=
  match best with
  | None => best_len = -1 /\ forall j e, (j < i)%nat -> vfs_at j s = Some e -> serves e path = false
  | Some b =>
      (exists j, (j < i)%nat /\ vfs_at j s = Some b) /\ serves b path = true /\ (best_len = prefix_len b \/ best_len = -1 /\ prefix_len b = 0%nat) /\
      forall j e, (j < i)%nat -> vfs_at j s = Some e -> serves e path = true -> (prefix_len e <= prefix_len b)%nat
  end.

Lemma best_skip s path i best best_len e : best_so_far s path i best best_len -> vfs_at i s = Some e ->
  (serves e path = true -> exists b, best = Some b /\ (prefix_len e <= prefix_len b)%nat) -> best_so_far s path (S i) best best_len.
Proof.
  intros Hb He Hs. destruct best as [b|]; cbn in *.
  - destruct Hb as ((j & Hj & Eb) & Hsb & Hl & Hmax). split_and!; [exists j; split; [lia|done]|done..|].
    intros k e' Hk Ek Hse. destruct (decide (k = i)) as [->|]; [|apply (Hmax k e'); [lia|done..]].
    rewrite He in Ek. injection Ek as <-. destruct (Hs Hse) as (? & [= <-] & ?). done.
  - destruct Hb as [-> Hnone]. split; [done|]. intros k e' Hk Ek. destruct (decide (k = i)) as [->|]; [|apply (Hnone k e'); [lia|done]].
    rewrite He in Ek. injection Ek as <-. apply not_true_is_false. intros Hse. by destruct (Hs Hse) as (? & ? & _).
Qed.

Lemma best_free s path i best best_len : best_so_far s path i best best_len -> vfs_at i s = None -> best_so_far s path (S i) best best_len.
Proof.
  intros Hb He. destruct best as [b|]; cbn in *.
  - destruct Hb as ((j & Hj & Eb) & Hsb & Hl & Hmax). split_and!; [exists j; split; [lia|done]|done..|].
    intros k e' Hk Ek. destruct (decide (k = i)) as [->|]; [congruence|]. apply (Hmax k e'); [lia|done].
  - destruct Hb as [-> Hnone]. split; [done|]. intros k e' Hk Ek. destruct (decide (k = i)) as [->|]; [congruence|]. apply (Hnone k e'); [lia|done].
Qed.

Lemma best_take s path i best best_len e (n : Z) : best_so_far s path i best best_len -> vfs_at i s = Some e -> serves e path = true ->
  (n = prefix_len e \/ n = -1 /\ prefix_len e = 0%nat) -> (forall b, best = Some b -> (prefix_len b <= prefix_len e)%nat) ->
  best_so_far s path (S i) (Some e) n.
Proof.
  intros Hb He Hs Hn Hle. cbn. split_and!; [by exists i; split; [lia|]|done|done|]. intros k e' Hk Ek Hse.
  destruct (decide (k = i)) as [->|]; [rewrite He in Ek; injection Ek as <-; lia|]. destruct best as [b|]; unfold best_so_far in Hb.
  - destruct Hb as (_ & _ & _ & Hmax). specialize (Hmax k e' ltac:(lia) Ek Hse). specialize (Hle b eq_refl). lia.
  - destruct Hb as [_ Hnone]. rewrite (Hnone k e' ltac:(lia) Ek) in Hse. done.
Qed.

Lemma path_loop_spec s path n : forall i best best_len, best_so_far s path i best best_len ->
  exists len, best_so_far s path (i + n) (path_loop n i path best best_len s) len.
Proof.
  induction n as [|n IH]; intros i best best_len Hb; cbn [path_loop]; [exists best_len; by rewrite Nat.add_0_r|].
  replace (i + S n)%nat with (S i + n)%nat by lia. destruct (vfs_at i s) as [e|] eqn:He; [|by apply IH, best_free].
  destruct (path_prefix_len e) as [m|] eqn:Em; [|apply IH; eapply best_skip; [done..|]; unfold serves; by rewrite Em].
  assert (prefix_len e = m) as El by (unfold prefix_len; by rewrite Em).
  destruct (Nat.ltb_spec (length path) m) as [Hlt|Hge]; cbn [orb].
  { apply IH. eapply best_skip; [done..|]. unfold serves. rewrite Em. by rewrite (proj2 (Nat.leb_gt _ _) Hlt). }
  destruct (bool_decide (take m path = take m (path_prefix e))) eqn:Ep; cbn [negb].
  2: { apply IH. eapply best_skip; [done..|]. unfold serves. rewrite Em, Ep. by rewrite andb_false_r. }
  assert (serves e path = (m =? 0)%nat || (m =? length path)%nat || bool_decide (path !! m = Some SLASH)) as Es.
  { unfold serves. rewrite Em, Ep. by rewrite (proj2 (Nat.leb_le _ _) Hge). }
  destruct ((m =? 0)%nat && _) eqn:E0.
  { apply andb_true_iff in E0 as [E0%Nat.eqb_eq E1]. destruct best as [b|]; unfold best_so_far in Hb; [done|]. apply IH. eapply (best_take _ _ _ None best_len); [exact Hb|done|by rewrite Es, E0|destruct Hb; right; lia|done]. }
  destruct (Nat.ltb_spec m (length path)) as [Hml|Hml]; cbn [andb].
  - destruct (bool_decide (path !! m = Some SLASH)) eqn:Esl; cbn [negb].
    + destruct (Z.ltb_spec best_len m) as [Hbl|Hbl].
      * apply IH. eapply best_take; [done..|by rewrite Es, orb_true_r|by left; rewrite El|]. intros b ->. unfold best_so_far in Hb. destruct Hb as (_ & _ & Hl & _). lia.
      * apply IH. eapply best_skip; [done..|]. intros _. destruct best as [b|]; unfold best_so_far in Hb; [|destruct Hb; lia]. exists b. split; [done|]. destruct Hb as (_ & _ & Hl & _). lia.
    + apply IH. eapply best_skip; [done..|]. rewrite Es, orb_false_r. intros H. apply orb_true_iff in H as [H|H%Nat.eqb_eq]; [|lia].
      rewrite H in E0. destruct best as [b|]; [|done]. exists b. split; [done|]. apply Nat.eqb_eq in H. lia.
  - assert (m = length path) as Eml by lia. destruct (Z.ltb_spec best_len m) as [Hbl|Hbl].
    + apply IH. eapply best_take; [done..|rewrite Es, (proj2 (Nat.eqb_eq m (length path)) Eml), orb_true_r; done|by left; rewrite El|].
      intros b ->. unfold best_so_far in Hb. destruct Hb as (_ & _ & Hl & _). lia.
    + apply IH. eapply best_skip; [done..|]. intros _. destruct best as [b|]; unfold best_so_far in Hb; [|destruct Hb; lia]. exists b. split; [done|]. destruct Hb as (_ & _ & Hl & _). lia.
Qed.

Lemma get_vfs_for_path_spec path s :
  match get_vfs_for_path path s with
  | Some e => registered s e /\ serves e path = true /\ forall e', registered s e' -> serves e' path = true -> (prefix_len e' <= prefix_len e)%nat
  | None => forall e', registered s e' -> serves e' path = false
  end.
Proof.
  unfold get_vfs_for_path. destruct (path_loop_spec s path (s_vfs_count s) 0 None (-1)) as [len H]; [cbn; split; [done|]; lia|].
  rewrite Nat.add_0_l in H. destruct (path_loop _ _ _ _ _ _) as [e|]; cbn in H.
  - destruct H as (Hr & Hs & _ & Hm). split_and!; [done..|]. intros e' (j & Hj & Ej). by apply (Hm j e').
  - destruct H as [_ H]. intros e' (j & Hj & Ej). by apply (H j e').
Qed.

(** What the driver is given: the path from its prefix on. *)
Lemma translate_serves e path : serves e path = true ->
  exists rest, path = take (prefix_len e) (path_prefix e) ++ rest /\ translate_path e path = Some (if rest is [] then [SLASH] else rest) /\
    (rest = [] \/ prefix_len e = 0%nat \/ head rest = Some SLASH).
Proof.
  unfold serves, prefix_len, translate_path. destruct (path_prefix_len e) as [m|]; [|done].
  intros [[Hle%Nat.leb_le Ep%bool_decide_eq_true]%andb_true_iff Hb]%andb_true_iff. cbn [from_option id]. exists (drop m path).
  rewrite bool_decide_true, <-Ep by done. split; [by rewrite take_drop|].
  assert (drop m path = [] <-> m = length path) as Hd by (rewrite <-length_zero_iff_nil, length_drop; lia). split.
  - destruct (Nat.eqb_spec (length path) m) as [E|E]; [by rewrite (proj2 Hd)|]. destruct (drop m path); [|done]. by destruct Hd as [Hd _]; specialize (Hd eq_refl).
  - apply orb_true_iff in Hb as [[Hb%Nat.eqb_eq|Hb%Nat.eqb_eq]%orb_true_iff|Hb%bool_decide_eq_true]; [auto|left; by apply Hd|].
    right; right. by rewrite head_lookup, lookup_drop, Nat.add_0_r.
Qed.

Lemma path_goes_to_longest path s :
  match get_vfs_for_path path s with
  | Some e => exists rest, path = take (prefix_len e) (path_prefix e) ++ rest /\ translate_path e path = Some (if rest is [] then [SLASH] else rest) /\
      (rest = [] \/ prefix_len e = 0%nat \/ head rest = Some SLASH)
  | None => True
  end.
Proof.
  pose proof (get_vfs_for_path_spec path s) as H. destruct (get_vfs_for_path path s); [|done]. apply translate_serves, H.
Qed.

(** C26: a path is handled by the file system whose prefix is the longest of all
    that end at a component of the path, the fallback with the empty prefix
    included, and by none when there is none; the driver is given the path from
    its prefix on, which starts with a slash where there is a prefix, and [/] for
    the prefix itself. *)
Theorem path_goes_to_longest_prefix path s :
  match get_vfs_for_path path s with
  | Some e =>
      registered s e /\ serves e path = true /\ (forall e', registered s e' -> serves e' path = true -> (prefix_len e' <= prefix_len e)%nat) /\
      exists rest, path = take (prefix_len e) (path_prefix e) ++ rest /\ translate_path e path = Some (if rest is [] then [SLASH] else rest) /\
        (rest = [] \/ prefix_len e = 0%nat \/ head rest = Some SLASH)
  | None => forall e', registered s e' -> serves e' path = false
  end.
Proof.
  pose proof (get_vfs_for_path_spec path s) as H. destruct (get_vfs_for_path path s) as [e|]; [|done].
  destruct H as (Hr & Hs & Hm). split_and!; [done..|]. by apply translate_serves.
Qed.

End Path.
