(* ===== verification/VfsFd.v ===== *)
(** * Descriptors of the virtual file system

    Every state that calls can lead to is in order; a descriptor stays with the
    driver that opened it; what is read-only is not changed. *)

From S2P Require Import Prelude EspErr Vfs VfsPath.

#[local] Open Scope abort_scope.

Section Fd.
Context {W : Type}.
Implicit Types (s : vfs_state W) (e : vfs_entry_t W) (v : esp_vfs_t W).

(** ** Calls *)

Inductive vfs_op :=
| Register (base_path : list Z) (v : esp_vfs_t W) (c : Z) (malloc_ok : bool)
| RegisterRange (v : esp_vfs_t W) (c min_fd max_fd : Z) (malloc_ok : bool)
| RegisterWithId (v : esp_vfs_t W) (c : Z) (malloc_ok : bool)
| Unregister (base_path : list Z)
| UnregisterWithId (vfs_id : Z)
| SetReadonly (base_path : list Z)
| RegisterFd (vfs_id local : Z) (perm : bool)
| UnregisterFd (vfs_id fd : Z)
| Open (path : list Z) (fl mode : Z)
| Close (fd : Z)
| FdCall (f : vfs_func) (fd : Z) (args : list varg)
| Ftruncate (fd len : Z)
| PathCall (f : vfs_func) (modifies : bool) (path : list Z) (args : list varg)
| Link (n1 n2 : list Z)
| Rename (src dst : list Z)
| Opendir (name : list Z)
| DirCall (f : vfs_func) (pdir : Z) (args : list varg).

Definition run_op (op : vfs_op) s : option (vfs_state W) :=
  match op with
  | Register p v c ok => Some (snd (esp_vfs_register p v c ok s))
  | RegisterRange v c lo hi ok => Some (snd (esp_vfs_register_fd_range v c lo hi ok s))
  | RegisterWithId v c ok => Some (snd (esp_vfs_register_with_id v c ok s))
  | Unregister p => Some (snd (esp_vfs_unregister p s))
  | UnregisterWithId i => Some (snd (esp_vfs_unregister_with_id i s))
  | SetReadonly p => Some (snd (esp_vfs_set_readonly_flag p s))
  | RegisterFd i l perm => Some (snd (esp_vfs_register_fd_with_local_fd i l perm s))
  | UnregisterFd i fd => Some (snd (esp_vfs_unregister_fd i fd s))
  | Open p fl mode => snd <$> esp_vfs_open p fl mode s
  | Close fd => Some (snd (esp_vfs_close fd s))
  | FdCall f fd args => Some (snd (fd_call f fd args s))
  | Ftruncate fd len => Some (snd (esp_vfs_ftruncate fd len s))
  | PathCall f m p args => snd <$> path_call f m p args s
  | Link n1 n2 => snd <$> esp_vfs_link n1 n2 s
  | Rename src dst => snd <$> esp_vfs_rename src dst s
  | Opendir name => snd <$> esp_vfs_opendir name s
  | DirCall f d args => snd <$> dir_call f d args s
  end.

Fixpoint run_ops (ops : list vfs_op) s : option (vfs_state W) :=
  match ops with
  | [] => Some s
  | op :: ops => let! next := run_op op s in run_ops ops next
  end.

(** ** The invariant *)

Definition entry_ok (i : nat) e : Prop :=
  offset e = i /\
  forall n, path_prefix_len e = Some n -> length (path_prefix e) = n /\ (n <= ESP_VFS_PATH_MAX)%nat /\ (n <> 0%nat -> head (path_prefix e) = Some SLASH).

Definition fd_ok (count : nat) (e : fd_table_t) : Prop := -1 <= vfs_index e < count /\ 0 <= local_fd e < 256.

Record vfs_ok (s : vfs_state W) : Prop := {
  ok_places : length (s_vfs s) = VFS_MAX_COUNT;
  ok_count : (s_vfs_count s <= VFS_MAX_COUNT)%nat;
  ok_entries : forall i e, vfs_at i s = Some e -> (i < s_vfs_count s)%nat /\ entry_ok i e;
  ok_fds : length (s_fd_table s) = MAX_FDS;
  ok_table : Forall (fd_ok (s_vfs_count s)) (s_fd_table s);
}.

Lemma start_ok w : vfs_ok (vfs_start w).
Proof.
  split; cbn [vfs_start s_vfs s_vfs_count s_fd_table].
  - by rewrite length_replicate.
  - lia.
  - intros i e. unfold vfs_at. cbn [vfs_start s_vfs]. destruct (replicate _ _ !! i) eqn:E; [|done]. apply lookup_replicate in E as [-> _]. done.
  - by rewrite length_replicate.
  - apply Forall_replicate. vm_compute. intuition congruence.
Qed.

(** *** What the parts of the calls do *)

Lemma vfs_at_insert i j x s n t : vfs_at j (with_fds t (with_vfs (<[i := x]> (s_vfs s)) n s)) =
  if bool_decide (i = j /\ (i < length (s_vfs s))%nat) then x else vfs_at j s.
Proof.
  unfold vfs_at. cbn. case_bool_decide as H.
  - destruct H as [-> H]. by rewrite list_lookup_insert_eq.
  - destruct (decide (i = j)) as [->|]; [|by rewrite list_lookup_insert_ne]. rewrite list_insert_ge by lia. done.
Qed.

Lemma free_index_spec s n i : (i <= free_index n i s <= i + n)%nat /\ ((free_index n i s < i + n)%nat -> vfs_at (free_index n i s) s = None).
Proof.
  revert i. induction n as [|n IH]; intros i; cbn [free_index]; [split; lia|]. destruct (vfs_at i s) eqn:E.
  - destruct (IH (S i)) as [H1 H2]. split; [lia|]. intros H. apply H2. lia.
  - split; [lia|done].
Qed.

(** Registering takes a free place, or fails and changes nothing. *)
Lemma register_common_spec p len v c ok s : vfs_ok s -> (forall n, len = Some n -> length p = n) ->
  match esp_vfs_register_common p len v c ok s with
  | (ESP_OK, Some i, s') =>
      (i < VFS_MAX_COUNT)%nat /\ vfs_at i s = None /\ s' = with_vfs (<[i := Some (VfsEntry v (match len with Some _ => p | None => [] end) len c i)]> (s_vfs s)) (max (S i) (s_vfs_count s)) s /\
      (i <= s_vfs_count s)%nat /\ vfs_ok s'
  | (ESP_OK, None, _) => False
  | (_, Some _, _) => False
  | (_, None, s') => s' = s
  end.
Proof.
  intros Hok Hlen. unfold esp_vfs_register_common. set (bad := match len with Some _ => _ | None => _ end). destruct bad eqn:Eb; [done|].
  destruct ok; cbn [negb]; [|done]. destruct (free_index_spec s (s_vfs_count s) 0) as [Hi Hfree]. set (i := free_index _ _ _) in *.
  pose proof (ok_count _ Hok) as Hc. pose proof (ok_places _ Hok) as Hp. destruct (_ && _) eqn:Efull; [done|].
  assert (i < VFS_MAX_COUNT)%nat as Hlt.
  { apply andb_false_iff in Efull as [Hn%Nat.eqb_neq|Hn%Nat.leb_gt]; lia. }
  assert (vfs_at i s = None) as Hnone.
  { destruct (decide (i < s_vfs_count s)%nat); [by apply Hfree; lia|]. destruct (vfs_at i s) eqn:E; [|done]. apply (ok_entries _ Hok) in E as [E _]. lia. }
  assert ((if (i =? s_vfs_count s)%nat then S (s_vfs_count s) else s_vfs_count s) = max (S i) (s_vfs_count s)) as -> by (destruct (Nat.eqb_spec i (s_vfs_count s)); lia).
  split_and!; [done..|lia|]. split; cbn [with_vfs s_vfs s_vfs_count s_fd_table].
  - by rewrite length_insert.
  - lia.
  - intros j e. change (with_vfs ?l ?n s) with (with_fds (s_fd_table s) (with_vfs l n s)). rewrite vfs_at_insert. case_bool_decide as Hj.
    + destruct Hj as [<- _]. intros [= <-]. split; [lia|]. split; [done|]. cbn. intros n ->. pose proof (Hlen n eq_refl). subst n. unfold bad in Eb.
      apply orb_false_iff in Eb as [[E1%Nat.eqb_neq E2%Nat.ltb_ge]%orb_false_iff E3]. split; [done|]. split; [done|]. intros Hn.
      apply andb_false_iff in E3 as [E3%Nat.leb_gt|E3]; [lia|]. apply orb_false_iff in E3 as [E3 _]. apply negb_false_iff, bool_decide_eq_true in E3.
      by rewrite head_lookup.
    + intros E. destruct (ok_entries _ Hok _ _ E). split; [lia|done].
  - apply Hok.
  - eapply Forall_impl; [apply Hok|]. intros x [? ?]. split; lia.
Qed.

Lemma check_and_call_world e f args s : exists w, snd (check_and_call e f args s) = with_world w s.
Proof.
  unfold check_and_call. destruct (func _ f) as [call|]; [|exists (world s); by destruct s]. destruct (call _ _) as [ret w]. by exists w.
Qed.

Lemma fd_call_world f fd args s : exists w, snd (fd_call f fd args s) = with_world w s.
Proof.
  unfold fd_call. assert (exists w, s = with_world w s) as H by (exists (world s); by destruct s).
  destruct (get_vfs_for_fd fd s); [|done]. destruct (_ <? 0); [done|]. apply check_and_call_world.
Qed.

(** The tables after a loop over a range: the descriptors before [j] are taken. *)
Lemma range_loop_spec n i index t : (i + n <= length t)%nat ->
  let '(r, j, t') := range_loop n i index t in
  (i <= j <= i + n)%nat /\ length t' = length t /\
  (forall k x, (i <= k < j)%nat -> t !! k = Some x -> vfs_index x = -1 /\ t' !! k = Some (FdEntry true (has_pending_close x) (has_pending_select x) index (u8 k))) /\
  (forall k, ~ (i <= k < j)%nat -> t' !! k = t !! k) /\
  match r with Some t'' => t'' = t' /\ j = (i + n)%nat | None => exists x, t !! j = Some x /\ vfs_index x <> -1 end.
Proof.
  revert i t. induction n as [|n IH]; intros i t Hn; cbn [range_loop].
  - split_and!; try done; intros; lia.
  - destruct (t !! i) as [x|] eqn:E; [|apply lookup_ge_None in E; lia]. destruct (Z.eqb_spec (vfs_index x) (-1)) as [Ex|Ex]; cbn [negb].
    + specialize (IH (S i) (<[i := FdEntry true (has_pending_close x) (has_pending_select x) index (u8 i)]> t)). rewrite length_insert in IH. specialize (IH ltac:(lia)).
      destruct (range_loop _ _ _ _) as [[r j] t']. destruct IH as (Hj & Hl & Hin & Hout & Hr). split_and!; [lia|lia|done| | |].
      * intros k y Hk Ek. destruct (decide (k = i)) as [->|].
        -- rewrite E in Ek. injection Ek as <-. split; [done|]. rewrite Hout by lia. apply list_lookup_insert_eq. lia.
        -- apply Hin; [lia|]. by rewrite list_lookup_insert_ne.
      * intros k Hk. rewrite Hout by lia. apply list_lookup_insert_ne. lia.
      * destruct r; [destruct Hr; split; [done|lia]|]. destruct Hr as (y & Ey & Hy). exists y. split; [|done]. rewrite list_lookup_insert_ne in Ey by lia. done.
    + split_and!; try done; try (intros; lia). by exists x.
Qed.

(** A range of descriptors is registered as a whole or not at all. *)
Lemma fd_range_spec v c lo hi ok s : vfs_ok s ->
  let '(err, s') := esp_vfs_register_fd_range v c lo hi ok s in
  (if is_ok err then
    exists i, vfs_at i s = None /\ (i < VFS_MAX_COUNT)%nat /\
      s' = with_fds (s_fd_table s') (with_vfs (<[i := Some (VfsEntry v [] None c i)]> (s_vfs s)) (max (S i) (s_vfs_count s)) s) /\
      length (s_fd_table s') = MAX_FDS /\
      forall (k : nat) x, s_fd_table s !! k = Some x ->
        if (lo <=? k) && (k <? hi) then vfs_index x = -1 /\ s_fd_table s' !! k = Some (FdEntry true (has_pending_close x) (has_pending_select x) i (u8 k))
        else s_fd_table s' !! k = Some x
  else
    exists n i, s' = with_fds (s_fd_table s') (with_vfs (<[i := None]> (s_vfs s)) n s) /\ (s_vfs_count s <= n <= VFS_MAX_COUNT)%nat /\ vfs_at i s = None /\
      length (s_fd_table s') = MAX_FDS /\
      forall k x, s_fd_table s !! k = Some x -> s_fd_table s' !! k = Some x \/ (vfs_index x = -1 /\ s_fd_table s' !! k = Some FD_TABLE_ENTRY_UNUSED)).
Proof.
  intros Hok. pose proof (ok_places _ Hok) as Hp. pose proof (ok_count _ Hok) as Hcnt. pose proof (ok_fds _ Hok) as Hfds.
  assert (forall err, is_ok err = false -> exists n i, s = with_fds (s_fd_table s) (with_vfs (<[i := None]> (s_vfs s)) n s) /\ (s_vfs_count s <= n <= VFS_MAX_COUNT)%nat /\ vfs_at i s = None /\
    length (s_fd_table s) = MAX_FDS /\ forall k x, s_fd_table s !! k = Some x -> s_fd_table s !! k = Some x \/ (vfs_index x = -1 /\ s_fd_table s !! k = Some FD_TABLE_ENTRY_UNUSED)) as Hsame.
  { intros _ _. exists (s_vfs_count s), (length (s_vfs s)). split_and!; try done; try lia; [| |auto].
    - rewrite list_insert_ge by lia. by destruct s.
    - unfold vfs_at. by rewrite lookup_ge_None_2. }
  unfold esp_vfs_register_fd_range. destruct (_ || _) eqn:Eb; [by apply (Hsame ESP_ERR_INVALID_ARG)|].
  pose proof (register_common_spec [] None v c ok s Hok ltac:(done)) as H. destruct (esp_vfs_register_common _ _ _ _ _ _) as [[err [i|]] s1]; [|by destruct err; [|rewrite H; apply (Hsame ESP_FAIL)..]].
  destruct err; try done. destruct H as (Hi & Hnone & -> & Hic & Hok1). cbn [s_fd_table with_vfs].
  pose proof (range_loop_spec (Z.to_nat (hi - lo)) (Z.to_nat lo) i (s_fd_table s)) as H. 
  assert (0 <= lo <= hi /\ hi <= MAX_FDS) as Hlh by lia.
  specialize (H ltac:(lia)).
  destruct (range_loop _ _ _ _) as [[[t''|] j] t']; cbn [is_ok]; destruct H as (Hj & Hl & Hin & Hout & Hr).
  - destruct Hr as [-> ->]. exists i. cbn [with_fds s_fd_table]. split; [done|]. split; [done|]. split; [done|]. split; [by rewrite Hl|]. intros k x Hk. cbn [with_fds s_fd_table].
    destruct (Z.leb_spec lo k); cbn [andb]; [|rewrite Hout by lia; done]. destruct (Z.ltb_spec k hi); [|rewrite Hout by lia; done]. apply Hin; [lia|done].
  - exists (max (S i) (s_vfs_count s)), i. cbn [with_fds s_fd_table]. split_and!; [|lia..|done| |].
    + unfold free_vfs. cbn. by rewrite list_insert_insert_eq.
    + unfold range_undo. by rewrite length_imap, Hl.
    + intros k x Hk. unfold range_undo. rewrite list_lookup_imap. destruct (decide (Z.to_nat lo <= k < j)%nat) as [Hkj|Hkj].
      * destruct (Hin k x Hkj Hk) as [Ex ->]. right. split; [done|]. cbn [fmap option_fmap option_map vfs_index]. rewrite (proj2 (Nat.leb_le _ _)), (proj2 (Nat.ltb_lt _ _)), Z.eqb_refl by lia. done.
      * rewrite (Hout k Hkj), Hk. left. cbn [fmap option_fmap option_map]. destruct (Nat.leb_spec (Z.to_nat lo) k); [|done]. destruct (Nat.ltb_spec k j); [lia|done].
Qed.

(** *** Calls that leave the tables alone *)

Definition tables_eq s s' : Prop := s_vfs s' = s_vfs s /\ s_vfs_count s' = s_vfs_count s /\ s_fd_table s' = s_fd_table s.

Lemma tables_world w s : tables_eq s (with_world w s).
Proof. done. Qed.

Lemma tables_call e f args s : tables_eq s (snd (check_and_call e f args s)).
Proof. by destruct (check_and_call_world e f args s) as [w ->]. Qed.

Lemma tables_fd_call f fd args s : tables_eq s (snd (fd_call f fd args s)).
Proof. by destruct (fd_call_world f fd args s) as [w ->]. Qed.

Lemma tables_path_call f m path args s r : path_call f m path args s = Some r -> tables_eq s (snd r).
Proof.
  unfold path_call, check_readonly. destruct (get_vfs_for_path path s) as [e|]; [|by intros [= <-]]. destruct (translate_path e path).
  - destruct m, (is_readonly e); intros [= <-]; try done; apply tables_call.
  - destruct m, (is_readonly e); try done. by intros [= <-].
Qed.

Lemma quiet_op op s s' : run_op op s = Some s' ->
  match op with FdCall _ _ _ | Ftruncate _ _ | PathCall _ _ _ _ | Link _ _ | Rename _ _ | Opendir _ | DirCall _ _ _ => tables_eq s s' | _ => True end.
Proof.
  destruct op as [| | | | | | | | | |f fd args|fd len|f m path args|n1 n2|n1 n2|name|f d args]; try done; cbn [run_op].
  - intros [= <-]. apply tables_fd_call.
  - intros [= <-]. unfold esp_vfs_ftruncate. destruct (get_vfs_for_fd fd s); [|done]. destruct (_ <? 0); [done|]. destruct (is_readonly _); [done|]. apply tables_call.
  - intros (r & Hr & ->)%fmap_Some. by eapply tables_path_call.
  - intros (r & Hr & ->)%fmap_Some. revert Hr. unfold esp_vfs_link, check_readonly. destruct (get_vfs_for_path n1 s) as [v|]; [|by intros [= <-]].
    destruct (same_vfs _ _); cbn [negb]; [|by intros [= <-]]. destruct (is_readonly _); [by intros [= <-]|].
    destruct (translate_path v n1), (translate_path v n2); try done. intros [= <-]. apply tables_call.
  - intros (r & Hr & ->)%fmap_Some. revert Hr. unfold esp_vfs_rename, check_readonly. destruct (get_vfs_for_path n1 s) as [v|]; [|by intros [= <-]].
    destruct (is_readonly _); [by intros [= <-]|]. destruct (same_vfs _ _); cbn [negb]; [|by intros [= <-]].
    destruct (translate_path v n1), (translate_path v n2); try done. intros [= <-]. apply tables_call.
  - intros (r & Hr & ->)%fmap_Some. revert Hr. unfold esp_vfs_opendir. destruct (path_call _ _ _ _ _) as [r0|] eqn:E; [|done].
    apply tables_path_call in E. destruct r0 as [[n|ret] s1]; [by intros [= <-]|]. destruct (get_vfs_for_path name s); [|done]. intros [= <-]. by destruct (ret =? 0).
  - intros (r & Hr & ->)%fmap_Some. revert Hr. unfold dir_call. destruct (dirs s !! d); [|done]. destruct (get_vfs_for_index _ s); intros [= <-]; [apply tables_call|done].
Qed.

(** *** The descriptors *)

Lemma unused_fd_spec t i : unused_fd t = Some i -> exists x, t !! i = Some x /\ vfs_index x = -1.
Proof.
  unfold unused_fd. destruct (list_find _ t) as [[j x]|] eqn:E; [|done]. intros [= <-]. apply list_find_Some in E as (E & Ex & _). by exists x.
Qed.

Lemma unused_fd_None t : unused_fd t = None -> Forall (fun x => vfs_index x <> -1) t.
Proof. unfold unused_fd. destruct (list_find _ t) eqn:E; [done|]. intros _. by apply list_find_None in E. Qed.

Lemma take_fd_lookup i perm index local t k : take_fd i perm index local t !! k =
  if bool_decide (i = k) then (fun x => FdEntry perm (has_pending_close x) (has_pending_select x) index (u8 local)) <$> t !! k else t !! k.
Proof.
  unfold take_fd. case_bool_decide as E; [subst; by rewrite list_lookup_alter_eq|by rewrite list_lookup_alter_ne].
Qed.

Lemma u8_byte x : 0 <= u8 x < 256.
Proof. apply Z.mod_pos_bound. lia. Qed.

Lemma take_fd_ok (count : nat) i perm (index : Z) local t : -1 <= index < count -> Forall (fd_ok count) t -> Forall (fd_ok count) (take_fd i perm index local t).
Proof.
  intros Hi Ht. apply Forall_lookup. intros k x. rewrite take_fd_lookup. case_bool_decide.
  - intros (y & _ & ->)%fmap_Some. split; [done|apply u8_byte].
  - by apply Forall_lookup_1.
Qed.

Lemma unused_ok count : fd_ok count FD_TABLE_ENTRY_UNUSED.
Proof. split; [cbn; lia|]. vm_compute. done. Qed.

Lemma ok_with_fds t s : length t = MAX_FDS -> Forall (fd_ok (s_vfs_count s)) t -> vfs_ok s -> vfs_ok (with_fds t s).
Proof. intros Hl Ht []. by split. Qed.

Lemma ok_tables s s' : tables_eq s s' -> vfs_ok s -> vfs_ok s'.
Proof. intros (E1 & E2 & E3) []. split; rewrite ?E1, ?E2, ?E3; try done. unfold vfs_at. by rewrite E1. Qed.

Lemma ok_with_vfs l n s : length l = VFS_MAX_COUNT -> (s_vfs_count s <= n <= VFS_MAX_COUNT)%nat ->
  (forall i e, mjoin (l !! i) = Some e -> (i < n)%nat /\ entry_ok i e) -> vfs_ok s -> vfs_ok (with_vfs l n s).
Proof. intros Hl Hn He []. split; cbn; try done; [lia|]. eapply Forall_impl; [done|]. intros x [? ?]. split; lia. Qed.

Lemma ok_free i n s : (s_vfs_count s <= n <= VFS_MAX_COUNT)%nat -> vfs_ok s -> vfs_ok (with_vfs (<[i := None]> (s_vfs s)) n s).
Proof.
  intros Hn Hok. apply ok_with_vfs; [by rewrite length_insert; apply Hok|done| |done]. intros j e. pose proof (vfs_at_insert i j None s n (s_fd_table s)) as H.
  unfold vfs_at in H at 1. cbn in H. rewrite H. case_bool_decide; [done|]. intros Hj. destruct (ok_entries _ Hok _ _ Hj). split; [lia|done].
Qed.

Lemma release_ok fd s : vfs_ok s -> vfs_ok (release_fd fd s).
Proof.
  intros Hok. apply ok_with_fds; [by rewrite length_insert; apply Hok| |done]. apply Forall_insert; [apply Hok|apply unused_ok].
Qed.

Lemma fd_at_ok fd s : vfs_ok s -> fd_ok (s_vfs_count s) (fd_at fd s).
Proof.
  intros Hok. unfold fd_at. destruct (s_fd_table s !! Z.to_nat fd) eqn:E; [|apply unused_ok]. by apply (Forall_lookup_1 _ _ _ _ (ok_table _ Hok) E).
Qed.

Lemma prefix_index_spec p n s : forall i k, prefix_index p n i s = Some k -> (i <= k < i + n)%nat /\ exists e, vfs_at k s = Some e /\ has_prefix p e = true.
Proof.
  induction n as [|n IH]; intros i k; cbn [prefix_index]; [done|]. destruct (vfs_at i s) as [e|] eqn:E.
  - destruct (has_prefix p e) eqn:Ep; [intros [= <-]; split; [lia|by exists e]|]. intros H. destruct (IH _ _ H). split; [lia|done].
  - intros H. destruct (IH _ _ H). split; [lia|done].
Qed.

Lemma unregister_ok i s : vfs_ok s -> vfs_ok (snd (esp_vfs_unregister_with_id i s)).
Proof.
  intros Hok. unfold esp_vfs_unregister_with_id. destruct (_ || _); [done|]. destruct (vfs_at _ s); [|done]. cbn [snd]. apply ok_with_fds.
  - rewrite length_imap. apply Hok.
  - apply Forall_lookup. intros k x. rewrite list_lookup_imap. intros (y & Hy & ->)%fmap_Some. destruct (_ && _); [apply unused_ok|].
    by apply (Forall_lookup_1 _ _ _ _ (ok_table _ Hok) Hy).
  - apply ok_free; [|done]. split; [done|apply Hok].
Qed.

Lemma check_ok e f args s : vfs_ok s -> vfs_ok (snd (check_and_call e f args s)).
Proof. apply ok_tables, tables_call. Qed.

(** *** Opening *)

Lemma open_spec path fl mode s : vfs_ok s ->
  exists r s', esp_vfs_open path fl mode s = Some (r, s') /\
  ((tables_eq s s' /\ forall fd, 0 <= fd -> r <> Ret fd) \/
   exists e sub local w i, get_vfs_for_path path s = Some e /\ translate_path e path = Some sub /\
     check_and_call e F_open [Path sub; Num fl; Num mode] s = (Ret local, with_world w s) /\ 0 <= local /\ unused_fd (s_fd_table s) = Some i /\
     r = Ret i /\ s' = with_fds (take_fd i false (offset e) local (s_fd_table s)) (with_world w s)).
Proof.
  intros Hok. unfold esp_vfs_open. pose proof (path_goes_to_longest path s) as Hp.
  destruct (get_vfs_for_path path s) as [e|]; [|eexists _, _; split; [done|]; by left].
  destruct (_ && is_readonly e); [eexists _, _; split; [done|]; by left|]. destruct Hp as (rest & _ & Ht & _). rewrite Ht.
  set (sub := if rest is [] then [SLASH] else rest). destruct (check_and_call_world e F_open [Path sub; Num fl; Num mode] s) as [w Hw].
  destruct (check_and_call e F_open _ s) as [[n|local] s1] eqn:E; cbn [snd] in Hw; subst s1; [eexists _, _; split; [done|]; by left|].
  destruct (Z.leb_spec 0 local); [|eexists _, _; split; [done|]; left; split; [done|]; intros fd Hfd [= ?]; lia].
  cbn [s_fd_table with_world]. destruct (unused_fd (s_fd_table s)) as [i|] eqn:Ei.
  - eexists _, _; split; [done|]. right. by exists e, sub, local, w, i.
  - pose proof (tables_call e F_close [Num local] (with_world w s)) as Hq. destruct (check_and_call e F_close _ _) as [[n|ret] s2]; eexists _, _; split; try done; by left.
Qed.

(** *** Every call keeps the tables in order *)

Lemma close_fd_ok fd s x : vfs_ok s -> fd_ok (s_vfs_count s) x -> vfs_ok (with_fds (<[Z.to_nat fd := x]> (s_fd_table s)) s).
Proof. intros Hok Hx. apply ok_with_fds; [by rewrite length_insert; apply Hok| |done]. apply Forall_insert; [apply Hok|done]. Qed.

Lemma register_ok p len v c ok s : vfs_ok s -> (forall n, len = Some n -> length p = n) -> vfs_ok (snd (esp_vfs_register_common p len v c ok s)).
Proof.
  intros Hok Hl. pose proof (register_common_spec p len v c ok s Hok Hl) as H. destruct (esp_vfs_register_common _ _ _ _ _ _) as [[err [i|]] s']; cbn.
  - destruct err; try done. apply H.
  - destruct err; try done; by subst.
Qed.

Lemma range_ok v c lo hi ok s : vfs_ok s -> vfs_ok (snd (esp_vfs_register_fd_range v c lo hi ok s)).
Proof.
  intros Hok. pose proof (fd_range_spec v c lo hi ok s Hok) as H. destruct (esp_vfs_register_fd_range _ _ _ _ _ _) as [err s']. cbn [snd].
  destruct (is_ok err).
  - destruct H as (i & Hnone & Hi & -> & Hl & Ht). set (s1 := with_vfs _ _ s). cbn [s_fd_table with_fds] in *. assert (vfs_ok s1) as Hok1.
    { apply ok_with_vfs; [by rewrite length_insert; apply Hok|pose proof (ok_count _ Hok); lia| |done]. intros j e.
      pose proof (vfs_at_insert i j (Some (VfsEntry v [] None c i)) s 0 []) as E. unfold vfs_at in E at 1. cbn in E. rewrite E. case_bool_decide as Hj.
      - intros [= <-]. split; [lia|]. by split; [destruct Hj|].
      - intros Hj'. destruct (ok_entries _ Hok _ _ Hj'). split; [lia|done]. }
    apply ok_with_fds; [done| |done]. apply Forall_lookup. intros k y Hk. assert (is_Some (s_fd_table s !! k)) as [x Hx].
    { apply lookup_lt_is_Some. rewrite (ok_fds _ Hok), <-Hl. by eapply lookup_lt_Some. }
    specialize (Ht k x Hx). pose proof (Forall_lookup_1 _ _ _ _ (ok_table _ Hok) Hx) as [? ?]. cbn [s1 s_vfs_count with_vfs].
    destruct (_ && _); [destruct Ht as [_ Ht]|]; rewrite Hk in Ht; injection Ht as ->.
    + split; [cbn; lia|apply u8_byte].
    + split; lia.
  - destruct H as (n & i & -> & Hn & _ & Hl & Ht). cbn [s_fd_table with_fds] in *. apply ok_with_fds; [done| |by apply ok_free].
    apply Forall_lookup. intros k y Hk. assert (is_Some (s_fd_table s !! k)) as [x Hx].
    { apply lookup_lt_is_Some. rewrite (ok_fds _ Hok), <-Hl. by eapply lookup_lt_Some. }
    pose proof (Forall_lookup_1 _ _ _ _ (ok_table _ Hok) Hx) as [? ?]. cbn [s_vfs_count with_vfs].
    destruct (Ht k x Hx) as [Ht'|[_ Ht']]; rewrite Hk in Ht'; injection Ht' as ->; [split; lia|apply unused_ok].
Qed.

Lemma set_readonly_ok p s : vfs_ok s -> vfs_ok (snd (esp_vfs_set_readonly_flag p s)).
Proof.
  intros Hok. unfold esp_vfs_set_readonly_flag. destruct (prefix_index _ _ _ _) as [i|]; [|done]. cbn [snd].
  apply ok_with_vfs; [by rewrite length_alter; apply Hok|split; [done|apply Hok]| |done]. intros j e. destruct (decide (i = j)) as [->|].
  - rewrite list_lookup_alter_eq. destruct (s_vfs s !! j) as [[e0|]|] eqn:E; [|done..]. intros [= <-].
    destruct (ok_entries _ Hok j e0) as [H1 [H2 H3]]; [unfold vfs_at; by rewrite E|]. done.
  - rewrite list_lookup_alter_ne by done. apply (ok_entries _ Hok).
Qed.

Lemma vfs_op_ok op s s' : vfs_ok s -> run_op op s = Some s' -> vfs_ok s'.
Proof.
  intros Hok Hrun. pose proof (quiet_op _ _ _ Hrun) as Hq. destruct op as [p v c ok|v c lo hi ok|v c ok|p|i|p|i l perm|i fd|path fl mode|fd| | | | | | |];
    try by apply (ok_tables s). all: cbn [run_op] in Hrun.
  all: try (injection Hrun as <-).
  - unfold esp_vfs_register. pose proof (register_ok p (Some (length p)) v c ok s Hok ltac:(by intros ? [= <-])) as H.
    by destruct (esp_vfs_register_common _ _ _ _ _ _) as [[? ?] ?].
  - by apply range_ok.
  - unfold esp_vfs_register_with_id. pose proof (register_ok [] None v c ok s Hok ltac:(done)) as H. by destruct (esp_vfs_register_common _ _ _ _ _ _) as [[? ?] ?].
  - unfold esp_vfs_unregister. destruct (prefix_index _ _ _ _); [|done]. by apply unregister_ok.
  - by apply unregister_ok.
  - by apply set_readonly_ok.
  - unfold esp_vfs_register_fd_with_local_fd. destruct (_ || _) eqn:Eb; [done|]. destruct (unused_fd _); [|done]. cbn [snd].
    apply ok_with_fds; [unfold take_fd; rewrite length_alter; apply Hok| |done]. apply take_fd_ok; [lia|apply Hok].
  - unfold esp_vfs_unregister_fd. destruct (_ || _); [done|]. destruct (_ && _); [by apply release_ok|done].
  - destruct (open_spec path fl mode s Hok) as (r & s1 & E & H). rewrite E in Hrun. injection Hrun as <-.
    destruct H as [[Ht _]|(e & sub & l & w & i & Ee & _ & _ & _ & _ & _ & ->)]; [by apply (ok_tables s)|].
    pose proof (get_vfs_for_path_spec path s) as Hp. rewrite Ee in Hp. destruct Hp as ((j & Hj & Ej) & _). destruct (ok_entries _ Hok _ _ Ej) as [_ [-> _]].
    apply ok_with_fds; [unfold take_fd; rewrite length_alter; apply Hok| |by apply (ok_tables s)]. apply take_fd_ok; [cbn; lia|apply Hok].
  - unfold esp_vfs_close. pose proof (tables_fd_call F_close fd [] s) as Ht. apply (ok_tables _ _ Ht) in Hok as Hok1.
    destruct (fd_call _ _ _ _) as [[n|ret] s1]; [done|]. cbn [snd] in *. destruct (negb _); [|done]. destruct (has_pending_select _); [|by apply release_ok].
    apply close_fd_ok; [done|]. apply (fd_at_ok fd _ Hok1).
Qed.

Definition reachable s : Prop := exists w ops, run_ops ops (vfs_start w) = Some s.

Lemma run_ops_ok ops : forall s s', vfs_ok s -> run_ops ops s = Some s' -> vfs_ok s'.
Proof.
  induction ops as [|op ops IH]; intros s s' Hok; cbn [run_ops]; [by intros [= <-]|]. destruct (run_op op s) as [s1|] eqn:E; [|done].
  apply IH. by eapply vfs_op_ok.
Qed.

Lemma vfs_reachable_ok s : reachable s -> vfs_ok s.
Proof. intros (w & ops & Hr). by eapply run_ops_ok; [apply start_ok|]. Qed.

(** ** A descriptor stays with its driver *)

(** [e'] is the same registration as [e]; it may have become read-only. *)
Definition same_driver e e' : Prop :=
  func (vfs e') = func (vfs e) /\ Z.land (flags (vfs e')) ESP_VFS_FLAG_CONTEXT_PTR = Z.land (flags (vfs e)) ESP_VFS_FLAG_CONTEXT_PTR /\ ctx e' = ctx e /\
  offset e' = offset e /\ path_prefix e' = path_prefix e /\ path_prefix_len e' = path_prefix_len e /\ (is_readonly e = true -> is_readonly e' = true).

#[local] Instance same_driver_refl : Reflexive same_driver.
Proof. by intros e. Qed.

#[local] Instance same_driver_trans : Transitive same_driver.
Proof. intros e1 e2 e3 (?&?&?&?&?&?&?) (?&?&?&?&?&?&?). unfold same_driver. split_and!; solve [congruence|auto]. Qed.

Lemma same_driver_call e e' f args s : same_driver e e' -> check_and_call e' f args s = check_and_call e f args s.
Proof. intros (E1 & E2 & E3 & _). unfold check_and_call. by rewrite E1, E2, E3. Qed.

Lemma set_readonly_same e : same_driver e (set_readonly e).
Proof.
  unfold same_driver, set_readonly, is_readonly. cbn. split_and!; try done.
  - by rewrite Z.land_lor_distr_l, Z.lor_0_r.
  - intros _. rewrite Z.land_lor_distr_l. apply negb_true_iff, Z.eqb_neq. intros H%Z.lor_eq_0_iff. by destruct H.
Qed.

(** The calls that end the use of descriptor [fd] of driver [e], or the driver. *)
Definition drops (fd : Z) e (op : vfs_op) : bool :=
  match op with
  | Unregister p => has_prefix p e
  | UnregisterWithId i => i =? offset e
  | UnregisterFd _ n | Close n => n =? fd
  | _ => false
  end.

Lemma drops_same fd e e' op : same_driver e e' -> drops fd e' op = drops fd e op.
Proof. intros (_ & _ & _ & E4 & E5 & E6 & _). destruct op; cbn; try done; [unfold has_prefix; by rewrite E5, E6|by rewrite E4]. Qed.

(** Entry [k] of the table leads to entry [i] of the drivers, with local descriptor [l]. *)
Definition routes (k i : nat) (l : Z) s : Prop := exists x, s_fd_table s !! k = Some x /\ vfs_index x = i /\ local_fd x = l.

Definition holds (k : nat) (l : Z) e s : Prop := exists e', vfs_at (offset e) s = Some e' /\ same_driver e e' /\ routes k (offset e) l s.

Lemma holds_tables k l e s s' : tables_eq s s' -> holds k l e s -> holds k l e s'.
Proof. intros (E1 & E2 & E3). unfold holds, routes, vfs_at. by rewrite E1, E3. Qed.

Lemma routes_insert k i l j x s : routes k i l s -> j <> k -> routes k i l (with_fds (<[j := x]> (s_fd_table s)) s).
Proof. intros (y & Ey & ?) Hne. exists y. cbn. by rewrite list_lookup_insert_ne. Qed.

Lemma routes_take k i l j perm index local s s' : routes k i l s -> s_fd_table s' = s_fd_table s -> unused_fd (s_fd_table s) = Some j ->
  routes k i l (with_fds (take_fd j perm index local (s_fd_table s)) s').
Proof.
  intros (y & Ey & Hy & Hl) _ Hj. exists y. cbn [with_fds s_fd_table]. rewrite take_fd_lookup. case_bool_decide as E; [|done]. subst j.
  destruct (unused_fd_spec _ _ Hj) as (x & Ex & Hx). rewrite Ey in Ex. injection Ex as <-. lia.
Qed.

Lemma holds_register k l e p len v c ok s : vfs_ok s -> (forall n, len = Some n -> length p = n) -> holds k l e s ->
  holds k l e (snd (esp_vfs_register_common p len v c ok s)).
Proof.
  intros Hok Hl Hh. pose proof (register_common_spec p len v c ok s Hok Hl) as H. destruct (esp_vfs_register_common _ _ _ _ _ _) as [[err [i|]] s']; cbn [snd].
  - destruct err; try done. destruct H as (Hi & Hnone & -> & _). destruct Hh as (e' & He & Hs & Hr). exists e'. split; [|done].
    pose proof (vfs_at_insert i (offset e) (Some (VfsEntry v (match len with Some _ => p | None => [] end) len c i)) s 0 []) as E. unfold vfs_at in *. cbn in *.
    rewrite E. case_bool_decide as Hd; [|done]. destruct Hd as [-> _]. congruence.
  - destruct err; try done; by subst.
Qed.

Lemma holds_range k l e v c lo hi ok s : vfs_ok s -> holds k l e s -> holds k l e (snd (esp_vfs_register_fd_range v c lo hi ok s)).
Proof.
  intros Hok (e' & He & Hs & y & Ey & Hy & Hyl). pose proof (fd_range_spec v c lo hi ok s Hok) as H.
  destruct (esp_vfs_register_fd_range _ _ _ _ _ _) as [err s']. cbn [snd].
  assert (forall i x n t, vfs_at i s = None -> vfs_at (offset e) (with_fds t (with_vfs (<[i := x]> (s_vfs s)) n s)) = Some e') as Hat.
  { intros i x n t Hi. rewrite vfs_at_insert. case_bool_decide as Hd; [|done]. destruct Hd as [-> _]. congruence. }
  destruct (is_ok err).
  - destruct H as (i & Hnone & _ & -> & _ & Ht). exists e'. split; [by apply Hat|]. split; [done|]. specialize (Ht k y Ey). exists y. split; [|done]. cbn in *.
    destruct (_ && _); [lia|done].
  - destruct H as (n & i & -> & _ & Hnone & _ & Ht). exists e'. split; [by apply Hat|]. split; [done|]. exists y. split; [|done]. destruct (Ht k y Ey) as [|[? _]]; [done|lia].
Qed.

Lemma holds_unregister k l e (i : Z) s : holds k l e s -> i <> offset e -> holds k l e (snd (esp_vfs_unregister_with_id i s)).
Proof.
  intros (e' & He & Hs & y & Ey & Hy & Hyl) Hi. unfold esp_vfs_unregister_with_id. destruct (_ || _) eqn:Eb; [exists e'; split; [done|]; split; [done|]; by exists y|].
  destruct (vfs_at (Z.to_nat i) s) as [ei|]; [|exists e'; split; [done|]; split; [done|]; by exists y]. exists e'. split_and!; [|done|].
  - unfold free_vfs. cbn [snd]. rewrite vfs_at_insert. case_bool_decide as Hd; [|done]. destruct Hd as [Hd _]. lia.
  - exists y. split; [|done]. cbn [snd with_fds s_fd_table free_vfs with_vfs]. rewrite list_lookup_imap, Ey. cbn [fmap option_fmap option_map].
    destruct (Z.eqb_spec (vfs_index y) i); [lia|]. by rewrite andb_false_r.
Qed.

Lemma holds_readonly k l e p s : holds k l e s -> holds k l e (snd (esp_vfs_set_readonly_flag p s)).
Proof.
  intros Hh. unfold esp_vfs_set_readonly_flag. destruct (prefix_index _ _ _ _) as [i|]; [|done]. destruct Hh as (e' & He & Hs & Hr). cbn [snd].
  destruct (decide (i = offset e)) as [->|Hne].
  - exists (set_readonly e'). split_and!; [|etransitivity; [done|apply set_readonly_same]|done]. unfold vfs_at in *. cbn. rewrite list_lookup_alter_eq.
    by destruct (s_vfs s !! offset e) as [[]|]; simplify_eq/=.
  - exists e'. split; [|done]. unfold vfs_at in *. cbn. by rewrite list_lookup_alter_ne.
Qed.

Lemma holds_fds_insert k l e j x s : holds k l e s -> j <> k -> holds k l e (with_fds (<[j := x]> (s_fd_table s)) s).
Proof. intros (e' & He & Hs & Hr) Hj. exists e'. split_and!; [done..|by apply routes_insert]. Qed.

Lemma holds_take k l e j perm index local s s' : tables_eq s s' -> holds k l e s -> unused_fd (s_fd_table s) = Some j ->
  holds k l e (with_fds (take_fd j perm index local (s_fd_table s)) s').
Proof.
  intros (E1 & E2 & E3) (e' & He & Hs & Hr) Hj. exists e'. split_and!; [|done|by apply routes_take]. unfold vfs_at in *. cbn. by rewrite E1.
Qed.

Lemma fd_call_valid f fd args s ret s' : fd_call f fd args s = (Ret ret, s') -> 0 <= fd < MAX_FDS.
Proof. unfold fd_call, get_vfs_for_fd, fd_valid. destruct (_ && _) eqn:E; [lia|done]. Qed.

Lemma op_holds k l e op s s' : vfs_ok s -> holds k l e s -> run_op op s = Some s' -> drops k e op = false -> holds k l e s'.
Proof.
  intros Hok Hh Hrun Hd. pose proof (quiet_op _ _ _ Hrun) as Hq. destruct op as [p v c ok|v c lo hi ok|v c ok|p|i|p|i j perm|i fd|path fl mode|fd| | | | | | |];
    try (by apply (holds_tables _ _ _ s)). all: cbn [run_op drops] in *.
  all: try (injection Hrun as <-).
  - unfold esp_vfs_register. pose proof (holds_register k l e p (Some (length p)) v c ok s Hok ltac:(by intros ? [= <-]) Hh) as H.
    by destruct (esp_vfs_register_common _ _ _ _ _ _) as [[? ?] ?].
  - by apply holds_range.
  - unfold esp_vfs_register_with_id. pose proof (holds_register k l e [] None v c ok s Hok ltac:(done) Hh) as H. by destruct (esp_vfs_register_common _ _ _ _ _ _) as [[? ?] ?].
  - unfold esp_vfs_unregister. destruct (prefix_index _ _ _ _) as [i|] eqn:E; [|done]. apply holds_unregister; [done|]. intros ->%Nat2Z.inj.
    destruct (prefix_index_spec _ _ _ _ _ E) as (_ & e' & He & Hp). destruct Hh as (e2 & He2 & (_ & _ & _ & _ & E5 & E6 & _) & _).
    rewrite He in He2. injection He2 as ->. unfold has_prefix in *. rewrite E5, E6 in Hp. congruence.
  - apply holds_unregister; [done|]. by apply Z.eqb_neq.
  - by apply holds_readonly.
  - unfold esp_vfs_register_fd_with_local_fd. destruct (_ || _) eqn:Eb; [done|]. destruct (unused_fd _) eqn:Ej; [|done]. by apply holds_take.
  - unfold esp_vfs_unregister_fd. destruct (_ || _) eqn:Eb; [done|]. destruct (_ && _); [|done]. apply holds_fds_insert; [done|]. apply Z.eqb_neq in Hd. lia.
  - destruct (open_spec path fl mode s Hok) as (r & s1 & E & H). rewrite E in Hrun. injection Hrun as <-.
    destruct H as [[Ht _]|(e0 & sub & local & w & i & Ee & _ & _ & _ & Hi & _ & ->)]; [by apply (holds_tables _ _ _ s)|]. by apply holds_take.
  - unfold esp_vfs_close. pose proof (tables_fd_call F_close fd [] s) as Ht. apply (holds_tables _ _ _ _ _ Ht) in Hh as Hh1.
    destruct (fd_call _ _ _ _) as [[n|ret] s1] eqn:Ec; [done|]. cbn [snd] in *. apply fd_call_valid in Ec. apply Z.eqb_neq in Hd.
    destruct (negb _); [|done]. destruct (has_pending_select _); apply holds_fds_insert; (done || lia).
Qed.

Lemma run_ops_holds k l e ops : forall s s', vfs_ok s -> holds k l e s -> run_ops ops s = Some s' -> Forall (fun op => drops k e op = false) ops -> holds k l e s'.
Proof.
  induction ops as [|op ops IH]; intros s s' Hok Hh; cbn [run_ops]; [by intros [= <-]|]. destruct (run_op op s) as [s1|] eqn:E; [|done].
  intros Hr [Hd Hds]%Forall_cons. eapply IH; [by eapply vfs_op_ok|by eapply op_holds|done..].
Qed.

Lemma holds_call k l e f args s : vfs_ok s -> holds k l e s -> 0 <= l -> fd_call f k args s = check_and_call e f (Num l :: args) s.
Proof.
  intros Hok (e' & He & Hs & x & Ex & Hx & Hl) Hl0. destruct (ok_entries _ Hok _ _ He) as [Hi _].
  assert (fd_valid k = true) as Hv.
  { apply lookup_lt_Some in Ex. rewrite (ok_fds _ Hok) in Ex. unfold fd_valid. apply andb_true_iff. split; [apply Z.ltb_lt|apply Z.leb_le]; lia. }
  assert (fd_at k s = x) as Ef by (unfold fd_at; by rewrite Nat2Z.id, Ex).
  unfold fd_call, get_vfs_for_fd, get_local_fd. rewrite Hv, Ef, Hx. unfold get_vfs_for_index.
  rewrite (proj2 (Z.ltb_ge _ _)), (proj2 (Z.leb_gt _ _)), Nat2Z.id, He by lia. cbn [orb]. rewrite Hl, (proj2 (Z.ltb_ge _ _)) by lia. by apply same_driver_call.
Qed.

(** C24: a descriptor that [open] has returned was free, and leads to the driver
    of the path and to the descriptor that the driver returned, cut to 8 bits:
    whatever is registered, unregistered, opened, closed or called afterwards,
    for other drivers and descriptors, a call on it is a call of this driver, and
    it is not given out again. *)
Theorem descriptor_keeps_its_driver path fl mode fd s s1 ops s2 :
  reachable s -> esp_vfs_open path fl mode s = Some (Ret fd, s1) -> 0 <= fd -> run_ops ops s1 = Some s2 ->
  (forall e, get_vfs_for_path path s = Some e -> Forall (fun op => drops fd e op = false) ops) ->
  exists e sub local w, get_vfs_for_path path s = Some e /\ translate_path e path = Some sub /\
    check_and_call e F_open [Path sub; Num fl; Num mode] s = (Ret local, with_world w s) /\ vfs_index (fd_at fd s) = -1 /\
    (forall f args, fd_call f fd args s2 = check_and_call e f (Num (u8 local) :: args) s2) /\
    forall path' fl' mode' s3, esp_vfs_open path' fl' mode' s2 <> Some (Ret fd, s3).
Proof.
  intros Hr Ho Hfd Hrun Hops. apply vfs_reachable_ok in Hr as Hok. destruct (open_spec path fl mode s Hok) as (r & s' & E & H). rewrite E in Ho. injection Ho as -> ->.
  destruct H as [[_ H]|(e & sub & local & w & i & Ee & Et & Ec & Hl & Hi & [= ->] & ->)]; [by apply H in Hfd|]. specialize (Hops e Ee).
  pose proof (get_vfs_for_path_spec path s) as Hp. rewrite Ee in Hp. destruct Hp as ((j & Hj & Ej) & _). destruct (ok_entries _ Hok _ _ Ej) as [_ [Eo _]].
  destruct (unused_fd_spec _ _ Hi) as (x & Ex & Hx).
  assert (holds i (u8 local) e (with_fds (take_fd i false (offset e) local (s_fd_table s)) (with_world w s))) as Hh.
  { exists e. split_and!; [by rewrite Eo|done|]. eexists. cbn [with_fds s_fd_table]. rewrite take_fd_lookup, bool_decide_true, Ex by done. done. }
  assert (vfs_ok (with_fds (take_fd i false (offset e) local (s_fd_table s)) (with_world w s))) as Hok1.
  { apply (vfs_op_ok (Open path fl mode) s); [done|]. cbn [run_op]. by rewrite E. }
  pose proof (run_ops_ok _ _ _ Hok1 Hrun) as Hok2. pose proof (run_ops_holds _ _ _ _ _ _ Hok1 Hh Hrun Hops) as Hh2.
  exists e, sub, local, w. split_and!; [done..| | |].
  - unfold fd_at. by rewrite Nat2Z.id, Ex.
  - intros f args. apply holds_call; [done..|apply u8_byte].
  - intros path' fl' mode' s3 E3. destruct (open_spec path' fl' mode' s2 Hok2) as (r & s' & E' & H). rewrite E3 in E'. injection E' as <- <-.
    destruct H as [[_ H]|(e3 & _ & _ & _ & k & _ & _ & _ & _ & Hk & [= <-%Nat2Z.inj] & _)]; [by apply (H i)|].
    destruct (unused_fd_spec _ _ Hk) as (y & Ey & Hy). destruct Hh2 as (_ & _ & _ & z & Ez & Hz & _). rewrite Ey in Ez. injection Ez as <-. lia.
Qed.

(** A range of descriptors is registered as a whole or not at all: when it
    succeeds, each was unused and a call on it now is a call of the driver with
    the same number, and no other descriptor has changed; when it fails, those
    that were in use are as before, the others are unused, and no driver has been
    added. *)
Theorem fd_range_all_or_nothing v c lo hi malloc_ok s : reachable s ->
  let '(err, s') := esp_vfs_register_fd_range v c lo hi malloc_ok s in
  if is_ok err then
    (0 <= lo <= hi /\ hi <= MAX_FDS) /\
    (forall k, lo <= k < hi -> vfs_index (fd_at k s) = -1 /\ exists e, vfs e = v /\ ctx e = c /\ forall f args, fd_call f k args s' = check_and_call e f (Num k :: args) s') /\
    (forall k, 0 <= k < MAX_FDS -> ~ (lo <= k < hi) -> fd_at k s' = fd_at k s)
  else
    (forall i, vfs_at i s' = vfs_at i s) /\
    forall k, 0 <= k < MAX_FDS -> if vfs_index (fd_at k s) =? -1 then vfs_index (fd_at k s') = -1 else fd_at k s' = fd_at k s.
Proof.
  intros Hr. pose proof (vfs_reachable_ok _ Hr) as Hok. pose proof (fd_range_spec v c lo hi malloc_ok s Hok) as H.
  pose proof (range_ok v c lo hi malloc_ok s Hok) as Hok'.
  assert (forall k, 0 <= k < MAX_FDS -> s_fd_table s !! Z.to_nat k = Some (fd_at k s)) as Hat.
  { intros k Hk. unfold fd_at. destruct (s_fd_table s !! Z.to_nat k) eqn:E; [done|]. apply lookup_ge_None in E. rewrite (ok_fds _ Hok) in E. lia. }
  assert (forall t, esp_vfs_register_fd_range v c lo hi malloc_ok s = (ESP_OK, t) -> 0 <= lo <= hi /\ hi <= MAX_FDS) as Hb.
  { intros t. unfold esp_vfs_register_fd_range. destruct (_ || _) eqn:Eb; [done|]. lia. }
  destruct (esp_vfs_register_fd_range _ _ _ _ _ _) as [err s']. cbn [snd] in Hok'. destruct (is_ok err) eqn:Ee.
  - apply is_ok_true in Ee. specialize (Hb s' ltac:(by rewrite Ee)). destruct H as (i & Hnone & Hi & Es & Hl & Ht). split_and!; [lia..| |].
    + intros k Hk. specialize (Ht (Z.to_nat k) _ (Hat k ltac:(lia))). rewrite Z2Nat.id in Ht by lia.
      rewrite (proj2 (Z.leb_le _ _)), (proj2 (Z.ltb_lt _ _)) in Ht by lia. destruct Ht as [Hx Hk']. split; [done|].
      exists (VfsEntry v [] None c i). split; [done|]. split; [done|]. intros f args.
      assert (u8 k = k) as Eu by (apply Z.mod_small; unfold MAX_FDS in *; lia).
      rewrite <-(holds_call (Z.to_nat k) k (VfsEntry v [] None c i) f args s' Hok'); [by rewrite Z2Nat.id by lia| |lia].
      exists (VfsEntry v [] None c i). split_and!; [|done|].
      * rewrite Es, vfs_at_insert. cbn [offset]. rewrite bool_decide_true by (split; [done|by rewrite (ok_places _ Hok)]). done.
      * eexists. rewrite Hk'. split; [done|]. split; [done|exact Eu].
    + intros k Hk Hout. specialize (Ht (Z.to_nat k) _ (Hat k Hk)). rewrite Z2Nat.id in Ht by lia. destruct (_ && _) eqn:E; [lia|]. unfold fd_at at 1. by rewrite Ht.
  - destruct H as (n & i & Es & _ & Hnone & _ & Ht). split.
    + intros j. rewrite Es, vfs_at_insert. case_bool_decide as Hj; [|done]. by destruct Hj as [<- _].
    + intros k Hk. specialize (Ht (Z.to_nat k) _ (Hat k Hk)). destruct (Z.eqb_spec (vfs_index (fd_at k s)) (-1)) as [E|E].
      * destruct Ht as [Ht|[_ Ht]]; unfold fd_at at 1; by rewrite Ht.
      * destruct Ht as [Ht|[? _]]; [|done]. unfold fd_at at 1. by rewrite Ht.
Qed.

(** ** What is read-only *)

Lemma offset_unique path1 path2 e1 e2 s : vfs_ok s -> get_vfs_for_path path1 s = Some e1 -> get_vfs_for_path path2 s = Some e2 -> offset e1 = offset e2 -> e1 = e2.
Proof.
  intros Hok E1 E2 Eo. pose proof (get_vfs_for_path_spec path1 s) as H1. pose proof (get_vfs_for_path_spec path2 s) as H2. rewrite E1 in H1. rewrite E2 in H2.
  destruct H1 as ((i & _ & Hi) & _), H2 as ((j & _ & Hj) & _). destruct (ok_entries _ Hok _ _ Hi) as [_ [Ei _]], (ok_entries _ Hok _ _ Hj) as [_ [Ej _]].
  rewrite <-Ei, Eo, Ej in Hi. congruence.
Qed.

(** A call that would change a read-only file system does not reach its
    driver: to open for writing, to remove, rename, link, truncate, and to make
    or remove a directory fail with an error number, and nothing has changed. *)
Theorem readonly_not_modified path e s : reachable s -> get_vfs_for_path path s = Some e -> is_readonly e = true ->
  (forall fl mode, Z.land fl O_ACCMODE <> O_RDONLY -> esp_vfs_open path fl mode s = Some (Err EROFS, s)) /\
  esp_vfs_unlink path s = Some (Err EROFS, s) /\ esp_vfs_rmdir path s = Some (Err EROFS, s) /\
  (forall mode, esp_vfs_mkdir path mode s = Some (Err EROFS, s)) /\ (forall len, esp_vfs_truncate path len s = Some (Err EROFS, s)) /\
  (forall other, exists n1 n2 n3 n4, esp_vfs_link path other s = Some (Err n1, s) /\ esp_vfs_link other path s = Some (Err n2, s) /\
     esp_vfs_rename path other s = Some (Err n3, s) /\ esp_vfs_rename other path s = Some (Err n4, s)) /\
  (forall fd len, get_vfs_for_fd fd s = Some e -> exists n, esp_vfs_ftruncate fd len s = (Err n, s)).
Proof.
  intros Hr He Hro. pose proof (vfs_reachable_ok _ Hr) as Hok. unfold esp_vfs_open, esp_vfs_unlink, esp_vfs_rmdir, esp_vfs_mkdir, esp_vfs_truncate, path_call, check_readonly.
  rewrite He, Hro. split_and!; try done.
  - intros fl mode Hf. apply Z.eqb_neq in Hf. by rewrite Hf.
  - intros other. unfold esp_vfs_link, esp_vfs_rename, check_readonly. rewrite He, Hro.
    destruct (get_vfs_for_path other s) as [e2|] eqn:E2; [|eexists _, _, _, _; repeat (split; [done|]); done].
    cbn [same_vfs]. rewrite (Nat.eqb_sym (offset e2)). destruct (Nat.eqb_spec (offset e) (offset e2)) as [E|E].
    + rewrite <-(offset_unique path other e e2 s), Hro by done. eexists _, _, _, _; repeat (split; [done|]); done.
    + cbn [negb]. destruct (is_readonly e2); eexists _, _, _, _; repeat (split; [done|]); done.
  - intros fd len Hfd. unfold esp_vfs_ftruncate. rewrite Hfd, Hro. destruct (_ <? 0); by eexists.
Qed.

End Fd.

Arguments vfs_op : clear implicits.

(** ** A log of the calls to two drivers *)

Module VfsExample.

Definition calls : Type := list (Z * vfs_func * list varg).

(** Driver [n] notes what it is called for and returns 3. *)
Definition driver (n : Z) : esp_vfs_t calls := EspVfs 0 (fun f => Some (fun args w => (3, (n, f, args) :: w))) None None None None.

Definition a : list Z := [47; 97].
Definition b : list Z := [47; 98].
Definition file : list Z := [47; 97; 47; 102].

Definition mounted : list (vfs_op calls) := [Register a (driver 1) 0 true; Register b (driver 2) 0 true].
Definition state (ops : list (vfs_op calls)) : vfs_state calls := default (vfs_start []) (run_ops ops (vfs_start [])).

Lemma state_reachable (ops : list (vfs_op calls)) : is_Some (run_ops (W := calls) ops (vfs_start (W := calls) [])) -> reachable (W := calls) (state ops).
Proof.
  intros [s Hs]. exists [], ops. rewrite Hs. f_equal. symmetry.
  change (default (vfs_start []) (run_ops (W := calls) ops (vfs_start (W := calls) [])) = s). by rewrite Hs.
Qed.

Lemma descriptor_keeps_its_driver_witness :
  let s := state mounted in
  exists e sub, get_vfs_for_path file s = Some e /\ translate_path e file = Some sub /\
    forall f args s2, run_ops [Open b 0 0; Unregister b; RegisterWithId (driver 7) 0 true; SetReadonly a] (state (mounted ++ [Open file 0 0])) = Some s2 ->
      fd_call f 0 args s2 = check_and_call e f (Num 3 :: args) s2.
Proof.
  cbn zeta. assert (reachable (state mounted)) as Hr by (apply state_reachable; vm_compute; by eexists).
  assert (esp_vfs_open file 0 0 (state mounted) = Some (Ret 0, state (mounted ++ [Open file 0 0]))) as Ho by (vm_compute; reflexivity).
  assert (forall e, get_vfs_for_path file (state mounted) = Some e -> Forall (fun op => drops 0 e op = false) [Open b 0 0; Unregister b; RegisterWithId (driver 7) 0 true; SetReadonly a]) as Hd.
  { intros e He. vm_compute in He. injection He as <-. repeat constructor. }
  destruct (run_ops [Open b 0 0; Unregister b; RegisterWithId (driver 7) 0 true; SetReadonly a] (state (mounted ++ [Open file 0 0]))) as [s2|] eqn:E; [|by vm_compute in E].
  destruct (descriptor_keeps_its_driver file 0 0 0 (state mounted) _ _ s2 Hr Ho ltac:(lia) E Hd) as (e & sub & local & w & He & Ht & Hc & _ & Hcall & _).
  exists e, sub. split; [done|]. split; [done|]. intros f args s3 [= <-]. rewrite Hcall. do 3 f_equal.
  vm_compute in He. injection He as <-. vm_compute in Ht. injection Ht as <-. vm_compute in Hc. injection Hc as <- _. reflexivity.
Defined.

Lemma fd_range_all_or_nothing_witness :
  let '(err, s) := esp_vfs_register_fd_range (driver 3) 0 60 64 true (state mounted) in
  err = ESP_OK /\ exists e, vfs e = driver 3 /\ fd_call F_read 61 [] s = check_and_call e F_read [Num 61] s.
Proof.
  assert (reachable (state mounted)) as Hr by (apply state_reachable; vm_compute; by eexists).
  pose proof (fd_range_all_or_nothing (driver 3) 0 60 64 true (state mounted) Hr) as H.
  destruct (esp_vfs_register_fd_range (driver 3) 0 60 64 true (state mounted)) as [err s] eqn:E.
  assert (err = ESP_OK) as -> by (vm_compute in E; by injection E). split; [done|]. cbn in H. destruct H as (_ & H & _).
  destruct (H 61 ltac:(lia)) as (_ & e & Hv & _ & Hf). exists e. by split.
Defined.

Lemma readonly_not_modified_witness :
  let s := state (mounted ++ [SetReadonly a]) in esp_vfs_unlink file s = Some (Err EROFS, s).
Proof.
  cbn zeta. assert (reachable (state (mounted ++ [SetReadonly a]))) as Hr by (apply state_reachable; vm_compute; by eexists).
  destruct (get_vfs_for_path file (state (mounted ++ [SetReadonly a]))) as [e|] eqn:He; [|by vm_compute in He].
  destruct (readonly_not_modified file e _ Hr He ltac:(vm_compute in He; by injection He as <-)) as (_ & H & _). exact H.
Defined.

(** Unregistering clears the descriptors below [VFS_MAX_COUNT] only: descriptor 8
    of the first driver is left, and leads to the driver that is registered next. *)
Example stale_descriptor :
  let s := state ([Register a (driver 1) 0 true] ++ repeat (Open file 0 0) 9 ++ [Unregister a; Register b (driver 2) 0 true]) in
  fst (fd_call F_read 7 [] s) = Err EBADF /\ head (world (snd (fd_call F_read 8 [] s))) = Some (2, F_read, [Num 3]).
Proof. vm_compute. done. Qed.

(** Creating or truncating a file on what is read-only, without asking to write,
    reaches the driver ([O_CREAT] is 512, [O_TRUNC] 1024), as does [utime]. *)
Example readonly_created :
  let s := state (mounted ++ [SetReadonly a]) in
  head ∘ world ∘ snd <$> esp_vfs_open file (512 + 1024) 0 s = Some (Some (1, F_open, [Path [47; 102]; Num 1536; Num 0])) /\
  head ∘ world ∘ snd <$> esp_vfs_utime file 0 s = Some (Some (1, F_utime, [Path [47; 102]; Num 0])).
Proof. vm_compute. done. Qed.

(** Of two fallbacks, the second serves the absolute paths and the first the others. *)
Example two_fallbacks :
  let s := state [Register [] (driver 1) 0 true; Register [] (driver 2) 0 true] in
  offset <$> get_vfs_for_path file s = Some 1%nat /\ offset <$> get_vfs_for_path [102] s = Some 0%nat.
Proof. vm_compute. done. Qed.

(** The descriptor of the driver is kept in 8 bits. *)
Example local_descriptor_cut :
  let far := EspVfs 0 (fun f => Some (fun args w => (256, (1, f, args) :: w))) None None None None in
  let s := state [Register a far 0 true; Open file 0 0] in
  head (world (snd (fd_call F_read 0 [] s))) = Some (1, F_read, [Num 0]).
Proof. vm_compute. done. Qed.

End VfsExample.
