(* ===== verification/VfsSelect.v ===== *)
(** * [select] of the virtual file system ([vfs/vfs.c])

    The descriptors that are to be watched are handed to their drivers, under
    the numbers that the drivers know; what the drivers have found is translated
    back. *)

From S2P Require Import Prelude EspErr Vfs VfsPath VfsFd.

#[local] Open Scope abort_scope.
#[local] Set Warnings "-clear-no-such-hyp".

Definition FD_SETSIZE : Z := 64.

Definition FD_SET (k : set_kind) (n : Z) (l : fd_sets) : fd_sets := if (0 <=? n) && (n <? FD_SETSIZE) then {[(k, n)]} ∪ l else l.
Definition FD_CLR (k : set_kind) (n : Z) (l : fd_sets) : fd_sets := l ∖ {[(k, n)]}.

Definition kinds : list set_kind := [READ; WRITE; ERROR].

(** [given] says which of the three pointers are not NULL. *)
Definition esp_vfs_safe_fd_isset (given : set_kind -> bool) (k : set_kind) (n : Z) (l : fd_sets) : bool :=
  given k && ((0 <=? n) && (n <? FD_SETSIZE) && bool_decide ((k, n) ∈ l)).

Section Select.
Context {W : Type}.
Implicit Types (s : vfs_state W).

(** [isset] with the three sets. *)
Abbreviation fds_triple_t := (bool * fd_sets)%type.

(** What a call of [select] has gathered: the sets of each driver, the function of
    the socket driver when a socket is to be watched, and the sets of the caller. *)
Record select_ctx := SelectCtx {
  sel_state : vfs_state W;
  triples : list fds_triple_t;
  socket : option (Z -> fd_sets -> W -> Z * fd_sets * W);
  user : fd_sets;
}.

Definition mark_select (fd : Z) s : vfs_state W :=
  with_fds (alter (fun e => FdEntry (permanent e) (has_pending_close e) true (vfs_index e) (local_fd e)) (Z.to_nat fd) (s_fd_table s)) s.

(** Descriptor [fd] moves from the set of the caller to that of driver [i]. *)
Definition move_fd (given : set_kind -> bool) (i : nat) (fd local : Z) (c : select_ctx) (k : set_kind) : select_ctx :=
  if esp_vfs_safe_fd_isset given k fd (user c) then
    SelectCtx (sel_state c) (alter (fun item => (true, FD_SET k local (snd item))) i (triples c)) (socket c) (FD_CLR k fd (user c))
  else c.

Definition dispatch_fd (given : set_kind -> bool) (fd : Z) (c : select_ctx) : option select_ctx :=
  let e := fd_at fd (sel_state c) in
  let c := if esp_vfs_safe_fd_isset given ERROR fd (user c) then SelectCtx (mark_select fd (sel_state c)) (triples c) (socket c) (user c) else c in
  if vfs_index e <? 0 then Some c
  else if permanent e then
    match socket c with
    | Some _ => Some c
    | None =>
        if existsb (fun k => esp_vfs_safe_fd_isset given k fd (user c)) kinds then
          let! v := vfs_at (Z.to_nat (vfs_index e)) (sel_state c) in
          let! sem := get_socket_select_semaphore (vfs v) in
          Some (SelectCtx (with_world (sem (world (sel_state c))) (sel_state c)) (triples c) (socket_select (vfs v)) (user c))
        else Some c
    end
  else if vfs_index e <? length (triples c) then Some (foldl (move_fd given (Z.to_nat (vfs_index e)) fd (local_fd e)) c kinds)
  else None.

Fixpoint dispatch_loop (n : nat) (given : set_kind -> bool) (fd : Z) (c : select_ctx) : option select_ctx :=
  match n with
  | O => Some c
  | S n => let! next := dispatch_fd given fd c in dispatch_loop n given (fd + 1) next
  end.

Definition get_entry (i : nat) s : option (vfs_entry_t W) := get_vfs_for_index i s.

(** Drivers [i] to [i + n - 1]. *)
Fixpoint call_end_selects (n i : nat) (trs : list fds_triple_t) (args : list Z) s : vfs_state W :=
  match n with
  | O => s
  | S n =>
      let called :=
        match get_entry i s with
        | Some v =>
            match end_select (vfs v), trs !! i with
            | Some f, Some (true, _) => with_world (snd (f (default 0 (args !! i)) (world s))) s
            | _, _ => s
            end
        | None => s
        end in
      call_end_selects n (S i) trs args called
  end.

(** The descriptors of driver [i] from [fd] on that are in its sets; [ret] counts them. *)
Fixpoint set_driver_fds (given : set_kind -> bool) (t : list fd_table_t) (fd : Z) (i : nat) (item : fd_sets) (r : Z * fd_sets) : Z * fd_sets :=
  match t with
  | [] => r
  | e :: t =>
      let r :=
        if vfs_index e =? i then
          foldl (fun r k => if esp_vfs_safe_fd_isset given k (local_fd e) item then (fst r + 1, FD_SET k fd (snd r)) else r) r kinds
        else r in
      set_driver_fds given t (fd + 1) i item r
  end.

Fixpoint set_global_fd_sets (given : set_kind -> bool) (t : list fd_table_t) (trs : list fds_triple_t) (i : nat) (r : Z * fd_sets) : Z * fd_sets :=
  match trs with
  | [] => r
  | (isset, item) :: trs => set_global_fd_sets given t trs (S i) (if isset : bool then set_driver_fds given t 0 i item r else r)
  end.

(** The drivers from [i] on, [n] of them, are started; the result is the first
    error with the driver's place, if there is one. *)
Fixpoint start_selects (n i : nat) (nfds : Z) (trs : list fds_triple_t) (args : list Z) s :
    option (nat * esp_err_t) * list fds_triple_t * list Z * vfs_state W :=
  match n with
  | O => (None, trs, args, s)
  | S n =>
      match get_entry i s with
      | Some v =>
          match start_select (vfs v), trs !! i with
          | Some f, Some (true, item) =>
              let '(err, arg, item, w) := f nfds item (world s) in
              let trs := <[i := (true, item)]> trs in
              let args := <[i := arg]> args in
              if negb (is_ok err) then (Some (i, err), trs, args, with_world w s) else start_selects n (S i) nfds trs args (with_world w s)
          | _, _ => start_selects n (S i) nfds trs args s
          end
      | None => start_selects n (S i) nfds trs args s
      end
  end.

(** What happens while the task waits: other tasks run, and driver [i] leaves in
    its sets what it has found, which depends on what it was asked for and on
    what [start_select] has made of the sets. *)
Record waiting := Waiting {
  calloc_ok : bool;
  sem_ok : bool;
  args_ok : bool;
  others : vfs_state W -> vfs_state W;
  signal : nat -> fd_sets -> fd_sets -> fd_sets;
}.

Definition close_pending (nfds : Z) (t : list fd_table_t) : list fd_table_t :=
  imap (fun fd e => if (fd <? nfds) && has_pending_close e then FD_TABLE_ENTRY_UNUSED else e) t.

Definition esp_vfs_select (nfds : Z) (given : set_kind -> bool) (sets : fd_sets) (env : waiting) s : option (vfs_result * fd_sets * vfs_state W) :=
  if (MAX_FDS <? nfds) || (nfds <? 0) then Some (Err EINVAL, sets, s)
  else
    let vfs_count := s_vfs_count s in
    if negb (calloc_ok env) then Some (Err ENOMEM, sets, s)
    else
      let! c := dispatch_loop (Z.to_nat nfds) given 0 (SelectCtx s (replicate vfs_count (false, ∅)) None sets) in
      let is_sem_local := if socket c is None then true else false in
      if is_sem_local && negb (sem_ok env) then Some (Err ENOMEM, user c, sel_state c)
      else if negb (args_ok env) then Some (Err ENOMEM, user c, sel_state c)
      else
        match start_selects vfs_count 0 nfds (triples c) (replicate vfs_count 0) (sel_state c) with
        | (Some (i, err), trs, args, s) =>
            let s := if match err with ESP_ERR_NOT_SUPPORTED => false | _ => true end then call_end_selects i 0 trs args s else s in
            Some (Err EINTR, snd (set_global_fd_sets given (s_fd_table s) trs 0 (0, user c)), s)
        | (None, trs, args, s) =>
            let '(ret, sets, s) :=
              match socket c with
              | Some f => let '(ret, sets, w) := f nfds (user c) (world s) in (ret, sets, with_world w s)
              | None => (0, ∅, s)
              end in
            let s := others env s in
            let trs := imap (fun i t => (fst t, if fst t : bool then signal env i (snd (default (false, ∅) (triples c !! i))) (snd t) else snd t)) trs in
            let s := call_end_selects vfs_count 0 trs args s in
            let '(ret, sets) := if 0 <=? ret then set_global_fd_sets given (s_fd_table s) trs 0 (ret, sets) else (ret, sets) in
            Some (Ret ret, sets, with_fds (close_pending nfds (s_fd_table s)) s)
        end.

(** ** Handing out the descriptors *)

Lemma isset_spec given k n l : esp_vfs_safe_fd_isset given k n l = true <-> given k = true /\ 0 <= n < FD_SETSIZE /\ (k, n) ∈ l.
Proof.
  unfold esp_vfs_safe_fd_isset. rewrite !andb_true_iff, bool_decide_eq_true, Z.leb_le, Z.ltb_lt. tauto.
Qed.

Lemma FD_SET_spec k n l k' n' : (k', n') ∈ FD_SET k n l <-> (k', n') ∈ l \/ k' = k /\ n' = n /\ 0 <= n < FD_SETSIZE.
Proof.
  unfold FD_SET. destruct (_ && _) eqn:E; [|split; [auto|]; intros [|(_ & _ & ?)]; [done|lia]].
  rewrite elem_of_union, elem_of_singleton. split; [intros [[= -> ->]|]; [right; split_and!; [done..|lia|lia]|auto]|]. intros [|(-> & -> & _)]; auto.
Qed.

(** The descriptors of the caller are [u]; [fd] is watched for [k] by driver [i] as [l]. *)
Definition wants (given : set_kind -> bool) (u : fd_sets) s (k : set_kind) (fd : Z) (i : nat) (l : Z) : Prop :=
  esp_vfs_safe_fd_isset given k fd u = true /\ permanent (fd_at fd s) = false /\ vfs_index (fd_at fd s) = i /\ local_fd (fd_at fd s) = l.

Lemma move_fds_spec given i fd l ks c : NoDup ks ->
  let c' := foldl (move_fd given i fd l) c ks in
  sel_state c' = sel_state c /\ socket c' = socket c /\ length (triples c') = length (triples c) /\
  (forall k n, (k, n) ∈ user c' <-> (k, n) ∈ user c /\ ~ (k ∈ ks /\ n = fd /\ esp_vfs_safe_fd_isset given k fd (user c) = true)) /\
  (forall j b item, triples c !! j = Some (b, item) -> exists b' item', triples c' !! j = Some (b', item') /\
     (b' = true <-> b = true \/ j = i /\ exists k, k ∈ ks /\ esp_vfs_safe_fd_isset given k fd (user c) = true) /\
     forall k n, (k, n) ∈ item' <-> (k, n) ∈ item \/ j = i /\ k ∈ ks /\ n = l /\ 0 <= l < FD_SETSIZE /\ esp_vfs_safe_fd_isset given k fd (user c) = true).
Proof.
  revert c. induction ks as [|k0 ks IH]; intros c Hd; cbn [foldl].
  - split_and!; try done.
    + intros k n. set_solver.
    + intros j b item Hj. exists b, item. split_and!; [done|set_solver|]. set_solver.
  - apply NoDup_cons in Hd as [Hk0 Hd]. specialize (IH (move_fd given i fd l c k0) Hd).
    assert (move_fd given i fd l c k0 = if esp_vfs_safe_fd_isset given k0 fd (user c) then
      SelectCtx (sel_state c) (alter (fun item => (true, FD_SET k0 l (snd item))) i (triples c)) (socket c) (FD_CLR k0 fd (user c)) else c) as Em by done.
    destruct (esp_vfs_safe_fd_isset given k0 fd (user c)) eqn:E; rewrite Em in IH |- *; clear Em; cbn [sel_state socket triples user] in IH.
    + destruct IH as (E1 & E2 & E3 & Hu & Ht). rewrite length_alter in E3.
      assert (forall k, k ∈ ks -> esp_vfs_safe_fd_isset given k fd (FD_CLR k0 fd (user c)) = esp_vfs_safe_fd_isset given k fd (user c)) as Hsame.
      { intros k Hk. apply eq_true_iff_eq. rewrite !isset_spec. unfold FD_CLR. set_solver. }
      split_and!; try done.
      * intros k n. rewrite Hu. unfold FD_CLR. split.
        -- intros [[Hin Hne]%elem_of_difference Hn]. split; [done|]. intros (Hk & -> & Hi). apply elem_of_cons in Hk as [->|Hk]; [set_solver|].
           apply Hn. by rewrite Hsame.
        -- intros [Hin Hn]. split; [apply elem_of_difference; split; [done|]; intros [= -> ->]%elem_of_singleton; apply Hn; set_solver|].
           intros (Hk & -> & Hi). rewrite Hsame in Hi by done. apply Hn. set_solver.
      * intros j b item Hj. destruct (decide (j = i)) as [->|Hne].
        -- specialize (Ht i true (FD_SET k0 l item) ltac:(by rewrite list_lookup_alter_eq, Hj)). destruct Ht as (b' & item' & Hl & Hb & Hitem).
           exists b', item'. split_and!; [done| |].
           ++ split; [|intros _; apply Hb; auto]. intros _. right. split; [done|]. exists k0. set_solver.
           ++ intros k n. rewrite Hitem, FD_SET_spec. split.
              ** intros [[|(-> & -> & ?)]|(_ & Hk & -> & ? & Hi)]; [auto|right; set_solver|]. rewrite Hsame in Hi by done. right. set_solver.
              ** intros [|(_ & Hk & -> & ? & Hi)]; [auto|]. apply elem_of_cons in Hk as [->|Hk]; [auto|]. right. by rewrite Hsame.
        -- specialize (Ht j b item ltac:(by rewrite list_lookup_alter_ne)). destruct Ht as (b' & item' & Hl & Hb & Hitem). exists b', item'.
           split_and!; [done|rewrite Hb; naive_solver|]. intros k n. rewrite Hitem. naive_solver.
    + destruct IH as (E1 & E2 & E3 & Hu & Ht). split_and!; try done.
      * intros k n. rewrite Hu. split; intros [Hin Hn]; (split; [done|]); intros (Hk & -> & Hi); apply Hn; [|set_solver].
        apply elem_of_cons in Hk as [->|Hk]; [congruence|done].
      * intros j b item Hj. destruct (Ht j b item Hj) as (b' & item' & Hl & Hb & Hitem). exists b', item'. split_and!; [done| |].
        -- rewrite Hb. split; (intros [|(-> & k & Hk & Hi)]; [auto|right; split; [done|]; exists k; split; [|done]]); [set_solver|].
           apply elem_of_cons in Hk as [->|Hk]; [congruence|done].
        -- intros k n. rewrite Hitem. split; (intros [|(-> & Hk & -> & ? & Hi)]; [auto|right; split_and!; try done; try lia]); [set_solver|].
           apply elem_of_cons in Hk as [->|Hk]; [congruence|done].
Qed.

(** The descriptors lead where they led. *)
Definition same_routes s s' : Prop :=
  length (s_fd_table s') = length (s_fd_table s) /\
  forall fd, permanent (fd_at fd s') = permanent (fd_at fd s) /\ vfs_index (fd_at fd s') = vfs_index (fd_at fd s) /\ local_fd (fd_at fd s') = local_fd (fd_at fd s).

Lemma mark_same fd s : same_routes s (mark_select fd s).
Proof.
  unfold same_routes, mark_select. cbn [with_fds s_vfs s_vfs_count world s_fd_table]. rewrite length_alter. split_and!; try done. intros n. unfold fd_at. cbn [with_fds s_fd_table].
  destruct (decide (Z.to_nat fd = Z.to_nat n)) as [->|Hne]; [rewrite list_lookup_alter_eq|by rewrite list_lookup_alter_ne]. by destruct (s_fd_table s !! Z.to_nat n).
Qed.

#[local] Instance same_routes_refl : Reflexive same_routes.
Proof. by intros s. Qed.

#[local] Instance same_routes_trans : Transitive same_routes.
Proof.
  intros s1 s2 s3 (?&H) (?&H'). unfold same_routes. split; [congruence|]. intros fd. destruct (H fd) as (<- & <- & <-), (H' fd) as (<- & <- & <-). done.
Qed.

Definition dispatched (given : set_kind -> bool) (sets : fd_sets) s (j : Z) (c : select_ctx) : Prop :=
  same_routes s (sel_state c) /\ socket c = None /\ length (triples c) = s_vfs_count s /\
  (forall k n, (k, n) ∈ user c <-> (k, n) ∈ sets /\ ~ (0 <= n < j /\ exists i l, wants given sets s k n i l)) /\
  (forall i b item, triples c !! i = Some (b, item) ->
     (b = true <-> exists k n l, 0 <= n < j /\ wants given sets s k n i l) /\
     forall k l, (k, l) ∈ item <-> 0 <= l < FD_SETSIZE /\ exists n, 0 <= n < j /\ wants given sets s k n i l).

Lemma range_snoc (P : Z -> Prop) j : 0 <= j -> ((exists n, 0 <= n < j + 1 /\ P n) <-> (exists n, 0 <= n < j /\ P n) \/ P j).
Proof.
  intros Hj. split; [|intros [(n & ? & ?)|?]; [exists n|exists j]; (split; [lia|done])]. intros (n & ? & ?).
  destruct (decide (n = j)) as [->|]; [by right|left; exists n; split; [lia|done]].
Qed.

Lemma dispatch_quiet given sets s j c : 0 <= j -> dispatched given sets s j c -> (forall k i l, ~ wants given sets s k j i l) -> dispatched given sets s (j + 1) c.
Proof.
  intros Hj (Hs & Hk & Hl & Hu & Ht) Hno. split_and!; try done.
  - intros k n. rewrite Hu. split; intros [Hin Hn]; (split; [done|]); intros (Hr & i & l & Hw); apply Hn.
    + assert (n <> j) by (intros ->; by apply (Hno k i l)). split; [lia|by exists i, l].
    + split; [lia|by exists i, l].
  - intros i b item Hi. destruct (Ht i b item Hi) as [Hb Hitem]. split.
    + rewrite Hb. split; intros (k & n & l & Hr & Hw); exists k, n, l; (split; [|done]); [lia|]. assert (n <> j) by (intros ->; by apply (Hno k i l)). lia.
    + intros k l. rewrite Hitem. split; intros (Hlr & n & Hr & Hw); (split; [done|]); exists n; (split; [|done]); [lia|].
      assert (n <> j) by (intros ->; by apply (Hno k i l)). lia.
Qed.

Lemma dispatch_mark given sets s j c b : dispatched given sets s j c ->
  dispatched given sets s j (if b : bool then SelectCtx (mark_select j (sel_state c)) (triples c) (socket c) (user c) else c).
Proof. intros (? & ?). destruct b; [|done]. split; [|done]. etransitivity; [done|apply mark_same]. Qed.

Lemma dispatch_fd_spec given sets s j c : vfs_ok s -> 0 <= j -> (forall fd k, esp_vfs_safe_fd_isset given k fd sets = true -> permanent (fd_at fd s) = false) ->
  dispatched given sets s j c -> exists c', dispatch_fd given j c = Some c' /\ dispatched given sets s (j + 1) c'.
Proof.
  intros Hok Hj Hsock Hd. pose proof Hd as (Hs & _). destruct Hs as (_ & Hr). specialize (Hr j) as (Ep & Ei & El).
  unfold dispatch_fd. apply (dispatch_mark _ _ _ _ _ (esp_vfs_safe_fd_isset given ERROR j (user c))) in Hd. set (c1 := if esp_vfs_safe_fd_isset _ _ _ _ then _ else c) in *.
  clearbody c1. rewrite Ep, Ei, El. pose proof Hd as (_ & Hk & Hl & Hu & Ht).
  assert (forall k, esp_vfs_safe_fd_isset given k j (user c1) = esp_vfs_safe_fd_isset given k j sets) as Hsame.
  { intros k. apply eq_true_iff_eq. rewrite !isset_spec, Hu. split; [tauto|]. intros (? & ? & ?). split_and!; (done || lia || (intros [? _]; lia)). }
  destruct (Z.ltb_spec (vfs_index (fd_at j s)) 0) as [Hneg|Hpos].
  { exists c1. split; [done|]. apply dispatch_quiet; [done..|]. intros k i l (_ & _ & Hw & _). lia. }
  destruct (permanent (fd_at j s)) eqn:Eperm.
  { rewrite Hk. replace (existsb _ kinds) with false.
    - exists c1. split; [done|]. apply dispatch_quiet; [done..|]. intros k i l (_ & Hw & _). congruence.
    - symmetry. apply not_true_is_false. intros (k & _ & Hi)%existsb_exists. rewrite Hsame in Hi. apply Hsock in Hi. congruence. }
  destruct (fd_at_ok j s Hok) as [Hx _]. rewrite Hl, (proj2 (Z.ltb_lt _ _)) by lia. eexists. split; [done|].
  assert (NoDup kinds) as Hnd by (apply (bool_decide_unpack _); by vm_compute).
  destruct (move_fds_spec given (Z.to_nat (vfs_index (fd_at j s))) j (local_fd (fd_at j s)) kinds c1 Hnd) as (E1 & E2 & E3 & Hu' & Ht').
  set (c2 := foldl _ _ _) in *. clearbody c2.
  assert (forall k i l, wants given sets s k j i l <-> i = Z.to_nat (vfs_index (fd_at j s)) /\ k ∈ kinds /\ l = local_fd (fd_at j s) /\ esp_vfs_safe_fd_isset given k j (user c1) = true) as Hw.
  { intros k i l. unfold wants. rewrite Hsame, Eperm. split; [intros (? & _ & ? & ?); split_and!; [lia|destruct k; set_solver|done..]|]. intros (-> & _ & -> & ?). split_and!; (done || lia). }
  destruct Hd as (Hs1 & _). split_and!; [by rewrite E1|congruence|congruence| |].
  - intros k n. rewrite Hu', Hu. split.
    + intros [[Hin Hn] Hn']. split; [done|]. intros (Hr & i & l & Hwn). destruct (decide (n = j)) as [->|]; [|apply Hn; split; [lia|by exists i, l]].
      apply Hn'. apply Hw in Hwn. tauto.
    + intros [Hin Hn]. split; [split; [done|]; intros (Hr & Hwn); apply Hn; split; [lia|done]|]. intros (Hkk & -> & Hi). apply Hn. split; [lia|].
      eexists _, _. apply Hw. done.
  - intros i b item Hi. assert (is_Some (triples c1 !! i)) as [[b1 item1] Hi1] by (apply lookup_lt_is_Some; rewrite <-E3; by eapply lookup_lt_Some).
    destruct (Ht' i b1 item1 Hi1) as (b' & item' & Hi' & Hb' & Hitem'). rewrite Hi in Hi'. injection Hi' as <- <-. destruct (Ht i b1 item1 Hi1) as [Hb Hitem]. split.
    + rewrite Hb', Hb. split.
      * intros [(k & n & l & ? & ?)|(-> & k & Hkk & Hkj)]; [exists k, n, l; split; [lia|done]|]. exists k, j, (local_fd (fd_at j s)). split; [lia|]. by apply Hw.
      * intros (k & n & l & ? & Hwn). destruct (decide (n = j)) as [->|]; [right|left; exists k, n, l; split; [lia|done]]. apply Hw in Hwn. split; [tauto|]. exists k. tauto.
    + intros k l. rewrite Hitem', Hitem. rewrite range_snoc by done. rewrite Hw. split; [|intros (? & [(n & ? & ?)|(-> & ? & -> & ?)]); [left; split; [done|by exists n]|right; tauto]].
      intros [(? & n & ? & ?)|(-> & Hkk & -> & ? & ?)]; [split; [done|left; by exists n]|split; [done|right; tauto]].
Qed.

Lemma dispatch_loop_spec given sets s n : forall j c, vfs_ok s -> 0 <= j -> (forall fd k, esp_vfs_safe_fd_isset given k fd sets = true -> permanent (fd_at fd s) = false) ->
  dispatched given sets s j c -> exists c', dispatch_loop n given j c = Some c' /\ dispatched given sets s (j + n) c'.
Proof.
  induction n as [|n IH]; intros j c Hok Hj Hsock Hd; cbn [dispatch_loop]; [exists c; by rewrite Z.add_0_r|].
  destruct (dispatch_fd_spec given sets s j c Hok Hj Hsock Hd) as (c1 & -> & Hd1). destruct (IH (j + 1) c1) as (c2 & E & Hd2); [done|lia|done..|].
  exists c2. split; [done|]. by replace (j + S n) with (j + 1 + n) by lia.
Qed.

(** ** Collecting what was found *)

(** Adding [(k, n)] for the [k] of [ks] that are in [item] under [l], with the count. *)
Lemma collect_kinds given n l item ks : 0 <= n < FD_SETSIZE -> NoDup ks -> forall r : Z * fd_sets, (forall k, k ∈ ks -> (k, n) ∉ snd r) ->
  let r' := foldl (fun r k => if esp_vfs_safe_fd_isset given k l item then (fst r + 1, FD_SET k n (snd r)) else r) r ks in
  (forall k m, (k, m) ∈ snd r' <-> (k, m) ∈ snd r \/ m = n /\ k ∈ ks /\ esp_vfs_safe_fd_isset given k l item = true) /\
  fst r' - size (snd r') = fst r - size (snd r).
Proof.
  intros Hn. induction ks as [|k0 ks IH]; intros Hd r Hno; cbn [foldl].
  - split; [|done]. intros k m. set_solver.
  - apply NoDup_cons in Hd as [Hk0 Hd]. destruct (esp_vfs_safe_fd_isset given k0 l item) eqn:E.
    + destruct (IH Hd (fst r + 1, FD_SET k0 n (snd r))) as [Hin Hsz].
      { intros k Hk. cbn [snd]. rewrite FD_SET_spec. intros [H|(-> & _)]; [by apply (Hno k); [set_solver|]|done]. }
      split.
      * intros k m. rewrite Hin. cbn [snd]. rewrite FD_SET_spec. split; [intros [[|(-> & -> & _)]|(-> & Hk & ?)]; [auto|right; set_solver|right; set_solver]|].
        intros [|(-> & Hk & ?)]; [auto|]. apply elem_of_cons in Hk as [->|Hk]; auto.
      * rewrite Hsz. cbn [fst snd]. unfold FD_SET. rewrite (proj2 (Z.leb_le _ _)), (proj2 (Z.ltb_lt _ _)) by lia. cbn [andb].
        rewrite size_union, size_singleton; [lia|]. apply disjoint_singleton_l, Hno. set_solver.
    + destruct (IH Hd r) as [Hin Hsz]; [intros k Hk; apply Hno; set_solver|]. split; [|done]. intros k m. rewrite Hin.
      split; (intros [|(-> & Hk & ?)]; [auto|right; split; [done|]; split; [|done]]); [set_solver|]. apply elem_of_cons in Hk as [->|Hk]; [congruence|done].
Qed.

Lemma kinds_NoDup : NoDup kinds.
Proof. apply (bool_decide_unpack _). by vm_compute. Qed.

Lemma kinds_all k : k ∈ kinds.
Proof. destruct k; set_solver. Qed.

Lemma set_driver_fds_spec given (i : nat) item t : forall fd (r : Z * fd_sets), 0 <= fd -> fd + length t <= FD_SETSIZE ->
  (forall (j : nat) e k, t !! j = Some e -> vfs_index e = i -> (k, fd + j) ∉ snd r) ->
  let r' := set_driver_fds given t fd i item r in
  (forall k m, (k, m) ∈ snd r' <-> (k, m) ∈ snd r \/ exists (j : nat) e, t !! j = Some e /\ m = fd + j /\ vfs_index e = i /\ esp_vfs_safe_fd_isset given k (local_fd e) item = true) /\
  fst r' - size (snd r') = fst r - size (snd r).
Proof.
  induction t as [|e t IH]; intros fd r Hfd Hlen Hno; cbn [set_driver_fds].
  - split; [|done]. intros k m. split; [auto|]. intros [|(j & e & ? & _)]; [done|]. by rewrite lookup_nil in *.
  - cbn [length] in Hlen. set (r1 := if vfs_index e =? i then _ else r).
    assert ((forall k m, (k, m) ∈ snd r1 <-> (k, m) ∈ snd r \/ m = fd /\ vfs_index e = i /\ esp_vfs_safe_fd_isset given k (local_fd e) item = true) /\
      fst r1 - size (snd r1) = fst r - size (snd r)) as [H1 H2].
    { subst r1. destruct (Z.eqb_spec (vfs_index e) i) as [Ei|Ei]; [|split; [|done]; intros k m; split; [auto|]; intros [|(_ & ? & _)]; done].
      destruct (collect_kinds given fd (local_fd e) item kinds ltac:(lia) kinds_NoDup r) as [Hin Hsz].
      { intros k _. specialize (Hno 0%nat e k eq_refl Ei). by rewrite Z.add_0_r in Hno. }
      split; [|done]. intros k m. rewrite Hin. pose proof (kinds_all k). tauto. }
    destruct (IH (fd + 1) r1) as [Hin Hsz]; [lia|lia| |].
    { intros j e' k Hj Ei. rewrite H1. intros [H|(H & _)]; [|lia]. apply (Hno (S j) e' k Hj Ei). by replace (fd + S j) with (fd + 1 + j) by lia. }
    split; [|lia]. intros k m. rewrite Hin, H1. split.
    + intros [[|(-> & ? & ?)]|(j & e' & Hj & -> & ? & ?)]; [auto|right; exists 0%nat, e; rewrite Z.add_0_r; done|]. right. exists (S j), e'. split; [done|]. split; [lia|done].
    + intros [|([|j] & e' & Hj & -> & ? & ?)]; [auto| |].
      * injection Hj as ->. left. right. by rewrite Z.add_0_r.
      * right. exists j, e'. split; [done|]. split; [lia|done].
Qed.

(** Driver [i0 + i] has found [fd] for [k], under its own number of it. *)
Definition found (given : set_kind -> bool) (t : list fd_table_t) (trs : list fds_triple_t) (i0 : nat) (k : set_kind) (fd : Z) : Prop :=
  exists i j e item, t !! j = Some e /\ fd = Z.of_nat j /\ vfs_index e = (i0 + i)%nat /\ trs !! i = Some (true, item) /\ esp_vfs_safe_fd_isset given k (local_fd e) item = true.

Lemma set_global_spec given t trs : length t = MAX_FDS -> forall (i0 : nat) (r : Z * fd_sets), (forall (j : nat) e k, t !! j = Some e -> i0 <= vfs_index e -> (k, Z.of_nat j) ∉ snd r) ->
  let r' := set_global_fd_sets given t trs i0 r in
  (forall k m, (k, m) ∈ snd r' <-> (k, m) ∈ snd r \/ found given t trs i0 k m) /\ fst r' - size (snd r') = fst r - size (snd r).
Proof.
  intros Hl. induction trs as [|[b item] trs IH]; intros i0 r Hno; cbn [set_global_fd_sets].
  - split; [|done]. intros k m. split; [auto|]. intros [|(i & j & e & item & _ & _ & _ & H & _)]; [done|]. by rewrite lookup_nil in H.
  - set (r1 := if b : bool then _ else r).
    assert ((forall k m, (k, m) ∈ snd r1 <-> (k, m) ∈ snd r \/ b = true /\ exists j e, t !! j = Some e /\ m = Z.of_nat j /\ vfs_index e = i0 /\ esp_vfs_safe_fd_isset given k (local_fd e) item = true) /\
      fst r1 - size (snd r1) = fst r - size (snd r)) as [H1 H2].
    { subst r1. destruct b; [|split; [|done]; intros k m; split; [auto|]; intros [|[? _]]; done].
      destruct (set_driver_fds_spec given i0 item t 0 r) as [Hin Hsz]; [done|rewrite Hl; done| |].
      { intros j e k Hj Ei. apply (Hno j e k Hj). lia. }
      split; [|done]. intros k m. rewrite Hin. split; (intros [|H]; [auto|right]); [split; [done|]|destruct H as [_ H]]; done. }
    destruct (IH (S i0) r1) as [Hin Hsz].
    { intros j e k Hj Ei. rewrite H1. intros [H|(_ & j' & e' & Hj' & Hm & Ei' & _)]; [apply (Hno j e k Hj); [lia|done]|]. apply Nat2Z.inj in Hm. subst j'.
      rewrite Hj in Hj'. injection Hj' as <-. lia. }
    split; [|lia]. intros k m. rewrite Hin, H1. unfold found. split.
    + intros [[|(-> & j & e & Hj & -> & Ei & Hi)]|(i & j & e & it & Hj & -> & Ei & Hi & Hs)]; [auto| |].
      * right. exists 0%nat, j, e, item. split_and!; try done. by rewrite Nat.add_0_r.
      * right. exists (S i), j, e, it. split_and!; try done. by rewrite Nat.add_succ_r.
    + intros [|([|i] & j & e & it & Hj & -> & Ei & Hi & Hs)]; [auto| |].
      * injection Hi as -> ->. left. right. split; [done|]. exists j, e. rewrite Nat.add_0_r in Ei. done.
      * right. exists i, j, e, it. split_and!; try done. by rewrite Nat.add_succ_r in Ei.
Qed.

(** ** The whole call *)

Lemma call_end_selects_world n : forall i trs args s, exists w, call_end_selects n i trs args s = with_world w s.
Proof.
  induction n as [|n IH]; intros i trs args s; cbn [call_end_selects]; [exists (world s); by destruct s|].
  set (called := match get_entry i s with Some _ => _ | None => s end).
  assert (exists w, called = with_world w s) as [w ->].
  { subst called. assert (exists w, s = with_world w s) by (exists (world s); by destruct s). destruct (get_entry i s) as [v|]; [|done].
    destruct (end_select (vfs v)); [|done]. destruct (trs !! i) as [[[] ?]|]; [by eexists|done..]. }
  destruct (IH (S i) trs args (with_world w s)) as [w' ->]. by exists w'.
Qed.

(** Starting the drivers changes their sets and the drivers only. *)
Lemma start_selects_spec n : forall i nfds trs args s r trs' args' s', start_selects n i nfds trs args s = (r, trs', args', s') ->
  (exists w, s' = with_world w s) /\ length trs' = length trs /\ forall j, fst <$> trs' !! j = fst <$> trs !! j.
Proof.
  induction n as [|n IH]; intros i nfds trs args s r trs' args' s'; cbn [start_selects].
  - intros [= _ <- _ <-]. split; [exists (world s); by destruct s|done].
  - destruct (get_entry i s) as [v|]; [|apply IH]. destruct (start_select (vfs v)) as [f|]; [|apply IH]. destruct (trs !! i) as [[[] item]|] eqn:Ei; try apply IH.
    destruct (f nfds item (world s)) as [[[err arg] item'] w].
    assert (length (<[i := (true, item')]> trs) = length trs /\ forall j, fst <$> <[i := (true, item')]> trs !! j = fst <$> trs !! j) as [Hl Hf].
    { split; [apply length_insert|]. intros j. destruct (decide (i = j)) as [<-|]; [|by rewrite list_lookup_insert_ne].
      rewrite list_lookup_insert_eq by (by eapply lookup_lt_Some). by rewrite Ei. }
    destruct (is_ok err); cbn [negb]; [|intros [= _ <- _ <-]; split; [by exists w|done]].
    intros H. apply IH in H as ((w' & ->) & Hl' & Hf'). split; [by exists w'|]. split; [congruence|]. intros j. by rewrite Hf'.
Qed.

Lemma start_dispatched given sets s : dispatched given sets s 0 (SelectCtx s (replicate (s_vfs_count s) (false, ∅)) None sets).
Proof.
  split_and!; try done; cbn [triples user].
  - by rewrite length_replicate.
  - intros k n. split; [intros ?; split; [done|]; intros [? _]; lia|tauto].
  - intros i b item [[= -> ->] _]%lookup_replicate. split; [split; [done|]; intros (k & n & l & ? & _); lia|].
    intros k l. split; [set_solver|]. intros (_ & n & ? & _). lia.
Qed.

(** What is found in the end is what was wanted and answered for. *)
Lemma found_answers given sets s env c trs s2 k fd nfds : vfs_ok s -> nfds <= MAX_FDS ->
  (forall fd fd', 0 <= fd < MAX_FDS -> 0 <= fd' < MAX_FDS -> 0 <= vfs_index (fd_at fd s) -> vfs_index (fd_at fd s) = vfs_index (fd_at fd' s) ->
     local_fd (fd_at fd s) = local_fd (fd_at fd' s) -> fd = fd') ->
  (forall i asked started, signal env i asked started ⊆ asked) -> dispatched given sets s nfds c ->
  length trs = length (triples c) -> (forall j, fst <$> trs !! j = fst <$> triples c !! j) -> same_routes s s2 ->
  let answer i := signal env i (snd (default (false, ∅) (triples c !! i))) (snd (default (false, ∅) (trs !! i))) in
  (k, fd) ∈ (∅ : fd_sets) \/ found given (s_fd_table s2) (imap (fun i t => (fst t, if fst t : bool then answer i else snd t)) trs) 0 k fd <->
  exists i l, 0 <= fd < nfds /\ wants given sets s k fd i l /\ (k, l) ∈ answer i.
Proof.
  intros Hok Hn Hdist Hhon (_ & _ & Hlc & _ & Ht) Hlt Hft (Hlen & Hroute) answer. rewrite (ok_fds _ Hok) in Hlen.
  assert (forall (j : nat) e, s_fd_table s2 !! j = Some e -> e = fd_at j s2 /\ 0 <= j < MAX_FDS) as Hat.
  { intros j e Hj. unfold fd_at. rewrite Nat2Z.id, Hj. split; [done|]. apply lookup_lt_Some in Hj. lia. }
  split.
  - intros [?|(i & j & e & item & Hj & -> & Ei & Hi & Hset)]; [set_solver|]. destruct (Hat _ _ Hj) as [-> Hr]. rewrite Nat.add_0_l in Ei.
    rewrite list_lookup_imap in Hi. destruct (trs !! i) as [[b started]|] eqn:Etr; [|done]. cbn in Hi. injection Hi as -> <-.
    apply isset_spec in Hset as (Hgiven & Hrange & Hin). destruct (Hroute j) as (_ & E1 & E2). rewrite E1 in Ei. rewrite E2 in Hin.
    specialize (Hft i). rewrite Etr in Hft. destruct (triples c !! i) as [[b asked]|] eqn:Etc; [|done]. cbn in Hft. injection Hft as <-.
    assert ((k, local_fd (fd_at j s)) ∈ asked) as Hasked by (apply (Hhon i asked started); unfold answer in Hin; by rewrite Etc, Etr in Hin).
    apply (Ht i true asked Etc) in Hasked as (_ & m & Hm & Hw). exists i, (local_fd (fd_at j s)).
    assert (m = Z.of_nat j) as ->; [|split; [exact Hm|]; split; [exact Hw|exact Hin]]. destruct Hw as (_ & _ & Hw1 & Hw2). apply Hdist; (done || lia || congruence).
  - intros (i & l & Hr & Hw & Hin). right. pose proof Hw as (Hset & _ & Ei & El).
    assert (i < s_vfs_count s)%nat as Hi by (destruct (fd_at_ok fd s Hok) as [? _]; lia).
    destruct (lookup_lt_is_Some_2 (triples c) i) as [[b asked] Etc]; [by rewrite Hlc|]. destruct (lookup_lt_is_Some_2 trs i) as [[b' started] Etr]; [by rewrite Hlt, Hlc|].
    destruct (Ht i b asked Etc) as [Hb Hasked]. assert (b = true) as -> by (apply Hb; by exists k, fd, l).
    specialize (Hft i). rewrite Etr, Etc in Hft. cbn in Hft. injection Hft as ->.
    destruct (lookup_lt_is_Some_2 (s_fd_table s2) (Z.to_nat fd)) as [e He]; [rewrite Hlen; lia|]. destruct (Hat _ _ He) as [-> _]. rewrite Z2Nat.id in He by lia.
    destruct (Hroute fd) as (_ & E1 & E2). exists i, (Z.to_nat fd), (fd_at fd s2), (answer i). split_and!; [done|lia|by rewrite E1, Ei| |].
    + rewrite list_lookup_imap, Etr. done.
    + apply isset_spec in Hset as (Hgiven & _ & _). rewrite E2, El. apply isset_spec. split; [done|]. split; [|done].
      assert ((k, l) ∈ asked) as Hk by (apply (Hhon i asked started); unfold answer in Hin; by rewrite Etc, Etr in Hin). apply Hasked in Hk. apply Hk.
Qed.


End Select.

(** ** Two drivers that can be watched *)

Module SelectExample.

(** The drivers note that they are started and stopped. *)
Inductive note := Started (n : Z) | Ended (n : Z) | Called (n : Z).

(** Driver [n] gives every file the number [n]; [err] is the answer of [start_select]. *)
Definition driver (n : Z) (err : esp_err_t) : esp_vfs_t (list note) :=
  EspVfs 0 (fun f => Some (fun _ w => (n, Called n :: w))) (Some (fun _ _ w => (err, n, ∅, Started n :: w))) None None
    (Some (fun arg w => (ESP_OK, Ended arg :: w))).

Definition a : list Z := [47; 97].
Definition b : list Z := [47; 98].

Definition mounted (err : esp_err_t) : list (vfs_op (list note)) := [Register a (driver 11 ESP_OK) 0 true; Register b (driver 12 err) 0 true; Open a 0 0; Open b 0 0].
Definition state (err : esp_err_t) (w : list note) : vfs_state (list note) := default (vfs_start []) (run_ops (mounted err) (vfs_start w)).

Definition all (_ : set_kind) : bool := true.

(** The first driver finds all that it is asked for, the second nothing. *)
Definition quiet_wait : waiting (W := list note) := Waiting true true true id (fun i asked _ => if (i =? 0)%nat then asked else ∅).

Definition outcome (r : option (vfs_result * fd_sets * vfs_state (list note))) : option (vfs_result * list (set_kind * Z)) :=
  (fun r => (fst (fst r), elements (snd (fst r)))) <$> r.
Definition after (r : option (vfs_result * fd_sets * vfs_state (list note))) (s : vfs_state (list note)) : vfs_state (list note) := from_option snd s r.

Definition asked : fd_sets := {[(READ, 0); (WRITE, 1); (ERROR, 1)]}.

Lemma mounted_reachable : reachable (state ESP_OK []).
Proof. exists [], (mounted ESP_OK). vm_compute. reflexivity. Qed.

Lemma mounted_fds fd : permanent (fd_at fd (state ESP_OK [])) = false /\ (0 <= vfs_index (fd_at fd (state ESP_OK [])) -> Z.to_nat fd = 0%nat /\ vfs_index (fd_at fd (state ESP_OK [])) = 0 \/
  Z.to_nat fd = 1%nat /\ vfs_index (fd_at fd (state ESP_OK [])) = 1).
Proof.
  unfold fd_at. assert (s_fd_table (state ESP_OK []) = [FdEntry false false false 0 11; FdEntry false false false 1 12] ++ replicate 62 FD_TABLE_ENTRY_UNUSED) as -> by (vm_compute; reflexivity).
  destruct (Z.to_nat fd) as [|[|n]]; [split; [done|by left]|split; [done|by right]|]. cbn [app]. rewrite !lookup_cons.
  destruct (replicate 62 FD_TABLE_ENTRY_UNUSED !! n) as [e|] eqn:E; [apply lookup_replicate in E as [-> _]|]; (split; [done|]); cbn; lia.
Qed.


(** A descriptor that has been watched for errors is not given up when it is
    closed afterwards: calls on it still reach the driver. *)
Example watched_descriptor_not_closed :
  let s := after (esp_vfs_select 2 all {[(ERROR, 1)]} quiet_wait (state ESP_OK [])) (state ESP_OK []) in
  let s := snd (esp_vfs_close 1 s) in fst (fd_call F_read 1 [] s) = Ret 12.
Proof. vm_compute. reflexivity. Qed.

(** A driver that answers ESP_ERR_NOT_SUPPORTED leaves those before it started. *)
Example started_not_ended :
  let s := state ESP_ERR_NOT_SUPPORTED [] in
  let r := esp_vfs_select 2 all asked quiet_wait s in
  fst <$> outcome r = Some (Err EINTR) /\ take 2 (world (after r s)) = [Started 12; Started 11].
Proof. vm_compute. done. Qed.

End SelectExample.
