(* ===== verification/MmuHal.v ===== *)
(** * The MMU of external memory on the ESP32-S3 ([hal/mmu_hal.c],
    [hal/esp32s3/include/hal/mmu_ll.h])

    A table of 512 entries maps pages of 64 KiB of the linear address space of
    32 MiB to pages of flash or of external RAM; the linear space is seen at one
    address by the data bus and at another by the instruction bus. What is done
    to the table, the caches and their buses is also kept as a log. *)

From S2P Require Import Prelude.

#[local] Open Scope abort_scope.

(** ** Constants ([soc/esp32s3/include/soc/ext_mem_defs.h], [hal/mmu_types.h]) *)

Definition SOC_IRAM0_CACHE_ADDRESS_LOW : Z := 0x42000000.
Definition SOC_IRAM0_CACHE_ADDRESS_HIGH : Z := 0x44000000.
Definition SOC_DRAM0_CACHE_ADDRESS_LOW : Z := 0x3C000000.
Definition SOC_DRAM0_CACHE_ADDRESS_HIGH : Z := 0x3E000000.

Definition SOC_ADDRESS_IN_IRAM0_CACHE (vaddr : Z) : bool :=
  (SOC_IRAM0_CACHE_ADDRESS_LOW <=? vaddr) && (vaddr <? SOC_IRAM0_CACHE_ADDRESS_HIGH).
Definition SOC_ADDRESS_IN_DRAM0_CACHE (vaddr : Z) : bool :=
  (SOC_DRAM0_CACHE_ADDRESS_LOW <=? vaddr) && (vaddr <? SOC_DRAM0_CACHE_ADDRESS_HIGH).

Definition SOC_MMU_INVALID : Z := 2 ^ 14.
Definition SOC_MMU_VALID : Z := 0.
Definition SOC_MMU_TYPE : Z := 2 ^ 15.
Definition SOC_MMU_ACCESS_FLASH : Z := 0.
Definition SOC_MMU_ACCESS_SPIRAM : Z := 2 ^ 15.
Definition SOC_MMU_VALID_VAL_MASK : Z := 0x3fff.
Definition SOC_MMU_MAX_PADDR_PAGE_NUM : Z := 16384.
Definition SOC_MMU_VADDR_MASK : Z := 0x1FFFFFF.
Definition SOC_MMU_ENTRY_NUM : Z := 512.
Definition SOC_MMU_DBUS_VADDR_BASE : Z := 0x3C000000.
Definition SOC_MMU_IBUS_VADDR_BASE : Z := 0x42000000.
Definition SOC_MMU_LINEAR_ADDR_MASK : Z := 0x1FFFFFF.

Definition MMU_PAGE_16KB : Z := 0x4000.
Definition MMU_PAGE_32KB : Z := 0x8000.
Definition MMU_PAGE_64KB : Z := 0x10000.
Definition MMU_VADDR_DATA : Z := 1.
Definition MMU_VADDR_INSTRUCTION : Z := 2.
Definition MMU_TARGET_FLASH0 : Z := 1.
Definition MMU_TARGET_PSRAM0 : Z := 2.

(** [flags & bit] *)
Definition has_flag (flags bit : Z) : bool := negb (Z.land flags bit =? 0).

(** ** The hardware *)

Inductive hw_event :=
| CachesOff                         (** with the interrupts and the other core *)
| CachesOn
| EntryWritten (entry_id val : Z)
| BusEnabled (cache_id mask : Z)
| Invalidated (vaddr size : Z).

Record mmu_hw := { mmu_table : list Z; mmu_log : list hw_event }.

Definition with_event (e : hw_event) (hw : mmu_hw) : mmu_hw :=
  {| mmu_table := mmu_table hw; mmu_log := mmu_log hw ++ [e] |}.

(** ** The low level *)

Definition mmu_ll_vaddr_to_laddr (vaddr : Z) : Z := Z.land vaddr SOC_MMU_LINEAR_ADDR_MASK.

Definition mmu_ll_laddr_to_vaddr (laddr vaddr_type : Z) : Z :=
  let vaddr_base := if vaddr_type =? MMU_VADDR_DATA then SOC_MMU_DBUS_VADDR_BASE else SOC_MMU_IBUS_VADDR_BASE in
  Z.lor vaddr_base laddr.

Definition mmu_ll_get_page_size : Z := MMU_PAGE_64KB.

Definition mmu_ll_check_valid_ext_vaddr_region (vaddr_start len type : Z) : bool :=
  let vaddr_end := u32 (vaddr_start + len - 1) in
  (has_flag type MMU_VADDR_INSTRUCTION && (SOC_ADDRESS_IN_IRAM0_CACHE vaddr_start && SOC_ADDRESS_IN_IRAM0_CACHE vaddr_end))
  || (has_flag type MMU_VADDR_DATA && (SOC_ADDRESS_IN_DRAM0_CACHE vaddr_start && SOC_ADDRESS_IN_DRAM0_CACHE vaddr_end)).

Definition mmu_ll_check_valid_paddr_region (paddr_start len : Z) : bool :=
  (paddr_start <? mmu_ll_get_page_size * SOC_MMU_MAX_PADDR_PAGE_NUM)
  && (len <? mmu_ll_get_page_size * SOC_MMU_MAX_PADDR_PAGE_NUM)
  && (u32 (paddr_start + len - 1) <? mmu_ll_get_page_size * SOC_MMU_MAX_PADDR_PAGE_NUM).

Definition mmu_ll_get_entry_id (vaddr : Z) : Z := Z.shiftr (Z.land vaddr SOC_MMU_VADDR_MASK) 16.

Definition mmu_ll_format_paddr (paddr : Z) : Z := Z.shiftr paddr 16.

(** The entries are the 512 words at [DR_REG_MMU_TABLE]. *)
Definition mmu_ll_read_entry (hw : mmu_hw) (entry_id : Z) : option Z :=
  assert! entry_id <? SOC_MMU_ENTRY_NUM ;;
  mmu_table hw !! Z.to_nat entry_id.

Definition set_entry (hw : mmu_hw) (entry_id val : Z) : option mmu_hw :=
  assert! entry_id <? SOC_MMU_ENTRY_NUM ;;
  Some {| mmu_table := <[Z.to_nat entry_id := val]> (mmu_table hw);
          mmu_log := mmu_log hw ++ [EntryWritten entry_id val] |}.

Definition entry_of (mmu_val target : Z) : Z :=
  let target_code := if target =? MMU_TARGET_FLASH0 then SOC_MMU_ACCESS_FLASH else SOC_MMU_ACCESS_SPIRAM in
  Z.lor (Z.lor mmu_val target_code) SOC_MMU_VALID.

Definition mmu_ll_write_entry (hw : mmu_hw) (entry_id mmu_val target : Z) : option mmu_hw :=
  set_entry hw entry_id (entry_of mmu_val target).

Definition mmu_ll_set_entry_invalid (hw : mmu_hw) (entry_id : Z) : option mmu_hw :=
  set_entry hw entry_id SOC_MMU_INVALID.

Fixpoint invalidate_entries (ids : list nat) (hw : mmu_hw) : option mmu_hw :=
  match ids with
  | [] => Some hw
  | i :: ids => let! hw := mmu_ll_set_entry_invalid hw i in invalidate_entries ids hw
  end.

Definition mmu_ll_unmap_all (hw : mmu_hw) : option mmu_hw :=
  invalidate_entries (seq 0 (Z.to_nat SOC_MMU_ENTRY_NUM)) hw.

Definition mmu_ll_check_entry_valid (hw : mmu_hw) (entry_id : Z) : option bool :=
  let! e := mmu_ll_read_entry hw entry_id in
  Some (negb (has_flag e SOC_MMU_INVALID)).

(** The type bit becomes a [bool] before it is compared. *)
Definition mmu_ll_get_entry_target (hw : mmu_hw) (entry_id : Z) : option Z :=
  let! e := mmu_ll_read_entry hw entry_id in
  let target_code := if has_flag e SOC_MMU_TYPE then 1 else 0 in
  Some (if target_code =? SOC_MMU_ACCESS_FLASH then MMU_TARGET_FLASH0 else MMU_TARGET_PSRAM0).

Definition mmu_ll_entry_id_to_paddr_base (hw : mmu_hw) (entry_id : Z) : option Z :=
  let! e := mmu_ll_read_entry hw entry_id in
  Some (u32 (Z.shiftl (Z.land e SOC_MMU_VALID_VAL_MASK) 16)).

(** The first entry from [i] on that is valid and has this target and value. *)
Fixpoint find_entry_loop (n : nat) (i : Z) (hw : mmu_hw) (mmu_val target : Z) : option Z :=
  match n with
  | O => Some (-1)
  | S n =>
      let! valid := mmu_ll_check_entry_valid hw i in
      let! t := mmu_ll_get_entry_target hw i in
      let! e := mmu_ll_read_entry hw i in
      if valid && (t =? target) && (Z.land e SOC_MMU_VALID_VAL_MASK =? mmu_val) then Some i
      else find_entry_loop n (i + 1) hw mmu_val target
  end.

Definition mmu_ll_find_entry_id_based_on_map_value (hw : mmu_hw) (mmu_val target : Z) : option Z :=
  find_entry_loop (Z.to_nat SOC_MMU_ENTRY_NUM) 0 hw mmu_val target.

Definition mmu_ll_entry_id_to_vaddr_base (entry_id type : Z) : Z :=
  mmu_ll_laddr_to_vaddr (u32 (Z.shiftl entry_id 16)) type.

(** ** The hardware abstraction *)

Definition shift_code (page_size : Z) : option Z :=
  if page_size =? MMU_PAGE_64KB then Some 16
  else if page_size =? MMU_PAGE_32KB then Some 15
  else if page_size =? MMU_PAGE_16KB then Some 14
  else None.

Definition mmu_hal_pages_to_bytes (page_num : Z) : option Z :=
  let! s := shift_code mmu_ll_get_page_size in Some (u32 (Z.shiftl page_num s)).

Definition mmu_hal_bytes_to_pages (bytes : Z) : option Z :=
  let! s := shift_code mmu_ll_get_page_size in Some (Z.shiftr bytes s).

(** On both cores: the chip has one table for them. *)
Definition mmu_hal_unmap_all (hw : mmu_hw) : option mmu_hw :=
  let! hw := mmu_ll_unmap_all hw in mmu_ll_unmap_all hw.

Definition mmu_hal_init (hw : mmu_hw) : option mmu_hw :=
  assert! MMU_PAGE_64KB =? mmu_ll_get_page_size ;; mmu_hal_unmap_all hw.

Definition mmu_hal_check_valid_ext_vaddr_region : Z -> Z -> Z -> bool := mmu_ll_check_valid_ext_vaddr_region.

Fixpoint map_loop (page_num : nat) (hw : mmu_hw) (page_size vaddr mmu_val mem_type : Z) : option mmu_hw :=
  match page_num with
  | O => Some hw
  | S n =>
      let! hw := mmu_ll_write_entry hw (mmu_ll_get_entry_id vaddr) mmu_val mem_type in
      map_loop n hw page_size (u32 (vaddr + page_size)) (u32 (mmu_val + 1)) mem_type
  end.

(** Returns the length that was mapped. *)
Definition mmu_hal_map_region (hw : mmu_hw) (mem_type vaddr paddr len : Z) : option (Z * mmu_hw) :=
  let! page_size := mmu_hal_pages_to_bytes 1 in
  assert! vaddr mod page_size =? 0 ;;
  assert! paddr mod page_size =? 0 ;;
  assert! mmu_ll_check_valid_paddr_region paddr len ;;
  assert! mmu_hal_check_valid_ext_vaddr_region vaddr len (Z.lor MMU_VADDR_DATA MMU_VADDR_INSTRUCTION) ;;
  let page_num := u32 (len + page_size - 1) / page_size in
  let! out_len := mmu_hal_pages_to_bytes page_num in
  let! hw := map_loop (Z.to_nat page_num) hw page_size vaddr (mmu_ll_format_paddr paddr) mem_type in
  Some (out_len, hw).

Fixpoint unmap_loop (page_num : nat) (hw : mmu_hw) (page_size vaddr : Z) : option mmu_hw :=
  match page_num with
  | O => Some hw
  | S n =>
      let! hw := mmu_ll_set_entry_invalid hw (mmu_ll_get_entry_id vaddr) in
      unmap_loop n hw page_size (u32 (vaddr + page_size))
  end.

Definition mmu_hal_unmap_region (hw : mmu_hw) (vaddr len : Z) : option mmu_hw :=
  let! page_size := mmu_hal_pages_to_bytes 1 in
  assert! vaddr mod page_size =? 0 ;;
  assert! mmu_hal_check_valid_ext_vaddr_region vaddr len (Z.lor MMU_VADDR_DATA MMU_VADDR_INSTRUCTION) ;;
  let page_num := u32 (len + page_size - 1) / page_size in
  unmap_loop (Z.to_nat page_num) hw page_size vaddr.

(** [None] inside: the page is not mapped; otherwise the physical address and
    its target. *)
Definition mmu_hal_vaddr_to_paddr (hw : mmu_hw) (vaddr : Z) : option (option (Z * Z)) :=
  assert! mmu_hal_check_valid_ext_vaddr_region vaddr 1 (Z.lor MMU_VADDR_DATA MMU_VADDR_INSTRUCTION) ;;
  let entry_id := mmu_ll_get_entry_id vaddr in
  let! valid := mmu_ll_check_entry_valid hw entry_id in
  if negb valid then Some None
  else
    let! page_size := mmu_hal_pages_to_bytes 1 in
    let offset := vaddr mod page_size in
    let! target := mmu_ll_get_entry_target hw entry_id in
    let! paddr_base := mmu_ll_entry_id_to_paddr_base hw entry_id in
    Some (Some (Z.lor paddr_base offset, target)).

Definition mmu_hal_paddr_to_vaddr (hw : mmu_hw) (paddr target type : Z) : option (option Z) :=
  assert! mmu_ll_check_valid_paddr_region paddr 1 ;;
  let! entry_id := mmu_ll_find_entry_id_based_on_map_value hw (mmu_ll_format_paddr paddr) target in
  if entry_id =? -1 then Some None
  else
    let! page_size := mmu_hal_pages_to_bytes 1 in
    let offset := paddr mod page_size in
    let vaddr_base := mmu_ll_entry_id_to_vaddr_base entry_id type in
    if vaddr_base =? 0 then Some None
    else Some (Some (Z.lor vaddr_base offset)).

(** ** Addresses and entries *)

Definition PAGE : Z := 65536.
Definition LINEAR_SIZE : Z := 2 ^ 25.
Definition PAGES : Z := 512.

(** [v] is the address on one of the two buses of the linear address [l]. *)
Definition bus_addr (v l : Z) : Prop :=
  (v = SOC_MMU_DBUS_VADDR_BASE + l \/ v = SOC_MMU_IBUS_VADDR_BASE + l) /\ 0 <= l <= LINEAR_SIZE.

Lemma mask_linear v : Z.land v SOC_MMU_LINEAR_ADDR_MASK = v mod LINEAR_SIZE.
Proof. change SOC_MMU_LINEAR_ADDR_MASK with (Z.ones 25). by rewrite Z.land_ones. Qed.

Lemma bus_addr_mod v l : bus_addr v l -> l < LINEAR_SIZE -> v mod LINEAR_SIZE = l.
Proof.
  unfold bus_addr, LINEAR_SIZE, SOC_MMU_DBUS_VADDR_BASE, SOC_MMU_IBUS_VADDR_BASE. intros [[-> | ->] Hl] Hl'.
  - replace (0x3C000000 + l) with (l + 30 * 2 ^ 25) by lia. rewrite Z_mod_plus_full. apply Z.mod_small. lia.
  - replace (0x42000000 + l) with (l + 33 * 2 ^ 25) by lia. rewrite Z_mod_plus_full. apply Z.mod_small. lia.
Qed.

Lemma vaddr_to_laddr v l : bus_addr v l -> l < LINEAR_SIZE -> mmu_ll_vaddr_to_laddr v = l.
Proof. intros Hv Hl. unfold mmu_ll_vaddr_to_laddr. rewrite mask_linear. by apply bus_addr_mod. Qed.

Lemma get_entry_id v l : bus_addr v l -> l < LINEAR_SIZE -> mmu_ll_get_entry_id v = l / PAGE.
Proof.
  intros Hv Hl. unfold mmu_ll_get_entry_id. change SOC_MMU_VADDR_MASK with SOC_MMU_LINEAR_ADDR_MASK.
  rewrite mask_linear, (bus_addr_mod v l) by done. by rewrite Z.shiftr_div_pow2.
Qed.

Lemma lor_low a b n : 0 <= n -> 0 <= b < 2 ^ n -> Z.lor (a * 2 ^ n) b = a * 2 ^ n + b.
Proof.
  intros Hn Hb. apply Z.bits_inj'. intros i Hi. rewrite Z.lor_spec, <- Z.shiftl_mul_pow2, Z.shiftl_spec by lia.
  destruct (Z.ltb_spec i n) as [Hl|Hl].
  - rewrite Z.testbit_neg_r by lia. cbn [orb]. rewrite Z.shiftl_mul_pow2 by lia.
    rewrite <- (Z.mod_pow2_bits_low (a * 2 ^ n + b) n i) by lia. rewrite Z.add_comm, Z_mod_plus_full, Z.mod_small by lia. done.
  - rewrite (in_range_testbit n b i) by (unfold in_range; lia). rewrite orb_false_r.
    replace i with (i - n + n) at 2 by lia. rewrite <- Z.div_pow2_bits by lia.
    rewrite Z.shiftl_mul_pow2, Z.add_comm, Z_div_plus_full, Z.div_small by lia. done.
Qed.

Lemma laddr_to_vaddr l type : 0 <= l < LINEAR_SIZE -> bus_addr (mmu_ll_laddr_to_vaddr l type) l.
Proof.
  intros Hl. unfold mmu_ll_laddr_to_vaddr, bus_addr. split; [|lia].
  case_match; [left; apply (lor_low 30 l 25) | right; apply (lor_low 33 l 25)]; unfold LINEAR_SIZE in Hl; lia.
Qed.

Lemma bus_addr_page v k : bus_addr v (PAGE * k) -> v mod PAGE = 0.
Proof.
  unfold bus_addr, PAGE, SOC_MMU_DBUS_VADDR_BASE, SOC_MMU_IBUS_VADDR_BASE. intros [[-> | ->] _].
  - replace (0x3C000000 + 65536 * k) with ((15360 + k) * 65536) by lia. by rewrite Z_mod_mult.
  - replace (0x42000000 + 65536 * k) with ((16896 + k) * 65536) by lia. by rewrite Z_mod_mult.
Qed.

Lemma bus_addr_add v l n : bus_addr v l -> 0 <= n -> l + n <= LINEAR_SIZE -> bus_addr (u32 (v + n)) (l + n).
Proof.
  unfold bus_addr, LINEAR_SIZE, SOC_MMU_DBUS_VADDR_BASE, SOC_MMU_IBUS_VADDR_BASE. intros [Hv Hl] Hn Hs.
  rewrite u32_small by lia. lia.
Qed.

Lemma bus_addr_valid v l len :
  bus_addr v l -> 0 < len -> l + len <= LINEAR_SIZE ->
  mmu_hal_check_valid_ext_vaddr_region v len (Z.lor MMU_VADDR_DATA MMU_VADDR_INSTRUCTION) = true.
Proof.
  unfold bus_addr, LINEAR_SIZE, mmu_hal_check_valid_ext_vaddr_region, mmu_ll_check_valid_ext_vaddr_region,
    SOC_ADDRESS_IN_IRAM0_CACHE, SOC_ADDRESS_IN_DRAM0_CACHE, SOC_IRAM0_CACHE_ADDRESS_LOW, SOC_IRAM0_CACHE_ADDRESS_HIGH,
    SOC_DRAM0_CACHE_ADDRESS_LOW, SOC_DRAM0_CACHE_ADDRESS_HIGH, SOC_MMU_DBUS_VADDR_BASE, SOC_MMU_IBUS_VADDR_BASE.
  intros [Hv Hl] Hn Hs. rewrite u32_small by lia.
  change (has_flag _ MMU_VADDR_INSTRUCTION) with true. change (has_flag _ MMU_VADDR_DATA) with true. cbn [andb].
  destruct Hv as [-> | ->]; apply orb_true_iff; [right | left];
    rewrite !andb_true_iff, !Z.leb_le, !Z.ltb_lt; lia.
Qed.

(** What an entry says: the physical page and its target, if it is valid. *)
Definition decode (e : Z) : option (Z * Z) :=
  if has_flag e SOC_MMU_INVALID then None
  else Some (Z.land e SOC_MMU_VALID_VAL_MASK, if has_flag e SOC_MMU_TYPE then MMU_TARGET_PSRAM0 else MMU_TARGET_FLASH0).

Definition is_target (t : Z) : Prop := t = MMU_TARGET_FLASH0 \/ t = MMU_TARGET_PSRAM0.

Lemma has_flag_testbit e n : 0 <= n -> has_flag e (2 ^ n) = Z.testbit e n.
Proof.
  intros Hn. unfold has_flag. rewrite <- Z.shiftl_1_l.
  assert (Z.land e (Z.shiftl 1 n) = if Z.testbit e n then Z.shiftl 1 n else 0) as ->.
  { apply Z.bits_inj'. intros i Hi. rewrite Z.land_spec, !Z.shiftl_1_l, Z.pow2_bits_eqb by lia.
    destruct (Z.eqb_spec n i) as [-> | Hne].
    - rewrite andb_true_r. destruct (Z.testbit e i) eqn:E; [by rewrite Z.pow2_bits_true | by rewrite Z.bits_0].
    - rewrite andb_false_r. destruct (Z.testbit e n); [by rewrite Z.pow2_bits_false by lia | by rewrite Z.bits_0]. }
  destruct (Z.testbit e n); [|done]. rewrite Z.shiftl_1_l. apply negb_true_iff, Z.eqb_neq.
  pose proof (Z.pow_pos_nonneg 2 n). lia.
Qed.

Lemma decode_invalid : decode SOC_MMU_INVALID = None.
Proof. reflexivity. Qed.

Lemma decode_entry v t : 0 <= v < SOC_MMU_MAX_PADDR_PAGE_NUM -> is_target t -> decode (entry_of v t) = Some (v, t).
Proof.
  unfold SOC_MMU_MAX_PADDR_PAGE_NUM. intros Hv Ht.
  assert (Hlow : forall i, 14 <= i -> Z.testbit v i = false)
    by (intros i Hi; apply (in_range_testbit 14); [unfold in_range|..]; lia).
  assert (Hm : Z.land v (Z.ones 14) = v) by (rewrite Z.land_ones by lia; apply Z.mod_small; lia).
  assert (forall c, Z.land (Z.lor (Z.lor v c) SOC_MMU_VALID) SOC_MMU_VALID_VAL_MASK = Z.lor v (Z.land c SOC_MMU_VALID_VAL_MASK)) as Hval.
  { intros c. unfold SOC_MMU_VALID. rewrite Z.lor_0_r, Z.land_lor_distr_l. by change SOC_MMU_VALID_VAL_MASK with (Z.ones 14); rewrite Hm. }
  unfold decode, entry_of, SOC_MMU_INVALID, SOC_MMU_TYPE. rewrite !has_flag_testbit by lia.
  destruct Ht as [-> | ->].
  - change (MMU_TARGET_FLASH0 =? MMU_TARGET_FLASH0) with true. cbv iota. rewrite Hval, !Z.lor_spec, !Hlow by lia.
    change (Z.land SOC_MMU_ACCESS_FLASH SOC_MMU_VALID_VAL_MASK) with 0. by rewrite Z.lor_0_r.
  - change (MMU_TARGET_PSRAM0 =? MMU_TARGET_FLASH0) with false. cbv iota. rewrite Hval, !Z.lor_spec, !Hlow by lia.
    change (Z.land SOC_MMU_ACCESS_SPIRAM SOC_MMU_VALID_VAL_MASK) with 0. by rewrite Z.lor_0_r.
Qed.

(** ** What the table says of a linear address *)

Definition table_ok (hw : mmu_hw) : Prop := length (mmu_table hw) = 512%nat.

(** The physical address and the target that a linear address leads to. *)
Definition phys (hw : mmu_hw) (l : Z) : option (Z * Z) :=
  '(p, t) ← decode (mmu_table hw !!! Z.to_nat (l / PAGE)); Some (PAGE * p + l mod PAGE, t).

Lemma page_of_range l : 0 <= l < LINEAR_SIZE -> 0 <= l / PAGE < 512.
Proof. unfold LINEAR_SIZE, PAGE. intros Hl. split; [apply Z.div_pos; lia | apply Z.div_lt_upper_bound; lia]. Qed.

Lemma read_entry hw i : table_ok hw -> 0 <= i < 512 -> mmu_ll_read_entry hw i = Some (mmu_table hw !!! Z.to_nat i).
Proof.
  intros Hok Hi. unfold mmu_ll_read_entry. replace (i <? SOC_MMU_ENTRY_NUM) with true
    by (symmetry; apply Z.ltb_lt; unfold SOC_MMU_ENTRY_NUM; lia).
  apply list_lookup_lookup_total_lt. rewrite Hok. lia.
Qed.

Lemma bus_addr_offset v l : bus_addr v l -> v mod PAGE = l mod PAGE.
Proof.
  unfold bus_addr, PAGE, SOC_MMU_DBUS_VADDR_BASE, SOC_MMU_IBUS_VADDR_BASE. intros [[-> | ->] _].
  - replace (0x3C000000 + l) with (l + 15360 * 65536) by lia. by rewrite Z_mod_plus_full.
  - replace (0x42000000 + l) with (l + 16896 * 65536) by lia. by rewrite Z_mod_plus_full.
Qed.

Lemma land_val_range e : 0 <= Z.land e SOC_MMU_VALID_VAL_MASK < 2 ^ 14.
Proof. change SOC_MMU_VALID_VAL_MASK with (Z.ones 14). rewrite Z.land_ones by lia. apply Z.mod_pos_bound. lia. Qed.

Lemma vaddr_to_paddr_phys hw v l :
  table_ok hw -> bus_addr v l -> l < LINEAR_SIZE -> mmu_hal_vaddr_to_paddr hw v = Some (phys hw l).
Proof.
  intros Hok Hv Hl. pose proof (proj2 Hv). pose proof (page_of_range l ltac:(lia)) as Hp.
  unfold mmu_hal_vaddr_to_paddr. rewrite (bus_addr_valid v l 1) by (done || lia).
  rewrite (get_entry_id v l) by done.
  unfold mmu_ll_check_entry_valid, mmu_ll_get_entry_target, mmu_ll_entry_id_to_paddr_base. rewrite read_entry by done.
  unfold phys, decode. destruct (has_flag _ SOC_MMU_INVALID); [done|]. cbn [negb].
  change (mmu_hal_pages_to_bytes 1) with (Some PAGE). cbv beta iota.
  rewrite (bus_addr_offset v l) by done.
  pose proof (land_val_range (mmu_table hw !!! Z.to_nat (l / PAGE))) as Hr.
  rewrite Z.shiftl_mul_pow2, u32_small by lia. rewrite lor_low; [|lia|].
  - cbn [mbind option_bind]. rewrite (Z.mul_comm PAGE). by destruct (has_flag _ SOC_MMU_TYPE).
  - apply (Z.mod_pos_bound l PAGE). unfold PAGE. lia.
Qed.

(** ** Mapping and unmapping pages *)

(** Entries of the linear addresses from [lo] to [hi] are written; entries are
    made invalid. *)
Definition writes_in (lo hi : Z) (e : hw_event) : Prop := exists i val, e = EntryWritten i val /\ lo <= PAGE * i /\ PAGE * i + PAGE <= hi.
Definition clears (e : hw_event) : Prop := exists i, e = EntryWritten i SOC_MMU_INVALID.

Lemma set_entry_ok hw i val :
  table_ok hw -> 0 <= i < 512 ->
  set_entry hw i val = Some {| mmu_table := <[Z.to_nat i := val]> (mmu_table hw); mmu_log := mmu_log hw ++ [EntryWritten i val] |}.
Proof.
  intros _ Hi. unfold set_entry. by replace (i <? SOC_MMU_ENTRY_NUM) with true
    by (symmetry; apply Z.ltb_lt; unfold SOC_MMU_ENTRY_NUM; lia).
Qed.

(** The [n] entries from [k] on hold [f]; the others are as before. *)
Definition rewritten (hw hw' : mmu_hw) (k : Z) (n : nat) (f : Z -> Z) : Prop :=
  table_ok hw'
  /\ (forall j, 0 <= j -> mmu_table hw' !!! Z.to_nat j = if (k <=? j) && (j <? k + n) then f j else mmu_table hw !!! Z.to_nat j)
  /\ exists ws, mmu_log hw' = mmu_log hw ++ ws /\ Forall (fun e => exists j, k <= j < k + n /\ e = EntryWritten j (f j)) ws.

Lemma rewritten_none hw k f : table_ok hw -> rewritten hw hw k 0 f.
Proof.
  intros Hok. split_and!; [done | | exists []; by rewrite app_nil_r].
  intros j Hj. destruct ((k <=? j) && (j <? k + 0%nat)) eqn:E; [to_prop; lia | done].
Qed.

(** An entry is written, and then the ones after it. *)
Lemma rewritten_next hw hw' i val k n f :
  table_ok hw -> 0 <= k < 512 -> i = k -> val = f k ->
  rewritten {| mmu_table := <[Z.to_nat i := val]> (mmu_table hw); mmu_log := mmu_log hw ++ [EntryWritten i val] |} hw' (k + 1) n f ->
  rewritten hw hw' k (S n) f.
Proof.
  intros Hok Hk -> -> (Hok' & Ht & ws & Hl & Hw). split_and!; [done | | exists (EntryWritten k (f k) :: ws)].
  - intros j Hj. rewrite Ht by done. cbn [mmu_table]. destruct (Z.eq_dec j k) as [-> | Hne].
    + replace (k + 1 <=? k) with false by (symmetry; apply Z.leb_gt; lia). rewrite Z.leb_refl.
      replace (k <? k + S n) with true by (symmetry; apply Z.ltb_lt; lia). cbn [andb].
      apply list_lookup_total_insert_eq. rewrite Hok. lia.
    + rewrite list_lookup_total_insert_ne by lia.
      replace (k + S n) with (k + 1 + n) by lia. f_equal.
      destruct (Z.leb_spec (k + 1) j), (Z.leb_spec k j); cbn [andb]; try done; lia.
  - split; [|constructor; [exists k; split; [lia | done]|]; eapply Forall_impl; [exact Hw|]; intros e (j & Hj & ->); exists j; split; [lia | done]].
    rewrite Hl. cbn [mmu_log]. by rewrite <- app_assoc.
Qed.

Lemma insert_table_ok hw i val log :
  table_ok hw -> table_ok {| mmu_table := <[Z.to_nat i := val]> (mmu_table hw); mmu_log := log |}.
Proof. unfold table_ok. cbn. by rewrite length_insert. Qed.

Lemma map_loop_spec (n : nat) : forall hw v k val t,
  table_ok hw -> bus_addr v (PAGE * k) -> k + n <= PAGES -> 0 <= val -> val + n <= SOC_MMU_MAX_PADDR_PAGE_NUM ->
  exists hw', map_loop n hw PAGE v val t = Some hw' /\ rewritten hw hw' k n (fun j => entry_of (val + (j - k)) t).
Proof.
  induction n as [|n IH]; intros hw v k val t Hok Hv Hk Hval Hmax.
  { exists hw. split; [done|]. by apply rewritten_none. }
  unfold PAGES, SOC_MMU_MAX_PADDR_PAGE_NUM in *. pose proof (proj2 Hv) as Hk0. unfold PAGE, LINEAR_SIZE in Hk0.
  cbn [map_loop]. unfold mmu_ll_write_entry. rewrite (get_entry_id v (PAGE * k)) by (done || unfold PAGE, LINEAR_SIZE; lia).
  rewrite Z.mul_comm, Z_div_mult by done. rewrite set_entry_ok by (done || lia).
  edestruct (IH {| mmu_table := <[Z.to_nat k := entry_of val t]> (mmu_table hw);
                   mmu_log := mmu_log hw ++ [EntryWritten k (entry_of val t)] |} (u32 (v + PAGE)) (k + 1) (val + 1) t)
    as (hw' & E & Hr).
  - by apply insert_table_ok.
  - rewrite Z.mul_add_distr_l. apply bus_addr_add; [done | done | unfold PAGE, LINEAR_SIZE; lia].
  - lia.
  - lia.
  - lia.
  - rewrite (u32_small (val + 1)) by lia. exists hw'. split; [done|].
    eapply rewritten_next; [done | lia | done | | ]; [by rewrite Z.sub_diag, Z.add_0_r|].
    destruct Hr as (Hok' & Ht & ws & Hl & Hw). split_and!; [done | | exists ws; split; [done|]].
    + intros j Hj. rewrite Ht by done. destruct (_ && _); [|done]. f_equal. lia.
    + eapply Forall_impl; [exact Hw|]. intros e (j & Hj & ->). exists j. split; [done|]. do 2 f_equal. lia.
Qed.

Lemma unmap_loop_spec (n : nat) : forall hw v k,
  table_ok hw -> bus_addr v (PAGE * k) -> k + n <= PAGES ->
  exists hw', unmap_loop n hw PAGE v = Some hw' /\ rewritten hw hw' k n (fun _ => SOC_MMU_INVALID).
Proof.
  induction n as [|n IH]; intros hw v k Hok Hv Hk.
  { exists hw. split; [done|]. by apply rewritten_none. }
  unfold PAGES in *. pose proof (proj2 Hv) as Hk0. unfold PAGE, LINEAR_SIZE in Hk0.
  cbn [unmap_loop]. unfold mmu_ll_set_entry_invalid. rewrite (get_entry_id v (PAGE * k)) by (done || unfold PAGE, LINEAR_SIZE; lia).
  rewrite Z.mul_comm, Z_div_mult by done. rewrite set_entry_ok by (done || lia).
  edestruct (IH {| mmu_table := <[Z.to_nat k := SOC_MMU_INVALID]> (mmu_table hw);
                   mmu_log := mmu_log hw ++ [EntryWritten k SOC_MMU_INVALID] |} (u32 (v + PAGE)) (k + 1))
    as (hw' & E & Hr).
  - by apply insert_table_ok.
  - rewrite Z.mul_add_distr_l. apply bus_addr_add; [done | done | unfold PAGE, LINEAR_SIZE; lia].
  - lia.
  - exists hw'. split; [done|]. by eapply rewritten_next; [done | lia | done | done | ].
Qed.

(** Linear addresses of pages. *)
Lemma in_pages l k n : 0 <= k -> (k <=? l / PAGE) && (l / PAGE <? k + n) = (PAGE * k <=? l) && (l <? PAGE * (k + n)).
Proof.
  intros Hk. unfold PAGE. pose proof (Z.div_mod l 65536 ltac:(done)). pose proof (Z.mod_pos_bound l 65536 ltac:(done)).
  f_equal; apply eq_true_iff_eq; rewrite ?Z.leb_le, ?Z.ltb_lt; lia.
Qed.

(** Mapping [n] pages: the addresses of the range lead to the physical range,
    and no other address is concerned. *)
Lemma map_region_spec hw t v k p (n : nat) :
  table_ok hw -> is_target t -> bus_addr v (PAGE * k) -> (0 < n)%nat -> k + n <= PAGES -> 0 <= p -> p + n <= SOC_MMU_MAX_PADDR_PAGE_NUM ->
  PAGE * n < PAGE * SOC_MMU_MAX_PADDR_PAGE_NUM ->
  exists hw' ws, mmu_hal_map_region hw t v (PAGE * p) (PAGE * n) = Some (PAGE * n, hw') /\ table_ok hw'
    /\ mmu_log hw' = mmu_log hw ++ ws /\ Forall (writes_in (PAGE * k) (PAGE * (k + n))) ws
    /\ forall l, 0 <= l -> phys hw' l = if (PAGE * k <=? l) && (l <? PAGE * (k + n)) then Some (PAGE * p + (l - PAGE * k), t) else phys hw l.
Proof.
  intros Hok Ht Hv Hn Hk Hp Hmax Hlen. unfold mmu_hal_map_region.
  change (mmu_hal_pages_to_bytes 1) with (Some PAGE). cbv beta iota.
  rewrite (bus_addr_page v k Hv), Z.mul_comm, Z_mod_mult, !Z.eqb_refl. pose proof (proj2 Hv) as Hk0.
  unfold PAGES, SOC_MMU_MAX_PADDR_PAGE_NUM, PAGE, LINEAR_SIZE in Hk0, Hk, Hlen, Hmax.
  replace (mmu_ll_check_valid_paddr_region (p * PAGE) (PAGE * n)) with true.
  2: { symmetry. unfold mmu_ll_check_valid_paddr_region, mmu_ll_get_page_size, SOC_MMU_MAX_PADDR_PAGE_NUM, MMU_PAGE_64KB, PAGE.
       rewrite u32_small by lia. rewrite !andb_true_iff, !Z.ltb_lt. lia. }
  rewrite (bus_addr_valid v (PAGE * k)) by (done || unfold PAGE, LINEAR_SIZE; lia).
  rewrite u32_small by (unfold PAGE; lia).
  replace ((PAGE * n + PAGE - 1) / PAGE) with (n : Z) by (unfold PAGE; apply (Z.div_unique _ _ n 65535); lia).
  unfold mmu_hal_pages_to_bytes. change (shift_code mmu_ll_get_page_size) with (Some 16). cbv beta iota.
  rewrite Z.shiftl_mul_pow2 by lia. change (2 ^ 16) with PAGE. rewrite (Z.mul_comm n PAGE), u32_small by (unfold PAGE; lia).
  rewrite Nat2Z.id. unfold mmu_ll_format_paddr. rewrite Z.shiftr_div_pow2 by lia. change (2 ^ 16) with PAGE.
  rewrite Z_div_mult by done.
  destruct (map_loop_spec n hw v k p t) as (hw' & -> & Hok' & Htab & ws & Hl & Hw); try done.
  exists hw', ws. split_and!; [done..| |].
  { eapply Forall_impl; [exact Hw|]. intros e (j & Hj & ->). eexists j, _. unfold PAGE. split_and!; [done | lia | lia]. }
  intros l Hl0. unfold phys.
  pose proof (Z.div_pos l PAGE Hl0 ltac:(done)). rewrite Htab, in_pages by lia.
  destruct ((PAGE * k <=? l) && (l <? PAGE * (k + n))) eqn:E; [|done].
  apply andb_true_iff in E as [E1%Z.leb_le E2%Z.ltb_lt].
  pose proof (Z.div_mod l PAGE ltac:(done)). pose proof (Z.mod_pos_bound l PAGE ltac:(done)).
  rewrite decode_entry; [|unfold PAGE, SOC_MMU_MAX_PADDR_PAGE_NUM in *; lia | done]. cbn. do 2 f_equal. lia.
Qed.

Lemma unmap_region_spec hw v k (n : nat) :
  table_ok hw -> bus_addr v (PAGE * k) -> (0 < n)%nat -> k + n <= PAGES ->
  exists hw' ws, mmu_hal_unmap_region hw v (PAGE * n) = Some hw' /\ table_ok hw'
    /\ mmu_log hw' = mmu_log hw ++ ws /\ Forall clears ws
    /\ forall l, 0 <= l -> phys hw' l = if (PAGE * k <=? l) && (l <? PAGE * (k + n)) then None else phys hw l.
Proof.
  intros Hok Hv Hn Hk. unfold mmu_hal_unmap_region. pose proof (proj2 Hv) as Hk0.
  unfold PAGES, PAGE, LINEAR_SIZE in Hk0, Hk.
  change (mmu_hal_pages_to_bytes 1) with (Some PAGE). cbv beta iota.
  rewrite (bus_addr_page v k Hv), Z.eqb_refl.
  rewrite (bus_addr_valid v (PAGE * k)) by (done || unfold PAGE, LINEAR_SIZE; lia).
  rewrite u32_small by (unfold PAGE; lia).
  replace ((PAGE * n + PAGE - 1) / PAGE) with (n : Z) by (unfold PAGE; apply (Z.div_unique _ _ n 65535); lia).
  rewrite Nat2Z.id. destruct (unmap_loop_spec n hw v k) as (hw' & -> & Hok' & Htab & ws & Hl & Hw); try done.
  exists hw', ws. split_and!; [done..| |].
  { eapply Forall_impl; [exact Hw|]. intros e (j & Hj & ->). by exists j. }
  intros l Hl0. unfold phys.
  pose proof (Z.div_pos l PAGE Hl0 ltac:(done)). rewrite Htab, in_pages by lia.
  by destruct ((PAGE * k <=? l) && (l <? PAGE * (k + n))).
Qed.
