(* ===== verification/MmuMap.v ===== *)
(** * Mapping of external memory ([esp_mm/esp_mmu_map.c], ESP32-S3)

    The linear address space is divided into regions; in a region, mapped blocks
    lie in a doubly linked list in the order of their addresses, between two
    dummies at the ends of the region. The lists hold the addresses of the blocks
    in the heap: a block that is freed and still linked is a dangling pointer,
    and using it is [None]. *)

From S2P Require Import Prelude EspErr MmuHal.

#[local] Open Scope abort_scope.

Definition CONFIG_MMU_PAGE_SIZE : Z := 0x10000.
Definition MEM_REGION_MERGED : Z := -1.
Definition ESP_MMU_MMAP_FLAG_PADDR_SHARED : Z := 1.

Definition MMU_MEM_CAP_EXEC : Z := 1.
Definition MMU_MEM_CAP_READ : Z := 2.
Definition MMU_MEM_CAP_WRITE : Z := 4.
Definition MMU_MEM_CAP_32BIT : Z := 8.
Definition MMU_MEM_CAP_8BIT : Z := 16.

Definition ALIGN_UP_BY (num align : Z) : Z := Z.land (u32 (num + (align - 1))) (u32 (Z.lnot (align - 1))).
Definition ALIGN_DOWN_BY (num align : Z) : Z := Z.land num (u32 (Z.lnot (align - 1))).

(** ** Data *)

(** [mem_block_t]; the links are the lists of the regions. *)
Record mem_block_t := {
  laddr_start : Z; laddr_end : Z;
  vaddr_start : Z; vaddr_end : Z;
  b_size : Z; b_caps : Z;
  paddr_start : Z; paddr_end : Z;
  b_target : Z }.

Record mem_region_t := {
  bus_id : Z;
  start : Z; end_ : Z;
  region_size : Z;
  free_head : Z;
  max_slot_size : Z;
  r_caps : Z; r_targets : Z;
  mem_block_head : list positive }.

(** [mmu_mem_region_t] of [ext_mem_layout.h] *)
Record mmu_mem_region_t := {
  g_start : Z; g_end : Z; g_size : Z; g_bus_id : Z; g_targets : Z; g_caps : Z }.

(** [s_mmu_ctx] (its valid regions), the heap, and the hardware. *)
Record mmu_ctx_t := {
  mem_regions : list mem_region_t;
  heap : gmap positive mem_block_t;
  hw : mmu_hw }.

Definition with_regions (rs : list mem_region_t) (s : mmu_ctx_t) : mmu_ctx_t :=
  {| mem_regions := rs; heap := heap s; hw := hw s |}.
Definition with_heap (h : gmap positive mem_block_t) (s : mmu_ctx_t) : mmu_ctx_t :=
  {| mem_regions := mem_regions s; heap := h; hw := hw s |}.
Definition with_hw (m : mmu_hw) (s : mmu_ctx_t) : mmu_ctx_t :=
  {| mem_regions := mem_regions s; heap := heap s; hw := m |}.

Definition with_blocks (bs : list positive) (r : mem_region_t) : mem_region_t :=
  {| bus_id := bus_id r; start := start r; end_ := end_ r; region_size := region_size r; free_head := free_head r;
     max_slot_size := max_slot_size r; r_caps := r_caps r; r_targets := r_targets r; mem_block_head := bs |}.
Definition with_free (fh slot : Z) (r : mem_region_t) : mem_region_t :=
  {| bus_id := bus_id r; start := start r; end_ := end_ r; region_size := region_size r; free_head := fh;
     max_slot_size := slot; r_caps := r_caps r; r_targets := r_targets r; mem_block_head := mem_block_head r |}.

(** ** The caches ([hal/esp32s3/include/hal/cache_ll.h], [hal/cache_hal.c]) *)

Definition CACHE_BUS_IBUS0 : Z := 1.
Definition CACHE_BUS_DBUS0 : Z := 8.
Definition OTHER_BUSES : Z := Z.lor (Z.lor 2 4) (Z.lor 16 32).

Definition cache_ll_l1_get_bus (vaddr_start len : Z) : option Z :=
  let vaddr_end := u32 (vaddr_start + len - 1) in
  if (SOC_IRAM0_CACHE_ADDRESS_LOW <=? vaddr_start) && (vaddr_end <? SOC_IRAM0_CACHE_ADDRESS_HIGH) then Some CACHE_BUS_IBUS0
  else if (SOC_DRAM0_CACHE_ADDRESS_LOW <=? vaddr_start) && (vaddr_end <? SOC_DRAM0_CACHE_ADDRESS_HIGH) then Some CACHE_BUS_DBUS0
  else None.

Definition cache_ll_l1_enable_bus (cache_id mask : Z) (m : mmu_hw) : option mmu_hw :=
  assert! Z.land mask OTHER_BUSES =? 0 ;; Some (with_event (BusEnabled cache_id mask) m).

Definition cache_hal_invalidate_addr (vaddr size : Z) (m : mmu_hw) : mmu_hw :=
  let vaddr_end := u32 (vaddr + size - 1) in
  let valid := (SOC_ADDRESS_IN_IRAM0_CACHE vaddr && SOC_ADDRESS_IN_IRAM0_CACHE vaddr_end)
               || (SOC_ADDRESS_IN_DRAM0_CACHE vaddr && SOC_ADDRESS_IN_DRAM0_CACHE vaddr_end) in
  if valid then with_event (Invalidated vaddr size) m else m.

(** ** Initialization *)

(** [bus_mask & bus_id]: the region, or as much of it as is left to reserve. *)
Fixpoint reserve_loop (bus_mask len : Z) (rs : list mem_region_t) : list mem_region_t :=
  match rs with
  | [] => []
  | r :: rs =>
      if has_flag bus_mask (bus_id r) then
        if region_size r <=? len then with_free (end_ r) 0 r :: reserve_loop bus_mask (u32 (len - region_size r)) rs
        else with_free (u32 (free_head r + len)) (u32 (max_slot_size r - len)) r :: reserve_loop bus_mask len rs
      else r :: reserve_loop bus_mask len rs
  end.

(** The symbols of the linker are arguments. *)
Definition reserve_region (reserved_start reserved_end : Z) (rs : list mem_region_t) : option (list mem_region_t) :=
  let len := u32 (reserved_end - reserved_start) in
  assert! u32 (mmu_ll_vaddr_to_laddr reserved_end - mmu_ll_vaddr_to_laddr reserved_start) =? len ;;
  let len := u32 (len + (reserved_start - ALIGN_DOWN_BY reserved_start CONFIG_MMU_PAGE_SIZE)) in
  let len := ALIGN_UP_BY len CONFIG_MMU_PAGE_SIZE in
  let! bus_mask := cache_ll_l1_get_bus reserved_start len in
  Some (reserve_loop bus_mask len rs).

Definition s_reserve_irom_region : Z -> Z -> list mem_region_t -> option (list mem_region_t) := reserve_region.
Definition s_reserve_drom_region : Z -> Z -> list mem_region_t -> option (list mem_region_t) := reserve_region.

Definition hw_mem_region (g : mmu_mem_region_t) : mem_region_t :=
  {| bus_id := g_bus_id g; start := g_start g; end_ := g_end g; region_size := g_size g; free_head := g_start g;
     max_slot_size := g_size g; r_caps := g_caps g; r_targets := g_targets g; mem_block_head := [] |}.

Definition merged (a : mem_region_t) : mem_region_t :=
  {| bus_id := bus_id a; start := start a; end_ := end_ a; region_size := region_size a; free_head := free_head a;
     max_slot_size := max_slot_size a; r_caps := MEM_REGION_MERGED; r_targets := r_targets a; mem_block_head := mem_block_head a |}.

Definition merge (a b : mem_region_t) : mem_region_t :=
  {| bus_id := Z.lor (bus_id b) (bus_id a); start := start a; end_ := end_ b;
     region_size := u32 (region_size b + region_size a); free_head := free_head a;
     max_slot_size := u32 (max_slot_size b + max_slot_size a); r_caps := r_caps b; r_targets := r_targets b;
     mem_block_head := mem_block_head b |}.

Fixpoint coalesce (a : mem_region_t) (rs : list mem_region_t) : list mem_region_t :=
  match rs with
  | [] => [a]
  | b :: rs =>
      if (free_head b =? end_ a) && (r_caps b =? r_caps a) && (r_targets b =? r_targets a)
      then merged a :: coalesce (merge a b) rs
      else a :: coalesce b rs
  end.

Definition coalesce_regions (rs : list mem_region_t) : list mem_region_t :=
  match rs with [] => [] | a :: rs => coalesce a rs end.

Definition not_merged (r : mem_region_t) : bool := negb (r_caps r =? MEM_REGION_MERGED).

(** [g_mmu_mem_regions], the symbols of the linker, and the hardware as the
    bootloader has left it. *)
Definition esp_mmu_map_init (g : list mmu_mem_region_t) (irom drom : Z * Z) (m : mmu_hw) : option mmu_ctx_t :=
  let rs := map hw_mem_region g in
  assert! forallb (fun r => region_size r mod CONFIG_MMU_PAGE_SIZE =? 0) rs ;;
  let! rs := s_reserve_irom_region irom.1 irom.2 rs in
  let! rs := s_reserve_drom_region drom.1 drom.2 rs in
  Some {| mem_regions := map (with_blocks []) (List.filter not_merged (coalesce_regions rs)); heap := ∅; hw := m |}.

(** The region of the ESP32-S3 ([esp_mm/port/esp32s3/ext_mem_layout.c]). *)
Definition g_mmu_mem_regions : list mmu_mem_region_t :=
  [ {| g_start := Z.land SOC_IRAM0_CACHE_ADDRESS_LOW SOC_MMU_LINEAR_ADDR_MASK;
       g_end := SOC_MMU_LINEAR_ADDR_MASK + 1;
       g_size := SOC_MMU_LINEAR_ADDR_MASK + 1 - Z.land SOC_IRAM0_CACHE_ADDRESS_LOW SOC_MMU_LINEAR_ADDR_MASK;
       g_bus_id := Z.lor CACHE_BUS_IBUS0 CACHE_BUS_DBUS0;
       g_targets := Z.lor MMU_TARGET_FLASH0 MMU_TARGET_PSRAM0;
       g_caps := Z.lor MMU_MEM_CAP_EXEC (Z.lor MMU_MEM_CAP_READ (Z.lor MMU_MEM_CAP_WRITE (Z.lor MMU_MEM_CAP_32BIT MMU_MEM_CAP_8BIT))) |} ].

(** ** Capabilities and free space *)

(** The flag that the code adds to its copy of [caps] is not used. *)
Definition s_mem_caps_check (caps : Z) : esp_err_t :=
  if has_flag caps MMU_MEM_CAP_EXEC && (has_flag caps MMU_MEM_CAP_8BIT || has_flag caps MMU_MEM_CAP_WRITE)
  then ESP_ERR_INVALID_ARG else ESP_OK.

Definition suits (caps target : Z) (r : mem_region_t) : bool :=
  (Z.land (r_caps r) caps =? caps) && (Z.land (r_targets r) target =? target).

Fixpoint max_loop (caps target : Z) (rs : list mem_region_t) (max : Z) : Z :=
  match rs with
  | [] => max
  | r :: rs => max_loop caps target rs (if suits caps target r && (max <? max_slot_size r) then max_slot_size r else max)
  end.

Definition esp_mmu_map_get_max_consecutive_free_block_size (s : mmu_ctx_t) (caps target : Z) (out_len : bool) : esp_err_t * option Z :=
  if negb out_len then (ESP_ERR_INVALID_ARG, None)
  else if negb (is_ok (s_mem_caps_check caps)) then (s_mem_caps_check caps, None)
  else (ESP_OK, Some (max_loop caps target (mem_regions s) 0)).

Fixpoint s_find_available_region (i : nat) (rs : list mem_region_t) (size caps target : Z) : option nat :=
  match rs with
  | [] => None
  | r :: rs =>
      if suits caps target r && (size <=? max_slot_size r) then Some i
      else s_find_available_region (S i) rs size caps target
  end.

Definition vaddr_type_of (caps : Z) : Z := if has_flag caps MMU_MEM_CAP_EXEC then MMU_VADDR_INSTRUCTION else MMU_VADDR_DATA.

Definition esp_mmu_map_reserve_block_with_caps (s : mmu_ctx_t) (size caps target : Z) (out_ptr : bool) : option (esp_err_t * option Z * mmu_ctx_t) :=
  if negb out_ptr then Some (ESP_ERR_INVALID_ARG, None, s)
  else if negb (is_ok (s_mem_caps_check caps)) then Some (s_mem_caps_check caps, None, s)
  else
    let aligned_size := ALIGN_UP_BY size CONFIG_MMU_PAGE_SIZE in
    match s_find_available_region 0 (mem_regions s) aligned_size caps target with
    | None => Some (ESP_ERR_NOT_FOUND, None, s)
    | Some id =>
        let! r := mem_regions s !! id in
        let laddr := free_head r in
        let r := with_free (u32 (free_head r + aligned_size)) (u32 (max_slot_size r - aligned_size)) r in
        Some (ESP_OK, Some (mmu_ll_laddr_to_vaddr laddr (vaddr_type_of caps)), with_regions (<[id := r]> (mem_regions s)) s)
    end.

(** ** Mapping *)

Definition s_is_enclosed (block_start block_end new_block_start new_block_size : Z) : bool :=
  let new_block_end := u32 (new_block_start + new_block_size) in
  (block_start <=? new_block_start) && (new_block_end <=? block_end).

Definition s_is_overlapped (block_start block_end new_block_start new_block_size : Z) : bool :=
  let new_block_end := u32 (new_block_start + new_block_size) in
  ((new_block_start <? block_start) && (block_start <? new_block_end))
  || ((new_block_start <? block_end) && (block_end <? new_block_end)).

Definition s_mapping_operation (target vaddr paddr size : Z) (m : mmu_hw) : option (Z * mmu_hw) :=
  mmu_hal_map_region m target vaddr paddr size.

Definition s_do_mapping (target vaddr paddr size : Z) (m : mmu_hw) : option mmu_hw :=
  let m := with_event CachesOff m in
  let! (_, m) := s_mapping_operation target vaddr paddr size m in
  let! bus_mask := cache_ll_l1_get_bus vaddr size in
  let! m := cache_ll_l1_enable_bus 0 bus_mask m in
  let! bus_mask := cache_ll_l1_get_bus vaddr size in
  let! m := cache_ll_l1_enable_bus 1 bus_mask m in
  let m := cache_hal_invalidate_addr vaddr size m in
  Some (with_event CachesOn m).

(** What comparing the physical addresses finds: the block that the new one is
    enclosed by, an overlap, or nothing. *)
Inductive paddr_check := Enclosed (b : mem_block_t) | Overlapped | Clear.

Fixpoint check_paddr (h : gmap positive mem_block_t) (target paddr size : Z) (allow_overlap : bool) (bs : list positive) : option paddr_check :=
  match bs with
  | [] => Some Clear
  | a :: bs =>
      let! b := h !! a in
      if target =? b_target b then
        if s_is_enclosed (paddr_start b) (paddr_end b) paddr size then Some (Enclosed b)
        else if negb allow_overlap && s_is_overlapped (paddr_start b) (paddr_end b) paddr size then Some Overlapped
        else check_paddr h target paddr size allow_overlap bs
      else check_paddr h target paddr size allow_overlap bs
  end.

(** The first slot that is large enough, as the block after it and its linear
    address, and the largest slot that is left. *)
Fixpoint slot_loop (h : gmap positive mem_block_t) (size last_end : Z) (found : option (positive * Z)) (max : Z) (bs : list positive)
  : option (option (positive * Z) * Z) :=
  match bs with
  | [] => Some (found, max)
  | a :: bs =>
      let! b := h !! a in
      let slot_len := u32 (laddr_start b - last_end) in
      let '(found, slot_len) :=
        match found with
        | None => if size <=? slot_len then (Some (a, last_end), u32 (slot_len - size)) else (None, slot_len)
        | Some _ => (found, slot_len)
        end in
      slot_loop h size (laddr_end b) found (if max <? slot_len then slot_len else max) bs
  end.

(** [TAILQ_INSERT_BEFORE] *)
Fixpoint insert_before (a new : positive) (bs : list positive) : list positive :=
  match bs with
  | [] => []
  | b :: bs => if bool_decide (b = a) then new :: b :: bs else b :: insert_before a new bs
  end.

Definition free (p : option positive) (h : gmap positive mem_block_t) : gmap positive mem_block_t :=
  match p with Some a => delete a h | None => h end.

(** The label [err]. *)
Definition map_err (dummy_head dummy_tail : option positive) (s : mmu_ctx_t) : option (esp_err_t * option Z * mmu_ctx_t) :=
  Some (ESP_ERR_NO_MEM, None, with_heap (free dummy_head (free dummy_tail (heap s))) s).

Definition dummy (laddr caps : Z) : mem_block_t :=
  {| laddr_start := laddr; laddr_end := laddr; vaddr_start := 0; vaddr_end := 0; b_size := 0; b_caps := caps;
     paddr_start := 0; paddr_end := 0; b_target := 0 |}.

Definition block_of (laddr size caps paddr target : Z) : mem_block_t :=
  let l_end := u32 (laddr + size) in
  {| laddr_start := laddr; laddr_end := l_end;
     vaddr_start := mmu_ll_laddr_to_vaddr laddr (vaddr_type_of caps);
     vaddr_end := mmu_ll_laddr_to_vaddr l_end (vaddr_type_of caps);
     b_size := size; b_caps := caps; paddr_start := paddr; paddr_end := u32 (paddr + size); b_target := target |}.

Definition with_region (id : nat) (r : mem_region_t) (s : mmu_ctx_t) : mmu_ctx_t :=
  with_regions (<[id := r]> (mem_regions s)) s.

(** From the check of the physical addresses on. [mem2] is what the allocator
    returns for the new block. *)
Definition map_block (mem2 : option positive) (id : nat) (dummy_head dummy_tail : option positive) (s : mmu_ctx_t)
    (paddr aligned_size target caps flags : Z) : option (esp_err_t * option Z * mmu_ctx_t) :=
  let! r := mem_regions s !! id in
  let allow_overlap := has_flag flags ESP_MMU_MMAP_FLAG_PADDR_SHARED in
  let! found := check_paddr (heap s) target paddr aligned_size allow_overlap (mem_block_head r) in
  match found with
  | Enclosed b => Some (ESP_ERR_INVALID_STATE, Some (vaddr_start b), s)
  | Overlapped => Some (ESP_ERR_INVALID_ARG, None, s)
  | Clear =>
      match mem2 with
      | None => map_err dummy_head dummy_tail s
      | Some new_block =>
          let! first := head (mem_block_head r) in
          let! first := heap s !! first in
          let! (found, max_slot_len) := slot_loop (heap s) aligned_size (laddr_end first) None 0 (mem_block_head r) in
          let! (found_block, laddr) := found in
          let b := block_of laddr aligned_size caps paddr target in
          let r := with_blocks (insert_before found_block new_block (mem_block_head r)) (with_free (free_head r) max_slot_len r) in
          let s := with_region id r (with_heap (<[new_block := b]> (heap s)) s) in
          let! m := s_do_mapping target (vaddr_start b) paddr aligned_size (hw s) in
          Some (ESP_OK, Some (vaddr_start b), with_hw m s)
      end
  end.

(** [mem] is what the allocator returns for the blocks that a call allocates:
    the dummies, for a region without blocks, and the new block. *)
Definition esp_mmu_map (mem : nat -> option positive) (s : mmu_ctx_t) (paddr size target caps flags : Z) (out_ptr : bool)
    : option (esp_err_t * option Z * mmu_ctx_t) :=
  if negb out_ptr then Some (ESP_ERR_INVALID_ARG, None, s)
  else if negb (paddr mod CONFIG_MMU_PAGE_SIZE =? 0) then Some (ESP_ERR_INVALID_ARG, None, s)
  else if negb (is_ok (s_mem_caps_check caps)) then Some (s_mem_caps_check caps, None, s)
  else
    let aligned_size := ALIGN_UP_BY size CONFIG_MMU_PAGE_SIZE in
    match s_find_available_region 0 (mem_regions s) aligned_size caps target with
    | None => Some (ESP_ERR_NOT_FOUND, None, s)
    | Some id =>
        let! r := mem_regions s !! id in
        match mem_block_head r with
        | _ :: _ => map_block (mem 2%nat) id None None s paddr aligned_size target caps flags
        | [] =>
            match mem 0%nat with
            | None => map_err None None s
            | Some dummy_head =>
                let h := <[dummy_head := dummy (free_head r) caps]> (heap s) in
                let s := with_region id (with_blocks [dummy_head] r) (with_heap h s) in
                match mem 1%nat with
                | None => map_err (Some dummy_head) None s
                | Some dummy_tail =>
                    let h := <[dummy_tail := dummy (end_ r) caps]> (heap s) in
                    let s := with_region id (with_blocks [dummy_head; dummy_tail] r) (with_heap h s) in
                    map_block (mem 2%nat) id (Some dummy_head) (Some dummy_tail) s paddr aligned_size target caps flags
                end
            end
        end
    end.

(** ** Unmapping *)

Definition s_unmapping_operation (vaddr size : Z) (m : mmu_hw) : option mmu_hw := mmu_hal_unmap_region m vaddr size.

Definition s_do_unmapping (vaddr size : Z) (m : mmu_hw) : option mmu_hw :=
  let m := with_event CachesOff m in
  let! m := s_unmapping_operation vaddr size m in
  Some (with_event CachesOn m).

Fixpoint region_of_loop (i : nat) (laddr : Z) (rs : list mem_region_t) (region : option nat) : option nat :=
  match rs with
  | [] => region
  | r :: rs => region_of_loop (S i) laddr rs (if (free_head r <=? laddr) && (laddr <? end_ r) then Some i else region)
  end.

(** [TAILQ_LAST] *)
Definition is_dummy (head : list positive) (a : positive) : bool :=
  bool_decide (Some a = list.head head) || bool_decide (Some a = last head).

(** The block that starts at [laddr], with the slot that it leaves. *)
Fixpoint find_block (h : gmap positive mem_block_t) (head : list positive) (laddr : Z) (prev : option positive) (bs : list positive)
  : option (option (positive * mem_block_t * Z)) :=
  match bs with
  | [] => Some None
  | a :: bs =>
      let! b := h !! a in
      if is_dummy head a then find_block h head laddr (Some a) bs
      else if laddr_start b =? laddr then
        let! next := list.head bs in
        let! next := h !! next in
        let! p := prev in
        let! p := h !! p in
        Some (Some (a, b, u32 (laddr_start next - laddr_end p)))
      else find_block h head laddr (Some a) bs
  end.

Definition esp_mmu_unmap (s : mmu_ctx_t) (ptr : Z) : option (esp_err_t * mmu_ctx_t) :=
  if ptr =? 0 then Some (ESP_ERR_INVALID_ARG, s)
  else
    let ptr_laddr := mmu_ll_vaddr_to_laddr ptr in
    match region_of_loop 0 ptr_laddr (mem_regions s) None with
    | None => Some (ESP_ERR_NOT_FOUND, s)
    | Some id =>
        let! r := mem_regions s !! id in
        let! found := find_block (heap s) (mem_block_head r) ptr_laddr None (mem_block_head r) in
        match found with
        | None => Some (ESP_ERR_NOT_FOUND, s)
        | Some (a, b, slot_len) =>
            let slot := if max_slot_size r <? slot_len then slot_len else max_slot_size r in
            let! m := s_do_unmapping (vaddr_start b) (b_size b) (hw s) in
            let r := with_blocks (List.filter (fun x => negb (bool_decide (x = a))) (mem_block_head r)) (with_free (free_head r) slot r) in
            Some (ESP_OK, with_hw m (with_region id r (with_heap (delete a (heap s)) s)))
        end
    end.

(** ** Queries *)

Fixpoint find_paddr (h : gmap positive mem_block_t) (head : list positive) (paddr : Z) (bs : list positive) : option (option mem_block_t) :=
  match bs with
  | [] => Some None
  | a :: bs =>
      let! b := h !! a in
      if is_dummy head a then find_paddr h head paddr bs
      else if paddr_start b =? paddr then Some (Some b)
      else find_paddr h head paddr bs
  end.

(** The loop over the regions does not end at the first that has one. *)
Fixpoint find_caps_loop (h : gmap positive mem_block_t) (paddr : Z) (rs : list mem_region_t) (found : option mem_block_t) : option (option mem_block_t) :=
  match rs with
  | [] => Some found
  | r :: rs =>
      let! b := find_paddr h (mem_block_head r) paddr (mem_block_head r) in
      find_caps_loop h paddr rs (match b with Some b => Some b | None => found end)
  end.

Definition esp_mmu_paddr_find_caps (s : mmu_ctx_t) (paddr : Z) (out_caps : bool) : option (esp_err_t * option Z) :=
  if negb out_caps then Some (ESP_ERR_INVALID_ARG, None)
  else
    let! found := find_caps_loop (heap s) paddr (mem_regions s) None in
    match found with
    | None => Some (ESP_ERR_NOT_FOUND, None)
    | Some b => Some (ESP_OK, Some (b_caps b))
    end.

Definition s_vaddr_to_paddr (vaddr : Z) (m : mmu_hw) : option (option (Z * Z) * mmu_hw) :=
  let m := with_event CachesOff m in
  let! r := mmu_hal_vaddr_to_paddr m vaddr in
  Some (r, with_event CachesOn m).

(** [*out_target] is written without a check of the pointer. *)
Definition esp_mmu_vaddr_to_paddr (s : mmu_ctx_t) (vaddr : Z) (out_paddr out_target : bool) : option (esp_err_t * option (Z * Z) * mmu_ctx_t) :=
  if (vaddr =? 0) || negb out_paddr then Some (ESP_ERR_INVALID_ARG, None, s)
  else if negb (mmu_hal_check_valid_ext_vaddr_region vaddr 1 (Z.lor MMU_VADDR_DATA MMU_VADDR_INSTRUCTION))
  then Some (ESP_ERR_INVALID_ARG, None, s)
  else
    let! (r, m) := s_vaddr_to_paddr vaddr (hw s) in
    match r with
    | None => Some (ESP_ERR_NOT_FOUND, None, with_hw m s)
    | Some p => assert! out_target ;; Some (ESP_OK, Some p, with_hw m s)
    end.

Definition s_paddr_to_vaddr (paddr target type : Z) (m : mmu_hw) : option (option Z * mmu_hw) :=
  let m := with_event CachesOff m in
  let! r := mmu_hal_paddr_to_vaddr m paddr target type in
  Some (r, with_event CachesOn m).

Definition esp_mmu_paddr_to_vaddr (s : mmu_ctx_t) (paddr target type : Z) (out_vaddr : bool) : option (esp_err_t * option Z * mmu_ctx_t) :=
  if negb out_vaddr then Some (ESP_ERR_INVALID_ARG, None, s)
  else
    let! (r, m) := s_paddr_to_vaddr paddr target type (hw s) in
    match r with
    | None => Some (ESP_ERR_NOT_FOUND, None, with_hw m s)
    | Some v => Some (ESP_OK, Some v, with_hw m s)
    end.
