(* ===== verification/MmuBlocks.v ===== *)
(** * The blocks of a region ([esp_mm/esp_mmu_map.c])

    A region as the list of the records of its blocks: they are in order and
    apart, the slots between them, the addresses that they translate. The walks
    over the linked list are reduced to these lists. *)

From S2P Require Import Prelude EspErr MmuHal MmuMap.

(** ** Lists of records *)

(** A mapped block: whole pages of linear and of physical addresses. *)
Record block_ok (b : mem_block_t) : Prop := {
  bo_start : exists k, laddr_start b = PAGE * k;
  bo_size : exists n, b_size b = PAGE * n;
  bo_pos : 0 < b_size b;
  bo_end : laddr_end b = laddr_start b + b_size b;
  bo_phys : exists p, paddr_start b = PAGE * p;
  bo_pstart : 0 <= paddr_start b;
  bo_pend : paddr_end b = paddr_start b + b_size b;
  bo_pmax : paddr_end b <= PAGE * SOC_MMU_MAX_PADDR_PAGE_NUM;
  bo_psize : b_size b < PAGE * SOC_MMU_MAX_PADDR_PAGE_NUM;
  bo_target : is_target (b_target b);
  bo_vaddr : vaddr_start b = mmu_ll_laddr_to_vaddr (laddr_start b) (vaddr_type_of (b_caps b)) }.

(** The blocks lie between [lo] and [hi], in order. *)
Fixpoint chain (lo : Z) (bs : list mem_block_t) (hi : Z) : Prop :=
  match bs with
  | [] => lo <= hi
  | b :: bs => block_ok b /\ lo <= laddr_start b /\ chain (laddr_end b) bs hi
  end.

(** The largest slot. *)
Fixpoint gap (lo : Z) (bs : list mem_block_t) (hi : Z) : Z :=
  match bs with
  | [] => hi - lo
  | b :: bs => Z.max (laddr_start b - lo) (gap (laddr_end b) bs hi)
  end.

(** Where the slot before [bs] ends, and where the one after [bs] starts. *)
Definition next_start (bs : list mem_block_t) (hi : Z) : Z := match bs with [] => hi | b :: _ => laddr_start b end.
Fixpoint end_of (lo : Z) (bs : list mem_block_t) : Z := match bs with [] => lo | b :: bs => end_of (laddr_end b) bs end.

Definition inside (b : mem_block_t) (l : Z) : bool := (laddr_start b <=? l) && (l <? laddr_end b).

(** The physical address of a linear address. *)
Fixpoint translate (bs : list mem_block_t) (l : Z) : option (Z * Z) :=
  match bs with
  | [] => None
  | b :: bs => if inside b l then Some (paddr_start b + (l - laddr_start b), b_target b) else translate bs l
  end.

Lemma chain_le lo bs hi : chain lo bs hi -> lo <= hi.
Proof.
  revert lo. induction bs as [|b bs IH]; intros lo; cbn; [done|]. intros (Hb & Hlo & Hc).
  apply IH in Hc. pose proof (bo_end b Hb). pose proof (bo_pos b Hb). lia.
Qed.

Lemma chain_app lo pre post hi : chain lo (pre ++ post) hi <-> chain lo pre (end_of lo pre) /\ chain (end_of lo pre) post hi.
Proof.
  revert lo. induction pre as [|b pre IH]; intros lo; cbn; [intuition lia|]. rewrite IH. tauto.
Qed.

Lemma chain_end lo pre hi : chain lo pre hi -> end_of lo pre <= hi.
Proof.
  revert lo. induction pre as [|b pre IH]; intros lo; cbn; [done|]. intros (_ & _ & Hc). by apply IH.
Qed.

Lemma chain_next lo post hi : chain lo post hi -> lo <= next_start post hi <= hi.
Proof.
  destruct post as [|b post]; cbn; [lia|]. intros (Hb & Hlo & Hc%chain_le).
  pose proof (bo_end b Hb). pose proof (bo_pos b Hb). lia.
Qed.

(** A block fits into a slot that is large enough. *)
Lemma chain_insert lo pre post hi nb :
  chain lo (pre ++ post) hi -> block_ok nb -> laddr_start nb = end_of lo pre -> b_size nb <= next_start post hi - end_of lo pre ->
  chain lo (pre ++ nb :: post) hi.
Proof.
  rewrite !chain_app. intros [Hpre Hpost] Hnb Hs Hsz. split; [done|]. cbn. split_and!; [done | lia|].
  pose proof (bo_end nb Hnb). destruct post as [|b post]; cbn in *; [lia|]. destruct Hpost as (Hb & _ & Hc).
  split_and!; [done | lia | done].
Qed.

Lemma chain_delete lo pre post hi b : chain lo (pre ++ b :: post) hi -> chain lo (pre ++ post) hi.
Proof.
  rewrite !chain_app. cbn. intros (Hpre & Hb & Hlo & Hpost). split; [done|].
  pose proof (bo_end b Hb). pose proof (bo_pos b Hb).
  destruct post as [|c post]; cbn in *; [lia|]. destruct Hpost as (Hc & Hlo' & Hpost). split_and!; [done | lia | done].
Qed.

Lemma gap_nonneg lo bs hi : chain lo bs hi -> 0 <= gap lo bs hi.
Proof.
  revert lo. induction bs as [|b bs IH]; intros lo; cbn; [lia|]. intros (Hb & Hlo & Hc%IH). lia.
Qed.

(** Taking the block away leaves its slot. *)
Lemma gap_delete lo pre post hi b :
  chain lo (pre ++ b :: post) hi ->
  gap lo (pre ++ post) hi = Z.max (gap lo (pre ++ b :: post) hi) (next_start post hi - end_of lo pre).
Proof.
  revert lo. induction pre as [|c pre IH]; intros lo; cbn [app chain gap end_of].
  - intros (Hb & Hlo & Hc). pose proof (bo_end b Hb). pose proof (bo_pos b Hb).
    destruct post as [|c post]; cbn [gap next_start chain] in *; lia.
  - intros (Hc & Hlo & Hch). rewrite IH by done. lia.
Qed.

(** ** Translation *)

Lemma inside_spec b l : inside b l = true <-> laddr_start b <= l < laddr_end b.
Proof. unfold inside. rewrite andb_true_iff, Z.leb_le, Z.ltb_lt. done. Qed.

Lemma translate_range lo bs hi l : chain lo bs hi -> translate bs l <> None -> lo <= l < hi.
Proof.
  revert lo. induction bs as [|b bs IH]; intros lo; cbn; [done|]. intros (Hb & Hlo & Hc) Ht.
  pose proof (bo_end b Hb). pose proof (bo_pos b Hb). pose proof (chain_le _ _ _ Hc).
  destruct (inside b l) eqn:E; [apply inside_spec in E; lia|]. specialize (IH _ Hc Ht). lia.
Qed.

Lemma translate_outside lo bs hi l : chain lo bs hi -> l < lo \/ hi <= l -> translate bs l = None.
Proof.
  intros Hc Hl. destruct (translate bs l) eqn:E; [|done].
  pose proof (translate_range lo bs hi l Hc ltac:(congruence)). lia.
Qed.

(** A block among others decides what its addresses lead to, and only that. *)
Lemma translate_split lo pre post hi b l :
  chain lo (pre ++ b :: post) hi ->
  translate (pre ++ b :: post) l
  = if inside b l then Some (paddr_start b + (l - laddr_start b), b_target b) else translate (pre ++ post) l.
Proof.
  revert lo. induction pre as [|c pre IH]; intros lo Hch; cbn [app translate]; [done|].
  cbn [app chain] in Hch. destruct Hch as (Hc & Hlo & Hch). rewrite (IH _ Hch).
  destruct (inside b l) eqn:Eb; [|done]. destruct (inside c l) eqn:Ec; [|done].
  apply inside_spec in Eb, Ec. apply chain_app in Hch as [Hpre%chain_le (Hb & Hle & _)]. lia.
Qed.

Lemma translate_taken lo pre post hi b l : chain lo (pre ++ b :: post) hi -> inside b l = true -> translate (pre ++ post) l = None.
Proof.
  revert lo. induction pre as [|c pre IH]; intros lo; cbn [app chain translate].
  - intros (Hb & Hlo & Hc) Hi%inside_spec. apply (translate_outside _ _ _ _ Hc). lia.
  - intros (Hc & Hlo & Hch) Hi. destruct (inside c l) eqn:Ec; [|by apply (IH _ Hch)].
    apply inside_spec in Hi, Ec. apply chain_app in Hch as [Hpre%chain_le (Hb & Hle & _)]. lia.
Qed.

(** ** The walk over the slots *)

(** The list of a region in the heap: the records of the blocks, between the
    dummies. *)
Definition listed (h : gmap positive mem_block_t) (ids : list positive) (bs : list mem_block_t) : Prop :=
  Forall2 (fun a b => h !! a = Some b) ids bs.

Lemma chain_bound lo bs hi b : chain lo bs hi -> b ∈ bs -> lo <= laddr_start b /\ laddr_end b <= hi.
Proof.
  revert lo. induction bs as [|c bs IH]; intros lo; cbn; [by intros _ ?%not_elem_of_nil|].
  intros (Hc & Hlo & Hch) [-> | Hb]%elem_of_cons.
  - pose proof (chain_le _ _ _ Hch). lia.
  - pose proof (bo_end c Hc). pose proof (bo_pos c Hc). specialize (IH _ Hch Hb). lia.
Qed.

Lemma chain_blocks lo bs hi : chain lo bs hi -> Forall block_ok bs.
Proof. revert lo. induction bs as [|c bs IH]; intros lo; cbn; [constructor|]. intros (Hc & _ & Hch). constructor; [done | by eapply IH]. Qed.

(** A block is known by its start. *)
Lemma chain_unique lo pre b post pre' b' post' hi :
  chain lo (pre ++ b :: post) hi -> pre ++ b :: post = pre' ++ b' :: post' -> laddr_start b = laddr_start b' ->
  pre = pre' /\ b = b' /\ post = post'.
Proof.
  revert lo pre'. induction pre as [|c pre IH]; intros lo [|c' pre']; cbn [app chain].
  - by intros _ [= -> ->].
  - intros (Hb & _ & Hc) [= <- ->] E. assert (Hin : b' ∈ pre' ++ b' :: post') by (apply elem_of_app; right; apply list_elem_of_here).
    pose proof (chain_bound _ _ _ _ Hc Hin). pose proof (bo_end b Hb). pose proof (bo_pos b Hb). lia.
  - intros (Hb & _ & Hc) [= -> <-] E. assert (Hin : b ∈ pre ++ b :: post) by (apply elem_of_app; right; apply list_elem_of_here).
    pose proof (chain_bound _ _ _ _ Hc Hin). pose proof (bo_end b' Hb). pose proof (bo_pos b' Hb). lia.
  - intros (Hb & _ & Hc) [= -> Heq] E. by destruct (IH _ _ Hc Heq E) as (-> & -> & ->).
Qed.

Lemma slot_loop_rest h size fd d2 c hi ids bs lo mx :
  listed h ids bs -> h !! d2 = Some (dummy hi c) -> chain lo bs hi -> 0 <= lo -> hi < 2 ^ 32 ->
  slot_loop h size lo (Some fd) mx (ids ++ [d2]) = Some (Some fd, Z.max mx (gap lo bs hi)).
Proof.
  intros Hl Hd. revert lo mx. induction Hl as [|a b ids bs Ha Hl IH]; intros lo mx; cbn [app slot_loop chain gap].
  - intros Hlo H0 Hhi. rewrite Hd. cbn. rewrite u32_small by lia. do 2 f_equal. case_test; to_prop; lia.
  - intros (Hb & Hlo & Hc) H0 Hhi. rewrite Ha. pose proof (bo_end b Hb). pose proof (bo_pos b Hb). pose proof (chain_le _ _ _ Hc).
    rewrite u32_small by lia. rewrite IH by (done || lia). do 2 f_equal. case_test; to_prop; lia.
Qed.

(** No slot is large enough, or the first that is has been found: after the
    blocks [pre], at [end_of lo pre], before the block [a]. *)
Lemma slot_loop_spec h size d2 c hi ids bs lo mx :
  listed h ids bs -> h !! d2 = Some (dummy hi c) -> chain lo bs hi -> 0 <= lo -> hi < 2 ^ 32 -> 0 < size ->
  (gap lo bs hi < size /\ slot_loop h size lo None mx (ids ++ [d2]) = Some (None, Z.max mx (gap lo bs hi)))
  \/ exists ipre ipost pre post a iend mx',
    ids = ipre ++ ipost /\ bs = pre ++ post /\ length ipre = length pre /\ ipost ++ [d2] = a :: iend
    /\ size <= next_start post hi - end_of lo pre
    /\ slot_loop h size lo None mx (ids ++ [d2]) = Some (Some (a, end_of lo pre), mx')
    /\ forall nb, laddr_start nb = end_of lo pre -> laddr_end nb = end_of lo pre + size -> mx' = Z.max mx (gap lo (pre ++ nb :: post) hi).
Proof.
  intros Hl Hd Hch H0 Hhi Hs. revert lo mx Hch H0. induction Hl as [|a b ids bs Ha Hl IH]; intros lo mx Hch H0; cbn [chain] in Hch.
  - cbn [app slot_loop gap]. rewrite Hd. cbn. rewrite u32_small by lia. destruct (Z.leb_spec size (hi - lo)) as [Hle|Hgt].
    + right. exists [], [], [], [], d2, [], (Z.max mx (hi - lo - size)). cbn. split_and!; [done..| lia | |].
      * rewrite u32_small by lia. do 2 f_equal. case_test; to_prop; lia.
      * intros nb -> ->. lia.
    + left. split; [lia|]. do 2 f_equal. case_test; to_prop; lia.
  - destruct Hch as (Hb & Hlo & Hc). pose proof (bo_end b Hb). pose proof (bo_pos b Hb). pose proof (chain_le _ _ _ Hc).
    cbn [app slot_loop gap]. rewrite Ha, u32_small by lia. destruct (Z.leb_spec size (laddr_start b - lo)) as [Hle|Hgt].
    + right. exists [], (a :: ids), [], (b :: bs), a, (ids ++ [d2]), (Z.max (Z.max mx (laddr_start b - lo - size)) (gap (laddr_end b) bs hi)).
      cbn [app length next_start end_of gap]. split_and!; [done..|lia| |].
      * rewrite u32_small by lia. rewrite (slot_loop_rest _ _ _ _ _ _ _ _ _ _ Hl Hd Hc) by lia. do 2 f_equal. case_test; to_prop; lia.
      * intros nb -> ->. lia.
    + destruct (IH (laddr_end b) (if mx <? laddr_start b - lo then laddr_start b - lo else mx) Hc ltac:(lia))
        as [[Hg E] | (ipre & ipost & pre & post & a' & iend & mx' & -> & -> & Hlen & Hi & Hsz & E & Hmx)].
      * left. split; [lia|]. rewrite E. do 2 f_equal. case_test; to_prop; lia.
      * right. exists (a :: ipre), ipost, (b :: pre), post, a', iend, mx'. cbn [app length end_of gap].
        split_and!; [done | done | by rewrite Hlen | done | done | done |].
        intros nb Hn1 Hn2. rewrite (Hmx nb Hn1 Hn2). case_test; to_prop; lia.
Qed.

Lemma insert_before_app a new pre post : a ∉ pre -> insert_before a new (pre ++ a :: post) = pre ++ new :: a :: post.
Proof.
  induction pre as [|b pre IH]; cbn; [by rewrite bool_decide_true|].
  intros [Hne Hn]%not_elem_of_cons. rewrite bool_decide_false by congruence. by rewrite IH.
Qed.

(** ** Looking for a block *)

Lemma listed_head h ids bs d2 c hi :
  listed h ids bs -> h !! d2 = Some (dummy hi c) -> head (ids ++ [d2]) ≫= (h !!.) = Some match bs with [] => dummy hi c | b :: _ => b end.
Proof. intros [|a b ids' bs' Ha Hl] Hd; cbn; done. Qed.

Lemma find_block_spec h whole l d2 c hi ids bs p pb :
  listed h ids bs -> h !! d2 = Some (dummy hi c) -> Forall (fun a => is_dummy whole a = false) ids -> is_dummy whole d2 = true ->
  h !! p = Some pb -> chain (laddr_end pb) bs hi -> 0 <= laddr_end pb -> hi < 2 ^ 32 ->
  (Forall (fun b => laddr_start b <> l) bs /\ find_block h whole l (Some p) (ids ++ [d2]) = Some None)
  \/ exists ipre a ipost pre b post,
    ids = ipre ++ a :: ipost /\ bs = pre ++ b :: post /\ length ipre = length pre /\ laddr_start b = l
    /\ find_block h whole l (Some p) (ids ++ [d2]) = Some (Some (a, b, next_start post hi - end_of (laddr_end pb) pre)).
Proof.
  intros Hl Hd Hnd Hdd. revert p pb. induction Hl as [|a b ids bs Ha Hl IH]; intros p pb Hp Hch H0 Hhi.
  { left. split; [done|]. cbn. by rewrite Hd, Hdd. }
  apply Forall_cons in Hnd as [Hna Hnd]. cbn [chain] in Hch. destruct Hch as (Hb & Hlo & Hc).
  pose proof (bo_end b Hb). pose proof (bo_pos b Hb). pose proof (chain_le _ _ _ Hc).
  cbn [app find_block]. rewrite Ha, Hna. destruct (Z.eqb_spec (laddr_start b) l) as [E|E].
  - right. exists [], a, ids, [], b, bs. cbn [app length end_of]. split_and!; [done..|].
    pose proof (listed_head _ _ _ _ _ _ Hl Hd) as Hh. destruct (head (ids ++ [d2])) as [n|]; [|done]. cbn in Hh. rewrite Hh, Hp.
    pose proof (chain_next _ _ _ Hc) as Hn. destruct bs; cbn [next_start dummy laddr_start] in *; rewrite u32_small by lia; done.
  - destruct (IH Hnd a b Ha Hc ltac:(lia) Hhi) as [[Hf Ef] | (ipre & a' & ipost & pre & b' & post & -> & -> & Hlen & Hs & Ef)].
    + left. split; [by constructor | done].
    + right. exists (a :: ipre), a', ipost, (b :: pre), b', post. cbn [app length end_of]. split_and!; [done | done | by rewrite Hlen | done | done].
Qed.

Lemma find_paddr_spec h whole paddr d2 c hi ids bs :
  listed h ids bs -> h !! d2 = Some (dummy hi c) -> Forall (fun a => is_dummy whole a = false) ids -> is_dummy whole d2 = true ->
  find_paddr h whole paddr (ids ++ [d2]) = Some (List.find (fun b => paddr_start b =? paddr) bs).
Proof.
  intros Hl Hd Hnd Hdd. induction Hl as [|a b ids bs Ha Hl IH]; cbn [app find_paddr List.find].
  { by rewrite Hd, Hdd. }
  apply Forall_cons in Hnd as [Hna Hnd]. rewrite Ha, Hna. destruct (paddr_start b =? paddr); [done|]. by apply IH.
Qed.

(** ** The physical addresses *)

Definition same_target (target : Z) (b : mem_block_t) : Prop := b_target b = target.

(** The comparisons of the code on the list of records. *)
Fixpoint check_records (target paddr size : Z) (allow : bool) (bs : list mem_block_t) : paddr_check :=
  match bs with
  | [] => Clear
  | b :: bs =>
      if target =? b_target b then
        if s_is_enclosed (paddr_start b) (paddr_end b) paddr size then Enclosed b
        else if negb allow && s_is_overlapped (paddr_start b) (paddr_end b) paddr size then Overlapped
        else check_records target paddr size allow bs
      else check_records target paddr size allow bs
  end.

Lemma check_paddr_spec h target paddr size allow lo hi c1 c2 d1 d2 ids bs :
  is_target target -> listed h ids bs -> h !! d1 = Some (dummy lo c1) -> h !! d2 = Some (dummy hi c2) ->
  check_paddr h target paddr size allow (d1 :: ids ++ [d2]) = Some (check_records target paddr size allow bs).
Proof.
  intros Ht Hl Hd1 Hd2. cbn [check_paddr]. rewrite Hd1. cbn [dummy b_target].
  assert ((target =? 0) = false) as Hz by (destruct Ht as [-> | ->]; done). rewrite Hz. clear Hd1.
  induction Hl as [|a b ids bs Ha Hl IH]; cbn [app check_paddr check_records].
  - rewrite Hd2. cbn [dummy b_target]. by rewrite Hz.
  - rewrite Ha. by repeat case_test.
Qed.

(** Two ranges of physical addresses that share none. *)
Definition apart (b : mem_block_t) (paddr size : Z) : Prop := paddr + size <= paddr_start b \/ paddr_end b <= paddr.

Section Check.
  Context (target paddr size : Z) (Hp : 0 <= paddr) (Hs : 0 < size) (Hm : paddr + size < 2 ^ 32).

  (** Enclosed or overlapped: exactly the ranges that share an address. *)
Lemma apart_spec b :
    block_ok b ->
    s_is_enclosed (paddr_start b) (paddr_end b) paddr size = false /\ s_is_overlapped (paddr_start b) (paddr_end b) paddr size = false
    <-> apart b paddr size.
  Proof.
    intros Hb. pose proof (bo_pend b Hb). pose proof (bo_pos b Hb).
    unfold s_is_enclosed, s_is_overlapped, apart. rewrite u32_small by lia.
    rewrite orb_false_iff, !andb_false_iff, !Z.leb_gt, !Z.ltb_ge. lia.
  Qed.

Lemma check_clear bs :
    Forall block_ok bs -> check_records target paddr size false bs = Clear -> Forall (fun b => same_target target b -> apart b paddr size) bs.
  Proof.
    induction 1 as [|b bs Hb Hbs IH]; cbn [check_records]; [constructor|]. unfold same_target in *.
    destruct (Z.eqb_spec target (b_target b)) as [E|E]; cbn [negb andb].
    - destruct (s_is_enclosed _ _ _ _) eqn:E1; [done|]. destruct (s_is_overlapped _ _ _ _) eqn:E2; [done|].
      intros Hc. constructor; [|by apply IH]. intros _. by apply apart_spec.
    - intros Hc. constructor; [done | by apply IH].
  Qed.

Lemma check_enclosed allow bs b :
    Forall block_ok bs -> check_records target paddr size allow bs = Enclosed b ->
    b ∈ bs /\ same_target target b /\ paddr_start b <= paddr /\ paddr + size <= paddr_end b.
  Proof.
    induction 1 as [|c bs Hc Hbs IH]; cbn [check_records]; [done|].
    assert (forall P, b ∈ bs /\ P -> b ∈ c :: bs /\ P) as Hin by (intros P [? ?]; split; [by apply list_elem_of_further | done]).
    destruct (Z.eqb_spec target (b_target c)) as [E|E]; [|by intros ?%IH%Hin].
    destruct (s_is_enclosed _ _ _ _) eqn:E1.
    - intros [= <-]. split_and!; [by apply list_elem_of_here | done | ..];
        unfold s_is_enclosed in E1; rewrite u32_small in E1 by lia; to_prop; lia.
    - destruct (negb allow && _) eqn:E2; [done|]. by intros ?%IH%Hin.
  Qed.

Lemma check_overlapped allow bs :
    Forall block_ok bs -> check_records target paddr size allow bs = Overlapped ->
    allow = false /\ exists b, b ∈ bs /\ same_target target b /\ ~ apart b paddr size.
  Proof.
    induction 1 as [|c bs Hc Hbs IH]; cbn [check_records]; [done|].
    assert ((allow = false /\ exists b, b ∈ bs /\ same_target target b /\ ~ apart b paddr size) ->
            allow = false /\ exists b, b ∈ c :: bs /\ same_target target b /\ ~ apart b paddr size) as Hin.
    { intros [Ha (b & ? & ?)]. split; [done|]. exists b. split; [by apply list_elem_of_further | done]. }
    destruct (Z.eqb_spec target (b_target c)) as [E|E]; [|by intros ?%IH%Hin].
    destruct (s_is_enclosed _ _ _ _) eqn:E1; [done|]. destruct (negb allow && _) eqn:E2; [|by intros ?%IH%Hin].
    intros _. apply andb_true_iff in E2 as [E2 E3]. destruct allow; [done|]. split; [done|]. exists c.
    split_and!; [by apply list_elem_of_here | done|]. intros Hap. apply apart_spec in Hap as [_ Hap]; [congruence | done].
  Qed.
End Check.
