(* ===== verification/MmuState.v ===== *)
(** * The state of the memory mapping ([esp_mm/esp_mmu_map.c])

    The invariant: the lists of the regions are well formed, the size of the
    largest slot is right, and the table of the MMU maps what the blocks say. *)

From S2P Require Import Prelude EspErr MmuHal MmuMap MmuBlocks.

Record region_ok (h : gmap positive mem_block_t) (r : mem_region_t) (bs : list mem_block_t) : Prop := {
  ro_pages : exists f e, free_head r = PAGE * f /\ end_ r = PAGE * e /\ 0 <= f /\ e <= PAGES;
  ro_chain : chain (free_head r) bs (end_ r);
  ro_slot : max_slot_size r = gap (free_head r) bs (end_ r);
  ro_list : (mem_block_head r = [] /\ bs = [])
            \/ exists d1 ids d2 c1 c2, mem_block_head r = d1 :: ids ++ [d2] /\ h !! d1 = Some (dummy (free_head r) c1)
                 /\ h !! d2 = Some (dummy (end_ r) c2) /\ listed h ids bs }.

Definition in_region (r : mem_region_t) (l : Z) : Prop := free_head r <= l < end_ r.

(** [bss]: the blocks of each region. *)
Record state_ok (s : mmu_ctx_t) (bss : list (list mem_block_t)) : Prop := {
  so_length : length bss = length (mem_regions s);
  so_regions : forall i r bs, mem_regions s !! i = Some r -> bss !! i = Some bs -> region_ok (heap s) r bs;
  so_order : forall i j r r', (i < j)%nat -> mem_regions s !! i = Some r -> mem_regions s !! j = Some r' -> end_ r <= free_head r';
  so_nodup : forall i r, mem_regions s !! i = Some r -> NoDup (mem_block_head r);
  so_own : forall i j r r' a, i <> j -> mem_regions s !! i = Some r -> mem_regions s !! j = Some r' ->
             a ∈ mem_block_head r -> a ∈ mem_block_head r' -> False;
  so_table : table_ok (hw s);
  so_phys : forall i r bs l, mem_regions s !! i = Some r -> bss !! i = Some bs -> in_region r l -> phys (hw s) l = translate bs l }.

(** ** Regions *)

Lemma listed_live h ids bs a : listed h ids bs -> a ∈ ids -> is_Some (h !! a).
Proof. intros Hl Ha. apply list_elem_of_lookup in Ha as [i Hi]. destruct (Forall2_lookup_l _ _ _ _ _ Hl Hi) as (b & _ & Hb). by exists b. Qed.

Lemma region_live h r bs a : region_ok h r bs -> a ∈ mem_block_head r -> is_Some (h !! a).
Proof.
  intros Hr. destruct (ro_list _ _ _ Hr) as [[-> _] | (d1 & ids & d2 & c1 & c2 & -> & H1 & H2 & Hl)]; [by intros ?%not_elem_of_nil|].
  rewrite elem_of_cons, elem_of_app, list_elem_of_singleton. intros [-> | [Ha | ->]]; [by eexists | by eapply listed_live | by eexists].
Qed.

Lemma listed_heap h h' ids bs : (forall a, a ∈ ids -> h' !! a = h !! a) -> listed h ids bs -> listed h' ids bs.
Proof.
  intros He. induction 1 as [|a b ids bs Ha Hl IH]; [constructor|]. constructor.
  - by rewrite He by apply list_elem_of_here.
  - apply IH. intros c Hc. by apply He, list_elem_of_further.
Qed.

(** A region is concerned by its own blocks only. *)
Lemma region_heap h h' r bs : (forall a, a ∈ mem_block_head r -> h' !! a = h !! a) -> region_ok h r bs -> region_ok h' r bs.
Proof.
  intros He [Hp Hc Hs Hl]. split; [done..|]. destruct Hl as [Hl | (d1 & ids & d2 & c1 & c2 & E & H1 & H2 & Hl)]; [by left | right].
  exists d1, ids, d2, c1, c2. rewrite E in He. setoid_rewrite elem_of_cons in He. setoid_rewrite elem_of_app in He. setoid_rewrite list_elem_of_singleton in He.
  split_and!; [done | rewrite He by auto; done | rewrite He by auto; done |].
  apply (listed_heap h); [|done]. intros a Ha. by apply He; auto.
Qed.

(** ** Changing a region *)

Section Update.
  Context (s : mmu_ctx_t) (bss : list (list mem_block_t)) (Hs : state_ok s bss).
  Context (i : nat) (r : mem_region_t) (bs : list mem_block_t).
  Context (Hr : mem_regions s !! i = Some r) (Hbs : bss !! i = Some bs).

  (** A region, the heap and the table change; other regions, their blocks and
      what their addresses lead to do not. *)
Lemma state_update r' bs' h' m' :
    region_ok h' r' bs' -> free_head r <= free_head r' -> end_ r' = end_ r -> NoDup (mem_block_head r') ->
    (forall a, a ∈ mem_block_head r' -> a ∈ mem_block_head r \/ heap s !! a = None) ->
    (forall a, is_Some (heap s !! a) -> a ∉ mem_block_head r -> h' !! a = heap s !! a) ->
    table_ok m' ->
    (forall l, in_region r' l -> phys m' l = translate bs' l) ->
    (forall l, 0 <= l -> ~ in_region r l -> phys m' l = phys (hw s) l) ->
    state_ok {| mem_regions := <[i := r']> (mem_regions s); heap := h'; hw := m' |} (<[i := bs']> bss).
  Proof.
    intros Hr' Hfh He Hnd Hids Hh Htab Hin Hout.
    assert (Hi : (i < length (mem_regions s))%nat) by (by apply lookup_lt_Some in Hr).
    assert (Hold : forall j r1, i <> j -> mem_regions s !! j = Some r1 -> exists bs1, bss !! j = Some bs1 /\ region_ok (heap s) r1 bs1).
    { intros j r1 Hne Hj. destruct (lookup_lt_is_Some_2 bss j) as [bs1 Hb]; [rewrite (so_length _ _ Hs); by apply lookup_lt_Some in Hj|].
      exists bs1. split; [done|]. by apply (so_regions _ _ Hs j). }
    assert (Hother : forall j r1 a, i <> j -> mem_regions s !! j = Some r1 -> a ∈ mem_block_head r1 -> (a ∉ mem_block_head r) /\ is_Some (heap s !! a)).
    { intros j r1 a Hne Hj Ha. split; [intros Ha'; by apply (so_own _ _ Hs i j r r1 a)|].
      destruct (Hold j r1 Hne Hj) as (bs1 & _ & Hok). by eapply region_live. }
    split; cbn [mem_regions heap hw].
    - by rewrite !length_insert, (so_length _ _ Hs).
    - intros j r1 bs1. destruct (decide (i = j)) as [<- | Hne].
      + rewrite !list_lookup_insert_eq by (rewrite ?(so_length _ _ Hs); done). by intros [= <-] [= <-].
      + rewrite !list_lookup_insert_ne by done. intros Hj Hb. apply (region_heap (heap s)); [|by apply (so_regions _ _ Hs j)].
        intros a Ha. destruct (Hother j r1 a Hne Hj Ha). by apply Hh.
    - intros j k r1 r2 Hjk. destruct (decide (i = j)) as [<- | Hne], (decide (i = k)) as [<- | Hne']; [lia|..].
      + rewrite list_lookup_insert_eq, list_lookup_insert_ne by done. intros [= <-] Hk. rewrite He. by apply (so_order _ _ Hs i k).
      + rewrite list_lookup_insert_ne, list_lookup_insert_eq by done. intros Hj [= <-]. pose proof (so_order _ _ Hs j i r1 r Hjk Hj Hr). lia.
      + rewrite !list_lookup_insert_ne by done. by apply (so_order _ _ Hs).
    - intros j r1. destruct (decide (i = j)) as [<- | Hne]; [by rewrite list_lookup_insert_eq by done; intros [= <-]|].
      rewrite list_lookup_insert_ne by done. apply (so_nodup _ _ Hs).
    - assert (Hsep : forall j r1 a, i <> j -> mem_regions s !! j = Some r1 -> a ∈ mem_block_head r' -> a ∈ mem_block_head r1 -> False).
      { intros j r1 a Hne Hj Ha Ha1. destruct (Hother j r1 a Hne Hj Ha1) as [Hn [b Hb]]. by destruct (Hids a Ha) as [?|?]; [|congruence]. }
      intros j k r1 r2 a Hjk. destruct (decide (i = j)) as [<- | Hne], (decide (i = k)) as [<- | Hne']; [done|..].
      + rewrite list_lookup_insert_eq, list_lookup_insert_ne by done. intros [= <-] Hk Ha Ha'. by apply (Hsep k r2 a).
      + rewrite list_lookup_insert_ne, list_lookup_insert_eq by done. intros Hj [= <-] Ha Ha'. by apply (Hsep j r1 a).
      + rewrite !list_lookup_insert_ne by done. by apply (so_own _ _ Hs).
    - done.
    - intros j r1 bs1 l. destruct (decide (i = j)) as [<- | Hne].
      + rewrite !list_lookup_insert_eq by (rewrite ?(so_length _ _ Hs); done). intros [= <-] [= <-] Hl. apply Hin. unfold in_region in *. lia.
      + rewrite !list_lookup_insert_ne by done. intros Hj Hb Hl. rewrite <- (so_phys _ _ Hs j r1 bs1 l) by done.
        pose proof (so_regions _ _ Hs i r bs Hr Hbs) as Hri. pose proof (so_regions _ _ Hs j r1 bs1 Hj Hb) as Hrj.
        destruct (ro_pages _ _ _ Hrj) as (f & e & Hf & _ & Hf0 & _). unfold in_region, PAGE in *.
        apply Hout; [lia|]. pose proof (chain_le _ _ _ (ro_chain _ _ _ Hri)). pose proof (chain_le _ _ _ (ro_chain _ _ _ Hrj)).
        destruct (Nat.lt_ge_cases i j).
        * pose proof (so_order _ _ Hs i j r r1 ltac:(lia) Hr Hj). lia.
        * pose proof (so_order _ _ Hs j i r1 r ltac:(lia) Hj Hr). lia.
  Qed.
End Update.

(** ** The hardware *)

(** The calls that write the table turn the caches off before, and on again when
    they are done. *)
Definition map_log (v size mask : Z) (ws : list hw_event) : list hw_event :=
  CachesOff :: ws ++ [BusEnabled 0 mask; BusEnabled 1 mask; Invalidated v size; CachesOn].

Lemma phys_event e m l : phys (with_event e m) l = phys m l.
Proof. done. Qed.

Lemma get_bus_ok v l len :
  bus_addr v l -> 0 < len -> l + len <= LINEAR_SIZE ->
  exists mask, cache_ll_l1_get_bus v len = Some mask /\ (mask = CACHE_BUS_IBUS0 \/ mask = CACHE_BUS_DBUS0).
Proof.
  unfold bus_addr, LINEAR_SIZE, cache_ll_l1_get_bus, SOC_IRAM0_CACHE_ADDRESS_LOW, SOC_IRAM0_CACHE_ADDRESS_HIGH,
    SOC_DRAM0_CACHE_ADDRESS_LOW, SOC_DRAM0_CACHE_ADDRESS_HIGH, SOC_MMU_DBUS_VADDR_BASE, SOC_MMU_IBUS_VADDR_BASE.
  intros [Hv Hl] Hn Hs. rewrite u32_small by lia.
  repeat case_test; [by eexists; eauto..|]. exfalso.
  repeat match goal with H : _ && _ = false |- _ => apply andb_false_iff in H end.
  rewrite !Z.leb_gt, !Z.ltb_ge in *. lia.
Qed.

Lemma invalidate_ok v l len m :
  bus_addr v l -> 0 < len -> l + len <= LINEAR_SIZE -> cache_hal_invalidate_addr v len m = with_event (Invalidated v len) m.
Proof.
  intros Hv Hn Hs. pose proof (bus_addr_valid v l len Hv Hn Hs) as Ha. revert Ha.
  unfold mmu_hal_check_valid_ext_vaddr_region, mmu_ll_check_valid_ext_vaddr_region, cache_hal_invalidate_addr.
  change (has_flag _ MMU_VADDR_INSTRUCTION) with true. change (has_flag _ MMU_VADDR_DATA) with true. cbn [andb]. by intros ->.
Qed.

Section Hardware.
  Context (m : mmu_hw) (Hm : table_ok m) (v k : Z) (n : nat) (Hv : bus_addr v (PAGE * k)) (Hn : (0 < n)%nat) (Hk : k + n <= PAGES).

Lemma in_range_pages l : (PAGE * k <=? l) && (l <? PAGE * (k + n)) = (PAGE * k <=? l) && (l <? PAGE * k + PAGE * n).
  Proof. by rewrite Z.mul_add_distr_l. Qed.

Lemma do_mapping_spec target p :
    is_target target -> 0 <= p -> p + n <= SOC_MMU_MAX_PADDR_PAGE_NUM -> PAGE * n < PAGE * SOC_MMU_MAX_PADDR_PAGE_NUM ->
    exists m' mask ws, s_do_mapping target v (PAGE * p) (PAGE * n) m = Some m' /\ table_ok m' /\ Forall (writes_in (PAGE * k) (PAGE * k + PAGE * n)) ws
      /\ mmu_log m' = mmu_log m ++ map_log v (PAGE * n) mask ws
      /\ forall l, 0 <= l -> phys m' l = if (PAGE * k <=? l) && (l <? PAGE * k + PAGE * n) then Some (PAGE * p + (l - PAGE * k), target) else phys m l.
  Proof.
    intros Ht Hp Hmax Hlen. unfold s_do_mapping, s_mapping_operation.
    assert (Hl : PAGE * k + PAGE * n <= LINEAR_SIZE) by (unfold PAGES, PAGE, LINEAR_SIZE in *; lia).
    assert (Hpos : 0 < PAGE * n) by (unfold PAGE; lia).
    destruct (map_region_spec (with_event CachesOff m) target v k p n) as (m' & ws & -> & Hok & Hlog & Hw & Hphys); [done..|].
    destruct (get_bus_ok v (PAGE * k) (PAGE * n) Hv Hpos Hl) as (mask & -> & Hmask).
    assert (E : (Z.land mask OTHER_BUSES =? 0) = true) by (by destruct Hmask as [-> | ->]).
    unfold cache_ll_l1_enable_bus. rewrite E. rewrite (invalidate_ok v (PAGE * k)) by done.
    rewrite Z.mul_add_distr_l in Hw. eexists _, mask, ws. split_and!; [done | done | done | |].
    - cbn. rewrite Hlog. cbn. unfold map_log. by rewrite <- !app_assoc.
    - intros l Hl0. rewrite !phys_event, Hphys by done. by rewrite in_range_pages, phys_event.
  Qed.

Lemma do_unmapping_spec :
    exists m' ws, s_do_unmapping v (PAGE * n) m = Some m' /\ table_ok m' /\ Forall clears ws
      /\ mmu_log m' = mmu_log m ++ CachesOff :: ws ++ [CachesOn]
      /\ forall l, 0 <= l -> phys m' l = if (PAGE * k <=? l) && (l <? PAGE * k + PAGE * n) then None else phys m l.
  Proof.
    unfold s_do_unmapping, s_unmapping_operation.
    destruct (unmap_region_spec (with_event CachesOff m) v k n) as (m' & ws & -> & Hok & Hlog & Hw & Hphys); [done..|].
    eexists _, ws. split_and!; [done | done | done | |].
    - cbn. rewrite Hlog. cbn. by rewrite <- !app_assoc.
    - intros l Hl0. rewrite !phys_event, Hphys by done. by rewrite in_range_pages, phys_event.
  Qed.
End Hardware.
