(* ===== verification/MmuOps.v ===== *)
(** * Mapping and unmapping ([esp_mm/esp_mmu_map.c])

    What [esp_mmu_map] and [esp_mmu_unmap] do to a state that satisfies the
    invariant, on every path. *)

From S2P Require Import Prelude EspErr MmuHal MmuMap MmuBlocks MmuState.

(** ** Sizes *)

(** The number of pages that hold [size] bytes. *)
Definition pages (size : Z) : Z := (size + (PAGE - 1)) / PAGE.

Lemma align_down x : 0 <= x < 2 ^ 32 -> Z.land x (u32 (Z.lnot (PAGE - 1))) = PAGE * (x / PAGE).
Proof.
  intros Hx. change (u32 (Z.lnot (PAGE - 1))) with (Z.land (Z.lnot (Z.ones 16)) (Z.ones 32)).
  rewrite (Z.land_comm (Z.lnot _)), Z.land_assoc, Z.land_ones, (Z.mod_small x) by lia.
  rewrite <- Z.ldiff_land, Z.ldiff_ones_r, Z.shiftl_mul_pow2, Z.shiftr_div_pow2 by lia. apply Z.mul_comm.
Qed.

Lemma align_up size : 0 <= size -> size + (PAGE - 1) < 2 ^ 32 -> ALIGN_UP_BY size CONFIG_MMU_PAGE_SIZE = PAGE * pages size.
Proof.
  unfold ALIGN_UP_BY. change CONFIG_MMU_PAGE_SIZE with PAGE. intros H0 Hm.
  rewrite u32_small by (unfold PAGE in *; lia). rewrite align_down by (unfold PAGE in *; lia). done.
Qed.

Lemma pages_spec size : PAGE * pages size - PAGE < size <= PAGE * pages size.
Proof. unfold pages, PAGE. pose proof (Z.div_mod (size + 65535) 65536 ltac:(done)). pose proof (Z.mod_pos_bound (size + 65535) 65536 ltac:(done)). change (65536 - 1) with 65535. lia. Qed.

(** Arguments of a mapping: something of a memory of 1 GiB at most. *)
Record map_args (paddr size target : Z) : Prop := {
  ma_paddr : 0 <= paddr;
  ma_size : 0 < size;
  ma_max : paddr + PAGE * pages size <= PAGE * SOC_MMU_MAX_PADDR_PAGE_NUM;
  ma_len : PAGE * pages size < PAGE * SOC_MMU_MAX_PADDR_PAGE_NUM;
  ma_target : is_target target }.

Lemma map_args_align paddr size target : map_args paddr size target -> ALIGN_UP_BY size CONFIG_MMU_PAGE_SIZE = PAGE * pages size.
Proof.
  intros [H1 H2 _ H3 _]. unfold PAGE, SOC_MMU_MAX_PADDR_PAGE_NUM in *. pose proof (pages_spec size). unfold PAGE in *.
  apply align_up; unfold PAGE; lia.
Qed.

Lemma map_args_pages paddr size target : map_args paddr size target -> 0 < pages size.
Proof. intros [H1 H2 _ H3 _]. pose proof (pages_spec size). unfold PAGE in *. lia. Qed.

(** ** The new block *)

Lemma end_of_page lo pre hi : (exists f, lo = PAGE * f) -> chain lo pre hi -> exists f, end_of lo pre = PAGE * f.
Proof.
  revert lo. induction pre as [|b pre IH]; intros lo Hf; cbn; [done|]. intros (Hb & _ & Hc). eapply IH; [|done].
  destruct (bo_start b Hb) as [k Hk], (bo_size b Hb) as [n Hn]. exists (k + n). rewrite (bo_end b Hb), Hk, Hn. lia.
Qed.

(** The table is written for a block, and cleared for a block. *)
Lemma map_table m b :
  table_ok m -> block_ok b -> 0 <= laddr_start b -> laddr_end b <= LINEAR_SIZE ->
  exists m' mask ws, s_do_mapping (b_target b) (vaddr_start b) (paddr_start b) (b_size b) m = Some m' /\ table_ok m' /\ Forall (writes_in (laddr_start b) (laddr_end b)) ws
    /\ mmu_log m' = mmu_log m ++ map_log (vaddr_start b) (b_size b) mask ws
    /\ forall l, 0 <= l -> phys m' l = if inside b l then Some (paddr_start b + (l - laddr_start b), b_target b) else phys m l.
Proof.
  intros Hm Hb H0 Hl. destruct (bo_start b Hb) as [k Hk], (bo_size b Hb) as [n Hn], (bo_phys b Hb) as [p Hp].
  pose proof (bo_end b Hb) as He. pose proof (bo_pos b Hb). pose proof (bo_pend b Hb). pose proof (bo_pmax b Hb). pose proof (bo_psize b Hb).
  pose proof (bo_pstart b Hb). unfold inside. rewrite He, Hk, Hn, Hp in *. rewrite <- (Z2Nat.id n) in * by (unfold PAGE in *; lia).
  assert (Hv : bus_addr (vaddr_start b) (PAGE * k)).
  { rewrite (bo_vaddr b Hb), Hk. apply laddr_to_vaddr. unfold PAGE, LINEAR_SIZE in *. lia. }
  apply do_mapping_spec; unfold PAGE, PAGES, SOC_MMU_MAX_PADDR_PAGE_NUM, LINEAR_SIZE in *; try done; try lia. apply (bo_target b Hb).
Qed.

Lemma unmap_table m b :
  table_ok m -> block_ok b -> 0 <= laddr_start b -> laddr_end b <= LINEAR_SIZE ->
  exists m' ws, s_do_unmapping (vaddr_start b) (b_size b) m = Some m' /\ table_ok m' /\ Forall clears ws
    /\ mmu_log m' = mmu_log m ++ CachesOff :: ws ++ [CachesOn]
    /\ forall l, 0 <= l -> phys m' l = if inside b l then None else phys m l.
Proof.
  intros Hm Hb H0 Hl. destruct (bo_start b Hb) as [k Hk], (bo_size b Hb) as [n Hn].
  pose proof (bo_end b Hb) as He. pose proof (bo_pos b Hb).
  unfold inside. rewrite He, Hk, Hn in *. rewrite <- (Z2Nat.id n) in * by (unfold PAGE in *; lia).
  assert (Hv : bus_addr (vaddr_start b) (PAGE * k)).
  { rewrite (bo_vaddr b Hb), Hk. apply laddr_to_vaddr. unfold PAGE, LINEAR_SIZE in *. lia. }
  apply do_unmapping_spec; unfold PAGE, PAGES, LINEAR_SIZE in *; try done; lia.
Qed.

(** What a successful call has done: a block with these properties is new in the
    region, in a slot, and its addresses lead to the physical range. *)
Record mapped (s s' : mmu_ctx_t) (bss : list (list mem_block_t)) (id : nat) (new : positive) (nb : mem_block_t)
    (pre post : list mem_block_t) : Prop := {
  mp_state : state_ok s' (<[id := pre ++ nb :: post]> bss);
  mp_ok : block_ok nb;
  mp_region : exists r r', mem_regions s !! id = Some r /\ mem_regions s' = <[id := r']> (mem_regions s)
      /\ free_head r <= laddr_start nb /\ laddr_end nb <= end_ r
      /\ with_blocks [] r' = with_blocks [] (with_free (free_head r) (gap (free_head r) (pre ++ nb :: post) (end_ r)) r);
  mp_heap : heap s' !! new = Some nb;
  mp_phys : forall l, 0 <= l -> phys (hw s') l
      = if inside nb l then Some (paddr_start nb + (l - laddr_start nb), b_target nb) else phys (hw s) l;
  mp_log : exists mask ws, Forall (writes_in (laddr_start nb) (laddr_end nb)) ws /\ mmu_log (hw s') = mmu_log (hw s) ++ map_log (vaddr_start nb) (b_size nb) mask ws }.

Lemma region_bounds s bss id r bs :
  state_ok s bss -> mem_regions s !! id = Some r -> bss !! id = Some bs -> 0 <= free_head r /\ free_head r <= end_ r /\ end_ r <= LINEAR_SIZE.
Proof.
  intros Hs Hr Hbs. pose proof (so_regions _ _ Hs id r bs Hr Hbs) as Hok. destruct (ro_pages _ _ _ Hok) as (f & e & E1 & E2 & E3 & E4).
  pose proof (chain_le _ _ _ (ro_chain _ _ _ Hok)). unfold PAGES, PAGE, LINEAR_SIZE in *. lia.
Qed.

Section MapBlock.
  Context (s : mmu_ctx_t) (bss : list (list mem_block_t)) (Hs : state_ok s bss).
  Context (id : nat) (r : mem_region_t) (bs : list mem_block_t).
  Context (Hr : mem_regions s !! id = Some r) (Hbs : bss !! id = Some bs).
  Context (paddr size target caps flags : Z) (Ha : map_args paddr size target) (Hal : paddr mod PAGE = 0).

Let aligned := PAGE * pages size.
Let allow := has_flag flags ESP_MMU_MMAP_FLAG_PADDR_SHARED.

Lemma new_block_ok laddr :
    (exists f, laddr = PAGE * f) -> 0 <= laddr -> laddr + aligned <= LINEAR_SIZE -> block_ok (block_of laddr aligned caps paddr target).
  Proof.
    intros Hf H0 Hl. destruct Ha as [H1 H2 H3 H4 H5]. pose proof (map_args_pages _ _ _ Ha).
    unfold aligned, PAGE, SOC_MMU_MAX_PADDR_PAGE_NUM, LINEAR_SIZE in *.
    split; cbn; rewrite ?u32_small by (unfold PAGE; lia); try done.
    - by exists (pages size).
    - lia.
    - exists (paddr / 65536). by apply (Z.div_exact paddr 65536).
  Qed.

  Context (d1 d2 : positive) (ids : list positive) (c1 c2 : Z).
  Context (Hids : mem_block_head r = d1 :: ids ++ [d2]).
  Context (Hd1 : heap s !! d1 = Some (dummy (free_head r) c1)) (Hd2 : heap s !! d2 = Some (dummy (end_ r) c2)).
  Context (Hl : listed (heap s) ids bs) (Hslot : aligned <= max_slot_size r).

Lemma listed_app h ids1 ids2 pre post :
    length ids1 = length pre -> listed h (ids1 ++ ids2) (pre ++ post) <-> listed h ids1 pre /\ listed h ids2 post.
  Proof.
    intros Hlen. unfold listed. split; [|intros [? ?]; by apply Forall2_app].
    intros Hf. by apply Forall2_app_inv in Hf.
  Qed.

  (** The heap and the lists after the insertion. *)
Lemma insert_region_ok ipre ipost pre post a iend new nb mx' :
    ids = ipre ++ ipost -> bs = pre ++ post -> length ipre = length pre -> ipost ++ [d2] = a :: iend ->
    heap s !! new = None -> chain (free_head r) (pre ++ nb :: post) (end_ r) -> mx' = gap (free_head r) (pre ++ nb :: post) (end_ r) ->
    let r' := with_blocks (insert_before a new (d1 :: ids ++ [d2])) (with_free (free_head r) mx' r) in
    region_ok (<[new := nb]> (heap s)) r' (pre ++ nb :: post) /\ mem_block_head r' = d1 :: (ipre ++ new :: ipost) ++ [d2].
  Proof.
    intros Ei Eb Hlen Ea Hnew Hch Hmx r'.
    assert (Elist : mem_block_head r' = d1 :: (ipre ++ new :: ipost) ++ [d2]).
    { assert (E1 : d1 :: ids ++ [d2] = (d1 :: ipre) ++ a :: iend) by (rewrite Ei, <- Ea; cbn; by rewrite <- app_assoc).
      assert (E2 : d1 :: (ipre ++ new :: ipost) ++ [d2] = (d1 :: ipre) ++ new :: a :: iend) by (rewrite <- Ea; cbn; by rewrite <- app_assoc).
      pose proof (so_nodup _ _ Hs id r Hr) as Hnd. rewrite Hids, E1 in Hnd. apply NoDup_app in Hnd as (_ & Hn & _).
      cbn [r' with_blocks mem_block_head]. rewrite E1, E2. apply insert_before_app. intros Ha'. by apply (Hn a Ha'), list_elem_of_here. }
    split; [|done]. pose proof (so_regions _ _ Hs id r bs Hr Hbs) as Hok.
    split; cbn [free_head end_ max_slot_size with_blocks with_free r'].
    - exact (ro_pages _ _ _ Hok).
    - done.
    - done.
    - right. exists d1, (ipre ++ new :: ipost), d2, c1, c2.
      assert (Hne : forall x y, heap s !! x = Some y -> new <> x) by (intros x y Hx ->; congruence).
      split_and!; [done | by rewrite lookup_insert_ne by eauto | by rewrite lookup_insert_ne by eauto |].
      rewrite Ei, Eb in Hl. apply listed_app in Hl as [Hl1 Hl2]; [|done].
      assert (Hk : forall js xs, listed (heap s) js xs -> listed (<[new := nb]> (heap s)) js xs).
      { intros js xs Hx. apply (listed_heap (heap s)); [|done]. intros x Hin. destruct (listed_live _ _ _ _ Hx Hin) as [y Hy].
        by rewrite lookup_insert_ne by eauto. }
      apply listed_app; [done|]. split; [by apply Hk|]. constructor; [apply lookup_insert_eq | by apply Hk].
  Qed.

  (** With the table written, the block is mapped. *)
Lemma insert_mapped ipre ipost pre post a iend new mx' m' mask ws :
    ids = ipre ++ ipost -> bs = pre ++ post -> length ipre = length pre -> ipost ++ [d2] = a :: iend ->
    heap s !! new = None ->
    let nb := block_of (end_of (free_head r) pre) aligned caps paddr target in
    block_ok nb -> chain (free_head r) (pre ++ nb :: post) (end_ r) -> mx' = gap (free_head r) (pre ++ nb :: post) (end_ r) ->
    table_ok m' -> Forall (writes_in (laddr_start nb) (laddr_end nb)) ws -> mmu_log m' = mmu_log (hw s) ++ map_log (vaddr_start nb) (b_size nb) mask ws ->
    (forall l, 0 <= l -> phys m' l = if inside nb l then Some (paddr_start nb + (l - laddr_start nb), b_target nb) else phys (hw s) l) ->
    let r' := with_blocks (insert_before a new (d1 :: ids ++ [d2])) (with_free (free_head r) mx' r) in
    mapped s (with_hw m' (with_region id r' (with_heap (<[new := nb]> (heap s)) s))) bss id new nb pre post.
  Proof.
    intros Ei Eb Hlen Ea Hnew nb Hnb Hch Hmx Htab Hw Hlog Hphys r'.
    destruct (insert_region_ok ipre ipost pre post a iend new nb mx') as [Hrok Elist]; [done..|]. fold r' in Hrok, Elist.
    pose proof (region_bounds s bss id r bs Hs Hr Hbs) as (Hb0 & Hb1 & Hb2).
    assert (Hbound : free_head r <= laddr_start nb /\ laddr_end nb <= end_ r).
    { apply (chain_bound _ _ _ _ Hch), elem_of_app. right. apply list_elem_of_here. }
    split; cbn [hw heap mem_regions with_hw with_region with_heap with_regions]; [|done| | apply lookup_insert_eq | done | by exists mask, ws].
    - eapply (state_update s bss Hs id r bs Hr Hbs r'); [done | reflexivity | done | | | | done | |].
      + rewrite Elist. pose proof (so_nodup _ _ Hs id r Hr) as Hnd. rewrite Hids, Ei in Hnd.
        assert (Hn : new ∉ mem_block_head r).
        { intros Hin. destruct (region_live _ _ _ _ (so_regions _ _ Hs id r bs Hr Hbs) Hin). congruence. }
        rewrite Hids, Ei in Hn. revert Hnd Hn. rewrite <- !app_assoc, !app_comm_cons. cbn [app]. clear.
        rewrite <- (Permutation_middle (d1 :: ipre) (ipost ++ [d2]) new). intros Hn1 Hn2. by apply NoDup_cons.
      + intros x. rewrite Elist, Hids, Ei. rewrite !elem_of_cons, !elem_of_app, !elem_of_cons.
        intros [-> | [[? | [-> | ?]] | ?]]; auto.
      + intros x [y Hy] _. apply lookup_insert_ne. congruence.
      + intros l Hin. change (in_region r l) in Hin. rewrite Hphys by (unfold in_region in Hin; lia). rewrite (translate_split _ _ _ _ _ _ Hch).
        destruct (inside nb l); [done|]. rewrite <- Eb. by apply (so_phys _ _ Hs id r).
      + intros l H0 Hout. rewrite Hphys by done. destruct (inside nb l) eqn:E; [|done].
        apply inside_spec in E. destruct Hout. unfold in_region. lia.
    - exists r, r'. split_and!; [done | done | lia | lia |]. unfold r'. by rewrite Hmx.
  Qed.

Lemma map_block_spec mem2 dh dt :
    (forall a, mem2 = Some a -> heap s !! a = None) ->
    let res := map_block mem2 id dh dt s paddr aligned target caps flags in
    match check_records target paddr aligned allow bs with
    | Enclosed b => res = Some (ESP_ERR_INVALID_STATE, Some (vaddr_start b), s)
    | Overlapped => res = Some (ESP_ERR_INVALID_ARG, None, s)
    | Clear =>
        match mem2 with
        | None => res = map_err dh dt s
        | Some new => exists s' pre post,
            let nb := block_of (end_of (free_head r) pre) aligned caps paddr target in
            bs = pre ++ post /\ res = Some (ESP_OK, Some (vaddr_start nb), s') /\ mapped s s' bss id new nb pre post
        end
    end.
  Proof.
    intros Hfresh res. unfold res, map_block. rewrite Hr, Hids.
    rewrite (check_paddr_spec _ _ _ _ _ (free_head r) (end_ r) c1 c2 _ _ _ bs (ma_target _ _ _ Ha) Hl Hd1 Hd2).
    fold allow. destruct (check_records _ _ _ _ _) eqn:Echeck; [done..|]. destruct mem2 as [new|]; [|done].
    cbn [head]. rewrite Hd1. cbn [laddr_end dummy].
    pose proof (so_regions _ _ Hs id r bs Hr Hbs) as Hok. pose proof (map_args_pages _ _ _ Ha) as Hpos.
    pose proof (region_bounds s bss id r bs Hs Hr Hbs) as (Hb0 & Hb1 & Hb2).
    assert (Haligned : 0 < aligned) by (unfold aligned, PAGE; lia).
    cbn [slot_loop]. rewrite Hd1. cbn [laddr_start laddr_end dummy]. rewrite Z.sub_diag. change (u32 0) with 0.
    replace (aligned <=? 0) with false by (symmetry; apply Z.leb_gt; lia). change (0 <? 0) with false. cbv iota.
    assert (Hhi : end_ r < 2 ^ 32) by (unfold LINEAR_SIZE in Hb2; lia).
    destruct (slot_loop_spec (heap s) aligned d2 c2 (end_ r) ids bs (free_head r) 0 Hl Hd2 (ro_chain _ _ _ Hok) Hb0 Hhi Haligned)
      as [[Hg _] | (ipre & ipost & pre & post & a & iend & mx' & Ei & Eb & Hlen & Ea & Hsz & -> & Hmx)].
    { rewrite (ro_slot _ _ _ Hok) in Hslot. lia. }
    pose proof (ro_chain _ _ _ Hok) as Hch. rewrite Eb in Hch.
    pose proof (proj1 (chain_app _ _ _ _) Hch) as [Hpre Hpost]. pose proof (chain_next _ _ _ Hpost) as Hnx. pose proof (chain_le _ _ _ Hpre) as Hlo.
    set (laddr := end_of (free_head r) pre) in *. set (nb := block_of laddr aligned caps paddr target).
    assert (Hnb : block_ok nb).
    { apply new_block_ok; [|lia|lia]. eapply end_of_page; [|done]. destruct (ro_pages _ _ _ Hok) as (f & _ & E & _). by exists f. }
    assert (Hend : laddr_end nb = laddr + aligned) by exact (bo_end nb Hnb).
    assert (Hch' : chain (free_head r) (pre ++ nb :: post) (end_ r)) by (apply chain_insert; done).
    destruct (map_table (hw s) nb (so_table _ _ Hs) Hnb) as (m' & mask & ws & Em & Htab & Hw & Hlog & Hphys);
      [cbn; lia | rewrite Hend; lia|].
    change (s_do_mapping target (vaddr_start nb) paddr aligned (hw s) = Some m') in Em. cbv zeta.
    change (hw (with_region _ _ _)) with (hw s). rewrite Em.
    eexists _, pre, post. split_and!; [done | done|]. eapply insert_mapped; try done; [by apply Hfresh|].
    fold laddr nb. rewrite (Hmx nb) by done. pose proof (gap_nonneg _ _ _ Hch'). lia.
  Qed.
End MapBlock.

(** ** The dummies of a region without blocks *)

(** What the allocator returns is not in use, and not returned twice. *)
Definition fresh (mem : nat -> option positive) (s : mmu_ctx_t) : Prop :=
  (forall i a, mem i = Some a -> heap s !! a = None) /\ (forall i j a, mem i = Some a -> mem j = Some a -> i = j).

(** Regions but for their lists. *)
Definition view (s : mmu_ctx_t) : list mem_region_t := with_blocks [] <$> mem_regions s.

Lemma view_insert s id r r' :
  mem_regions s !! id = Some r -> with_blocks [] r' = with_blocks [] r -> with_blocks [] <$> <[id := r']> (mem_regions s) = view s.
Proof.
  intros Hr E. unfold view. rewrite list_fmap_insert, E. apply list_insert_id. by rewrite list_lookup_fmap, Hr.
Qed.

Lemma dummies_ok s bss id r a b ca cb :
  state_ok s bss -> mem_regions s !! id = Some r -> mem_block_head r = [] -> heap s !! a = None -> heap s !! b = None -> a <> b ->
  let r' := with_blocks [a; b] r in
  let s1 := {| mem_regions := <[id := r']> (mem_regions s); heap := <[b := dummy (end_ r) cb]> (<[a := dummy (free_head r) ca]> (heap s)); hw := hw s |} in
  bss !! id = Some [] /\ state_ok s1 bss.
Proof.
  intros Hs Hr Hempty Ha Hb Hab r' s1. destruct (lookup_lt_is_Some_2 bss id) as [bs Hbs].
  { rewrite (so_length _ _ Hs). by apply lookup_lt_Some in Hr. }
  pose proof (so_regions _ _ Hs id r bs Hr Hbs) as Hok.
  assert (bs = []) as ->.
  { by destruct (ro_list _ _ _ Hok) as [[_ ->] | (d1 & ids & d2 & c1 & c2 & E & _)]; [|rewrite Hempty in E]. }
  split; [done|]. rewrite <- (list_insert_id bss id []) by done.
  eapply (state_update s bss Hs id r [] Hr Hbs r'); cbn [mem_block_head with_blocks r'].
  - destruct Hok as [Hp Hc Hsl _]. split; [done..|]. right. exists a, [], b, ca, cb.
    split_and!; [done | rewrite lookup_insert_ne by done; apply lookup_insert_eq | apply lookup_insert_eq | constructor].
  - reflexivity.
  - done.
  - constructor; [by rewrite list_elem_of_singleton | apply NoDup_singleton].
  - intros x. rewrite !elem_of_cons. intros [-> | [-> | ?%not_elem_of_nil]]; auto. done.
  - intros x [y Hy] _. rewrite !lookup_insert_ne by congruence. done.
  - apply (so_table _ _ Hs).
  - intros l Hl. by apply (so_phys _ _ Hs id r).
  - done.
Qed.

(** ** [esp_mmu_map] *)

Lemma find_region_spec size caps target rs : forall i id,
  s_find_available_region i rs size caps target = Some id ->
  exists r, (i <= id)%nat /\ rs !! (id - i)%nat = Some r /\ suits caps target r = true /\ size <= max_slot_size r.
Proof.
  induction rs as [|r rs IH]; intros i id; cbn; [done|]. destruct (suits caps target r && _) eqn:E.
  - intros [= <-]. apply andb_true_iff in E as [E1 E2%Z.leb_le]. exists r. rewrite Nat.sub_diag. done.
  - intros (r' & Hle & Hl & Hr)%IH. exists r'. split; [lia|]. by replace (id - i)%nat with (S (id - S i)) by lia.
Qed.

Section Map.
  Context (mem : nat -> option positive) (s : mmu_ctx_t) (bss : list (list mem_block_t)) (Hs : state_ok s bss) (Hmem : fresh mem s).
  (** A region without blocks is given its dummies and its first block. *)
  Context (Henough : forall r, r ∈ mem_regions s -> mem_block_head r = [] -> forall i, (i < 3)%nat -> is_Some (mem i)).
  Context (paddr size target caps flags : Z) (Ha : map_args paddr size target).
  Context (Hal : paddr mod PAGE = 0) (Hcaps : s_mem_caps_check caps = ESP_OK).

Let aligned := PAGE * pages size.
Let allow := has_flag flags ESP_MMU_MMAP_FLAG_PADDR_SHARED.
Let res := esp_mmu_map mem s paddr size target caps flags true.

Lemma esp_mmu_map_spec :
    match s_find_available_region 0 (mem_regions s) aligned caps target with
    | None => res = Some (ESP_ERR_NOT_FOUND, None, s)
    | Some id => exists s1 r bs,
        mem_regions s1 !! id = Some r /\ bss !! id = Some bs /\ suits caps target r = true /\ aligned <= max_slot_size r
        /\ state_ok s1 bss /\ view s1 = view s /\ hw s1 = hw s /\
        match check_records target paddr aligned allow bs with
        | Enclosed b => res = Some (ESP_ERR_INVALID_STATE, Some (vaddr_start b), s1)
        | Overlapped => res = Some (ESP_ERR_INVALID_ARG, None, s1)
        | Clear =>
            match mem 2%nat with
            | None => s1 = s /\ res = Some (ESP_ERR_NO_MEM, None, s)
            | Some new => exists s' pre post,
                let nb := block_of (end_of (free_head r) pre) aligned caps paddr target in
                bs = pre ++ post /\ res = Some (ESP_OK, Some (vaddr_start nb), s') /\ mapped s1 s' bss id new nb pre post
            end
        end
    end.
  Proof.
    unfold res, esp_mmu_map. rewrite (map_args_align _ _ _ Ha). change CONFIG_MMU_PAGE_SIZE with PAGE. rewrite Hal, Hcaps. cbn [negb is_ok Z.eqb]. fold aligned.
    destruct (s_find_available_region _ _ _ _ _) as [id|] eqn:Efind; [|done].
    apply find_region_spec in Efind as (r & _ & Hr & Hsuit & Hslot). rewrite Nat.sub_0_r in Hr. rewrite Hr.
    destruct (lookup_lt_is_Some_2 bss id) as [bs Hbs].
    { rewrite (so_length _ _ Hs). by apply lookup_lt_Some in Hr. }
    destruct Hmem as [Hf Hne]. destruct (mem_block_head r) as [|d1 rest] eqn:Elist.
    - assert (Hin : r ∈ mem_regions s) by by eapply list_elem_of_lookup_2.
      destruct (Henough r Hin Elist 0%nat ltac:(lia)) as [a Ea], (Henough r Hin Elist 1%nat ltac:(lia)) as [b Eb],
        (Henough r Hin Elist 2%nat ltac:(lia)) as [new En]. rewrite Ea, Eb, En.
      assert (Hab : a <> b) by (intros ->; by specialize (Hne _ _ _ Ea Eb)).
      destruct (dummies_ok s bss id r a b caps caps) as [Hb' Hs1]; eauto. assert (bs = []) as -> by congruence.
      set (s1 := with_region id (with_blocks [a; b] r) _).
      match type of Hs1 with state_ok ?x _ => assert (E1 : s1 = x) end.
      { unfold s1, with_region, with_heap, with_regions. cbn. by rewrite list_insert_insert_eq. }
      rewrite <- E1 in Hs1. exists s1, (with_blocks [a; b] r), [].
      assert (Hr1 : mem_regions s1 !! id = Some (with_blocks [a; b] r)).
      { rewrite E1. cbn. apply list_lookup_insert_eq. by apply lookup_lt_Some in Hr. }
      split_and!; [done..| rewrite E1; by eapply view_insert | done |].
      pose proof (map_block_spec s1 bss Hs1 id _ [] Hr1 Hbs paddr size target caps flags Ha Hal a b [] caps caps) as Hm.
      cbn [app] in Hm. apply (Hm eq_refl) with (mem2 := Some new) (dh := Some a) (dt := Some b); clear Hm.
      + rewrite E1. cbn. rewrite lookup_insert_ne by done. apply lookup_insert_eq.
      + rewrite E1. cbn. apply lookup_insert_eq.
      + constructor.
      + done.
      + intros x [= <-]. rewrite E1. cbn. rewrite !lookup_insert_ne; [by eapply Hf | ..]; intros ->; [by specialize (Hne _ _ _ Ea En) | by specialize (Hne _ _ _ Eb En)].
    - exists s, r, bs. split_and!; [done..|]. pose proof (so_regions _ _ Hs id r bs Hr Hbs) as Hok.
      destruct (ro_list _ _ _ Hok) as [[E _] | (d1' & ids & d2 & c1 & c2 & E & Hd1 & Hd2 & Hl)]; [congruence|].
      pose proof (map_block_spec s bss Hs id r bs Hr Hbs paddr size target caps flags Ha Hal d1' d2 ids c1 c2 E Hd1 Hd2 Hl Hslot (mem 2%nat) None None) as Hm.
      fold aligned allow in Hm. destruct (check_records _ _ _ _ _); [by apply Hm; eauto..|].
      destruct (mem 2%nat) as [new|] eqn:En; [apply Hm; intros x [= <-]; by eapply Hf|]. split; [done|]. rewrite Hm by done. unfold map_err. by destruct s.
  Qed.
End Map.

(** ** [esp_mmu_unmap] *)

(** The block is taken away: its addresses lead nowhere, its slot is free. *)
Record unmapped (s s' : mmu_ctx_t) (bss : list (list mem_block_t)) (id : nat) (b : mem_block_t) (pre post : list mem_block_t) : Prop := {
  un_blocks : bss !! id = Some (pre ++ b :: post);
  un_state : state_ok s' (<[id := pre ++ post]> bss);
  un_region : exists r r', mem_regions s !! id = Some r /\ mem_regions s' = <[id := r']> (mem_regions s)
      /\ with_blocks [] r' = with_blocks [] (with_free (free_head r) (gap (free_head r) (pre ++ post) (end_ r)) r);
  un_phys : forall l, 0 <= l -> phys (hw s') l = if inside b l then None else phys (hw s) l;
  un_log : exists ws, Forall clears ws /\ mmu_log (hw s') = mmu_log (hw s) ++ CachesOff :: ws ++ [CachesOn] }.

Lemma region_of_spec l rs : forall i acc id,
  region_of_loop i l rs acc = Some id ->
  acc = Some id \/ exists r, (i <= id)%nat /\ rs !! (id - i)%nat = Some r /\ in_region r l.
Proof.
  induction rs as [|r rs IH]; intros i acc id; cbn; [by left|]. intros [Hacc | (r' & Hi & Hl & Hin)]%IH.
  - destruct (_ && _) eqn:E; [|by left]. injection Hacc as <-. apply andb_true_iff in E as [E1%Z.leb_le E2%Z.ltb_lt].
    right. exists r. rewrite Nat.sub_diag. unfold in_region. split_and!; [lia | done | lia | lia].
  - right. exists r'. split; [lia|]. by replace (id - i)%nat with (S (id - S i)) by lia.
Qed.

Lemma region_of_none l rs : forall i acc, region_of_loop i l rs acc = None -> acc = None /\ forall r, r ∈ rs -> ~ in_region r l.
Proof.
  induction rs as [|r rs IH]; intros i acc; cbn; [by intros ->; split; [|intros r ?%not_elem_of_nil]|].
  intros [Hacc Hr]%IH. destruct (_ && _) eqn:E; [done|]. split; [done|].
  intros r' [-> | Hin]%elem_of_cons; [|by apply Hr]. unfold in_region. apply andb_false_iff in E. rewrite Z.leb_gt, Z.ltb_ge in E. lia.
Qed.

(** The list without the block. *)
Lemma filter_middle (a : positive) l1 l2 :
  NoDup (l1 ++ a :: l2) -> List.filter (fun x => negb (bool_decide (x = a))) (l1 ++ a :: l2) = l1 ++ l2.
Proof.
  intros (_ & Hn & Hnd)%NoDup_app. apply NoDup_cons in Hnd as [Hn2 _].
  assert (Hid : forall l, a ∉ l -> List.filter (fun x => negb (bool_decide (x = a))) l = l).
  { induction l as [|x l IH]; cbn; [done|]. intros [Hne Hl]%not_elem_of_cons. rewrite bool_decide_false by congruence. cbn. by rewrite IH. }
  rewrite List.filter_app. cbn. rewrite bool_decide_true by done. cbn. rewrite !Hid; [done | done |].
  intros Ha. by apply (Hn a Ha), list_elem_of_here.
Qed.

Section Unmap.
  Context (s : mmu_ctx_t) (bss : list (list mem_block_t)) (Hs : state_ok s bss).
  Context (id : nat) (r : mem_region_t) (pre post : list mem_block_t) (b : mem_block_t).
  Context (Hr : mem_regions s !! id = Some r) (Hbs : bss !! id = Some (pre ++ b :: post)).
  Context (d1 d2 a : positive) (ipre ipost : list positive) (c1 c2 : Z).
  Context (Hids : mem_block_head r = d1 :: (ipre ++ a :: ipost) ++ [d2]) (Hlen : length ipre = length pre).
  Context (Hd1 : heap s !! d1 = Some (dummy (free_head r) c1)) (Hd2 : heap s !! d2 = Some (dummy (end_ r) c2)).
  Context (Hl : listed (heap s) (ipre ++ a :: ipost) (pre ++ b :: post)).

Let ids' := d1 :: (ipre ++ ipost) ++ [d2].
Let r' := with_blocks ids' (with_free (free_head r) (gap (free_head r) (pre ++ post) (end_ r)) r).

Lemma delete_region_ok : region_ok (delete a (heap s)) r' (pre ++ post) /\ a ∉ ids'.
  Proof.
    pose proof (so_regions _ _ Hs id r _ Hr Hbs) as Hok. pose proof (so_nodup _ _ Hs id r Hr) as Hnd.
    assert (Hn : a ∉ ids').
    { rewrite Hids in Hnd. unfold ids'. revert Hnd. rewrite <- !app_assoc, !app_comm_cons. cbn [app]. clear.
      rewrite <- (Permutation_middle (d1 :: ipre) (ipost ++ [d2]) a). by intros [Hn _]%NoDup_cons. }
    split; [|done]. destruct Hok as [Hp Hc _ _].
    split; cbn [free_head end_ max_slot_size mem_block_head r' with_blocks with_free]; [done | by eapply chain_delete | done|].
    right. exists d1, (ipre ++ ipost), d2, c1, c2. revert Hn. unfold ids'. rewrite !not_elem_of_cons, !not_elem_of_app, list_elem_of_singleton.
    intros (H1 & (H2 & H3) & H4). split_and!; [done | by rewrite lookup_delete_ne | by rewrite lookup_delete_ne|].
    apply listed_app in Hl as [Hl1 Hl2]; [|done]. apply Forall2_cons_1 in Hl2 as [_ Hl2].
    apply listed_app; [done|].
    split; (eapply listed_heap; [|done]); intros x Hx; apply lookup_delete_ne; intros <-; done.
  Qed.

Lemma unmap_block_spec :
    exists m', s_do_unmapping (vaddr_start b) (b_size b) (hw s) = Some m'
      /\ unmapped s (with_hw m' (with_region id r' (with_heap (delete a (heap s)) s))) bss id b pre post.
  Proof.
    pose proof (so_regions _ _ Hs id r _ Hr Hbs) as Hok. pose proof (ro_chain _ _ _ Hok) as Hch.
    pose proof (region_bounds s bss id r _ Hs Hr Hbs) as (Hb0 & Hb1 & Hb2).
    assert (Hb : block_ok b) by (apply chain_app in Hch as [_ [Hb _]]; exact Hb).
    assert (Hbound : free_head r <= laddr_start b /\ laddr_end b <= end_ r).
    { apply (chain_bound _ _ _ _ Hch), elem_of_app. right. apply list_elem_of_here. }
    destruct (unmap_table (hw s) b (so_table _ _ Hs) Hb) as (m' & ws & Em & Htab & Hw & Hlog & Hphys); [lia..|].
    exists m'. split; [done|]. destruct delete_region_ok as [Hrok Hn].
    split; cbn [hw heap mem_regions with_hw with_region with_heap with_regions]; [done | | by exists r, r' | done | by exists ws].
    eapply (state_update s bss Hs id r _ Hr Hbs r'); [done | reflexivity | done | | | | done | |].
    - cbn [mem_block_head r' with_blocks]. pose proof (so_nodup _ _ Hs id r Hr) as Hnd. rewrite Hids in Hnd. unfold ids'. revert Hnd.
      rewrite <- !app_assoc, !app_comm_cons. cbn [app]. clear.
      rewrite <- (Permutation_middle (d1 :: ipre) (ipost ++ [d2]) a). by intros [_ Hn]%NoDup_cons.
    - intros x. cbn [mem_block_head r' with_blocks]. rewrite Hids. unfold ids'. rewrite !elem_of_cons, !elem_of_app, !elem_of_cons. tauto.
    - intros x _ Hx. apply lookup_delete_ne. intros <-. apply Hx. rewrite Hids.
      rewrite !elem_of_cons, !elem_of_app, !elem_of_cons. tauto.
    - intros l Hin. change (in_region r l) in Hin. rewrite Hphys by (unfold in_region in Hin; lia). destruct (inside b l) eqn:E.
      + symmetry. by eapply translate_taken.
      + rewrite (so_phys _ _ Hs id r _ l Hr Hbs Hin), (translate_split _ _ _ _ _ _ Hch). by rewrite E.
    - intros l H0 Hout. rewrite Hphys by done. destruct (inside b l) eqn:E; [|done].
      apply inside_spec in E. destruct Hout. unfold in_region. lia.
  Qed.
End Unmap.

Lemma dummies_are d1 ids d2 :
  NoDup (d1 :: ids ++ [d2]) ->
  let whole := d1 :: ids ++ [d2] in
  is_dummy whole d1 = true /\ is_dummy whole d2 = true /\ Forall (fun a => is_dummy whole a = false) ids.
Proof.
  intros Hnd whole. apply NoDup_cons in Hnd as [H1 Hnd]. apply NoDup_app in Hnd as (_ & H2 & _).
  unfold is_dummy, whole. change (d1 :: ids ++ [d2]) with ((d1 :: ids) ++ [d2]). rewrite last_snoc. cbn [app head].
  split_and!; [by rewrite bool_decide_true | by rewrite orb_comm, bool_decide_true|].
  apply Forall_forall. intros a Ha. rewrite !bool_decide_false; [done | |]; intros [= ->].
  - by apply (H2 d2 Ha), list_elem_of_singleton.
  - apply H1, elem_of_app. by left.
Qed.

Section UnmapCall.
  Context (s : mmu_ctx_t) (bss : list (list mem_block_t)) (Hs : state_ok s bss).

  (** A block's start is in its region, and in no other. *)
Lemma block_region i bs b :
    bss !! i = Some bs -> b ∈ bs -> exists r, mem_regions s !! i = Some r /\ in_region r (laddr_start b).
  Proof.
    intros Hbs Hb. destruct (lookup_lt_is_Some_2 (mem_regions s) i) as [r Hr].
    { rewrite <- (so_length _ _ Hs). by apply lookup_lt_Some in Hbs. }
    exists r. split; [done|]. pose proof (ro_chain _ _ _ (so_regions _ _ Hs i r bs Hr Hbs)) as Hc.
    pose proof (chain_bound _ _ _ _ Hc Hb). assert (Hok : block_ok b) by (eapply Forall_forall; [by eapply chain_blocks | done]).
    pose proof (bo_end b Hok). pose proof (bo_pos b Hok). unfold in_region. lia.
  Qed.

Lemma region_unique i j r r' l :
    mem_regions s !! i = Some r -> mem_regions s !! j = Some r' -> in_region r l -> in_region r' l -> i = j.
  Proof.
    unfold in_region. intros Hi Hj Hl Hl'. destruct (Nat.lt_trichotomy i j) as [Hlt | [-> | Hlt]]; [|done|].
    - pose proof (so_order _ _ Hs i j r r' Hlt Hi Hj). lia.
    - pose proof (so_order _ _ Hs j i r' r Hlt Hj Hi). lia.
  Qed.

  Context (ptr : Z) (Hptr : 0 < ptr).

  (** Wherever the pointer points to: its linear address is what counts. *)
Let l := ptr mod LINEAR_SIZE.

Lemma esp_mmu_unmap_spec :
    (esp_mmu_unmap s ptr = Some (ESP_ERR_NOT_FOUND, s) /\ forall i bs b, bss !! i = Some bs -> b ∈ bs -> laddr_start b <> l)
    \/ exists id b pre post s', laddr_start b = l /\ esp_mmu_unmap s ptr = Some (ESP_OK, s') /\ unmapped s s' bss id b pre post.
  Proof.
    unfold esp_mmu_unmap, mmu_ll_vaddr_to_laddr. rewrite mask_linear. fold l.
    destruct (Z.eqb_spec ptr 0); [lia|]. destruct (region_of_loop _ _ _ _) as [id|] eqn:Er.
    2: { apply region_of_none in Er as [_ Er]. left. split; [done|]. intros i bs b Hbs Hb E.
         destruct (block_region i bs b Hbs Hb) as (r & Hr & Hin). rewrite E in Hin. by apply (Er r); [eapply list_elem_of_lookup_2|]. }
    apply region_of_spec in Er as [? | (r & _ & Hr & Hin)]; [done|]. rewrite Nat.sub_0_r in Hr. rewrite Hr.
    destruct (lookup_lt_is_Some_2 bss id) as [bs Hbs].
    { rewrite (so_length _ _ Hs). by apply lookup_lt_Some in Hr. }
    pose proof (so_regions _ _ Hs id r bs Hr Hbs) as Hok. pose proof (ro_chain _ _ _ Hok) as Hch.
    assert (Hother : Forall (fun b => laddr_start b <> l) bs -> forall i bs' b, bss !! i = Some bs' -> b ∈ bs' -> laddr_start b <> l).
    { intros Hall i bs' b Hbs' Hb E. destruct (block_region i bs' b Hbs' Hb) as (r1 & Hr1 & Hin1). rewrite E in Hin1.
      pose proof (region_unique _ _ _ _ _ Hr Hr1 Hin Hin1) as <-. rewrite Hbs in Hbs'. injection Hbs' as <-.
      by apply (proj1 (Forall_forall _ _) Hall b). }
    destruct (ro_list _ _ _ Hok) as [[E ->] | (d1 & ids & d2 & c1 & c2 & E & Hd1 & Hd2 & Hl)].
    { left. rewrite E. split; [done|]. by apply Hother. }
    pose proof (so_nodup _ _ Hs id r Hr) as Hnd. rewrite E in *. destruct (dummies_are d1 ids d2 Hnd) as (Hx1 & Hx2 & Hx3).
    cbn [find_block]. rewrite Hd1. rewrite Hx1.
    destruct (region_bounds s bss id r bs Hs Hr Hbs) as (Hb0 & _ & Hb2). unfold LINEAR_SIZE in Hb2.
    destruct (find_block_spec (heap s) _ l d2 c2 (end_ r) ids bs d1 _ Hl Hd2 Hx3 Hx2 Hd1 Hch Hb0 ltac:(lia))
      as [[Hf ->] | (ipre & a & ipost & pre & b & post & Ei & Eb & Hlen & Hst & ->)].
    { left. split; [done|]. by apply Hother. }
    right. exists id, b, pre, post. rewrite Ei, Eb in *. cbn [laddr_end dummy].
    destruct (unmap_block_spec s bss Hs id r pre post b Hr Hbs d1 d2 a ipre ipost c1 c2 E Hlen Hd1 Hd2 Hl) as (m' & -> & Hun).
    eexists. split_and!; [done | | exact Hun].
    rewrite (ro_slot _ _ _ Hok).
    rewrite (gap_delete _ _ _ _ _ Hch).
    assert (Efilter : List.filter (fun x => negb (bool_decide (x = a))) (d1 :: (ipre ++ a :: ipost) ++ [d2]) = d1 :: (ipre ++ ipost) ++ [d2]).
    { rewrite <- !app_assoc, !app_comm_cons in *. cbn [app] in *. by apply (filter_middle a (d1 :: ipre)). }
    rewrite Efilter. do 7 f_equal. case_test; to_prop; lia.
  Qed.
End UnmapCall.

(** ** Reserving, before anything is mapped *)

Lemma align_up_page size : exists n, 0 <= n /\ ALIGN_UP_BY size CONFIG_MMU_PAGE_SIZE = PAGE * n.
Proof.
  unfold ALIGN_UP_BY. change CONFIG_MMU_PAGE_SIZE with PAGE. pose proof (wrap_range 32 (size + (PAGE - 1)) ltac:(done)) as [H1 H2].
  exists (u32 (size + (PAGE - 1)) / PAGE). split; [by apply Z.div_pos|]. by apply align_down.
Qed.

Lemma reserve_spec s bss size caps target out_ptr :
  state_ok s bss -> (forall r, r ∈ mem_regions s -> mem_block_head r = []) ->
  exists e o s', esp_mmu_map_reserve_block_with_caps s size caps target out_ptr = Some (e, o, s') /\ state_ok s' bss /\ hw s' = hw s
    /\ forall r, r ∈ mem_regions s' -> mem_block_head r = [].
Proof.
  intros Hs Hempty. unfold esp_mmu_map_reserve_block_with_caps. case_test; [by eauto 8|]. case_test; [by eauto 8|].
  destruct (s_find_available_region _ _ _ _ _) as [id|] eqn:Ef; [|by eauto 8].
  apply find_region_spec in Ef as (r & _ & Hr & _ & Hslot). rewrite Nat.sub_0_r in Hr. rewrite Hr.
  destruct (align_up_page size) as (n & Hn & En). rewrite En in *.
  destruct (lookup_lt_is_Some_2 bss id) as [bs Hbs].
  { rewrite (so_length _ _ Hs). by apply lookup_lt_Some in Hr. }
  pose proof (so_regions _ _ Hs id r bs Hr Hbs) as Hok. destruct (region_bounds s bss id r bs Hs Hr Hbs) as (Hb0 & Hb1 & Hb2).
  assert (Hl : mem_block_head r = []) by (eapply Hempty, list_elem_of_lookup_2; done).
  destruct (ro_list _ _ _ Hok) as [[_ ->] | (? & ? & ? & ? & ? & E & _)]; [|congruence].
  pose proof (ro_slot _ _ _ Hok) as Hmax. cbn [gap] in Hmax. unfold LINEAR_SIZE in Hb2. unfold PAGE in Hslot.
  rewrite !u32_small by (unfold PAGE; lia).
  set (r' := with_free _ _ r). eexists _, _, _. split_and!; [done | | done |].
  - rewrite <- (list_insert_id bss id []) by done.
    assert (Hfh : free_head r' = free_head r + PAGE * n) by done.
    apply (state_update s bss Hs id r [] Hr Hbs r'); rewrite ?Hfh; try done.
    + destruct (ro_pages _ _ _ Hok) as (f & e & Ef & Ee & Hf & He).
      split; cbn [free_head end_ max_slot_size mem_block_head with_free r']; [|cbn; unfold PAGE; lia | cbn; lia | by left].
      exists (f + n), e. split_and!; [rewrite Ef; lia | done | lia | done].
    + unfold PAGE. lia.
    + cbn. rewrite Hl. apply NoDup_nil_2.
    + intros a. cbn. rewrite Hl. by intros ?%not_elem_of_nil.
    + apply (so_table _ _ Hs).
    + intros l Hin. apply (so_phys _ _ Hs id r); [done | done|]. unfold in_region in *. rewrite Hfh in Hin. unfold PAGE in Hin. cbn in Hin. lia.
  - intros r1. cbn. intros Hin. apply list_elem_of_lookup in Hin as [j Hj].
    apply list_lookup_insert_Some in Hj as [(_ & <- & _) | [_ Hj]]; [done|]. by eapply Hempty, list_elem_of_lookup_2.
Qed.
