(* ===== verification/MmuInit.v ===== *)
(** * Initialization of the memory mapping ([esp_mm/esp_mmu_map.c])

    What [esp_mmu_map_init] leaves: coalescing keeps the free addresses, and on
    the ESP32-S3 the state satisfies the invariant. *)

From S2P Require Import Prelude EspErr MmuHal MmuMap MmuBlocks MmuState MmuOps.
From Stdlib Require Import Sorted.

(** ** Coalescing *)

(** A region as it is after the reservations. *)
Record free_region (r : mem_region_t) : Prop := {
  fr_bounds : 0 <= start r /\ start r <= free_head r /\ free_head r <= end_ r /\ end_ r < 2 ^ 32;
  fr_size : region_size r = end_ r - start r;
  fr_slot : max_slot_size r = end_ r - free_head r;
  fr_caps : r_caps r <> MEM_REGION_MERGED }.

Definition before (r r' : mem_region_t) : Prop := end_ r <= start r'.

(** Free memory with these capabilities and targets. *)
Definition free_for (rs : list mem_region_t) (caps targets l : Z) : Prop :=
  exists r, r ∈ rs /\ r_caps r = caps /\ r_targets r = targets /\ in_region r l.

Lemma free_for_cons r rs caps targets l :
  free_for (r :: rs) caps targets l <-> (r_caps r = caps /\ r_targets r = targets /\ in_region r l) \/ free_for rs caps targets l.
Proof.
  unfold free_for. split.
  - intros (x & [-> | Hx]%elem_of_cons & H); [by left | right; by exists x].
  - intros [H | (x & Hx & H)]; [exists r | exists x]; rewrite elem_of_cons; auto.
Qed.

Lemma merge_free a b :
  free_region a -> free_region b -> before a b -> free_head b = end_ a -> r_caps b = r_caps a -> r_targets b = r_targets a ->
  free_region (merge a b) /\ forall l, in_region (merge a b) l <-> in_region a l \/ in_region b l.
Proof.
  intros [Ha1 Ha2 Ha3 Ha4] [Hb1 Hb2 Hb3 Hb4] Hab E1 E2 E3. unfold before in Hab. split.
  - split; cbn [start end_ free_head region_size max_slot_size r_caps merge]; [lia | | | done].
    + rewrite u32_small by lia. lia.
    + rewrite u32_small by lia. lia.
  - intros l. unfold in_region. cbn. lia.
Qed.

Lemma coalesce_spec rs : forall a,
  free_region a -> Forall free_region rs -> StronglySorted before (a :: rs) ->
  let out := List.filter not_merged (coalesce a rs) in
  Forall free_region out /\ StronglySorted before out /\ Forall (fun r => start a <= start r) out
  /\ forall caps targets l, free_for out caps targets l <-> free_for (a :: rs) caps targets l.
Proof.
  induction rs as [|b rs IH]; intros a Ha Hrs Hsort.
  { cbn. unfold not_merged. rewrite (proj2 (Z.eqb_neq _ _) (fr_caps a Ha)). cbn. split_and!; [by constructor | by repeat constructor | constructor; [lia | done] | done]. }
  apply Forall_cons in Hrs as [Hb Hrs]. apply StronglySorted_inv in Hsort as [Hsort Hhd].
  apply Forall_cons in Hhd as [Hab Hars]. cbn [coalesce].
  destruct ((free_head b =? end_ a) && (r_caps b =? r_caps a) && (r_targets b =? r_targets a)) eqn:E.
  - to_prop. destruct (merge_free a b Ha Hb Hab) as [Hm Hin]; [done..|].
    apply StronglySorted_inv in Hsort as [Hsort Hb'].
    destruct (IH (merge a b) Hm Hrs) as (Hf & Hs & Hl & He); [by constructor|].
    assert (Ef : List.filter not_merged (merged a :: coalesce (merge a b) rs) = List.filter not_merged (coalesce (merge a b) rs)) by done.
    cbv zeta. rewrite Ef. split_and!; [done.. |]. intros caps targets l. rewrite He, !free_for_cons, Hin. cbn [r_caps r_targets merge]. intuition congruence.
  - destruct (IH b Hb Hrs Hsort) as (H1 & H2 & H3 & H4).
    assert (Ef : List.filter not_merged (a :: coalesce b rs) = a :: List.filter not_merged (coalesce b rs)).
    { cbn. unfold not_merged at 1. by rewrite (proj2 (Z.eqb_neq _ _) (fr_caps a Ha)). }
    cbv zeta. rewrite Ef. destruct (fr_bounds b Hb) as (? & ? & ? & ?), (fr_bounds a Ha) as (? & ? & ? & ?). unfold before in Hab.
    assert (Hall : Forall (fun r => end_ a <= start r) (List.filter not_merged (coalesce b rs))).
    { eapply Forall_impl; [done|]. intros r Hr. cbn in Hr. lia. }
    split_and!.
    + by constructor.
    + constructor; [done | exact Hall].
    + constructor; [lia|]. eapply Forall_impl; [done|]. intros r Hr. cbn in Hr. lia.
    + intros caps targets l. rewrite !free_for_cons, H4, free_for_cons. done.
Qed.

(** ** The ESP32-S3 *)

(** The bytes that are reserved for what lies between two symbols. *)
Definition reserved (st en : Z) : Z := PAGE * pages (en - PAGE * (st / PAGE)).

(** The symbols of a section on the bus at [low]. *)
Definition symbols_ok (low st en : Z) : Prop :=
  low <= st /\ st < en /\ en < low + LINEAR_SIZE /\ st + reserved st en <= low + LINEAR_SIZE.

Definition is_bus (low : Z) : Prop := low = SOC_MMU_DBUS_VADDR_BASE \/ low = SOC_MMU_IBUS_VADDR_BASE.

Lemma reserved_spec st en : 0 <= st < en -> 0 < reserved st en /\ en - st <= reserved st en.
Proof.
  intros H. unfold reserved. pose proof (pages_spec (en - PAGE * (st / PAGE))). unfold PAGE in *.
  pose proof (Z.div_mod st 65536 ltac:(done)). pose proof (Z.mod_pos_bound st 65536 ltac:(done)). lia.
Qed.

Lemma bus_linear low x : is_bus low -> low <= x < low + LINEAR_SIZE -> mmu_ll_vaddr_to_laddr x = x - low.
Proof.
  unfold is_bus. intros Hlow Hx. apply vaddr_to_laddr; [|lia]. split; [|lia]. destruct Hlow as [-> | ->]; [left | right]; lia.
Qed.

(** The mask of a bus selects the region, which is on both. *)
Lemma bus_mask low st len :
  is_bus low -> low <= st -> 0 < len -> st + len <= low + LINEAR_SIZE ->
  exists mask, cache_ll_l1_get_bus st len = Some mask /\ has_flag mask (Z.lor CACHE_BUS_IBUS0 CACHE_BUS_DBUS0) = true.
Proof.
  intros Hlow Hst Hlen Hend. destruct (get_bus_ok st (st - low) len) as (mask & E & Hm); [|done|lia|].
  - unfold is_bus in Hlow. split; [destruct Hlow as [-> | ->]; [left | right]; lia | lia].
  - exists mask. split; [done|]. by destruct Hm as [-> | ->].
Qed.

Lemma reserve_one low st en r :
  is_bus low -> symbols_ok low st en -> bus_id r = Z.lor CACHE_BUS_IBUS0 CACHE_BUS_DBUS0 ->
  region_size r = LINEAR_SIZE -> reserved st en < LINEAR_SIZE ->
  reserve_region st en [r] = Some [with_free (u32 (free_head r + reserved st en)) (u32 (max_slot_size r - reserved st en)) r].
Proof.
  intros Hlow (H1 & H2 & H3 & H4) Hbus Hsize Hlen.
  assert (Hr : 0x3C000000 <= low <= 0x42000000) by (destruct Hlow as [-> | ->]; vm_compute; split; congruence).
  pose proof (reserved_spec st en ltac:(lia)) as [Hp Hge].
  destruct (bus_mask low st (reserved st en) Hlow H1 Hp H4) as (mask & Emask & Hmask).
  unfold reserve_region. rewrite !(bus_linear low) by (done || lia). unfold LINEAR_SIZE in *.
  rewrite !u32_small by lia. replace (en - low - (st - low)) with (en - st) by lia. rewrite Z.eqb_refl.
  assert (Hdown : ALIGN_DOWN_BY st CONFIG_MMU_PAGE_SIZE = PAGE * (st / PAGE)) by (apply align_down; lia). rewrite Hdown.
  pose proof (Z.div_mod st PAGE ltac:(done)). pose proof (Z.mod_pos_bound st PAGE ltac:(done)). unfold PAGE in * |-.
  replace (en - st + (st - PAGE * (st / PAGE))) with (en - PAGE * (st / PAGE)) by lia.
  rewrite u32_small, align_up by (unfold PAGE; lia). fold (reserved st en). rewrite Emask.
  cbn [reserve_loop]. rewrite Hbus, Hmask, Hsize. by replace (2 ^ 25 <=? reserved st en) with false by (symmetry; apply Z.leb_gt; lia).
Qed.

(** What the bootloader has left: the table maps nothing above what is reserved. *)
Record booted (irom drom : Z * Z) (m : mmu_hw) : Prop := {
  bt_irom : symbols_ok SOC_MMU_IBUS_VADDR_BASE irom.1 irom.2;
  bt_drom : symbols_ok SOC_MMU_DBUS_VADDR_BASE drom.1 drom.2;
  bt_fits : reserved irom.1 irom.2 + reserved drom.1 drom.2 <= LINEAR_SIZE;
  bt_table : table_ok m;
  bt_phys : forall l, reserved irom.1 irom.2 + reserved drom.1 drom.2 <= l < LINEAR_SIZE -> phys m l = None;
  bt_log : mmu_log m = [] }.

Lemma align_page (sym : Z * Z) : exists f, reserved sym.1 sym.2 = PAGE * f.
Proof. by exists (pages (sym.2 - PAGE * (sym.1 / PAGE))). Qed.

(** One region without blocks. *)
Lemma one_region_ok r m f :
  mem_block_head r = [] -> free_head r = PAGE * f -> 0 <= f -> free_head r <= end_ r -> end_ r = LINEAR_SIZE ->
  max_slot_size r = end_ r - free_head r -> table_ok m -> (forall l, in_region r l -> phys m l = None) ->
  state_ok {| mem_regions := [r]; heap := ∅; hw := m |} [[]].
Proof.
  intros Hl Hf H0 Hle He Hslot Htab Hphys.
  assert (Hone : forall i x, [r] !! i = Some x -> i = 0%nat /\ x = r) by (intros [|[|i]] x; cbn; intros [=]; auto).
  split; cbn [mem_regions heap hw]; try done.
  - intros i r1 bs [-> ->]%Hone [= <-]. split; cbn; [|done | done | by left].
    exists f, PAGES. split_and!; [done | by rewrite He | done | done].
  - intros i j r1 r2 Hij [-> _]%Hone [-> _]%Hone. lia.
  - intros i r1 [-> ->]%Hone. rewrite Hl. apply NoDup_nil_2.
  - intros i j r1 r2 a Hij [-> _]%Hone [-> _]%Hone. done.
  - intros i r1 bs l [-> ->]%Hone [= <-] Hin. by apply Hphys.
Qed.

Lemma mmu_init_ok irom drom m :
  booted irom drom m ->
  exists s r, esp_mmu_map_init g_mmu_mem_regions irom drom m = Some s /\ mem_regions s = [r] /\ hw s = m /\ heap s = ∅
    /\ mem_block_head r = [] /\ free_head r = reserved irom.1 irom.2 + reserved drom.1 drom.2 /\ end_ r = LINEAR_SIZE /\ state_ok s [[]].
Proof.
  intros [Hi Hd Hfit Htab Hphys _]. unfold esp_mmu_map_init, s_reserve_irom_region, s_reserve_drom_region.
  pose proof (reserved_spec irom.1 irom.2 ltac:(destruct Hi as (H1 & H2 & _); unfold SOC_MMU_IBUS_VADDR_BASE in H1; lia)) as [Hi0 _].
  pose proof (reserved_spec drom.1 drom.2 ltac:(destruct Hd as (H1 & H2 & _); unfold SOC_MMU_DBUS_VADDR_BASE in H1; lia)) as [Hd0 _].
  change (forallb _ _) with true. cbn [map g_mmu_mem_regions].
  rewrite (reserve_one SOC_MMU_IBUS_VADDR_BASE) by (done || lia || by right).
  rewrite (reserve_one SOC_MMU_DBUS_VADDR_BASE) by (done || lia || by left).
  cbn [coalesce_regions coalesce List.filter not_merged map r_caps with_free hw_mem_region g_caps].
  change (negb _) with true. cbv iota. unfold LINEAR_SIZE in *.
  cbn [free_head max_slot_size with_free hw_mem_region g_start g_size g_end].
  change (SOC_MMU_LINEAR_ADDR_MASK + 1 - Z.land SOC_IRAM0_CACHE_ADDRESS_LOW SOC_MMU_LINEAR_ADDR_MASK) with (2 ^ 25).
  change (Z.land SOC_IRAM0_CACHE_ADDRESS_LOW SOC_MMU_LINEAR_ADDR_MASK) with 0. rewrite !u32_small by (rewrite ?u32_small by lia; lia).
  cbv zeta. change (not_merged (with_free _ _ _)) with true. cbv iota. cbn [map].
  eexists _, _. split_and!; [done..|].
  destruct (align_page irom) as (fi & Ei), (align_page drom) as (fd & Ed).
  unfold PAGE in Ei, Ed.
  apply one_region_ok with (f := fi + fd); cbn; try done; unfold LINEAR_SIZE, SOC_MMU_LINEAR_ADDR_MASK, PAGE; try lia.
Qed.
