(* ===== verification/MmuReach.v ===== *)
(** * Theorems on the memory mapping ([esp_mm/esp_mmu_map.c])

    They hold in every state that calls can reach after the initialization on
    the ESP32-S3. *)

From S2P Require Import Prelude EspErr MmuHal MmuMap MmuBlocks MmuState MmuOps MmuInit.

#[local] Open Scope abort_scope.

(** ** Calls and reachable states *)

(** [mem] is what the allocator returns during the call. *)
Inductive mmu_call :=
| C_map (mem : nat -> option positive) (paddr size target caps flags : Z) (out_ptr : bool)
| C_unmap (ptr : Z)
| C_reserve (size caps target : Z) (out_ptr : bool)
| C_vaddr_to_paddr (vaddr : Z) (out_paddr : bool)
| C_paddr_to_vaddr (paddr target type : Z) (out_vaddr : bool).

(** The error code, the address that is given back, and the state. *)
Definition run_call (c : mmu_call) (s : mmu_ctx_t) : option (esp_err_t * option Z * mmu_ctx_t) :=
  match c with
  | C_map mem paddr size target caps flags out_ptr => esp_mmu_map mem s paddr size target caps flags out_ptr
  | C_unmap ptr => let! (e, s) := esp_mmu_unmap s ptr in Some (e, None, s)
  | C_reserve size caps target out_ptr => esp_mmu_map_reserve_block_with_caps s size caps target out_ptr
  | C_vaddr_to_paddr vaddr out_paddr => let! (e, o, s) := esp_mmu_vaddr_to_paddr s vaddr out_paddr true in Some (e, fst <$> o, s)
  | C_paddr_to_vaddr paddr target type out_vaddr => esp_mmu_paddr_to_vaddr s paddr target type out_vaddr
  end.

(** A region without blocks is given three blocks by the allocator. *)
Definition enough (mem : nat -> option positive) (s : mmu_ctx_t) : Prop :=
  forall r, r ∈ mem_regions s -> mem_block_head r = [] -> forall i, (i < 3)%nat -> is_Some (mem i).

Definition allowed (s : mmu_ctx_t) (c : mmu_call) : Prop :=
  match c with
  | C_map mem paddr size target caps flags out_ptr => fresh mem s /\ enough mem s /\ map_args paddr size target
  | C_unmap ptr => 0 <= ptr
  | C_reserve _ _ _ _ => forall r, r ∈ mem_regions s -> mem_block_head r = []
  | C_vaddr_to_paddr vaddr _ => 0 <= vaddr < 2 ^ 32
  | C_paddr_to_vaddr paddr _ _ _ => 0 <= paddr < PAGE * SOC_MMU_MAX_PADDR_PAGE_NUM
  end.

(** [P]: what the calls are like. *)
Inductive reachable (P : mmu_call -> Prop) : mmu_ctx_t -> Prop :=
| reach_init irom drom m s : booted irom drom m -> esp_mmu_map_init g_mmu_mem_regions irom drom m = Some s -> reachable P s
| reach_call s c e o s' : reachable P s -> P c -> allowed s c -> run_call c s = Some (e, o, s') -> reachable P s'.

(** What [esp_mmu_vaddr_to_paddr] says of an address. *)
Definition lookup_vaddr (s : mmu_ctx_t) (w : Z) : option (esp_err_t * option (Z * Z)) :=
  let! (e, o, _) := esp_mmu_vaddr_to_paddr s w true true in Some (e, o).

(** ** Queries *)

Lemma events_ok s bss es :
  state_ok s bss -> state_ok (with_hw {| mmu_table := mmu_table (hw s); mmu_log := mmu_log (hw s) ++ es |} s) bss.
Proof. intros [H1 H2 H3 H4 H5 H6 H7]. by split. Qed.

Lemma two_events m e1 e2 : with_event e2 (with_event e1 m) = {| mmu_table := mmu_table m; mmu_log := mmu_log m ++ [e1; e2] |}.
Proof. unfold with_event. cbn. by rewrite <- app_assoc. Qed.

Lemma vaddr_to_paddr_ok s w l :
  table_ok (hw s) -> bus_addr w l -> l < LINEAR_SIZE ->
  esp_mmu_vaddr_to_paddr s w true true
  = Some (match phys (hw s) l with None => (ESP_ERR_NOT_FOUND, None) | Some p => (ESP_OK, Some p) end,
          with_hw {| mmu_table := mmu_table (hw s); mmu_log := mmu_log (hw s) ++ [CachesOff; CachesOn] |} s).
Proof.
  intros Htab Hw Hl. unfold esp_mmu_vaddr_to_paddr. rewrite (bus_addr_valid w l 1) by (done || lia).
  replace (w =? 0) with false.
  2: { symmetry. apply Z.eqb_neq. destruct Hw as [[-> | ->] H]; unfold SOC_MMU_DBUS_VADDR_BASE, SOC_MMU_IBUS_VADDR_BASE; lia. }
  cbn [negb orb]. unfold s_vaddr_to_paddr. rewrite (vaddr_to_paddr_phys _ w l) by done. rewrite phys_event, two_events.
  by destruct (phys (hw s) l).
Qed.

Lemma lookup_phys s bss w l :
  state_ok s bss -> bus_addr w l -> l < LINEAR_SIZE ->
  lookup_vaddr s w = Some (match phys (hw s) l with None => (ESP_ERR_NOT_FOUND, None) | Some p => (ESP_OK, Some p) end).
Proof.
  intros Hs Hw Hl. unfold lookup_vaddr. rewrite (vaddr_to_paddr_ok s w l (so_table _ _ Hs)) by done. by destruct (phys (hw s) l).
Qed.

(** Addresses that are not of external memory. *)
Lemma not_valid_bus w :
  mmu_hal_check_valid_ext_vaddr_region w 1 (Z.lor MMU_VADDR_DATA MMU_VADDR_INSTRUCTION) = true -> 0 <= w < 2 ^ 32 ->
  exists l, bus_addr w l /\ l < LINEAR_SIZE.
Proof.
  unfold mmu_hal_check_valid_ext_vaddr_region, mmu_ll_check_valid_ext_vaddr_region.
  change (has_flag _ MMU_VADDR_INSTRUCTION) with true. change (has_flag _ MMU_VADDR_DATA) with true. cbn [andb].
  unfold SOC_ADDRESS_IN_IRAM0_CACHE, SOC_ADDRESS_IN_DRAM0_CACHE, SOC_IRAM0_CACHE_ADDRESS_LOW, SOC_IRAM0_CACHE_ADDRESS_HIGH,
    SOC_DRAM0_CACHE_ADDRESS_LOW, SOC_DRAM0_CACHE_ADDRESS_HIGH, bus_addr, LINEAR_SIZE, SOC_MMU_DBUS_VADDR_BASE, SOC_MMU_IBUS_VADDR_BASE.
  rewrite orb_true_iff, !andb_true_iff, !Z.leb_le, !Z.ltb_lt. intros [H|H] Hw; [exists (w - 0x42000000) | exists (w - 0x3C000000)]; lia.
Qed.

(** ** What is done while the caches are off *)

(** The page [i] is in the range that is invalidated. *)
Definition covered (v size i : Z) : bool :=
  let l := mmu_ll_vaddr_to_laddr v in (l <=? PAGE * i) && (PAGE * i + PAGE <=? l + size).

(** The table and the buses are changed while the caches are off only; they are
    turned on again only when every page that was mapped has been invalidated
    ([stale]: those that have not). *)
Fixpoint quiet (on : bool) (stale : list Z) (es : list hw_event) : bool :=
  match es with
  | [] => on
  | CachesOff :: es => on && quiet false [] es
  | CachesOn :: es => negb on && match stale with [] => true | _ => false end && quiet true [] es
  | EntryWritten i val :: es => negb on && quiet on (match decode val with Some _ => i :: stale | None => stale end) es
  | BusEnabled _ _ :: es => negb on && quiet on stale es
  | Invalidated v size :: es => negb on && quiet on (List.filter (fun i => negb (covered v size i)) stale) es
  end.

Lemma quiet_app es1 es2 : forall on stale,
  (on = true -> stale = []) -> quiet on stale es1 = true -> quiet on stale (es1 ++ es2) = quiet true [] es2.
Proof.
  induction es1 as [|e es1 IH]; intros on stale Hst; cbn [app quiet].
  - intros ->. by rewrite Hst.
  - destruct e; intros H; to_prop; subst; cbn [andb negb] in *; rewrite ?IH by done; try done. by destruct stale.
Qed.

Lemma quiet_clears ws es stale : Forall clears ws -> quiet false stale (ws ++ es) = quiet false stale es.
Proof. induction 1 as [|e ws (i & ->) _ IH]; [done|]. cbn [app quiet negb andb]. by rewrite decode_invalid. Qed.

Lemma quiet_unmap ws : Forall clears ws -> quiet true [] (CachesOff :: ws ++ [CachesOn]) = true.
Proof. intros Hw. cbn [quiet andb]. by rewrite quiet_clears. Qed.

Lemma quiet_writes lo hi ws es : forall stale,
  Forall (writes_in lo hi) ws -> Forall (fun i => lo <= PAGE * i /\ PAGE * i + PAGE <= hi) stale ->
  (forall stale', Forall (fun i => lo <= PAGE * i /\ PAGE * i + PAGE <= hi) stale' -> quiet false stale' es = true) ->
  quiet false stale (ws ++ es) = true.
Proof.
  intros stale Hw. revert stale. induction Hw as [|e ws (i & val & -> & Hi) _ IH]; intros stale Hst Hes; [by apply Hes|].
  cbn [app quiet negb andb]. apply IH; [|done]. destruct (decode val); [by constructor | done].
Qed.

Lemma quiet_map b mask ws :
  block_ok b -> 0 <= laddr_start b -> laddr_end b <= LINEAR_SIZE -> Forall (writes_in (laddr_start b) (laddr_end b)) ws ->
  quiet true [] (map_log (vaddr_start b) (b_size b) mask ws) = true.
Proof.
  intros Hb H0 Hl Hw. unfold map_log. cbn [quiet andb]. eapply quiet_writes; [exact Hw | constructor|].
  intros stale Hst. cbn [quiet negb andb]. pose proof (bo_end b Hb). pose proof (bo_pos b Hb).
  assert (List.filter (fun i => negb (covered (vaddr_start b) (b_size b) i)) stale = []) as ->; [|done].
  assert (Hv : mmu_ll_vaddr_to_laddr (vaddr_start b) = laddr_start b).
  { rewrite (bo_vaddr b Hb). apply vaddr_to_laddr; [apply laddr_to_vaddr|]; lia. }
  induction Hst as [|i stale Hi _ IH]; [done|]. cbn. unfold covered at 1. rewrite Hv.
  destruct (_ && _) eqn:E; [exact IH|]. apply andb_false_iff in E. rewrite !Z.leb_gt in E. lia.
Qed.

(** ** Physical memory that is mapped once *)

(** No physical address is that of two linear addresses. *)
Definition injective (bs : list mem_block_t) : Prop :=
  forall l l' p t, translate bs l = Some (p, t) -> translate bs l' = Some (p, t) -> l = l'.

(** Calls that do not ask for shared mappings. *)
Definition private (c : mmu_call) : Prop :=
  match c with
  | C_map _ _ _ _ _ flags _ => has_flag flags ESP_MMU_MMAP_FLAG_PADDR_SHARED = false
  | _ => True
  end.

Lemma translate_block bs l p t :
  translate bs l = Some (p, t) -> exists b, b ∈ bs /\ inside b l = true /\ p = paddr_start b + (l - laddr_start b) /\ t = b_target b.
Proof.
  induction bs as [|b bs IH]; cbn; [done|]. destruct (inside b l) eqn:E.
  - intros [= <- <-]. exists b. split_and!; [apply list_elem_of_here | done..].
  - intros (c & Hc & Hrest)%IH. exists c. split; [by apply list_elem_of_further | done].
Qed.

Lemma injective_delete lo pre post hi b : chain lo (pre ++ b :: post) hi -> injective (pre ++ b :: post) -> injective (pre ++ post).
Proof.
  intros Hc Hi l l' p t Hl Hl'.
  assert (Hkeep : forall x, translate (pre ++ post) x = Some (p, t) -> translate (pre ++ b :: post) x = Some (p, t)).
  { intros x Hx. rewrite (translate_split _ _ _ _ _ _ Hc). destruct (inside b x) eqn:E; [|done].
    rewrite (translate_taken _ _ _ _ _ _ Hc E) in Hx. done. }
  by apply (Hi l l' p t); apply Hkeep.
Qed.

Lemma injective_insert lo pre post hi nb :
  chain lo (pre ++ nb :: post) hi -> Forall (fun b => same_target (b_target nb) b -> apart b (paddr_start nb) (b_size nb)) (pre ++ post) ->
  injective (pre ++ post) -> injective (pre ++ nb :: post).
Proof.
  intros Hc Hap Hi.
  assert (Hnb : block_ok nb) by (apply chain_app in Hc as [_ [Hb _]]; exact Hb).
  assert (Hblocks : Forall block_ok (pre ++ post)) by (eapply chain_blocks, chain_delete; done).
  pose proof (bo_end nb Hnb) as He.
  assert (Hmix : forall l l', inside nb l = true -> translate (pre ++ post) l' = Some (paddr_start nb + (l - laddr_start nb), b_target nb) -> False).
  { intros l l' Hl Hl'. apply inside_spec in Hl. apply translate_block in Hl' as (b & Hb & Hin & Hp & Ht). apply inside_spec in Hin.
    rewrite Forall_forall in Hap, Hblocks. specialize (Hap b Hb ltac:(unfold same_target; congruence)). specialize (Hblocks b Hb).
    pose proof (bo_end b Hblocks). pose proof (bo_pend b Hblocks). unfold apart in Hap. lia. }
  intros l l' p t. rewrite !(translate_split _ _ _ _ _ _ Hc).
  destruct (inside nb l) eqn:E1, (inside nb l') eqn:E2.
  - intros [= <- <-] [= E]. lia.
  - intros [= <- <-] H. by destruct (Hmix l l').
  - intros H [= <- <-]. by destruct (Hmix l' l).
  - by apply Hi.
Qed.

(** ** No call aborts, and the invariant holds *)

Lemma caps_check_err caps : s_mem_caps_check caps <> ESP_OK -> is_ok (s_mem_caps_check caps) = false.
Proof. unfold s_mem_caps_check. by case_test. Qed.

Lemma find_entry_some n : forall i m val t, table_ok m -> 0 <= i -> i + Z.of_nat n <= 512 ->
  exists r, find_entry_loop n i m val t = Some r.
Proof.
  induction n as [|n IH]; intros i m val t Hm H0 Hi; [by eexists|]. cbn [find_entry_loop].
  unfold mmu_ll_check_entry_valid, mmu_ll_get_entry_target. rewrite read_entry by (done || lia).
  destruct (_ && _); [by eexists|]. apply IH; [done | lia | lia].
Qed.

Lemma paddr_to_vaddr_some m paddr target type :
  table_ok m -> 0 <= paddr < PAGE * SOC_MMU_MAX_PADDR_PAGE_NUM -> exists r, mmu_hal_paddr_to_vaddr m paddr target type = Some r.
Proof.
  intros Hm Hp. unfold mmu_hal_paddr_to_vaddr. unfold PAGE, SOC_MMU_MAX_PADDR_PAGE_NUM in Hp.
  replace (mmu_ll_check_valid_paddr_region paddr 1) with true.
  2: { symmetry. unfold mmu_ll_check_valid_paddr_region, mmu_ll_get_page_size, SOC_MMU_MAX_PADDR_PAGE_NUM, MMU_PAGE_64KB.
       rewrite u32_small by lia. rewrite !andb_true_iff, !Z.ltb_lt. lia. }
  unfold mmu_ll_find_entry_id_based_on_map_value.
  destruct (find_entry_some (Z.to_nat SOC_MMU_ENTRY_NUM) 0 m (mmu_ll_format_paddr paddr) target Hm ltac:(lia) ltac:(done)) as [r ->].
  change (mmu_hal_pages_to_bytes 1) with (Some PAGE). cbv beta iota zeta. repeat case_test; eauto.
Qed.

(** The blocks with the new one are in order. *)
Lemma mapped_chain s s' bss id new nb pre post r :
  bss !! id = Some (pre ++ post) -> mem_regions s !! id = Some r -> mapped s s' bss id new nb pre post ->
  chain (free_head r) (pre ++ nb :: post) (end_ r).
Proof.
  intros Hbs Hr Hm. destruct (mp_region _ _ _ _ _ _ _ _ Hm) as (r1 & r' & Hr1 & Hrs & _ & _ & Hv).
  rewrite Hr in Hr1. injection Hr1 as <-.
  assert (Hr' : mem_regions s' !! id = Some r').
  { rewrite Hrs. apply list_lookup_insert_eq. by apply lookup_lt_Some in Hr. }
  assert (Hbs' : <[id := pre ++ nb :: post]> bss !! id = Some (pre ++ nb :: post)).
  { apply list_lookup_insert_eq. by apply lookup_lt_Some in Hbs. }
  pose proof (ro_chain _ _ _ (so_regions _ _ (mp_state _ _ _ _ _ _ _ _ Hm) id r' _ Hr' Hbs')) as Hch.
  pose proof (f_equal free_head Hv) as E1. pose proof (f_equal end_ Hv) as E2. cbn in E1, E2. by rewrite E1, E2 in Hch.
Qed.

Section Calls.
  Context (s : mmu_ctx_t) (bss : list (list mem_block_t)) (Hs : state_ok s bss).

  (** The state that a call leaves, and what it has done to the hardware. *)
Definition after (c : mmu_call) (s' : mmu_ctx_t) : Prop :=
    exists bss' es, state_ok s' bss' /\ mmu_log (hw s') = mmu_log (hw s) ++ es /\ quiet true [] es = true
      /\ (private c -> Forall injective bss -> Forall injective bss').

Lemma after_same c : after c s.
  Proof. exists bss, []. by rewrite app_nil_r. Qed.

Lemma after_hw c s' : state_ok s' bss -> hw s' = hw s -> after c s'.
  Proof. intros Hs' E. exists bss, []. by rewrite app_nil_r, E. Qed.

Lemma after_events c : after c (with_hw {| mmu_table := mmu_table (hw s); mmu_log := mmu_log (hw s) ++ [CachesOff; CachesOn] |} s).
  Proof. exists bss, [CachesOff; CachesOn]. by split_and!; [apply events_ok|..]. Qed.

  Hint Resolve after_same after_events : core.

Lemma map_after mem paddr size target caps flags out_ptr s1 s' id r new pre post :
    let c := C_map mem paddr size target caps flags out_ptr in
    let nb := block_of (end_of (free_head r) pre) (PAGE * pages size) caps paddr target in
    map_args paddr size target -> bss !! id = Some (pre ++ post) -> state_ok s1 bss -> hw s1 = hw s ->
    check_records target paddr (PAGE * pages size) (has_flag flags ESP_MMU_MMAP_FLAG_PADDR_SHARED) (pre ++ post) = Clear ->
    mapped s1 s' bss id new nb pre post -> after c s'.
  Proof.
    intros c nb Ha Hbs Hs1 Hhw Hcheck Hm. destruct (mp_region _ _ _ _ _ _ _ _ Hm) as (r1 & r' & Hr1 & Hrs & Hlo & Hhi & _).
    pose proof (mp_ok _ _ _ _ _ _ _ _ Hm) as Hnb. destruct (mp_log _ _ _ _ _ _ _ _ Hm) as (mask & ws & Hw & Hlog).
    destruct (region_bounds s1 bss id r1 _ Hs1 Hr1 Hbs) as (Hb0 & _ & Hb2).
    exists (<[id := pre ++ nb :: post]> bss), (map_log (vaddr_start nb) (b_size nb) mask ws).
    split_and!; [apply (mp_state _ _ _ _ _ _ _ _ Hm) | by rewrite Hlog, Hhw | apply quiet_map; [done | lia | lia | done] |].
    intros Hpriv Hinj. apply Forall_insert; [done|]. cbn in Hpriv. rewrite Hpriv in Hcheck.
    pose proof (ro_chain _ _ _ (so_regions _ _ Hs1 id r1 _ Hr1 Hbs)) as Hch.
    destruct Ha as [H1 H2 H3 H4 _]. unfold PAGE, SOC_MMU_MAX_PADDR_PAGE_NUM in H3. pose proof (pages_spec size). unfold PAGE in *.
    apply check_clear in Hcheck; [|lia | lia | lia | by eapply chain_blocks].
    pose proof (mapped_chain _ _ _ _ _ _ _ _ _ Hbs Hr1 Hm) as Hch'.
    eapply injective_insert; [done | done|]. by apply (proj1 (Forall_lookup _ _) Hinj id).
  Qed.

Lemma run_map_ok mem paddr size target caps flags out_ptr :
    let c := C_map mem paddr size target caps flags out_ptr in
    allowed s c -> exists e o s', run_call c s = Some (e, o, s') /\ after c s'.
  Proof.
    cbn [run_call]. intros (Hf & He & Ha). destruct out_ptr; [|by eauto 8]. destruct (Z.eq_dec (paddr mod PAGE) 0) as [Hal | Hal].
    2: { unfold esp_mmu_map. change CONFIG_MMU_PAGE_SIZE with PAGE. apply Z.eqb_neq in Hal. rewrite Hal. by eauto 8. }
    destruct (decide (s_mem_caps_check caps = ESP_OK)) as [Hc | Hc].
    2: { unfold esp_mmu_map. change CONFIG_MMU_PAGE_SIZE with PAGE. rewrite Hal, caps_check_err by done. by eauto 8. }
    pose proof (esp_mmu_map_spec mem s bss Hs Hf He paddr size target caps flags Ha Hal Hc) as H.
    destruct (s_find_available_region _ _ _ _ _) as [id|]; [|by eauto 8].
    destruct H as (s1 & r & bs & Hr & Hbs & _ & _ & Hs1 & _ & Hhw & H).
    destruct (check_records _ _ _ _ _) eqn:Ecr; [by eauto 8 using after_hw..|].
    destruct (mem 2%nat) as [new|]; [|destruct H as [_ H]; by eauto 8].
    destruct H as (s' & pre & post & -> & -> & Hm). eexists _, _, _. split; [done|]. by eapply map_after.
  Qed.

Lemma run_unmap_ok ptr : 0 <= ptr -> exists e o s', run_call (C_unmap ptr) s = Some (e, o, s') /\ after (C_unmap ptr) s'.
  Proof.
    intros Hp. cbn [run_call]. destruct (Z.eq_dec ptr 0) as [-> | Hne]; [by cbn; eauto 8|].
    destruct (esp_mmu_unmap_spec s bss Hs ptr ltac:(lia)) as [[-> _] | (id & b & pre & post & s' & _ & -> & Hu)]; [by eauto 8|].
    eexists _, _, _. split; [done|]. destruct (un_log _ _ _ _ _ _ _ Hu) as (ws & Hw & Hlog).
    exists (<[id := pre ++ post]> bss), (CachesOff :: ws ++ [CachesOn]).
    split_and!; [apply (un_state _ _ _ _ _ _ _ Hu) | done | by apply quiet_unmap |].
    intros _ Hinj. apply Forall_insert; [done|]. pose proof (un_blocks _ _ _ _ _ _ _ Hu) as Hbs.
    destruct (un_region _ _ _ _ _ _ _ Hu) as (r & _ & Hr & _).
    apply (injective_delete _ _ _ _ _ (ro_chain _ _ _ (so_regions _ _ Hs id r _ Hr Hbs))).
    by apply (proj1 (Forall_lookup _ _) Hinj id).
  Qed.

Lemma run_call_ok c : allowed s c -> exists e o s', run_call c s = Some (e, o, s') /\ after c s'.
  Proof.
    destruct c as [mem paddr size target caps flags out_ptr | ptr | size caps target out_ptr | vaddr out_paddr | paddr target type out_vaddr].
    - apply run_map_ok.
    - apply run_unmap_ok.
    - intros Hempty. destruct (reserve_spec s bss size caps target out_ptr Hs Hempty) as (e & o & s' & E & Hs' & Hhw & _).
      exists e, o, s'. split; [done | by apply after_hw].
    - cbn [run_call]. intros Hw. unfold esp_mmu_vaddr_to_paddr. case_test; [by eauto 8|]. case_test; [by eauto 8|]. to_prop.
      match goal with H : mmu_hal_check_valid_ext_vaddr_region _ _ _ = true |- _ => apply not_valid_bus in H as (l & Hl & Hlt); [|done] end.
      unfold s_vaddr_to_paddr. rewrite (vaddr_to_paddr_phys _ vaddr l) by (done || apply (so_table _ _ Hs)). rewrite two_events.
      destruct (phys _ l); eauto 8.
    - cbn [run_call]. intros Hp. unfold esp_mmu_paddr_to_vaddr. case_test; [by eauto 8|]. unfold s_paddr_to_vaddr.
      destruct (paddr_to_vaddr_some (with_event CachesOff (hw s)) paddr target type (so_table _ _ Hs) Hp) as [o ->]. rewrite two_events.
      destruct o; eauto 8.
  Qed.
End Calls.

Lemma mmu_reachable_ok P s :
  reachable P s ->
  exists bss, state_ok s bss /\ quiet true [] (mmu_log (hw s)) = true /\ ((forall c, P c -> private c) -> Forall injective bss).
Proof.
  induction 1 as [irom drom m s Hb Hi | s c e o s' _ (bss & Hs & Hq & Hinj) Hc Ha Hr].
  - destruct (mmu_init_ok irom drom m Hb) as (s' & r & E & _ & Hm & _ & _ & _ & _ & Hs). rewrite E in Hi. injection Hi as <-.
    exists [[]]. split_and!; [done | by rewrite Hm, (bt_log _ _ _ Hb) | by repeat constructor].
  - destruct (run_call_ok s bss Hs c Ha) as (e' & o' & s1 & E & bss' & es & Hs' & Hlog & Hes & Hinj'). rewrite E in Hr. injection Hr as -> -> ->.
    exists bss'. split_and!; [done | by rewrite Hlog, quiet_app | auto].
Qed.

(** ** What a mapping does to the addresses *)

Section MapTheorems.
  Context (s : mmu_ctx_t) (bss : list (list mem_block_t)) (Hs : state_ok s bss).
  Context (mem : nat -> option positive) (paddr size target caps flags : Z).
  Context (Ha : allowed s (C_map mem paddr size target caps flags true)).

  (** A call that succeeds has mapped a block in a free slot. *)
Lemma map_done v s' :
    esp_mmu_map mem s paddr size target caps flags true = Some (ESP_OK, Some v, s') ->
    exists s1 id r new pre post nb,
      nb = block_of (end_of (free_head r) pre) (PAGE * pages size) caps paddr target
      /\ mem_regions s1 !! id = Some r /\ bss !! id = Some (pre ++ post) /\ state_ok s1 bss /\ view s1 = view s /\ hw s1 = hw s
      /\ v = vaddr_start nb /\ mapped s1 s' bss id new nb pre post
      /\ check_records target paddr (PAGE * pages size) (has_flag flags ESP_MMU_MMAP_FLAG_PADDR_SHARED) (pre ++ post) = Clear.
  Proof.
    destruct Ha as (Hf & He & Hargs). intros Hcall.
    assert (paddr mod PAGE = 0 /\ s_mem_caps_check caps = ESP_OK) as [Hal Hc].
    { unfold esp_mmu_map in Hcall. change CONFIG_MMU_PAGE_SIZE with PAGE in Hcall. cbn [negb] in Hcall.
      destruct (paddr mod PAGE =? 0) eqn:E; [|done]. destruct (is_ok _) eqn:E2; [|done]. to_prop. by apply is_ok_true in E2. }
    pose proof (esp_mmu_map_spec mem s bss Hs Hf He paddr size target caps flags Hargs Hal Hc) as H. rewrite Hcall in H.
    destruct (s_find_available_region _ _ _ _ _) as [id|]; [|done].
    destruct H as (s1 & r & bs & Hr & Hbs & _ & _ & Hs1 & Hv & Hhw & H). destruct (check_records _ _ _ _ _) eqn:Ec; [done..|].
    destruct (mem 2%nat) as [new|]; [|by destruct H].
    destruct H as (s2 & pre & post & -> & [= -> ->] & Hm). eexists s1, id, r, new, pre, post, _. by split_and!.
  Qed.
End MapTheorems.
