(* ===== verification/MmuThm.v ===== *)
(** * What the memory mapping promises ([esp_mm/esp_mmu_map.c])

    Addresses that are mapped lead to the physical range, unmapping undoes
    mapping, what the error codes mean, and physical memory that is mapped once. *)

From S2P Require Import Prelude EspErr MmuHal MmuMap MmuBlocks MmuState MmuOps MmuInit MmuReach.

(** ** Lookups *)

Definition linear (w : Z) : Z := w mod LINEAR_SIZE.

(** An address of external memory, or not. *)
Lemma lookup_cases s bss w :
  state_ok s bss -> 0 <= w < 2 ^ 32 ->
  (exists l, linear w = l /\ bus_addr w l /\ 0 <= l < LINEAR_SIZE
     /\ lookup_vaddr s w = Some (match phys (hw s) l with None => (ESP_ERR_NOT_FOUND, None) | Some p => (ESP_OK, Some p) end))
  \/ forall s', lookup_vaddr s' w = Some (ESP_ERR_INVALID_ARG, None).
Proof.
  intros Hs Hw. destruct (mmu_hal_check_valid_ext_vaddr_region w 1 (Z.lor MMU_VADDR_DATA MMU_VADDR_INSTRUCTION)) eqn:E.
  - left. destruct (not_valid_bus w E Hw) as (l & Hl & Hlt). exists l. pose proof (proj2 Hl).
    split_and!; [by apply bus_addr_mod | done | lia | lia | by eapply lookup_phys].
  - right. intros s'. unfold lookup_vaddr, esp_mmu_vaddr_to_paddr. rewrite E. by destruct ((w =? 0) || _).
Qed.

(** States whose tables say the same of an address answer the same. *)
Lemma lookup_same s bss s' bss' w :
  state_ok s bss -> state_ok s' bss' -> 0 <= w < 2 ^ 32 ->
  (bus_addr w (linear w) -> phys (hw s') (linear w) = phys (hw s) (linear w)) -> lookup_vaddr s' w = lookup_vaddr s w.
Proof.
  intros Hs Hs' Hw Hp. destruct (lookup_cases s bss w Hs Hw) as [(l & <- & Hb & Hl & E) | Hno]; [|by rewrite !Hno].
  rewrite E, (lookup_phys s' bss' w (linear w) Hs' Hb) by lia. by rewrite Hp.
Qed.

Lemma found_phys s bss w p t :
  state_ok s bss -> 0 <= w < 2 ^ 32 -> lookup_vaddr s w = Some (ESP_OK, Some (p, t)) -> 0 <= linear w < LINEAR_SIZE /\ phys (hw s) (linear w) = Some (p, t).
Proof.
  intros Hs Hw Hf. destruct (lookup_cases s bss w Hs Hw) as [(l & <- & Hb & Hl & E) | Hno]; [|by rewrite Hno in Hf].
  rewrite E in Hf. split; [done|]. by destruct (phys _ _) as [[]|]; [injection Hf as -> -> | ].
Qed.

(** The largest free size depends on the regions but not on their lists. *)
Lemma max_loop_view caps target rs : forall m, max_loop caps target (with_blocks [] <$> rs) m = max_loop caps target rs m.
Proof. induction rs as [|r rs IH]; intros m; [done|]. cbn. apply IH. Qed.

Definition free_size (s : mmu_ctx_t) (caps target : Z) : esp_err_t * option Z :=
  esp_mmu_map_get_max_consecutive_free_block_size s caps target true.

Lemma free_size_view s s' caps target : view s' = view s -> free_size s' caps target = free_size s caps target.
Proof.
  intros Hv. unfold free_size, esp_mmu_map_get_max_consecutive_free_block_size.
  rewrite <- (max_loop_view caps target (mem_regions s')), <- (max_loop_view caps target (mem_regions s)). unfold view in Hv. by rewrite Hv.
Qed.

Lemma max_loop_spec caps target rs : forall m size,
  max_loop caps target rs m < size <-> m < size /\ forall r, r ∈ rs -> suits caps target r = true -> max_slot_size r < size.
Proof.
  induction rs as [|r rs IH]; intros m size; cbn [max_loop].
  - split; [intros H; split; [done | by intros r ?%not_elem_of_nil] | tauto].
  - rewrite IH. setoid_rewrite elem_of_cons. split.
    + intros [Hm Hrs]. assert (Hr : m < size /\ (suits caps target r = true -> max_slot_size r < size)).
      { destruct (suits caps target r); cbn [andb] in Hm; [|done]. destruct (Z.ltb_spec m (max_slot_size r)); split; intros; lia. }
      split; [tauto|]. intros r' [-> | Hr']; [tauto | by apply Hrs].
    + intros [Hm Hrs]. split; [|by auto]. destruct (suits caps target r) eqn:E; cbn [andb]; [|done].
      pose proof (Hrs r (or_introl eq_refl) E). by case_test.
Qed.

Lemma find_region_none size caps target rs i :
  s_find_available_region i rs size caps target = None <-> forall r, r ∈ rs -> suits caps target r = true -> max_slot_size r < size.
Proof.
  revert i. induction rs as [|r rs IH]; intros i; cbn [s_find_available_region].
  - split; [by intros _ r ?%not_elem_of_nil | done].
  - setoid_rewrite elem_of_cons. destruct (suits caps target r && _) eqn:E.
    + split; [done|]. intros H. apply andb_true_iff in E as [E1 E2%Z.leb_le]. specialize (H r (or_introl eq_refl) E1). lia.
    + rewrite IH. split; [|by auto]. intros H r' [-> | Hr'] Hs; [|by auto]. rewrite Hs in E. cbn in E. by apply Z.leb_gt in E.
Qed.

(** ** Mapping and unmapping *)

Definition bus_base (caps : Z) : Z := if has_flag caps MMU_MEM_CAP_EXEC then SOC_MMU_IBUS_VADDR_BASE else SOC_MMU_DBUS_VADDR_BASE.

Lemma vaddr_of_caps l caps : 0 <= l < LINEAR_SIZE -> mmu_ll_laddr_to_vaddr l (vaddr_type_of caps) = bus_base caps + l.
Proof.
  intros Hl. unfold mmu_ll_laddr_to_vaddr, vaddr_type_of, bus_base. unfold LINEAR_SIZE in Hl.
  destruct (has_flag caps MMU_MEM_CAP_EXEC); [apply (lor_low 33 l 25) | apply (lor_low 30 l 25)]; lia.
Qed.

Lemma bus_base_addr caps l : 0 <= l <= LINEAR_SIZE -> bus_addr (bus_base caps + l) l.
Proof. intros Hl. unfold bus_base, bus_addr. case_match; (split; [|done]); auto. Qed.

Section MapDone.
  Context (s : mmu_ctx_t) (bss : list (list mem_block_t)) (Hs : state_ok s bss).
  Context (mem : nat -> option positive) (paddr size target caps flags v : Z) (s' : mmu_ctx_t).
  Context (Ha : allowed s (C_map mem paddr size target caps flags true)).
  Context (Hcall : esp_mmu_map mem s paddr size target caps flags true = Some (ESP_OK, Some v, s')).

Let len := PAGE * pages size.

  (** The block as linear addresses that were free. *)
Lemma map_done_linear :
    exists bss' l, state_ok s' bss' /\ v = bus_base caps + l /\ 0 <= l /\ l + len <= LINEAR_SIZE /\ 0 < len
      /\ (forall x, l <= x < l + len -> phys (hw s) x = None)
      /\ (forall x, 0 <= x -> phys (hw s') x = if (l <=? x) && (x <? l + len) then Some (paddr + (x - l), target) else phys (hw s) x).
  Proof.
    destruct (map_done s bss Hs mem paddr size target caps flags Ha v s' Hcall)
      as (s1 & id & r & new & pre & post & nb & Enb & Hr & Hbs & Hs1 & _ & Hhw & Hv & Hm & _).
    fold len in Enb. destruct (mp_region _ _ _ _ _ _ _ _ Hm) as (r1 & r' & Hr1 & _ & Hlo & Hhi & _). rewrite Hr in Hr1. injection Hr1 as <-.
    destruct (region_bounds s1 bss id r _ Hs1 Hr Hbs) as (Hb0 & _ & Hb2).
    pose proof (mp_ok _ _ _ _ _ _ _ _ Hm) as Hnb. pose proof (bo_end nb Hnb) as He. pose proof (bo_pos nb Hnb) as Hpos.
    assert (Esize : b_size nb = len) by (by subst nb). assert (Elo : laddr_start nb = end_of (free_head r) pre) by (by subst nb).
    exists (<[id := pre ++ nb :: post]> bss), (laddr_start nb).
    split_and!; [apply (mp_state _ _ _ _ _ _ _ _ Hm) | | lia | lia | lia | |].
    - rewrite Hv, Enb. cbn [vaddr_start laddr_start block_of]. apply vaddr_of_caps. rewrite <- Elo. lia.
    - intros x Hx. rewrite <- Hhw, (so_phys _ _ Hs1 id r _ x Hr Hbs) by (unfold in_region; lia).
      apply (translate_taken _ _ _ _ _ _ (mapped_chain _ _ _ _ _ _ _ _ _ Hbs Hr Hm)). apply inside_spec. lia.
    - intros x Hx. rewrite (mp_phys _ _ _ _ _ _ _ _ Hm) by done. unfold inside. rewrite He, Esize, Hhw. by subst nb.
  Qed.
End MapDone.

(** C20: when mapping succeeds, the addresses at the returned pointer, on the bus
    for the capabilities, led nowhere before and now lead to the physical range
    in its order, and every other address leads where it did. *)
Theorem mapped_addresses_translate P s mem paddr size target caps flags v s' :
  reachable P s -> allowed s (C_map mem paddr size target caps flags true) ->
  esp_mmu_map mem s paddr size target caps flags true = Some (ESP_OK, Some v, s') ->
  let len := PAGE * pages size in
  bus_base caps <= v /\ v + len <= bus_base caps + LINEAR_SIZE
  /\ (forall x, 0 <= x < len ->
        lookup_vaddr s (v + x) = Some (ESP_ERR_NOT_FOUND, None) /\ lookup_vaddr s' (v + x) = Some (ESP_OK, Some (paddr + x, target)))
  /\ (forall w, 0 <= w < 2 ^ 32 -> ~ (linear v <= linear w < linear v + len) -> lookup_vaddr s' w = lookup_vaddr s w).
Proof.
  intros Hreach Ha Hcall len. destruct (mmu_reachable_ok P s Hreach) as (bss & Hs & _).
  destruct (map_done_linear s bss Hs mem paddr size target caps flags v s' Ha Hcall) as (bss' & l & Hs' & Hv & H0 & Hl & Hpos & Hfree & Hphys).
  fold len in Hl, Hpos, Hfree, Hphys. split_and!; [lia | lia | |].
  - intros x Hx. assert (Hb : bus_addr (v + x) (l + x)) by (rewrite Hv, <- Z.add_assoc; apply bus_base_addr; lia).
    rewrite (lookup_phys s bss _ _ Hs Hb), (lookup_phys s' bss' _ _ Hs' Hb), Hfree, Hphys by lia. split; [done|].
    destruct (_ && _) eqn:E; [|apply andb_false_iff in E; rewrite Z.leb_gt, Z.ltb_ge in E; lia]. do 4 f_equal. lia.
  - intros w Hw Hout. apply (lookup_same s bss s' bss'); [done..|]. intros Hb.
    assert (El : linear v = l) by (apply bus_addr_mod; [rewrite Hv; apply bus_base_addr|]; lia).
    rewrite Hphys by (apply Z.mod_pos_bound; done). destruct (_ && _) eqn:E; [|done]. to_prop. lia.
Qed.

Section Undo.
  Context (s1 s' : mmu_ctx_t) (bss : list (list mem_block_t)) (id : nat) (new : positive) (nb : mem_block_t) (pre post : list mem_block_t).
  Context (Hs1 : state_ok s1 bss) (Hbs : bss !! id = Some (pre ++ post)) (Hm : mapped s1 s' bss id new nb pre post).

  (** Unmapping the start of the block takes this block away, and the table and
      the regions are what they were. *)
Lemma unmap_mapped :
    exists s'' bss'', esp_mmu_unmap s' (vaddr_start nb) = Some (ESP_OK, s'') /\ state_ok s'' bss''
      /\ view s'' = view s1 /\ forall l, 0 <= l -> phys (hw s'') l = phys (hw s1) l.
  Proof.
    destruct (mp_region _ _ _ _ _ _ _ _ Hm) as (r & r' & Hr & Hrs & Hlo & Hhi & Hv).
    pose proof (mp_state _ _ _ _ _ _ _ _ Hm) as Hs'. pose proof (mp_ok _ _ _ _ _ _ _ _ Hm) as Hnb. pose proof (bo_pos nb Hnb). pose proof (bo_end nb Hnb).
    destruct (region_bounds s1 bss id r _ Hs1 Hr Hbs) as (Hb0 & _ & Hb2). pose proof (mapped_chain _ _ _ _ _ _ _ _ _ Hbs Hr Hm) as Hch.
    assert (Hid : (id < length bss)%nat) by (by apply lookup_lt_Some in Hbs).
    assert (Hbs' : <[id := pre ++ nb :: post]> bss !! id = Some (pre ++ nb :: post)) by (by apply list_lookup_insert_eq).
    assert (Hr' : mem_regions s' !! id = Some r') by (rewrite Hrs; apply list_lookup_insert_eq; by apply lookup_lt_Some in Hr).
    assert (Hva : bus_addr (vaddr_start nb) (laddr_start nb)) by (rewrite (bo_vaddr nb Hnb); apply laddr_to_vaddr; lia).
    assert (El : vaddr_start nb mod LINEAR_SIZE = laddr_start nb) by (apply bus_addr_mod; [done | lia]).
    assert (Hpos : 0 < vaddr_start nb).
    { destruct Hva as [[-> | ->] ?]; unfold SOC_MMU_DBUS_VADDR_BASE, SOC_MMU_IBUS_VADDR_BASE; lia. }
    destruct (esp_mmu_unmap_spec s' _ Hs' (vaddr_start nb) Hpos) as [[_ Hno] | (id' & b & pre' & post' & s'' & Est & Ecall & Hu)].
    { destruct (Hno id _ nb Hbs'); [apply elem_of_app; right; apply list_elem_of_here | done]. }
    rewrite El in Est. pose proof (un_blocks _ _ _ _ _ _ _ Hu) as Hb.
    assert (id' = id) as ->.
    { destruct (block_region s' _ Hs' id' _ b Hb) as (r1 & Hr1 & Hin1); [apply elem_of_app; right; apply list_elem_of_here|].
      destruct (block_region s' _ Hs' id _ nb Hbs') as (r2 & Hr2 & Hin2); [apply elem_of_app; right; apply list_elem_of_here|].
      rewrite Est in Hin1. by apply (region_unique s' _ Hs' _ _ _ _ _ Hr1 Hr2 Hin1 Hin2). }
    rewrite Hbs' in Hb. injection Hb as Hb. destruct (chain_unique _ _ _ _ _ _ _ _ Hch Hb) as (<- & <- & <-); [done|].
    destruct (un_region _ _ _ _ _ _ _ Hu) as (r2 & r'' & Hr2 & Hrs' & Hv'). rewrite Hr' in Hr2. injection Hr2 as <-.
    eexists s'', _. split_and!; [done | apply (un_state _ _ _ _ _ _ _ Hu) | |].
    - unfold view. rewrite Hrs', Hrs, list_insert_insert_eq. apply (view_insert s1 id r r'' Hr). rewrite Hv'.
      pose proof (f_equal free_head Hv) as E1. pose proof (f_equal end_ Hv) as E2. cbn in E1, E2. rewrite E1, E2.
      pose proof (ro_slot _ _ _ (so_regions _ _ Hs1 id r _ Hr Hbs)) as Hslot. rewrite <- Hslot.
      change (with_free (free_head r) (max_slot_size r) (with_blocks [] r') = with_blocks [] r). rewrite Hv. by destruct r.
    - intros l Hl. rewrite (un_phys _ _ _ _ _ _ _ Hu), (mp_phys _ _ _ _ _ _ _ _ Hm) by done.
      destruct (inside nb l) eqn:E; [|done]. apply inside_spec in E. symmetry.
      rewrite (so_phys _ _ Hs1 id r _ l Hr Hbs) by (unfold in_region; lia).
      apply (translate_taken _ _ _ _ _ _ Hch). apply inside_spec. lia.
  Qed.
End Undo.

(** C22: unmapping the pointer that mapping has returned succeeds, and then every
    address leads where it did before, and the largest free size is the same for
    all capabilities and targets. *)
Theorem unmap_undoes_map P s mem paddr size target caps flags v s' :
  reachable P s -> allowed s (C_map mem paddr size target caps flags true) ->
  esp_mmu_map mem s paddr size target caps flags true = Some (ESP_OK, Some v, s') ->
  exists s'', esp_mmu_unmap s' v = Some (ESP_OK, s'')
    /\ (forall w, 0 <= w < 2 ^ 32 -> lookup_vaddr s'' w = lookup_vaddr s w)
    /\ (forall caps' target', free_size s'' caps' target' = free_size s caps' target').
Proof.
  intros Hreach Ha Hcall. destruct (mmu_reachable_ok P s Hreach) as (bss & Hs & _).
  destruct (map_done s bss Hs mem paddr size target caps flags Ha v s' Hcall)
    as (s1 & id & r & new & pre & post & nb & _ & _ & Hbs & Hs1 & Hview & Hhw & -> & Hm & _).
  destruct (unmap_mapped s1 s' bss id new nb pre post Hs1 Hbs Hm) as (s'' & bss'' & Hu & Hs'' & Hv & Hp).
  exists s''. split_and!; [done | |].
  - intros w Hw. apply (lookup_same s bss s'' bss''); [done..|]. intros _. rewrite Hp, Hhw; [done|]. by apply Z.mod_pos_bound.
  - intros caps' target'. apply free_size_view. by rewrite Hv.
Qed.

(** ** Error codes *)

(** A range of physical memory is mapped in one piece, from an address of the
    block at [w] on. *)
Definition mapped_at (s : mmu_ctx_t) (w paddr len target : Z) : Prop :=
  exists off, 0 <= off /\ forall x, 0 <= x < len -> lookup_vaddr s (w + off + x) = Some (ESP_OK, Some (paddr + x, target)).

(** One of its addresses is mapped. *)
Definition touched (s : mmu_ctx_t) (paddr len target : Z) : Prop :=
  exists w x, 0 <= w < 2 ^ 32 /\ 0 <= x < len /\ lookup_vaddr s w = Some (ESP_OK, Some (paddr + x, target)).

Lemma block_lookup s bss id r bs b x :
  state_ok s bss -> mem_regions s !! id = Some r -> bss !! id = Some bs -> b ∈ bs -> 0 <= x < b_size b ->
  lookup_vaddr s (vaddr_start b + x) = Some (ESP_OK, Some (paddr_start b + x, b_target b)).
Proof.
  intros Hs Hr Hbs Hb Hx. pose proof (ro_chain _ _ _ (so_regions _ _ Hs id r bs Hr Hbs)) as Hch.
  destruct (region_bounds s bss id r bs Hs Hr Hbs) as (Hb0 & _ & Hb2). pose proof (chain_bound _ _ _ _ Hch Hb) as Hbound.
  assert (Hok : block_ok b) by (eapply Forall_forall; [by eapply chain_blocks | done]). pose proof (bo_end b Hok) as He.
  assert (Hv : bus_addr (vaddr_start b + x) (laddr_start b + x)).
  { rewrite (bo_vaddr b Hok), vaddr_of_caps, <- Z.add_assoc by lia. apply bus_base_addr. lia. }
  rewrite (lookup_phys s bss _ _ Hs Hv) by lia. rewrite (so_phys _ _ Hs id r bs _ Hr Hbs) by (unfold in_region; lia).
  apply list_elem_of_split in Hb as (pre & post & ->). rewrite (translate_split _ _ _ _ _ _ Hch).
  replace (inside b (laddr_start b + x)) with true by (symmetry; apply inside_spec; lia). do 4 f_equal. lia.
Qed.

Section Outcomes.
  Context (s : mmu_ctx_t) (bss : list (list mem_block_t)) (Hs : state_ok s bss).
  Context (id : nat) (r : mem_region_t) (bs : list mem_block_t) (Hr : mem_regions s !! id = Some r) (Hbs : bss !! id = Some bs).
  Context (paddr size target : Z) (Hargs : map_args paddr size target) (shared : bool).

Let len := PAGE * pages size.

Lemma blocks_ok : Forall block_ok bs.
  Proof. eapply chain_blocks, (ro_chain _ _ _ (so_regions _ _ Hs id r bs Hr Hbs)). Qed.

Lemma args_bounds : 0 <= paddr /\ 0 < len /\ paddr + len < 2 ^ 32.
  Proof.
    destruct Hargs as [H1 H2 H3 H4 _]. pose proof (map_args_pages _ _ _ Hargs). fold len in H3. split; [done|].
    unfold PAGE, SOC_MMU_MAX_PADDR_PAGE_NUM in *. unfold len, PAGE in *. lia.
  Qed.

Lemma enclosed_mapped b : check_records target paddr len shared bs = Enclosed b -> mapped_at s (vaddr_start b) paddr len target.
  Proof.
    destruct args_bounds as (H0 & Hpos & Hmax). intros Hc. apply check_enclosed in Hc as (Hb & Ht & Hlo & Hhi); [|done..|apply blocks_ok].
    assert (Hok : block_ok b) by (eapply Forall_forall; [apply blocks_ok | done]). pose proof (bo_pend b Hok).
    exists (paddr - paddr_start b). split; [lia|]. intros x Hx. rewrite <- Z.add_assoc.
    rewrite (block_lookup s bss id r bs b _ Hs Hr Hbs Hb) by lia. unfold same_target in Ht. rewrite Ht. do 4 f_equal. lia.
  Qed.

Lemma overlapped_touched : check_records target paddr len shared bs = Overlapped -> shared = false /\ touched s paddr len target.
  Proof.
    destruct args_bounds as (H0 & Hpos & Hmax). intros Hc. apply check_overlapped in Hc as (Hsh & b & Hb & Ht & Hap); [|done..|apply blocks_ok].
    split; [done|]. assert (Hok : block_ok b) by (eapply Forall_forall; [apply blocks_ok | done]). pose proof (bo_pend b Hok). unfold apart in Hap.
    destruct (region_bounds s bss id r bs Hs Hr Hbs) as (Hb0 & _ & Hb2).
    pose proof (chain_bound _ _ _ _ (ro_chain _ _ _ (so_regions _ _ Hs id r bs Hr Hbs)) Hb) as Hbound. pose proof (bo_end b Hok). pose proof (bo_pos b Hok). unfold LINEAR_SIZE in Hb2.
    set (q := Z.max paddr (paddr_start b)). exists (vaddr_start b + (q - paddr_start b)), (q - paddr). split_and!; try lia.
    - rewrite (bo_vaddr b Hok), vaddr_of_caps by (unfold LINEAR_SIZE; lia). unfold bus_base. case_match; unfold SOC_MMU_IBUS_VADDR_BASE, SOC_MMU_DBUS_VADDR_BASE; lia.
    - rewrite (bo_vaddr b Hok), vaddr_of_caps by (unfold LINEAR_SIZE; lia). unfold bus_base. case_match; unfold SOC_MMU_IBUS_VADDR_BASE, SOC_MMU_DBUS_VADDR_BASE; lia.
    - rewrite (block_lookup s bss id r bs b _ Hs Hr Hbs Hb) by lia. unfold same_target in Ht. rewrite Ht. do 4 f_equal. lia.
  Qed.
End Outcomes.

(** What a failed call has to leave as it was. *)
Definition unchanged (s s' : mmu_ctx_t) : Prop :=
  (forall w, 0 <= w < 2 ^ 32 -> lookup_vaddr s' w = lookup_vaddr s w) /\ forall caps target, free_size s' caps target = free_size s caps target.

Lemma unchanged_same s bss s' bss' : state_ok s bss -> state_ok s' bss' -> view s' = view s -> hw s' = hw s -> unchanged s s'.
Proof.
  intros Hs Hs' Hv Hw. split; [|intros c t; by apply free_size_view].
  intros w Hw'. apply (lookup_same s bss s' bss'); [done..|]. by rewrite Hw.
Qed.

Lemma free_size_none s caps target n size :
  0 < size -> s_mem_caps_check caps = ESP_OK -> free_size s caps target = (ESP_OK, Some n) ->
  n < size <-> s_find_available_region 0 (mem_regions s) size caps target = None.
Proof.
  intros Hpos Hcaps Hn. unfold free_size, esp_mmu_map_get_max_consecutive_free_block_size in Hn. rewrite Hcaps in Hn. cbn in Hn.
  injection Hn as <-. rewrite max_loop_spec, find_region_none. split; [tauto | by intros Hall; split].
Qed.


(** ** Physical memory that is mapped once *)

(** When no call asks for a shared mapping, two addresses of a region that
    lead to the same physical address are the same linear address. *)
Theorem physical_memory_mapped_once P s r w w' p t :
  reachable P s -> (forall c, P c -> private c) -> r ∈ mem_regions s ->
  0 <= w < 2 ^ 32 -> 0 <= w' < 2 ^ 32 -> in_region r (linear w) -> in_region r (linear w') ->
  lookup_vaddr s w = Some (ESP_OK, Some (p, t)) -> lookup_vaddr s w' = Some (ESP_OK, Some (p, t)) -> linear w = linear w'.
Proof.
  intros Hreach Hpriv Hr Hw Hw' Hin Hin' Hl Hl'. destruct (mmu_reachable_ok P s Hreach) as (bss & Hs & _ & Hinj). specialize (Hinj Hpriv).
  apply list_elem_of_lookup in Hr as [i Hr].
  destruct (lookup_lt_is_Some_2 bss i) as [bs Hbs]; [rewrite (so_length _ _ Hs); by apply lookup_lt_Some in Hr|].
  destruct (found_phys s bss w p t Hs Hw Hl) as [_ H1], (found_phys s bss w' p t Hs Hw' Hl') as [_ H2].
  rewrite (so_phys _ _ Hs i r bs _ Hr Hbs Hin) in H1. rewrite (so_phys _ _ Hs i r bs _ Hr Hbs Hin') in H2.
  by apply (proj1 (Forall_lookup _ _) Hinj i bs Hbs _ _ p t).
Qed.

(** ** The caches *)

(** C23: in every state that calls reach, the log of the hardware shows the table
    and the buses changed while the caches were off only, and every page that was
    mapped invalidated before the caches were turned on again; no call that is
    allowed aborts. *)
Theorem tables_change_with_caches_off P s :
  reachable P s ->
  quiet true [] (mmu_log (hw s)) = true /\ forall c, allowed s c -> exists e o s', run_call c s = Some (e, o, s') /\ quiet true [] (mmu_log (hw s')) = true.
Proof.
  intros Hreach. destruct (mmu_reachable_ok P s Hreach) as (bss & Hs & Hq & _). split; [done|]. intros c Ha.
  destruct (run_call_ok s bss Hs c Ha) as (e & o & s' & E & bss' & es & _ & Hlog & Hes & _).
  exists e, o, s'. split; [done|]. by rewrite Hlog, quiet_app.
Qed.

(** ** From physical addresses back *)

Lemma decode_match e val t :
  negb (has_flag e SOC_MMU_INVALID) && ((if (if has_flag e SOC_MMU_TYPE then 1 else 0) =? SOC_MMU_ACCESS_FLASH then MMU_TARGET_FLASH0 else MMU_TARGET_PSRAM0) =? t)
    && (Z.land e SOC_MMU_VALID_VAL_MASK =? val) = true
  <-> decode e = Some (val, t).
Proof.
  unfold decode. destruct (has_flag e SOC_MMU_INVALID); [done|]. cbn [negb andb].
  rewrite andb_true_iff, !Z.eqb_eq. destruct (has_flag e SOC_MMU_TYPE); cbn; split; [by intros [-> ->] | by intros [= -> ->] | by intros [-> ->] | by intros [= -> ->]].
Qed.

Lemma find_entry_loop_spec n : forall i m val t, table_ok m -> 0 <= i -> i + Z.of_nat n <= 512 ->
  (find_entry_loop n i m val t = Some (-1) /\ forall j, i <= j < i + n -> decode (mmu_table m !!! Z.to_nat j) <> Some (val, t))
  \/ exists r, find_entry_loop n i m val t = Some r /\ i <= r < i + n /\ decode (mmu_table m !!! Z.to_nat r) = Some (val, t).
Proof.
  induction n as [|n IH]; intros i m val t Hm H0 Hi; [left; split; [done | lia]|]. cbn [find_entry_loop].
  unfold mmu_ll_check_entry_valid, mmu_ll_get_entry_target. rewrite read_entry by (done || lia).
  destruct (_ && _) eqn:E.
  - apply decode_match in E. right. exists i. split_and!; [done | lia | lia | done].
  - assert (Hne : decode (mmu_table m !!! Z.to_nat i) <> Some (val, t)) by (intros Hd%decode_match; congruence).
    destruct (IH (i + 1) m val t Hm ltac:(lia) ltac:(lia)) as [[-> Hno] | (r & -> & Hr & Hd)].
    + left. split; [done|]. intros j Hj. destruct (Z.eq_dec j i) as [-> | Hji]; [done | apply Hno; lia].
    + right. exists r. split_and!; [done | lia | lia | done].
Qed.

(** From a physical address one gets an address that leads to it, or is told
    that no address does. *)
Theorem paddr_to_vaddr_inverse P s paddr target type :
  reachable P s -> 0 <= paddr < PAGE * SOC_MMU_MAX_PADDR_PAGE_NUM ->
  exists e o s', esp_mmu_paddr_to_vaddr s paddr target type true = Some (e, o, s')
    /\ match e with
       | ESP_OK => exists w, o = Some w /\ lookup_vaddr s w = Some (ESP_OK, Some (paddr, target))
       | ESP_ERR_NOT_FOUND => forall w, 0 <= w < 2 ^ 32 -> lookup_vaddr s w <> Some (ESP_OK, Some (paddr, target))
       | _ => False
       end.
Proof.
  intros Hreach Hp. destruct (mmu_reachable_ok P s Hreach) as (bss & Hs & _). pose proof (so_table _ _ Hs) as Hm.
  unfold esp_mmu_paddr_to_vaddr, s_paddr_to_vaddr, mmu_hal_paddr_to_vaddr. cbn [negb]. unfold PAGE, SOC_MMU_MAX_PADDR_PAGE_NUM in Hp.
  replace (mmu_ll_check_valid_paddr_region paddr 1) with true.
  2: { symmetry. unfold mmu_ll_check_valid_paddr_region, mmu_ll_get_page_size, SOC_MMU_MAX_PADDR_PAGE_NUM, MMU_PAGE_64KB.
       rewrite u32_small by lia. rewrite !andb_true_iff, !Z.ltb_lt. lia. }
  unfold mmu_ll_format_paddr. rewrite Z.shiftr_div_pow2 by lia. change (2 ^ 16) with PAGE.
  pose proof (Z.div_mod paddr PAGE ltac:(done)) as Hdm. pose proof (Z.mod_pos_bound paddr PAGE ltac:(done)) as Hmod.
  destruct (find_entry_loop_spec (Z.to_nat SOC_MMU_ENTRY_NUM) 0 (with_event CachesOff (hw s)) (paddr / PAGE) target Hm ltac:(lia) ltac:(done))
    as [[E Hno] | (i & E & Hi & Hd)]; unfold mmu_ll_find_entry_id_based_on_map_value; rewrite E.
  - eexists _, _, _. split; [done|]. intros w Hw Hf. destruct (found_phys s bss w paddr target Hs Hw Hf) as [Hl Hph].
    apply (Hno (linear w / PAGE)); [pose proof (page_of_range _ Hl); change (Z.to_nat SOC_MMU_ENTRY_NUM : Z) with 512; lia|].
    unfold phys in Hph. cbn [with_event mmu_table]. destruct (decode _) as [[q t]|]; [|done]. cbn in Hph. injection Hph as Hq ->.
    pose proof (Z.mod_pos_bound (linear w) PAGE ltac:(done)). unfold PAGE in *. do 2 f_equal. lia.
  - change (Z.to_nat SOC_MMU_ENTRY_NUM : Z) with 512 in Hi. replace (i =? -1) with false by (symmetry; apply Z.eqb_neq; lia).
    change (mmu_hal_pages_to_bytes 1) with (Some PAGE). cbv beta iota zeta. unfold mmu_ll_entry_id_to_vaddr_base.
    rewrite Z.shiftl_mul_pow2, u32_small by lia. change (2 ^ 16) with PAGE.
    set (l := i * PAGE + paddr mod PAGE). assert (Hl : 0 <= i * PAGE < LINEAR_SIZE /\ 0 <= l < LINEAR_SIZE) by (unfold l, PAGE, LINEAR_SIZE in *; lia).
    assert (Hw : exists w, Z.lor (mmu_ll_laddr_to_vaddr (i * PAGE) type) (paddr mod PAGE) = w /\ bus_addr w l
       /\ (mmu_ll_laddr_to_vaddr (i * PAGE) type =? 0) = false).
    { destruct (laddr_to_vaddr (i * PAGE) type ltac:(tauto)) as [[-> | ->] _]; unfold SOC_MMU_DBUS_VADDR_BASE, SOC_MMU_IBUS_VADDR_BASE, PAGE in *.
      - exists (0x3C000000 + l). replace (0x3C000000 + i * 65536) with ((15360 + i) * 2 ^ 16) by lia. rewrite lor_low by lia.
        split_and!; [unfold l; lia | split; [left; done | lia] | apply Z.eqb_neq; lia].
      - exists (0x42000000 + l). replace (0x42000000 + i * 65536) with ((16896 + i) * 2 ^ 16) by lia. rewrite lor_low by lia.
        split_and!; [unfold l; lia | split; [right; done | lia] | apply Z.eqb_neq; lia]. }
    destruct Hw as (w & -> & Hw & ->). eexists _, _, _. split; [done|]. exists w. split; [done|].
    rewrite (lookup_phys s bss w l Hs Hw) by lia. unfold phys. cbn [with_event mmu_table] in Hd.
    replace (l / PAGE) with i by (apply (Z.div_unique l PAGE i (paddr mod PAGE)); [by left | unfold l; lia]). rewrite Hd. cbn.
    replace (l mod PAGE) with (paddr mod PAGE) by (unfold l; rewrite Z.add_comm, Z_mod_plus_full, Z.mod_mod; done). do 4 f_equal. lia.
Qed.
