(* ===== verification/MmuExample.v ===== *)
(** * Computations on the memory mapping ([esp_mm/esp_mmu_map.c])

    A chip that has started, the witnesses of the theorems of [MmuThm], and
    inputs where the code does not do what its documentation says. *)

From S2P Require Import Prelude EspErr MmuHal MmuMap MmuBlocks MmuState MmuOps MmuInit MmuReach MmuThm.

Module MmuExample.

(** ** A chip that has started *)

Definition hw0 : mmu_hw := {| mmu_table := replicate 512 SOC_MMU_INVALID; mmu_log := [] |}.
Definition irom : Z * Z := (0x42020020, 0x42043000).
Definition drom : Z * Z := (0x3C000020, 0x3C018000).

Lemma hw0_phys l : 0 <= l < LINEAR_SIZE -> phys hw0 l = None.
Proof.
  intros Hl. unfold phys, hw0. cbn [mmu_table]. pose proof (page_of_range l Hl).
  rewrite lookup_total_replicate_2 by lia. reflexivity.
Qed.

Lemma hw0_booted : booted irom drom hw0.
Proof.
  split.
  - vm_compute. repeat split; congruence.
  - vm_compute. repeat split; congruence.
  - vm_compute. congruence.
  - reflexivity.
  - intros l [H1 H2]. apply hw0_phys. split; [|done]. etransitivity; [|exact H1]. vm_compute. congruence.
  - reflexivity.
Qed.

Definition region0 : mem_region_t :=
  {| bus_id := 9; start := 0; end_ := 0x2000000; region_size := 0x2000000; free_head := 0x50000;
     max_slot_size := 0x1FB0000; r_caps := 31; r_targets := 3; mem_block_head := [] |}.
Definition s0 : mmu_ctx_t := {| mem_regions := [region0]; heap := ∅; hw := hw0 |}.

Lemma s0_reachable P : reachable P s0.
Proof. apply (reach_init P irom drom hw0 s0 hw0_booted). vm_compute. reflexivity. Qed.

(** An allocator that returns [a], [a + 1], [a + 2]. *)
Definition mem_at (a : positive) (i : nat) : option positive :=
  match i with 0%nat => Some a | 1%nat => Some (a + 1)%positive | 2%nat => Some (a + 2)%positive | _ => None end.

Definition map_at (a : positive) (paddr size target caps flags : Z) (s : option mmu_ctx_t) : option (esp_err_t * option Z * mmu_ctx_t) :=
  s ← s; esp_mmu_map (mem_at a) s paddr size target caps flags true.
Definition state_of (r : option (esp_err_t * option Z * mmu_ctx_t)) : option mmu_ctx_t := snd <$> r.
Definition answer {A} (r : option (esp_err_t * A * mmu_ctx_t)) : option (esp_err_t * A) := fst <$> r.

(** Three pages of flash for data. *)
Definition r1 := map_at 11 0x110000 0x20001 MMU_TARGET_FLASH0 MMU_MEM_CAP_READ 0 (Some s0).

Example r1_is : answer r1 = Some (ESP_OK, Some 0x3C050000).
Proof. vm_compute. reflexivity. Qed.

(** ** Where the code departs from its documentation *)

(** When the allocator has a block for the first dummy and none for the second,
    the first is freed but stays in the list: the next call uses it. *)
Example dangling_dummy :
  let only_one := fun i => if Nat.eqb i 0 then Some 7%positive else None in
  let r := esp_mmu_map only_one s0 0x110000 0x20001 MMU_TARGET_FLASH0 MMU_MEM_CAP_READ 0 true in
  answer r = Some (ESP_ERR_NO_MEM, None) /\ map_at 11 0x110000 0x20001 MMU_TARGET_FLASH0 MMU_MEM_CAP_READ 0 (state_of r) = None.
Proof. vm_compute. split; reflexivity. Qed.

(** The same when the memory is used up at the new block: both dummies. *)
Example dangling_dummies :
  let only_two := fun i => if (i <? 2)%nat then Some (7 + Pos.of_nat i)%positive else None in
  let r := esp_mmu_map only_two s0 0x110000 0x20001 MMU_TARGET_FLASH0 MMU_MEM_CAP_READ 0 true in
  answer r = Some (ESP_ERR_NO_MEM, None) /\ map_at 11 0x110000 0x20001 MMU_TARGET_FLASH0 MMU_MEM_CAP_READ 0 (state_of r) = None.
Proof. vm_compute. split; reflexivity. Qed.

(** A size of zero maps nothing with success; the block goes before the dummy, is
    taken for it from then on; unmapping it finds the dummy, whose address is not
    of external memory, and stops at an assertion. *)
Example size_zero :
  let r := map_at 11 0x110000 0 MMU_TARGET_FLASH0 MMU_MEM_CAP_READ 0 (Some s0) in
  answer r = Some (ESP_OK, Some 0x3C050000)
  /\ (mem_block_head <$> (s ← state_of r; mem_regions s !! 0%nat)) = Some [13%positive; 11%positive; 12%positive]
  /\ (fst <$> (s ← state_of r; esp_mmu_unmap s 0x3C050000)) = None.
Proof. vm_compute. repeat split; reflexivity. Qed.

(** A pointer to internal RAM is not refused: the block whose linear address it
    has in its low bits is unmapped. *)
Example unmap_internal_ram :
  let r := map_at 21 0x1D10000 0x10000 MMU_TARGET_FLASH0 MMU_MEM_CAP_READ 0
             (state_of (map_at 11 0x0 0x1C40000 MMU_TARGET_FLASH0 MMU_MEM_CAP_READ 0 (Some s0))) in
  answer r = Some (ESP_OK, Some 0x3DC90000)
  /\ (fst <$> (s ← state_of r; esp_mmu_unmap s 0x3FC90000)) = Some ESP_OK
  /\ (s ← state_of r; '(_, s) ← esp_mmu_unmap s 0x3FC90000; lookup_vaddr s 0x3DC90000) = Some (ESP_ERR_NOT_FOUND, None).
Proof. vm_compute. repeat split; reflexivity. Qed.

(** Without the flag for shared mappings, a range that is enclosed is answered
    with invalid state, not with invalid argument. *)
Example enclosed_without_flag :
  answer (map_at 21 0x120000 0x10000 MMU_TARGET_FLASH0 MMU_MEM_CAP_READ 0 (state_of r1)) = Some (ESP_ERR_INVALID_STATE, Some 0x3C050000).
Proof. vm_compute. reflexivity. Qed.

(** Reserving when something is mapped returns the address of what is mapped. *)
Example reserve_mapped :
  (s ← state_of r1; answer (esp_mmu_map_reserve_block_with_caps s 0x10000 MMU_MEM_CAP_READ MMU_TARGET_PSRAM0 true)) = Some (ESP_OK, Some 0x3C050000).
Proof. vm_compute. reflexivity. Qed.

(** Physical memory that is mapped, but not at the start of a block, is said not
    to be mapped; of a block of another target the capabilities are returned. *)
Example find_caps_start_only :
  (s ← state_of r1; esp_mmu_paddr_find_caps s 0x120000 true) = Some (ESP_ERR_NOT_FOUND, None)
  /\ (s ← state_of r1; lookup_vaddr s 0x3C060000) = Some (ESP_OK, Some (0x120000, MMU_TARGET_FLASH0)).
Proof. vm_compute. split; reflexivity. Qed.

(** The end of a block of instructions at the end of the linear space is stored
    as the start of the bus: bit 25 of the base is set already. *)
Example end_of_instructions :
  let r := map_at 11 0x0 0x1FB0000 MMU_TARGET_FLASH0 MMU_MEM_CAP_EXEC 0 (Some s0) in
  answer r = Some (ESP_OK, Some 0x42050000)
  /\ (b ← (s ← state_of r; heap s !! 13%positive); Some (laddr_end b, vaddr_end b)) = Some (0x2000000, 0x42000000).
Proof. vm_compute. split; reflexivity. Qed.

(** A physical address that the table cannot hold is not an error: the program is
    stopped by an assertion, after the block has been linked. *)
Example paddr_out_of_range : map_at 11 0x40000000 0x10000 MMU_TARGET_FLASH0 MMU_MEM_CAP_READ 0 (Some s0) = None.
Proof. vm_compute. reflexivity. Qed.

(** ** Witnesses *)

Definition the {A} (d : A) (o : option A) : A := default d o.
Definition s1 : mmu_ctx_t := the s0 (state_of r1).

Definition call1 : mmu_call := C_map (mem_at 11) 0x110000 0x20001 MMU_TARGET_FLASH0 MMU_MEM_CAP_READ 0 true.

Lemma mem_at_fresh a s :
  heap s !! a = None -> heap s !! (a + 1)%positive = None -> heap s !! (a + 2)%positive = None -> fresh (mem_at a) s.
Proof.
  intros H0 H1 H2. unfold fresh, mem_at. split.
  - intros [|[|[|i]]] b; cbn; by intros [= <-].
  - intros [|[|[|i]]] [|[|[|j]]] b; cbn; intros [= Hi] [= Hj]; try done; lia.
Qed.

Lemma mem_at_enough a s : enough (mem_at a) s.
Proof. intros r _ _ [|[|[|i]]] Hi; [by eexists..|lia]. Qed.

Lemma args_ok paddr size target :
  (0 <=? paddr) && (0 <? size) && (paddr + PAGE * pages size <=? PAGE * SOC_MMU_MAX_PADDR_PAGE_NUM)
    && (PAGE * pages size <? PAGE * SOC_MMU_MAX_PADDR_PAGE_NUM) && ((target =? MMU_TARGET_FLASH0) || (target =? MMU_TARGET_PSRAM0)) = true ->
  map_args paddr size target.
Proof.
  rewrite !andb_true_iff, orb_true_iff, !Z.leb_le, !Z.ltb_lt, !Z.eqb_eq. intros ((((H1 & H2) & H3) & H4) & H5). by split.
Qed.

Lemma call1_allowed : allowed s0 call1.
Proof. split_and!; [by apply mem_at_fresh | apply mem_at_enough | by apply args_ok]. Qed.

Lemma call1_done : run_call call1 s0 = Some (ESP_OK, Some 0x3C050000, s1).
Proof. vm_compute. reflexivity. Qed.

Lemma s1_reachable : reachable private s1.
Proof. eapply (reach_call private s0 call1); [apply s0_reachable | reflexivity | apply call1_allowed | apply call1_done]. Qed.

Lemma mapped_addresses_translate_witness :
  lookup_vaddr s0 (0x3C050000 + 0x2FFFF) = Some (ESP_ERR_NOT_FOUND, None)
  /\ lookup_vaddr s1 (0x3C050000 + 0x2FFFF) = Some (ESP_OK, Some (0x110000 + 0x2FFFF, MMU_TARGET_FLASH0)).
Proof.
  assert (H : 0 <= 0x2FFFF < PAGE * pages 0x20001) by (vm_compute; split; congruence).
  exact (proj1 (proj2 (proj2 (mapped_addresses_translate private s0 (mem_at 11) 0x110000 0x20001 MMU_TARGET_FLASH0 MMU_MEM_CAP_READ 0
    0x3C050000 s1 (s0_reachable private) call1_allowed call1_done))) 0x2FFFF H).
Defined.

Lemma unmap_undoes_map_witness :
  exists s'', esp_mmu_unmap s1 0x3C050000 = Some (ESP_OK, s'')
    /\ (forall w, 0 <= w < 2 ^ 32 -> lookup_vaddr s'' w = lookup_vaddr s0 w)
    /\ (forall caps' target', free_size s'' caps' target' = free_size s0 caps' target').
Proof.
  exact (unmap_undoes_map private s0 (mem_at 11) 0x110000 0x20001 MMU_TARGET_FLASH0 MMU_MEM_CAP_READ 0
    0x3C050000 s1 (s0_reachable private) call1_allowed call1_done).
Defined.

(** Two pages, the first of which is mapped already. *)
Definition call2 : mmu_call := C_map (mem_at 21) 0x130000 0x20000 MMU_TARGET_FLASH0 MMU_MEM_CAP_READ 0 true.

Lemma call2_allowed : allowed s1 call2.
Proof. split_and!; [by apply mem_at_fresh; vm_compute | apply mem_at_enough | by apply args_ok]. Qed.


(** The same page on the bus for data and on the one for instructions. *)
Lemma physical_memory_mapped_once_witness :
  lookup_vaddr s1 0x3C060000 = Some (ESP_OK, Some (0x120000, MMU_TARGET_FLASH0))
  /\ lookup_vaddr s1 0x42060000 = Some (ESP_OK, Some (0x120000, MMU_TARGET_FLASH0)) /\ linear 0x3C060000 = linear 0x42060000.
Proof.
  assert (H1 : lookup_vaddr s1 0x3C060000 = Some (ESP_OK, Some (0x120000, MMU_TARGET_FLASH0))) by (vm_compute; reflexivity).
  assert (H2 : lookup_vaddr s1 0x42060000 = Some (ESP_OK, Some (0x120000, MMU_TARGET_FLASH0))) by (vm_compute; reflexivity).
  split; [exact H1|]. split; [exact H2|].
  apply (physical_memory_mapped_once private s1 (the region0 (mem_regions s1 !! 0%nat)) 0x3C060000 0x42060000 0x120000 MMU_TARGET_FLASH0);
    [exact s1_reachable | tauto | | lia | lia | vm_compute; split; congruence | vm_compute; split; congruence | exact H1 | exact H2].
  apply (list_elem_of_lookup_2 _ 0). vm_compute. reflexivity.
Defined.

(** A call is allowed in the state after the first mapping. *)
Lemma tables_change_with_caches_off_witness :
  quiet true [] (mmu_log (hw s1)) = true /\ exists e o s', run_call (C_unmap 0x3C050000) s1 = Some (e, o, s') /\ quiet true [] (mmu_log (hw s')) = true.
Proof.
  destruct (tables_change_with_caches_off private s1 s1_reachable) as [Hq Hc]. split; [exact Hq|]. apply Hc. cbn. lia.
Defined.

Lemma paddr_to_vaddr_inverse_witness :
  exists w s', esp_mmu_paddr_to_vaddr s1 0x12ABCD MMU_TARGET_FLASH0 MMU_VADDR_DATA true = Some (ESP_OK, Some w, s')
    /\ lookup_vaddr s1 w = Some (ESP_OK, Some (0x12ABCD, MMU_TARGET_FLASH0)).
Proof.
  destruct (paddr_to_vaddr_inverse private s1 0x12ABCD MMU_TARGET_FLASH0 MMU_VADDR_DATA s1_reachable) as (e & o & s' & Hcall & Hw).
  { vm_compute. split; congruence. }
  assert (Ha : fst <$> esp_mmu_paddr_to_vaddr s1 0x12ABCD MMU_TARGET_FLASH0 MMU_VADDR_DATA true = Some (ESP_OK, Some 0x3C06ABCD)) by (vm_compute; reflexivity).
  rewrite Hcall in Ha. injection Ha as -> ->. destruct Hw as (w & [= <-] & Hw). exists 0x3C06ABCD, s'. split; [exact Hcall | exact Hw].
Defined.

End MmuExample.
