(* ===== verification/FlashRun.v ===== *)
(** * Programs over a device state

    The flash driver works on a device: each call reads and changes the state
    [S] and returns a value. It may also fail an assertion or call [abort]
    ([Aborted]), or wait for a device that never answers ([Spins]: the polls
    the model allows are used up). [wp] is total correctness: the call returns,
    and its result and final state satisfy a postcondition. *)

From S2P Require Import Prelude.

Inductive outcome (S A : Type) : Type :=
| Done (s : S) (a : A)
| Aborted
| Spins.
Arguments Done {_ _}.
Arguments Aborted {_ _}.
Arguments Spins {_ _}.

Definition prog (S A : Type) : Type := S -> outcome S A.

#[export] Instance prog_ret S : MRet (prog S) := fun A a s => Done s a.
#[export] Instance prog_bind S : MBind (prog S) := fun A B k m s =>
  match m s with
  | Done s' a => k a s'
  | Aborted => Aborted
  | Spins => Spins
  end.

Definition gets {S A} (f : S -> A) : prog S A := fun s => Done s (f s).
Definition modify {S} (f : S -> S) : prog S unit := fun s => Done (f s) tt.
Definition aborts {S A} : prog S A := fun s => Aborted.
Definition spins {S A} : prog S A := fun s => Spins.
Definition assert {S} (b : bool) : prog S unit := if b then mret tt else aborts.

Definition wp {S A} (m : prog S A) (s : S) (Q : A -> S -> Prop) : Prop :=
  match m s with Done s' a => Q a s' | _ => False end.

Section Rules.
  Context {S : Type}.

Lemma wp_ret {A} (a : A) s (Q : A -> S -> Prop) : Q a s -> wp (mret a) s Q.
Proof. done. Qed.

Lemma wp_gets {A} (f : S -> A) s (Q : A -> S -> Prop) : Q (f s) s -> wp (gets f) s Q.
Proof. done. Qed.

Lemma wp_modify (f : S -> S) s (Q : unit -> S -> Prop) : Q tt (f s) -> wp (modify f) s Q.
Proof. done. Qed.

Lemma wp_assert b s (Q : unit -> S -> Prop) : b = true -> Q tt s -> wp (assert b) s Q.
Proof. by intros ->. Qed.

Lemma wp_bind {A B} (m : prog S A) (k : A -> prog S B) s Q :
  wp m s (fun a s' => wp (k a) s' Q) -> wp (m ≫= k) s Q.
Proof. unfold wp, mbind, prog_bind. by destruct (m s). Qed.

Lemma wp_mono {A} (m : prog S A) s (P Q : A -> S -> Prop) :
  wp m s P -> (forall a s', P a s' -> Q a s') -> wp m s Q.
Proof. unfold wp. destruct (m s); naive_solver. Qed.

Lemma wp_done {A} (m : prog S A) s s' a Q : m s = Done s' a -> wp m s Q -> Q a s'.
Proof. unfold wp. by intros ->. Qed.

Lemma wp_returns {A} (m : prog S A) s Q : wp m s Q -> exists s' a, m s = Done s' a /\ Q a s'.
Proof. unfold wp. destruct (m s); [eauto|done|done]. Qed.

Lemma wp_if {A} (b : bool) (m1 m2 : prog S A) s Q :
  (b = true -> wp m1 s Q) -> (b = false -> wp m2 s Q) -> wp (if b then m1 else m2) s Q.
Proof. destruct b; auto. Qed.
End Rules.

(** Run the calls of a sequence: the bookkeeping steps at once, the others
    left as the goal. *)
Ltac wp_step :=
  lazymatch goal with
  | |- wp (mbind _ _) _ _ => apply wp_bind
  | |- wp (mret _) _ _ => apply wp_ret
  | |- wp (gets _) _ _ => apply wp_gets
  | |- wp (modify _) _ _ => apply wp_modify
  | |- wp (assert _) _ _ => apply wp_assert
  end; cbv beta.
Ltac wp_run := repeat wp_step.

(** Apply a specification of the call that is next. *)
Tactic Notation "wp_call" uconstr(spec) :=
  lazymatch goal with |- wp (mbind _ _) _ _ => apply wp_bind | _ => idtac end;
  eapply wp_mono; [eapply spec|cbv beta].
