(* ===== verification/SpiMem.v ===== *)
(** * The SPI memory controller ([hal/esp32s3/include/hal/spimem_flash_ll.h],
    [hal/spi_flash_hal_common.inc], [hal/spi_flash_hal_iram.c])

    A command goes to a flash chip by writing registers of the controller and
    starting it. [spi_mem_dev_t] keeps the registers of the transaction; what the
    controller then does on the wire is [wire_of]; the chip is behind [SpiHw].
    Clock, pins, hold times and suspending are left out. *)

From S2P Require Import Prelude EspErr FlashRun.

(** ** Commands ([spi_flash_defs.h]) and modes ([spi_flash_types.h]) *)

Definition CMD_RDID : Z := 0x9F.
Definition CMD_RDUID : Z := 0x4B.
Definition CMD_WRSR : Z := 0x01.
Definition SR_WIP : Z := 1.
Definition SR_WREN : Z := 2.
Definition CMD_WRSR2 : Z := 0x31.
Definition CMD_WREN : Z := 0x06.
Definition CMD_WRDI : Z := 0x04.
Definition CMD_RDSR : Z := 0x05.
Definition CMD_RDSR2 : Z := 0x35.
Definition CMD_FASTRD_QIO : Z := 0xEB.
Definition CMD_FASTRD_QUAD : Z := 0x6B.
Definition CMD_FASTRD_DIO : Z := 0xBB.
Definition CMD_FASTRD_DUAL : Z := 0x3B.
Definition CMD_FASTRD : Z := 0x0B.
Definition CMD_READ : Z := 0x03.
Definition CMD_CHIP_ERASE : Z := 0xC7.
Definition CMD_SECTOR_ERASE : Z := 0x20.
Definition CMD_LARGE_BLOCK_ERASE : Z := 0xD8.
Definition CMD_PROGRAM_PAGE : Z := 0x02.
Definition CMD_RST_EN : Z := 0x66.
Definition CMD_RST_DEV : Z := 0x99.
Definition SPI_FLASH_DIO_DUMMY_BITLEN : Z := 4.
Definition SPI_FLASH_QIO_DUMMY_BITLEN : Z := 6.
Definition SPI_FLASH_QOUT_DUMMY_BITLEN : Z := 8.
Definition SPI_FLASH_DOUT_DUMMY_BITLEN : Z := 8.
Definition SPI_FLASH_FASTRD_DUMMY_BITLEN : Z := 8.
Definition SPI_FLASH_SLOWRD_DUMMY_BITLEN : Z := 0.
Definition SPI_FLASH_QIO_HPM_DUMMY_BITLEN : Z := 10.
Definition SPI_FLASH_DIO_HPM_DUMMY_BITLEN : Z := 8.

Definition SPI_FLASH_SLOWRD : Z := 0.
Definition SPI_FLASH_FASTRD : Z := 1.
Definition SPI_FLASH_DOUT : Z := 2.
Definition SPI_FLASH_DIO : Z := 3.
Definition SPI_FLASH_QOUT : Z := 4.
Definition SPI_FLASH_QIO : Z := 5.
Definition SPI_FLASH_OPI_FLAG : Z := 16.
Definition SPI_FLASH_OPI_STR : Z := 16.
Definition SPI_FLASH_OPI_DTR : Z := 17.
Definition SPI_FLASH_CONFIG_CONF_BITS : Z := 2 ^ 31.
Definition SPI_FLASH_TRANS_FLAG_IGNORE_BASEIO : Z := 2.
Definition SPI_FLASH_TRANS_FLAG_PE_CMD : Z := 8.

(** ** Registers ([soc/spi_mem_struct.h]) *)

Record spi_mem_dev_t := SpiDev {
  dev_addr : Z;
  dev_ctrl : Z;                    (** lines used by each phase *)
  fmem_ddr_en : bool;
  usr_command : bool; usr_addr : bool; usr_dummy : bool; usr_miso : bool; usr_mosi : bool;
  usr_addr_bitlen : Z;             (** the lengths are one less than the number of bits *)
  usr_dummy_cyclelen : Z;
  usr_command_value : Z;
  usr_command_bitlen : Z;
  usr_miso_bit_len : Z;
  usr_mosi_bit_len : Z;
  data_buf : list Z;               (** 16 words *)
}.

Definition spimem_flash_ll_reset (d : spi_mem_dev_t) : spi_mem_dev_t :=
  let '(SpiDev a c r uc ua ud ui uo ab dc cv cb mi mo b) := d in
  SpiDev a 0 r false false false false false ab dc cv cb mi mo b.
Definition spimem_flash_ll_set_address (addr : Z) (d : spi_mem_dev_t) : spi_mem_dev_t :=
  let '(SpiDev a c r uc ua ud ui uo ab dc cv cb mi mo b) := d in
  SpiDev addr c r uc ua ud ui uo ab dc cv cb mi mo b.
(** The length of the address is not used here. *)
Definition spimem_flash_ll_set_usr_address (addr bitlen : Z) : spi_mem_dev_t -> spi_mem_dev_t :=
  spimem_flash_ll_set_address addr.
Definition spimem_flash_ll_set_addr_bitlen (bitlen : Z) (d : spi_mem_dev_t) : spi_mem_dev_t :=
  let '(SpiDev a c r uc ua ud ui uo ab dc cv cb mi mo b) := d in
  SpiDev a c r uc (negb (bitlen =? 0)) ud ui uo (wrap 6 (bitlen - 1)) dc cv cb mi mo b.
Definition spimem_flash_ll_get_addr_bitlen (d : spi_mem_dev_t) : Z :=
  if usr_addr d then usr_addr_bitlen d + 1 else 0.
Definition spimem_flash_ll_set_command (command bitlen : Z) (d : spi_mem_dev_t) : spi_mem_dev_t :=
  let '(SpiDev a c r uc ua ud ui uo ab dc cv cb mi mo b) := d in
  SpiDev a c r true ua ud ui uo ab dc (u16 command) (wrap 4 (bitlen - 1)) mi mo b.
Definition spimem_flash_ll_set_dummy (dummy_n : Z) (d : spi_mem_dev_t) : spi_mem_dev_t :=
  let '(SpiDev a c r uc ua ud ui uo ab dc cv cb mi mo b) := d in
  SpiDev a c r uc ua (negb (dummy_n =? 0)) ui uo ab (wrap 6 (dummy_n - 1)) cv cb mi mo b.
Definition spimem_flash_ll_set_miso_bitlen (bitlen : Z) (d : spi_mem_dev_t) : spi_mem_dev_t :=
  let '(SpiDev a c r uc ua ud ui uo ab dc cv cb mi mo b) := d in
  SpiDev a c r uc ua ud (0 <? bitlen) uo ab dc cv cb
         (wrap 10 (if bitlen =? 0 then 0 else bitlen - 1)) mo b.
Definition spimem_flash_ll_set_mosi_bitlen (bitlen : Z) (d : spi_mem_dev_t) : spi_mem_dev_t :=
  let '(SpiDev a c r uc ua ud ui uo ab dc cv cb mi mo b) := d in
  SpiDev a c r uc ua ud ui (0 <? bitlen) ab dc cv cb mi
         (wrap 10 (if bitlen =? 0 then 0 else bitlen - 1)) b.
Definition set_data_buf (b' : list Z) (d : spi_mem_dev_t) : spi_mem_dev_t :=
  let '(SpiDev a c r uc ua ud ui uo ab dc cv cb mi mo b) := d in
  SpiDev a c r uc ua ud ui uo ab dc cv cb mi mo b'.
Definition set_ctrl (c' : Z) (d : spi_mem_dev_t) : spi_mem_dev_t :=
  let '(SpiDev a c r uc ua ud ui uo ab dc cv cb mi mo b) := d in
  SpiDev a c' r uc ua ud ui uo ab dc cv cb mi mo b.
Definition set_ddr (r' : bool) (d : spi_mem_dev_t) : spi_mem_dev_t :=
  let '(SpiDev a c r uc ua ud ui uo ab dc cv cb mi mo b) := d in
  SpiDev a c r' uc ua ud ui uo ab dc cv cb mi mo b.
Definition clear_usr_dummy (d : spi_mem_dev_t) : spi_mem_dev_t :=
  let '(SpiDev a c r uc ua ud ui uo ab dc cv cb mi mo b) := d in
  SpiDev a c r uc ua false ui uo ab dc cv cb mi mo b.

Definition SPI_MEM_FREAD_QIO : Z := 2 ^ 24.
Definition SPI_MEM_FREAD_DIO : Z := 2 ^ 23.
Definition SPI_MEM_FREAD_QUAD : Z := 2 ^ 20.
Definition SPI_MEM_FREAD_DUAL : Z := 2 ^ 14.
Definition SPI_MEM_FASTRD_MODE : Z := 2 ^ 13.
Definition SPI_MEM_FCMD_OCT : Z := 2 ^ 9.
Definition SPI_MEM_FADDR_OCT : Z := 2 ^ 6.
Definition SPI_MEM_FDIN_OCT : Z := 2 ^ 5.
Definition SPI_MEM_FDOUT_OCT : Z := 2 ^ 4.
Definition ALL_OCT : Z :=
  Z.lor SPI_MEM_FCMD_OCT (Z.lor SPI_MEM_FADDR_OCT (Z.lor SPI_MEM_FDIN_OCT SPI_MEM_FDOUT_OCT)).
Definition READ_MODE_BITS : Z :=
  Z.lor SPI_MEM_FREAD_QIO (Z.lor SPI_MEM_FREAD_QUAD (Z.lor SPI_MEM_FREAD_DIO
    (Z.lor SPI_MEM_FREAD_DUAL ALL_OCT))).

(** [None] is the [abort] of an unknown mode. *)
Definition spimem_flash_ll_set_read_mode (read_mode : Z) (d : spi_mem_dev_t) : option spi_mem_dev_t :=
  let d := set_ddr false d in
  let ctrl := Z.lor (Z.ldiff (dev_ctrl d) READ_MODE_BITS) SPI_MEM_FASTRD_MODE in
  if read_mode =? SPI_FLASH_FASTRD then Some (set_ctrl ctrl d)
  else if read_mode =? SPI_FLASH_QIO then Some (set_ctrl (Z.lor ctrl SPI_MEM_FREAD_QIO) d)
  else if read_mode =? SPI_FLASH_QOUT then Some (set_ctrl (Z.lor ctrl SPI_MEM_FREAD_QUAD) d)
  else if read_mode =? SPI_FLASH_DIO then Some (set_ctrl (Z.lor ctrl SPI_MEM_FREAD_DIO) d)
  else if read_mode =? SPI_FLASH_DOUT then Some (set_ctrl (Z.lor ctrl SPI_MEM_FREAD_DUAL) d)
  else if read_mode =? SPI_FLASH_SLOWRD then Some (set_ctrl (Z.ldiff ctrl SPI_MEM_FASTRD_MODE) d)
  else if read_mode =? SPI_FLASH_OPI_STR then Some (set_ctrl (Z.lor ctrl ALL_OCT) d)
  else if read_mode =? SPI_FLASH_OPI_DTR then Some (set_ddr true (set_ctrl (Z.lor ctrl ALL_OCT) d))
  else None.

Definition spimem_flash_ll_set_dummy_out (out_en out_lev : bool) (d : spi_mem_dev_t) : spi_mem_dev_t :=
  let bit (b : bool) n := if b then 2 ^ n else 0 in
  let ctrl := Z.ldiff (dev_ctrl d) (2 ^ 3 + 2 ^ 18 + 2 ^ 19) in
  set_ctrl (Z.lor ctrl (Z.lor (bit out_en 3) (Z.lor (bit out_lev 18) (bit out_lev 19)))) d.

(** The loop of [spimem_flash_ll_set_buffer_data]: word [i] takes up to four of
    the bytes that are left. *)
Fixpoint set_words (i n : nat) (bs : list Z) (buf : list Z) : list Z :=
  match n with
  | O => buf
  | S n => set_words (S i) n (drop 4 bs) (<[i := le_value (take 4 bs)]> buf)
  end.
Definition spimem_flash_ll_set_buffer_data (buffer : list Z) (len : Z) (d : spi_mem_dev_t) : spi_mem_dev_t :=
  let num_words := (len + 3) / 4 in
  set_data_buf (set_words 0 (Z.to_nat num_words) (take (Z.to_nat len) buffer) (data_buf d)) d.

(** The loop of [spimem_flash_ll_get_buffer_data]; the word-aligned case copies
    the same bytes at once. *)
Fixpoint get_words (i n : nat) (copy_len : nat) (buf : list Z) : list Z :=
  match n with
  | O => []
  | S n =>
      let word_len := (4 `min` copy_len)%nat in
      take word_len (le_bytes 4 (nth i buf 0)) ++ get_words (S i) n (copy_len - word_len) buf
  end.
Definition spimem_flash_ll_get_buffer_data (d : spi_mem_dev_t) (read_len : Z) : list Z :=
  get_words 0 (Z.to_nat ((read_len + 3) / 4)) (Z.to_nat read_len) (data_buf d).

(** ** On the wire

    What the controller sends when it is started: a command, an address, idle
    cycles and data, and how many bytes it then receives. *)

Inductive spi_op := OpUsr (pe : bool) | OpSe | OpBe | OpCe | OpPp | OpWren | OpWrdi.

Record spi_wire := Wire {
  w_cmd : option (Z * Z);          (** bits and value *)
  w_addr : option (Z * Z);
  w_dummy : Z;
  w_mosi : list Z;
  w_miso : Z;
}.

Definition buf_bytes (d : spi_mem_dev_t) : list Z := flat_map (le_bytes 4) (data_buf d).
Definition addr_phase (d : spi_mem_dev_t) : Z * Z :=
  (usr_addr_bitlen d + 1, dev_addr d mod 2 ^ (usr_addr_bitlen d + 1)).

Definition wire_of (d : spi_mem_dev_t) (op : spi_op) : spi_wire :=
  match op with
  | OpUsr _ => {|
      w_cmd := if usr_command d
               then Some (usr_command_bitlen d + 1,
                          usr_command_value d mod 2 ^ (usr_command_bitlen d + 1)) else None;
      w_addr := if usr_addr d then Some (addr_phase d) else None;
      w_dummy := if usr_dummy d then usr_dummy_cyclelen d + 1 else 0;
      w_mosi := if usr_mosi d then take (Z.to_nat ((usr_mosi_bit_len d + 1) / 8)) (buf_bytes d) else [];
      w_miso := if usr_miso d then (usr_miso_bit_len d + 1) / 8 else 0 |}
  | OpSe => Wire (Some (8, CMD_SECTOR_ERASE)) (Some (addr_phase d)) 0 [] 0
  | OpBe => Wire (Some (8, CMD_LARGE_BLOCK_ERASE)) (Some (addr_phase d)) 0 [] 0
  | OpCe => Wire (Some (8, CMD_CHIP_ERASE)) None 0 [] 0
  | OpPp => Wire (Some (8, CMD_PROGRAM_PAGE)) (Some (addr_phase d)) 0
                 (take (Z.to_nat (Z.shiftr (dev_addr d) 24)) (buf_bytes d)) 0
  | OpWren => Wire (Some (8, CMD_WREN)) None 0 [] 0
  | OpWrdi => Wire (Some (8, CMD_WRDI)) None 0 [] 0
  end.

(** The controller and the chip behind it: a run of a transaction until it is
    done, with the data buffer it leaves; a look at whether the controller is
    idle; a delay of some microseconds; and the flush of the cache in front of the
    main flash ([spi_flash_check_and_flush_cache]). *)
Class SpiHw (E : Type) := {
  ctl_run : E -> spi_mem_dev_t -> spi_op -> E * list Z;
  ctl_idle : E -> E * bool;
  rom_delay_us : E -> Z -> E;
  cache_flush : E -> Z -> Z -> E;
}.
