(* ===== verification/SpiHost.v ===== *)
(** * The host drivers of flash chips ([hal/spi_flash_hal_common.inc],
    [hal/spi_flash_hal_iram.c], [spi_flash/memspi_host_driver.c])

    The two tables of [spi_flash_host_driver_t]: [esp_flash_default_host] starts
    the commands built into the memory controller, [esp_flash_gpspi_host] sends
    every command as a transaction of its own. *)

From S2P Require Import Prelude EspErr FlashRun SpiMem.

(** ** The state the driver works on *)

Record esp_flash_t := EspFlash {
  chip_drv : option nat;           (** index among the registered chip drivers *)
  read_mode : Z;
  size : Z;
  chip_id : Z;
  busy : bool;
  hpm_dummy_ena : bool;
}.

(** [spi_flash_hal_context_t], set when the host is initialised. *)
Record spi_flash_hal_context_t := HalContext {
  spi1 : bool;                     (** the controller of the main flash *)
  extra_dummy : Z;
  base_io_mode : Z;
  slicer_flags : Z;
  ctx_flags : Z;
}.

(** What is done to the bus, newest first: the calls that take and release it,
    the transactions, and the flush of the cache. *)
Inductive flash_event :=
| EvStart | EvEnd
| EvBus (w : spi_wire)
| EvFlush (addr size : Z).

Record flash_st (E : Type) := FlashSt {
  fs_env : E;
  fs_dev : spi_mem_dev_t;
  fs_chip : esp_flash_t;
  fs_log : list flash_event;
}.
Arguments FlashSt {_}.
Arguments fs_env {_}.
Arguments fs_dev {_}.
Arguments fs_chip {_}.
Arguments fs_log {_}.

(** [spi_flash_trans_t] *)
Record spi_flash_trans_t := Trans {
  t_command : Z;
  t_address_bitlen : Z;
  t_address : Z;
  t_mosi_len : Z;
  t_mosi_data : list Z;
  t_miso_len : Z;
  t_dummy_bitlen : Z;
  t_flags : Z;
  t_io_mode : Z;
}.
(** A transaction with only a command. *)
Definition trans_cmd (c : Z) : spi_flash_trans_t := Trans c 0 0 0 [] 0 0 0 0.

(** Error codes of [hal/esp_flash_err.h]. *)
Definition ESP_ERR_FLASH_NO_RESPONSE : esp_err_t := ESP_ERR_OTHER 0x108.
Definition ESP_ERR_FLASH_NOT_INITIALISED : esp_err_t := ESP_ERR_OTHER 0x6003.
Definition ESP_ERR_FLASH_UNSUPPORTED_CHIP : esp_err_t := ESP_ERR_OTHER 0x6005.
Definition ESP_ERR_FLASH_PROTECTED : esp_err_t := ESP_ERR_OTHER 0x6006.

Definition SPI_FLASH_HOST_CONTEXT_SLICER_FLAG_DTR : Z := 1.
Definition ADDRESS_MASK_24BIT : Z := 0xFFFFFF.
Definition SPI_FLASH_HAL_MAX_WRITE_BYTES : Z := 64.
Definition SPI_FLASH_HAL_MAX_READ_BYTES : Z := 64.

(** The code tests flag bits of a word. *)
Definition flag_set (flags bit : Z) : bool := negb (Z.land flags bit =? 0).

Section Host.
  Context {E : Type} `{HW : SpiHw E} (ctx : spi_flash_hal_context_t).

Abbreviation M := (prog (flash_st E)).

Definition with_env (f : E -> E) (s : flash_st E) : flash_st E :=
  FlashSt (f (fs_env s)) (fs_dev s) (fs_chip s) (fs_log s).
Definition with_dev (f : spi_mem_dev_t -> spi_mem_dev_t) (s : flash_st E) : flash_st E :=
  FlashSt (fs_env s) (f (fs_dev s)) (fs_chip s) (fs_log s).
Definition with_chip (f : esp_flash_t -> esp_flash_t) (s : flash_st E) : flash_st E :=
  FlashSt (fs_env s) (fs_dev s) (f (fs_chip s)) (fs_log s).
Definition with_event (ev : flash_event) (s : flash_st E) : flash_st E :=
  FlashSt (fs_env s) (fs_dev s) (fs_chip s) (ev :: fs_log s).

Definition on_dev (f : spi_mem_dev_t -> spi_mem_dev_t) : M unit := modify (with_dev f).

(** A call that works on the hardware or on the system only. *)
Definition env_call {A} (f : E -> E * A) : M A := fun s =>
  let '(e, a) := f (fs_env s) in Done (with_env (fun _ => e) s) a.

(** Start the controller and wait until it is done
    ([spi_flash_hal_poll_cmd_done]). *)
Definition ctl_start (op : spi_op) : M unit := fun s =>
  let '(e, buf) := ctl_run (fs_env s) (fs_dev s) op in
  Done (with_event (EvBus (wire_of (fs_dev s) op))
          (FlashSt e (set_data_buf buf (fs_dev s)) (fs_chip s) (fs_log s))) tt.

(** ** The abstraction layer *)

(** Pins and clock are left out. *)
Definition spi_flash_hal_device_config : M esp_err_t :=
  on_dev spimem_flash_ll_reset;; mret ESP_OK.

Definition COMPUTE_DUMMY_CYCLELEN (base : Z) : Z := base + extra_dummy ctx.

Definition spi_flash_hal_configure_host_io_mode
    (command addr_bitlen dummy_cyclelen_base io_mode : Z) : M esp_err_t :=
  let conf_required := flag_set io_mode SPI_FLASH_CONFIG_CONF_BITS in
  let io_mode := Z.land io_mode 0xFFFF in
  on_dev (spimem_flash_ll_set_dummy_out conf_required true);;
  on_dev (if 0x100 <=? command then spimem_flash_ll_set_command command 16
          else spimem_flash_ll_set_command command 8);;
  on_dev (spimem_flash_ll_set_addr_bitlen addr_bitlen);;
  on_dev (spimem_flash_ll_set_dummy (COMPUTE_DUMMY_CYCLELEN dummy_cyclelen_base));;
  on_dev (spimem_flash_ll_set_miso_bitlen 0);;
  on_dev (spimem_flash_ll_set_mosi_bitlen 0);;
  s ← gets fs_dev;
  match spimem_flash_ll_set_read_mode io_mode s with
  | Some d => on_dev (fun _ => d);; mret ESP_OK
  | None => aborts
  end.

(** The bytes received come back with the error code. *)
Definition spi_flash_hal_common_command (trans : spi_flash_trans_t) : M (esp_err_t * list Z) :=
  let io_mode := if flag_set (t_flags trans) SPI_FLASH_TRANS_FLAG_IGNORE_BASEIO
                 then t_io_mode trans else base_io_mode ctx in
  spi_flash_hal_configure_host_io_mode (t_command trans) (t_address_bitlen trans)
    (t_dummy_bitlen trans) io_mode;;
  on_dev (spimem_flash_ll_set_usr_address (t_address trans) (t_address_bitlen trans));;
  on_dev (if t_miso_len trans =? 0 then spimem_flash_ll_set_dummy (t_dummy_bitlen trans) else id);;
  on_dev (spimem_flash_ll_set_mosi_bitlen (t_mosi_len trans * 8));;
  on_dev (spimem_flash_ll_set_buffer_data (t_mosi_data trans) (t_mosi_len trans));;
  on_dev (spimem_flash_ll_set_miso_bitlen (t_miso_len trans * 8));;
  ctl_start (OpUsr (flag_set (t_flags trans) SPI_FLASH_TRANS_FLAG_PE_CMD));;
  d ← gets fs_dev;
  mret (ESP_OK, if 0 <? t_miso_len trans
                then spimem_flash_ll_get_buffer_data d (t_miso_len trans) else []).

Definition spi_flash_hal_read (address read_len : Z) : M (esp_err_t * list Z) :=
  bitlen ← gets (fun s => spimem_flash_ll_get_addr_bitlen (fs_dev s));
  on_dev (spimem_flash_ll_set_usr_address address (Z.land bitlen (Z.lnot 7)));;
  on_dev (spimem_flash_ll_set_miso_bitlen (read_len * 8));;
  ctl_start (OpUsr false);;
  d ← gets fs_dev;
  mret (ESP_OK, if 0 <? read_len then spimem_flash_ll_get_buffer_data d read_len else []).

Definition spi_flash_hal_erase_chip : M unit := ctl_start OpCe.

Definition spi_flash_hal_erase_sector (start_address : Z) : M unit :=
  on_dev (spimem_flash_ll_set_addr_bitlen 24);;
  on_dev (spimem_flash_ll_set_address (Z.land start_address ADDRESS_MASK_24BIT));;
  on_dev (set_ctrl 0);;
  ctl_start OpSe.

Definition spi_flash_hal_erase_block (start_address : Z) : M unit :=
  on_dev (spimem_flash_ll_set_addr_bitlen 24);;
  on_dev (spimem_flash_ll_set_address (Z.land start_address ADDRESS_MASK_24BIT));;
  ctl_start OpBe.

Definition spi_flash_hal_program_page (buffer : list Z) (address length : Z) : M unit :=
  on_dev (spimem_flash_ll_set_addr_bitlen 24);;
  on_dev (spimem_flash_ll_set_address
            (Z.lor (Z.land address ADDRESS_MASK_24BIT) (u32 (Z.shiftl length 24))));;
  on_dev clear_usr_dummy;;
  on_dev (spimem_flash_ll_set_buffer_data buffer length);;
  ctl_start OpPp.

Definition spi_flash_hal_set_write_protect (wp : bool) : M esp_err_t :=
  ctl_start (if wp then OpWrdi else OpWren);; mret ESP_OK.

(** 0: busy, otherwise idle; no operation is suspended. *)
Definition spi_flash_hal_check_status : M bool := env_call ctl_idle.

(** The bus is shared with a cache only for the main flash. *)
Definition spi_flash_hal_supports_direct_write : bool := negb (spi1 ctx).
Definition spi_flash_hal_supports_direct_read : bool := negb (spi1 ctx).

(** ** The host driver over transactions *)

(** [None]: the id is not written. *)
Definition memspi_host_read_id_hs : M (esp_err_t * option Z) :=
  r ← spi_flash_hal_common_command (Trans CMD_RDID 0 0 0 [] 3 0 0 0);
  let raw_flash_id := le_value r.2 in
  if (raw_flash_id =? 0xFFFFFF) || (raw_flash_id =? 0) then
    mret (ESP_ERR_FLASH_NO_RESPONSE, None)
  else
    let mfg_id := Z.land raw_flash_id 0xFF in
    let flash_id := u16 (Z.lor (Z.shiftr raw_flash_id 16) (Z.land raw_flash_id 0xFF00)) in
    mret (ESP_OK, Some (Z.lor (Z.shiftl mfg_id 16) flash_id)).

Definition memspi_host_read_status_hs : M (esp_err_t * Z) :=
  r ← spi_flash_hal_common_command (Trans CMD_RDSR 0 0 0 [] 1 0 0 0);
  if is_ok r.1 then mret (ESP_OK, nth 0 r.2 0) else mret (r.1, 0).

Definition memspi_host_erase_chip : M unit :=
  spi_flash_hal_common_command (trans_cmd CMD_CHIP_ERASE);; mret tt.

Definition memspi_host_erase_sector (start_address : Z) : M unit :=
  assert (start_address <? 0x1000000);;
  spi_flash_hal_common_command (Trans CMD_SECTOR_ERASE 24 start_address 0 [] 0 0 0 0);; mret tt.

Definition memspi_host_erase_block (start_address : Z) : M unit :=
  assert (start_address <? 0x1000000);;
  spi_flash_hal_common_command (Trans CMD_LARGE_BLOCK_ERASE 24 start_address 0 [] 0 0 0 0);; mret tt.

Definition memspi_host_program_page (buffer : list Z) (address length : Z) : M unit :=
  assert (u32 (address + length) <=? 0x1000000);;
  spi_flash_hal_common_command (Trans CMD_PROGRAM_PAGE 24 address (u8 length) buffer 0 0 0 0);; mret tt.

Definition memspi_host_read (address read_len : Z) : M (esp_err_t * list Z) :=
  r ← spi_flash_hal_common_command (Trans CMD_READ 24 address 0 [] (u8 read_len) 0 0 0);
  mret (ESP_OK, r.2).

Definition memspi_host_set_write_protect (wp : bool) : M esp_err_t :=
  spi_flash_hal_common_command (trans_cmd (if wp then CMD_WRDI else CMD_WREN));; mret ESP_OK.

Definition memspi_host_flush_cache (addr size_ : Z) : M esp_err_t :=
  modify (with_event (EvFlush addr size_));;
  modify (with_env (fun e => if spi1 ctx then cache_flush e addr size_ else e));;
  mret ESP_OK.

(** *** Slicers *)

(** On a double-rate bus address and length are made even. *)
Definition dtr_align (align_addr len : Z) : Z * Z :=
  if flag_set (slicer_flags ctx) SPI_FLASH_HOST_CONTEXT_SLICER_FLAG_DTR then
    if negb (align_addr mod 2 =? 0) && negb (len mod 2 =? 0) then (align_addr - 1, u32 (len + 1))
    else if negb (align_addr mod 2 =? 0) && (len mod 2 =? 0) then (align_addr - 1, u32 (len + 2))
    else if (align_addr mod 2 =? 0) && negb (len mod 2 =? 0) then (align_addr, u32 (len + 1))
    else (align_addr, len)
  else (align_addr, len).

(** The number of bytes and the aligned address. *)
Definition memspi_host_write_data_slicer (address len page_size : Z) : Z * Z :=
  let '(align_addr, len) := dtr_align address len in
  let end_bound := u32 ((align_addr / page_size + 1) * page_size) in
  let max_len := Z.min (u32 (end_bound - align_addr)) SPI_FLASH_HAL_MAX_WRITE_BYTES in
  (Z.min max_len len, align_addr).

Definition memspi_host_read_data_slicer (address len page_size : Z) : Z * Z :=
  let '(align_addr, len) := dtr_align address len in
  (Z.min SPI_FLASH_HAL_MAX_READ_BYTES len, align_addr).

(** *** The tables *)

Record spi_flash_host_driver_t := HostDriver {
  h_dev_config : M esp_err_t;
  h_common_command : spi_flash_trans_t -> M (esp_err_t * list Z);
  h_read_id : M (esp_err_t * option Z);
  h_erase_chip : M unit;
  h_erase_sector : Z -> M unit;
  h_erase_block : Z -> M unit;
  h_read_status : M (esp_err_t * Z);
  h_set_write_protect : bool -> M esp_err_t;
  h_supports_direct_write : bool;
  h_program_page : list Z -> Z -> Z -> M unit;
  h_write_data_slicer : Z -> Z -> Z -> Z * Z;
  h_read : Z -> Z -> M (esp_err_t * list Z);
  h_supports_direct_read : bool;
  h_read_data_slicer : Z -> Z -> Z -> Z * Z;
  h_host_status : M bool;
  h_configure_host_io_mode : Z -> Z -> Z -> Z -> M esp_err_t;
  h_flush_cache : option (Z -> Z -> M esp_err_t);
}.

Definition esp_flash_default_host : spi_flash_host_driver_t := {|
  h_dev_config := spi_flash_hal_device_config;
  h_common_command := spi_flash_hal_common_command;
  h_read_id := memspi_host_read_id_hs;
  h_erase_chip := spi_flash_hal_erase_chip;
  h_erase_sector := spi_flash_hal_erase_sector;
  h_erase_block := spi_flash_hal_erase_block;
  h_read_status := memspi_host_read_status_hs;
  h_set_write_protect := spi_flash_hal_set_write_protect;
  h_supports_direct_write := spi_flash_hal_supports_direct_write;
  h_program_page := spi_flash_hal_program_page;
  h_write_data_slicer := memspi_host_write_data_slicer;
  h_read := spi_flash_hal_read;
  h_supports_direct_read := spi_flash_hal_supports_direct_read;
  h_read_data_slicer := memspi_host_read_data_slicer;
  h_host_status := spi_flash_hal_check_status;
  h_configure_host_io_mode := spi_flash_hal_configure_host_io_mode;
  h_flush_cache := Some memspi_host_flush_cache;
|}.

(** The abstraction layer of the general controllers is the same source,
    compiled over other registers; it is modelled over the same ones. *)
Definition esp_flash_gpspi_host : spi_flash_host_driver_t := {|
  h_dev_config := spi_flash_hal_device_config;
  h_common_command := spi_flash_hal_common_command;
  h_read_id := memspi_host_read_id_hs;
  h_erase_chip := memspi_host_erase_chip;
  h_erase_sector := memspi_host_erase_sector;
  h_erase_block := memspi_host_erase_block;
  h_read_status := memspi_host_read_status_hs;
  h_set_write_protect := memspi_host_set_write_protect;
  h_supports_direct_write := true;
  h_program_page := memspi_host_program_page;
  h_write_data_slicer := memspi_host_write_data_slicer;
  h_read := spi_flash_hal_read;
  h_supports_direct_read := true;
  h_read_data_slicer := memspi_host_read_data_slicer;
  h_host_status := spi_flash_hal_check_status;
  h_configure_host_io_mode := spi_flash_hal_configure_host_io_mode;
  h_flush_cache := None;
|}.
End Host.

Arguments spi_flash_host_driver_t E : clear implicits.
