(* ===== verification/FlashChip.v ===== *)
(** * The generic chip driver ([spi_flash/spi_flash_chip_generic.c])

    What the driver of a flash chip does with the commands of the host: it waits
    for the chip, enables writing, erases, programs pages and reads. A driver is
    a table of functions, [spi_flash_chip_t]; [esp_flash_chip_generic] is the one
    for chips without special needs. Calls through the table of the chip are the
    calls of this driver's own functions. *)

From S2P Require Import Prelude EspErr FlashRun SpiMem SpiHost.

(** ** Constants *)

Definition SPI_FLASH_DEFAULT_IDLE_TIMEOUT_MS : Z := 200.
Definition SPI_FLASH_GENERIC_CHIP_ERASE_TIMEOUT_MS : Z := 4000.
Definition SPI_FLASH_GENERIC_SECTOR_ERASE_TIMEOUT_MS : Z := 600.
Definition SPI_FLASH_GENERIC_BLOCK_ERASE_TIMEOUT_MS : Z := 4100.
Definition SPI_FLASH_GENERIC_PAGE_PROGRAM_TIMEOUT_MS : Z := 500.
Definition HOST_DELAY_INTERVAL_US : Z := 1.
Definition CHIP_WAIT_IDLE_INTERVAL_US : Z := 20.
Definition SPI_FLASH_LINEAR_DENSITY_LAST_VALUE : Z := 0x19.
Definition SPI_FLASH_HEX_A_F_RANGE : Z := 6.
Definition ESP_FLASH_CHIP_GENERIC_NO_TIMEOUT : Z := UINT32_MAX.
Definition SPI_FLASH_OS_IS_ERASING_STATUS_FLAG : Z := 1.
Definition SPI_FLASH_YIELD_REQ_YIELD : Z := 1.
Definition SPI_FLASH_CHIP_CAP_SUSPEND : Z := 1.
Definition SPI_FLASH_CHIP_CAP_32MB_SUPPORT : Z := 2.
Definition SPI_FLASH_CHIP_CAP_UNIQUE_ID : Z := 4.

(** [flash_chip_op_timeout_t], in microseconds *)
Record flash_chip_op_timeout_t := OpTimeout {
  idle_timeout : Z; chip_erase_timeout : Z; block_erase_timeout : Z;
  sector_erase_timeout : Z; page_program_timeout : Z;
}.
Definition spi_flash_chip_generic_timeout : flash_chip_op_timeout_t := {|
  idle_timeout := SPI_FLASH_DEFAULT_IDLE_TIMEOUT_MS * 1000;
  chip_erase_timeout := SPI_FLASH_GENERIC_CHIP_ERASE_TIMEOUT_MS * 1000;
  block_erase_timeout := SPI_FLASH_GENERIC_BLOCK_ERASE_TIMEOUT_MS * 1000;
  sector_erase_timeout := SPI_FLASH_GENERIC_SECTOR_ERASE_TIMEOUT_MS * 1000;
  page_program_timeout := SPI_FLASH_GENERIC_PAGE_PROGRAM_TIMEOUT_MS * 1000;
|}.
Definition PAGE_SIZE : Z := 256.
Definition SECTOR_SIZE : Z := 4 * 1024.
Definition BLOCK_ERASE_SIZE : Z := 64 * 1024.

(** [esp_flash_os_functions_t]: what the driver asks of the operating system. A
    missing entry is [None]. *)
Record esp_flash_os_functions_t (E : Type) := OsFunctions {
  o_start : option (E -> E * esp_err_t);
  o_end : option (E -> E * esp_err_t);
  o_region_protected : option (E -> Z -> Z -> esp_err_t);
  o_delay_us : E -> Z -> E;
  o_get_temp_buffer : option (E -> Z -> E * option Z);   (** the length, or [NULL] *)
  o_check_yield : option (E -> Z -> E * (esp_err_t * Z));
  o_yield : E -> E * esp_err_t;
  o_set_flash_op_status : option (E -> Z -> E);
}.
Arguments o_start {_}.
Arguments o_end {_}.
Arguments o_region_protected {_}.
Arguments o_delay_us {_}.
Arguments o_get_temp_buffer {_}.
Arguments o_check_yield {_}.
Arguments o_yield {_}.
Arguments o_set_flash_op_status {_}.

(** [spi_flash_encryption_t]: the encryption engine in front of the flash. *)
Record spi_flash_encryption_t (E : Type) := Encryption {
  enc_enable : E -> E;
  enc_disable : E -> E;
  enc_data_prepare : E -> Z -> list Z -> E;
  enc_done : E -> E;
  enc_destroy : E -> E;
}.
Arguments enc_enable {_}.
Arguments enc_disable {_}.
Arguments enc_data_prepare {_}.
Arguments enc_done {_}.
Arguments enc_destroy {_}.

Definition set_busy (b : bool) (c : esp_flash_t) : esp_flash_t :=
  EspFlash (chip_drv c) (read_mode c) (size c) (chip_id c) b (hpm_dummy_ena c).

Section Chip.
  Context {E : Type} `{HW : SpiHw E}
    (host : spi_flash_host_driver_t E) (os : esp_flash_os_functions_t E).
  (** how many times a controller that stays busy is looked at *)
  Context (polls : nat).

Abbreviation M := (prog (flash_st E)).

Definition on_env (f : E -> E) : M unit := modify (with_env f).
Definition on_chip (f : esp_flash_t -> esp_flash_t) : M unit := modify (with_chip f).
Definition delay_us (us : Z) : M unit := on_env (fun e => o_delay_us os e us).

(** Not refused, or refused by the chip: what the code goes on after. *)
Definition ok_or_refused (e : esp_err_t) : bool :=
  match e with ESP_OK | ESP_ERR_NOT_SUPPORTED => true | _ => false end.
Definition refused (e : esp_err_t) : bool :=
  match e with ESP_ERR_NOT_SUPPORTED => true | _ => false end.

(** ** Status *)

Definition spi_flash_chip_generic_read_reg : M (esp_err_t * Z) := h_read_status host.

(** [while (!host_status(host) && timeout_us > 0)]; the result is what is left of
    the timeout. *)
Fixpoint host_wait (n : nat) (timeout_us : Z) : M Z :=
  idle ← h_host_status host;
  if negb idle && (0 <? timeout_us) then
    match n with
    | O => spins
    | S n =>
        if 1 <? timeout_us then
          let delay := Z.min HOST_DELAY_INTERVAL_US timeout_us in
          delay_us delay;; host_wait n (timeout_us - delay)
        else host_wait n timeout_us
    end
  else mret timeout_us.

(** [while (timeout_us > 0)] *)
Fixpoint idle_loop (n : nat) (timeout_en : bool) (timeout_us : Z) : M esp_err_t :=
  if 0 <? timeout_us then
    match n with
    | O => spins
    | S n =>
        timeout_us ← host_wait polls timeout_us;
        r ← spi_flash_chip_generic_read_reg;
        if negb (is_ok r.1) then mret r.1 else
        let status := u8 r.2 in
        if Z.land status SR_WIP =? 0 then
          b ← gets (fun s => busy (fs_chip s));
          (if (b : bool) then
             on_chip (set_busy false);;
             if negb (Z.land status SR_WREN =? 0) then mret ESP_ERR_NOT_SUPPORTED
             else mret (if 0 <? timeout_us then ESP_OK else ESP_ERR_TIMEOUT)
           else mret (if 0 <? timeout_us then ESP_OK else ESP_ERR_TIMEOUT))
        else if 0 <? timeout_us then
          let delay := Z.min CHIP_WAIT_IDLE_INTERVAL_US timeout_us in
          delay_us delay;;
          idle_loop n timeout_en (if timeout_en then timeout_us - delay else timeout_us)
        else idle_loop n timeout_en timeout_us
    end
  else mret ESP_ERR_TIMEOUT.

(** Without a timeout the loop is bounded by [polls] only. *)
Definition spi_flash_chip_generic_wait_idle (timeout_us : Z) : M esp_err_t :=
  let timeout_en := negb (timeout_us =? ESP_FLASH_CHIP_GENERIC_NO_TIMEOUT) in
  let timeout_us := u32 ((if timeout_en then timeout_us else 0) + 1) in
  idle_loop (if timeout_en then Z.to_nat (timeout_us / CHIP_WAIT_IDLE_INTERVAL_US) + 2 else polls)%nat
    timeout_en timeout_us.

Definition spi_flash_chip_generic_get_write_protect : M (esp_err_t * bool) :=
  r ← spi_flash_chip_generic_read_reg;
  if negb (is_ok r.1) then mret (r.1, false)
  else mret (r.1, Z.land r.2 SR_WREN =? 0).

Definition spi_flash_chip_generic_set_write_protect (write_protect : bool) : M esp_err_t :=
  err ← spi_flash_chip_generic_wait_idle (idle_timeout spi_flash_chip_generic_timeout);
  (if ok_or_refused err then h_set_write_protect host write_protect;; mret tt else mret tt);;
  r ← spi_flash_chip_generic_get_write_protect;
  mret (if is_ok r.1 && negb (Bool.eqb r.2 write_protect) then ESP_ERR_NOT_FOUND else r.1).

(** ** Erasing *)

Definition SET_FLASH_ERASE_STATUS (status : Z) : M unit :=
  match o_set_flash_op_status os with
  | Some f => on_env (fun e => f e status)
  | None => mret tt
  end.

(** The common body of the three functions that erase. *)
Definition erase_with (command : M unit) (timeout : Z) : M esp_err_t :=
  err ← spi_flash_chip_generic_set_write_protect false;
  err ← (if is_ok err
         then spi_flash_chip_generic_wait_idle (idle_timeout spi_flash_chip_generic_timeout)
         else mret err);
  err ← (if ok_or_refused err then
           SET_FLASH_ERASE_STATUS SPI_FLASH_OS_IS_ERASING_STATUS_FLAG;;
           command;;
           on_chip (set_busy true);;
           err ← spi_flash_chip_generic_wait_idle timeout;
           SET_FLASH_ERASE_STATUS 0;;
           mret err
         else mret err);
  if refused err then spi_flash_chip_generic_set_write_protect true else mret err.

Definition spi_flash_chip_generic_erase_chip : M esp_err_t :=
  erase_with (h_erase_chip host) (chip_erase_timeout spi_flash_chip_generic_timeout).
Definition spi_flash_chip_generic_erase_sector (start_address : Z) : M esp_err_t :=
  erase_with (h_erase_sector host start_address) (sector_erase_timeout spi_flash_chip_generic_timeout).
Definition spi_flash_chip_generic_erase_block (start_address : Z) : M esp_err_t :=
  erase_with (h_erase_block host start_address) (block_erase_timeout spi_flash_chip_generic_timeout).

(** ** Reading *)

(** The dummy cycles of a mode: [default_flash_chip_dummy] or
    [hpm_flash_chip_dummy]. *)
Definition dummy_base (hpm : bool) (mode : Z) : Z :=
  if mode =? SPI_FLASH_QIO then
    (if hpm then SPI_FLASH_QIO_HPM_DUMMY_BITLEN else SPI_FLASH_QIO_DUMMY_BITLEN)
  else if mode =? SPI_FLASH_QOUT then SPI_FLASH_QOUT_DUMMY_BITLEN
  else if mode =? SPI_FLASH_DIO then
    (if hpm then SPI_FLASH_DIO_HPM_DUMMY_BITLEN else SPI_FLASH_DIO_DUMMY_BITLEN)
  else if mode =? SPI_FLASH_DOUT then SPI_FLASH_DOUT_DUMMY_BITLEN
  else if mode =? SPI_FLASH_FASTRD then SPI_FLASH_FASTRD_DUMMY_BITLEN
  else SPI_FLASH_SLOWRD_DUMMY_BITLEN.

(** The command of a mode and whether its first idle cycles carry data. The
    driver always asks for addresses of 24 bits. *)
Definition read_command (mode : Z) : option (Z * bool) :=
  if mode =? SPI_FLASH_QIO then Some (CMD_FASTRD_QIO, true)
  else if mode =? SPI_FLASH_QOUT then Some (CMD_FASTRD_QUAD, false)
  else if mode =? SPI_FLASH_DIO then Some (CMD_FASTRD_DIO, true)
  else if mode =? SPI_FLASH_DOUT then Some (CMD_FASTRD_DUAL, false)
  else if mode =? SPI_FLASH_FASTRD then Some (CMD_FASTRD, false)
  else if mode =? SPI_FLASH_SLOWRD then Some (CMD_READ, false)
  else None.

Definition spi_flash_chip_generic_config_host_io_mode : M esp_err_t :=
  c ← gets fs_chip;
  let mode := Z.land (read_mode c) 0xFFFF in
  match read_command mode with
  | None => mret ESP_ERR_FLASH_NOT_INITIALISED
  | Some (command, conf_required) =>
      h_configure_host_io_mode host command 24 (dummy_base (hpm_dummy_ena c) mode)
        (if conf_required : bool then Z.lor (read_mode c) SPI_FLASH_CONFIG_CONF_BITS
         else read_mode c)
  end.

(** [memcpy(temp_buffer + off, src, n)] into the 64 bytes of [0xFF] *)
Definition temp_buffer (off : nat) (src : list Z) : list Z :=
  replicate off 0xFF ++ src ++ replicate (64 - off - length src) 0xFF.

Fixpoint read_loop (n : nat) (address length_ : Z) (buffer : list Z) : M (esp_err_t * list Z) :=
  match n with
  | O => mret (ESP_OK, buffer)
  | S n =>
      if length_ <=? 0 then mret (ESP_OK, buffer) else
      let '(read_len, align_address) := h_read_data_slicer host address length_ PAGE_SIZE in
      let left_off := u32 (address - align_address) in
      let data_len := u32 (Z.min (u32 (align_address + read_len)) (u32 (address + length_)) - address) in
      r ← h_read host align_address read_len;
      let buffer := buffer ++ take (Z.to_nat data_len) (drop (Z.to_nat left_off) (temp_buffer 0 r.2)) in
      if is_ok r.1 then read_loop n (u32 (address + data_len)) (u32 (length_ - data_len)) buffer
      else mret (r.1, buffer)
  end.

(** The error and the bytes put into the caller's buffer. Each turn of the loop
    reads at least a byte, so there are at most [length_] of them. *)
Definition spi_flash_chip_generic_read (address length_ : Z) : M (esp_err_t * list Z) :=
  err ← spi_flash_chip_generic_config_host_io_mode;
  if is_ok err then read_loop (Z.to_nat length_) address length_ [] else mret (err, []).

(** ** Programming *)

Definition spi_flash_chip_generic_page_program (buffer : list Z) (address length_ : Z) : M esp_err_t :=
  err ← spi_flash_chip_generic_wait_idle (idle_timeout spi_flash_chip_generic_timeout);
  err ← (if ok_or_refused err then
           h_program_page host buffer address length_;;
           on_chip (set_busy true);;
           spi_flash_chip_generic_wait_idle (page_program_timeout spi_flash_chip_generic_timeout)
         else mret err);
  if refused err then spi_flash_chip_generic_set_write_protect true else mret err.

Fixpoint write_loop (n : nat) (buffer : list Z) (address length_ : Z) : M esp_err_t :=
  match n with
  | O => mret ESP_OK
  | S n =>
      if length_ <=? 0 then mret ESP_OK else
      let '(page_len, align_address) := h_write_data_slicer host address length_ PAGE_SIZE in
      let left_off := u32 (address - align_address) in
      let write_len := u32 (Z.min (u32 (align_address + page_len)) (u32 (address + length_)) - address) in
      let temp := temp_buffer (Z.to_nat left_off) (take (Z.to_nat write_len) buffer) in
      err ← spi_flash_chip_generic_set_write_protect false;
      if negb (is_ok err) then mret err else
      err ← spi_flash_chip_generic_page_program temp align_address page_len;
      if negb (is_ok err) then mret err else
      write_loop n (drop (Z.to_nat write_len) buffer)
        (u32 (address + write_len)) (u32 (length_ - write_len))
  end.

(** Each turn of the loop writes at least a byte. *)
Definition spi_flash_chip_generic_write (buffer : list Z) (address length_ : Z) : M esp_err_t :=
  write_loop (Z.to_nat length_) buffer address length_.

(** *** Encrypted programming

    [chip_is_default]: whether the chip is [esp_flash_default_chip]. *)

Definition spi_flash_encrypt_ll_check (address length_ : Z) : bool := address mod length_ =? 0.
Definition spi_flash_encryption_hal_check := spi_flash_encrypt_ll_check.

Definition encrypt_block (address length_ : Z) : Z :=
  if (address mod 64 =? 0) && (64 <=? length_) then 64
  else if (address mod 32 =? 0) && (32 <=? length_) then 32
  else 16.

Fixpoint encrypt_loop (enc : spi_flash_encryption_t E) (n : nat) (data_bytes : list Z)
    (address length_ : Z) : M esp_err_t :=
  if length_ <=? 0 then on_env (enc_disable enc);; mret ESP_OK else
  match n with
  | O => spins
  | S n =>
      let block_size := encrypt_block address length_ in
      on_env (fun e => enc_data_prepare enc e address (take (Z.to_nat block_size) data_bytes));;
      err ← spi_flash_chip_generic_set_write_protect false;
      if negb (is_ok err) then mret err else
      on_env (enc_done enc);;
      err ← spi_flash_chip_generic_write data_bytes address length_;
      if negb (is_ok err) then mret err else
      err ← spi_flash_chip_generic_wait_idle (page_program_timeout spi_flash_chip_generic_timeout);
      if negb (is_ok err) then mret err else
      on_env (enc_destroy enc);;
      encrypt_loop enc n (drop (Z.to_nat block_size) data_bytes)
        (u32 (address + block_size)) (u32 (length_ - block_size))
  end.

Definition spi_flash_chip_generic_write_encrypted (enc : spi_flash_encryption_t E)
    (chip_is_default : bool) (buffer : list Z) (address length_ : Z) : M esp_err_t :=
  if negb chip_is_default then mret ESP_ERR_NOT_SUPPORTED
  else if negb (spi_flash_encryption_hal_check address length_) then mret ESP_ERR_NOT_SUPPORTED
  else
    on_env (enc_enable enc);;
    encrypt_loop enc (Z.to_nat (length_ / 16) + 1)%nat buffer address length_.

(** ** The size, the identity and what the chip can do *)

Definition spi_flash_chip_generic_detect_size : M (esp_err_t * Z) :=
  c ← gets fs_chip;
  let id := chip_id c in
  if (Z.land id 0xFFFF =? 0) || (Z.land id 0xFFFF =? 0xFFFF) then
    mret (ESP_ERR_FLASH_UNSUPPORTED_CHIP, 0)
  else
    let mem_density := Z.land id 0xFF in
    let mem_density := if SPI_FLASH_LINEAR_DENSITY_LAST_VALUE <? mem_density
                       then mem_density - SPI_FLASH_HEX_A_F_RANGE else mem_density in
    (* a density above 31 is a shift that C leaves undefined *)
    mret (ESP_OK, Z.shiftl 1 mem_density).

Definition spi_flash_chip_generic_probe : M esp_err_t := mret ESP_OK.

Definition spi_flash_chip_generic_reset : M esp_err_t :=
  r ← h_common_command host (trans_cmd CMD_RST_EN);
  if negb (is_ok r.1) then mret r.1 else
  r ← h_common_command host (trans_cmd CMD_RST_DEV);
  if negb (is_ok r.1) then mret r.1 else
  spi_flash_chip_generic_wait_idle (idle_timeout spi_flash_chip_generic_timeout).

Definition spi_flash_chip_generic_get_caps : M Z :=
  c ← gets fs_chip;
  mret (Z.lor (if Z.shiftr (chip_id c) 16 =? 0x20 then SPI_FLASH_CHIP_CAP_SUSPEND else 0)
              SPI_FLASH_CHIP_CAP_UNIQUE_ID).

(** The code takes the result in the other byte order. *)
Definition spi_flash_chip_generic_read_unique_id : M (esp_err_t * Z) :=
  r ← h_common_command host (Trans CMD_RDUID 0 0 0 [] 8 32 0 0);
  let unique_id_buf := le_value r.2 in
  if (unique_id_buf =? 0) || (unique_id_buf =? UINT64_MAX) then
    mret (ESP_ERR_NOT_SUPPORTED, unique_id_buf)
  else mret (r.1, le_value (rev (le_bytes 8 unique_id_buf))).

Definition spi_flash_chip_generic_yield (wip : Z) : M esp_err_t :=
  let flags := if wip =? 0 then 0 else 1 in
  match o_check_yield os with
  | None => mret ESP_OK
  | Some check_yield =>
      r ← env_call (fun e => check_yield e flags);
      match r.1 with
      | ESP_OK =>
          if flag_set r.2 SPI_FLASH_YIELD_REQ_YIELD
          then env_call (o_yield os)
          else mret ESP_OK
      | ESP_ERR_TIMEOUT => mret ESP_OK
      | _ => aborts
      end
  end.

(** ** Status registers and the quad mode *)

Definition spi_flash_common_read_qe_sr (qe_rdsr_command qe_sr_bitwidth : Z) : M (esp_err_t * Z) :=
  r ← h_common_command host (Trans qe_rdsr_command 0 0 0 [] (qe_sr_bitwidth / 8) 0 0 0);
  mret (r.1, le_value r.2).

Definition spi_flash_common_write_qe_sr (qe_wrsr_command qe_sr_bitwidth qe : Z) : M esp_err_t :=
  r ← h_common_command host
        (Trans qe_wrsr_command 0 0 (qe_sr_bitwidth / 8) (le_bytes 4 qe) 0 0 0 0);
  mret r.1.

Definition spi_flash_common_read_status_16b_rdsr_rdsr2 : M (esp_err_t * Z) :=
  r2 ← spi_flash_common_read_qe_sr CMD_RDSR2 8;
  if negb (is_ok r2.1) then mret (r2.1, 0) else
  r ← spi_flash_common_read_qe_sr CMD_RDSR 8;
  mret (r.1, Z.lor (Z.land r.2 0xff) (Z.shiftl (Z.land r2.2 0xff) 8)).
Definition spi_flash_common_read_status_8b_rdsr2 : M (esp_err_t * Z) :=
  spi_flash_common_read_qe_sr CMD_RDSR2 8.
Definition spi_flash_common_read_status_8b_rdsr : M (esp_err_t * Z) :=
  spi_flash_common_read_qe_sr CMD_RDSR 8.
Definition spi_flash_common_write_status_16b_wrsr (sr : Z) : M esp_err_t :=
  spi_flash_common_write_qe_sr CMD_WRSR 16 sr.
Definition spi_flash_common_write_status_8b_wrsr (sr : Z) : M esp_err_t :=
  spi_flash_common_write_qe_sr CMD_WRSR 8 sr.
Definition spi_flash_common_write_status_8b_wrsr2 (sr : Z) : M esp_err_t :=
  spi_flash_common_write_qe_sr CMD_WRSR2 8 sr.

(** [esp_flash_is_quad_mode] *)
Definition esp_flash_is_quad_mode (c : esp_flash_t) : bool :=
  (read_mode c =? SPI_FLASH_QIO) || (read_mode c =? SPI_FLASH_QOUT).

Definition spi_flash_common_set_io_mode (wrsr_func : Z -> M esp_err_t)
    (rdsr_func : M (esp_err_t * Z)) (qe_sr_bit : Z) : M esp_err_t :=
  is_quad_mode ← gets (fun s => esp_flash_is_quad_mode (fs_chip s));
  if negb is_quad_mode then mret ESP_OK else
  r ← rdsr_func;
  if negb (is_ok r.1) then mret r.1 else
  let sr_update := Z.lor r.2 qe_sr_bit in
  if r.2 =? sr_update then mret ESP_OK else
  spi_flash_chip_generic_set_write_protect false;;
  ret ← wrsr_func sr_update;
  if negb (is_ok ret) then spi_flash_chip_generic_set_write_protect true;; mret ret else
  ret ← spi_flash_chip_generic_wait_idle (idle_timeout spi_flash_chip_generic_timeout);
  (if refused ret then spi_flash_chip_generic_set_write_protect true;; mret tt else mret tt);;
  if negb (ok_or_refused ret) then mret ret else
  r ← rdsr_func;
  if negb (is_ok r.1) then mret r.1
  else mret (if r.2 =? sr_update then ESP_OK else ESP_ERR_FLASH_NO_RESPONSE).

Definition spi_flash_chip_generic_set_io_mode : M esp_err_t :=
  spi_flash_common_set_io_mode spi_flash_common_write_status_16b_wrsr
    spi_flash_common_read_status_16b_rdsr_rdsr2 (2 ^ 9).

Definition spi_flash_chip_generic_get_io_mode : M (esp_err_t * Z) :=
  r ← spi_flash_common_read_status_8b_rdsr2;
  mret (r.1, if is_ok r.1 && flag_set r.2 2 then SPI_FLASH_QOUT else 0).
End Chip.

(** ** The table of a driver *)

(** [esp_flash_region_t] *)
Record esp_flash_region_t := Region { r_offset : Z; r_size : Z }.

Record spi_flash_chip_t (E : Type) := ChipDriver {
  d_probe : Z -> prog (flash_st E) esp_err_t;
  d_detect_size : option (prog (flash_st E) (esp_err_t * Z));
  d_erase_chip : option (prog (flash_st E) esp_err_t);
  d_erase_sector : option (Z -> prog (flash_st E) esp_err_t);
  d_erase_block : option (Z -> prog (flash_st E) esp_err_t);
  d_sector_size : Z;
  d_block_erase_size : Z;
  d_get_chip_write_protect : option (prog (flash_st E) (esp_err_t * bool));
  d_set_chip_write_protect : option (bool -> prog (flash_st E) esp_err_t);
  d_protectable_regions : list esp_flash_region_t;
  d_get_protected_regions : option (prog (flash_st E) (esp_err_t * Z));
  d_set_protected_regions : option (Z -> prog (flash_st E) esp_err_t);
  d_read : option (Z -> Z -> prog (flash_st E) (esp_err_t * list Z));
  d_write : option (list Z -> Z -> Z -> prog (flash_st E) esp_err_t);
  d_write_encrypted : bool -> list Z -> Z -> Z -> prog (flash_st E) esp_err_t;
  d_set_io_mode : option (prog (flash_st E) esp_err_t);
  d_get_io_mode : option (prog (flash_st E) (esp_err_t * Z));
  d_read_id : option (prog (flash_st E) (esp_err_t * option Z));
  d_yield : option (Z -> prog (flash_st E) esp_err_t);
  d_read_unique_id : prog (flash_st E) (esp_err_t * Z);
  d_get_chip_caps : option (prog (flash_st E) Z);
}.
Arguments d_probe {_}.
Arguments d_detect_size {_}.
Arguments d_erase_chip {_}.
Arguments d_erase_sector {_}.
Arguments d_erase_block {_}.
Arguments d_sector_size {_}.
Arguments d_block_erase_size {_}.
Arguments d_get_chip_write_protect {_}.
Arguments d_set_chip_write_protect {_}.
Arguments d_protectable_regions {_}.
Arguments d_get_protected_regions {_}.
Arguments d_set_protected_regions {_}.
Arguments d_read {_}.
Arguments d_write {_}.
Arguments d_write_encrypted {_}.
Arguments d_set_io_mode {_}.
Arguments d_get_io_mode {_}.
Arguments d_read_id {_}.
Arguments d_yield {_}.
Arguments d_read_unique_id {_}.
Arguments d_get_chip_caps {_}.

Definition esp_flash_chip_generic {E} (host : spi_flash_host_driver_t E)
    (os : esp_flash_os_functions_t E) (enc : spi_flash_encryption_t E) (polls : nat)
    : spi_flash_chip_t E := {|
  d_probe _ := spi_flash_chip_generic_probe;
  d_detect_size := Some spi_flash_chip_generic_detect_size;
  d_erase_chip := Some (spi_flash_chip_generic_erase_chip host os polls);
  d_erase_sector := Some (spi_flash_chip_generic_erase_sector host os polls);
  d_erase_block := Some (spi_flash_chip_generic_erase_block host os polls);
  d_sector_size := SECTOR_SIZE;
  d_block_erase_size := BLOCK_ERASE_SIZE;
  d_get_chip_write_protect := Some (spi_flash_chip_generic_get_write_protect host);
  d_set_chip_write_protect := Some (spi_flash_chip_generic_set_write_protect host os polls);
  d_protectable_regions := [];
  d_get_protected_regions := None;
  d_set_protected_regions := None;
  d_read := Some (spi_flash_chip_generic_read host);
  d_write := Some (spi_flash_chip_generic_write host os polls);
  d_write_encrypted := spi_flash_chip_generic_write_encrypted host os polls enc;
  d_set_io_mode := Some (spi_flash_chip_generic_set_io_mode host os polls);
  d_get_io_mode := Some (spi_flash_chip_generic_get_io_mode host);
  d_read_id := None;
  d_yield := Some (spi_flash_chip_generic_yield os);
  d_read_unique_id := spi_flash_chip_generic_read_unique_id host;
  d_get_chip_caps := Some spi_flash_chip_generic_get_caps;
|}.
