(* ===== verification/FlashApi.v ===== *)
(** * The flash API ([spi_flash/esp_flash_api.c])

    The public operations on a flash chip. Each one takes the bus, calls the
    driver of the chip and gives the bus back; erasing and writing are cut into
    pieces between which other tasks may use the bus, and end with a flush of the
    cache. *)

From S2P Require Import Prelude EspErr FlashRun SpiMem SpiHost FlashChip.

Definition MAX_WRITE_CHUNK : Z := 8192.
Definition MAX_READ_CHUNK : Z := 16384.
Definition TEMP_BUF : Z := 32.       (** [sizeof(temp_buf)] in [esp_flash_write] *)

(** A pointer to a chip: the chip of the state, or [NULL]. *)
Inductive chip_ptr := CNull | CChip.
#[export] Instance chip_ptr_eq_dec : EqDecision chip_ptr.
Proof. solve_decision. Defined.

Definition set_drv (d : option nat) (c : esp_flash_t) : esp_flash_t :=
  EspFlash d (read_mode c) (size c) (chip_id c) (busy c) (hpm_dummy_ena c).
Definition set_read_mode (m : Z) (c : esp_flash_t) : esp_flash_t :=
  EspFlash (chip_drv c) m (size c) (chip_id c) (busy c) (hpm_dummy_ena c).
Definition set_size (n : Z) (c : esp_flash_t) : esp_flash_t :=
  EspFlash (chip_drv c) (read_mode c) n (chip_id c) (busy c) (hpm_dummy_ena c).
Definition set_chip_id (i : Z) (c : esp_flash_t) : esp_flash_t :=
  EspFlash (chip_drv c) (read_mode c) (size c) i (busy c) (hpm_dummy_ena c).

Section Api.
  Context {E : Type} `{HW : SpiHw E}
    (host : spi_flash_host_driver_t E) (os : esp_flash_os_functions_t E)
    (registered : list (spi_flash_chip_t E)).       (* [esp_flash_registered_chips] *)
  Context (esp_flash_default_chip : chip_ptr).
  (** [CONFIG_SPI_FLASH_DANGEROUS_WRITE_ABORTS] *)
  Context (WRITE_ABORTS : bool).

Abbreviation M := (prog (flash_st E)).

(** ** Taking and giving back the bus *)

Definition spiflash_start_default : M esp_err_t :=
  err ← match o_start os with Some start => env_call start | None => mret ESP_OK end;
  if negb (is_ok err) then mret err else
  modify (with_event EvStart);;
  h_dev_config host;;
  mret ESP_OK.

Definition spiflash_end_default (err : esp_err_t) : M esp_err_t :=
  end_err ← match o_end os with Some end_ => env_call end_ | None => mret ESP_OK end;
  modify (with_event EvEnd);;
  mret (if is_ok err then end_err else err).

(** The driver of the chip: what [esp_flash_chip_driver_initialized] tests. *)
Definition driver_of (s : flash_st E) : option (spi_flash_chip_t E) :=
  chip_drv (fs_chip s) ≫= (fun i => registered !! i).
Definition esp_flash_chip_driver_initialized (s : flash_st E) : bool :=
  match driver_of s with Some _ => true | None => false end.

(** [check_chip_pointer_default]: the pointer to use and its driver, or none. *)
Definition resolve_chip (chip : chip_ptr) : chip_ptr :=
  match chip with CNull => esp_flash_default_chip | CChip => CChip end.
Definition check_chip_pointer_default (chip : chip_ptr) : M (option (spi_flash_chip_t E)) :=
  match resolve_chip chip with
  | CNull => mret None
  | CChip => gets driver_of
  end.

(** A function that checks its chip and that the driver has an operation
    ([VERIFY_CHIP_OP]); [fail] makes its result from an error. *)
Definition with_driver {A} (chip : chip_ptr) (fail : esp_err_t -> A)
    (k : spi_flash_chip_t E -> M A) : M A :=
  d ← check_chip_pointer_default chip;
  match d with
  | Some drv => k drv
  | None => mret (fail ESP_ERR_FLASH_NOT_INITIALISED)
  end.
Definition verify_op {A B} (op : option B) (fail : esp_err_t -> A) (k : B -> M A) : M A :=
  match op with Some f => k f | None => mret (fail ESP_ERR_FLASH_UNSUPPORTED_CHIP) end.

(** Take the bus, run a driver's function that gives an error and a result, and
    give the bus back. *)
Definition on_bus {A} (dflt : A) (op : M (esp_err_t * A)) : M (esp_err_t * A) :=
  err ← spiflash_start_default;
  if negb (is_ok err) then mret (err, dflt) else
  r ← op;
  err ← spiflash_end_default r.1;
  mret (err, r.2).
Definition on_bus_ (op : M esp_err_t) : M esp_err_t :=
  err ← spiflash_start_default;
  if negb (is_ok err) then mret err else
  err ← op;
  spiflash_end_default err.

Definition flash_end_flush_cache (err : esp_err_t) (bus_acquired : bool) (address length_ : Z)
    : M esp_err_t :=
  acquire_err ← (if bus_acquired then mret ESP_OK else spiflash_start_default);
  if negb (is_ok acquire_err) then mret (if is_ok err then acquire_err else err) else
  err ← match h_flush_cache host with
        | Some flush =>
            flush_err ← flush address length_;
            mret (if is_ok err then flush_err else err)
        | None => mret err
        end;
  spiflash_end_default err.

(** [CHECK_WRITE_ADDRESS]: go on, or return an error. *)
Definition check_write_address (addr size_ : Z) : M (option esp_err_t) :=
  match o_region_protected os with
  | None => mret None
  | Some f =>
      ret ← gets (fun s => f (fs_env s) addr size_);
      match ret with
      | ESP_ERR_NOT_ALLOWED => mret (Some ret)
      | ESP_OK => mret None
      | _ => if WRITE_ABORTS then aborts else mret (Some ESP_ERR_INVALID_ARG)
      end
  end.

Definition get_yield (drv : spi_flash_chip_t E) : M esp_err_t :=
  match d_yield drv with Some yield => yield 0 | None => mret ESP_OK end.

(** ** Erasing *)

(** Ends are computed with 32 bits. *)
Definition regions_overlap (a_start a_len b_start b_len : Z) : bool :=
  let a_end := u32 (a_start + a_len) in
  let b_end := u32 (b_start + b_len) in
  (b_start <? a_end) && (a_start <? b_end).

Definition region_hit (drv : spi_flash_chip_t E) (protected start len : Z) : bool :=
  existsb (fun '(i, region) =>
      Z.testbit protected (Z.of_nat i) && regions_overlap start len (r_offset region) (r_size region))
    (zip (seq 0 (length (d_protectable_regions drv))) (d_protectable_regions drv)).

Definition check_protected_regions (drv : spi_flash_chip_t E) (start len : Z) : M esp_err_t :=
  match d_get_protected_regions drv with
  | Some get_protected_regions =>
      if (length (d_protectable_regions drv) =? 0)%nat then mret ESP_OK else
      on_bus_ (
        r ← get_protected_regions;
        mret (if is_ok r.1 && negb (r.2 =? 0) && region_hit drv r.2 start len
              then ESP_ERR_FLASH_PROTECTED else r.1))
  | None => mret ESP_OK
  end.

(** [inl]: returned at once. [inr]: the loop was left, and whether the bus is
    held. *)
Fixpoint erase_loop (drv : spi_flash_chip_t E) (erase_sector erase_block : Z -> M esp_err_t)
    (n : nat) (erase_addr len_remain len : Z) (bus_acquired : bool)
    : M (esp_err_t + esp_err_t * bool) :=
  match n with
  | O => spins
  | S n =>
      err ← get_yield drv;
      if negb (is_ok err) then mret (inl err) else
      err ← spiflash_start_default;
      if negb (is_ok err) then mret (inr (err, bus_acquired)) else
      let block := d_block_erase_size drv in
      let whole_block := (0 <? block) && (block <=? len_remain) && (erase_addr mod block =? 0) in
      let step := if whole_block then block else d_sector_size drv in
      err ← (if whole_block then erase_block erase_addr else erase_sector erase_addr);
      let erase_addr := u32 (erase_addr + step) in
      let len_remain := u32 (len_remain - step) in
      assert (len_remain <? len);;
      if negb (is_ok err) || (len_remain =? 0) then mret (inr (err, true)) else
      err ← spiflash_end_default ESP_OK;
      if negb (is_ok err) then mret (inr (err, true)) else
      erase_loop drv erase_sector erase_block n erase_addr len_remain len false
  end.

Definition esp_flash_erase_region (chip : chip_ptr) (start len : Z) : M esp_err_t :=
  with_driver chip id (fun drv =>
  verify_op (d_erase_sector drv) id (fun erase_sector =>
  verify_op (d_erase_block drv) id (fun erase_block =>
  c ← check_write_address start len;
  match c with
  | Some err => mret err
  | None =>
  let sector_size := d_sector_size drv in
  size_ ← gets (fun s => size (fs_chip s));
  if (sector_size =? 0) || negb (d_block_erase_size drv mod sector_size =? 0) then
    mret ESP_ERR_FLASH_NOT_INITIALISED
  else if (size_ <? start) || (size_ <? u32 (start + len)) then mret ESP_ERR_INVALID_ARG
  else if negb (start mod sector_size =? 0) || negb (len mod sector_size =? 0) then
    mret ESP_ERR_INVALID_ARG
  else if len =? 0 then mret ESP_OK
  else
    err ← check_protected_regions drv start len;
    if negb (is_ok err) then mret err else
    r ← erase_loop drv erase_sector erase_block (Z.to_nat (len / sector_size)) start len len false;
    match r with
    | inl err => mret err
    | inr (err, bus_acquired) => flash_end_flush_cache err bus_acquired start len
    end
  end))).

(** ** Size

    The pointers for the results are not null. *)

Definition esp_flash_get_physical_size (chip : chip_ptr) : M (esp_err_t * Z) :=
  with_driver chip (fun e => (e, 0)) (fun drv =>
  verify_op (d_detect_size drv) (fun e => (e, 0)) (fun detect_size =>
  on_bus 0 (
    r ← detect_size;
    (if is_ok r.1 then
       modify (with_chip (fun c => if size c =? 0 then set_size r.2 c else c))
     else mret tt);;
    mret r))).

Definition esp_flash_get_size (chip : chip_ptr) : M (esp_err_t * Z) :=
  with_driver chip (fun e => (e, 0)) (fun drv =>
  size_ ← gets (fun s => size (fs_chip s));
  if negb (size_ =? 0) then mret (ESP_OK, size_) else esp_flash_get_physical_size chip).

Definition esp_flash_erase_chip (chip : chip_ptr) : M esp_err_t :=
  r ← esp_flash_get_size chip;
  if negb (is_ok r.1) then mret r.1 else esp_flash_erase_region chip 0 r.2.

(** ** Reading *)

Fixpoint read_chunks (n : nat) (read : Z -> Z -> M (esp_err_t * list Z))
    (chunk address length_ : Z) (buffer : list Z) : M (esp_err_t * list Z) :=
  match n with
  | O => spins
  | S n =>
      err ← spiflash_start_default;
      if negb (is_ok err) then mret (err, buffer) else
      let length_to_read := Z.min chunk length_ in
      r ← read address length_to_read;
      if negb (is_ok r.1) then spiflash_end_default r.1;; mret (r.1, buffer) else
      err ← spiflash_end_default r.1;
      let buffer := buffer ++ r.2 in
      let length_ := u32 (length_ - length_to_read) in
      if is_ok err && (0 <? length_)
      then read_chunks n read chunk (u32 (address + length_to_read)) length_ buffer
      else mret (err, buffer)
  end.

(** The error, and the bytes put into the buffer by the chunks that were read.
    [buffer]: whether there is a buffer, and whether it is in internal memory. *)
Definition esp_flash_read (chip : chip_ptr) (buffer : option bool) (address length_ : Z)
    : M (esp_err_t * list Z) :=
  let fail (e : esp_err_t) : esp_err_t * list Z := (e, []) in
  with_driver chip fail (fun drv =>
  verify_op (d_read drv) fail (fun read =>
  size_ ← gets (fun s => size (fs_chip s));
  match buffer with
  | None => mret (ESP_ERR_INVALID_ARG, [])
  | Some in_dram =>
  if (size_ <? address) || (size_ <? u32 (address + length_)) then mret (ESP_ERR_INVALID_ARG, [])
  else if length_ =? 0 then mret (ESP_OK, [])
  else
    let direct_read := in_dram || h_supports_direct_read host in
    let read_chunk_size := Z.min MAX_READ_CHUNK length_ in
    chunk ← (if direct_read then mret (Some read_chunk_size) else
             match o_get_temp_buffer os with
             | Some get => env_call (fun e => get e read_chunk_size)
             | None => mret None
             end);
    match chunk with
    | None => mret (ESP_ERR_NO_MEM, [])
    | Some chunk => read_chunks (Z.to_nat length_) read chunk address length_ []
    end
  end)).

(** ** Writing *)

(** [inl]: returned at once. [inr]: the error, whether the bus is held, and
    whether the loop was left to [restore_cache]. *)
Fixpoint write_chunks (drv : spi_flash_chip_t E) (write : list Z -> Z -> Z -> M esp_err_t)
    (chunk : Z) (n : nat) (buffer : list Z) (write_addr len_remain length_ : Z) (bus_acquired : bool)
    : M (esp_err_t + esp_err_t * bool * bool) :=
  match n with
  | O => spins
  | S n =>
      let write_len := Z.min len_remain chunk in
      err ← get_yield drv;
      if negb (is_ok err) then mret (inl err) else
      err ← spiflash_start_default;
      if negb (is_ok err) then mret (inr (err, bus_acquired, true)) else
      err ← write (take (Z.to_nat write_len) buffer) write_addr write_len;
      let len_remain := u32 (len_remain - write_len) in
      assert (len_remain <? length_);;
      if negb (is_ok err) then mret (inr (err, true, true)) else
      if len_remain =? 0 then mret (inr (err, true, false)) else
      err ← spiflash_end_default err;
      if negb (is_ok err) then mret (inr (err, true, true)) else
      write_chunks drv write chunk n (drop (Z.to_nat write_len) buffer)
        (u32 (write_addr + write_len)) len_remain length_ false
  end.

(** [buffer]: whether it is in internal memory, and its bytes. *)
Definition esp_flash_write (chip : chip_ptr) (buffer : option (bool * list Z)) (address length_ : Z)
    : M esp_err_t :=
  with_driver chip id (fun drv =>
  verify_op (d_write drv) id (fun write =>
  c ← check_write_address address length_;
  match c with
  | Some err => mret err
  | None =>
  size_ ← gets (fun s => size (fs_chip s));
  match buffer with
  | None => mret ESP_ERR_INVALID_ARG
  | Some (in_dram, bytes) =>
  if (size_ <? address) || (size_ <? u32 (address + length_)) then mret ESP_ERR_INVALID_ARG
  else if length_ =? 0 then mret ESP_OK
  else
    let direct_write := in_dram || h_supports_direct_write host in
    let chunk := if direct_write then MAX_WRITE_CHUNK else TEMP_BUF in
    r ← write_chunks drv write chunk (Z.to_nat length_) bytes address length_ length_ false;
    match r with
    | inl err => mret err
    | inr (err, bus_acquired, restore_cache) =>
        ret ← flash_end_flush_cache err bus_acquired address length_;
        mret (if (restore_cache : bool) then err else ret)
    end
  end
  end)).
End Api.
