(* ===== verification/FlashInit.v ===== *)
(** * The rest of the flash API ([spi_flash/esp_flash_api.c])

    Identity, detection of the driver and initialisation of a chip; write
    protection of the chip and of its regions; the quad mode; encrypted writes. *)

From S2P Require Import Prelude EspErr FlashRun SpiMem SpiHost FlashChip FlashApi.

Section Init.
  Context {E : Type} `{HW : SpiHw E}
    (host : spi_flash_host_driver_t E) (os : esp_flash_os_functions_t E)
    (registered : list (spi_flash_chip_t E)).
  Context (esp_flash_default_chip : chip_ptr) (WRITE_ABORTS : bool).

Abbreviation M := (prog (flash_st E)).
#[local] Abbreviation on_bus := (on_bus host os).
#[local] Abbreviation on_bus_ := (on_bus_ host os).
#[local] Abbreviation with_driver := (with_driver registered esp_flash_default_chip).

(** ** Identity *)

(** The id is [None] when it is not written. *)
Definition read_id_core (sanity_check : bool) : M (esp_err_t * option Z) :=
  drv ← gets (driver_of registered);
  on_bus None (
    let read_id_func := match drv ≫= d_read_id with Some f => f | None => h_read_id host end in
    r ← read_id_func;
    if sanity_check && is_ok r.1 then
      new ← read_id_func;
      mret (if is_ok new.1 && negb (bool_decide (new.2 = r.2)) then ESP_ERR_FLASH_NOT_INITIALISED
            else new.1, r.2)
    else mret r).

Definition esp_flash_read_chip_id : M (esp_err_t * option Z) := read_id_core true.

(** [out]: the result pointer is not null. *)
Definition esp_flash_read_id (chip : chip_ptr) (out : bool) : M (esp_err_t * option Z) :=
  (* a chip without a driver is accepted *)
  match resolve_chip esp_flash_default_chip chip with
  | CNull => mret (ESP_ERR_FLASH_NOT_INITIALISED, None)
  | CChip => if negb out then mret (ESP_ERR_INVALID_ARG, None) else read_id_core false
  end.

Definition read_unique_id (drv : spi_flash_chip_t E) : M (esp_err_t * Z) :=
  on_bus 0 (d_read_unique_id drv).

Definition esp_flash_read_unique_chip_id (chip : chip_ptr) (out : bool) : M (esp_err_t * Z) :=
  with_driver chip (fun e => (e, 0)) (fun drv =>
  supported ← match d_get_chip_caps drv with
              | None => mret true
              | Some get_chip_caps =>
                  caps ← get_chip_caps; mret (flag_set caps SPI_FLASH_CHIP_CAP_UNIQUE_ID)
              end;
  if negb supported then mret (ESP_ERR_NOT_SUPPORTED, 0)
  else if negb out then mret (ESP_ERR_INVALID_ARG, 0)
  else read_unique_id drv).

(** ** Detection and initialisation *)

(** The loop over the registered drivers, from the one with index [i]. *)
Fixpoint detect_loop (drivers : list (spi_flash_chip_t E)) (i : nat) (flash_id : Z) : M esp_err_t :=
  initialized ← gets (esp_flash_chip_driver_initialized registered);
  match drivers with
  | drv :: drivers =>
      if initialized : bool then mret ESP_OK else
      modify (with_chip (set_drv (Some i)));;
      err ← spiflash_start_default host os;
      if negb (is_ok err) then mret err else
      probed ← d_probe drv flash_id;
      (if is_ok probed then mret tt else modify (with_chip (set_drv None)));;
      err ← spiflash_end_default os err;
      if negb (is_ok err) then mret err else detect_loop drivers (S i) flash_id
  | [] => mret (if (initialized : bool) then ESP_OK else ESP_ERR_NOT_FOUND)
  end.
Definition detect_spi_flash_chip : M esp_err_t :=
  flash_id ← gets (fun s => chip_id (fs_chip s));
  detect_loop registered 0 flash_id.

(** [do ... while (err == ESP_ERR_FLASH_NOT_INITIALISED && retries-- > 0)] *)
Fixpoint read_id_retry (retries : nat) : M (esp_err_t * option Z) :=
  r ← esp_flash_read_chip_id;
  match retries with
  | S n => if bool_decide (r.1 = ESP_ERR_FLASH_NOT_INITIALISED) then read_id_retry n else mret r
  | O => mret r
  end.

(** What follows the reading of the id. The size that is cut to 16 MiB is a local
    variable. *)
Definition init_identified (octal_mode : bool) (r : esp_err_t * option Z) : M esp_err_t :=
  if negb (is_ok r.1) then mret r.1 else
  modify (with_chip (set_chip_id (default 0 r.2)));;
  initialized ← gets (esp_flash_chip_driver_initialized registered);
  err ← (if initialized : bool then mret ESP_OK else detect_spi_flash_chip);
  if negb (is_ok err) then mret err else
  p ← esp_flash_get_physical_size host os registered esp_flash_default_chip CChip;
  if negb (is_ok p.1) then mret p.1 else
  drv ← gets (driver_of registered);
  match drv with
  | None => aborts                  (* not reached: the driver is set *)
  | Some drv =>
      size_ ← match d_get_chip_caps drv with
              | None => mret p.2
              | Some get_chip_caps =>
                  caps ← get_chip_caps;
                  mret (if negb (flag_set caps SPI_FLASH_CHIP_CAP_32MB_SUPPORT)
                           && (16 * 1024 * 1024 <? p.2) then 16 * 1024 * 1024 else p.2)
              end;
      on_bus_ (
        if octal_mode then mret ESP_OK else
        c ← gets fs_chip;
        err ← match d_set_io_mode drv with Some f => f | None => aborts end;
        mret (if bool_decide (err = ESP_ERR_FLASH_NO_RESPONSE) && negb (esp_flash_is_quad_mode c)
              then ESP_OK else err))
  end.

(** [valid]: the chip, its host and the registers of the host are there. *)
Definition esp_flash_init (valid : bool) : M esp_err_t :=
  if negb valid then mret ESP_ERR_INVALID_ARG else
  r ← read_id_retry 10; init_identified false r.

(** [device_id]: what the ROM keeps for a chip in an octal mode. *)
Definition esp_flash_init_main (valid : bool) (device_id : Z) : M esp_err_t :=
  if negb valid then mret ESP_ERR_INVALID_ARG else
  octal_mode ← gets (fun s => SPI_FLASH_OPI_FLAG <=? read_mode (fs_chip s));
  r ← (if (octal_mode : bool) then mret (ESP_OK, Some device_id) else read_id_retry 10);
  init_identified octal_mode r.

(** ** Write protection *)

Definition esp_flash_get_chip_write_protect (chip : chip_ptr) (out : bool) : M (esp_err_t * bool) :=
  with_driver chip (fun e => (e, false)) (fun drv =>
  verify_op (d_get_chip_write_protect drv) (fun e => (e, false)) (fun get_chip_write_protect =>
  if negb out then mret (ESP_ERR_INVALID_ARG, false) else on_bus false get_chip_write_protect)).

Definition esp_flash_set_chip_write_protect (chip : chip_ptr) (write_protect : bool) : M esp_err_t :=
  with_driver chip id (fun drv =>
  verify_op (d_set_chip_write_protect drv) id (fun set_chip_write_protect =>
  on_bus_ (set_chip_write_protect write_protect))).

Definition esp_flash_get_protectable_regions (chip : chip_ptr) (out : bool)
    : M (esp_err_t * list esp_flash_region_t) :=
  with_driver chip (fun e => (e, [])) (fun drv =>
  verify_op (d_get_protected_regions drv) (fun e => (e, [])) (fun _ =>
  if negb out then mret (ESP_ERR_INVALID_ARG, []) else mret (ESP_OK, d_protectable_regions drv))).

#[local] Instance region_eq_dec : EqDecision esp_flash_region_t.
Proof. solve_decision. Defined.

(** The index of the first region equal to [region]. *)
Fixpoint find_region_from (regions : list esp_flash_region_t) (region : esp_flash_region_t) (i : Z)
    : option Z :=
  match regions with
  | r :: regions => if decide (r = region) then Some i else find_region_from regions region (i + 1)
  | [] => None
  end.
Definition find_region (drv : spi_flash_chip_t E) (region : option esp_flash_region_t)
    : esp_err_t * Z :=
  match region with
  | None => (ESP_ERR_INVALID_ARG, 0)
  | Some region =>
      match find_region_from (d_protectable_regions drv) region 0 with
      | Some index => (ESP_OK, index)
      | None => (ESP_ERR_NOT_FOUND, Z.of_nat (length (d_protectable_regions drv)))
      end
  end.

Definition esp_flash_get_protected_region (chip : chip_ptr) (region : option esp_flash_region_t)
    (out : bool) : M (esp_err_t * bool) :=
  with_driver chip (fun e => (e, false)) (fun drv =>
  verify_op (d_get_protected_regions drv) (fun e => (e, false)) (fun get_protected_regions =>
  if negb out then mret (ESP_ERR_INVALID_ARG, false) else
  let '(err, index) := find_region drv region in
  if negb (is_ok err) then mret (err, false) else
  on_bus false (
    r ← get_protected_regions;
    mret (r.1, if is_ok r.1 then Z.testbit r.2 index else false)))).

Definition esp_flash_set_protected_region (chip : chip_ptr) (region : option esp_flash_region_t)
    (protect : bool) : M esp_err_t :=
  with_driver chip id (fun drv =>
  verify_op (d_set_protected_regions drv) id (fun set_protected_regions =>
  let '(err, index) := find_region drv region in
  if negb (is_ok err) then mret err else
  match d_get_protected_regions drv with
  | None => aborts                  (* a call of a null pointer *)
  | Some get_protected_regions =>
      on_bus_ (
        r ← get_protected_regions;
        if is_ok r.1 then
          set_protected_regions (if protect then Z.setbit r.2 index else Z.clearbit r.2 index)
        else mret r.1)
  end)).

(** ** The quad mode *)

Definition esp_flash_get_io_mode (chip : chip_ptr) : M (esp_err_t * bool) :=
  with_driver chip (fun e => (e, false)) (fun drv =>
  verify_op (d_get_io_mode drv) (fun e => (e, false)) (fun get_io_mode =>
  r ← on_bus 0 get_io_mode;
  mret (r.1, if is_ok r.1 then r.2 =? SPI_FLASH_QOUT else false))).

Definition esp_flash_set_io_mode (chip : chip_ptr) (qe : bool) : M esp_err_t :=
  with_driver chip id (fun drv =>
  verify_op (d_set_io_mode drv) id (fun set_io_mode =>
  modify (with_chip (set_read_mode (if qe then SPI_FLASH_QOUT else SPI_FLASH_SLOWRD)));;
  on_bus_ set_io_mode)).

(** ** Encrypted writes *)

(** The size of the row to write at [row_addr] with [left] bytes to go; the
    engine of this chip takes up to 64 bytes. *)
Definition encrypt_row (row_addr left : Z) : Z :=
  if (row_addr mod 64 =? 0) && (64 <=? left) then 64
  else if (row_addr mod 32 =? 0) && (32 <=? left) then 32
  else 16.

(** The error, and whether the loop was left to [restore_cache]. After a failed
    row the code clears [bus_acquired] and asserts it. *)
Fixpoint encrypted_rows (drv : spi_flash_chip_t E) (n : nat) (ssrc : list Z) (address i length_ : Z)
    : M (esp_err_t * bool) :=
  if length_ <=? i then mret (ESP_OK, false) else
  match n with
  | O => spins
  | S n =>
      let row_addr := u32 (address + i) in
      let row_size := encrypt_row row_addr (length_ - i) in
      let encrypt_buf := take (Z.to_nat row_size) (drop (Z.to_nat i) ssrc) in
      err ← spiflash_start_default host os;
      if negb (is_ok err) then mret (err, true) else
      err ← d_write_encrypted drv true encrypt_buf row_addr row_size;
      assert (is_ok err);;
      err ← spiflash_end_default os ESP_OK;
      if negb (is_ok err) then mret (err, true) else
      encrypted_rows drv n ssrc address (i + row_size) length_
  end.

Definition esp_flash_write_encrypted (chip : chip_ptr) (buffer : option (list Z))
    (address length_ : Z) : M esp_err_t :=
  with_driver chip id (fun drv =>
  verify_op (d_write drv) id (fun _ =>
  if negb (bool_decide (resolve_chip esp_flash_default_chip chip = esp_flash_default_chip)) then
    mret ESP_ERR_NOT_SUPPORTED
  else
  c ← check_write_address os WRITE_ABORTS address length_;
  match c with
  | Some err => mret err
  | None =>
  size_ ← gets (fun s => size (fs_chip s));
  match buffer with
  | None => mret ESP_ERR_INVALID_ARG
  | Some ssrc =>
  if size_ <? u32 (address + length_) then mret ESP_ERR_INVALID_ARG
  else if negb (address mod 16 =? 0) then mret ESP_ERR_INVALID_ARG
  else if length_ =? 0 then mret ESP_OK
  else if negb (length_ mod 16 =? 0) then mret ESP_ERR_INVALID_SIZE
  else
    r ← encrypted_rows drv (Z.to_nat (length_ / 16)) ssrc address 0 length_;
    ret ← flash_end_flush_cache host os r.1 false address length_;
    mret (if r.2 : bool then r.1 else ret)
  end
  end)).
End Init.
