(* ===== verification/NorChip.v ===== *)
(** * What the driver relies on: a NOR flash chip and the system's functions

    The documented behaviour of a chip behind the memory controller, as laws over
    the transactions of [wire_of]: status, write enable, programming, erasing and
    reading. Programming clears bits inside one page, erasing sets the bytes of a
    sector or block to 0xFF; the chip is then busy for at most the time the
    generic driver allows, and answers only to the reading of its status. *)

From S2P Require Import Prelude EspErr FlashRun SpiMem SpiHost FlashChip.

(** The chip as the laws see it. [cell] is what the array holds once the
    operation in progress is over. *)
Class NorView (E : Type) := {
  cell : E -> Z -> Z;
  busy_us : E -> Z;                (** time until the operation in progress is over *)
  wel : E -> bool;                 (** the write enable latch *)
  locked : E -> Z -> bool;         (** bytes protected by the chip *)
  nor_size : Z;
  line_delay : Z;                  (** idle cycles the board adds when receiving *)
  read_dummy : Z -> Z;             (** idle cycles of each reading command *)
}.

(** The bytes received, from the data buffer the controller leaves. *)
Definition received (buf : list Z) (n : nat) : list Z := take n (flat_map (le_bytes 4) buf).

Definition unlocked {E} `{NorView E} (e : E) (a n : Z) : Prop :=
  forall x, a <= x < a + n -> locked e x = false.

(** Time passes: the array and its protection stay; an operation in progress may
    end, which clears the latch. *)
Record tick {E} `{NorView E} (e e' : E) : Prop := {
  tick_cell : forall a, cell e' a = cell e a;
  tick_locked : forall a, locked e' a = locked e a;
  tick_busy : 0 <= busy_us e' <= busy_us e;
  tick_wel : wel e' = if (0 <? busy_us e) && (busy_us e' =? 0) then false else wel e;
}.

(** A command that changes the array was accepted: the array is [f], and the
    chip is busy for at most [t], during which the latch stays set. *)
Record accepts {E} `{NorView E} (e e' : E) (t : Z) (f : Z -> Z) : Prop := {
  acc_cell : forall a, cell e' a = f a;
  acc_locked : forall a, locked e' a = locked e a;
  acc_busy : 0 <= busy_us e' <= t;
  acc_wel : wel e' = (0 <? busy_us e');
}.
(** The latch is set and all else is as it was: the effect of enabling writes,
    and of a command that is refused. *)
Record refuses {E} `{NorView E} (e e' : E) : Prop := {
  ref_cell : forall a, cell e' a = cell e a;
  ref_locked : forall a, locked e' a = locked e a;
  ref_busy : busy_us e' = 0;
  ref_wel : wel e' = true;
}.

(** The array after the bytes [bs] are programmed at [a]: bits are cleared. *)
Definition programmed (f : Z -> Z) (a : Z) (bs : list Z) (x : Z) : Z :=
  if (a <=? x) && (x <? a + length bs) then Z.land (f x) (nth (Z.to_nat (x - a)) bs 0) else f x.
(** The array after [n] bytes at [a] are erased. *)
Definition erased (f : Z -> Z) (a n x : Z) : Z :=
  if (a <=? x) && (x <? a + n) then 0xFF else f x.

Definition wire8 (c : Z) (addr : option Z) (bs : list Z) : spi_wire :=
  Wire (Some (8, c)) ((fun a => (24, a)) <$> addr) 0 bs 0.

(** The effect of a command that changes the bytes [a, a+n) of the array. *)
Definition changes {E} `{NorView E} (e e' : E) (t : Z) (f : Z -> Z) (a n : Z) : Prop :=
  (unlocked e a n -> accepts e e' t f) /\ (~ unlocked e a n -> refuses e e').

Class NorLaws (E : Type) `{HW : SpiHw E} `{NV : NorView E} : Prop := {
  nor_size_ok : 0 <= nor_size <= 2 ^ 24;
  nor_size_pages : nor_size mod PAGE_SIZE = 0;
  line_delay_ok : 0 <= line_delay < 32;
  read_dummy_ok : forall c, 0 <= read_dummy c < 32;
  cell_ok : forall e a, in_range 8 (cell e a);
  busy_ok : forall e, 0 <= busy_us e;
  run_buf : forall e d op, length (data_buf d) = 16%nat -> length (snd (ctl_run e d op)) = 16%nat;
  run_rdsr : forall e d op,
    wire_of d op = Wire (Some (8, CMD_RDSR)) None line_delay [] 1 ->
    tick e (fst (ctl_run e d op)) /\
    exists sr, received (snd (ctl_run e d op)) 1 = [sr] /\ in_range 8 sr /\
      Z.testbit sr 0 = (0 <? busy_us e) /\ Z.testbit sr 1 = wel e;
  run_wren : forall e d op,
    wire_of d op = wire8 CMD_WREN None [] -> busy_us e = 0 -> refuses e (fst (ctl_run e d op));
  run_wrdi : forall e d op,
    wire_of d op = wire8 CMD_WRDI None [] -> busy_us e = 0 ->
    accepts e (fst (ctl_run e d op)) 0 (cell e);
  run_program : forall e d op a bs,
    wire_of d op = wire8 CMD_PROGRAM_PAGE (Some a) bs ->
    busy_us e = 0 -> wel e = true -> bs <> [] ->
    0 <= a -> a + length bs <= nor_size -> a mod PAGE_SIZE + length bs <= PAGE_SIZE ->
    changes e (fst (ctl_run e d op)) (page_program_timeout spi_flash_chip_generic_timeout)
      (programmed (cell e) a bs) a (length bs);
  run_sector : forall e d op a,
    wire_of d op = wire8 CMD_SECTOR_ERASE (Some a) [] ->
    busy_us e = 0 -> wel e = true -> 0 <= a -> a + SECTOR_SIZE <= nor_size -> a mod SECTOR_SIZE = 0 ->
    changes e (fst (ctl_run e d op)) (sector_erase_timeout spi_flash_chip_generic_timeout)
      (erased (cell e) a SECTOR_SIZE) a SECTOR_SIZE;
  run_block : forall e d op a,
    wire_of d op = wire8 CMD_LARGE_BLOCK_ERASE (Some a) [] ->
    busy_us e = 0 -> wel e = true -> 0 <= a -> a + BLOCK_ERASE_SIZE <= nor_size ->
    a mod BLOCK_ERASE_SIZE = 0 ->
    changes e (fst (ctl_run e d op)) (block_erase_timeout spi_flash_chip_generic_timeout)
      (erased (cell e) a BLOCK_ERASE_SIZE) a BLOCK_ERASE_SIZE;
  run_read : forall e d op mode c conf a n,
    read_command mode = Some (c, conf) ->
    wire_of d op = Wire (Some (8, c)) (Some (24, a)) (read_dummy c + line_delay) [] (Z.of_nat n) ->
    busy_us e = 0 -> (0 < n <= 64)%nat -> 0 <= a -> a + n <= nor_size ->
    tick e (fst (ctl_run e d op)) /\
    received (snd (ctl_run e d op)) n = map (fun i => cell e (a + Z.of_nat i)) (seq 0 n);
  idle_ok : forall e, tick e (fst (ctl_idle e)) /\ snd (ctl_idle e) = true;
  delay_ok : forall e us, 0 <= us ->
    tick e (rom_delay_us e us) /\ busy_us (rom_delay_us e us) <= Z.max 0 (busy_us e - us);
  flush_ok : forall e a n, tick e (cache_flush e a n);
}.

(** The functions of the system leave the chip alone; a delay is a delay. The
    yield is asked for or not, without another error. *)
Class OsLaws {E} `{HW : SpiHw E} `{NV : NorView E} (os : esp_flash_os_functions_t E) : Prop := {
  os_start_ok : forall f e, o_start os = Some f -> tick e (fst (f e));
  os_end_ok : forall f e, o_end os = Some f -> tick e (fst (f e));
  os_delay_ok : forall e us, o_delay_us os e us = rom_delay_us e us;
  os_status_ok : forall f e st, o_set_flash_op_status os = Some f -> tick e (f e st);
  os_check_ok : forall f e fl, o_check_yield os = Some f ->
    tick e (fst (f e fl)) /\ (fst (snd (f e fl)) = ESP_OK \/ fst (snd (f e fl)) = ESP_ERR_TIMEOUT);
  os_yield_ok : forall e, tick e (fst (o_yield os e));
  os_buffer_ok : forall f e n, o_get_temp_buffer os = Some f -> 0 < n ->
    tick e (fst (f e n)) /\ (forall m, snd (f e n) = Some m -> 0 < m);
}.

(** The mode the chip is read in has a command, with the dummy cycles the chip
    wants. *)
Definition readable {E} `{NorView E} (c : esp_flash_t) : Prop :=
  let mode := Z.land (read_mode c) 0xFFFF in
  exists cmd cf, read_command mode = Some (cmd, cf) /\
    dummy_base (hpm_dummy_ena c) mode = read_dummy cmd.

Section Ticks.
  Context {E} `{NV : NorView E}.

Lemma unlocked_dec (e : E) a n : unlocked e a n \/ ~ unlocked e a n.
Proof.
  destruct (decide (Forall (fun i => locked e (a + Z.of_nat i) = false) (seq 0 (Z.to_nat n)))) as [Hd|Hd].
  - left. intros x Hin. rewrite Forall_forall in Hd.
    replace x with (a + Z.of_nat (Z.to_nat (x - a))) by lia. apply Hd, elem_of_seq. lia.
  - right. intros Hu. apply Hd. apply Forall_forall. intros i Hi%elem_of_seq. apply Hu. lia.
Qed.

Lemma tick_refl e : 0 <= busy_us e -> tick e e.
Proof.
  intros Hb. split; [done|done|lia|].
  destruct (Z.ltb_spec 0 (busy_us e)), (Z.eqb_spec (busy_us e) 0); try done; lia.
Qed.

Lemma tick_trans e1 e2 e3 : tick e1 e2 -> tick e2 e3 -> tick e1 e3.
Proof.
  intros [C1 L1 B1 W1] [C2 L2 B2 W2]. split.
  - intros a. by rewrite C2, C1.
  - intros a. by rewrite L2, L1.
  - lia.
  - rewrite W2, W1.
    destruct (Z.ltb_spec 0 (busy_us e1)), (Z.ltb_spec 0 (busy_us e2)),
      (Z.eqb_spec (busy_us e2) 0), (Z.eqb_spec (busy_us e3) 0); cbn; try done; lia.
Qed.

(** A chip that is idle stays as it is. *)
Lemma tick_idle e e' : tick e e' -> busy_us e = 0 -> busy_us e' = 0 /\ wel e' = wel e.
Proof. intros [_ _ B W] H0. rewrite W, H0. split; [lia|done]. Qed.
End Ticks.
