(* ===== verification/HostLaws.v ===== *)
(** * The contract of a host driver

    [HostLaws] states what the chip driver needs from the host's table, as
    specifications over a chip with [NorLaws]; both tables of [SpiHost] have it. *)

From S2P Require Import Prelude EspErr FlashRun SpiMem SpiHost FlashChip NorChip.

(** A page is never crossed by the data of one programming command. *)
Definition one_page (w : spi_wire) : Prop :=
  match w_cmd w, w_addr w with
  | Some (_, c), Some (_, a) =>
      c = CMD_PROGRAM_PAGE -> a mod PAGE_SIZE + length (w_mosi w) <= PAGE_SIZE
  | _, _ => True
  end.
#[export] Instance one_page_dec w : Decision (one_page w).
Proof. unfold one_page. destruct (w_cmd w) as [[]|], (w_addr w) as [[]|]; apply _. Defined.
Definition bus_event (ev : flash_event) : Prop :=
  match ev with EvBus w => one_page w | _ => False end.

(** The fields of the chip that its driver leaves alone. *)
Definition conf (c : esp_flash_t) := (chip_drv c, read_mode c, size c, chip_id c, hpm_dummy_ena c).

(** What every step keeps, and the transactions it adds to the log. *)
Record steps {E} `{NorView E} (s s' : flash_st E) : Prop := {
  st_conf : conf (fs_chip s') = conf (fs_chip s);
  st_buf : length (data_buf (fs_dev s')) = 16%nat;
  st_lock : forall a, locked (fs_env s') a = locked (fs_env s) a;
  st_log : exists l, fs_log s' = l ++ fs_log s /\ Forall bus_event l;
}.

(** The registers are set to read with command [c] and 24 bits of address. *)
Record configured {E} `{NorView E} (d : spi_mem_dev_t) (c : Z) : Prop := {
  cfg_command : usr_command d = true /\ usr_command_bitlen d = 7 /\ usr_command_value d = c;
  cfg_addr : usr_addr d = true /\ usr_addr_bitlen d = 23;
  cfg_dummy : (if usr_dummy d then usr_dummy_cyclelen d + 1 else 0) = read_dummy c + line_delay;
  cfg_mosi : usr_mosi d = false;
}.

Class HostLaws {E} `{HW : SpiHw E} `{NV : NorView E} (host : spi_flash_host_driver_t E) : Prop := {
  host_dev_config : forall s, length (data_buf (fs_dev s)) = 16%nat ->
    wp (h_dev_config host) s (fun _ s' =>
      steps s s' /\ fs_env s' = fs_env s /\ fs_chip s' = fs_chip s /\ fs_log s' = fs_log s);
  host_flush : forall f s a n, h_flush_cache host = Some f -> length (data_buf (fs_dev s)) = 16%nat ->
    wp (f a n) s (fun err s' => err = ESP_OK /\ fs_dev s' = fs_dev s /\ fs_chip s' = fs_chip s /\
      tick (fs_env s) (fs_env s') /\ fs_log s' = EvFlush a n :: fs_log s);
  host_status : forall s, length (data_buf (fs_dev s)) = 16%nat ->
    wp (h_host_status host) s (fun b s' => b = true /\ steps s s' /\
      tick (fs_env s) (fs_env s') /\ fs_chip s' = fs_chip s);
  host_rdsr : forall s, length (data_buf (fs_dev s)) = 16%nat ->
    wp (h_read_status host) s (fun r s' =>
      r.1 = ESP_OK /\ in_range 8 r.2 /\ Z.testbit r.2 0 = (0 <? busy_us (fs_env s)) /\
      Z.testbit r.2 1 = wel (fs_env s) /\ steps s s' /\
      tick (fs_env s) (fs_env s') /\ fs_chip s' = fs_chip s);
  host_write_protect : forall s w, length (data_buf (fs_dev s)) = 16%nat -> busy_us (fs_env s) = 0 ->
    wp (h_set_write_protect host w) s (fun _ s' => steps s s' /\ fs_chip s' = fs_chip s /\
      if (w : bool) then accepts (fs_env s) (fs_env s') 0 (cell (fs_env s))
      else refuses (fs_env s) (fs_env s'));
  host_program : forall s buffer a n, length (data_buf (fs_dev s)) = 16%nat ->
    busy_us (fs_env s) = 0 -> wel (fs_env s) = true ->
    Forall (in_range 8) buffer -> (0 < n <= 64)%nat -> (n <= length buffer)%nat ->
    0 <= a -> a + n <= nor_size -> a mod PAGE_SIZE + n <= PAGE_SIZE ->
    wp (h_program_page host buffer a n) s (fun _ s' => steps s s' /\ fs_chip s' = fs_chip s /\
      changes (fs_env s) (fs_env s') (page_program_timeout spi_flash_chip_generic_timeout)
        (programmed (cell (fs_env s)) a (take n buffer)) a n);
  host_sector : forall s a, length (data_buf (fs_dev s)) = 16%nat ->
    busy_us (fs_env s) = 0 -> wel (fs_env s) = true ->
    0 <= a -> a + SECTOR_SIZE <= nor_size -> a mod SECTOR_SIZE = 0 ->
    wp (h_erase_sector host a) s (fun _ s' => steps s s' /\ fs_chip s' = fs_chip s /\
      changes (fs_env s) (fs_env s') (sector_erase_timeout spi_flash_chip_generic_timeout)
        (erased (cell (fs_env s)) a SECTOR_SIZE) a SECTOR_SIZE);
  host_block : forall s a, length (data_buf (fs_dev s)) = 16%nat ->
    busy_us (fs_env s) = 0 -> wel (fs_env s) = true ->
    0 <= a -> a + BLOCK_ERASE_SIZE <= nor_size -> a mod BLOCK_ERASE_SIZE = 0 ->
    wp (h_erase_block host a) s (fun _ s' => steps s s' /\ fs_chip s' = fs_chip s /\
      changes (fs_env s) (fs_env s') (block_erase_timeout spi_flash_chip_generic_timeout)
        (erased (cell (fs_env s)) a BLOCK_ERASE_SIZE) a BLOCK_ERASE_SIZE);
  host_configure : forall s mode c cf io, length (data_buf (fs_dev s)) = 16%nat ->
    read_command mode = Some (c, cf) -> Z.land io 0xFFFF = mode ->
    wp (h_configure_host_io_mode host c 24 (read_dummy c) io) s (fun err s' =>
      err = ESP_OK /\ steps s s' /\ fs_env s' = fs_env s /\ fs_chip s' = fs_chip s /\
      configured (fs_dev s') c);
  host_read : forall s mode c cf a n, length (data_buf (fs_dev s)) = 16%nat ->
    read_command mode = Some (c, cf) -> configured (fs_dev s) c ->
    busy_us (fs_env s) = 0 -> (0 < n <= 64)%nat -> 0 <= a -> a + n <= nor_size ->
    wp (h_read host a n) s (fun r s' => r.1 = ESP_OK /\
      r.2 = map (fun i => cell (fs_env s) (a + Z.of_nat i)) (seq 0 n) /\
      steps s s' /\ tick (fs_env s) (fs_env s') /\ fs_chip s' = fs_chip s /\
      configured (fs_dev s') c);
  host_read_slice : forall a len n al, 0 <= a -> 0 < len -> a + len <= nor_size ->
    h_read_data_slicer host a len PAGE_SIZE = (n, al) ->
    0 <= al <= a /\ a < al + n <= nor_size /\ 0 < n <= 64;
  host_write_slice : forall a len n al, 0 <= a -> 0 < len -> a + len <= nor_size ->
    h_write_data_slicer host a len PAGE_SIZE = (n, al) ->
    0 <= al <= a /\ a < al + n <= nor_size /\ 0 < n <= 64 /\ al mod PAGE_SIZE + n <= PAGE_SIZE;
}.

(** ** Buffers and registers *)

Lemma le_bytes_value4 bs :
  Forall (in_range 8) bs -> (length bs <= 4)%nat ->
  take (length bs) (le_bytes 4 (le_value bs)) = bs.
Proof.
  intros Hr Hl.
  assert (le_value bs = le_value (bs ++ replicate (4 - length bs) 0)) as ->.
  { destruct bs as [|? [|? [|? [|? [|]]]]]; cbn [length] in Hl; try lia;
      cbn [le_value app replicate Nat.sub length]; lia. }
  pose proof (le_bytes_value (bs ++ replicate (4 - length bs) 0)) as H.
  rewrite length_app, length_replicate in H.
  replace (length bs + (4 - length bs))%nat with 4%nat in H by lia.
  rewrite H, take_app_length; [done|].
  apply Forall_app. split; [done|]. apply Forall_replicate. unfold in_range. lia.
Qed.

Lemma set_words_length n i bs buf : length (set_words i n bs buf) = length buf.
Proof.
  revert i bs buf. induction n as [|n IH]; intros i bs buf; cbn; [done|].
  by rewrite IH, length_insert.
Qed.

Lemma set_words_before n i bs buf j : (j < i)%nat -> set_words i n bs buf !! j = buf !! j.
Proof.
  revert i bs buf. induction n as [|n IH]; intros i bs buf Hj; cbn; [done|].
  rewrite IH by lia. apply list_lookup_insert_ne. lia.
Qed.

(** The words after those written before hold the bytes, in order. *)
Lemma set_words_bytes n i bs buf :
  Forall (in_range 8) bs -> (length bs <= 4 * n)%nat -> (i + n <= length buf)%nat ->
  take (length bs) (flat_map (le_bytes 4) (drop i (set_words i n bs buf))) = bs.
Proof.
  revert i bs buf. induction n as [|n IH]; intros i bs buf Hr Hl Hb.
  { destruct bs; [done|cbn in Hl; lia]. }
  cbn [set_words].
  assert (set_words (S i) n (drop 4 bs) (<[i:=le_value (take 4 bs)]> buf) !! i
          = Some (le_value (take 4 bs))) as Hi.
  { rewrite set_words_before by lia. apply list_lookup_insert_eq. lia. }
  rewrite (drop_S _ _ _ Hi). cbn [flat_map].
  pose proof (take_drop 4 bs) as Hsplit.
  assert (Forall (in_range 8) (take 4 bs)) as Hr1 by by apply Forall_take.
  assert (Forall (in_range 8) (drop 4 bs)) as Hr2 by by apply Forall_drop.
  destruct (decide (length bs <= 4)%nat) as [Hs|Hs].
  - rewrite take_app_le by (rewrite le_bytes_length; lia).
    rewrite (take_ge bs) by lia. by apply le_bytes_value4.
  - rewrite take_app_ge by (rewrite le_bytes_length; lia). rewrite le_bytes_length.
    pose proof (le_bytes_value (take 4 bs) Hr1) as H4.
    rewrite length_take, Nat.min_l in H4 by lia. rewrite H4.
    replace (length bs - 4)%nat with (length (drop 4 bs)) by (rewrite length_drop; lia).
    rewrite IH; [done|done|rewrite length_drop; lia|rewrite length_insert; lia].
Qed.

Lemma get_words_received n i m buf :
  (m <= 4 * n)%nat -> (i + n <= length buf)%nat ->
  get_words i n m buf = take m (flat_map (le_bytes 4) (drop i buf)).
Proof.
  revert i m. induction n as [|n IH]; intros i m Hm Hl.
  { replace m with 0%nat by lia. by rewrite take_0. }
  destruct (lookup_lt_is_Some_2 buf i) as [w Hw]; [lia|].
  cbn [get_words]. rewrite (drop_S _ _ _ Hw). cbn [flat_map].
  rewrite (nth_lookup_Some _ _ _ _ Hw), IH by lia.
  destruct (decide (m <= 4)%nat).
  - rewrite Nat.min_r by lia. replace (m - m)%nat with 0%nat by lia.
    rewrite take_0, app_nil_r, take_app_le; [done|rewrite le_bytes_length; lia].
  - rewrite Nat.min_l by lia. rewrite (take_ge (le_bytes 4 w)) by (rewrite le_bytes_length; lia).
    rewrite take_app_ge by (rewrite le_bytes_length; lia). by rewrite le_bytes_length.
Qed.

Lemma words_needed (n : nat) :
  (n <= 4 * Z.to_nat ((n + 3) / 4))%nat /\ ((n <= 64)%nat -> (Z.to_nat ((n + 3) / 4) <= 16)%nat).
Proof.
  pose proof (Z.div_mod (n + 3) 4). pose proof (Z.mod_pos_bound (n + 3) 4). lia.
Qed.

Lemma get_buffer_received d (n : nat) :
  length (data_buf d) = 16%nat -> (n <= 64)%nat ->
  spimem_flash_ll_get_buffer_data d n = received (data_buf d) n.
Proof.
  intros Hl Hn. unfold spimem_flash_ll_get_buffer_data, received.
  pose proof (words_needed n). rewrite get_words_received by (rewrite ?Hl; lia).
  by rewrite Nat2Z.id, drop_0.
Qed.

Lemma set_buffer_bytes d bs (n : nat) :
  length (data_buf d) = 16%nat -> Forall (in_range 8) bs -> (n <= 64)%nat -> (n <= length bs)%nat ->
  take n (buf_bytes (spimem_flash_ll_set_buffer_data bs n d)) = take n bs.
Proof.
  intros Hl Hr Hn Hb. unfold spimem_flash_ll_set_buffer_data, buf_bytes.
  destruct d; cbn in *. rewrite Nat2Z.id.
  pose proof (set_words_bytes (Z.to_nat ((n + 3) / 4)) 0 (take n bs) data_buf) as H.
  rewrite drop_0, length_take, Nat.min_l in H by lia.
  pose proof (words_needed n). apply H; [by apply Forall_take|lia|lia].
Qed.
