(* ===== verification/HostInst.v ===== *)
(** * Both host drivers have the contract

    What each function puts on the wire, and [HostLaws] for the two tables. *)

From S2P Require Import Prelude EspErr FlashRun SpiMem SpiHost FlashChip NorChip HostLaws.

Section Wires.
  Context {E : Type} `{NL : NorLaws E} (ctx : spi_flash_hal_context_t).

(** The state after a transaction from registers [d]. *)
Definition ran (s : flash_st E) (d : spi_mem_dev_t) (op : spi_op) : flash_st E :=
  let r := ctl_run (fs_env s) d op in
  FlashSt (fst r) (set_data_buf (snd r) d) (fs_chip s) (EvBus (wire_of d op) :: fs_log s).

Lemma wp_start op s Q : Q tt (ran s (fs_dev s) op) -> wp (ctl_start op) s Q.
Proof. unfold wp, ctl_start, ran. destruct (ctl_run _ _ _). by cbn. Qed.

Lemma data_buf_set b d : data_buf (set_data_buf b d) = b.
Proof. by destruct d. Qed.

Lemma steps_ran s d op :
  length (data_buf d) = 16%nat -> one_page (wire_of d op) ->
  (forall a, locked (fst (ctl_run (fs_env s) d op)) a = locked (fs_env s) a) ->
  steps s (ran s d op).
Proof.
  intros Hb Hw Hl. split; cbn; [done| |done|].
  - rewrite data_buf_set. by apply run_buf.
  - exists [EvBus (wire_of d op)]. split; [done|]. by repeat constructor.
Qed.

Lemma no_data_one_page w : w_mosi w = [] -> one_page w.
Proof.
  unfold one_page. intros ->. destruct (w_cmd w) as [[]|], (w_addr w) as [[b a]|]; try done.
  intros _. cbn. pose proof (Z.mod_pos_bound a PAGE_SIZE). unfold PAGE_SIZE in *. lia.
Qed.

Lemma set_read_mode_spec io d :
  0 <= io <= SPI_FLASH_QIO ->
  exists c r, spimem_flash_ll_set_read_mode io d = Some (set_ddr r (set_ctrl c d)).
Proof.
  unfold SPI_FLASH_QIO. intros Hio. destruct d.
  assert (io = 0 \/ io = 1 \/ io = 2 \/ io = 3 \/ io = 4 \/ io = 5) as
    [-> | [-> | [-> | [-> | [-> | ->]]]]] by lia; cbn; eauto.
Qed.

Lemma read_modes mode c cf : read_command mode = Some (c, cf) -> 0 <= mode <= SPI_FLASH_QIO /\ 0 <= c < 256.
Proof.
  unfold read_command. intros H. repeat case_test; simplify_eq; to_prop; subst;
    (split; split; by vm_compute).
Qed.

(** ** Transactions *)

(** The wire of a transaction without dummy cycles of its own. *)
Definition trans_wire (t : spi_flash_trans_t) : spi_wire := {|
  w_cmd := Some (8, t_command t);
  w_addr := if t_address_bitlen t =? 0 then None else Some (24, t_address t mod 2 ^ 24);
  w_dummy := if t_miso_len t =? 0 then 0 else line_delay;
  w_mosi := take (Z.to_nat (t_mosi_len t)) (t_mosi_data t);
  w_miso := t_miso_len t |}.

Record plain (t : spi_flash_trans_t) : Prop := {
  pl_command : 0 <= t_command t < 256;
  pl_address : t_address_bitlen t = 0 \/ t_address_bitlen t = 24;
  pl_mosi : 0 <= t_mosi_len t <= 64 /\ t_mosi_len t <= length (t_mosi_data t);
  pl_bytes : Forall (in_range 8) (t_mosi_data t);
  pl_miso : 0 <= t_miso_len t <= 64;
  pl_dummy : t_dummy_bitlen t = 0;
  pl_flags : t_flags t = 0;
}.

Lemma phase_length n : 0 <= n <= 64 ->
  (if 0 <? n * 8 then (wrap 10 (if n * 8 =? 0 then 0 else n * 8 - 1) + 1) / 8 else 0) = n.
Proof.
  intros Hn. destruct (Z.ltb_spec 0 (n * 8)), (Z.eqb_spec (n * 8) 0); try lia.
  rewrite wrap_small by (unfold in_range; lia).
  replace (n * 8 - 1 + 1) with (n * 8) by lia. by apply Z.div_mul.
Qed.

Lemma phase_bytes n (l : list Z) : 0 <= n <= 64 ->
  (if 0 <? n * 8
   then take (Z.to_nat ((wrap 10 (if n * 8 =? 0 then 0 else n * 8 - 1) + 1) / 8)) l else [])
  = take (Z.to_nat n) l.
Proof.
  intros Hn. pose proof (phase_length n Hn) as H. destruct (0 <? n * 8) eqn:Ht; [by rewrite H|].
  apply Z.ltb_ge in Ht. by replace (Z.to_nat n) with 0%nat by lia.
Qed.

Lemma phase_dummy n : 0 <= n <= 64 ->
  (if negb (n =? 0) then wrap 6 (n - 1) + 1 else 0) = n.
Proof.
  intros Hn. destruct (Z.eqb_spec n 0); cbn [negb]; [lia|].
  rewrite wrap_small by (unfold in_range; lia). lia.
Qed.

Lemma cmd_value c : 0 <= c < 256 -> u16 c mod 2 ^ (7 + 1) = c.
Proof.
  intros Hc. rewrite wrap_small by (unfold in_range; lia). by rewrite Z.mod_small by lia.
Qed.

Lemma addr_value n a : n = 0 \/ n = 24 ->
  (if negb (n =? 0) then Some (wrap 6 (n - 1) + 1, a mod 2 ^ (wrap 6 (n - 1) + 1)) else None)
  = (if n =? 0 then None else Some (24, a mod 2 ^ 24)).
Proof. by intros [-> | ->]. Qed.

(** The registers after [spi_flash_hal_configure_host_io_mode]. *)
Lemma wp_configure (s : flash_st E) command bitlen dummy io (Q : esp_err_t -> flash_st E -> Prop) :
  0 <= Z.land io 0xFFFF <= SPI_FLASH_QIO -> command < 0x100 ->
  (forall c r, let d := fs_dev s in let dm := dummy + extra_dummy ctx in
     Q ESP_OK (with_dev (fun d =>
       SpiDev (dev_addr d) c r true (negb (bitlen =? 0)) (negb (dm =? 0)) false false
         (wrap 6 (bitlen - 1)) (wrap 6 (dm - 1)) (u16 command) 7 0 0 (data_buf d)) s)) ->
  wp (spi_flash_hal_configure_host_io_mode ctx command bitlen dummy io) s Q.
Proof.
  intros Hio Hc HQ. unfold spi_flash_hal_configure_host_io_mode, on_dev.
  replace (0x100 <=? command) with false by (symmetry; apply Z.leb_gt; lia).
  wp_run. destruct s as [e [] ch lg]. cbn [fs_dev with_dev] in *.
  match goal with |- context [spimem_flash_ll_set_read_mode _ ?d] =>
    destruct (set_read_mode_spec (Z.land io 0xFFFF) d Hio) as (c & r & ->) end.
  wp_run. apply HQ.
Qed.

(** The registers a transaction is started from. *)
Lemma trans_registers t d c r :
  length (data_buf d) = 16%nat -> plain t ->
  let d0 := SpiDev (dev_addr d) c r true (negb (t_address_bitlen t =? 0)) (negb (line_delay =? 0))
       false false (wrap 6 (t_address_bitlen t - 1)) (wrap 6 (line_delay - 1)) (u16 (t_command t))
       7 0 0 (data_buf d) in
  let d1 := spimem_flash_ll_set_miso_bitlen (t_miso_len t * 8)
    (spimem_flash_ll_set_buffer_data (t_mosi_data t) (t_mosi_len t)
    (spimem_flash_ll_set_mosi_bitlen (t_mosi_len t * 8)
    ((if t_miso_len t =? 0 then spimem_flash_ll_set_dummy 0 else id)
    (spimem_flash_ll_set_usr_address (t_address t) (t_address_bitlen t) d0)))) in
  length (data_buf d1) = 16%nat /\ wire_of d1 (OpUsr false) = trans_wire t.
Proof.
  intros Hb [Hc Ha [Hm Hml] Hr Hi Hd Hf]. destruct line_delay_ok as [Hl1 Hl2]. intros d0 d1.
  assert (take (Z.to_nat (t_mosi_len t)) (buf_bytes (spimem_flash_ll_set_buffer_data
            (t_mosi_data t) (t_mosi_len t) d)) = take (Z.to_nat (t_mosi_len t)) (t_mosi_data t)) as Hbs.
  { rewrite <- (Z2Nat.id (t_mosi_len t)) at 2 by lia. apply set_buffer_bytes; [done|done|lia|lia]. }
  destruct d as [a0 c0 r0 uc ua ud ui uo ab dc cv cb mi mo b]. cbn [data_buf] in *.
  subst d1 d0. unfold wire_of, trans_wire, buf_bytes, addr_phase in *.
  cbn -[le_bytes set_words Z.to_nat Z.div Z.add Z.mul] in Hbs. rewrite <- Hbs.
  destruct (Z.eqb_spec (t_miso_len t) 0) as [Hi0|Hi0];
    cbn -[wrap Z.mul Z.pow Z.sub Z.div Z.modulo Z.add le_bytes set_words Z.to_nat];
    (split; [by rewrite set_words_length|]); f_equal;
    auto using phase_length, phase_bytes, addr_value; rewrite ?cmd_value by done; try done;
    apply phase_dummy; lia.
Qed.

Lemma received_bytes (e : E) d op n :
  length (data_buf d) = 16%nat -> 0 <= n <= 64 ->
  (if 0 <? n then spimem_flash_ll_get_buffer_data (set_data_buf (snd (ctl_run e d op)) d) n else [])
  = received (snd (ctl_run e d op)) (Z.to_nat n).
Proof.
  intros Hb Hn. destruct (Z.ltb_spec 0 n).
  - rewrite <- (Z2Nat.id n) at 1 by lia.
    rewrite get_buffer_received; [|rewrite data_buf_set; by apply run_buf|lia].
    by rewrite data_buf_set.
  - by replace (Z.to_nat n) with 0%nat by lia.
Qed.

(** A transaction ends with its wire in the log, the controller having run it. *)
Lemma wp_common t s Q :
  length (data_buf (fs_dev s)) = 16%nat -> plain t ->
  extra_dummy ctx = line_delay -> Z.land (base_io_mode ctx) 0xFFFF <= SPI_FLASH_QIO ->
  (forall d, length (data_buf d) = 16%nat -> wire_of d (OpUsr false) = trans_wire t ->
     Q (ESP_OK, received (snd (ctl_run (fs_env s) d (OpUsr false))) (Z.to_nat (t_miso_len t)))
       (ran s d (OpUsr false))) ->
  wp (spi_flash_hal_common_command ctx t) s Q.
Proof.
  intros Hb Hp Hx Hio HQ. pose proof Hp as [Hc Ha [Hm Hml] Hr Hi Hd Hf].
  unfold spi_flash_hal_common_command. rewrite Hf, Hd. change (flag_set 0 _) with false. cbv iota.
  apply wp_bind, wp_configure; [split; [by apply Z.land_nonneg; right|done]|lia|].
  intros c r. cbv zeta. rewrite Z.add_0_l, Hx. unfold on_dev. wp_run.
  apply wp_start. wp_run. cbn [fs_dev with_dev].
  match goal with |- context [ran _ ?d _] => set (d0 := d) end.
  assert (length (data_buf d0) = 16%nat /\ wire_of d0 (OpUsr false) = trans_wire t) as [Hb0 Hw0].
  { subst d0. apply (trans_registers t (fs_dev s) c r); done. }
  match goal with |- Q _ ?x => change x with (ran s d0 (OpUsr false)) end.
  specialize (HQ d0 Hb0 Hw0).
  assert (forall l l', l = l' -> Q (ESP_OK, l) (ran s d0 (OpUsr false)) ->
    Q (ESP_OK, l') (ran s d0 (OpUsr false))) as Heq by by intros ?? ->.
  apply (Heq _ _ (eq_sym (received_bytes _ d0 _ _ Hb0 Hi)) HQ).
Qed.
(** ** The functions both tables use *)

Context (Hx : extra_dummy ctx = line_delay) (Hio : Z.land (base_io_mode ctx) 0xFFFF <= SPI_FLASH_QIO).

Lemma read_status_ok (s : flash_st E) : length (data_buf (fs_dev s)) = 16%nat ->
  wp (memspi_host_read_status_hs ctx) s (fun r s' =>
    r.1 = ESP_OK /\ in_range 8 r.2 /\ Z.testbit r.2 0 = (0 <? busy_us (fs_env s)) /\
    Z.testbit r.2 1 = wel (fs_env s) /\ steps s s' /\
    tick (fs_env s) (fs_env s') /\ fs_chip s' = fs_chip s).
Proof.
  intros Hb. apply wp_bind, wp_common; [done|by split; cbn; try (lia || constructor); auto|done|done|].
  intros d Hd Hw. destruct (run_rdsr (fs_env s) d (OpUsr false) Hw) as (Ht & sr & Hs & Hr & H0 & H1).
  cbn [fst snd is_ok t_miso_len]. change (Z.to_nat 1) with 1%nat. rewrite Hs. apply wp_ret.
  split_and!; try done. apply steps_ran; [done|by rewrite Hw|apply Ht].
Qed.

Lemma config_ok (s : flash_st E) : length (data_buf (fs_dev s)) = 16%nat ->
  wp spi_flash_hal_device_config s (fun _ s' =>
    steps s s' /\ fs_env s' = fs_env s /\ fs_chip s' = fs_chip s /\ fs_log s' = fs_log s).
Proof.
  intros Hb. unfold spi_flash_hal_device_config, on_dev. wp_run.
  destruct s as [e [] ch lg]. split_and!; [|done|done|done]. split; [done|done|done|by exists []].
Qed.

Lemma flush_cache_ok (s : flash_st E) a n :
  wp (memspi_host_flush_cache ctx a n) s (fun err s' => err = ESP_OK /\ fs_dev s' = fs_dev s /\
    fs_chip s' = fs_chip s /\ tick (fs_env s) (fs_env s') /\ fs_log s' = EvFlush a n :: fs_log s).
Proof.
  unfold memspi_host_flush_cache. wp_run. split_and!; try done. cbn.
  destruct (spi1 ctx); [apply flush_ok|apply tick_refl, busy_ok].
Qed.

Lemma check_status_ok (s : flash_st E) : length (data_buf (fs_dev s)) = 16%nat ->
  wp spi_flash_hal_check_status s (fun b s' => b = true /\ steps s s' /\
    tick (fs_env s) (fs_env s') /\ fs_chip s' = fs_chip s).
Proof.
  intros Hb. unfold spi_flash_hal_check_status, env_call, wp.
  pose proof (idle_ok (fs_env s)) as [Ht Hi]. destruct (ctl_idle (fs_env s)) as [e b]. cbn in *.
  split_and!; try done. split; [done|done|apply Ht|by exists []].
Qed.

Lemma configure_ok (s : flash_st E) mode c cf io : length (data_buf (fs_dev s)) = 16%nat ->
  read_command mode = Some (c, cf) -> Z.land io 0xFFFF = mode ->
  wp (spi_flash_hal_configure_host_io_mode ctx c 24 (read_dummy c) io) s (fun err s' =>
    err = ESP_OK /\ steps s s' /\ fs_env s' = fs_env s /\ fs_chip s' = fs_chip s /\
    configured (fs_dev s') c).
Proof.
  intros Hb Hr Hm. pose proof (read_dummy_ok c) as Hd. destruct (read_modes _ _ _ Hr) as [Hmode Hc]. destruct line_delay_ok as [Hl1 Hl2].
  apply wp_configure; [by rewrite Hm|lia|]. intros c' r'. cbv zeta.
  destruct s as [e d ch lg]. split_and!; [done| |done|done|].
  - split; [done|done|done|by exists []].
  - split; cbn -[wrap Z.add]; try done.
    + split_and!; [done|done|]. apply wrap_small. unfold in_range. lia.
    + rewrite Hx. apply phase_dummy. lia.
Qed.

Lemma hal_read_ok (s : flash_st E) mode c cf a n : length (data_buf (fs_dev s)) = 16%nat ->
  read_command mode = Some (c, cf) -> configured (fs_dev s) c ->
  busy_us (fs_env s) = 0 -> (0 < n <= 64)%nat -> 0 <= a -> a + n <= nor_size ->
  wp (spi_flash_hal_read a n) s (fun r s' => r.1 = ESP_OK /\
    r.2 = map (fun i => cell (fs_env s) (a + Z.of_nat i)) (seq 0 n) /\
    steps s s' /\ tick (fs_env s) (fs_env s') /\ fs_chip s' = fs_chip s /\
    configured (fs_dev s') c).
Proof.
  intros Hb Hr [[Hc1 [Hc2 Hc3]] [Ha1 Ha2] Hdm Hmo] H0 Hn Ha Hs. destruct (read_modes _ _ _ Hr) as [_ Hc].
  pose proof nor_size_ok as Hnor. unfold spi_flash_hal_read, on_dev. wp_run. apply wp_start. wp_run.
  cbn [fs_dev with_dev].
  match goal with |- context [ran _ ?d _] => set (d0 := d) end.
  assert (length (data_buf d0) = 16%nat /\ wire_of d0 (OpUsr false)
    = Wire (Some (8, c)) (Some (24, a)) (read_dummy c + line_delay) [] n) as [Hb0 Hw].
  { subst d0. destruct (fs_dev s) as [a0 c0 r0 uc ua ud ui uo ab dc cv cb mi mo b].
    cbn -[Z.add] in Hc1, Hc2, Hc3, Ha1, Ha2, Hdm, Hmo, Hb. subst. split; [done|].
    unfold wire_of, addr_phase. cbn -[wrap Z.mul Z.pow Z.sub Z.div Z.modulo Z.add]. f_equal.
    - by rewrite Z.mod_small by lia.
    - do 2 f_equal. apply Z.mod_small. change (23 + 1) with 24. lia.
    - done.
    - apply phase_length. lia. }
  destruct (run_read (fs_env s) d0 (OpUsr false) mode c cf a n Hr Hw H0 Hn Ha Hs) as [Ht Hbs].
  split_and!; cbn [fst snd]; [done| | |apply Ht|done|].
  - etrans; [apply received_bytes; [done|lia]|]. by rewrite Nat2Z.id.
  - apply (steps_ran s d0); [done|by rewrite Hw; apply no_data_one_page|apply Ht].
  - subst d0. destruct (fs_dev s). by split; cbn in *.
Qed.

(** *** Slices *)

Lemma dtr_align_spec a len al len' : 0 <= a -> 0 < len -> a + len <= nor_size ->
  dtr_align ctx a len = (al, len') ->
  0 <= al <= a /\ a < al + len' <= nor_size /\
  (al = a \/ (al = a - 1 /\ al mod 2 = 0 /\ 2 <= len')) /\ 0 < len'.
Proof.
  intros Ha Hl Hs. destruct nor_size_ok as [_ Hn]. pose proof nor_size_pages as Hp.
  assert (exists k, nor_size = 2 * k) as [k He].
  { exists (128 * (nor_size / PAGE_SIZE)). pose proof (Z.div_mod nor_size PAGE_SIZE ltac:(done)) as Hdm.
    rewrite Hp in Hdm. unfold PAGE_SIZE in *. lia. }
  unfold dtr_align. repeat case_test; intros [= <- <-]; to_prop; rewrite ?u32_small by lia;
    Z.to_euclidean_division_equations; lia.
Qed.

Lemma read_slice_ok a len n al : 0 <= a -> 0 < len -> a + len <= nor_size ->
  memspi_host_read_data_slicer ctx a len PAGE_SIZE = (n, al) ->
  0 <= al <= a /\ a < al + n <= nor_size /\ 0 < n <= 64.
Proof.
  intros Ha Hl Hs. unfold memspi_host_read_data_slicer. destruct (dtr_align ctx a len) as [a' l'] eqn:Hd.
  destruct (dtr_align_spec _ _ _ _ Ha Hl Hs Hd) as (H1 & H2 & H3 & H4).
  intros [= <- <-]. unfold SPI_FLASH_HAL_MAX_READ_BYTES. lia.
Qed.

Lemma write_slice_ok a len n al : 0 <= a -> 0 < len -> a + len <= nor_size ->
  memspi_host_write_data_slicer ctx a len PAGE_SIZE = (n, al) ->
  0 <= al <= a /\ a < al + n <= nor_size /\ 0 < n <= 64 /\ al mod PAGE_SIZE + n <= PAGE_SIZE.
Proof.
  intros Ha Hl Hs. unfold memspi_host_write_data_slicer. destruct (dtr_align ctx a len) as [a' l'] eqn:Hd.
  destruct (dtr_align_spec _ _ _ _ Ha Hl Hs Hd) as (H1 & H2 & H3 & H4).
  destruct nor_size_ok as [_ Hn]. intros [= <- <-].
  pose proof (Z.div_mod a' PAGE_SIZE ltac:(done)) as Hdm.
  pose proof (Z.mod_pos_bound a' PAGE_SIZE ltac:(done)) as Hm.
  assert (al_even : a' mod 2 = 0 -> a' mod PAGE_SIZE <= 254) by (unfold PAGE_SIZE in *; Z.to_euclidean_division_equations; lia).
  unfold SPI_FLASH_HAL_MAX_WRITE_BYTES, PAGE_SIZE in *.
  rewrite (u32_small ((a' / 256 + 1) * 256)) by lia. rewrite u32_small by lia. lia.
Qed.

(** ** The commands that change the array *)


Lemma changes_lock (e e' : E) t f a n : changes e e' t f a n -> forall x, locked e' x = locked e x.
Proof.
  intros [H1 H2]. destruct (unlocked_dec e a n) as [Hu|Hu]; [by apply H1|by apply H2].
Qed.

Lemma mask24 a : 0 <= a < 2 ^ 24 -> Z.land a ADDRESS_MASK_24BIT = a.
Proof.
  intros Ha. change ADDRESS_MASK_24BIT with (Z.ones 24). rewrite Z.land_ones by lia. by apply Z.mod_small.
Qed.

Lemma wire_sector d a : 0 <= a < 2 ^ 24 ->
  wire_of (set_ctrl 0 (spimem_flash_ll_set_address (Z.land a ADDRESS_MASK_24BIT)
             (spimem_flash_ll_set_addr_bitlen 24 d))) OpSe = wire8 CMD_SECTOR_ERASE (Some a) [].
Proof.
  intros Ha. rewrite mask24 by done. destruct d. unfold wire_of, addr_phase, wire8. cbn -[Z.modulo Z.pow].
  by rewrite Z.mod_small.
Qed.

Lemma wire_block d a : 0 <= a < 2 ^ 24 ->
  wire_of (spimem_flash_ll_set_address (Z.land a ADDRESS_MASK_24BIT)
             (spimem_flash_ll_set_addr_bitlen 24 d)) OpBe = wire8 CMD_LARGE_BLOCK_ERASE (Some a) [].
Proof.
  intros Ha. rewrite mask24 by done. destruct d. unfold wire_of, addr_phase, wire8. cbn -[Z.modulo Z.pow].
  by rewrite Z.mod_small.
Qed.

(** The number of bytes goes into the upper byte of the address register. *)
Lemma wire_program d a (n : nat) buffer : 0 <= a < 2 ^ 24 -> (n <= 64)%nat ->
  length (data_buf d) = 16%nat -> Forall (in_range 8) buffer -> (n <= length buffer)%nat ->
  wire_of (spimem_flash_ll_set_buffer_data buffer n (clear_usr_dummy
    (spimem_flash_ll_set_address (Z.lor (Z.land a ADDRESS_MASK_24BIT) (u32 (Z.shiftl n 24)))
       (spimem_flash_ll_set_addr_bitlen 24 d)))) OpPp
  = wire8 CMD_PROGRAM_PAGE (Some a) (take n buffer).
Proof.
  intros Ha Hn Hb Hr Hl. rewrite mask24 by done.
  assert (Z.lor a (u32 (Z.shiftl n 24)) = a + n * 2 ^ 24) as ->.
  { rewrite Z.shiftl_mul_pow2, u32_small by lia. rewrite <- Z.lxor_lor, <- Z.add_nocarry_lxor; [done| |];
    (apply Z.bits_inj'; intros i Hi; rewrite Z.land_spec, Z.bits_0;
     destruct (Z.ltb_spec i 24);
     [by rewrite Z.mul_pow2_bits_low, andb_false_r by lia
     |by rewrite (in_range_testbit 24 a) by (unfold in_range; lia)]). }
  pose proof (set_buffer_bytes d buffer n Hb Hr Hn Hl) as Hs.
  destruct d as [a0 c0 r0 uc ua ud ui uo ab dc cv cb mi mo b].
  unfold wire_of, addr_phase, wire8, buf_bytes in *.
  cbn -[Z.modulo Z.pow Z.add Z.mul Z.div Z.to_nat Z.shiftr Z.of_nat le_bytes set_words] in *. f_equal.
  - change (wrap 6 (24 - 1) + 1) with 24. by rewrite Z.mod_add, Z.mod_small by lia.
  - rewrite Z.shiftr_div_pow2, Z.div_add, Z.div_small, Z.add_0_l by lia.
    rewrite Nat2Z.id at 1. exact Hs.
Qed.
Lemma ran_changes (s : flash_st E) d op t f a n :
  length (data_buf d) = 16%nat -> one_page (wire_of d op) ->
  changes (fs_env s) (fst (ctl_run (fs_env s) d op)) t f a n ->
  steps s (ran s d op) /\ fs_chip (ran s d op) = fs_chip s /\
  changes (fs_env s) (fs_env (ran s d op)) t f a n.
Proof.
  intros Hb Hw Hc. split_and!; [|done|done]. apply steps_ran; [done|done|by eapply changes_lock].
Qed.

Lemma ran_latch (s : flash_st E) d op (w : bool) :
  length (data_buf d) = 16%nat -> busy_us (fs_env s) = 0 ->
  wire_of d op = wire8 (if w then CMD_WRDI else CMD_WREN) None [] ->
  steps s (ran s d op) /\ fs_chip (ran s d op) = fs_chip s /\
  (if w then accepts (fs_env s) (fs_env (ran s d op)) 0 (cell (fs_env s))
   else refuses (fs_env s) (fs_env (ran s d op))).
Proof.
  intros Hb H0 Hw. split_and!; [|done|].
  - apply steps_ran; [done|by rewrite Hw; apply no_data_one_page|].
    destruct w; [eapply run_wrdi|eapply run_wren]; done.
  - destruct w; [by apply run_wrdi|by apply run_wren].
Qed.

Lemma buf_kept d (f : spi_mem_dev_t -> spi_mem_dev_t) :
  (forall d, data_buf (f d) = data_buf d) -> length (data_buf d) = 16%nat ->
  length (data_buf (f d)) = 16%nat.
Proof. by intros ->. Qed.

Lemma set_buffer_length d bs n : length (data_buf d) = 16%nat ->
  length (data_buf (spimem_flash_ll_set_buffer_data bs n d)) = 16%nat.
Proof. destruct d. cbn. by rewrite set_words_length. Qed.

Lemma plain_addr c a : 0 <= c < 256 -> plain (Trans c 24 a 0 [] 0 0 0 0).
Proof. split; cbn; try (lia || constructor); auto. Qed.

Lemma trans_wire_addr c a : 0 <= a < 2 ^ 24 -> trans_wire (Trans c 24 a 0 [] 0 0 0 0) = wire8 c (Some a) [].
Proof. intros Ha. unfold trans_wire, wire8. cbn -[Z.modulo Z.pow]. by rewrite Z.mod_small. Qed.

Lemma trans_wire_program a (n : nat) bs : 0 <= a < 2 ^ 24 ->
  trans_wire (Trans CMD_PROGRAM_PAGE 24 a n bs 0 0 0 0) = wire8 CMD_PROGRAM_PAGE (Some a) (take n bs).
Proof.
  intros Ha. unfold trans_wire, wire8. cbn -[Z.modulo Z.pow Z.to_nat]. by rewrite Nat2Z.id, Z.mod_small.
Qed.
End Wires.

(** ** The main flash *)

Lemma default_host_ok {E} `{NL : NorLaws E} ctx :
  extra_dummy ctx = line_delay -> Z.land (base_io_mode ctx) 0xFFFF <= SPI_FLASH_QIO ->
  HostLaws (esp_flash_default_host ctx).
Proof.
  intros Hx Hio. destruct nor_size_ok as [_ Hnor]. split; cbn.
  - apply config_ok.
  - intros f s a n [= <-] _. apply flush_cache_ok.
  - apply check_status_ok.
  - by apply read_status_ok.
  - intros s w Hb H0. apply wp_bind, wp_start. wp_run. apply ran_latch; [done|done|by destruct w].
  - intros s buffer a n Hb H0 Hw Hr Hn Hl Ha Has Hp. unfold spi_flash_hal_program_page, on_dev.
    wp_run. apply wp_start. cbn [fs_dev with_dev].
    match goal with |- context [ran _ ?d _] =>
      assert (wire_of d OpPp = wire8 CMD_PROGRAM_PAGE (Some a) (take n buffer)) as Hwire
        by (apply wire_program; (done || lia));
      apply (ran_changes s d) end.
    + apply set_buffer_length. by destruct (fs_dev s).
    + rewrite Hwire. cbn. rewrite length_take. lia.
    + pose proof (run_program _ _ _ _ _ Hwire H0 Hw) as H. rewrite length_take, Nat.min_l in H by lia.
      apply H; try done. destruct buffer, n; cbn in *; (done || lia).
  - intros s a Hb H0 Hw Ha Has Hm. unfold spi_flash_hal_erase_sector, on_dev.
    wp_run. apply wp_start. cbn [fs_dev with_dev].
    match goal with |- context [ran _ ?d _] =>
      assert (wire_of d OpSe = wire8 CMD_SECTOR_ERASE (Some a) []) as Hwire
        by (apply wire_sector; unfold SECTOR_SIZE in *; lia);
      apply (ran_changes s d) end; [by destruct (fs_dev s)|by rewrite Hwire; apply no_data_one_page|].
    by apply (run_sector _ _ _ _ Hwire).
  - intros s a Hb H0 Hw Ha Has Hm. unfold spi_flash_hal_erase_block, on_dev.
    wp_run. apply wp_start. cbn [fs_dev with_dev].
    match goal with |- context [ran _ ?d _] =>
      assert (wire_of d OpBe = wire8 CMD_LARGE_BLOCK_ERASE (Some a) []) as Hwire
        by (apply wire_block; unfold BLOCK_ERASE_SIZE in *; lia);
      apply (ran_changes s d) end; [by destruct (fs_dev s)|by rewrite Hwire; apply no_data_one_page|].
    by apply (run_block _ _ _ _ Hwire).
  - intros. by eapply configure_ok.
  - intros. by eapply hal_read_ok.
  - intros. by eapply read_slice_ok.
  - intros. by eapply write_slice_ok.
Qed.

(** ** The general controllers *)

Lemma gpspi_host_ok {E} `{NL : NorLaws E} ctx :
  extra_dummy ctx = line_delay -> Z.land (base_io_mode ctx) 0xFFFF <= SPI_FLASH_QIO ->
  HostLaws (esp_flash_gpspi_host ctx).
Proof.
  intros Hx Hio. destruct nor_size_ok as [_ Hnor].
  assert (Herase : forall (s : flash_st E) c a t n, length (data_buf (fs_dev s)) = 16%nat ->
    0 <= c < 256 -> 0 <= a < 2 ^ 24 ->
    (forall d op, wire_of d op = wire8 c (Some a) [] ->
       changes (fs_env s) (fst (ctl_run (fs_env s) d op)) t (erased (cell (fs_env s)) a n) a n) ->
    wp (spi_flash_hal_common_command ctx (Trans c 24 a 0 [] 0 0 0 0);; mret tt) s (fun _ s' =>
      steps s s' /\ fs_chip s' = fs_chip s /\
      changes (fs_env s) (fs_env s') t (erased (cell (fs_env s)) a n) a n)).
  { intros s c a t n Hb Hc Ha Hch. apply wp_bind, wp_common; [done|by apply plain_addr|done|done|].
    intros d Hd Hw. rewrite trans_wire_addr in Hw by done. wp_run.
    apply ran_changes; [done|by rewrite Hw; apply no_data_one_page|by apply Hch]. }
  split; cbn.
  - apply config_ok.
  - done.
  - apply check_status_ok.
  - by apply read_status_ok.
  - intros s w Hb H0. apply wp_bind, wp_common; [done| |done|done|].
    { split; cbn; [by destruct w|by left|lia|constructor|lia|done|done]. }
    intros d Hd Hw. wp_run. by apply ran_latch.
  - intros s buffer a n Hb H0 Hw Hr Hn Hl Ha Has Hp. unfold memspi_host_program_page. wp_run.
    { apply Z.leb_le. rewrite u32_small by lia. lia. }
    rewrite (wrap_small 8) by (unfold in_range; lia).
    apply wp_common; [done|split; cbn; try (lia || done); auto|done|done|].
    intros d Hd Hwire. rewrite trans_wire_program in Hwire by lia. wp_run.
    apply ran_changes; [done| |].
    + rewrite Hwire. cbn. rewrite length_take. lia.
    + pose proof (run_program _ _ _ _ _ Hwire H0 Hw) as H. rewrite length_take, Nat.min_l in H by lia.
      apply H; try done. destruct buffer, n; cbn in *; (done || lia).
  - intros s a Hb H0 Hw Ha Has Hm. unfold memspi_host_erase_sector, SECTOR_SIZE in *.
    apply wp_bind, wp_assert; [apply Z.ltb_lt; lia|]. apply Herase; [done|done|lia|].
    intros d op Hwire. by apply (run_sector _ _ _ _ Hwire).
  - intros s a Hb H0 Hw Ha Has Hm. unfold memspi_host_erase_block, BLOCK_ERASE_SIZE in *.
    apply wp_bind, wp_assert; [apply Z.ltb_lt; lia|]. apply Herase; [done|done|lia|].
    intros d op Hwire. by apply (run_block _ _ _ _ Hwire).
  - intros. by eapply configure_ok.
  - intros. by eapply hal_read_ok.
  - intros. by eapply read_slice_ok.
  - intros. by eapply write_slice_ok.
Qed.
