(* ===== verification/ChipWait.v ===== *)
(** * Waiting for the chip

    The generic driver over a host with [HostLaws]: waiting always ends, within
    the timeouts, with the chip idle; and the write enable latch tells whether a
    command was refused. *)

From S2P Require Import Prelude EspErr FlashRun SpiMem SpiHost FlashChip NorChip HostLaws.

(** Between the calls of the driver the chip is idle and nothing is pending. *)
Record quiet {E} `{NorView E} (s : flash_st E) : Prop := {
  q_buf : length (data_buf (fs_dev s)) = 16%nat;
  q_idle : busy_us (fs_env s) = 0;
  q_busy : busy (fs_chip s) = false;
}.

(** The effect of an operation on the array: [f] unless a byte of [a, a+n) is
    locked, in which case nothing. *)
Definition array_is {E} `{NorView E} (s s' : flash_st E) (f : Z -> Z) (a n : Z) : Prop :=
  (unlocked (fs_env s) a n -> forall x, cell (fs_env s') x = f x) /\
  (~ unlocked (fs_env s) a n -> forall x, cell (fs_env s') x = cell (fs_env s) x).

Definition timeout_ok (t : Z) : Prop := 0 <= t < 2 ^ 31 /\ t mod 20 = 0.

Lemma idle_timeout_ok : timeout_ok (idle_timeout spi_flash_chip_generic_timeout).
Proof. split; [split; by vm_compute|done]. Qed.
Lemma page_timeout_ok : timeout_ok (page_program_timeout spi_flash_chip_generic_timeout).
Proof. split; [split; by vm_compute|done]. Qed.
Lemma sector_timeout_ok : timeout_ok (sector_erase_timeout spi_flash_chip_generic_timeout).
Proof. split; [split; by vm_compute|done]. Qed.
Lemma block_timeout_ok : timeout_ok (block_erase_timeout spi_flash_chip_generic_timeout).
Proof. split; [split; by vm_compute|done]. Qed.

Section Steps.
  Context {E : Type} `{NL : NorLaws E}.

Lemma steps_refl (s : flash_st E) : length (data_buf (fs_dev s)) = 16%nat -> steps s s.
Proof. intros Hb. split; [done|done|done|by exists []]. Qed.

Lemma steps_trans (s1 s2 s3 : flash_st E) : steps s1 s2 -> steps s2 s3 -> steps s1 s3.
Proof.
  intros [C1 _ L1 (l1 & G1 & F1)] [C2 B2 L2 (l2 & G2 & F2)]. split; [by rewrite C2|done| |].
  - intros a. by rewrite L2.
  - exists (l2 ++ l1). rewrite G2, G1, app_assoc. split; [done|]. by apply Forall_app.
Qed.

Lemma steps_chip (s : flash_st E) f :
  length (data_buf (fs_dev s)) = 16%nat -> conf (f (fs_chip s)) = conf (fs_chip s) ->
  steps s (with_chip f s).
Proof. intros Hb Hc. split; [done|done|done|by exists []]. Qed.

Lemma steps_env (s : flash_st E) e' :
  length (data_buf (fs_dev s)) = 16%nat -> tick (fs_env s) e' -> steps s (with_env (fun _ => e') s).
Proof. intros Hb Ht. split; [done|done|apply Ht|by exists []]. Qed.

Lemma unlocked_steps (s s' : flash_st E) a n :
  steps s s' -> unlocked (fs_env s) a n <-> unlocked (fs_env s') a n.
Proof. intros Hs. unfold unlocked. split; intros H x Hx; [rewrite (st_lock _ _ Hs)|rewrite <- (st_lock _ _ Hs)]; auto. Qed.

Lemma status_bit sr i : in_range 8 sr -> 0 <= i -> (Z.land sr (2 ^ i) =? 0) = negb (Z.testbit sr i).
Proof.
  intros Hr Hi. destruct (Z.testbit sr i) eqn:Hb.
  - apply Z.eqb_neq. intros H. assert (Z.testbit (Z.land sr (2 ^ i)) i = true) as Ht
      by by rewrite Z.land_spec, Hb, Z.pow2_bits_true.
    by rewrite H, Z.bits_0 in Ht.
  - apply Z.eqb_eq, Z.bits_inj'. intros j Hj. rewrite Z.land_spec, Z.bits_0.
    destruct (Z.eq_dec i j) as [->|]; [by rewrite Hb|].
    by rewrite (Z.pow2_bits_false i j), andb_false_r.
Qed.
End Steps.

Section Wait.
  Context {E : Type} `{NL : NorLaws E} (host : spi_flash_host_driver_t E) `{HL : !HostLaws host}
    (os : esp_flash_os_functions_t E) `{OL : !OsLaws os} (polls : nat).

(** What waiting does: time passes, and the pending flag is cleared. *)
Record waited (s s' : flash_st E) : Prop := {
  wt_steps : steps s s';
  wt_tick : tick (fs_env s) (fs_env s');
  wt_idle : busy_us (fs_env s') = 0;
  wt_chip : fs_chip s' = set_busy false (fs_chip s);
}.

Lemma set_busy_same c : busy c = false -> set_busy false c = c.
Proof. destruct c. cbn. by intros ->. Qed.

Lemma host_wait_ok n t (s : flash_st E) : length (data_buf (fs_dev s)) = 16%nat ->
  wp (host_wait host os n t) s (fun t' s' => t' = t /\ steps s s' /\
    tick (fs_env s) (fs_env s') /\ fs_chip s' = fs_chip s).
Proof.
  intros Hb. destruct n; cbn [host_wait]; (wp_call (host_status s Hb); intros b s' (-> & Hs); by wp_run).
Qed.

(** What the loop reports when it finds the chip idle. *)
Definition wait_verdict (s s' : flash_st E) : esp_err_t :=
  if busy (fs_chip s) && wel (fs_env s') then ESP_ERR_NOT_SUPPORTED else ESP_OK.

(** The chip is looked at before every 20 microseconds of the timeout; when the
    loop gives up it was still busy the last time. *)
Definition gave_up (s s' : flash_st E) (err : esp_err_t) (t : Z) : Prop :=
  err = ESP_ERR_TIMEOUT /\ steps s s' /\ tick (fs_env s) (fs_env s') /\ fs_chip s' = fs_chip s /\
  (0 < t -> 20 * ((t - 1) / 20) < busy_us (fs_env s)).

Lemma idle_loop_ends (n : nat) t (s : flash_st E) :
  length (data_buf (fs_dev s)) = 16%nat -> 0 <= t <= 20 * n ->
  wp (idle_loop host os polls n true t) s (fun err s' =>
    waited s s' /\ err = wait_verdict s s' \/ gave_up s s' err t).
Proof.
  revert t s. induction n as [|n IH]; intros t s Hb Ht; cbn [idle_loop].
  { replace t with 0 by lia. wp_run. right. split_and!; [done|by apply steps_refl| |done|lia].
    apply tick_refl, busy_ok. }
  destruct (Z.ltb_spec 0 t) as [Hpos|].
  2:{ wp_run. right. split_and!; [done|by apply steps_refl| |done|lia]. apply tick_refl, busy_ok. }
  wp_call (host_wait_ok polls t s Hb). intros t' s1 (-> & S1 & T1 & C1).
  wp_call (host_rdsr s1 (st_buf _ _ S1)). intros [err sr] s2 (He & Hr & W0 & W1 & S2 & T2 & C2).
  cbn [fst snd] in *. subst err. cbn [is_ok negb]. rewrite (wrap_small 8) by done.
  change SR_WIP with (2 ^ 0). change SR_WREN with (2 ^ 1). rewrite !status_bit, W0, W1 by done.
  replace (0 <? t) with true by (symmetry; apply Z.ltb_lt; lia).
  pose proof (steps_trans _ _ _ S1 S2) as S12. pose proof (tick_trans _ _ _ T1 T2) as T12.
  pose proof (st_buf _ _ S12) as Hb2.
  destruct (Z.ltb_spec 0 (busy_us (fs_env s1))) as [Hp|Hp]; cbn [negb].
  - pose proof (tick_busy _ _ T1). pose proof (tick_busy _ _ T2).
    unfold delay_us, on_env. wp_run. unfold CHIP_WAIT_IDLE_INTERVAL_US.
    set (dl := Z.min 20 t). set (e3 := o_delay_us os (fs_env s2) dl).
    destruct (delay_ok (fs_env s2) dl ltac:(lia)) as [T3 B3]. rewrite <- os_delay_ok in T3, B3. fold e3 in T3, B3.
    pose proof (steps_env s2 e3 Hb2 T3) as S3. pose proof (busy_ok (fs_env s2)).
    eapply wp_mono; [apply IH; cbn; [done|lia]|].
    intros err s' [[[S' T' I' C'] ->]|(-> & S' & T' & C' & G')]; cbn in *; [left|right].
    + rewrite C2, C1 in C'. split; [|unfold wait_verdict; cbn; by rewrite C2, C1].
      split; [|by eapply tick_trans; [|done]; eapply tick_trans|done|done].
      eapply steps_trans; [|exact S']. by eapply steps_trans.
    + split_and!; [done| |by eapply tick_trans; [|done]; eapply tick_trans|by rewrite C', C2, C1|].
      { eapply steps_trans; [|exact S']. by eapply steps_trans. }
      intros _. destruct (Z.leb_spec t 20); [rewrite Z.div_small by lia; lia|].
      fold e3 in G'. assert (dl = 20) as Hdl by lia. assert (0 < t - dl) as Hlt by lia.
      specialize (G' Hlt). rewrite Hdl in G', B3.
      replace (t - 1) with (t - 20 - 1 + 1 * 20) by lia. rewrite Z.div_add by lia. lia.
  - pose proof (busy_ok (fs_env s1)). pose proof (tick_idle _ _ T2 ltac:(lia)) as [I2 L2].
    assert (waited s (with_chip (set_busy false) s2)) as Hw.
    { split; [|done|done|cbn; by rewrite C2, C1].
      eapply steps_trans; [exact S12|]. apply steps_chip; [done|by destruct (fs_chip s2)]. }
    unfold on_chip, wait_verdict. wp_run. rewrite C2, C1.
    destruct (busy (fs_chip s)) eqn:Hbf; wp_run.
    + cbn [with_chip fs_env]. destruct (wel (fs_env s1)) eqn:Hwel; cbn [negb];
        (wp_run; left; split; [exact Hw|cbn; by rewrite L2]).
    + left. split; [|done]. destruct Hw as [Sw Tw Iw Cw]. split; [exact S12|done|done|].
      by rewrite C2, C1, set_busy_same.
Qed.

Lemma wait_idle_ends t (s : flash_st E) :
  length (data_buf (fs_dev s)) = 16%nat -> 0 <= t < 2 ^ 32 - 1 ->
  wp (spi_flash_chip_generic_wait_idle host os polls t) s (fun err s' =>
    waited s s' /\ err = wait_verdict s s' \/ gave_up s s' err (t + 1)).
Proof.
  intros Hb Ht. unfold spi_flash_chip_generic_wait_idle, ESP_FLASH_CHIP_GENERIC_NO_TIMEOUT, UINT32_MAX.
  replace (t =? 2 ^ 32 - 1) with false by (symmetry; apply Z.eqb_neq; lia). cbn [negb].
  rewrite u32_small by lia. unfold CHIP_WAIT_IDLE_INTERVAL_US. apply idle_loop_ends; [done|].
  pose proof (Z.div_mod (t + 1) 20). pose proof (Z.mod_pos_bound (t + 1) 20). lia.
Qed.

(** A chip that is ready in time is not given up. *)
Lemma wait_idle_ok t (s : flash_st E) :
  length (data_buf (fs_dev s)) = 16%nat -> timeout_ok t -> busy_us (fs_env s) <= t ->
  wp (spi_flash_chip_generic_wait_idle host os polls t) s (fun err s' =>
    waited s s' /\
    err = if busy (fs_chip s) && wel (fs_env s') then ESP_ERR_NOT_SUPPORTED else ESP_OK).
Proof.
  intros Hb [Ht Hm] Hbusy. eapply wp_mono; [apply wait_idle_ends; [done|lia]|].
  intros err s' [Hw|(_ & _ & _ & _ & G)]; [done|]. specialize (G ltac:(lia)).
  replace (t + 1 - 1) with t in G by lia. pose proof (Z.div_mod t 20 ltac:(done)). lia.
Qed.

(** With the chip idle and nothing pending, waiting changes nothing. *)
Lemma wait_quiet (s : flash_st E) : quiet s ->
  wp (spi_flash_chip_generic_wait_idle host os polls (idle_timeout spi_flash_chip_generic_timeout)) s (fun err s' =>
    err = ESP_OK /\ quiet s' /\ steps s s' /\ tick (fs_env s) (fs_env s')).
Proof.
  intros [Hb H0 Hf]. eapply wp_mono; [apply wait_idle_ok; [done|apply idle_timeout_ok|by rewrite H0]|].
  intros err s' [[S T I C] ->]. rewrite Hf in *. split_and!; [done| |done|done].
  split; [apply S|done|by rewrite C].
Qed.
End Wait.
