(* ===== verification/ChipOps.v ===== *)
(** * What the generic chip driver does to the array

    Erasing sets bytes to 0xFF, writing clears bits, reading returns them, over
    any host with [HostLaws]; each operation returns with the chip idle, and
    reports success. A command on bytes the chip protects is refused by the chip
    and reported as a success all the same. *)

From S2P Require Import Prelude EspErr FlashRun SpiMem SpiHost FlashChip NorChip HostLaws ChipWait.

Section Ops.
  Context {E : Type} `{NL : NorLaws E} (host : spi_flash_host_driver_t E) `{HL : !HostLaws host}
    (os : esp_flash_os_functions_t E) `{OL : !OsLaws os} (polls : nat).

(** ** Write enable *)

Lemma get_write_protect_ok (s : flash_st E) : quiet s ->
  wp (spi_flash_chip_generic_get_write_protect host) s (fun r s' =>
    r = (ESP_OK, negb (wel (fs_env s))) /\ quiet s' /\ steps s s' /\ tick (fs_env s) (fs_env s')).
Proof.
  intros [Hb H0 Hf]. unfold spi_flash_chip_generic_get_write_protect.
  wp_call (host_rdsr s Hb). intros [err sr] s' (He & Hr & _ & W & S & T & C). cbn [fst snd] in *.
  subst err. cbn [is_ok negb]. wp_run. change SR_WREN with (2 ^ 1). rewrite status_bit, W by done.
  split_and!; [done| |done|done]. destruct (tick_idle _ _ T H0). split; [apply S|done|by rewrite C].
Qed.

(** The latch is as asked, and nothing else changed. *)
Lemma set_write_protect_ok (w : bool) (s : flash_st E) : quiet s ->
  wp (spi_flash_chip_generic_set_write_protect host os polls w) s (fun err s' =>
    err = ESP_OK /\ quiet s' /\ steps s s' /\ wel (fs_env s') = negb w /\
    forall a, cell (fs_env s') a = cell (fs_env s) a).
Proof.
  intros Hq. unfold spi_flash_chip_generic_set_write_protect.
  wp_call (wait_quiet host os polls s Hq).
  intros err s1 (-> & Q1 & S1 & T1). cbn [ok_or_refused]. destruct Q1 as [Hb1 H1 Hf1].
  apply wp_bind. wp_call (host_write_protect s1 w Hb1 H1). intros _ s2 (S2 & C2 & A2). wp_run.
  assert (busy_us (fs_env s2) = 0 /\ wel (fs_env s2) = negb w /\
          forall a, cell (fs_env s2) a = cell (fs_env s1) a) as (H2 & W2 & L2).
  { destruct w; destruct A2 as [AC AL AB AW]; [|done].
    assert (busy_us (fs_env s2) = 0) as Hz by lia. rewrite AW, Hz. done. }
  assert (quiet s2) as Q2 by (split; [apply S2|done|by rewrite C2]).
  wp_call (get_write_protect_ok s2 Q2). intros r s3 (-> & Q3 & S3 & T3). wp_run. cbn [fst snd is_ok andb].
  rewrite W2, negb_involutive, eqb_reflx. cbn [negb].
  destruct (tick_idle _ _ T3 H2) as [_ W3]. split_and!; [done|done| |by rewrite W3|].
  - eapply steps_trans; [exact S1|]. by eapply steps_trans.
  - intros a. by rewrite (tick_cell _ _ T3), L2, (tick_cell _ _ T1).
Qed.

(** ** After a command *)

(** What is left of a command that changes the array once the chip was waited
    for: it was refused or not. *)
Record settled (s s' : flash_st E) (err : esp_err_t) (f : Z -> Z) (a n : Z) : Prop := {
  sd_quiet : quiet s';
  sd_steps : steps s s';
  sd_array : array_is s s' f a n;
  sd_err : err = ESP_OK \/ err = ESP_ERR_NOT_SUPPORTED;
}.

Lemma command_settles (s s1 : flash_st E) t f a n :
  quiet s -> steps s s1 -> fs_chip s1 = set_busy true (fs_chip s) ->
  timeout_ok t -> changes (fs_env s) (fs_env s1) t f a n ->
  wp (spi_flash_chip_generic_wait_idle host os polls t) s1 (fun err s' => settled s s' err f a n).
Proof.
  intros Hq S1 C1 Ht [Hacc Href]. destruct (unlocked_dec (fs_env s) a n) as [Hu|Hu].
  - destruct (Hacc Hu) as [AC AL AB AW].
    assert (busy_us (fs_env s1) <= t) as Hle by (destruct Ht; lia).
    wp_call (wait_idle_ok host os polls t s1 (st_buf _ _ S1) Ht Hle).
    intros err s2 [[S2 T2 I2 C2] ->].
    assert (wel (fs_env s2) = false) as ->.
    { rewrite (tick_wel _ _ T2), AW, I2. by destruct (0 <? busy_us (fs_env s1)). }
    rewrite andb_false_r. split; [|by eapply steps_trans| |by left].
    + split; [apply S2|done|by rewrite C2].
    + split; [|done]. intros _ x. by rewrite (tick_cell _ _ T2), AC.
  - destruct (Href Hu) as [RC RL RB RW].
    assert (busy_us (fs_env s1) <= t) as Hle by (destruct Ht; lia).
    wp_call (wait_idle_ok host os polls t s1 (st_buf _ _ S1) Ht Hle).
    intros err s2 [[S2 T2 I2 C2] ->].
    destruct (tick_idle _ _ T2 RB) as [_ W2]. rewrite W2, RW, C1. cbn [set_busy busy andb].
    split; [|by eapply steps_trans| |by right].
    + split; [apply S2|done|by rewrite C2].
    + split; [done|]. intros _ x. by rewrite (tick_cell _ _ T2), RC.
Qed.

(** A refused command only costs the clearing of the latch, whose success is the
    result. *)
Lemma settled_result (s s1 : flash_st E) err f a n : settled s s1 err f a n ->
  wp (if refused err then spi_flash_chip_generic_set_write_protect host os polls true else mret err) s1
    (fun err s' => err = ESP_OK /\ quiet s' /\ steps s s' /\ array_is s s' f a n).
Proof.
  intros [Q S [A1 A2] [-> | ->]]; cbn [refused].
  - by wp_run.
  - eapply wp_mono; [apply (set_write_protect_ok true s1 Q)|].
    intros err s2 (-> & Q2 & S2 & _ & L2). split_and!; [done|done|by eapply steps_trans|].
    split; intros Hu x; rewrite L2; auto.
Qed.

(** ** Erasing *)

Lemma erase_status_ok st (s : flash_st E) : length (data_buf (fs_dev s)) = 16%nat ->
  wp (SET_FLASH_ERASE_STATUS os st) s (fun _ s' =>
    steps s s' /\ tick (fs_env s) (fs_env s') /\ fs_chip s' = fs_chip s).
Proof.
  intros Hb. unfold SET_FLASH_ERASE_STATUS. destruct (o_set_flash_op_status os) as [f|] eqn:Ho.
  - unfold on_env. wp_run. pose proof (os_status_ok f (fs_env s) st Ho) as Ht.
    split_and!; [|done|done]. split; [done|done|apply Ht|by exists []].
  - wp_run. split_and!; [by apply steps_refl| |done]. apply tick_refl, busy_ok.
Qed.

Lemma settled_tick (s s1 s2 : flash_st E) err f a n :
  settled s s1 err f a n -> steps s1 s2 -> tick (fs_env s1) (fs_env s2) -> fs_chip s2 = fs_chip s1 ->
  settled s s2 err f a n.
Proof.
  intros [[Qb Q0 Qf] S [A1 A2] He] S2 T2 C2. destruct (tick_idle _ _ T2 Q0) as [H0 _].
  split; [|by eapply steps_trans| |done].
  - split; [apply S2|done|by rewrite C2].
  - split; intros Hu x; rewrite (tick_cell _ _ T2); auto.
Qed.

(** [command] erases the bytes [a, a+n) when the chip takes it. *)
Lemma erase_with_ok (command : prog (flash_st E) unit) t a n (s : flash_st E) :
  quiet s -> timeout_ok t ->
  (forall s, length (data_buf (fs_dev s)) = 16%nat -> busy_us (fs_env s) = 0 -> wel (fs_env s) = true ->
     wp command s (fun _ s' => steps s s' /\ fs_chip s' = fs_chip s /\
       changes (fs_env s) (fs_env s') t (erased (cell (fs_env s)) a n) a n)) ->
  wp (erase_with host os polls command t) s (fun err s' =>
    err = ESP_OK /\ quiet s' /\ steps s s' /\ array_is s s' (erased (cell (fs_env s)) a n) a n).
Proof.
  intros Hq Ht Hcmd. unfold erase_with.
  wp_call (set_write_protect_ok false s Hq). intros err s1 (-> & Q1 & S1 & W1 & L1). cbn [is_ok].
  wp_call (wait_quiet host os polls s1 Q1).
  intros err s2 (-> & [Qb2 Q02 Qf2] & S2 & T2). cbn [ok_or_refused].
  destruct (tick_idle _ _ T2 (q_idle _ Q1)) as [_ W2]. rewrite W1 in W2. apply wp_bind.
  wp_call (erase_status_ok SPI_FLASH_OS_IS_ERASING_STATUS_FLAG s2 Qb2). intros _ s3 (S3 & T3 & C3).
  destruct (tick_idle _ _ T3 Q02) as [Q03 W3]. rewrite W2 in W3.
  wp_call (Hcmd s3 (st_buf _ _ S3) Q03 W3). intros _ s4 (S4 & C4 & A4).
  unfold on_chip. apply wp_bind, wp_modify.
  set (s5 := with_chip (set_busy true) s4).
  assert (steps s3 s5) as S5.
  { eapply steps_trans; [exact S4|]. apply steps_chip; [apply S4|by destruct (fs_chip s4)]. }
  assert (quiet s3) as Q3 by (split; [apply S3|done|by rewrite C3]).
  wp_call (command_settles s3 s5 t _ a n Q3 S5 ltac:(cbn; by rewrite C4) Ht A4).
  intros err s6 H6. wp_call (erase_status_ok 0 s6 (q_buf _ (sd_quiet _ _ _ _ _ _ H6))).
  intros _ s7 (S7 & T7 & C7). wp_run.
  eapply wp_mono; [apply (settled_result s3 s7), (settled_tick _ _ _ _ _ _ _ H6 S7 T7 C7)|].
  intros err' s' (-> & Q' & S' & A1 & A2).
  assert (steps s s3) as S03 by (eapply steps_trans; [exact S1|]; by eapply steps_trans).
  split_and!; [done|done|by eapply steps_trans|].
  assert (forall x, cell (fs_env s3) x = cell (fs_env s) x) as L3.
  { intros x. by rewrite (tick_cell _ _ T3), (tick_cell _ _ T2), L1. }
  split; intros Hu x; rewrite (unlocked_steps _ _ _ _ S03) in Hu.
  - rewrite A1 by done. unfold erased. by rewrite L3.
  - by rewrite A2, L3.
Qed.

(** What erasing [n] bytes at [a] does. *)
Definition erases (op : Z -> prog (flash_st E) esp_err_t) (n : Z) : Prop :=
  forall (s : flash_st E) a, quiet s -> 0 <= a -> a + n <= nor_size -> a mod n = 0 ->
  wp (op a) s (fun err s' => err = ESP_OK /\ quiet s' /\ steps s s' /\
    array_is s s' (erased (cell (fs_env s)) a n) a n).

Lemma erase_sector_ok : erases (spi_flash_chip_generic_erase_sector host os polls) SECTOR_SIZE.
Proof.
  intros s a Hq Ha Hs Hm. apply erase_with_ok; [done|apply sector_timeout_ok|].
  intros s' Hb H0 Hw. by apply host_sector.
Qed.

Lemma erase_block_ok : erases (spi_flash_chip_generic_erase_block host os polls) BLOCK_ERASE_SIZE.
Proof.
  intros s a Hq Ha Hs Hm. apply erase_with_ok; [done|apply block_timeout_ok|].
  intros s' Hb H0 Hw. by apply host_block.
Qed.
End Ops.
