(* ===== verification/ChipData.v ===== *)
(** * Reading and programming through the generic chip driver *)

From S2P Require Import Prelude EspErr FlashRun SpiMem SpiHost FlashChip NorChip HostLaws ChipWait ChipOps.

(** ** Programming as a function on arrays *)

Lemma land_ff_r b : in_range 8 b -> Z.land b 0xFF = b.
Proof.
  intros Hb. change 0xFF with (Z.ones 8). rewrite Z.land_ones by lia. by apply Z.mod_small.
Qed.

Lemma nth_replicate_lt {A} (x d : A) i n : (i < n)%nat -> nth i (replicate n x) d = x.
Proof. intros Hi. apply nth_lookup_Some. by apply lookup_replicate_2. Qed.

Lemma nth_take_lt {A} (d : A) i n l : (i < n)%nat -> nth i (take n l) d = nth i l d.
Proof. intros Hi. rewrite nth_firstn. by destruct (Nat.ltb_spec i n); [|lia]. Qed.

Lemma temp_buffer_length off data :
  (off + length data <= 64)%nat -> length (temp_buffer off data) = 64%nat.
Proof. intros Hl. unfold temp_buffer. rewrite !length_app, !length_replicate. lia. Qed.

Lemma temp_buffer_range off data :
  Forall (in_range 8) data -> Forall (in_range 8) (temp_buffer off data).
Proof.
  intros Hd. unfold temp_buffer. rewrite !Forall_app. split_and!; try done;
    apply Forall_replicate; unfold in_range; lia.
Qed.

(** The bytes of 0xFF around the data clear no bit. *)
Lemma programmed_pad f al off data (n : nat) x :
  in_range 8 (f x) -> (off + length data <= n)%nat -> (n <= 64)%nat ->
  programmed f al (take n (temp_buffer off data)) x = programmed f (al + off) data x.
Proof.
  intros Hr Hl Hn. unfold programmed. rewrite length_take, temp_buffer_length, Nat.min_l by lia.
  set (i := Z.to_nat (x - al)).
  destruct (Z.leb_spec al x), (Z.ltb_spec x (al + n)); cbn [andb];
    [|destruct (Z.leb_spec (al + off) x), (Z.ltb_spec x (al + off + length data)); cbn [andb]; (done || lia)..].
  rewrite nth_take_lt by (subst i; lia). unfold temp_buffer.
  destruct (Z.leb_spec (al + off) x); cbn [andb].
  - rewrite app_nth2, length_replicate by (rewrite length_replicate; subst i; lia).
    destruct (Z.ltb_spec x (al + off + length data)).
    + rewrite app_nth1 by (subst i; lia). do 2 f_equal. subst i. lia.
    + rewrite app_nth2 by (subst i; lia). rewrite nth_replicate_lt by (subst i; lia). by apply land_ff_r.
  - rewrite app_nth1 by (rewrite length_replicate; subst i; lia).
    rewrite nth_replicate_lt by (subst i; lia). by apply land_ff_r.
Qed.

Lemma programmed_app f a b1 b2 x :
  programmed (programmed f a b1) (a + length b1) b2 x = programmed f a (b1 ++ b2) x.
Proof.
  unfold programmed. rewrite length_app.
  destruct (Z.leb_spec a x), (Z.ltb_spec x (a + length b1)), (Z.leb_spec (a + length b1) x),
    (Z.ltb_spec x (a + length b1 + length b2)), (Z.ltb_spec x (a + (length b1 + length b2)%nat));
    cbn [andb]; try done; try lia.
  - by rewrite app_nth1 by lia.
  - rewrite app_nth2 by lia. do 2 f_equal. lia.
Qed.

Lemma programmed_nil f a x : programmed f a [] x = f x.
Proof. unfold programmed. cbn. destruct (Z.leb_spec a x), (Z.ltb_spec x (a + 0%nat)); try done; lia. Qed.

Lemma programmed_ext f g a bs x : f x = g x -> programmed f a bs x = programmed g a bs x.
Proof. unfold programmed. by intros ->. Qed.

Lemma programmed_out f a bs x : ~ (a <= x < a + length bs) -> programmed f a bs x = f x.
Proof.
  unfold programmed. intros Hx. destruct (Z.leb_spec a x), (Z.ltb_spec x (a + length bs)); cbn; try done; lia.
Qed.

Lemma erased_in (f : Z -> Z) a n x : a <= x < a + n -> erased f a n x = 0xFF.
Proof.
  intros Hx. unfold erased. by replace ((a <=? x) && (x <? a + n)) with true
    by (symmetry; apply andb_true_iff; split; [apply Z.leb_le|apply Z.ltb_lt]; lia).
Qed.

Lemma programmed_in (f : Z -> Z) a bs x :
  a <= x < a + length bs -> programmed f a bs x = Z.land (f x) (nth (Z.to_nat (x - a)) bs 0).
Proof.
  intros Hx. unfold programmed. by replace ((a <=? x) && (x <? a + length bs)) with true
    by (symmetry; apply andb_true_iff; split; [apply Z.leb_le|apply Z.ltb_lt]; lia).
Qed.

Lemma programmed_blank (f g : Z -> Z) a bs : Forall (in_range 8) bs ->
  (forall x, a <= x < a + length bs -> f x = 0xFF) ->
  (forall x, g x = programmed f a bs x) ->
  map (fun i => g (a + Z.of_nat i)) (seq 0 (length bs)) = bs.
Proof.
  intros Hr Hff Hg. apply (nth_ext _ _ 0 0); rewrite length_map, length_seq; [done|]. intros i Hi.
  rewrite (nth_indep _ 0 (g (a + 0%nat))) by by rewrite length_map, length_seq.
  rewrite (map_nth (fun i => g (a + Z.of_nat i))), seq_nth, Hg by done. cbn.
  rewrite programmed_in, Hff by lia. replace (Z.to_nat (a + i - a)) with i by lia.
  rewrite Z.land_comm. apply land_ff_r. rewrite Forall_forall in Hr. apply Hr, list_elem_of_In, nth_In. done.
Qed.

Section Data.
  Context {E : Type} `{NL : NorLaws E} (host : spi_flash_host_driver_t E) `{HL : !HostLaws host}
    (os : esp_flash_os_functions_t E) `{OL : !OsLaws os} (polls : nat).

(** ** One page *)

Lemma page_program_ok buffer a (n : nat) (s : flash_st E) :
  quiet s -> wel (fs_env s) = true -> Forall (in_range 8) buffer ->
  (0 < n <= 64)%nat -> (n <= length buffer)%nat ->
  0 <= a -> a + n <= nor_size -> a mod PAGE_SIZE + n <= PAGE_SIZE ->
  wp (spi_flash_chip_generic_page_program host os polls buffer a n) s (fun err s' =>
    err = ESP_OK /\ quiet s' /\ steps s s' /\
    array_is s s' (programmed (cell (fs_env s)) a (take n buffer)) a n).
Proof.
  intros Hq Hw Hr Hn Hl Ha Has Hp. unfold spi_flash_chip_generic_page_program.
  wp_call (wait_quiet host os polls s Hq).
  intros err s1 (-> & Q1 & S1 & T1). cbn [ok_or_refused].
  destruct (tick_idle _ _ T1 (q_idle _ Hq)) as [H1 W1]. rewrite Hw in W1. apply wp_bind.
  wp_call (host_program s1 buffer a n (q_buf _ Q1) H1 W1 Hr Hn Hl Ha Has Hp).
  intros _ s2 (S2 & C2 & A2). unfold on_chip. apply wp_bind, wp_modify.
  set (s3 := with_chip (set_busy true) s2).
  assert (steps s1 s3) as S3.
  { eapply steps_trans; [exact S2|]. apply steps_chip; [apply S2|by destruct (fs_chip s2)]. }
  wp_call (command_settles host os polls s1 s3 _ _ a n Q1 S3 ltac:(cbn; by rewrite C2)
    page_timeout_ok A2).
  intros err s4 H4. eapply wp_mono; [apply (settled_result _ _ _ _ _ _ _ _ _ H4)|].
  intros err' s' (-> & Q' & S' & A1' & A2'). split_and!; [done|done|by eapply steps_trans|].
  split; intros Hu x; rewrite (unlocked_steps _ _ _ _ S1) in Hu.
  - rewrite A1' by done. apply programmed_ext, T1.
  - rewrite A2' by done. apply T1.
Qed.

(** ** Writing *)

(** What a write of [bs] at [a] does: nothing outside; the programming of the
    bytes, unless some byte of the chip is locked. *)
Definition written (s s' : flash_st E) (a : Z) (bs : list Z) : Prop :=
  (forall x, ~ (a <= x < a + length bs) -> cell (fs_env s') x = cell (fs_env s) x) /\
  (unlocked (fs_env s) 0 nor_size ->
   forall x, cell (fs_env s') x = programmed (cell (fs_env s)) a bs x).

Lemma written_refl (s s' : flash_st E) a :
  (forall x, cell (fs_env s') x = cell (fs_env s) x) -> written s s' a [].
Proof. intros H. split; intros; rewrite ?programmed_nil; auto. Qed.

Lemma written_trans (s1 s2 s3 : flash_st E) a b1 b2 :
  steps s1 s2 -> written s1 s2 a b1 -> written s2 s3 (a + length b1) b2 ->
  written s1 s3 a (b1 ++ b2).
Proof.
  intros S12 [F1 W1] [F2 W2]. split.
  - intros x Hx. rewrite length_app in Hx. rewrite F2, F1 by lia. done.
  - intros Hu x. rewrite W2 by by apply (unlocked_steps _ _ _ _ S12).
    rewrite <- programmed_app. by apply programmed_ext, W1.
Qed.

(** One turn of the loop, and what follows it. *)
Lemma write_step (buffer : list Z) al (n wl off : nat) a (s : flash_st E) (k : esp_err_t -> prog (flash_st E) esp_err_t) Q :
  quiet s -> Forall (in_range 8) buffer -> (wl <= length buffer)%nat -> (0 < n <= 64)%nat ->
  a = al + off -> (off + wl <= n)%nat ->
  0 <= al -> al + n <= nor_size -> al mod PAGE_SIZE + n <= PAGE_SIZE ->
  (forall s', quiet s' -> steps s s' -> written s s' a (take wl buffer) -> wp (k ESP_OK) s' Q) ->
  wp (err ← spi_flash_chip_generic_set_write_protect host os polls false;
      if negb (is_ok err) then mret err else
      err ← spi_flash_chip_generic_page_program host os polls (temp_buffer off (take wl buffer)) al n;
      k err) s Q.
Proof.
  intros Hq Hr Hwl Hn -> Hoff Hal Has Hp HQ.
  assert (length (take wl buffer) = wl) as Hlw by (rewrite length_take; lia).
  wp_call (set_write_protect_ok host os polls false s Hq). intros err s1 (-> & Q1 & S1 & W1 & L1).
  cbn [is_ok negb].
  assert (Forall (in_range 8) (temp_buffer off (take wl buffer))) as Hr' by by apply temp_buffer_range, Forall_take.
  assert (n <= length (temp_buffer off (take wl buffer)))%nat as Hl' by (rewrite temp_buffer_length; lia).
  wp_call (page_program_ok _ al n s1 Q1 W1 Hr' Hn Hl' Hal Has Hp).
  intros err s2 (-> & Q2 & S2 & A1 & A2). apply HQ; [done|by eapply steps_trans|].
  assert (forall x, programmed (cell (fs_env s1)) al (take n (temp_buffer off (take wl buffer))) x
            = programmed (cell (fs_env s)) (al + off) (take wl buffer) x) as Hpad.
  { intros x. rewrite programmed_pad by (apply cell_ok || lia). by apply programmed_ext. }
  split.
  - intros x Hx. destruct (unlocked_dec (fs_env s1) al n) as [Hu|Hu].
    + rewrite A1, Hpad by done. by apply programmed_out.
    + by rewrite A2.
  - intros Hu x. rewrite A1; [done|]. intros y Hy. rewrite (st_lock _ _ S1). apply Hu. lia.
Qed.

Lemma write_loop_ok k buffer a (len : nat) (s : flash_st E) :
  quiet s -> Forall (in_range 8) buffer -> (len <= length buffer)%nat -> (len <= k)%nat ->
  0 <= a -> a + len <= nor_size ->
  wp (write_loop host os polls k buffer a len) s (fun err s' =>
    err = ESP_OK /\ quiet s' /\ steps s s' /\ written s s' a (take len buffer)).
Proof.
  destruct nor_size_ok as [_ Hnor].
  revert buffer a len s. induction k as [|k IH]; intros buffer a len s Hq Hr Hl Hk Ha Has; cbn [write_loop].
  { replace len with 0%nat by lia. wp_run. split_and!; [done|done|by apply steps_refl, Hq|].
    by apply written_refl. }
  destruct (Z.leb_spec len 0).
  { replace len with 0%nat by lia. wp_run. split_and!; [done|done|by apply steps_refl, Hq|].
    by apply written_refl. }
  destruct (h_write_data_slicer host a len PAGE_SIZE) as [pl al] eqn:Hs.
  destruct (host_write_slice a len pl al Ha ltac:(lia) Has Hs) as (Hal & Hpl & Hpl64 & Hpage).
  set (wl := Z.to_nat (Z.min (al + pl) (a + len) - a)).
  assert (u32 (Z.min (u32 (al + pl)) (u32 (a + len)) - a) = wl) as ->.
  { subst wl. rewrite !(u32_small (_ + _)) by lia. rewrite u32_small by lia. lia. }
  rewrite (u32_small (a - al)) by lia. rewrite Nat2Z.id, (u32_small (a + wl)), (u32_small (len - wl)) by lia.
  replace pl with (Z.of_nat (Z.to_nat pl)) by lia.
  apply (write_step buffer al (Z.to_nat pl) wl (Z.to_nat (a - al)) a); [done|done|lia|lia|lia|lia|lia|lia|lia|].
  intros s1 Q1 S1 W1. cbn [is_ok negb].
  replace (len - wl) with (Z.of_nat (len - wl)) by lia.
  eapply wp_mono; [apply IH; [done|by apply Forall_drop|rewrite length_drop; lia|lia|lia|lia]|].
  intros err s2 (-> & Q2 & S2 & W2). split_and!; [done|done|by eapply steps_trans|].
  replace (take len buffer) with (take wl buffer ++ take (len - wl) (drop wl buffer)).
  - eapply written_trans; [done|exact W1|]. by rewrite length_take, Nat.min_l by lia.
  - rewrite take_take_drop. f_equal. lia.
Qed.

Lemma chip_write_ok buffer a (len : nat) (s : flash_st E) :
  quiet s -> Forall (in_range 8) buffer -> (len <= length buffer)%nat -> 0 <= a -> a + len <= nor_size ->
  wp (spi_flash_chip_generic_write host os polls buffer a len) s (fun err s' =>
    err = ESP_OK /\ quiet s' /\ steps s s' /\ written s s' a (take len buffer)).
Proof. intros. unfold spi_flash_chip_generic_write. apply write_loop_ok; (done || lia). Qed.

(** ** Reading *)

Definition cells (e : E) (a : Z) (n : nat) : list Z := map (fun i => cell e (a + Z.of_nat i)) (seq 0 n).

Lemma cells_length e a n : length (cells e a n) = n.
Proof. unfold cells. by rewrite length_map, length_seq. Qed.

Lemma cells_split e a n k : (k <= n)%nat -> cells e a n = cells e a k ++ cells e (a + k) (n - k).
Proof.
  intros Hk. unfold cells. replace n with (k + (n - k))%nat at 1 by lia.
  rewrite seq_app, map_app. f_equal. rewrite <- (Nat.add_0_r (0 + k)), <- fmap_add_seq.
  change (fmap ?f ?l) with (map f l). rewrite map_map. apply map_ext. intros i. f_equal. lia.
Qed.

Lemma cells_ext e e' a n : (forall x, cell e' x = cell e x) -> cells e' a n = cells e a n.
Proof. intros H. apply map_ext. intros i. apply H. Qed.

(** The bytes asked for, out of those that were read around them. *)
Lemma slice_cells e al a (n dl : nat) : al <= a -> a - al + dl <= n -> (n <= 64)%nat ->
  take dl (drop (Z.to_nat (a - al)) (temp_buffer 0 (cells e al n))) = cells e a dl.
Proof.
  intros Hal Hdl Hn. unfold temp_buffer. cbn [replicate app]. rewrite drop_app_le by (rewrite cells_length; lia).
  rewrite (cells_split e al n (Z.to_nat (a - al))) by lia.
  rewrite drop_app_length' by (by rewrite cells_length).
  rewrite take_app_le by (rewrite cells_length; lia).
  replace (al + Z.to_nat (a - al)) with a by lia.
  rewrite (cells_split e a _ dl) by lia. rewrite take_app_length'; [done|by rewrite cells_length].
Qed.

Lemma read_loop_ok k a (len : nat) buffer mode c cf (s : flash_st E) :
  quiet s -> read_command mode = Some (c, cf) -> configured (fs_dev s) c -> (len <= k)%nat ->
  0 <= a -> a + len <= nor_size ->
  wp (read_loop host k a len buffer) s (fun r s' =>
    r = (ESP_OK, buffer ++ cells (fs_env s) a len) /\ quiet s' /\ steps s s' /\
    tick (fs_env s) (fs_env s')).
Proof.
  destruct nor_size_ok as [_ Hnor].
  revert a len buffer s. induction k as [|k IH]; intros a len buffer s Hq Hc Hcfg Hk Ha Has; cbn [read_loop].
  { replace len with 0%nat by lia. wp_run. rewrite app_nil_r.
    split_and!; [done|done|by apply steps_refl, Hq|apply tick_refl, busy_ok]. }
  destruct (Z.leb_spec len 0).
  { replace len with 0%nat by lia. wp_run. rewrite app_nil_r.
    split_and!; [done|done|by apply steps_refl, Hq|apply tick_refl, busy_ok]. }
  destruct (h_read_data_slicer host a len PAGE_SIZE) as [rl al] eqn:Hs.
  destruct (host_read_slice a len rl al Ha ltac:(lia) Has Hs) as (Hal & Hrl & Hrl64).
  set (dl := Z.to_nat (Z.min (al + rl) (a + len) - a)).
  assert (u32 (Z.min (u32 (al + rl)) (u32 (a + len)) - a) = dl) as ->.
  { subst dl. rewrite !(u32_small (_ + _)) by lia. rewrite u32_small by lia. lia. }
  rewrite (u32_small (a - al)) by lia. rewrite Nat2Z.id, (u32_small (a + dl)), (u32_small (len - dl)) by lia.
  replace rl with (Z.of_nat (Z.to_nat rl)) by lia.
  wp_call (host_read s mode c cf al (Z.to_nat rl) (q_buf _ Hq) Hc Hcfg (q_idle _ Hq)
    ltac:(lia) ltac:(lia) ltac:(lia)).
  intros [err bs] s1 (He & Hbs & S1 & T1 & C1 & Hcfg1). cbn [fst snd] in *. subst err. cbn [is_ok].
  fold (cells (fs_env s) al (Z.to_nat rl)) in Hbs. subst bs. rewrite slice_cells by lia.
  replace (len - dl) with (Z.of_nat (len - dl)) by lia.
  destruct (tick_idle _ _ T1 (q_idle _ Hq)) as [I1 _].
  assert (quiet s1) as Q1 by (split; [apply S1|done|by rewrite C1; apply Hq]).
  eapply wp_mono; [apply IH; [done|done|done|lia|lia|lia]|].
  intros r s2 (-> & Q2 & S2 & T2). split_and!; [|done|by eapply steps_trans|by eapply tick_trans].
  rewrite (cells_ext (fs_env s) (fs_env s1)) by apply T1.
  rewrite <- app_assoc, (cells_split _ a len dl) by lia. done.
Qed.

Lemma conf_mode c : Z.land (Z.lor c SPI_FLASH_CONFIG_CONF_BITS) 0xFFFF = Z.land c 0xFFFF.
Proof.
  rewrite Z.land_lor_distr_l. change (Z.land SPI_FLASH_CONFIG_CONF_BITS 0xFFFF) with 0. apply Z.lor_0_r.
Qed.

Lemma chip_read_ok a (len : nat) (s : flash_st E) :
  quiet s -> readable (fs_chip s) -> 0 <= a -> a + len <= nor_size ->
  wp (spi_flash_chip_generic_read host a len) s (fun r s' =>
    r = (ESP_OK, cells (fs_env s) a len) /\ quiet s' /\ steps s s' /\ tick (fs_env s) (fs_env s')).
Proof.
  intros Hq (c & cf & Hc & Hd) Ha Has.
  unfold spi_flash_chip_generic_read, spi_flash_chip_generic_config_host_io_mode. wp_run.
  rewrite Hc, Hd.
  wp_call (host_configure s _ c cf (if cf : bool then Z.lor (read_mode (fs_chip s)) SPI_FLASH_CONFIG_CONF_BITS
      else read_mode (fs_chip s)) (q_buf _ Hq) Hc ltac:(destruct cf; [apply conf_mode|done])).
  intros err s1 (-> & S1 & E1 & C1 & Hcfg). cbn [is_ok].
  assert (quiet s1) as Q1 by (split; [apply S1|by rewrite E1; apply Hq|by rewrite C1; apply Hq]).
  eapply wp_mono; [apply (read_loop_ok _ a len [] (Z.land (read_mode (fs_chip s)) 0xFFFF) c cf s1); [done|done|done|lia|done|done]|].
  intros r s2 (-> & Q2 & S2 & T2). rewrite E1 in *. split_and!; [done|done|by eapply steps_trans|done].
Qed.
End Data.
