(* ===== verification/FlashDrv.v ===== *)
(** * What the flash API needs from a chip driver, and the bus

    [DrvLaws] is the contract of a table of functions for a chip; the generic
    driver has it over any host with [HostLaws]. [bus_run] is the discipline of
    the bus: a transaction only while the bus is held, no second acquisition, a
    release only of a held bus, one page per programming command; it also tells
    whether the array was changed since the cache was last flushed. *)

From S2P Require Import Prelude EspErr FlashRun SpiMem SpiHost FlashChip NorChip HostLaws.
From S2P Require Import ChipWait ChipOps ChipData FlashApi.

(** ** The discipline of the bus *)

Record bus := Bus { held : bool; dirty : bool }.

Definition changes_array (w : spi_wire) : bool :=
  match w_cmd w with
  | Some (_, c) => (c =? CMD_PROGRAM_PAGE) || (c =? CMD_SECTOR_ERASE)
                   || (c =? CMD_LARGE_BLOCK_ERASE) || (c =? CMD_CHIP_ERASE)
  | None => false
  end.

Definition bus_step (b : bus) (ev : flash_event) : option bus :=
  match ev with
  | EvStart => if held b then None else Some (Bus true (dirty b))
  | EvEnd => if held b then Some (Bus false (dirty b)) else None
  | EvBus w => if held b && bool_decide (one_page w)
               then Some (Bus true (dirty b || changes_array w)) else None
  | EvFlush _ _ => if held b then Some (Bus true false) else None
  end.

(** The newest event comes first. *)
Definition bus_run (b : bus) (l : list flash_event) : option bus :=
  foldr (fun ev o => o ≫= fun b => bus_step b ev) (Some b) l.

(** The events since [s0] obey the discipline from a free bus. *)
Definition tracks {E} (d0 : bool) (s0 s : flash_st E) (h d : bool) : Prop :=
  exists l, fs_log s = l ++ fs_log s0 /\ bus_run (Bus false d0) l = Some (Bus h d).

Section Bus.
  Context {E : Type}.

Lemma bus_run_app b l1 l2 : bus_run b (l2 ++ l1) = bus_run b l1 ≫= fun b' => bus_run b' l2.
Proof.
  unfold bus_run. rewrite foldr_app. destruct (foldr _ (Some b) l1) as [b'|]; [done|].
  cbn. induction l2 as [|ev l2 IH]; [done|]. cbn. by rewrite IH.
Qed.

Lemma bus_run_bus h d l : Forall bus_event l -> h = true ->
  exists d', bus_run (Bus h d) l = Some (Bus true d').
Proof.
  intros Hl ->. unfold bus_run. induction Hl as [|ev l Hev Hl [d' IH]]; [by exists d|].
  cbn. rewrite IH. cbn.
  destruct ev as [| |w|]; try done. cbn. rewrite bool_decide_eq_true_2 by done. by eexists.
Qed.

Lemma tracks_refl d0 (s : flash_st E) : tracks d0 s s false d0.
Proof. by exists []. Qed.

Lemma tracks_same d0 (s0 s s' : flash_st E) h d :
  tracks d0 s0 s h d -> fs_log s' = fs_log s -> tracks d0 s0 s' h d.
Proof. intros (l & Hl & Hr) He. exists l. by rewrite He. Qed.

Lemma tracks_event d0 (s0 s s' : flash_st E) h d h' d' ev :
  tracks d0 s0 s h d -> fs_log s' = ev :: fs_log s -> bus_step (Bus h d) ev = Some (Bus h' d') ->
  tracks d0 s0 s' h' d'.
Proof.
  intros (l & Hl & Hr) He Hs. exists (ev :: l). split; [by rewrite He, Hl|].
  unfold bus_run in *. cbn. by rewrite Hr.
Qed.

Lemma tracks_steps `{NV : NorView E} d0 (s0 s s' : flash_st E) d :
  tracks d0 s0 s true d -> steps s s' -> exists d', tracks d0 s0 s' true d'.
Proof.
  intros (l & Hl & Hr) [_ _ _ (l' & Hl' & Hf)].
  destruct (bus_run_bus true d l' Hf eq_refl) as [d' Hd]. exists d', (l' ++ l). split.
  - by rewrite Hl', Hl, app_assoc.
  - by rewrite bus_run_app, Hr.
Qed.

Lemma tracks_trans d0 d (s0 s s' : flash_st E) h d' :
  tracks d0 s0 s false d -> tracks d s s' h d' -> tracks d0 s0 s' h d'.
Proof.
  intros (l1 & L1 & R1) (l2 & L2 & R2). exists (l2 ++ l1). rewrite L2, L1, app_assoc. split; [done|].
  by rewrite bus_run_app, R1.
Qed.
End Bus.

(** ** A chip driver *)

Class DrvLaws {E} `{HW : SpiHw E} `{NV : NorView E} (drv : spi_flash_chip_t E) : Prop := {
  drv_sizes : 0 < d_sector_size drv <= d_block_erase_size drv /\
    d_block_erase_size drv < 2 ^ 32 /\ d_block_erase_size drv mod d_sector_size drv = 0;
  drv_erase_sector : exists f, d_erase_sector drv = Some f /\ erases f (d_sector_size drv);
  drv_erase_block : exists f, d_erase_block drv = Some f /\ erases f (d_block_erase_size drv);
  drv_read : exists f, d_read drv = Some f /\
    forall s a (n : nat), quiet s -> readable (fs_chip s) -> 0 <= a -> a + n <= nor_size ->
    wp (f a n) s (fun r s' => r = (ESP_OK, cells (fs_env s) a n) /\ quiet s' /\ steps s s' /\
      tick (fs_env s) (fs_env s'));
  drv_write : exists f, d_write drv = Some f /\
    forall bs s a (n : nat), quiet s -> Forall (in_range 8) bs -> (n <= length bs)%nat ->
    0 <= a -> a + n <= nor_size ->
    wp (f bs a n) s (fun err s' => err = ESP_OK /\ quiet s' /\ steps s s' /\
      written s s' a (take n bs));
  drv_yield : forall f s, d_yield drv = Some f -> quiet s ->
    wp (f 0) s (fun err s' => quiet s' /\ conf (fs_chip s') = conf (fs_chip s) /\
      tick (fs_env s) (fs_env s') /\ fs_log s' = fs_log s);
  drv_regions : forall f s, d_get_protected_regions drv = Some f -> quiet s ->
    wp f s (fun r s' => quiet s' /\ steps s s' /\ tick (fs_env s) (fs_env s'));
}.

Lemma env_call_ok {E} `{NL : NorLaws E} {A} (f : E -> E * A) (s : flash_st E) :
  quiet s -> tick (fs_env s) (fst (f (fs_env s))) ->
  wp (env_call f) s (fun a s' => a = snd (f (fs_env s)) /\ quiet s' /\
    fs_chip s' = fs_chip s /\ tick (fs_env s) (fs_env s') /\ fs_log s' = fs_log s).
Proof.
  intros [Qb Q0 Qf] Ht. unfold env_call, wp. destruct (f (fs_env s)) as [e a]. cbn in *.
  split_and!; try done. destruct (tick_idle _ _ Ht Q0). by split.
Qed.

Lemma generic_yield_ok {E} `{NL : NorLaws E} (os : esp_flash_os_functions_t E) `{OL : !OsLaws os} w s :
  quiet s ->
  wp (spi_flash_chip_generic_yield os w) s (fun err s' => quiet s' /\
    conf (fs_chip s') = conf (fs_chip s) /\ tick (fs_env s) (fs_env s') /\ fs_log s' = fs_log s).
Proof.
  intros Hq. assert (quiet s /\ conf (fs_chip s) = conf (fs_chip s) /\ tick (fs_env s) (fs_env s)
    /\ fs_log s = fs_log s) as H0 by (split_and!; [done|done|apply tick_refl, busy_ok|done]).
  unfold spi_flash_chip_generic_yield. destruct (o_check_yield os) as [f|] eqn:Ho; [|by wp_run].
  set (fl := if w =? 0 then 0 else 1). destruct (os_check_ok f (fs_env s) fl Ho) as [Ht He].
  wp_call (env_call_ok (fun e => f e fl) s Hq Ht). intros r s1 (-> & Q1 & C1 & T1 & L1).
  destruct He as [-> | ->].
  - destruct (flag_set _ _); [|wp_run; by rewrite C1].
    pose proof (os_yield_ok (fs_env s1)) as Hy.
    eapply wp_mono; [apply (env_call_ok _ s1 Q1 Hy)|].
    intros err s2 (_ & Q2 & C2 & T2 & L2). rewrite C2, C1, L2, L1. split_and!; [done|done| |done].
    by eapply tick_trans.
  - wp_run. by rewrite C1.
Qed.

(** The generic driver is one. *)
#[export] Instance generic_drv_ok {E} `{NL : NorLaws E} (host : spi_flash_host_driver_t E) `{HL : !HostLaws host}
    (os : esp_flash_os_functions_t E) `{OL : !OsLaws os} enc polls :
  DrvLaws (esp_flash_chip_generic host os enc polls).
Proof.
  split; cbn.
  - done.
  - eexists. split; [done|]. by apply erase_sector_ok.
  - eexists. split; [done|]. by apply erase_block_ok.
  - eexists. split; [done|]. intros. by apply chip_read_ok.
  - eexists. split; [done|]. intros. by apply chip_write_ok.
  - intros f s [= <-] Hq. by apply generic_yield_ok.
  - done.
Qed.
