(* ===== verification/FlashErase.v ===== *)
(** * Erasing through the flash API

    The bus calls, and [esp_flash_erase_region]: it erases its range and nothing
    else, takes and gives back the bus for every sector or block, and flushes the
    cache before it succeeds. *)

From S2P Require Import Prelude EspErr FlashRun SpiMem SpiHost FlashChip NorChip HostLaws.
From S2P Require Import ChipWait ChipOps ChipData FlashApi FlashDrv.

(** Nothing but time passed. *)
Record rested {E} `{NorView E} (s s' : flash_st E) : Prop := {
  re_quiet : quiet s';
  re_conf : conf (fs_chip s') = conf (fs_chip s);
  re_lock : forall a, locked (fs_env s') a = locked (fs_env s) a;
  re_cell : forall a, cell (fs_env s') a = cell (fs_env s) a;
}.

(** The system never fails to give back, or to give, the bus. *)
Definition end_fine {E} (os : esp_flash_os_functions_t E) : Prop :=
  forall f e, o_end os = Some f -> snd (f e) = ESP_OK.
Definition start_fine {E} (os : esp_flash_os_functions_t E) : Prop :=
  forall f e, o_start os = Some f -> snd (f e) = ESP_OK.
Definition yield_fine {E} `{NorView E} (drv : spi_flash_chip_t E) : Prop :=
  forall f s, d_yield drv = Some f -> quiet s -> wp (f 0) s (fun err _ => err = ESP_OK).

Section BusCalls.
  Context {E : Type} `{NL : NorLaws E} (host : spi_flash_host_driver_t E) `{HL : !HostLaws host}
    (os : esp_flash_os_functions_t E) `{OL : !OsLaws os}.

Lemma rested_refl (s : flash_st E) : quiet s -> rested s s.
Proof. by split. Qed.

Lemma rested_trans (s1 s2 s3 : flash_st E) : rested s1 s2 -> rested s2 s3 -> rested s1 s3.
Proof.
  intros [_ C1 L1 A1] [Q2 C2 L2 A2]. split; [done|by rewrite C2| |].
  - intros a. by rewrite L2.
  - intros a. by rewrite A2.
Qed.

Lemma rested_tick (s s' : flash_st E) :
  quiet s' -> conf (fs_chip s') = conf (fs_chip s) -> tick (fs_env s) (fs_env s') -> rested s s'.
Proof. intros Q C T. split; [done|done|apply T|apply T]. Qed.

Lemma bus_start_ok (s : flash_st E) : quiet s ->
  wp (spiflash_start_default host os) s (fun err s' => rested s s' /\
    (fs_log s' = if is_ok err then EvStart :: fs_log s else fs_log s) /\
    (start_fine os -> err = ESP_OK)).
Proof.
  intros Hq. unfold spiflash_start_default. apply wp_bind.
  assert (wp (match o_start os with Some start => env_call start | None => mret ESP_OK end) s
    (fun err s' => rested s s' /\ fs_log s' = fs_log s /\ (start_fine os -> err = ESP_OK))) as H.
  { destruct (o_start os) as [f|] eqn:Ho; [|by wp_run; split; [apply rested_refl|]].
    eapply wp_mono; [apply (env_call_ok f s Hq), os_start_ok, Ho|].
    intros err s' (-> & Q & C & T & L). split_and!; [|done|by intros Hf; apply Hf].
    apply rested_tick; [done|by rewrite C|done]. }
  eapply wp_mono; [apply H|]. cbv beta. intros err s1 (R1 & L1 & F1).
  destruct (is_ok err) eqn:He; cbn [negb]; [|by wp_run; rewrite He].
  apply wp_bind, wp_modify.
  wp_call (host_dev_config (with_event EvStart s1) (q_buf _ (re_quiet _ _ R1))).
  intros _ s2 (S2 & E2 & C2 & L2). wp_run. cbn in E2, C2, L2. split_and!; [|by rewrite L2, L1|done].
  destruct R1 as [[Qb Q0 Qf] C1 K1 A1]. split.
  - split; [apply S2|by rewrite E2|by rewrite C2].
  - by rewrite C2.
  - intros a. by rewrite E2.
  - intros a. by rewrite E2.
Qed.

Lemma bus_end_ok err (s : flash_st E) : quiet s ->
  wp (spiflash_end_default os err) s (fun r s' => rested s s' /\ fs_log s' = EvEnd :: fs_log s /\
    (end_fine os -> r = err) /\ (r = ESP_OK -> err = ESP_OK)).
Proof.
  intros Hq. unfold spiflash_end_default. apply wp_bind.
  assert (wp (match o_end os with Some end_ => env_call end_ | None => mret ESP_OK end) s
    (fun err s' => rested s s' /\ fs_log s' = fs_log s /\ (end_fine os -> err = ESP_OK))) as H.
  { destruct (o_end os) as [f|] eqn:Ho; [|by wp_run; split; [apply rested_refl|]].
    eapply wp_mono; [apply (env_call_ok f s Hq), os_end_ok, Ho|].
    intros e s' (-> & Q & C & T & L). split_and!; [|done|by intros Hf; apply Hf].
    apply rested_tick; [done|by rewrite C|done]. }
  eapply wp_mono; [apply H|]. cbv beta. intros e s1 (R1 & L1 & F1). wp_run.
  split_and!; [|by cbn; rewrite L1| |].
  - by destruct R1 as [[Qb Q0 Qf] C1 K1 A1].
  - intros Hf. rewrite (F1 Hf). destruct (is_ok err) eqn:He; [|done]. by apply is_ok_true in He.
  - destruct (is_ok err) eqn:He; [|done]. intros _. by apply is_ok_true.
Qed.

(** The cache is flushed and the bus given back; if it is not held it is taken
    first. *)
Lemma end_flush_ok err (b : bool) a n (s0 s : flash_st E) : quiet s ->
  wp (flash_end_flush_cache host os err b a n) s (fun r s' => rested s s' /\
    (r = ESP_OK -> err = ESP_OK) /\ (start_fine os -> end_fine os -> r = err) /\
    forall d0 d, tracks d0 s0 s b d -> exists d', tracks d0 s0 s' false d' /\
      (r = ESP_OK -> is_Some (h_flush_cache host) -> d' = false)).
Proof.
  intros Hq. unfold flash_end_flush_cache. apply wp_bind.
  assert (wp (if b then mret ESP_OK else spiflash_start_default host os) s
    (fun acq s' => rested s s' /\ (start_fine os -> acq = ESP_OK) /\
       forall d0 d, tracks d0 s0 s b d -> tracks d0 s0 s' (is_ok acq) d)) as H.
  { destruct b; [by wp_run; split; [apply rested_refl|]|].
    eapply wp_mono; [apply (bus_start_ok s Hq)|]. cbv beta. intros acq s' (R & L & F).
    split_and!; [done|done|]. intros d0 d Ht. destruct (is_ok acq); [|by eapply tracks_same].
    by eapply tracks_event. }
  eapply wp_mono; [apply H|]. cbv beta. intros acq s1 (R1 & F1 & T1).
  destruct (is_ok acq) eqn:Ha; cbn [negb].
  2:{ wp_run. split_and!; [done| | |].
      - destruct (is_ok err) eqn:He; intros Hr; [by apply is_ok_true|by subst err].
      - intros Hs _. by rewrite (F1 Hs) in Ha.
      - intros d0 d Ht. exists d. split; [by apply T1|].
        destruct (is_ok err) eqn:He; intros Hr; [by subst acq|by subst err]. }
  apply wp_bind.
  assert (wp (match h_flush_cache host with
        | Some flush => flush_err ← flush a n; mret (if is_ok err then flush_err else err)
        | None => mret err end) s1 (fun e s' => e = err /\ rested s1 s' /\
          forall d0 d, tracks d0 s0 s1 true d -> exists d', tracks d0 s0 s' true d' /\
            (is_Some (h_flush_cache host) -> d' = false))) as H2.
  { destruct (h_flush_cache host) as [f|] eqn:Hf.
    - wp_call (host_flush f s1 a n Hf (q_buf _ (re_quiet _ _ R1))).
      intros e s2 (-> & D2 & C2 & T2 & L2). wp_run.
      destruct (tick_idle _ _ T2 (q_idle _ (re_quiet _ _ R1))) as [I2 _].
      split_and!.
      + destruct (is_ok err) eqn:He; [|done]. symmetry. by apply is_ok_true.
      + apply rested_tick; [|by rewrite C2|done].
        destruct (re_quiet _ _ R1). split; [by rewrite D2|done|by rewrite C2].
      + intros d0 d Ht. exists false. split; [|done]. by eapply tracks_event.
    - wp_run. split_and!; [done|by apply rested_refl, R1|].
      intros d0 d Ht. exists d. split; [done|]. by intros []. }
  eapply wp_mono; [apply H2|]. cbv beta. intros e s2 (-> & R2 & T2).
  eapply wp_mono; [apply (bus_end_ok err s2 (re_quiet _ _ R2))|]. cbv beta.
  intros r s3 (R3 & L3 & F3 & G3). split_and!.
  - eapply rested_trans; [exact R1|]. by eapply rested_trans.
  - done.
  - by intros _ Hf; apply F3.
  - intros d0 d Ht. destruct (T2 d0 d (T1 d0 d Ht)) as (d' & Ht' & Hd'). exists d'. split; [|by intros _; apply Hd'].
    by eapply tracks_event.
Qed.
End BusCalls.

(** ** The state between two pieces of a long operation *)

(** The chip is idle and its configuration and protection are those of [s0]. *)
Record kept {E} `{NorView E} (s0 s : flash_st E) : Prop := {
  kp_quiet : quiet s;
  kp_conf : conf (fs_chip s) = conf (fs_chip s0);
  kp_lock : forall a, locked (fs_env s) a = locked (fs_env s0) a;
}.

(** What an erase of [n] bytes at [a] does: nothing outside; 0xFF inside, unless
    some byte of the chip is locked. *)
Definition cleared {E} `{NorView E} (s s' : flash_st E) (a n : Z) : Prop :=
  (forall x, ~ (a <= x < a + n) -> cell (fs_env s') x = cell (fs_env s) x) /\
  (unlocked (fs_env s) 0 nor_size ->
   forall x, cell (fs_env s') x = erased (cell (fs_env s)) a n x).

(** The bus is used as it should, if giving it back never fails. *)
Definition bus_is {E} (os : esp_flash_os_functions_t E) (s0 s : flash_st E) (h : bool) : Prop :=
  end_fine os -> forall d0, exists d, tracks d0 s0 s h d.

Section Kept.
  Context {E : Type} `{NL : NorLaws E}.

Lemma kept_refl (s : flash_st E) : quiet s -> kept s s.
Proof. by split. Qed.

Lemma kept_rested (s0 s s' : flash_st E) : kept s0 s -> rested s s' -> kept s0 s'.
Proof.
  intros [_ C L] [Q' C' L' _]. split; [done|by rewrite C'|]. intros a. by rewrite L'.
Qed.

Lemma kept_steps (s0 s s' : flash_st E) : kept s0 s -> quiet s' -> steps s s' -> kept s0 s'.
Proof.
  intros [_ C L] Q' [C' _ L' _]. split; [done|by rewrite C'|]. intros a. by rewrite L'.
Qed.

Lemma unlocked_kept (s0 s : flash_st E) a n :
  kept s0 s -> unlocked (fs_env s0) a n -> unlocked (fs_env s) a n.
Proof. intros Hk Hu x Hx. rewrite (kp_lock _ _ Hk). by apply Hu. Qed.

Lemma cleared_nil (s s' : flash_st E) a :
  (forall x, cell (fs_env s') x = cell (fs_env s) x) -> cleared s s' a 0.
Proof.
  intros Hc. split; intros; rewrite Hc; [done|]. unfold erased.
  destruct (Z.leb_spec a x), (Z.ltb_spec x (a + 0)); try done; lia.
Qed.

Lemma cleared_rested (s s1 s2 : flash_st E) a n :
  cleared s s1 a n -> rested s1 s2 -> cleared s s2 a n.
Proof. intros [F C] R. split; intros; rewrite (re_cell _ _ R); auto. Qed.

Lemma cleared_step (s s1 s2 : flash_st E) a n m :
  0 <= a -> 0 <= n -> 0 <= m -> a + n + m <= nor_size -> kept s s1 -> cleared s s1 a n ->
  array_is s1 s2 (erased (cell (fs_env s1)) (a + n) m) (a + n) m -> cleared s s2 a (n + m).
Proof.
  intros Ha Hn Hm Hs Hk [F C] [A1 A2].
  assert (forall x, erased (cell (fs_env s1)) (a + n) m x =
    if (a + n <=? x) && (x <? a + n + m) then 0xFF else cell (fs_env s1) x) as He by done.
  split.
  - intros x Hx. destruct (unlocked_dec (fs_env s1) (a + n) m) as [Hu|Hu].
    + rewrite A1, He by done.
      destruct (Z.leb_spec (a + n) x), (Z.ltb_spec x (a + n + m)); cbn [andb]; try lia; apply F; lia.
    + rewrite A2 by done. apply F. lia.
  - intros Hu x. rewrite A1, He, C by (done || (intros y Hy; rewrite (kp_lock _ _ Hk); apply Hu; lia)).
    unfold erased.
    destruct (Z.leb_spec (a + n) x), (Z.ltb_spec x (a + n + m)), (Z.leb_spec a x),
      (Z.ltb_spec x (a + n)), (Z.ltb_spec x (a + (n + m))); cbn [andb]; try done; lia.
Qed.

Lemma bus_refl (os : esp_flash_os_functions_t E) (s : flash_st E) : bus_is os s s false.
Proof. intros _ d0. exists d0. apply tracks_refl. Qed.

Lemma bus_same (os : esp_flash_os_functions_t E) (s0 s s' : flash_st E) h :
  bus_is os s0 s h -> fs_log s' = fs_log s -> bus_is os s0 s' h.
Proof. intros Hb Hl Hf d0. destruct (Hb Hf d0) as [d Hd]. exists d. by eapply tracks_same. Qed.

Lemma bus_event_step (os : esp_flash_os_functions_t E) (s0 s s' : flash_st E) h h' ev :
  bus_is os s0 s h -> fs_log s' = ev :: fs_log s ->
  (forall d, exists d', bus_step (Bus h d) ev = Some (Bus h' d')) -> bus_is os s0 s' h'.
Proof.
  intros Hb Hl Hs Hf d0. destruct (Hb Hf d0) as [d Hd]. destruct (Hs d) as [d' Hd'].
  exists d'. by eapply tracks_event.
Qed.

Lemma bus_steps (os : esp_flash_os_functions_t E) (s0 s s' : flash_st E) :
  bus_is os s0 s true -> steps s s' -> bus_is os s0 s' true.
Proof. intros Hb Hs Hf d0. destruct (Hb Hf d0) as [d Hd]. by eapply tracks_steps. Qed.
End Kept.

(** The calls that the system and the driver may refuse all succeed. *)
Definition all_fine {E} `{NorView E} (os : esp_flash_os_functions_t E) (drv : spi_flash_chip_t E) : Prop :=
  start_fine os /\ end_fine os /\ yield_fine drv.

Section Pieces.
  Context {E : Type} `{NL : NorLaws E} (host : spi_flash_host_driver_t E) `{HL : !HostLaws host}
    (os : esp_flash_os_functions_t E) `{OL : !OsLaws os} (drv : spi_flash_chip_t E) `{DL : !DrvLaws drv}.

Abbreviation same s s' := (forall x, cell (fs_env s') x = cell (fs_env s) x).

Lemma yield_ok (s : flash_st E) : quiet s ->
  wp (get_yield drv) s (fun err s' => rested s s' /\ fs_log s' = fs_log s /\
    (yield_fine drv -> err = ESP_OK)).
Proof.
  intros Hq. unfold get_yield. destruct (d_yield drv) as [f|] eqn:Hy.
  2:{ wp_run. split_and!; [by apply rested_refl|done|done]. }
  destruct (wp_returns _ _ _ (drv_yield f s Hy Hq)) as (s' & err & He & Q & C & T & L).
  unfold wp. rewrite He. split_and!; [by apply rested_tick|done|].
  intros Hf. specialize (Hf f s Hy Hq). unfold wp in Hf. by rewrite He in Hf.
Qed.

(** A piece begins: the other tasks are let through and the bus is taken. *)
Lemma piece_begins {R} (early late : esp_err_t -> R) (k : prog (flash_st E) R) (s0 s : flash_st E) Q :
  kept s0 s -> bus_is os s0 s false ->
  (forall err s', kept s0 s' -> rested s s' -> bus_is os s0 s' false -> err <> ESP_OK ->
     (yield_fine drv -> False) -> Q (early err) s') ->
  (forall err s', kept s0 s' -> rested s s' -> bus_is os s0 s' false -> err <> ESP_OK ->
     (start_fine os -> False) -> Q (late err) s') ->
  (forall s', kept s0 s' -> rested s s' -> bus_is os s0 s' true -> wp k s' Q) ->
  wp (err ← get_yield drv;
      if negb (is_ok err) then mret (early err) else
      err ← spiflash_start_default host os;
      if negb (is_ok err) then mret (late err) else k) s Q.
Proof.
  intros Hk Hb He Hl Hgo. wp_call (yield_ok s (kp_quiet _ _ Hk)). intros err s1 (R1 & L1 & F1).
  pose proof (kept_rested _ _ _ Hk R1) as K1. pose proof (bus_same _ _ _ _ _ Hb L1) as B1.
  destruct (is_ok err) eqn:Herr; cbn [negb].
  2:{ wp_run. apply He; try done; intros Hf; [by subst err|by rewrite F1 in Herr]. }
  wp_call (bus_start_ok host os s1 (kp_quiet _ _ K1)). intros err2 s2 (R2 & L2 & F2).
  pose proof (kept_rested _ _ _ K1 R2) as K2. pose proof (rested_trans _ _ _ R1 R2) as R12.
  destruct (is_ok err2) eqn:Herr2; cbn [negb].
  2:{ wp_run. apply Hl; try done; [by eapply bus_same|..]; intros Hf; [by subst err2|by rewrite F2 in Herr2]. }
  apply Hgo; [done|done|]. eapply bus_event_step; [exact B1|exact L2|]. intros d. by exists d.
Qed.

(** A piece ends: the bus is given back. *)
Lemma piece_ends {R} (late : esp_err_t -> R) (k : prog (flash_st E) R) (s0 s : flash_st E) Q :
  kept s0 s -> bus_is os s0 s true ->
  (forall err s', kept s0 s' -> rested s s' -> (end_fine os -> False) -> err <> ESP_OK ->
     wp (mret (late err)) s' Q) ->
  (forall s', kept s0 s' -> rested s s' -> bus_is os s0 s' false -> wp k s' Q) ->
  wp (err ← spiflash_end_default os ESP_OK;
      if negb (is_ok err) then mret (late err) else k) s Q.
Proof.
  intros Hk Hb Hl Hgo. wp_call (bus_end_ok os ESP_OK s (kp_quiet _ _ Hk)). intros err s1 (R1 & L1 & F1 & _).
  pose proof (kept_rested _ _ _ Hk R1) as K1.
  destruct (is_ok err) eqn:Herr; cbn [negb].
  - apply Hgo; [done|done|]. eapply bus_event_step; [exact Hb|exact L1|]. intros d. by exists d.
  - apply Hl; try done; intros Hf; [by rewrite F1 in Herr|by subst err].
Qed.
End Pieces.

Section Erase.
  Context {E : Type} `{NL : NorLaws E} (host : spi_flash_host_driver_t E) `{HL : !HostLaws host}
    (os : esp_flash_os_functions_t E) `{OL : !OsLaws os} (drv : spi_flash_chip_t E) `{DL : !DrvLaws drv}
    (erase_sector erase_block : Z -> prog (flash_st E) esp_err_t)
    (Hsector : erases erase_sector (d_sector_size drv)) (Hblock : erases erase_block (d_block_erase_size drv))
    (s0 : flash_st E) (start len : Z).

(** What the loop has done when it is left, with [b] whether the bus is held. *)
Definition erase_left (r : esp_err_t + esp_err_t * bool) (s : flash_st E) : Prop :=
  kept s0 s /\ (exists n, 0 <= n <= len /\ cleared s0 s start n) /\
  match r with
  | inl err => err <> ESP_OK /\ bus_is os s0 s false
  | inr (err, b) => bus_is os s0 s b /\ (err = ESP_OK -> b = true /\ cleared s0 s start len)
  end /\
  (all_fine os drv -> exists b, r = inr (ESP_OK, b)).

Lemma erase_step (whole : bool) a (s : flash_st E) : quiet s -> 0 <= a ->
  let step := if whole then d_block_erase_size drv else d_sector_size drv in
  a + step <= nor_size -> a mod step = 0 ->
  wp (if whole then erase_block a else erase_sector a) s (fun err s' =>
    err = ESP_OK /\ quiet s' /\ steps s s' /\ array_is s s' (erased (cell (fs_env s)) a step) a step).
Proof. destruct whole; cbn; intros; [by apply Hblock|by apply Hsector]. Qed.

Lemma erase_loop_ok (n : nat) done (s : flash_st E) :
  0 <= start -> start + len <= nor_size -> start mod d_sector_size drv = 0 ->
  len mod d_sector_size drv = 0 -> done mod d_sector_size drv = 0 ->
  0 <= done < len -> len - done <= n * d_sector_size drv ->
  kept s0 s -> bus_is os s0 s false -> cleared s0 s start done ->
  wp (erase_loop host os drv erase_sector erase_block n (start + done) (len - done) len false) s erase_left.
Proof.
  destruct nor_size_ok as [_ Hnor]. destruct drv_sizes as (Hsec & Hblk & Hdiv).
  set (sec := d_sector_size drv) in *. set (blk := d_block_erase_size drv) in *.
  intros Hst Hsl Hsm Hlm. revert done s.
  induction n as [|n IH]; intros done s Hdm Hd Hfuel Hk Hb Hc; [lia|]. cbn [erase_loop].
  assert (exists n, 0 <= n <= len /\ cleared s0 s start n) as Hpart by (exists done; split; [lia|done]).
  apply (piece_begins host os drv inl (fun e => inr (e, false)) _ s0 s); [done|done|..].
  { intros err s1 K1 R1 B1 He Hf. split_and!; try done; [|by intros (_ & _ & Hy)].
    exists done. split; [lia|by eapply cleared_rested]. }
  { intros err s1 K1 R1 B1 He Hf. split_and!; try done; [|by intros (Hs & _ & _)].
    exists done. split; [lia|by eapply cleared_rested]. }
  intros s1 K1 R1 B1. cbv zeta.
  set (whole := (0 <? _) && _ && _).
  set (step := if whole then d_block_erase_size drv else d_sector_size drv).
  assert (sec <= step <= len - done /\ (start + done) mod step = 0 /\ step mod sec = 0) as (Hstep & Hal & Hsd).
  { subst step whole. fold sec blk.
    assert (len - done >= sec) as Hge.
    { pose proof (Z.div_mod len sec). pose proof (Z.div_mod done sec).
      assert (len / sec > done / sec) by nia. nia. }
    assert ((start + done) mod sec = 0) by (rewrite Z.add_mod, Hsm, Hdm by lia; apply Z.mod_0_l; lia).
    destruct (Z.ltb_spec 0 blk), (Z.leb_spec blk (len - done)), (Z.eqb_spec ((start + done) mod blk) 0);
      cbn [andb]; split_and!; try lia; try done; by apply Z.mod_same; lia. }
  apply wp_bind.
  wp_call (erase_step whole (start + done) s1 (kp_quiet _ _ K1)); [lia|fold step; lia|done|].
  fold step. intros err s2 (-> & Q2 & S2 & A2).
  assert (kept s0 s2) as K2 by by eapply kept_steps.
  assert (bus_is os s0 s2 true) as B2 by by eapply bus_steps.
  assert (cleared s0 s2 start (done + step)) as C2.
  { eapply cleared_step; [lia|lia|lia|lia|exact K1|by eapply cleared_rested|done]. }
  rewrite (u32_small (start + done + step)), (u32_small (len - done - step)) by lia.
  wp_run; [apply Z.ltb_lt; lia|]. cbn [is_ok negb orb].
  destruct (Z.eqb_spec (len - done - step) 0).
  { wp_run. replace (done + step) with len in C2 by lia. split_and!; try done; [|by exists true].
    exists len. split; [lia|done]. }
  apply (piece_ends os (fun e => inr (e, true)) _ s0 s2); [done|done|..].
  - intros err s3 K3 R3 Hf He. wp_run. split_and!; [done| | |done|].
    + exists (done + step). split; [lia|by eapply cleared_rested].
    + intros Hf'. by destruct (Hf Hf').
    + by intros (_ & Hf' & _).
  - intros s3 K3 R3 B3. replace (start + done + step) with (start + (done + step)) by lia.
    replace (len - done - step) with (len - (done + step)) by lia.
    apply IH; [|lia|lia|done|done|by eapply cleared_rested].
    rewrite Z.add_mod, Hdm, Hsd by lia. apply Z.mod_0_l. lia.
Qed.
End Erase.

(** ** The whole call *)

Section Region.
  Context {E : Type} `{NL : NorLaws E} (host : spi_flash_host_driver_t E) `{HL : !HostLaws host}
    (os : esp_flash_os_functions_t E) `{OL : !OsLaws os} (registered : list (spi_flash_chip_t E))
    (esp_flash_default_chip : chip_ptr) (WRITE_ABORTS : bool).

(** The check of an address does not call [abort]. *)
Definition check_returns (s : flash_st E) (a n : Z) : Prop :=
  WRITE_ABORTS = false \/
  forall f, o_region_protected os = Some f ->
    f (fs_env s) a n = ESP_OK \/ f (fs_env s) a n = ESP_ERR_NOT_ALLOWED.

(** No part of the chip is refused to the caller. *)
Definition unrestricted (drv : spi_flash_chip_t E) : Prop :=
  o_region_protected os = None /\ d_get_protected_regions drv = None.

Lemma check_write_address_ok a n (s : flash_st E) : check_returns s a n ->
  wp (check_write_address os WRITE_ABORTS a n) s (fun c s' => s' = s /\
    (forall err, c = Some err -> err <> ESP_OK /\ o_region_protected os <> None)).
Proof.
  intros Hc. unfold check_write_address. destruct (o_region_protected os) as [f|] eqn:Ho; [|by wp_run].
  wp_run. destruct Hc as [-> | Hc]; [|destruct (Hc f Ho) as [-> | ->]; by wp_run; split; [|by intros ? [= <-] ]].
  assert (forall e : esp_err_t, e <> ESP_OK -> wp (mret (Some e)) s (fun c s' => s' = s /\
    (forall err, c = Some err -> err <> ESP_OK /\ Some f <> None))) as Hr
    by (intros e He; wp_run; split; [done|]; by intros ? [= <-]).
  destruct (f (fs_env s) a n); by (apply Hr || (wp_run; split)).
Qed.

Lemma on_bus_ok (op : prog (flash_st E) esp_err_t) (s0 s : flash_st E) :
  kept s0 s -> bus_is os s0 s false ->
  (forall s1, quiet s1 -> wp op s1 (fun _ s2 => quiet s2 /\ steps s1 s2 /\ tick (fs_env s1) (fs_env s2))) ->
  wp (on_bus_ host os op) s (fun err s' => kept s0 s' /\ rested s s' /\ bus_is os s0 s' false).
Proof.
  intros Hk Hb Hop. unfold on_bus_.
  wp_call (bus_start_ok host os s (kp_quiet _ _ Hk)). intros err s1 (R1 & L1 & _).
  pose proof (kept_rested _ _ _ Hk R1) as K1.
  destruct (is_ok err) eqn:Herr; cbn [negb].
  2:{ wp_run. split_and!; [done|done|by eapply bus_same]. }
  wp_call (Hop s1 (kp_quiet _ _ K1)). intros err2 s2 (Q2 & S2 & T2).
  assert (rested s1 s2) as R2 by (apply rested_tick; [done|apply S2|done]).
  pose proof (kept_rested _ _ _ K1 R2) as K2.
  eapply wp_mono; [apply (bus_end_ok os err2 s2 (kp_quiet _ _ K2))|]. cbv beta. intros r s3 (R3 & L3 & _).
  split_and!.
  - by eapply kept_rested.
  - eapply rested_trans; [exact R1|]. by eapply rested_trans.
  - eapply (bus_event_step os s0 s2 s3 true false); [|exact L3|intros d; by exists d].
    apply (bus_steps os s0 s1 s2); [|done].
    eapply bus_event_step; [exact Hb|exact L1|]. intros d. by exists d.
Qed.

Lemma check_protected_ok (drv : spi_flash_chip_t E) `{DL : !DrvLaws drv} a n (s : flash_st E) : quiet s ->
  wp (check_protected_regions host os drv a n) s (fun err s' => kept s s' /\ rested s s' /\
    bus_is os s s' false /\ (d_get_protected_regions drv = None -> err = ESP_OK)).
Proof.
  intros Hq. unfold check_protected_regions.
  assert (bus_is os s s false) as Hb by apply bus_refl.
  assert (kept s s /\ rested s s) as [Hk Hr] by (split; [by apply kept_refl|by apply rested_refl]).
  destruct (d_get_protected_regions drv) as [f|] eqn:Hd; [|by wp_run].
  destruct (length _ =? 0)%nat; [by wp_run|].
  eapply wp_mono; [apply (on_bus_ok _ s s Hk Hb)|by intros err s' (? & ? & ?)].
  intros s1 Q1. wp_call (drv_regions f s1 Hd Q1). intros r s2 H2. by wp_run.
Qed.

Definition aligned (drv : spi_flash_chip_t E) (start len : Z) : Prop :=
  start mod d_sector_size drv = 0 /\ len mod d_sector_size drv = 0.

(** What a call that changes [len] bytes at [start] does in any case: [done s' n]
    says that the first [n] bytes are done. *)
Record changed (s s' : flash_st E) (err : esp_err_t) (start len : Z) (done : flash_st E -> Z -> Prop) : Prop := {
  ch_kept : kept s s';
  ch_part : exists n, 0 <= n <= len /\ done s' n;
  ch_ok : err = ESP_OK -> done s' len;
  ch_bus : bus_is os s s' false;
  ch_flushed : err = ESP_OK -> 0 < len -> is_Some (h_flush_cache host) -> end_fine os ->
    forall d0, tracks d0 s s' false false;
}.

Lemma unchanged (s s' : flash_st E) err start len done :
  kept s s' -> bus_is os s s' false -> 0 <= len -> done s' 0 -> err <> ESP_OK \/ len = 0 ->
  changed s s' err start len done.
Proof.
  intros Hk Hb Hl Hd He. split; [done|by exists 0|..|done|].
  - intros ->. by destruct He as [ | -> ].
  - intros ->. destruct He; [done|lia].
Qed.

(** The end of a call: what was done is kept while the cache is flushed. *)
Lemma flushed_ok err (b : bool) start len done (s0 s : flash_st E) :
  (forall s1 s2 n, done s1 n -> rested s1 s2 -> done s2 n) ->
  kept s0 s -> bus_is os s0 s b -> (exists n, 0 <= n <= len /\ done s n) ->
  (err = ESP_OK -> done s len) ->
  wp (flash_end_flush_cache host os err b start len) s (fun r s' =>
    changed s0 s' r start len done /\ (r = ESP_OK -> err = ESP_OK) /\
    (start_fine os -> end_fine os -> r = err)).
Proof.
  intros Hdone Hk Hb (n & Hn & Hp) Hok.
  eapply wp_mono; [apply (end_flush_ok host os err b start len s0 s (kp_quiet _ _ Hk))|].
  cbv beta. intros r s' (R & E1 & E2 & T). split_and!; [|done|done]. split.
  - by eapply kept_rested.
  - exists n. split; [done|by eapply Hdone].
  - intros Hr. eapply Hdone; [by apply Hok, E1|done].
  - intros Hf d0. destruct (Hb Hf d0) as [d Hd]. destruct (T d0 d Hd) as (d' & Hd' & _). by exists d'.
  - intros Hr _ Hfl Hf d0. destruct (Hb Hf d0) as [d Hd]. destruct (T d0 d Hd) as (d' & Hd' & Hc).
    by rewrite (Hc Hr Hfl) in Hd'.
Qed.

Lemma erase_region_ok (drv : spi_flash_chip_t E) `{DL : !DrvLaws drv} chip start len (s : flash_st E) :
  resolve_chip esp_flash_default_chip chip = CChip -> driver_of registered s = Some drv ->
  quiet s -> size (fs_chip s) <= nor_size -> check_returns s start len ->
  0 <= start -> 0 <= len -> start + len < 2 ^ 32 ->
  wp (esp_flash_erase_region host os registered esp_flash_default_chip WRITE_ABORTS chip start len) s
    (fun err s' => changed s s' err start len (fun s' n => cleared s s' start n) /\
      (err = ESP_OK -> aligned drv start len /\ start + len <= size (fs_chip s)) /\
      (all_fine os drv -> unrestricted drv -> aligned drv start len -> start + len <= size (fs_chip s) ->
       err = ESP_OK)).
Proof.
  intros Hch Hdrv Hq Hsize Hret Hst Hlen Hw. destruct nor_size_ok as [_ Hnor].
  destruct drv_sizes as (Hsec & Hblk & Hdiv).
  destruct drv_erase_sector as (es & Hes & Hsector). destruct drv_erase_block as (eb & Heb & Hblock).
  assert (kept s s) as Hk by by apply kept_refl.
  assert (bus_is os s s false) as Hb by apply bus_refl.
  assert (forall err, err <> ESP_OK \/ len = 0 ->
    changed s s err start len (fun s' n => cleared s s' start n)) as Hun.
  { intros err He. apply unchanged; try done. by apply cleared_nil. }
  unfold esp_flash_erase_region, with_driver, check_chip_pointer_default. rewrite Hch. wp_run. rewrite Hdrv.
  unfold verify_op. rewrite Hes, Heb.
  wp_call (check_write_address_ok start len s Hret). intros c s' (-> & Hc).
  destruct c as [err|].
  { wp_run. destruct (Hc err eq_refl) as [He Hp]. split_and!; [by apply Hun; left|done|by intros _ [] ]. }
  wp_run. rewrite (u32_small (start + len)) by lia. rewrite Hdiv.
  destruct (Z.eqb_spec (d_sector_size drv) 0); [lia|]. cbn [orb negb Z.eqb].
  destruct (Z.ltb_spec (size (fs_chip s)) start), (Z.ltb_spec (size (fs_chip s)) (start + len)); cbn [orb];
    try (wp_run; split_and!; [by apply Hun; left|done|intros; lia]).
  unfold aligned.
  destruct (Z.eqb_spec (start mod d_sector_size drv) 0) as [Hsm|Hsm],
    (Z.eqb_spec (len mod d_sector_size drv) 0) as [Hlm|Hlm]; cbn [orb negb];
    try (wp_run; split_and!; [by apply Hun; left|done|by intros _ _ [] ]).
  destruct (Z.eqb_spec len 0) as [Hl0|Hl0].
  { wp_run. split_and!; [by apply Hun; right|done|done]. }
  wp_call (check_protected_ok drv start len s Hq). intros err s1 (K1 & R1 & B1 & F1).
  assert (cleared s s1 start 0) as C1 by (eapply cleared_rested; [by apply (cleared_nil s s)|done]).
  destruct (is_ok err) eqn:Herr; cbn [negb].
  2:{ wp_run. split_and!.
      - apply unchanged; try done. left. by intros ->.
      - by intros ->.
      - intros _ [_ Hp]. by rewrite F1 in Herr. }
  assert (len - 0 <= Z.to_nat (len / d_sector_size drv) * d_sector_size drv) as Hfuel.
  { pose proof (Z.div_mod len (d_sector_size drv)). pose proof (Z.div_pos len (d_sector_size drv)). nia. }
  pose proof (erase_loop_ok host os drv es eb Hsector Hblock s start len _ 0 s1 Hst ltac:(lia) Hsm Hlm
    (Z.mod_0_l _ n) ltac:(lia) Hfuel K1 B1 C1) as Hloop.
  rewrite Z.add_0_r, Z.sub_0_r in Hloop. wp_call Hloop.
  intros [err2|[err2 b]] s2 (K2 & P2 & H2 & F2).
  - destruct H2 as [He2 B2]. wp_run. split_and!; [|done|].
    + by split.
    + intros Hf. destruct (F2 Hf) as [b Hb2]. done.
  - destruct H2 as [B2 O2].
    eapply wp_mono; [apply (flushed_ok err2 b start len (fun s' n => cleared s s' start n) s s2)|].
    + intros. by eapply cleared_rested.
    + done.
    + done.
    + done.
    + intros He. by apply O2.
    + cbv beta. intros r s3 (H3 & E3 & G3). split_and!; [done|done|].
      intros (Hs & He & Hy) _ _ _. destruct (F2 (conj Hs (conj He Hy))) as [b' [= -> ->]]. by apply G3.
Qed.
End Region.
