(* ===== verification/FlashWrite.v ===== *)
(** * Writing and reading through the flash API

    [esp_flash_write] programs its bytes and nothing else, chunk by chunk, and
    flushes the cache before it succeeds; [esp_flash_read] returns the bytes of the
    array and changes nothing. *)

From S2P Require Import Prelude EspErr FlashRun SpiMem SpiHost FlashChip NorChip HostLaws.
From S2P Require Import ChipWait ChipOps ChipData FlashApi FlashDrv FlashErase.

Section Written.
  Context {E : Type} `{NL : NorLaws E}.

Lemma written_rested (s s1 s2 : flash_st E) a bs :
  written s s1 a bs -> rested s1 s2 -> written s s2 a bs.
Proof. intros [F W] R. split; intros; rewrite (re_cell _ _ R); auto. Qed.

Lemma written_before (s s1 s2 : flash_st E) a bs :
  kept s s1 -> rested s s1 -> written s1 s2 a bs -> written s s2 a bs.
Proof.
  intros Hk R [F W]. split.
  - intros x Hx. by rewrite F, (re_cell _ _ R).
  - intros Hu x. rewrite W by by eapply unlocked_kept. apply programmed_ext, (re_cell _ _ R).
Qed.

Lemma written_step (s s1 s2 : flash_st E) a b1 b2 :
  kept s s1 -> written s s1 a b1 -> written s1 s2 (a + length b1) b2 -> written s s2 a (b1 ++ b2).
Proof.
  intros Hk [F1 W1] [F2 W2]. split.
  - intros x Hx. rewrite length_app in Hx. rewrite F2, F1 by lia. done.
  - intros Hu x. rewrite W2 by by eapply unlocked_kept.
    rewrite <- programmed_app. by apply programmed_ext, W1.
Qed.
End Written.

Section Write.
  Context {E : Type} `{NL : NorLaws E} (host : spi_flash_host_driver_t E) `{HL : !HostLaws host}
    (os : esp_flash_os_functions_t E) `{OL : !OsLaws os} (drv : spi_flash_chip_t E) `{DL : !DrvLaws drv}
    (write : list Z -> Z -> Z -> prog (flash_st E) esp_err_t)
    (Hwrite : forall bs s a (n : nat), quiet s -> Forall (in_range 8) bs -> (n <= length bs)%nat ->
       0 <= a -> a + n <= nor_size ->
       wp (write bs a n) s (fun err s' => err = ESP_OK /\ quiet s' /\ steps s s' /\
         written s s' a (take n bs)))
    (s0 : flash_st E) (start : Z) (bytes : list Z) (len : nat).

(** The first [n] bytes are written. *)
Definition wrote (s : flash_st E) (n : Z) : Prop := written s0 s start (take (Z.to_nat n) bytes).

(** What the loop has done when it is left. *)
Definition write_left (r : esp_err_t + esp_err_t * bool * bool) (s : flash_st E) : Prop :=
  kept s0 s /\ (exists n, 0 <= n <= len /\ wrote s n) /\
  match r with
  | inl err => err <> ESP_OK /\ bus_is os s0 s false
  | inr (err, b, restore_cache) => bus_is os s0 s b /\
      (if (restore_cache : bool) then err <> ESP_OK else err = ESP_OK /\ wrote s len)
  end /\
  (all_fine os drv -> exists b, r = inr (ESP_OK, b, false)).

Lemma write_chunks_ok chunk (n done : nat) (s : flash_st E) :
  0 <= start -> start + len <= nor_size -> (len <= length bytes)%nat -> Forall (in_range 8) bytes ->
  0 < chunk -> (done < len <= done + n)%nat ->
  kept s0 s -> bus_is os s0 s false -> wrote s done ->
  wp (write_chunks host os drv write chunk n (drop done bytes) (start + done) (len - done) len false) s
    write_left.
Proof.
  destruct nor_size_ok as [_ Hnor]. intros Hst Hsl Hbl Hbr Hch. revert done s.
  induction n as [|n IH]; intros done s Hd Hk Hb Hc; [lia|]. cbn [write_chunks].
  assert (forall s1, rested s s1 -> exists n, 0 <= n <= len /\ wrote s1 n) as Hpart.
  { intros s1 R1. exists done. split; [lia|by eapply written_rested]. }
  apply (piece_begins host os drv inl (fun e => inr (e, false, true)) _ s0 s); [done|done|..].
  { intros err s1 K1 R1 B1 He Hf. split_and!; [done|by apply Hpart|done|done|by intros (_ & _ & Hy)]. }
  { intros err s1 K1 R1 B1 He Hf. split_and!; [done|by apply Hpart|done|done|by intros (Hs & _ & _)]. }
  intros s1 K1 R1 B1.
  set (wl := Z.to_nat (Z.min (len - done) chunk)).
  replace (Z.min (len - done) chunk) with (Z.of_nat wl) by lia.
  assert (length (take wl (drop done bytes)) = wl) as Hwl by (rewrite length_take, length_drop; lia).
  apply wp_bind.
  wp_call (Hwrite (take wl (drop done bytes)) s1 (start + done) wl (kp_quiet _ _ K1)
    ltac:(by apply Forall_take, Forall_drop) ltac:(lia) ltac:(lia) ltac:(lia)).
  intros err s2 (-> & Q2 & S2 & W2). rewrite take_take, Nat.min_id in W2.
  assert (kept s0 s2) as K2 by by eapply kept_steps.
  assert (bus_is os s0 s2 true) as B2 by by eapply bus_steps.
  assert (wrote s2 (done + wl)%nat) as C2.
  { unfold wrote in *. rewrite Nat2Z.id in *. rewrite <- take_take_drop.
    eapply written_step; [exact K1|by eapply written_rested|].
    by rewrite length_take, Nat.min_l by lia. }
  rewrite (u32_small (start + done + wl)), (u32_small (len - done - wl)) by lia.
  wp_run; [apply Z.ltb_lt; lia|]. cbn [is_ok negb].
  destruct (Z.eqb_spec (len - done - wl) 0).
  { wp_run. replace (done + wl)%nat with len in C2 by lia.
    split_and!; [done|by exists len; split; [lia|]|done|done|done|by exists true]. }
  apply (piece_ends os (fun e => inr (e, true, true)) _ s0 s2); [done|done|..].
  - intros err s3 K3 R3 Hf He. wp_run. split_and!; [done| | |done|].
    + exists (done + wl)%nat. split; [lia|by eapply written_rested].
    + intros Hf'. by destruct (Hf Hf').
    + by intros (_ & Hf' & _).
  - intros s3 K3 R3 B3. rewrite drop_drop.
    replace (start + done + wl) with (start + (done + wl)%nat) by lia.
    replace (len - done - wl) with (len - (done + wl)%nat) by lia.
    apply IH; [lia|done|done|by eapply written_rested].
Qed.
End Write.

Section Region.
  Context {E : Type} `{NL : NorLaws E} (host : spi_flash_host_driver_t E) `{HL : !HostLaws host}
    (os : esp_flash_os_functions_t E) `{OL : !OsLaws os} (registered : list (spi_flash_chip_t E))
    (esp_flash_default_chip : chip_ptr) (WRITE_ABORTS : bool).

Lemma write_region_ok (drv : spi_flash_chip_t E) `{DL : !DrvLaws drv} chip in_dram bytes start (len : nat) (s : flash_st E) :
  resolve_chip esp_flash_default_chip chip = CChip -> driver_of registered s = Some drv ->
  quiet s -> size (fs_chip s) <= nor_size -> check_returns os WRITE_ABORTS s start len ->
  0 <= start -> (len <= length bytes)%nat -> Forall (in_range 8) bytes -> start + len < 2 ^ 32 ->
  wp (esp_flash_write host os registered esp_flash_default_chip WRITE_ABORTS chip
        (Some (in_dram, bytes)) start len) s
    (fun err s' => changed host os s s' err start len (wrote s start bytes) /\
      (err = ESP_OK -> start + len <= size (fs_chip s)) /\
      (all_fine os drv -> unrestricted os drv -> start + len <= size (fs_chip s) -> err = ESP_OK)).
Proof.
  intros Hch Hdrv Hq Hsize Hret Hst Hlen Hbr Hw. destruct nor_size_ok as [_ Hnor].
  destruct drv_write as (w & Hwf & Hwrite).
  assert (kept s s) as Hk by by apply kept_refl.
  assert (bus_is os s s false) as Hb by apply bus_refl.
  assert (wrote s start bytes s 0) as Hw0 by by apply written_refl.
  assert (forall err, err <> ESP_OK \/ Z.of_nat len = 0 ->
    changed host os s s err start len (wrote s start bytes)) as Hun.
  { intros err He. apply unchanged; try done. lia. }
  unfold esp_flash_write, with_driver, check_chip_pointer_default. rewrite Hch. wp_run. rewrite Hdrv.
  unfold verify_op. rewrite Hwf.
  wp_call (check_write_address_ok os WRITE_ABORTS start len s Hret). intros c s' (-> & Hc).
  destruct c as [err|].
  { wp_run. destruct (Hc err eq_refl) as [He Hp]. split_and!; [by apply Hun; left|done|by intros _ [] ]. }
  wp_run. rewrite (u32_small (start + len)) by lia.
  destruct (Z.ltb_spec (size (fs_chip s)) start), (Z.ltb_spec (size (fs_chip s)) (start + len)); cbn [orb];
    try (wp_run; split_and!; [by apply Hun; left|done|intros; lia]).
  destruct (Z.eqb_spec len 0) as [Hl0|Hl0].
  { wp_run. split_and!; [by apply Hun; right|done|done]. }
  set (chunk := if in_dram || h_supports_direct_write host then MAX_WRITE_CHUNK else TEMP_BUF).
  assert (0 < chunk) as Hchunk by (subst chunk; by destruct (_ || _)).
  pose proof (write_chunks_ok host os drv w Hwrite s start bytes len chunk (Z.to_nat len) 0 s Hst
    ltac:(lia) Hlen Hbr Hchunk ltac:(lia) Hk Hb Hw0) as Hloop.
  rewrite Z.add_0_r, Z.sub_0_r, drop_0 in Hloop. wp_call Hloop.
  intros [err2|[[err2 b] restore_cache]] s2 (K2 & P2 & H2 & F2).
  - destruct H2 as [He2 B2]. wp_run. split_and!; [by split|done|].
    intros Hf. by destruct (F2 Hf) as [b Hb2].
  - destruct H2 as [B2 O2].
    assert (err2 = ESP_OK -> wrote s start bytes s2 len) as Hok.
    { intros He. destruct restore_cache; [done|by destruct O2]. }
    wp_call (flushed_ok host os err2 b start len (wrote s start bytes) s s2
      ltac:(intros; by eapply written_rested) K2 B2 P2 Hok).
    intros r s3 (H3 & E3 & G3). wp_run. split_and!; [|done|].
    + destruct restore_cache; [|done]. destruct H3 as [K3 P3 _ B3 _]. by split.
    + intros Hf _ _. destruct (F2 Hf) as [b' [= -> -> ->]]. destruct Hf as (Hs & He & _). by apply G3.
Qed.
End Region.

(** ** Reading *)

(** What a read has done when it returns [r]. *)
Record has_read {E} `{NorView E} (os : esp_flash_os_functions_t E) (s s' : flash_st E) (start : Z) (len : nat)
    (r : esp_err_t * list Z) : Prop := {
  rd_kept : kept s s';
  rd_same : forall x, cell (fs_env s') x = cell (fs_env s) x;
  rd_bus : bus_is os s s' false;
  rd_part : exists n, (n <= len)%nat /\ r.2 = cells (fs_env s) start n;
  rd_ok : r.1 = ESP_OK -> r.2 = cells (fs_env s) start len;
}.

Section Read.
  Context {E : Type} `{NL : NorLaws E} (host : spi_flash_host_driver_t E) `{HL : !HostLaws host}
    (os : esp_flash_os_functions_t E) `{OL : !OsLaws os} (drv : spi_flash_chip_t E) `{DL : !DrvLaws drv}
    (read : Z -> Z -> prog (flash_st E) (esp_err_t * list Z))
    (Hread : forall s a (n : nat), quiet s -> readable (fs_chip s) -> 0 <= a -> a + n <= nor_size ->
       wp (read a n) s (fun r s' => r = (ESP_OK, cells (fs_env s) a n) /\ quiet s' /\ steps s s' /\
         tick (fs_env s) (fs_env s')))
    (s0 : flash_st E) (start : Z) (len : nat).

Lemma readable_kept (s : flash_st E) : kept s0 s -> readable (fs_chip s0) -> readable (fs_chip s).
Proof.
  intros [_ C _]. unfold conf in C. unfold readable.
  assert (read_mode (fs_chip s) = read_mode (fs_chip s0) /\
    hpm_dummy_ena (fs_chip s) = hpm_dummy_ena (fs_chip s0)) as [-> ->] by by simplify_eq.
  done.
Qed.

Lemma cells_take e a (n k : nat) : (k <= n)%nat -> take k (cells e a n) = cells e a k.
Proof. intros Hk. rewrite (cells_split _ _ n k) by done. apply take_app_length'. by rewrite cells_length. Qed.

Lemma read_chunks_ok chunk (n done : nat) (s : flash_st E) :
  0 <= start -> start + len <= nor_size -> readable (fs_chip s0) ->
  0 < chunk -> (done < len <= done + n)%nat ->
  rested s0 s -> bus_is os s0 s false ->
  wp (read_chunks host os n read chunk (start + done) (len - done) (cells (fs_env s0) start done)) s
    (fun r s' => has_read os s0 s' start len r /\ (all_fine os drv -> r.1 = ESP_OK)).
Proof.
  destruct nor_size_ok as [_ Hnor]. intros Hst Hsl Hrd Hch. revert done s.
  assert (forall s, rested s0 s -> kept s0 s) as Hkept by by intros s [].
  induction n as [|n IH]; intros done s Hd R0 B0; [lia|]. cbn [read_chunks].
  wp_call (bus_start_ok host os s (re_quiet _ _ R0)). intros err s1 (R1 & L1 & F1).
  pose proof (rested_trans _ _ _ R0 R1) as R01.
  destruct (is_ok err) eqn:Herr; cbn [negb].
  2:{ wp_run. split.
      - split; [by apply Hkept|apply R01|by eapply bus_same|by exists done; split; [lia|]|].
        cbn. by intros ->.
      - intros (Hs & _). by rewrite F1 in Herr. }
  assert (bus_is os s0 s1 true) as B1.
  { eapply bus_event_step; [exact B0|exact L1|]. intros d. by exists d. }
  set (k := Z.to_nat (Z.min chunk (len - done))).
  replace (Z.min chunk (len - done)) with (Z.of_nat k) by lia. apply wp_bind.
  wp_call (Hread s1 (start + done) k (re_quiet _ _ R1) (readable_kept _ (Hkept _ R01) Hrd)
    ltac:(lia) ltac:(lia)).
  intros r s2 (-> & Q2 & S2 & T2). cbn [fst snd is_ok negb].
  assert (rested s0 s2) as R02.
  { eapply rested_trans; [exact R01|]. apply rested_tick; [done|apply S2|done]. }
  assert (cells (fs_env s0) start done ++ cells (fs_env s1) (start + done) k
    = cells (fs_env s0) start (done + k)) as Hcells.
  { rewrite (cells_split _ start (done + k) done) by lia. f_equal.
    replace (done + k - done)%nat with k by lia. apply cells_ext, R01. }
  wp_call (bus_end_ok os ESP_OK s2 Q2). intros err3 s3 (R3 & L3 & F3 & _).
  pose proof (rested_trans _ _ _ R02 R3) as R03.
  assert (bus_is os s0 s3 false) as B3.
  { eapply (bus_event_step os s0 s2 s3 true false); [by eapply bus_steps|exact L3|intros d; by exists d]. }
  rewrite Hcells, (u32_small (len - done - k)), (u32_small (start + done + k)) by lia.
  destruct (Z.ltb_spec 0 (len - done - k)); rewrite ?andb_true_r, ?andb_false_r.
  - destruct (is_ok err3) eqn:Herr3.
    + replace (start + done + k) with (start + (done + k)%nat) by lia.
      replace (len - done - k) with (len - (done + k)%nat) by lia. by apply IH; [lia|..].
    + wp_run. split.
      * split; [by apply Hkept|apply R03|done|by exists (done + k)%nat; split; [lia|]|].
        cbn. by intros ->.
      * intros (_ & He & _). by rewrite F3 in Herr3.
  - wp_run. replace (done + k)%nat with len by lia. split; [|by intros (_ & He & _); apply F3].
    split; [by apply Hkept|apply R03|done|by exists len|done].
Qed.


(** There is memory to read through when the buffer cannot be read into. *)
Definition buffer_ready (in_dram : bool) : Prop :=
  in_dram || h_supports_direct_read host = true \/
  exists f, o_get_temp_buffer os = Some f /\ forall e n, snd (f e n) <> None.
End Read.

Lemma read_region_ok {E} `{NL : NorLaws E} (host : spi_flash_host_driver_t E) `{HL : !HostLaws host}
    (os : esp_flash_os_functions_t E) `{OL : !OsLaws os} (registered : list (spi_flash_chip_t E))
    (esp_flash_default_chip : chip_ptr) (drv : spi_flash_chip_t E) `{DL : !DrvLaws drv}
    chip in_dram start (len : nat) (s : flash_st E) :
  resolve_chip esp_flash_default_chip chip = CChip -> driver_of registered s = Some drv ->
  quiet s -> readable (fs_chip s) -> size (fs_chip s) <= nor_size -> 0 <= start -> start + len < 2 ^ 32 ->
  wp (esp_flash_read host os registered esp_flash_default_chip chip (Some in_dram) start len) s
    (fun r s' => has_read os s s' start len r /\
      (r.1 = ESP_OK -> start + len <= size (fs_chip s)) /\
      (all_fine os drv -> buffer_ready host os in_dram -> start + len <= size (fs_chip s) -> r.1 = ESP_OK)).
Proof.
  intros Hch Hdrv Hq Hrd Hsize Hst Hw. destruct nor_size_ok as [_ Hnor].
  destruct drv_read as (f & Hf & Hread).
  assert (bus_is os s s false) as Hb by apply bus_refl.
  assert (forall s' err, rested s s' -> bus_is os s s' false -> err <> ESP_OK \/ len = 0%nat ->
    has_read os s s' start len (err, [])) as Hun.
  { intros s' err R B He. split; [by destruct R|apply R|done|by exists 0%nat; split; [lia|]|].
    cbn. intros ->. by destruct He as [ | -> ]. }
  unfold esp_flash_read, with_driver, check_chip_pointer_default. rewrite Hch. wp_run. rewrite Hdrv.
  unfold verify_op. rewrite Hf. wp_run. rewrite (u32_small (start + len)) by lia.
  destruct (Z.ltb_spec (size (fs_chip s)) start), (Z.ltb_spec (size (fs_chip s)) (start + len)); cbn [orb];
    try (wp_run; split_and!; [apply Hun; [by apply rested_refl|done|by left]|done|intros; cbn in *; lia]).
  destruct (Z.eqb_spec len 0) as [Hl0|Hl0].
  { wp_run. split_and!; [apply Hun; [by apply rested_refl|done|right; lia]|done|done]. }
  apply wp_bind, (wp_mono _ _ (fun c s' => rested s s' /\ bus_is os s s' false /\
    (forall m, c = Some m -> 0 < m) /\ (buffer_ready host os in_dram -> c <> None))).
  { unfold buffer_ready. destruct (in_dram || h_supports_direct_read host) eqn:Hd.
    { wp_run. split_and!; [by apply rested_refl|done|intros m [= <-]; unfold MAX_READ_CHUNK; lia|done]. }
    destruct (o_get_temp_buffer os) as [g|] eqn:Hg.
    2:{ wp_run. split_and!; [by apply rested_refl|done|done|]. by intros [|(g & ? & _)]. }
    destruct (os_buffer_ok g (fs_env s) (Z.min MAX_READ_CHUNK len) Hg ltac:(unfold MAX_READ_CHUNK; lia)) as [Ht Hm].
    eapply wp_mono; [apply (env_call_ok (fun e => g e (Z.min MAX_READ_CHUNK len)) s Hq Ht)|].
    intros c s' (-> & Q & C & T & L).
    split_and!; [by apply rested_tick; [|rewrite C|]|by eapply bus_same|done|].
    intros [|(g' & [= <-] & Hsome)]; [done|apply Hsome]. }
  intros c s1 (R1 & B1 & Hm & Hsome). destruct c as [chunk|].
  2:{ wp_run. split_and!; [apply Hun; [done|done|by left]|done|]. intros _ Hr. by destruct (Hsome Hr). }
  pose proof (read_chunks_ok host os drv f Hread s start len chunk (Z.to_nat len) 0 s1 Hst
    ltac:(lia) Hrd (Hm _ eq_refl) ltac:(lia) R1 B1) as Hloop.
  rewrite Z.add_0_r, Z.sub_0_r in Hloop. eapply wp_mono; [apply Hloop|].
  intros r s2 (H2 & F2). by split_and!; [|intros _; lia|intros Hfine _ _; apply F2].
Qed.
