(* ===== verification/FlashExt.v ===== *)
(** * The driver as an implementation of the interface of [Flash]

    Partitions, updates and the bootloader are proved against [FlashLaws]. Here
    the driver of an external chip, from the flash API down to the registers of the
    controller, is shown to have these laws. The states are those between two
    calls, in which the chip is idle, has its driver and is not locked; each
    operation is a run of the function of the API, which cannot abort or spin.
    Arguments are 32-bit and their sum does not wrap. *)

From S2P Require Import Prelude EspErr Flash FlashRun SpiMem SpiHost FlashChip NorChip HostLaws.
From S2P Require Import ChipWait ChipOps ChipData FlashApi FlashDrv FlashErase FlashWrite FlashInit.

(** ** Runs that keep an invariant *)

(** A program that returns in every state of [P], with [P] again, is a function. *)
Definition run_in {S A} (P : S -> Prop) (m : prog S A)
    (H : forall s, P s -> wp m s (fun _ s' => P s')) (f : sig P) : sig P * A :=
  match m (proj1_sig f) as o
    return (match o with Done s' a => P s' | _ => False end -> sig P * A) with
  | Done s' a => fun h => (exist _ s' h, a)
  | Aborted => fun h => match h with end
  | Spins => fun h => match h with end
  end (H _ (proj2_sig f)).

Lemma run_in_spec {S A} (P : S -> Prop) (m : prog S A) H (f : sig P) (Q : A -> S -> Prop) :
  wp m (proj1_sig f) Q -> Q (snd (run_in P m H f)) (proj1_sig (fst (run_in P m H f))).
Proof.
  unfold run_in. generalize (H _ (proj2_sig f)). unfold wp. by destruct (m (proj1_sig f)).
Qed.

Section External.
  Context {E : Type} `{NL : NorLaws E} (host : spi_flash_host_driver_t E) `{HL : !HostLaws host}
    (os : esp_flash_os_functions_t E) `{OL : !OsLaws os} (registered : list (spi_flash_chip_t E))
    (drv : spi_flash_chip_t E) `{DL : !DrvLaws drv}.

(** The states between two calls. *)
Record ready (s : flash_st E) : Prop := {
  rdy_quiet : quiet s;
  rdy_drv : driver_of registered s = Some drv;
  rdy_mode : readable (fs_chip s);
  rdy_size : size (fs_chip s) <= nor_size;
  rdy_lock : unlocked (fs_env s) 0 nor_size;
}.

Lemma ready_kept (s s' : flash_st E) : ready s -> kept s s' -> ready s'.
Proof.
  intros [Q D M Z L] K. pose proof (kp_conf _ _ K) as C. unfold conf in C.
  split; [apply K| |by eapply readable_kept| |by eapply unlocked_kept].
  - unfold driver_of in *. assert (chip_drv (fs_chip s') = chip_drv (fs_chip s)) as -> by by simplify_eq.
    done.
  - by assert (size (fs_chip s') = size (fs_chip s)) as -> by by simplify_eq.
Qed.

(** Arguments of the API: a start and a length, whose sum has 32 bits. *)
Definition in_args (a n : Z) : bool := (0 <=? a) && (0 <=? n) && (a + n <? 2 ^ 32).

Lemma no_check (s : flash_st E) a n : check_returns os false s a n.
Proof. by left. Qed.

(** The calls on the external chip, which is not the default one. *)
Abbreviation read a n := (esp_flash_read host os registered CNull CChip (Some true) a n).
Abbreviation write a bs := (esp_flash_write host os registered CNull false CChip
  (Some (true, map u8 bs)) a (Z.of_nat (length bs))).
Abbreviation erase a n := (esp_flash_erase_region host os registered CNull false CChip a n).
Abbreviation write_encrypted a bs := (esp_flash_write_encrypted host os registered CNull false CChip
  (Some (map u8 bs)) a (Z.of_nat (length bs))).

Definition guarded {A} (b : bool) (dflt : A) (m : prog (flash_st E) A) : prog (flash_st E) A :=
  if b then m else mret dflt.

Lemma guarded_ok {A} b (dflt : A) m (s : flash_st E) Q :
  (b = true -> wp m s Q) -> (b = false -> Q dflt s) -> wp (guarded b dflt m) s Q.
Proof. destruct b; cbn; auto. Qed.

Lemma in_args_spec a n : in_args a n = true -> 0 <= a /\ 0 <= n /\ a + n < 2 ^ 32.
Proof. unfold in_args. rewrite !andb_true_iff, !Z.leb_le, Z.ltb_lt. lia. Qed.

Definition api_read a n := guarded (in_args a n) (ESP_ERR_INVALID_ARG, []) (read a n).
Definition api_write a bs := guarded (in_args a (length bs)) ESP_ERR_INVALID_ARG (write a bs).
Definition api_erase a n := guarded (in_args a n) ESP_ERR_INVALID_ARG (erase a n).
Definition api_write_encrypted a bs :=
  guarded (in_args a (length bs)) ESP_ERR_INVALID_ARG (write_encrypted a bs).

(** When nothing is refused and the range is in the chip, every call succeeds. *)
Definition nothing_refused : Prop := all_fine os drv /\ unrestricted os drv.
Definition fits (s : flash_st E) (a n : Z) : Prop := 0 <= a /\ 0 <= n /\ a + n <= size (fs_chip s).

Lemma fits_args (s : flash_st E) a n : ready s -> fits s a n -> in_args a n = true.
Proof.
  intros R (Ha & Hn & Hs). pose proof (rdy_size _ R). destruct nor_size_ok as [_ Hnor].
  unfold in_args. rewrite !andb_true_iff, !Z.leb_le, Z.ltb_lt. lia.
Qed.

Lemma api_read_ok (s : flash_st E) a n : ready s -> wp (api_read a n) s (fun r s' => ready s' /\
  (r.1 = ESP_OK -> r.2 = cells (fs_env s) a (Z.to_nat n)) /\
  (nothing_refused -> fits s a n -> r.1 = ESP_OK)).
Proof.
  intros R. apply guarded_ok; [|by intros Hg; split_and!; [| |intros _ Hf; rewrite (fits_args s a n R Hf) in Hg] ]. intros (Ha & Hn & Hw)%in_args_spec.
  replace n with (Z.of_nat (Z.to_nat n)) by lia.
  eapply wp_mono; [apply (read_region_ok host os registered CNull drv CChip true a (Z.to_nat n) s);
    [done|apply R|apply R|apply R|apply R|done|lia]|].
  intros r s' ([K _ _ _ Hok] & _ & Hf). rewrite Nat2Z.id. split_and!; [by eapply ready_kept|done|].
  intros [Hfine _] (_ & _ & Hs). apply Hf; [done|by left|lia].
Qed.

Lemma map_u8_range bs : Forall (in_range 8) (map u8 bs).
Proof. apply Forall_map, Forall_forall. intros b _. by apply wrap_range. Qed.

Lemma api_write_ok (s : flash_st E) a bs : ready s -> wp (api_write a bs) s (fun err s' => ready s' /\
  (forall x, ~ (a <= x < a + length bs) -> cell (fs_env s') x = cell (fs_env s) x) /\
  (err = ESP_OK -> forall x, cell (fs_env s') x = programmed (cell (fs_env s)) a (map u8 bs) x) /\
  (nothing_refused -> fits s a (length bs) -> err = ESP_OK)).
Proof.
  intros R. apply guarded_ok; [|by intros Hg; split_and!; [| | |intros _ Hf; rewrite (fits_args _ _ _ R Hf) in Hg] ]. intros (Ha & Hn & Hw)%in_args_spec.
  assert (Hm : length (map u8 bs) = length bs) by apply length_map.
  eapply wp_mono; [apply (write_region_ok host os registered CNull false drv CChip true (map u8 bs) a (length bs) s);
    [done|apply R|apply R|apply R|apply no_check|done|lia|apply map_u8_range|done]|].
  intros err s' ([K (n & Hn' & [F _]) Hok _ _] & _ & Hf). split_and!; [by eapply ready_kept| | |].
  - intros x Hx. apply F. rewrite length_take. lia.
  - intros He. destruct (Hok He) as [_ W]. rewrite Nat2Z.id, take_ge in W by lia. apply W, R.
  - intros [Hfine Hun] (_ & _ & Hs). by apply Hf.
Qed.

Lemma api_erase_ok (s : flash_st E) a n : ready s -> wp (api_erase a n) s (fun err s' => ready s' /\
  (0 <= n -> forall x, ~ (a <= x < a + n) -> cell (fs_env s') x = cell (fs_env s) x) /\
  (err = ESP_OK -> forall x, cell (fs_env s') x = erased (cell (fs_env s)) a n x) /\
  (nothing_refused -> fits s a n -> aligned drv a n -> err = ESP_OK)).
Proof.
  intros R. apply guarded_ok; [|by intros Hg; split_and!; [| | |intros _ Hf; rewrite (fits_args _ _ _ R Hf) in Hg] ]. intros (Ha & Hn & Hw)%in_args_spec.
  eapply wp_mono; [apply (erase_region_ok host os registered CNull false drv CChip a n s);
    [done|apply R|apply R|apply R|apply no_check|done|done|done]|].
  intros err s' ([K (k & Hk & [F _]) Hok _ _] & _ & Hf). split_and!; [by eapply ready_kept| | |].
  - intros _ x Hx. apply F. lia.
  - intros He. destruct (Hok He) as [_ W]. apply W, R.
  - intros [Hfine Hun] (_ & _ & Hs) Hal. by apply Hf.
Qed.

(** An external chip is not encrypted: the call is refused. *)
Lemma api_write_encrypted_ok (s : flash_st E) a bs : ready s ->
  wp (api_write_encrypted a bs) s (fun err s' => s' = s /\ err <> ESP_OK).
Proof.
  intros R. apply guarded_ok; [|done]. intros _.
  unfold esp_flash_write_encrypted, with_driver, check_chip_pointer_default. cbn [resolve_chip]. wp_run.
  rewrite (rdy_drv _ R). unfold verify_op. by destruct (d_write drv); wp_run.
Qed.

Lemma keeps {A} (m : prog (flash_st E) A) (Q : flash_st E -> A -> flash_st E -> Prop) :
  (forall s, ready s -> wp m s (fun a s' => ready s' /\ Q s a s')) ->
  forall s, ready s -> wp m s (fun _ s' => ready s').
Proof. intros H s R. eapply wp_mono; [by apply H|]. by intros a s' []. Qed.

Definition read_keeps a n := keeps _ _ (fun s R => api_read_ok s a n R).
Definition write_keeps a bs := keeps _ _ (fun s R => api_write_ok s a bs R).
Definition erase_keeps a n := keeps _ _ (fun s R => api_erase_ok s a n R).
Lemma write_encrypted_keeps a bs s : ready s -> wp (api_write_encrypted a bs) s (fun _ s' => ready s').
Proof. intros R. eapply wp_mono; [by apply api_write_encrypted_ok|]. by intros err s' [-> _]. Qed.

(** The only chip is chip 0; another one is a pointer to a chip without a driver.
    Reading is seen through its result. An external chip cannot be mapped. *)
Definition external_ops : FlashOps (sig ready) := {|
  Flash.flash_byte f c a := if c =? 0 then cell (fs_env (proj1_sig f)) a else 0xFF;
  Flash.esp_flash_read f c a n :=
    if c =? 0 then snd (run_in ready (api_read a n) (read_keeps a n) f)
    else (ESP_ERR_FLASH_NOT_INITIALISED, []);
  Flash.esp_flash_write f c a bs :=
    if c =? 0 then run_in ready (api_write a bs) (write_keeps a bs) f
    else (f, ESP_ERR_FLASH_NOT_INITIALISED);
  Flash.esp_flash_write_encrypted f c a bs :=
    if c =? 0 then run_in ready (api_write_encrypted a bs) (write_encrypted_keeps a bs) f
    else (f, ESP_ERR_FLASH_NOT_INITIALISED);
  Flash.esp_flash_erase_region f c a n :=
    if c =? 0 then run_in ready (api_erase a n) (erase_keeps a n) f
    else (f, ESP_ERR_FLASH_NOT_INITIALISED);
  Flash.spi_flash_mmap f a n := ESP_ERR_NOT_SUPPORTED;
|}.

#[local] Existing Instance external_ops.

Lemma external_bytes (f : sig ready) a n : flash_bytes f 0 a n = cells (fs_env (proj1_sig f)) a n.
Proof. done. Qed.

Lemma external_frame (f f' : sig ready) c a n :
  (forall x, ~ (a <= x < a + n) -> cell (fs_env (proj1_sig f')) x = cell (fs_env (proj1_sig f)) x) ->
  c = 0 -> flash_frame f f' c a n.
Proof.
  intros Hf -> c' x Hx. cbn. destruct (Z.eqb_spec c' 0); [|done]. apply Hf. lia.
Qed.

Lemma map_u8_id bs : Forall (in_range 8) bs -> map u8 bs = bs.
Proof.
  intros Hr. rewrite <- (map_id bs) at 2. apply map_ext_in. intros b Hb. apply wrap_small.
  rewrite Forall_forall in Hr. by apply Hr, list_elem_of_In.
Qed.

Lemma external_reads (f : sig ready) a n bs :
  Flash.esp_flash_read f 0 a n = (ESP_OK, bs) -> bs = flash_bytes f 0 a (Z.to_nat n).
Proof.
  destruct (run_in_spec ready _ (read_keeps a n) f _ (api_read_ok _ a n (proj2_sig f))) as (_ & Hok & _).
  intros Hr. change (snd (run_in ready (api_read a n) (read_keeps a n) f) = (ESP_OK, bs)) in Hr.
  rewrite Hr in Hok. by apply Hok.
Qed.

Lemma external_writes (f : sig ready) a bs : let r := Flash.esp_flash_write f 0 a bs in
  flash_frame f (fst r) 0 a (length bs) /\
  (snd r = ESP_OK -> Forall (in_range 8) bs ->
   Forall (fun b => b = 0xFF) (flash_bytes f 0 a (length bs)) -> flash_bytes (fst r) 0 a (length bs) = bs).
Proof.
  destruct (run_in_spec ready _ (write_keeps a bs) f _ (api_write_ok _ a bs (proj2_sig f))) as (_ & F & W & _).
  split; [by apply external_frame|]. intros Hok Hr Hff. pose proof (W Hok) as Hp.
  rewrite map_u8_id in Hp by done. eapply programmed_blank; [done| |exact Hp].
  intros x Hx. rewrite external_bytes in Hff. unfold cells in Hff. rewrite Forall_map, Forall_forall in Hff.
  specialize (Hff (Z.to_nat (x - a)) ltac:(apply elem_of_seq; lia)). cbn in Hff.
  by replace (a + Z.of_nat (Z.to_nat (x - a))) with x in Hff by lia.
Qed.

Lemma external_encrypted (f : sig ready) a bs : let r := Flash.esp_flash_write_encrypted f 0 a bs in
  flash_frame f (fst r) 0 a (length bs) /\ snd r <> ESP_OK.
Proof.
  destruct (run_in_spec ready _ (write_encrypted_keeps a bs) f _
    (api_write_encrypted_ok _ a bs (proj2_sig f))) as [He Hok].
  split; [|done]. apply external_frame; [|done]. intros x _. cbn. by rewrite He.
Qed.

Lemma external_erases (f : sig ready) a n : let r := Flash.esp_flash_erase_region f 0 a n in
  (0 <= n -> flash_frame f (fst r) 0 a n) /\
  (snd r = ESP_OK -> forall x, a <= x < a + n -> flash_byte (fst r) 0 x = 0xFF).
Proof.
  destruct (run_in_spec ready _ (erase_keeps a n) f _ (api_erase_ok _ a n (proj2_sig f))) as (_ & F & W & _).
  split; [intros Hn; apply external_frame; auto|]. intros Hok x Hx. pose proof (W Hok) as Hp.
  cbn. rewrite Hp. unfold erased.
  by replace ((a <=? x) && (x <? a + n)) with true
    by (symmetry; apply andb_true_iff; split; [apply Z.leb_le|apply Z.ltb_lt]; lia).
Qed.

Lemma external_laws : FlashLaws (sig ready).
Proof.
  assert (forall c, c = 0 \/ (c =? 0) = false) as Hc by (intros c; destruct (Z.eqb_spec c 0); auto).
  split.
  - intros f c a. cbn. destruct (c =? 0); [apply cell_ok|]. unfold in_range. lia.
  - intros f c a n bs. destruct (Hc c) as [-> | Hz]; [apply external_reads|]. cbn. by rewrite Hz.
  - intros f c a bs. destruct (Hc c) as [-> | Hz]; [apply external_writes|]. cbn. by rewrite Hz.
  - intros f c a bs. destruct (Hc c) as [-> | Hz]; [apply external_writes|]. cbn. by rewrite Hz.
  - intros f c a bs. destruct (Hc c) as [-> | Hz]; [apply external_encrypted|]. cbn. by rewrite Hz.
  - intros f c a bs. destruct (Hc c) as [-> | Hz]; [|cbn; by rewrite Hz].
    intros He. by destruct (proj2 (external_encrypted f a bs)).
  - intros f c a n Hn. destruct (Hc c) as [-> | Hz]; [by apply external_erases|]. cbn. by rewrite Hz.
  - intros f c a n. destruct (Hc c) as [-> | Hz]; [apply external_erases|]. cbn. by rewrite Hz.
Qed.

End External.
