(* ===== verification/FlashThm.v ===== *)
(** * What the flash driver guarantees

    The theorems on the whole driver: the flash API over the generic chip driver
    over either host driver, on a chip with the laws of [NorLaws]. *)

From S2P Require Import Prelude EspErr FlashRun SpiMem SpiHost FlashChip NorChip HostLaws HostInst.
From S2P Require Import ChipWait ChipOps ChipData FlashApi FlashDrv FlashErase FlashWrite.

(** The host driver of the main flash, or of a chip on another controller. *)
Definition host_of {E} `{SpiHw E} (main : bool) (ctx : spi_flash_hal_context_t) : spi_flash_host_driver_t E :=
  if main then esp_flash_default_host ctx else esp_flash_gpspi_host ctx.

(** The host was initialised for the board. *)
Record wired {E} `{NorView E} (ctx : spi_flash_hal_context_t) : Prop := {
  wd_dummy : extra_dummy ctx = line_delay;
  wd_mode : Z.land (base_io_mode ctx) 0xFFFF <= SPI_FLASH_QIO;
}.

Lemma host_of_laws {E} `{NL : NorLaws E} main ctx : wired ctx -> HostLaws (host_of main ctx).
Proof. intros [Hx Hio]. destruct main; [by apply default_host_ok|by apply gpspi_host_ok]. Qed.

(** The functions of the system never fail. *)
Definition os_fine {E} (os : esp_flash_os_functions_t E) : Prop :=
  start_fine os /\ end_fine os /\ (forall e, snd (o_yield os e) = ESP_OK).

Lemma generic_fine {E} `{NL : NorLaws E} host (os : esp_flash_os_functions_t E) `{OL : !OsLaws os} enc polls :
  os_fine os -> all_fine os (esp_flash_chip_generic host os enc polls).
Proof.
  intros (Hs & He & Hy). split_and!; [done|done|]. intros f s [= <-] Hq.
  unfold spi_flash_chip_generic_yield. destruct (o_check_yield os) as [g|] eqn:Ho; [|by wp_run].
  apply wp_bind. change (0 =? 0) with true. cbn match.
  destruct (os_check_ok g (fs_env s) 0 Ho) as [_ Hg]. unfold env_call at 1, wp at 1.
  destruct (g (fs_env s) 0) as [e [err req]]. cbn in *.
  destruct Hg as [-> | ->]; [|by wp_run]. destruct (flag_set _ _); [|by wp_run].
  unfold env_call, wp. specialize (Hy (fs_env (with_env (fun _ => e) s))). by destruct (o_yield os _).
Qed.

Section Stack.
  Context {E : Type} `{NL : NorLaws E} (main : bool) (ctx : spi_flash_hal_context_t) (Hwired : wired ctx)
    (os : esp_flash_os_functions_t E) `{OL : !OsLaws os} (enc : spi_flash_encryption_t E) (polls : nat)
    (registered : list (spi_flash_chip_t E)) (esp_flash_default_chip : chip_ptr) (WRITE_ABORTS : bool).

#[local] Abbreviation host := (host_of main ctx).
#[local] Abbreviation drv := (esp_flash_chip_generic host os enc polls).
#[local] Abbreviation api_erase := (esp_flash_erase_region host os registered esp_flash_default_chip WRITE_ABORTS).
#[local] Abbreviation api_write := (esp_flash_write host os registered esp_flash_default_chip WRITE_ABORTS).
#[local] Abbreviation api_read := (esp_flash_read host os registered esp_flash_default_chip).

(** The chip of the state is the one meant, it is idle, and the generic driver
    was found for it. *)
Record at_rest (chip : chip_ptr) (s : flash_st E) : Prop := {
  ar_chip : resolve_chip esp_flash_default_chip chip = CChip;
  ar_drv : driver_of registered s = Some drv;
  ar_quiet : quiet s;
  ar_size : size (fs_chip s) <= nor_size;
}.

Lemma at_rest_kept chip (s s' : flash_st E) : at_rest chip s -> kept s s' ->
  at_rest chip s' /\ size (fs_chip s') = size (fs_chip s) /\ (readable (fs_chip s) -> readable (fs_chip s')).
Proof.
  intros [C D Q Z] K. pose proof (kp_conf _ _ K) as Hc. unfold conf in Hc.
  assert (size (fs_chip s') = size (fs_chip s)) as Hs by by simplify_eq.
  assert (chip_drv (fs_chip s') = chip_drv (fs_chip s)) as Hd by by simplify_eq.
  split_and!; [|done|by apply readable_kept]. split; [done| |apply K|by rewrite Hs].
  unfold driver_of in *. by rewrite Hd.
Qed.


(** ** Erasing, writing, reading *)

(** Erase a region, write bytes in it, read them. *)
Definition store (chip : chip_ptr) (start len a : Z) (bs : list Z) (in_dram : bool)
    : prog (flash_st E) (esp_err_t * esp_err_t * (esp_err_t * list Z)) :=
  e ← api_erase chip start len;
  w ← api_write chip (Some (in_dram, bs)) a (length bs);
  r ← api_read chip (Some in_dram) a (length bs);
  mret (e, w, r).

(** C16: after a region was erased and bytes were written in it, all of which
    succeeds if the system refuses nothing, exactly these bytes are read; the rest of
    the region is erased and everything else is as it was. *)
Theorem stored_bytes_are_read chip start len a bs in_dram (s : flash_st E) :
  at_rest chip s -> readable (fs_chip s) -> unlocked (fs_env s) 0 nor_size ->
  os_fine os -> o_region_protected os = None -> buffer_ready host os in_dram ->
  0 <= start <= a -> a + length bs <= start + len -> start + len <= size (fs_chip s) ->
  start mod SECTOR_SIZE = 0 -> len mod SECTOR_SIZE = 0 -> Forall (in_range 8) bs ->
  exists s', store chip start len a bs in_dram s = Done s' (ESP_OK, ESP_OK, (ESP_OK, bs)) /\
    quiet s' /\ conf (fs_chip s') = conf (fs_chip s) /\
    forall x, cell (fs_env s') x =
      if (a <=? x) && (x <? a + length bs) then nth (Z.to_nat (x - a)) bs 0
      else if (start <=? x) && (x <? start + len) then 0xFF else cell (fs_env s) x.
Proof.
  intros R Hrd Hu Hfine Ho Hbuf Hst Ha Hsz Hs Hl Hr. pose proof (host_of_laws main ctx Hwired).
  pose proof (generic_fine host os enc polls Hfine) as Hall.
  assert (forall s a n, check_returns os WRITE_ABORTS s a n) as Hret by (right; by rewrite Ho).
  assert (unrestricted os drv) as Hun by by split.
  destruct nor_size_ok as [_ Hnor]. pose proof (ar_size _ _ R) as Hcs.
  enough (wp (store chip start len a bs in_dram) s (fun r s' => r = (ESP_OK, ESP_OK, (ESP_OK, bs)) /\
    kept s s' /\ forall x, cell (fs_env s') x = programmed (erased (cell (fs_env s)) start len) a bs x)) as Hwp.
  { destruct (wp_returns _ _ _ Hwp) as (s' & r & Hrun & -> & K & Hc). exists s'.
    split_and!; [done|apply K|apply K|]. intros x. rewrite Hc.
    destruct (Z.leb_spec a x), (Z.ltb_spec x (a + length bs)); cbn [andb];
      [|by rewrite programmed_out by lia..].
    rewrite programmed_in, erased_in by lia. rewrite Z.land_comm. apply land_ff_r.
    rewrite Forall_forall in Hr. apply Hr, list_elem_of_In, nth_In. lia. }
  unfold store. destruct R as [C D Q Z].
  wp_call (erase_region_ok host os registered esp_flash_default_chip WRITE_ABORTS drv chip start len s
    C D Q Z (Hret _ _ _) ltac:(lia) ltac:(lia) ltac:(lia)).
  intros err s1 ([K1 _ Hok1 _ _] & _ & Hf1). rewrite (Hf1 Hall Hun (conj Hs Hl) Hsz) in *.
  destruct (Hok1 eq_refl) as [_ C1]. specialize (C1 Hu).
  destruct (at_rest_kept chip s s1 (Build_at_rest _ _ C D Q Z) K1) as ([_ D1 Q1 Z1] & E1 & Hrd1).
  wp_call (write_region_ok host os registered esp_flash_default_chip WRITE_ABORTS drv chip in_dram bs a
    (length bs) s1 C D1 Q1 Z1 (Hret _ _ _) ltac:(lia) ltac:(lia) Hr ltac:(lia)).
  intros err2 s2 ([K2 _ Hok2 _ _] & _ & Hf2). rewrite (Hf2 Hall Hun ltac:(lia)) in *.
  destruct (Hok2 eq_refl) as [_ C2]. specialize (C2 (unlocked_kept _ _ _ _ K1 Hu)).
  rewrite Nat2Z.id, firstn_all in C2.
  destruct (at_rest_kept chip s1 s2 (Build_at_rest _ _ C D1 Q1 Z1) K2) as ([_ D2 Q2 Z2] & E2 & Hrd2).
  wp_call (read_region_ok host os registered esp_flash_default_chip drv chip in_dram a (length bs) s2
    C D2 Q2 (Hrd2 (Hrd1 Hrd)) Z2 ltac:(lia) ltac:(lia)).
  intros [e r] s3 ([K3 Hsame _ _ Hok3] & _ & Hf3). wp_run.
  pose proof (Hf3 Hall Hbuf ltac:(lia)) as He. cbn in He, Hok3. subst e. rewrite (Hok3 eq_refl).
  split_and!.
  - do 2 f_equal. apply (programmed_blank (cell (fs_env s1))); [done| |done].
    intros x Hx. rewrite C1. apply erased_in. lia.
  - destruct K1 as [_ G1 L1], K2 as [_ G2 L2], K3 as [Q3 G3 L3].
    split; [done|by rewrite G3, G2|]. intros x. by rewrite L3, L2.
  - intros x. rewrite Hsame, C2. apply programmed_ext, C1.
Qed.

(** ** Sequences of calls *)

Inductive flash_call :=
| CallErase (start len : Z)
| CallWrite (in_dram : bool) (bs : list Z) (a : Z)
| CallRead (in_dram : bool) (a : Z) (n : nat).

Definition call (chip : chip_ptr) (c : flash_call) : prog (flash_st E) esp_err_t :=
  match c with
  | CallErase start len => api_erase chip start len
  | CallWrite in_dram bs a => api_write chip (Some (in_dram, bs)) a (length bs)
  | CallRead in_dram a n => r ← api_read chip (Some in_dram) a n; mret r.1
  end.
Fixpoint calls (chip : chip_ptr) (l : list flash_call) : prog (flash_st E) (list esp_err_t) :=
  match l with
  | [] => mret []
  | c :: l => err ← call chip c; errs ← calls chip l; mret (err :: errs)
  end.

(** Arguments of 32 bits whose sum does not wrap, and bytes. *)
Definition valid_call (c : flash_call) : Prop :=
  match c with
  | CallErase start len => 0 <= start /\ 0 <= len /\ start + len < 2 ^ 32
  | CallWrite _ bs a => 0 <= a /\ a + length bs < 2 ^ 32 /\ Forall (in_range 8) bs
  | CallRead _ a n => 0 <= a /\ a + n < 2 ^ 32
  end.
(** Whether the call has something to change. *)
Definition modifies (c : flash_call) : bool :=
  match c with
  | CallErase _ len => 0 <? len
  | CallWrite _ bs _ => 0 <? length bs
  | CallRead _ _ _ => false
  end.

Lemma call_ok chip c (s : flash_st E) :
  at_rest chip s -> readable (fs_chip s) -> (forall s a n, check_returns os WRITE_ABORTS s a n) ->
  end_fine os -> valid_call c ->
  wp (call chip c) s (fun err s' => kept s s' /\
    forall d0, exists d, tracks d0 s s' false d /\
      (err = ESP_OK -> modifies c = true -> main = true -> d = false)).
Proof.
  intros [C D Q Z] Hrd Hret He. pose proof (host_of_laws main ctx Hwired).
  assert (forall (s' : flash_st E) err a n done, changed host os s s' err a n done -> kept s s' /\
    forall d0, exists d, tracks d0 s s' false d /\
      (err = ESP_OK -> (0 <? n) = true -> main = true -> d = false)) as Hch.
  { intros s' err a n done [K _ _ B Hfl]. split; [done|]. intros d0.
    destruct (decide (err = ESP_OK /\ 0 < n /\ main = true)) as [(H1 & H2 & H3)|Hno].
    - exists false. split; [|done]. apply Hfl; [done|done|subst main; by eexists|done].
    - destruct (B He d0) as [d Hd]. exists d. split; [done|]. intros H1 H2%Z.ltb_lt H3. by destruct Hno. }
  destruct c as [start len|in_dram bs a|in_dram a n]; cbn [call valid_call modifies].
  - intros (H1 & H2 & H3). eapply wp_mono; [by apply (erase_region_ok host os registered
      esp_flash_default_chip WRITE_ABORTS drv)|]. intros err s' (H4 & _). by eapply Hch.
  - intros (H1 & H2 & H3). eapply wp_mono; [by apply (write_region_ok host os registered
      esp_flash_default_chip WRITE_ABORTS drv)|]. intros err s' (H4 & _). by eapply Hch.
  - intros (H1 & H2).
    wp_call (read_region_ok host os registered esp_flash_default_chip drv chip in_dram a n s); try done.
    intros r s' ([K _ B _ _] & _). wp_run. split; [done|]. intros d0.
    destruct (B He d0) as [d Hd]. by exists d.
Qed.

Lemma calls_ok chip l (s : flash_st E) :
  at_rest chip s -> readable (fs_chip s) -> (forall s a n, check_returns os WRITE_ABORTS s a n) ->
  end_fine os -> Forall valid_call l ->
  wp (calls chip l) s (fun _ s' => kept s s' /\ forall d0, exists d, tracks d0 s s' false d).
Proof.
  intros R Hrd Hret He Hl. revert s R Hrd. induction Hl as [|c l Hc Hl IH]; intros s R Hrd; cbn [calls].
  { wp_run. split; [by apply kept_refl, (ar_quiet _ _ R)|]. intros d0. exists d0. apply tracks_refl. }
  wp_call (call_ok chip c s R Hrd Hret He Hc). intros err s1 (K1 & T1).
  destruct (at_rest_kept chip s s1 R K1) as (R1 & _ & Hrd1).
  wp_call (IH s1 R1 (Hrd1 Hrd)). intros errs s2 (K2 & T2). wp_run.
  destruct K1 as [_ C1 L1], K2 as [Q2 C2 L2]. split.
  - split; [done|by rewrite C2, C1|]. intros a. by rewrite L2, L1.
  - intros d0. destruct (T1 d0) as (d1 & H1 & _). destruct (T2 d1) as (d2 & H2).
    exists d2. by eapply tracks_trans.
Qed.


(** ** Waiting *)

End Stack.

(** ** The two host drivers *)

Inductive host_command :=
| HostErase (a : Z) | HostEraseBlock (a : Z) | HostEraseChip
| HostProgram (buffer : list Z) (a : Z) (n : nat)
| HostProtect (wp : bool).

Section Hosts.
  Context {E : Type} `{NL : NorLaws E}.

Definition send (host : spi_flash_host_driver_t E) (c : host_command) : prog (flash_st E) unit :=
  match c with
  | HostErase a => h_erase_sector host a
  | HostEraseBlock a => h_erase_block host a
  | HostEraseChip => h_erase_chip host
  | HostProgram buffer a n => h_program_page host buffer a n
  | HostProtect wp => h_set_write_protect host wp;; mret tt
  end.

(** What the command is for the chip. *)
Definition command_wire (c : host_command) : spi_wire :=
  match c with
  | HostErase a => wire8 CMD_SECTOR_ERASE (Some a) []
  | HostEraseBlock a => wire8 CMD_LARGE_BLOCK_ERASE (Some a) []
  | HostEraseChip => wire8 CMD_CHIP_ERASE None []
  | HostProgram buffer a n => wire8 CMD_PROGRAM_PAGE (Some a) (take n buffer)
  | HostProtect wp => wire8 (if wp then CMD_WRDI else CMD_WREN) None []
  end.

Definition command_valid (c : host_command) : Prop :=
  match c with
  | HostErase a | HostEraseBlock a => 0 <= a < 2 ^ 24
  | HostEraseChip | HostProtect _ => True
  | HostProgram buffer a n => 0 <= a /\ a + n <= 2 ^ 24 /\ (0 < n <= 64)%nat /\ (n <= length buffer)%nat /\
      Forall (in_range 8) buffer
  end.

Definition sends (host : spi_flash_host_driver_t E) (c : host_command) (s : flash_st E) (w : spi_wire) : Prop :=
  exists s', send host c s = Done s' tt /\ fs_log s' = EvBus w :: fs_log s.

Lemma sends_wp host c (s : flash_st E) w :
  wp (send host c) s (fun _ s' => fs_log s' = EvBus w :: fs_log s) -> sends host c s w.
Proof. intros H. destruct (wp_returns _ _ _ H) as (s' & [] & H1 & H2). by exists s'. Qed.

Lemma sends_default ctx c (s : flash_st E) :
  length (data_buf (fs_dev s)) = 16%nat -> command_valid c ->
  sends (esp_flash_default_host ctx) c s (command_wire c).
Proof.
  intros Hb Hc. apply sends_wp. destruct c as [a|a| |buffer a n|w]; cbn in *.
  - unfold spi_flash_hal_erase_sector, on_dev. wp_run. apply wp_start. cbn [fs_dev with_dev ran fs_log].
    by rewrite wire_sector.
  - unfold spi_flash_hal_erase_block, on_dev. wp_run. apply wp_start. cbn [fs_dev with_dev ran fs_log].
    by rewrite wire_block.
  - by apply wp_start.
  - destruct Hc as (Ha & Han & Hn & Hl & Hr). unfold spi_flash_hal_program_page, on_dev. wp_run.
    apply wp_start. cbn [fs_dev with_dev ran fs_log]. rewrite wire_program; (done || lia).
  - apply wp_bind, wp_bind, wp_start. wp_run. by destruct w.
Qed.

Lemma sends_gpspi ctx c (s : flash_st E) : wired ctx ->
  length (data_buf (fs_dev s)) = 16%nat -> command_valid c ->
  sends (esp_flash_gpspi_host ctx) c s (command_wire c).
Proof.
  intros [Hx Hio] Hb Hc. apply sends_wp. destruct c as [a|a| |buffer a n|w]; cbn in *.
  - apply wp_bind, wp_assert; [apply Z.ltb_lt; lia|].
    apply wp_bind, (wp_common ctx); [exact Hb|apply plain_addr; unfold CMD_SECTOR_ERASE; lia|exact Hx|exact Hio|]. intros d Hd Hw. wp_run. unfold ran. cbn [fs_log].
    rewrite trans_wire_addr in Hw by done. by rewrite Hw.
  - apply wp_bind, wp_assert; [apply Z.ltb_lt; lia|].
    apply wp_bind, (wp_common ctx); [exact Hb|apply plain_addr; unfold CMD_LARGE_BLOCK_ERASE; lia|exact Hx|exact Hio|]. intros d Hd Hw. wp_run. unfold ran. cbn [fs_log].
    rewrite trans_wire_addr in Hw by done. by rewrite Hw.
  - apply wp_bind, (wp_common ctx); [exact Hb|by split; cbn; try (lia || constructor); auto|exact Hx|exact Hio|].
    intros d Hd Hw. wp_run. unfold ran. cbn [fs_log]. by rewrite Hw.
  - destruct Hc as (Ha & Han & Hn & Hl & Hr). apply wp_bind, wp_assert.
    { apply Z.leb_le. rewrite u32_small; lia. }
    rewrite (wrap_small 8) by (unfold in_range; lia).
    apply wp_bind, (wp_common ctx); [exact Hb|split; cbn; try (lia || done); auto|exact Hx|exact Hio|].
    intros d Hd Hw. wp_run. unfold ran. cbn [fs_log]. rewrite trans_wire_program in Hw by lia. by rewrite Hw.
  - apply wp_bind, wp_bind, (wp_common ctx); [exact Hb| |exact Hx|exact Hio|].
    { split; cbn; [by destruct w|by left|lia|constructor|lia|done|done]. }
    intros d Hd Hw. wp_run. unfold ran. cbn [fs_log]. rewrite Hw. by destruct w.
Qed.

End Hosts.
