(* ===== verification/FlashSim.v ===== *)
(** * A flash chip to compute with

    [sim]: a chip of 128 KiB whose first bytes may be locked and that is busy for
    40 microseconds after a command that changes it. It has the laws of [NorLaws];
    the functions of the system around it succeed. *)

From S2P Require Import Prelude EspErr FlashRun SpiMem SpiHost FlashChip NorChip HostLaws.

Record sim := Sim {
  sim_cell : Z -> Z;
  sim_busy : Z;
  sim_wel : bool;
  sim_lock : Z;                    (** the bytes below are locked *)
  sim_id : Z;                      (** what it answers when asked for its identity *)
}.

Definition SIM_SIZE : Z := 2 ^ 17.
Definition SIM_BUSY_US : Z := 40.

Definition sim_dummy (c : Z) : Z :=
  if c =? CMD_FASTRD_QIO then 6 else if c =? CMD_FASTRD_DIO then 4
  else if (c =? CMD_FASTRD_QUAD) || (c =? CMD_FASTRD_DUAL) || (c =? CMD_FASTRD) then 8 else 0.

#[export] Instance sim_view : NorView sim := {
  cell e a := u8 (sim_cell e a);
  busy_us e := Z.max 0 (sim_busy e);
  wel := sim_wel;
  locked e a := a <? sim_lock e;
  nor_size := SIM_SIZE;
  line_delay := 0;
  read_dummy := sim_dummy;
}.

(** A command that makes the array [f] if the bytes from [a] on are not locked. *)
Definition sim_change (e : sim) (f : Z -> Z) (a : Z) : sim :=
  if sim_lock e <=? a then Sim f SIM_BUSY_US true (sim_lock e) (sim_id e)
  else Sim (sim_cell e) 0 true (sim_lock e) (sim_id e).

Definition sim_reply (bs : list Z) : list Z :=
  set_words 0 ((length bs + 3) / 4) bs (replicate 16 0).

(** The chip's answer to a transaction, with the buffer of the controller. *)
Definition sim_step (e : sim) (w : spi_wire) (buf : list Z) : sim * list Z :=
  match w_cmd w, w_addr w with
  | Some (_, c), addr =>
      if c =? CMD_RDSR then
        (e, sim_reply [(if 0 <? sim_busy e then SR_WIP else 0) + (if sim_wel e then SR_WREN else 0)])
      else if 0 <? sim_busy e then (e, buf)
      else if c =? CMD_WREN then (Sim (sim_cell e) 0 true (sim_lock e) (sim_id e), buf)
      else if c =? CMD_WRDI then (Sim (sim_cell e) 0 false (sim_lock e) (sim_id e), buf)
      else match addr with
      | None => (e, if c =? CMD_RDID then sim_reply (le_bytes 3 (sim_id e)) else buf)
      | Some (_, a) =>
          if 0 <? w_miso w then
            (e, sim_reply (map (fun i => u8 (sim_cell e (a + Z.of_nat i))) (seq 0 (Z.to_nat (w_miso w)))))
          else if negb (sim_wel e) then (e, buf)
          else if c =? CMD_PROGRAM_PAGE then
            (sim_change e (programmed (fun x => u8 (sim_cell e x)) a (w_mosi w)) a, buf)
          else if c =? CMD_SECTOR_ERASE then
            (sim_change e (erased (fun x => u8 (sim_cell e x)) a SECTOR_SIZE) a, buf)
          else if c =? CMD_LARGE_BLOCK_ERASE then
            (sim_change e (erased (fun x => u8 (sim_cell e x)) a BLOCK_ERASE_SIZE) a, buf)
          else (e, buf)
      end
  | None, _ => (e, buf)
  end.

Definition sim_delay (e : sim) (us : Z) : sim :=
  if 0 <? sim_busy e then
    Sim (sim_cell e) (Z.max 0 (sim_busy e - us))
        (if sim_busy e <=? us then false else sim_wel e) (sim_lock e) (sim_id e)
  else e.

#[export] Instance sim_hw : SpiHw sim := {
  ctl_run e d op := sim_step e (wire_of d op) (data_buf d);
  ctl_idle e := (e, true);
  rom_delay_us := sim_delay;
  cache_flush e _ _ := e;
}.

(** The functions of the system; [fails]: giving back the bus fails; [yields]:
    the result of letting other tasks run. *)
Definition sim_os_with (fails : bool) (yields : sim -> esp_err_t) : esp_flash_os_functions_t sim := {|
  o_start := Some (fun e => (e, ESP_OK));
  o_end := Some (fun e => (e, if fails then ESP_FAIL else ESP_OK));
  o_region_protected := None;
  o_delay_us := sim_delay;
  o_get_temp_buffer := Some (fun e n => (e, Some n));
  o_check_yield := Some (fun e _ => (e, (ESP_OK, SPI_FLASH_YIELD_REQ_YIELD)));
  o_yield e := (e, yields e);
  o_set_flash_op_status := Some (fun e _ => e);
|}.
Definition sim_os := sim_os_with false (fun _ => ESP_OK).

Definition sim_enc : spi_flash_encryption_t sim := Encryption sim id id (fun e _ _ => e) id id.

(** ** The laws *)

Lemma sim_reply_received bs n : Forall (in_range 8) bs -> length bs = n -> (n <= 64)%nat ->
  received (sim_reply bs) n = bs.
Proof.
  intros Hr <- Hn. unfold received, sim_reply.
  pose proof (Nat.div_mod_eq (length bs + 3) 4). pose proof (Nat.mod_upper_bound (length bs + 3) 4 ltac:(lia)).
  pose proof (set_words_bytes ((length bs + 3) / 4) 0 bs (replicate 16 0) Hr
    ltac:(lia) ltac:(rewrite length_replicate; lia)) as H1.
  by rewrite drop_0 in H1.
Qed.

Lemma sim_reply_length bs : length (sim_reply bs) = 16%nat.
Proof. apply set_words_length. Qed.

Lemma sim_step_length e w buf : length buf = 16%nat -> length (snd (sim_step e w buf)) = 16%nat.
Proof.
  intros Hb. unfold sim_step.
  repeat (match goal with |- context [match ?x with _ => _ end] => destruct x end; cbn [snd]);
    rewrite ?sim_reply_length; done.
Qed.

Lemma sim_tick (e : sim) : tick e e.
Proof. apply tick_refl. cbn. lia. Qed.

Lemma sim_delay_ok (e : sim) us : 0 <= us ->
  tick e (sim_delay e us) /\ busy_us (sim_delay e us) <= Z.max 0 (busy_us e - us).
Proof.
  intros Hu. unfold sim_delay. destruct (Z.ltb_spec 0 (sim_busy e)).
  - split; [|cbn; lia]. split; cbn; [done|done|lia|].
    replace (0 <? Z.max 0 (sim_busy e)) with true by (symmetry; apply Z.ltb_lt; lia). cbn [andb].
    destruct (Z.leb_spec (sim_busy e) us), (Z.eqb_spec (Z.max 0 (Z.max 0 (sim_busy e - us))) 0); (done || lia).
  - split; [apply sim_tick|cbn; lia].
Qed.

Lemma sim_change_ok (e : sim) t f a n :
  SIM_BUSY_US <= t -> sim_busy e <= 0 -> 0 <= a -> 0 < n -> (forall x, in_range 8 (f x)) ->
  changes e (sim_change e f a) t f a n.
Proof.
  intros Ht Hb Ha Hn Hf. unfold sim_change. split; intros Hu.
  - destruct (Z.leb_spec (sim_lock e) a).
    + split; cbn; [intros x; by apply wrap_small|done|unfold SIM_BUSY_US in *; lia|done].
    + specialize (Hu a ltac:(lia)). cbn in Hu. apply Z.ltb_ge in Hu. lia.
  - destruct (Z.leb_spec (sim_lock e) a); [|done].
    destruct Hu. intros x Hx. cbn. apply Z.ltb_ge. lia.
Qed.

Lemma programmed_range (f : Z -> Z) a bs x :
  (forall x, in_range 8 (f x)) -> in_range 8 (programmed f a bs x).
Proof.
  intros Hf. unfold programmed. destruct (_ && _); [|done]. specialize (Hf x). unfold in_range in *.
  pose proof (Z.land_nonneg (f x) (nth (Z.to_nat (x - a)) bs 0)).
  assert (Z.land (f x) (nth (Z.to_nat (x - a)) bs 0) = Z.land (f x) (nth (Z.to_nat (x - a)) bs 0) mod 2 ^ 8) as ->.
  2: apply Z.mod_pos_bound; lia.
  symmetry. rewrite <- Z.land_ones by lia.
  rewrite <- Z.land_assoc, (Z.land_comm _ (Z.ones 8)), Z.land_assoc, Z.land_ones by lia.
  by rewrite (Z.mod_small (f x)) by lia.
Qed.

Lemma erased_range (f : Z -> Z) a n x : (forall x, in_range 8 (f x)) -> in_range 8 (erased f a n x).
Proof. intros Hf. unfold erased. destruct (_ && _); [|done]. unfold in_range. lia. Qed.

Lemma sim_byte (e : sim) x : in_range 8 (u8 (sim_cell e x)).
Proof. by apply wrap_range. Qed.

#[export] Instance sim_laws : NorLaws sim.
Proof.
  assert (forall e : sim, busy_us e = 0 -> (0 <? sim_busy e) = false) as Hidle
    by (intros e H; cbn in H; apply Z.ltb_ge; lia).
  assert (forall e : sim, busy_us e = 0 -> sim_busy e <= 0) as Hidle' by (intros e H; cbn in H; lia).
  split; unfold ctl_run, sim_hw.
  - cbn. unfold SIM_SIZE. lia.
  - done.
  - cbn. lia.
  - intros c. cbn. unfold sim_dummy. repeat case_match; lia.
  - intros e a. apply sim_byte.
  - intros e. cbn. lia.
  - intros e d op Hl. by apply sim_step_length.
  - intros e d op ->. split; [apply sim_tick|].
    eexists. split; [apply sim_reply_received; [|done|lia]|].
    + constructor; [|done]. by destruct (0 <? sim_busy e), (sim_wel e).
    + assert ((0 <? busy_us e) = (0 <? sim_busy e)) as -> by (cbn; destruct (Z.ltb_spec 0 (sim_busy e)),
        (Z.ltb_spec 0 (Z.max 0 (sim_busy e))); (done || lia)).
      cbn. by destruct (0 <? sim_busy e), (sim_wel e).
  - intros e d op -> Hb. unfold sim_step, wire8. cbn [w_cmd w_addr]. cbn. by rewrite Hidle.
  - intros e d op -> Hb. unfold sim_step, wire8. cbn. rewrite Hidle by done. split; cbn; (done || lia).
  - intros e d op a bs -> Hb Hw Hbs Ha Has Hp. unfold sim_step, wire8. cbn. rewrite Hidle by done.
    cbn in Hw. rewrite Hw. cbn.
    apply sim_change_ok; [done|by apply Hidle'|done|destruct bs; [done|cbn; lia]|].
    intros x. apply programmed_range, sim_byte.
  - intros e d op a -> Hb Hw Ha Has Hm. unfold sim_step, wire8. cbn. rewrite Hidle by done.
    cbn in Hw. rewrite Hw. cbn.
    apply sim_change_ok; [done|by apply Hidle'|done|done|]. intros x. apply erased_range, sim_byte.
  - intros e d op a -> Hb Hw Ha Has Hm. unfold sim_step, wire8. cbn. rewrite Hidle by done.
    cbn in Hw. rewrite Hw. cbn.
    apply sim_change_ok; [done|by apply Hidle'|done|done|]. intros x. apply erased_range, sim_byte.
  - intros e d op mode c cf a n Hc -> Hb Hn Ha Has.
    assert (sim_step e (Wire (Some (8, c)) (Some (24, a)) (read_dummy c + line_delay) [] n) (data_buf d) =
      (e, sim_reply (map (fun i => u8 (sim_cell e (a + Z.of_nat i))) (seq 0 n)))) as ->.
    { unfold sim_step. cbn [w_cmd w_addr w_miso].
      assert ((c =? CMD_RDSR) = false /\ (c =? CMD_WREN) = false /\ (c =? CMD_WRDI) = false) as (-> & -> & ->).
      { unfold read_command in Hc. repeat case_match; by simplify_eq. }
      rewrite Hidle by done. replace (0 <? n) with true by (symmetry; apply Z.ltb_lt; lia).
      by rewrite Nat2Z.id. }
    split; [apply sim_tick|]. apply sim_reply_received; [|by rewrite length_map, length_seq|lia].
    apply Forall_map, Forall_forall. intros i _. apply sim_byte.
  - intros e. split; [apply sim_tick|done].
  - apply sim_delay_ok.
  - intros. apply sim_tick.
Qed.

#[export] Instance sim_os_laws fails yields : OsLaws (sim_os_with fails yields).
Proof.
  split; cbn; intros; simplify_eq; try apply sim_tick; try done.
  - split; [apply sim_tick|by left].
  - split; [apply sim_tick|]. by intros m [= <-].
Qed.
