(* ===== verification/FlashExample.v ===== *)
(** * The flash driver on a concrete chip

    Runs on the chip of [FlashSim]: the theorems of [FlashThm] and [FlashExt] at
    concrete inputs, and what the driver does where it does not do what it means
    to. *)

From S2P Require Import Prelude EspErr Flash FlashRun SpiMem SpiHost FlashChip NorChip HostLaws HostInst.
From S2P Require Import ChipWait ChipOps ChipData FlashApi FlashDrv FlashErase FlashWrite FlashInit FlashExt FlashThm FlashSim.

Module FlashExample.

Definition ctx : spi_flash_hal_context_t := HalContext true 0 0 0 0.
Definition main_drv : spi_flash_chip_t sim := esp_flash_chip_generic (host_of true ctx) sim_os sim_enc 3.
Definition dev0 : spi_mem_dev_t :=
  SpiDev 0 0 false false false false false false 0 0 0 0 0 0 (replicate 16 0).
(** A chip of 128 KiB full of 0x5A, whose bytes below [lock] are locked. *)
Definition st (lock : Z) : flash_st sim :=
  FlashSt (Sim (fun _ => 0x5A) 0 false lock 0x114020) dev0
    (EspFlash (Some 0%nat) SPI_FLASH_QIO (2 ^ 17) 0x204011 false false) [].

Abbreviation erase := (esp_flash_erase_region (host_of true ctx) sim_os [main_drv] CChip true CChip).
Abbreviation write bs := (esp_flash_write (host_of true ctx) sim_os [main_drv] CChip true CChip (Some (true, bs))).
Abbreviation read := (esp_flash_read (host_of true ctx) sim_os [main_drv] CChip CChip (Some true)).

Lemma ctx_wired : wired (E := sim) ctx.
Proof. by split. Qed.

Lemma st_rest lock : at_rest true ctx sim_os sim_enc 3 [main_drv] CChip CChip (st lock).
Proof. by split. Qed.

Lemma st_readable lock : readable (fs_chip (st lock)).
Proof. by exists CMD_FASTRD_QIO, true. Qed.

Lemma st_unlocked : unlocked (fs_env (st 0)) 0 nor_size.
Proof. intros x Hx. cbn. apply Z.ltb_ge. lia. Qed.

Lemma sim_os_fine : os_fine sim_os.
Proof. split_and!; [by intros f e [= <-]|by intros f e [= <-]|done]. Qed.

(** ** Witnesses *)


Lemma stored_bytes_are_read_witness :
  exists s', store true ctx sim_os [main_drv] CChip true CChip 4096 8192 8190 [1; 2; 3] true (st 0)
    = Done s' (ESP_OK, ESP_OK, (ESP_OK, [1; 2; 3])) /\
    quiet s' /\ conf (fs_chip s') = conf (fs_chip (st 0)) /\
    forall x, cell (fs_env s') x =
      if (8190 <=? x) && (x <? 8190 + 3%nat) then nth (Z.to_nat (x - 8190)) [1; 2; 3] 0
      else if (4096 <=? x) && (x <? 4096 + 8192) then 0xFF else 0x5A.
Proof.
  apply (stored_bytes_are_read true ctx ctx_wired sim_os sim_enc 3 [main_drv] CChip true CChip 4096 8192 8190
    [1; 2; 3] true (st 0) (st_rest 0) (st_readable 0) st_unlocked sim_os_fine eq_refl);
    [by left|lia|cbn; lia|cbn; lia|done|done|].
  repeat constructor; lia.
Defined.




(** An external chip on another controller. *)
Definition ext_drv : spi_flash_chip_t sim := esp_flash_chip_generic (host_of false ctx) sim_os sim_enc 3.
#[local] Instance ext_laws : HostLaws (E := sim) (host_of false ctx) := host_of_laws false ctx ctx_wired.
#[local] Instance ext_flash : FlashOps (sig (ready [ext_drv] ext_drv)) :=
  external_ops (host_of false ctx) sim_os [ext_drv] ext_drv.

Lemma st_ready : ready [ext_drv] ext_drv (st 0).
Proof. split; [by split|done|apply st_readable|done|apply st_unlocked]. Qed.


(** ** What the driver does not do *)

Definition result {A} (P : A -> flash_st sim -> bool) (o : outcome (flash_st sim) A) : bool :=
  match o with Done s a => P a s | _ => false end.
Definition bytes_are (b : Z) (a : Z) (n : nat) (s : flash_st sim) : bool :=
  forallb (Z.eqb b) (cells (fs_env s) a n).
Definition is_flush (ev : flash_event) : bool := match ev with EvFlush _ _ => true | _ => false end.

(** A chip that refuses to erase or to program locked bytes: success. *)
Example refused_erase_succeeds :
  result (fun err s => is_ok err && bytes_are 0x5A 4096 16 s) (erase 4096 4096 (st 8192)) = true.
Proof. by vm_compute. Qed.
Example refused_write_succeeds :
  result (fun err s => is_ok err && bytes_are 0x5A 4096 16 s) (write [1; 2; 3] 4096 3 (st 8192)) = true.
Proof. by vm_compute. Qed.

(** When giving back the bus fails between two sectors, the cache is flushed and
    the bus given back once more without holding it. *)
Definition stuck_os := sim_os_with true (fun _ => ESP_OK).
Definition stuck_drv := esp_flash_chip_generic (host_of true ctx) stuck_os sim_enc 3.
Abbreviation stuck_erase := (esp_flash_erase_region (host_of true ctx) stuck_os [stuck_drv] CChip true CChip).
Example bus_given_back_twice :
  result (fun err s => negb (is_ok err) &&
    match bus_run (Bus false false) (fs_log s) with None => true | _ => false end)
    (stuck_erase 4096 8192 (st 0)) = true.
Proof. by vm_compute. Qed.

(** A length that makes the end of the range wrap to 0 is not refused: the erase
    starts (here it is stopped by the bus). *)
Example wrapped_length_erases :
  result (fun err s => match err with ESP_FAIL => bytes_are 0xFF 69632 16 s | _ => false end)
    (stuck_erase 69632 (2 ^ 32 - 69632) (st 0)) = true.
Proof. by vm_compute. Qed.

(** When letting other tasks run fails after the first sector, the call returns
    without a flush of the cache. *)
Definition shy_os := sim_os_with false (fun e => if sim_cell e 4096 =? 0xFF then ESP_FAIL else ESP_OK).
Definition shy_drv := esp_flash_chip_generic (host_of true ctx) shy_os sim_enc 3.
Example no_flush_after_yield :
  result (fun err s => negb (is_ok err) && bytes_are 0xFF 4096 16 s && negb (existsb is_flush (fs_log s)))
    (esp_flash_erase_region (host_of true ctx) shy_os [shy_drv] CChip true CChip 4096 8192 (st 0)) = true.
Proof. by vm_compute. Qed.

(** A chip of 32 MiB whose driver only sends 24 bits of an address keeps its size. *)
Example large_size_kept :
  result (fun err s => is_ok err && (size (fs_chip s) =? 2 ^ 25))
    (esp_flash_init (host_of true ctx) sim_os [main_drv] CChip true
       (FlashSt (Sim (fun _ => 0) 0 false 0 0x194020) dev0 (EspFlash None SPI_FLASH_SLOWRD 0 0 false false) []))
  = true.
Proof. by vm_compute. Qed.

(** A controller that stays busy is waited for without end, although the wait has
    a timeout. *)
Lemma host_wait_spins {E} `{SpiHw E} main hctx os n t (s : flash_st E) :
  (forall e, snd (ctl_idle e) = false) -> 0 < t -> host_wait (host_of main hctx) os n t s = Spins.
Proof.
  intros Hi. revert t s. induction n as [|n IH]; intros t s Ht; cbn [host_wait];
    unfold mbind, prog_bind at 1;
    assert (forall s, h_host_status (host_of main hctx) s
      = Done (with_env (fun _ => fst (ctl_idle (fs_env s))) s) false) as ->
      by (intros s'; destruct main; cbn; unfold spi_flash_hal_check_status, env_call;
          specialize (Hi (fs_env s')); destruct (ctl_idle (fs_env s')); cbn in *; by subst);
    replace (0 <? t) with true by (symmetry; apply Z.ltb_lt; lia); cbn [negb andb]; [done|].
  destruct (Z.ltb_spec 1 t); [|by apply IH]. cbn. apply IH. unfold HOST_DELAY_INTERVAL_US. lia.
Qed.

Lemma busy_controller_spins {E} `{SpiHw E} main hctx os polls t (s : flash_st E) :
  (forall e, snd (ctl_idle e) = false) -> 0 <= t < 2 ^ 32 - 1 ->
  spi_flash_chip_generic_wait_idle (host_of main hctx) os polls t s = Spins.
Proof.
  intros Hi Ht. unfold spi_flash_chip_generic_wait_idle, ESP_FLASH_CHIP_GENERIC_NO_TIMEOUT, UINT32_MAX.
  replace (t =? 2 ^ 32 - 1) with false by (symmetry; apply Z.eqb_neq; lia). cbn [negb].
  rewrite u32_small, Nat.add_comm by lia. cbn [Nat.add idle_loop].
  replace (0 <? t + 1) with true by (symmetry; apply Z.ltb_lt; lia).
  unfold mbind, prog_bind at 1. by rewrite host_wait_spins by (done || lia).
Qed.
End FlashExample.
